(* ===== verification/_CoqProject ===== *)
-Q . S2P
Prelude.v
Memory.v
KString.v
Digits.v
UPrintf.v
KPrintf.v
Ring.v
Sleeplock.v
Spinlock.v
Blocks.v
BlockCache.v
Bio.v
BioProofs.v
BioProps.v
Log.v
LogProofs.v
LogCrash.v
LogOps.v
Virtio.v
VirtioProofs.v
Riscv.v
Boot.v
Asm.v
Kalloc.v
Vm.v
Pipe.v
Uart.v
Console.v
ConsoleProofs.v
PageTable.v
VmMap.v
VmUser.v
VmCopy.v
VmAccess.v
Fs.v
FsBase.v
FsRead.v
FsDir.v
FsAlloc.v
FsWrite.v
FsWritei.v
FsPath.v
FsLink.v
Mkfs.v
MkfsProofs.v
MkfsImage.v
MkfsPath.v
Kernel.v
File.v
Proc.v
Args.v
Exec.v
Sysfile.v
Sysproc.v
Trap.v
Sched.v
Isolation.v
Grep.v
Ulib.v
UserProgs.v
Umalloc.v
UmallocProofs.v
Sh.v
ShProofs.v
ShRoundtrip.v
ShRun.v
Sys.v
UserMain.v
ShMain.v
Experiment.v
Graphs.v
Rows.v
UserRuns.v
ExpMain.v
ExpRuns.v
ExpRound.v
UserTests.v
UserTests2.v
TestRuns.v
Grind.v
