(* ===== verification/Prelude.v ===== *)
(** * A verification development for the MC504 fork of xv6-riscv

    The program is a small Unix kernel for RISC-V (src/kernel), the user programs it is
    shipped with (src/user) and the tool that builds its disk image (src/mkfs).  The fork
    changes the scheduler: processes have a type (IO_BOUND, CPU_BOUND, DEFAULT) that
    decides which runs first, and system calls record metrics of an experiment.

    ** How the code is modelled

    Code is translated function by function.  A function that touches kernel state is a
    computation of type [M S A] over the state [S] it uses; its outcome is [Done] with a
    result, the new state and the events it caused (characters output, disk blocks written),
    [Panic] with the message of the code's [panic], [Sleep] on a channel, or [Undef] where C
    leaves the behaviour undefined (a null or dangling pointer, an index outside an array).
    [Sleep] ends the run of a function at the point where the process gives up
    the processor; the theorems say what holds there and what a later run sees.
    Machine integers are elements of [Z], with [u8], [u16], [u32], [u64], [i32] and [i64]
    written at every operation that can wrap.  Memory is a map from addresses to bytes, and
    page tables, the free list and trap frames live in it as they do in the machine.
    A component's state is a part of a larger one through a [lens]; [lift] runs its
    functions there.  Theorems about runs use the weakest precondition [wp] of this file, or
    [wpn] of FsBase.v, which ignores the events.

    Loops are structural recursion on a list, a [for_loop] over a count, or recursion on fuel
    computed from the arguments (the number of blocks of a file, the length of
    a path, the pages of an address range, the entries of a device ring).  Running out of fuel is [Undef], so a
    theorem that a function is [Done] also says that its fuel is enough.  In the algorithms of
    user programs it is [None]; the theorems on [malloc] and [free] give the fuel in terms of
    the free list.

    Whole user programs are interaction trees over the system calls of user/user.h (Sys.v);
    they need no fuel, and [ends_with kernel t s Q], which the theorems on them use, says that
    the program [t] ends when [kernel] answers its calls.  What a program needs of the kernel
    is a class ([FileKernel], [RowsKernel], [RunKernel]) with a concrete instance.

    ** The files, and what they model

    - Prelude.v, Memory.v, Blocks.v, Digits.v, Ring.v: the monad and its logic,
      machine integers, byte memory, fields of disk blocks, positional notation, and the
      two data structures the kernel uses over and over (rings with free-running counters,
      doubly linked lists).
    - KString.v: kernel/string.c.  UPrintf.v and KPrintf.v: user/printf.c and kernel/printf.c.
    - Sleeplock.v, Spinlock.v: kernel/sleeplock.c, and kernel/spinlock.c both as functions and
      as the atomic steps of several processors.
    - Bio.v, BioProofs.v, BioProps.v: kernel/bio.c.  BlockCache.v is the interface between the
      cache and its clients, a class with laws; BioProofs.v is the instance.
    - Virtio.v: kernel/virtio_disk.c, the driver below the cache.  VirtioProofs.v: the steps of
      the processes, the interrupt handler and the device on it, and their invariant.
    - Log.v, LogProofs.v, LogCrash.v, LogOps.v: kernel/log.c, above any [BlockCache].
    - Riscv.v, Kalloc.v, Vm.v: kernel/riscv.h and memlayout.h, kernel/kalloc.c, kernel/vm.c.
      PageTable.v, VmMap.v, VmUser.v, VmCopy.v and VmAccess.v prove that the page
      tables in memory are a map, that its pages are owned by one address space each, and what
      the functions of kernel/vm.c do to it.
    - Boot.v: kernel/start.c on the control registers of a hart, main.c as the interleaving
      of the harts, kernel/plic.c.
    - Asm.v: kernel/swtch.S, trampoline.S, kernelvec.S and entry.S, instruction by
      instruction, on registers, control registers and memory.
    - Fs.v: kernel/fs.c.  FsBase.v, FsRead.v, FsDir.v, FsAlloc.v, FsWrite.v,
      FsWritei.v, FsPath.v and FsLink.v: its proofs, against the laws of the cache and of the log.
    - Mkfs.v: mkfs/mkfs.c, the tool that makes the disk image.  MkfsProofs.v: the invariant of
      the image while it is built; MkfsImage.v and MkfsPath.v: what the kernel finds on it.
    - Pipe.v: kernel/pipe.c.  Uart.v: kernel/uart.c.  Console.v, ConsoleProofs.v:
      kernel/console.c.
    - Kernel.v: the state of the whole kernel.  On it, File.v (kernel/file.c), Proc.v
      (kernel/proc.c), Args.v (the argument fetching of kernel/syscall.c), Exec.v
      (kernel/exec.c), Sysfile.v (kernel/sysfile.c), Sysproc.v (kernel/sysproc.c and the calls of the
      experiment), Trap.v (dispatch, kernel/trap.c).  Sched.v and Isolation.v are about these.
    - Ulib.v: user/ulib.c.  Umalloc.v, UmallocProofs.v: user/umalloc.c.  Grep.v: user/grep.c.
      UserProgs.v: the counting loop of user/wc.c and [fmtname] of ls.c, on bytes.
    - Sys.v: user programs as trees, with fprintf and printf.  UserMain.v: user/init.c, kill.c,
      ln.c, mkdir.c, rm.c, zombie.c, echo.c, cat.c, wc.c, grep.c, ls.c, forktest.c and stressfs.c.
      UserRuns.v: what wc, grep and init do.
    - Sh.v, ShProofs.v, ShRoundtrip.v: the parser of user/sh.c.  ShRun.v: [runcmd] as the tree
      of processes it starts, with their descriptor tables.  ShMain.v: the whole program, and
      that its system calls build that tree.
    - Experiment.v: the random numbers and the measures of user/run_experiment.c.  Graphs.v:
      what an iteration of user/graphs.c computes.  Rows.v: the file name and the exchange of
      rows of user/rows.c.  ExpMain.v: the three programs; ExpRuns.v: runs of rows.c;
      ExpRound.v: a round of the experiment.
    - UserTests.v, UserTests2.v: user/usertests.c, every test and the driver.
      TestRuns.v: a test passes on a kernel that keeps its contract.  Grind.v: user/grind.c.

    ** How the parts interact

    System calls arrive in Trap.v, fetch their arguments through the page table of
    the caller (Args.v, Vm.v), and work on the process table, the open files and the file
    system.  The file system reads and writes blocks through the cache and records changes
    with the log; the theorems of the log and of the file system use only the laws of
    [BlockCache], which BioProofs.v proves for kernel/bio.c.  The cache uses a transfer
    of a whole block as one step; VirtioProofs.v shows that the driver transfers exactly the
    block of each request, whatever else is in flight.  The two are not composed formally.
    MkfsImage.v connects mkfs with the file system: the image satisfies the invariants that the
    theorems on kernel/fs.c assume; MkfsPath.v composes it with path resolution, so that a
    file put on the image is found by its path and read back.

    ** What the theorems show

    - Disk: a crash during [commit], and any number of crashes during recovery, leave all
      or nothing of a transaction; recovery is idempotent; operations admitted by [begin_op] find
      their room in the log (and the one case where the reservation is one short).
    - Boot: [start] leaves every hart in supervisor mode at [main], set up as the kernel needs
      it; no hart does anything in [main] before hart 0 has initialised the kernel.
    - Registers: a process gets its registers back after a trap, a thread after a context
      switch and the kernel after an interrupt; each writes only its own frame.
    - File system: [readi] returns the bytes of the file, [dirlookup] the first entry
      with the name, [namex] the inode the path leads to; [dirlink] inserts into
      the map that [namex] looks names up in; and [writei], within the reservation of one operation, changes exactly
      the bytes of the write, the inode and the blocks it allocates; what is written is read back.
    - Disk driver: no interleaving of requests, device and interrupts makes the driver panic;
      a finished request has transferred its block; every request can complete.
    - mkfs: it succeeds on files that fit, and the image is well formed and holds them.
    - Cache, pipes, console, UART: each implements its abstract object (store of blocks,
      queue of bytes, edited lines).
    - Memory: [kalloc] never hands out a page twice; [mappages], [uvmcopy], [copyin] and
      [copyout] act on the map of pages as they should, on every error path too, and without
      losing a page.
    - Processes: a system call changes nothing of another process but what kill, wakeup and
      exit are meant to change; which process the scheduler runs; locks exclude each other.
    - User programs: the matcher of grep decides its patterns; the shell's parser terminates
      and inverts printing, and the programs the shell starts have the descriptors their pipes
      and redirections call for; the allocator hands out disjoint blocks and joins what is
      freed; grep prints the matching lines of its files and wc counts them, however the
      kernel splits its reads; init always has a shell running; the test of large files
      passes whenever the file calls keep their contract; conversions round trip.
    - Experiment: the generator is exact; a round starts and waits for its processes and its
      measures stay in their ranges; rows.c leaves a permutation of its lines and no file;
      the search of graphs.c finds shortest walks.

    Hypotheses that stand for the environment are arguments with names: the addresses the
    linker fixes ([kend], [trampoline]), user memory where a component does not see it
    ([copyin1], [ucopyout]), the bytes a device delivers, the padding the
    compiler leaves in a structure.

    ** Not modelled

    The user-side assembly, initcode.S and the stubs that usys.pl generates, is two or three
    instructions around an [ecall] and is not modelled, nor is the linker script.  The C code is
    modelled as functions, not as its instructions, so in Proc.v a context switch is the end of the
    run of a function; what the switch does to the registers is in Asm.v, without
    instruction fetch.  Of the inline
    assembly of riscv.h, the accesses to control registers are modelled where start.c and main.c
    use them.  The calls that [main] makes are names in Boot.v: what each does is in the file of
    its component.  Memory ordering: each function runs with its locks held, so fences order
    accesses that the model executes in program order.  A user program that forks is one
    tree: the child is the branch of answer 0, and the two are not run side by side (ShRun.v
    is the exception).  The tests of usertests.c and grind.c are modelled, but most of them
    are about the kernel under load, which trees of single processes do not show: only
    [writebig] has a theorem. *)

From Stdlib Require Import ZArith Lia FunctionalExtensionality.
From stdpp Require Import base list strings numbers.

Open Scope Z_scope.

(** ** Machine integers *)

Declare Scope c_scope.
Delimit Scope c_scope with C.

Definition wrap (w : Z) (x : Z) : Z := x mod 2 ^ w.
Definition swrap (w : Z) (x : Z) : Z := (x + 2 ^ (w - 1)) mod 2 ^ w - 2 ^ (w - 1).

Abbreviation u8 := (wrap 8).
Abbreviation u16 := (wrap 16).
Abbreviation u32 := (wrap 32).
Abbreviation u64 := (wrap 64).
Abbreviation i32 := (swrap 32).
Abbreviation i64 := (swrap 64).

(** ** Outcomes of kernel code *)

(** The sleep channels of the kernel: the objects whose address is passed to
    [sleep] and [wakeup]. *)
Inductive chan :=
| ChProc (i : Z)
| ChLog
| ChSleeplock (name : string) (i : Z)
| ChPipeRead (pi : Z)
| ChPipeWrite (pi : Z)
| ChTicks
| ChConsR
| ChUartTxR
| ChDiskFree
| ChBuf (i : Z).

#[export] Instance chan_eq_dec : EqDecision chan.
Proof. solve_decision. Defined.

(** What a piece of code does to the outside besides changing its state. *)
Inductive event :=
| EvWakeup (c : chan)
| EvDiskWrite (blockno : Z) (data : list Z)
| EvPutc (c : Z)
| EvWriteReg (reg v : Z).

Inductive outcome (S A : Type) :=
| Done (a : A) (s : S) (t : list event)
| Panic (msg : string)
| Sleep (c : chan) (s : S) (t : list event)
| Undef (why : string).
Arguments Done {S A} _ _ _.
Arguments Panic {S A} _.
Arguments Sleep {S A} _ _ _.
Arguments Undef {S A} _.

(** ** The monad of kernel code

    A computation takes the state of its component and gives an outcome; the
    trace lists, oldest first, the events it caused.  [Sleep] stands for a call
    of [sleep] that gives up the processor: the state is the one other
    processes see while the caller is off the processor. *)

Definition M (S A : Type) : Type := S -> outcome S A.

Definition ret {S A} (a : A) : M S A := fun s => Done a s [].

Definition prepend {S A} (t : list event) (o : outcome S A) : outcome S A :=
  match o with
  | Done a s t' => Done a s (t ++ t')
  | Panic msg => Panic msg
  | Sleep c s t' => Sleep c s (t ++ t')
  | Undef why => Undef why
  end.

Definition bind {S A B} (m : M S A) (k : A -> M S B) : M S B :=
  fun s =>
    match m s with
    | Done a s' t => prepend t (k a s')
    | Panic msg => Panic msg
    | Sleep c s' t => Sleep c s' t
    | Undef why => Undef why
    end.

Notation "'let*' x := m 'in' k" := (bind m (fun x => k))
  (at level 10, x name, m at level 200, k at level 200) : c_scope.
Notation "'let*' ' p := m 'in' k" := (bind m (fun x => match x with p => k end))
  (at level 10, p pattern, m at level 200, k at level 200) : c_scope.
Notation "m ;;; k" := (bind m (fun _ => k))
  (at level 100, k at level 200, right associativity) : c_scope.
Open Scope c_scope.

Definition get {S} : M S S := fun s => Done s s [].
Definition gets {S A} (f : S -> A) : M S A := fun s => Done (f s) s [].
Definition put {S} (s' : S) : M S unit := fun _ => Done tt s' [].
Definition modify {S} (f : S -> S) : M S unit := fun s => Done tt (f s) [].
Definition panic {S A} (msg : string) : M S A := fun _ => Panic msg.
Definition undef {S A} (why : string) : M S A := fun _ => Undef why.
Definition sleep_on {S A} (c : chan) : M S A := fun s => Sleep c s [].
Definition emit {S} (e : event) : M S unit := fun s => Done tt s [e].
Definition wakeup_ev {S} (c : chan) : M S unit := emit (EvWakeup c).
(** [printf] of a constant text. *)
Definition prints {S} (l : list Z) : M S unit := fun s => Done tt s (map EvPutc l).
Definition when {S} (b : bool) (m : M S unit) : M S unit := if b then m else ret tt.

(** [for (i = lo; i < lo + n; i++) body(i)] for a body without early exit. *)
Fixpoint for_loop {S} (n : nat) (lo : Z) (body : Z -> M S unit) : M S unit :=
  match n with
  | O => ret tt
  | Datatypes.S n' => body lo ;;; for_loop n' (lo + 1) body
  end.

(** The array element [l[i]], undefined behaviour out of range. *)
Definition zget {A} (l : list A) (i : Z) : option A :=
  if 0 <=? i then l !! Z.to_nat i else None.
Definition zset {A} (l : list A) (i : Z) (x : A) : list A :=
  if 0 <=? i then <[Z.to_nat i := x]> l else l.

(** The bytes of a string literal, without the terminator. *)
Fixpoint bytes (s : string) : list Z :=
  match s with
  | EmptyString => []
  | String a s' => Z.of_nat (Ascii.nat_of_ascii a) :: bytes s'
  end.

(** [s[i]] of a terminated string held as the list of its characters. *)
Definition str_at (s : list Z) (i : Z) : Z := default 0 (zget s i).

(** An argument of a variadic function: an integer or a pointer to a string,
    [None] being the null pointer.  The bits are those the caller passed. *)
Inductive varg := VInt (z : Z) | VStr (s : option (list Z)).

(** [va_arg] at an integer and at a pointer type. *)
Definition va_int (ap : list varg) : option (Z * list varg) :=
  match ap with VInt z :: ap' => Some (z, ap') | _ => None end.
Definition va_str (ap : list varg) : option (option (list Z) * list varg) :=
  match ap with VStr s :: ap' => Some (s, ap') | _ => None end.

Definition of_option {S A} (why : string) (o : option A) : M S A :=
  match o with Some a => ret a | None => undef why end.

(** ** Components inside a larger state *)

Record lens (T S : Type) := Lens { lget : T -> S; lset : S -> T -> T }.
Arguments Lens {T S} _ _.
Arguments lget {T S} _ _.
Arguments lset {T S} _ _ _.

Class LensLaws {T S} (l : lens T S) : Prop := {
  lget_lset : forall s t, lget l (lset l s t) = s;
  lset_lget : forall t, lset l (lget l t) t = t;
  lset_lset : forall s s' t, lset l s (lset l s' t) = lset l s t
}.

Definition lift {T S A} (l : lens T S) (m : M S A) : M T A :=
  fun t =>
    match m (lget l t) with
    | Done a s tr => Done a (lset l s t) tr
    | Panic msg => Panic msg
    | Sleep c s tr => Sleep c (lset l s t) tr
    | Undef why => Undef why
    end.

(** ** Total correctness *)

(** [wp m s Q]: started in [s], [m] returns (it neither panics, nor sleeps, nor
    meets undefined behaviour) and its result, final state and trace satisfy
    [Q]. *)
Definition wp {S A} (m : M S A) (s : S) (Q : A -> S -> list event -> Prop) : Prop :=
  match m s with
  | Done a s' t => Q a s' t
  | _ => False
  end.

Create HintDb kernel.

Lemma wp_done {S A} (m : M S A) s Q :
  wp m s Q <-> exists a s' t, m s = Done a s' t /\ Q a s' t.
Proof. unfold wp. destruct (m s); naive_solver. Qed.

Lemma wp_ret {S A} (a : A) (s : S) (Q : A -> S -> list event -> Prop) :
  Q a s [] -> wp (ret a) s Q.
Proof. done. Qed.

Lemma wp_bind {S A B} (m : M S A) (k : A -> M S B) s Q :
  wp m s (fun a s' t => wp (k a) s' (fun b s'' t' => Q b s'' (t ++ t'))) ->
  wp (bind m k) s Q.
Proof.
  unfold wp, bind. destruct (m s) as [a s' t| | |]; try done.
  by destruct (k a s').
Qed.

Lemma wp_mono {S A} (m : M S A) s (Q Q' : A -> S -> list event -> Prop) :
  wp m s Q -> (forall a s' t, Q a s' t -> Q' a s' t) -> wp m s Q'.
Proof. unfold wp. destruct (m s); naive_solver. Qed.

Lemma wp_and {S A} (m : M S A) s (Q Q' : A -> S -> list event -> Prop) :
  wp m s Q -> wp m s Q' -> wp m s (fun a s' t => Q a s' t /\ Q' a s' t).
Proof. unfold wp. by destruct (m s). Qed.

Lemma bind_Done {S A B} (m : M S A) (k : A -> M S B) s a s' t :
  m s = Done a s' t -> bind m k s = prepend t (k a s').
Proof. unfold bind. by intros ->. Qed.

Lemma bind_Done_inv {S A B} (m : M S A) (k : A -> M S B) s b s'' t :
  bind m k s = Done b s'' t ->
  exists a s' t1 t2, m s = Done a s' t1 /\ k a s' = Done b s'' t2 /\ t = t1 ++ t2.
Proof.
  unfold bind. destruct (m s) as [a s' t1| | |] eqn:Em; try done.
  destruct (k a s') as [b' s2 t2| | |] eqn:Ek; simpl; try done.
  intros [= -> -> <-]. by exists a, s', t1, t2.
Qed.

Lemma prepend_nil {S A} (o : outcome S A) : prepend [] o = o.
Proof. by destruct o. Qed.

Lemma prepend_prepend {S A} t t' (o : outcome S A) :
  prepend t (prepend t' o) = prepend (t ++ t') o.
Proof. destruct o; simpl; by rewrite ?app_assoc. Qed.

Lemma bind_assoc {S A B C} (m : M S A) (f : A -> M S B) (g : B -> M S C) s :
  bind (bind m f) g s = bind m (fun a => bind (f a) g) s.
Proof.
  unfold bind. destruct (m s) as [a s' t| | |]; try done; simpl.
  destruct (f a s') as [b s2 t2| | |]; try done; simpl.
  by rewrite prepend_prepend.
Qed.

Lemma wp_lift {T S A} (l : lens T S) (m : M S A) t Q :
  wp m (lget l t) (fun a s tr => Q a (lset l s t) tr) -> wp (lift l m) t Q.
Proof. unfold wp, lift. by destruct (m (lget l t)). Qed.

(** Invariants of a bounded loop: [I k] holds before iteration [k]. *)
Lemma wp_for_loop {S} (n : nat) lo (body : Z -> M S unit) s
    (I : Z -> S -> list event -> Prop) Q :
  I lo s [] ->
  (forall i s' t, lo <= i < lo + Z.of_nat n -> I i s' t ->
     wp (body i) s' (fun _ s'' t' => I (i + 1) s'' (t ++ t'))) ->
  (forall s' t, I (lo + Z.of_nat n) s' t -> Q tt s' t) ->
  wp (for_loop n lo body) s Q.
Proof.
  enough (G : forall n lo s t, I lo s t ->
    (forall i s' t, lo <= i < lo + Z.of_nat n -> I i s' t ->
       wp (body i) s' (fun _ s'' t' => I (i + 1) s'' (t ++ t'))) ->
    wp (for_loop n lo body) s (fun _ s' t' => I (lo + Z.of_nat n) s' (t ++ t'))).
  { intros H0 Hb HQ. eapply wp_mono; [by apply (G n lo s [])|].
    intros [] s' t Hi. by apply HQ. }
  clear. intros n. induction n as [|n IH]; intros lo s t H0 Hb; simpl.
  - apply wp_ret. rewrite Z.add_0_r, app_nil_r. done.
  - apply wp_bind. eapply wp_mono; [apply Hb; [lia|done]|].
    intros [] s' t1 H1. specialize (IH (lo + 1) s' (t ++ t1) H1).
    replace (lo + Z.of_nat (Datatypes.S n)) with (lo + 1 + Z.of_nat n) by lia.
    eapply wp_mono; [apply IH; intros; apply Hb; [lia|done]|].
    simpl. intros _ s2 t2. by rewrite app_assoc.
Qed.

(** Steps through the head of a computation. *)
Ltac wp_step :=
  lazymatch goal with
  | |- wp (bind _ _) _ _ => apply wp_bind
  | |- wp (ret _) _ _ => apply wp_ret
  | |- wp get _ _ => unfold wp, get
  | |- wp (gets _) _ _ => unfold wp, gets
  | |- wp (put _) _ _ => unfold wp, put
  | |- wp (modify _) _ _ => unfold wp, modify
  | |- wp (emit _) _ _ => unfold wp, emit
  | |- wp (wakeup_ev _) _ _ => unfold wp, wakeup_ev, emit
  end; cbn beta iota.
Ltac wp_steps := repeat wp_step.

(** Unfolds one bind of an equation [bind m k s = Done ...]. *)
Ltac inv_bind H :=
  let a := fresh "a" in let s := fresh "s" in let t1 := fresh "t" in let t2 := fresh "t" in
  let H1 := fresh "H" in let H2 := fresh "H" in
  apply bind_Done_inv in H as (a & s & t1 & t2 & H1 & H2 & ->).

(** ** Arrays *)

Lemma zget_Some {A} (l : list A) i x :
  zget l i = Some x -> 0 <= i < Z.of_nat (length l).
Proof.
  unfold zget. destruct (Z.leb_spec 0 i); [|done].
  intros E. apply lookup_lt_Some in E. lia.
Qed.

Lemma zget_is_Some {A} (l : list A) i :
  0 <= i < Z.of_nat (length l) -> is_Some (zget l i).
Proof.
  intros H. unfold zget. rewrite (proj2 (Z.leb_le 0 i)) by lia.
  apply lookup_lt_is_Some_2. lia.
Qed.

Lemma zget_None {A} (l : list A) i :
  zget l i = None -> i < 0 \/ Z.of_nat (length l) <= i.
Proof.
  intros H. destruct (decide (0 <= i < Z.of_nat (length l))) as [Hi|]; [|lia].
  destruct (zget_is_Some l i Hi). congruence.
Qed.

Lemma length_zset {A} (l : list A) i x : length (zset l i x) = length l.
Proof. unfold zset. destruct (0 <=? i); [apply length_insert|done]. Qed.

Lemma zget_zset_eq {A} (l : list A) i x :
  0 <= i < Z.of_nat (length l) -> zget (zset l i x) i = Some x.
Proof.
  intros H. unfold zget, zset. rewrite (proj2 (Z.leb_le 0 i)) by lia.
  apply list_lookup_insert_eq. lia.
Qed.

Lemma zget_zset_ne {A} (l : list A) i j x :
  i <> j -> zget (zset l i x) j = zget l j.
Proof.
  intros H. unfold zget, zset.
  destruct (Z.leb_spec 0 i), (Z.leb_spec 0 j); try done.
  apply list_lookup_insert_ne. lia.
Qed.

Lemma zset_id {A} (l : list A) i x : zget l i = Some x -> zset l i x = l.
Proof.
  intros H. pose proof (zget_Some _ _ _ H). unfold zget, zset in *.
  rewrite (proj2 (Z.leb_le 0 i)) in * by lia. by apply list_insert_id.
Qed.

Lemma zset_zset {A} (l : list A) i x y : zset (zset l i x) i y = zset l i y.
Proof. unfold zset. destruct (0 <=? i); [|done]. by rewrite list_insert_insert_eq. Qed.

#[export] Hint Rewrite @length_zset @length_insert @length_app @length_replicate : arrays.

(** ** Maps from block numbers and other integers *)

Definition fset {A} (f : Z -> A) (i : Z) (x : A) : Z -> A :=
  fun j => if j =? i then x else f j.

Lemma fset_eq {A} (f : Z -> A) i x : fset f i x i = x.
Proof. unfold fset. by rewrite Z.eqb_refl. Qed.

Lemma fset_ne {A} (f : Z -> A) i j x : j <> i -> fset f i x j = f j.
Proof. intros H. unfold fset. by rewrite (proj2 (Z.eqb_neq j i)). Qed.

Lemma fset_id {A} (f : Z -> A) i : fset f i (f i) = f.
Proof.
  apply functional_extensionality. intros j. unfold fset.
  by destruct (Z.eqb_spec j i) as [->|].
Qed.

Lemma fset_fset {A} (f : Z -> A) i x y : fset (fset f i x) i y = fset f i y.
Proof.
  apply functional_extensionality. intros j. unfold fset. by destruct (j =? i).
Qed.

#[export] Hint Rewrite @fset_eq @fset_fset @fset_id : fset.
#[export] Hint Rewrite @fset_ne using (done || lia) : fset.

(** ** Machine integers *)

Lemma wrap_small w x : 0 <= x < 2 ^ w -> wrap w x = x.
Proof. apply Z.mod_small. Qed.

Lemma wrap_range w x : 0 <= w -> 0 <= wrap w x < 2 ^ w.
Proof. intros. apply Z.mod_pos_bound. by apply Z.pow_pos_nonneg. Qed.

Lemma swrap_small w x :
  0 < w -> - 2 ^ (w - 1) <= x < 2 ^ (w - 1) -> swrap w x = x.
Proof.
  intros Hw H. unfold swrap.
  assert (2 ^ w = 2 * 2 ^ (w - 1)) as E
    by (rewrite <- Z.pow_succ_r by lia; f_equal; lia).
  rewrite Z.mod_small; lia.
Qed.

Lemma swrap_range w x : 0 < w -> - 2 ^ (w - 1) <= swrap w x < 2 ^ (w - 1).
Proof.
  intros Hw. unfold swrap.
  assert (2 ^ w = 2 * 2 ^ (w - 1)) as E
    by (rewrite <- Z.pow_succ_r by lia; f_equal; lia).
  pose proof (Z.mod_pos_bound (x + 2 ^ (w - 1)) (2 ^ w)). lia.
Qed.

Lemma wrap_wrap w x : 0 <= w -> wrap w (wrap w x) = wrap w x.
Proof. intros. apply Z.mod_mod. pose proof (Z.pow_pos_nonneg 2 w). lia. Qed.

Lemma wrap_add_l w x y : wrap w (wrap w x + y) = wrap w (x + y).
Proof. apply Zplus_mod_idemp_l. Qed.

Lemma wrap_add_r w x y : wrap w (x + wrap w y) = wrap w (x + y).
Proof. apply Zplus_mod_idemp_r. Qed.

Lemma wrap_sub_l w x y : wrap w (wrap w x - y) = wrap w (x - y).
Proof. apply Zminus_mod_idemp_l. Qed.

Lemma wrap_sub_r w x y : wrap w (x - wrap w y) = wrap w (x - y).
Proof. apply Zminus_mod_idemp_r. Qed.

(** Reducing a wrapped counter modulo a power of two that divides the width
    forgets the wrapping: the reason ring buffers may index with free-running
    counters. *)
Lemma wrap_mod_pow2 w k x : 0 <= k <= w -> wrap w x mod 2 ^ k = x mod 2 ^ k.
Proof.
  intros H. apply Z.mod_mod_divide. exists (2 ^ (w - k)).
  rewrite <- Z.pow_add_r by lia. f_equal. lia.
Qed.

#[export] Hint Rewrite @wrap_add_l @wrap_add_r @wrap_sub_l @wrap_sub_r : wrap.

(** Turns the boolean tests of the code into propositions and splits on them. *)
Ltac case_bool :=
  match goal with
  | |- context [?a <? ?b] => destruct (Z.ltb_spec a b)
  | |- context [?a <=? ?b] => destruct (Z.leb_spec a b)
  | |- context [?a =? ?b] => destruct (Z.eqb_spec a b)
  | H : context [?a <? ?b] |- _ => destruct (Z.ltb_spec a b)
  | H : context [?a <=? ?b] |- _ => destruct (Z.leb_spec a b)
  | H : context [?a =? ?b] |- _ => destruct (Z.eqb_spec a b)
  end; cbn [negb andb orb] in *.
