(* ===== verification/Memory.v ===== *)
(** * Byte-addressed memory

    Physical and virtual memory as the C code sees it: a map from addresses to
    bytes.  Structures that live in raw pages (page tables, the free list, the
    trap frame) are read and written through little-endian loads and stores. *)

From Stdlib Require Import ZArith Lia FunctionalExtensionality.
From stdpp Require Import base list numbers.
From S2P Require Import Prelude.

Definition mem : Type := Z -> Z.

Definition upd (m : mem) (a v : Z) : mem := fun x => if x =? a then v else m x.

Fixpoint load_le (n : nat) (m : mem) (a : Z) : Z :=
  match n with
  | O => 0
  | S n' => m a + 256 * load_le n' m (a + 1)
  end.

Fixpoint store_le (n : nat) (m : mem) (a v : Z) : mem :=
  match n with
  | O => m
  | S n' => upd (store_le n' m (a + 1) (v / 256)) a (v mod 256)
  end.

Abbreviation load16 := (load_le 2).
Abbreviation load32 := (load_le 4).
Abbreviation load64 := (load_le 8).
Abbreviation store16 := (store_le 2).
Abbreviation store32 := (store_le 4).
Abbreviation store64 := (store_le 8).

(** The bytes of [l] written at consecutive addresses from [a]. *)
Fixpoint store_bytes (m : mem) (a : Z) (l : list Z) : mem :=
  match l with
  | [] => m
  | b :: l' => store_bytes (upd m a b) (a + 1) l'
  end.

Fixpoint load_bytes (n : nat) (m : mem) (a : Z) : list Z :=
  match n with
  | O => []
  | S n' => m a :: load_bytes n' m (a + 1)
  end.

(** A NUL-terminated string of at most [n] characters at [p]: the bytes up to
    the first zero byte or up to the limit. *)
Fixpoint cstrn (n : nat) (m : mem) (p : Z) : list Z :=
  match n with
  | O => []
  | S n' => if m p =? 0 then [] else m p :: cstrn n' m (p + 1)
  end.

Definition bytes_ok (m : mem) : Prop := forall a, 0 <= m a < 256.

(** [m'] is [m] except on the [n] addresses from [lo]. *)
Definition same_outside (lo n : Z) (m m' : mem) : Prop :=
  forall a, a < lo \/ lo + n <= a -> m' a = m a.

Lemma mem_ext (m m' : mem) : (forall a, m a = m' a) -> m = m'.
Proof. apply functional_extensionality. Qed.

Lemma upd_eq m a v : upd m a v a = v.
Proof. unfold upd. by rewrite Z.eqb_refl. Qed.

Lemma upd_ne m a v x : x <> a -> upd m a v x = m x.
Proof. unfold upd. intros H. by rewrite (proj2 (Z.eqb_neq x a)). Qed.

#[export] Hint Rewrite upd_eq : mem.
#[export] Hint Rewrite upd_ne using lia : mem.

Lemma load_le_ext n m m' a :
  (forall x, a <= x < a + Z.of_nat n -> m x = m' x) -> load_le n m a = load_le n m' a.
Proof.
  revert a. induction n as [|n IH]; intros a H; simpl; [done|].
  rewrite H by lia. rewrite (IH (a + 1)); [done|]. intros. apply H. lia.
Qed.

Lemma store_le_outside n m a v x :
  x < a \/ a + Z.of_nat n <= x -> store_le n m a v x = m x.
Proof.
  revert m a v. induction n as [|n IH]; intros m a v H; cbn [store_le]; [done|].
  rewrite upd_ne by lia. apply IH. lia.
Qed.

Lemma load_le_store_le_eq n m a v :
  load_le n (store_le n m a v) a = v mod 256 ^ Z.of_nat n.
Proof.
  revert m a v. induction n as [|n IH]; intros m a v.
  - simpl. by rewrite Z.mod_1_r.
  - cbn [store_le load_le]. rewrite upd_eq.
    rewrite (load_le_ext n _ (store_le n m (a + 1) (v / 256))) by (intros; apply upd_ne; lia).
    rewrite IH, Nat2Z.inj_succ, Z.pow_succ_r by lia.
    rewrite (Z.rem_mul_r v 256); [done|lia|].
    assert (0 < 256 ^ Z.of_nat n) by (apply Z.pow_pos_nonneg; lia). lia.
Qed.

Lemma load_le_store_le_ne n k m a b v :
  a + Z.of_nat n <= b \/ b + Z.of_nat k <= a ->
  load_le n (store_le k m b v) a = load_le n m a.
Proof. intros H. apply load_le_ext. intros x Hx. apply store_le_outside. lia. Qed.

Lemma load_le_bound n m a : bytes_ok m -> 0 <= load_le n m a < 256 ^ Z.of_nat n.
Proof.
  intros Hm. revert a. induction n as [|n IH]; intros a; [simpl; lia|].
  cbn [load_le]. rewrite Nat2Z.inj_succ, Z.pow_succ_r by lia.
  pose proof (IH (a + 1)). pose proof (Hm a). lia.
Qed.

Lemma upd_bytes_ok m a v : bytes_ok m -> 0 <= v < 256 -> bytes_ok (upd m a v).
Proof. intros Hm Hv x. unfold upd. by destruct (x =? a). Qed.

Lemma store_le_bytes_ok n m a v : bytes_ok m -> bytes_ok (store_le n m a v).
Proof.
  revert m a v. induction n as [|n IH]; intros m a v Hm; simpl; [done|].
  apply upd_bytes_ok; [by apply IH|]. apply Z.mod_pos_bound. lia.
Qed.

Lemma load64_store64_eq m a v : 0 <= v < 2 ^ 64 -> load64 (store64 m a v) a = v.
Proof. intros. rewrite load_le_store_le_eq. apply Z.mod_small. done. Qed.

#[export] Hint Resolve upd_bytes_ok store_le_bytes_ok : kernel.

Lemma same_outside_refl lo n m : same_outside lo n m m.
Proof. by intros a _. Qed.

Lemma same_outside_trans lo n m m' m'' :
  same_outside lo n m m' -> same_outside lo n m' m'' -> same_outside lo n m m''.
Proof. intros H H' a Ha. by rewrite H', H. Qed.

Lemma load_bytes_ext n m m' a :
  (forall x, a <= x < a + Z.of_nat n -> m x = m' x) -> load_bytes n m a = load_bytes n m' a.
Proof.
  revert a. induction n as [|n IH]; intros a H; simpl; [done|].
  rewrite H by lia. f_equal. apply IH. intros. apply H. lia.
Qed.

Lemma length_load_bytes n m a : length (load_bytes n m a) = n.
Proof. revert a. induction n; intros; simpl; auto. Qed.

Lemma store_bytes_outside m a l x :
  x < a \/ a + Z.of_nat (length l) <= x -> store_bytes m a l x = m x.
Proof.
  revert m a. induction l as [|b l IH]; intros m a H; simpl in *; [done|].
  rewrite IH by lia. apply upd_ne. lia.
Qed.

Lemma load_store_bytes m a l : load_bytes (length l) (store_bytes m a l) a = l.
Proof.
  revert m a. induction l as [|b l IH]; intros m a; simpl; [done|].
  f_equal; [|apply IH]. rewrite store_bytes_outside by lia. apply upd_eq.
Qed.

Lemma lookup_load_bytes n m a i :
  (i < n)%nat -> load_bytes n m a !! i = Some (m (a + Z.of_nat i)).
Proof.
  revert a i. induction n as [|n IH]; intros a i H; [lia|]. destruct i as [|i]; simpl.
  - by rewrite Z.add_0_r.
  - rewrite IH by lia. do 2 f_equal. lia.
Qed.

Lemma cstrn_S n m p :
  cstrn (S n) m p = if m p =? 0 then [] else m p :: cstrn n m (p + 1).
Proof. done. Qed.

Lemma cstrn_ext n m m' p p' :
  (forall i, 0 <= i < Z.of_nat n -> m (p + i) = m' (p' + i)) -> cstrn n m p = cstrn n m' p'.
Proof.
  revert p p'. induction n as [|n IH]; intros p p' H; cbn [cstrn]; [done|].
  pose proof (H 0 ltac:(lia)) as H0. rewrite !Z.add_0_r in H0. rewrite H0.
  destruct (m' p' =? 0); [done|]. f_equal. apply IH. intros i Hi.
  replace (p + 1 + i) with (p + (i + 1)) by lia.
  replace (p' + 1 + i) with (p' + (i + 1)) by lia. apply H. lia.
Qed.

Lemma length_cstrn n m p : (length (cstrn n m p) <= n)%nat.
Proof.
  revert p. induction n as [|n IH]; intros p; cbn [cstrn length]; [lia|].
  destruct (m p =? 0); cbn [length]; [lia|]. specialize (IH (p + 1)). lia.
Qed.

(** The byte after a string shorter than the limit is the terminator. *)
Lemma cstrn_terminated n m p :
  (length (cstrn n m p) < n)%nat -> m (p + Z.of_nat (length (cstrn n m p))) = 0.
Proof.
  revert p. induction n as [|n IH]; intros p H; cbn [cstrn] in *; [simpl in H; lia|].
  destruct (Z.eqb_spec (m p) 0) as [E|E]; cbn [length] in *.
  - by rewrite Z.add_0_r.
  - rewrite <- (IH (p + 1)) by lia. f_equal. lia.
Qed.

Lemma cstrn_range n m p b : bytes_ok m -> In b (cstrn n m p) -> 0 <= b < 256.
Proof.
  intros Hm. revert p. induction n as [|n IH]; intros p; cbn [cstrn]; [done|].
  destruct (m p =? 0); [done|]. intros [<-|Hin]; [apply Hm|by eapply IH].
Qed.

Arguments load_le : simpl never.
Arguments store_le : simpl never.
