(* ===== verification/KString.v ===== *)
(** * kernel/string.c: memory and string primitives of the kernel *)

From Stdlib Require Import ZArith Lia.
From stdpp Require Import base list numbers.
From S2P Require Import Prelude Memory.

(** The functions that return their first argument unchanged are modelled by
    the memory they leave.  Counts are converted to the number of iterations
    the C loop makes. *)

Fixpoint memset_loop (k : nat) (m : mem) (cdst c i : Z) : mem :=
  match k with
  | O => m
  | S k' => memset_loop k' (upd m (cdst + i) (u8 c)) cdst c (i + 1)
  end.

Definition memset (m : mem) (dst c n : Z) : mem := memset_loop (Z.to_nat n) m dst c 0.

Fixpoint memcmp_loop (k : nat) (m : mem) (s1 s2 : Z) : Z :=
  match k with
  | O => 0
  | S k' => if negb (m s1 =? m s2) then m s1 - m s2 else memcmp_loop k' m (s1 + 1) (s2 + 1)
  end.

Definition memcmp (m : mem) (v1 v2 n : Z) : Z := memcmp_loop (Z.to_nat n) m v1 v2.

(** [while(n-- > 0) *d++ = *s++] *)
Fixpoint move_forward (k : nat) (m : mem) (d s : Z) : mem :=
  match k with
  | O => m
  | S k' => move_forward k' (upd m d (m s)) (d + 1) (s + 1)
  end.

(** [while(n-- > 0) *--d = *--s] *)
Fixpoint move_backward (k : nat) (m : mem) (d s : Z) : mem :=
  match k with
  | O => m
  | S k' => move_backward k' (upd m (d - 1) (m (s - 1))) (d - 1) (s - 1)
  end.

Definition memmove (m : mem) (dst src n : Z) : mem :=
  if n =? 0 then m
  else if (src <? dst) && (dst <? src + n)
  then move_backward (Z.to_nat n) m (dst + n) (src + n)
  else move_forward (Z.to_nat n) m dst src.

Definition memcpy (m : mem) (dst src n : Z) : mem := memmove m dst src n.

Fixpoint strncmp (n : nat) (m : mem) (p q : Z) : Z :=
  match n with
  | O => 0
  | S n' =>
    if negb (m p =? 0) && (m p =? m q) then strncmp n' m (p + 1) (q + 1)
    else u8 (m p) - u8 (m q)
  end.

(** [while(n-- > 0) *s++ = 0] *)
Fixpoint zero_fill (n : nat) (m : mem) (s : Z) : mem :=
  match n with
  | O => m
  | S n' => zero_fill n' (upd m s 0) (s + 1)
  end.

Fixpoint strncpy (n : nat) (m : mem) (s t : Z) : mem :=
  match n with
  | O => m
  | S n' =>
    let c := m t in
    let m' := upd m s c in
    if negb (c =? 0) then strncpy n' m' (s + 1) (t + 1) else zero_fill n' m' (s + 1)
  end.

Fixpoint safestrcpy_loop (k : nat) (m : mem) (s t : Z) : mem :=
  match k with
  | O => upd m s 0
  | S k' =>
    let c := m t in
    let m' := upd m s c in
    if negb (c =? 0) then safestrcpy_loop k' m' (s + 1) (t + 1) else upd m' (s + 1) 0
  end.

Definition safestrcpy (m : mem) (s t n : Z) : mem :=
  if n <=? 0 then m else safestrcpy_loop (Z.to_nat (n - 1)) m s t.

(** [strlen] has no bound of its own: [fuel] is the number of bytes the loop may
    look at, and running out of it gives [None]. *)
Fixpoint strlen_loop (fuel : nat) (m : mem) (s n : Z) : option Z :=
  match fuel with
  | O => None
  | S fuel' => if m (s + n) =? 0 then Some n else strlen_loop fuel' m s (n + 1)
  end.

Definition strlen (fuel : nat) (m : mem) (s : Z) : option Z := strlen_loop fuel m s 0.

(** ** memset *)

Lemma memset_loop_at k m cdst c i a :
  memset_loop k m cdst c i a =
    if (cdst + i <=? a) && (a <? cdst + i + Z.of_nat k) then u8 c else m a.
Proof.
  revert m i. induction k as [|k IH]; intros m i; cbn [memset_loop].
  - repeat case_bool; lia || done.
  - rewrite IH. unfold upd. repeat case_bool; lia || done.
Qed.

Lemma memset_at m dst c n a : 0 <= n ->
  memset m dst c n a = if (dst <=? a) && (a <? dst + n) then u8 c else m a.
Proof. intros H. unfold memset. rewrite memset_loop_at. by rewrite Z.add_0_r, Z2Nat.id. Qed.

Lemma memset_inside m dst c n a : dst <= a < dst + n -> memset m dst c n a = u8 c.
Proof. intros H. rewrite memset_at by lia. repeat case_bool; lia || done. Qed.

Lemma memset_outside m dst c n a :
  0 <= n -> a < dst \/ dst + n <= a -> memset m dst c n a = m a.
Proof. intros. rewrite memset_at by lia. repeat case_bool; lia || done. Qed.

Lemma memset_bytes_ok m dst c n : bytes_ok m -> 0 <= n -> bytes_ok (memset m dst c n).
Proof.
  intros Hm Hn a. rewrite memset_at by done.
  destruct (_ && _); [apply (wrap_range 8); lia|apply Hm].
Qed.

#[export] Hint Resolve memset_bytes_ok : kernel.

(** ** memmove *)

Lemma move_forward_at k m d s a :
  ~ (s < d < s + Z.of_nat k) ->
  move_forward k m d s a =
    if (d <=? a) && (a <? d + Z.of_nat k) then m (s + (a - d)) else m a.
Proof.
  revert m d s. induction k as [|k IH]; intros m d s H; cbn [move_forward].
  - repeat case_bool; lia || done.
  - rewrite IH by lia. unfold upd.
    repeat case_bool; try lia; try done; f_equal; lia.
Qed.

Lemma move_backward_at k m d s a :
  ~ (d < s < d + Z.of_nat k) ->
  move_backward k m d s a =
    if (d - Z.of_nat k <=? a) && (a <? d) then m (s - (d - a)) else m a.
Proof.
  revert m d s. induction k as [|k IH]; intros m d s H; cbn [move_backward].
  - repeat case_bool; lia || done.
  - rewrite IH by lia. unfold upd.
    repeat case_bool; try lia; try done; f_equal; lia.
Qed.

Lemma memmove_at m dst src n a : 0 <= n ->
  memmove m dst src n a =
    if (dst <=? a) && (a <? dst + n) then m (src + (a - dst)) else m a.
Proof.
  intros Hn. unfold memmove. destruct (Z.eqb_spec n 0) as [->|Hn0].
  - repeat case_bool; lia || done.
  - destruct ((src <? dst) && (dst <? src + n)) eqn:E.
    + rewrite move_backward_at by (rewrite Z2Nat.id by lia; lia).
      rewrite Z2Nat.id by lia.
      replace (dst + n - n) with dst by lia.
      repeat case_bool; try lia; try done; f_equal; lia.
    + rewrite move_forward_at, Z2Nat.id by
        (try rewrite Z2Nat.id by lia; destruct (Z.ltb_spec src dst), (Z.ltb_spec dst (src + n)); simpl in E; lia || done).
      done.
Qed.

Lemma memmove_bytes_ok m dst src n : bytes_ok m -> 0 <= n -> bytes_ok (memmove m dst src n).
Proof. intros Hm Hn a. rewrite memmove_at by done. destruct (_ && _); apply Hm. Qed.

#[export] Hint Resolve memmove_bytes_ok : kernel.

(** ** Strings *)

Lemma strncmp_eq_cstrn n m p q :
  bytes_ok m -> strncmp n m p q = 0 <-> cstrn n m p = cstrn n m q.
Proof.
  intros Hm. revert p q. induction n as [|n IH]; intros p q; cbn [strncmp cstrn]; [done|].
  rewrite !(wrap_small 8) by apply Hm.
  destruct (Z.eqb_spec (m p) 0) as [Ep|Ep], (Z.eqb_spec (m q) 0) as [Eq|Eq],
    (Z.eqb_spec (m p) (m q)) as [E|E]; cbn [negb andb]; try (split; intros; lia || done).
  - rewrite IH, E. split; intros H; [by rewrite H|by injection H].
  - split; [lia|intros [=]; lia].
Qed.

Lemma zero_fill_at n m s a :
  zero_fill n m s a = if (s <=? a) && (a <? s + Z.of_nat n) then 0 else m a.
Proof.
  revert m s. induction n as [|n IH]; intros m s; cbn [zero_fill].
  - repeat case_bool; lia || done.
  - rewrite IH. unfold upd. repeat case_bool; lia || done.
Qed.

Definition nthZ (l : list Z) (i : Z) : Z := nth (Z.to_nat i) l 0.

Lemma nthZ_cons b l i : 0 < i -> nthZ (b :: l) i = nthZ l (i - 1).
Proof.
  intros H. unfold nthZ. replace (Z.to_nat i) with (S (Z.to_nat (i - 1))) by lia. done.
Qed.

Lemma nthZ_nil i : nthZ [] i = 0.
Proof. unfold nthZ. by destruct (Z.to_nat i). Qed.

(** Reading back the array of a string's characters gives the string. *)
Lemma cstrn_self n m p : cstrn n m p = cstrn n (nthZ (cstrn n m p)) 0.
Proof.
  revert p. induction n as [|n IH]; intros p; [done|]. rewrite !cstrn_S.
  destruct (Z.eqb_spec (m p) 0) as [E|E]; [by rewrite nthZ_nil|].
  change (nthZ (m p :: _) 0) with (m p). rewrite (proj2 (Z.eqb_neq _ 0)) by done.
  f_equal. rewrite (IH (p + 1)) at 1. apply cstrn_ext. intros i Hi.
  rewrite nthZ_cons by lia. f_equal. lia.
Qed.

Lemma strncpy_at n m s t a :
  s + Z.of_nat n <= t \/ t + Z.of_nat n <= s ->
  strncpy n m s t a =
    if (s <=? a) && (a <? s + Z.of_nat n) then nthZ (cstrn n m t) (a - s) else m a.
Proof.
  revert m s t. induction n as [|n IH]; intros m s t H; cbn [strncpy cstrn].
  { repeat case_bool; lia || done. }
  destruct (Z.eqb_spec (m t) 0) as [E|E]; cbn [negb].
  - rewrite zero_fill_at. unfold upd.
    repeat case_bool; rewrite ?nthZ_nil; lia || done.
  - rewrite IH by lia.
    rewrite (cstrn_ext n (upd m s (m t)) m (t + 1) (t + 1)) by (intros; apply upd_ne; lia).
    unfold upd. repeat case_bool; try lia; try done.
    + rewrite nthZ_cons by lia. f_equal. lia.
    + subst a. by rewrite Z.sub_diag.
Qed.

Lemma safestrcpy_loop_outside k m s t :
  same_outside s (Z.of_nat (S k)) m (safestrcpy_loop k m s t).
Proof.
  revert m s t. induction k as [|k IH]; intros m s t a Ha; cbn [safestrcpy_loop].
  - apply upd_ne. lia.
  - destruct (m t =? 0); cbn [negb].
    + rewrite !upd_ne by lia. done.
    + rewrite IH by lia. apply upd_ne. lia.
Qed.

Lemma safestrcpy_loop_str k m s t :
  s + Z.of_nat (S k) <= t \/ t + Z.of_nat k <= s ->
  cstrn (S k) (safestrcpy_loop k m s t) s = cstrn k m t.
Proof.
  revert m s t. induction k as [|k IH]; intros m s t H.
  { cbn. by rewrite upd_eq. }
  rewrite (cstrn_S (S k)), (cstrn_S k m t). cbn [safestrcpy_loop].
  destruct (Z.eqb_spec (m t) 0) as [E|E]; cbn [negb].
  - rewrite upd_ne, upd_eq by lia. by rewrite E.
  - rewrite (safestrcpy_loop_outside k _ (s + 1) (t + 1) s), upd_eq by lia.
    rewrite (proj2 (Z.eqb_neq _ 0)) by done.
    f_equal. rewrite IH by lia. apply cstrn_ext. intros i Hi. apply upd_ne. lia.
Qed.

Lemma strlen_loop_Some fuel m s n k :
  0 <= k -> (forall i, 0 <= i < k -> m (s + n + i) <> 0) -> m (s + n + k) = 0 ->
  (Z.to_nat k < fuel)%nat -> strlen_loop fuel m s n = Some (n + k).
Proof.
  revert n k. induction fuel as [|fuel IH]; intros n k Hk Hne H0 Hf; [lia|].
  cbn [strlen_loop]. destruct (Z.eq_dec k 0) as [->|Hk0].
  - rewrite Z.add_0_r in H0. by rewrite H0, Z.add_0_r.
  - pose proof (Hne 0 ltac:(lia)) as Hn0. rewrite Z.add_0_r in Hn0.
    rewrite (proj2 (Z.eqb_neq _ 0)) by done.
    rewrite (IH (n + 1) (k - 1)); [f_equal; lia|lia| | |lia].
    + intros i Hi. replace (s + (n + 1) + i) with (s + n + (i + 1)) by lia. apply Hne. lia.
    + replace (s + (n + 1) + (k - 1)) with (s + n + k) by lia. done.
Qed.

(** ** Properties *)

(** [memmove] copies the [n] source bytes as they were before the call, also
    when the two ranges overlap in either direction, and changes nothing
    else. *)
Theorem memmove_correct (m : mem) (dst src n : Z) (Hn : 0 <= n) :
  (forall i, 0 <= i < n -> memmove m dst src n (dst + i) = m (src + i)) /\
  same_outside dst n m (memmove m dst src n).
Proof.
  split.
  - intros i Hi. rewrite memmove_at by done.
    repeat case_bool; try lia. f_equal. lia.
  - intros a Ha. rewrite memmove_at by done. repeat case_bool; lia || done.
Qed.

Lemma memmove_correct_witness :
  (forall i, 0 <= i < 3 -> memmove (fun a => a) 11 10 3 (11 + i) = 10 + i) /\
  same_outside 11 3 (fun a => a) (memmove (fun a => a) 11 10 3).
Proof. exact (memmove_correct (fun a => a) 11 10 3 ltac:(lia)). Defined.

(** A name stored with [strncpy] in a field of [n] bytes compares equal to
    the original with [strncmp]; the field is zero-padded after the name and no
    byte outside it changes. *)
Theorem strncpy_roundtrip (n : nat) (m : mem) (s t : Z)
    (Hm : bytes_ok m) (Hd : s + Z.of_nat n <= t \/ t + Z.of_nat n <= s) :
  strncmp n (strncpy n m s t) t s = 0 /\
  (forall i, Z.of_nat (length (cstrn n m t)) <= i < Z.of_nat n -> strncpy n m s t (s + i) = 0) /\
  same_outside s (Z.of_nat n) m (strncpy n m s t).
Proof.
  assert (Hat := fun a => strncpy_at n m s t a Hd).
  assert (Hok : bytes_ok (strncpy n m s t)).
  { intros a. rewrite Hat. destruct (_ && _); [|apply Hm]. unfold nthZ.
    destruct (nth_in_or_default (Z.to_nat (a - s)) (cstrn n m t) 0) as [Hin| ->]; [|lia].
    by eapply cstrn_range. }
  repeat split.
  - apply strncmp_eq_cstrn; [done|].
    transitivity (cstrn n m t).
    { apply cstrn_ext. intros i Hi. rewrite Hat. repeat case_bool; lia || done. }
    rewrite (cstrn_ext n (strncpy n m s t) (nthZ (cstrn n m t)) s 0); [apply cstrn_self|].
    intros i Hi. rewrite Hat. repeat case_bool; try lia. f_equal. lia.
  - intros i Hi. rewrite Hat. repeat case_bool; try lia.
    unfold nthZ. apply nth_overflow. lia.
  - intros a Ha. rewrite Hat. repeat case_bool; lia || done.
Qed.

Lemma strncpy_roundtrip_witness :
  let m := fun a => if a =? 100 then 47 else if a =? 101 then 97 else 0 in
  strncmp 14 (strncpy 14 m 0 100) 100 0 = 0 /\
  (forall i, Z.of_nat (length (cstrn 14 m 100)) <= i < 14 -> strncpy 14 m 0 100 (0 + i) = 0) /\
  same_outside 0 14 m (strncpy 14 m 0 100).
Proof.
  apply (strncpy_roundtrip 14 _ 0 100); [|lia].
  intros a. repeat case_bool; lia.
Defined.

(** [safestrcpy] with a buffer of [n > 0] bytes leaves a terminated string,
    the longest prefix of the source that fits with its terminator, and writes
    nothing outside the buffer. *)
Theorem safestrcpy_correct (m : mem) (s t n : Z)
    (Hn : 0 < n) (Hd : s + n <= t \/ t + (n - 1) <= s) :
  cstrn (Z.to_nat n) (safestrcpy m s t n) s = cstrn (Z.to_nat (n - 1)) m t /\
  (exists i, 0 <= i < n /\ safestrcpy m s t n (s + i) = 0) /\
  same_outside s n m (safestrcpy m s t n).
Proof.
  unfold safestrcpy. rewrite (proj2 (Z.leb_gt n 0)) by lia.
  set (k := Z.to_nat (n - 1)). replace (Z.to_nat n) with (S k) by lia.
  pose proof (safestrcpy_loop_str k m s t ltac:(lia)) as E.
  repeat split; [done| |].
  - exists (Z.of_nat (length (cstrn (S k) (safestrcpy_loop k m s t) s))).
    pose proof (length_cstrn k m t). split; [rewrite E; lia|].
    apply cstrn_terminated. rewrite E. lia.
  - replace n with (Z.of_nat (S k)) by lia. apply safestrcpy_loop_outside.
Qed.

Lemma safestrcpy_correct_witness :
  let m := fun a => if (100 <=? a) && (a <? 120) then 65 else 0 in
  cstrn 16 (safestrcpy m 0 100 16) 0 = cstrn 15 m 100 /\
  (exists i, 0 <= i < 16 /\ safestrcpy m 0 100 16 (0 + i) = 0) /\
  same_outside 0 16 m (safestrcpy m 0 100 16).
Proof. apply (safestrcpy_correct _ 0 100 16); lia. Defined.
