(* ===== verification/Digits.v ===== *)
(** * Positional notation

    What the two [printint]s compute, and the reading of digits that inverts
    it. *)

From Stdlib Require Import ZArith Lia.
From stdpp Require Import base list strings numbers.
From S2P Require Import Prelude.

(** Value of digits given least significant first. *)
Fixpoint value (base : Z) (ds : list Z) : Z :=
  match ds with
  | [] => 0
  | d :: ds' => d + base * value base ds'
  end.

(** The digits of [x] produced by the loop [do ... while((x /= base) != 0)], least
    significant first; [fuel] bounds their number. *)
Fixpoint digits_of (fuel : nat) (base x : Z) : option (list Z) :=
  match fuel with
  | O => None
  | S fuel' =>
    if x / base =? 0 then Some [x mod base]
    else match digits_of fuel' base (x / base) with
         | Some ds => Some (x mod base :: ds)
         | None => None
         end
  end.

Lemma digits_of_value fuel base x ds :
  0 < base -> 0 <= x -> digits_of fuel base x = Some ds ->
  value base ds = x /\ Forall (fun d => 0 <= d < base) ds /\ (0 < length ds <= fuel)%nat.
Proof.
  intros Hb. revert x ds. induction fuel as [|fuel IH]; intros x ds Hx; [done|]. simpl.
  pose proof (Z.mod_pos_bound x base Hb). pose proof (Z.div_mod x base ltac:(lia)).
  destruct (Z.eqb_spec (x / base) 0) as [E|E].
  - intros [= <-]. simpl. split; [lia|]. split; [constructor; [done|constructor]|lia].
  - destruct (digits_of fuel base (x / base)) as [ds'|] eqn:E'; [|done]. intros [= <-].
    destruct (IH (x / base) ds') as (A & B & C); [by apply Z.div_pos|done|].
    simpl. split; [lia|]. split; [by constructor|lia].
Qed.

(** [fuel] digits are enough below [base ^ fuel], and needed above. *)
Lemma digits_of_enough fuel base x :
  1 < base -> 0 <= x -> is_Some (digits_of fuel base x) <-> (0 < fuel)%nat /\ x < base ^ Z.of_nat fuel.
Proof.
  intros Hb. revert x. induction fuel as [|fuel IH]; intros x Hx; simpl.
  - split; [by intros []|lia].
  - pose proof (Z.div_mod x base ltac:(lia)) as Hdm. pose proof (Z.mod_pos_bound x base ltac:(lia)) as Hmb.
    assert (Hpow : base ^ Z.of_nat (S fuel) = base * base ^ Z.of_nat fuel)
      by (rewrite Nat2Z.inj_succ, Z.pow_succ_r by lia; done).
    assert (Hpp : 0 < base ^ Z.of_nat fuel) by (apply Z.pow_pos_nonneg; lia).
    change (Z.pos (Pos.of_succ_nat fuel)) with (Z.of_nat (S fuel)). rewrite Hpow.
    destruct (Z.eqb_spec (x / base) 0) as [E|E].
    + split; [intros _|eauto]. split; [lia|]. nia.
    + assert (H0 : 0 <= x / base) by (by apply Z.div_pos; lia).
      specialize (IH (x / base) H0). destruct (digits_of fuel base (x / base)) as [ds|].
      * split; [intros _|eauto]. destruct IH as [IH _]. destruct IH as [IH1 IH2]; [eauto|]. split; [lia|]. nia.
      * split; [by intros []|]. intros [_ Hlt]. exfalso.
        destruct fuel as [|fuel]; [change (base ^ Z.of_nat 0) with 1 in Hlt; nia|].
        destruct IH as [_ IH]. destruct IH as [? ?]; [|done]. split; [lia|]. nia.
Qed.

(** More fuel does not change the digits. *)
Lemma digits_of_more k n base y e :
  digits_of n base y = Some e -> digits_of (n + k) base y = Some e.
Proof.
  revert y e. induction n as [|n IH]; intros y e; [done|]. simpl.
  destruct (y / base =? 0); [done|]. destruct (digits_of n base (y / base)) as [e'|] eqn:E'; [|done].
  intros [= <-]. by rewrite (IH _ _ E').
Qed.

(** Reading digits most significant first. *)
Definition read_digits (base : Z) (ds : list Z) : Z := foldl (fun v d => v * base + d) 0 ds.

Lemma read_digits_reverse base ds : read_digits base (reverse ds) = value base ds.
Proof.
  unfold read_digits. induction ds as [|d ds IH]; [done|].
  rewrite reverse_cons, foldl_app, IH. simpl. lia.
Qed.
