(* ===== verification/UPrintf.v ===== *)
(** * user/printf.c: formatted output of user programs

    [putc] is a [write] of one character to the descriptor, so a call is
    modelled by the characters it writes, in order; [None] is undefined behaviour
    (an argument that is missing or of the wrong kind, a store outside
    [buf]). *)

From Stdlib Require Import ZArith Lia.
From stdpp Require Import base list strings numbers.
From S2P Require Import Prelude Digits.

Definition digits : list Z := bytes "0123456789ABCDEF".
Definition digit (d : Z) : Z := str_at digits d.

Definition BUFLEN : nat := 16.

(** [do buf[i++] = digits[x % base]; while((x /= base) != 0)] *)
Fixpoint fill (fuel : nat) (x base : Z) (buf : list Z) : option (list Z) :=
  match fuel with
  | O => None
  | S fuel' =>
    if (length buf <? BUFLEN)%nat then
      let buf' := buf ++ [digit (x mod base)] in
      if x / base =? 0 then Some buf' else fill fuel' (x / base) base buf'
    else None
  end.

Definition printint (xx base : Z) (sgn : bool) : option (list Z) :=
  let neg := sgn && (xx <? 0) in
  let x := if neg then u32 (- xx) else u32 xx in
  match fill 33 x base [] with
  | None => None
  | Some buf =>
    if neg then
      if (length buf <? BUFLEN)%nat then Some (reverse (buf ++ bytes "-")) else None
    else Some (reverse buf)
  end.

(** Sixteen hexadecimal digits, most significant first. *)
Fixpoint printptr_loop (k : nat) (x : Z) : list Z :=
  match k with
  | O => []
  | S k' => digit (Z.shiftr x 60) :: printptr_loop k' (u64 (Z.shiftl x 4))
  end.

Definition printptr (x : Z) : list Z := bytes "0x" ++ printptr_loop 16 x.

(** The directives after a '%' at index [i]: the characters written, the rest of
    the arguments and how far [i] advances beyond the directive's first
    character. *)
Definition directive (c0 c1 c2 : Z) (ap : list varg) : option (list Z * list varg * Z) :=
  let ch := fun s => str_at (bytes s) 0 in
  let int_arg := fun w base sgn adv =>
    match va_int ap with
    | None => None
    | Some (z, ap') =>
      match printint (i32 (w z)) base sgn with
      | None => None
      | Some out => Some (out, ap', adv)
      end
    end in
  if c0 =? ch "d" then int_arg i32 10 true 0
  else if (c0 =? ch "l") && (c1 =? ch "d") then int_arg u64 10 true 1
  else if (c0 =? ch "l") && (c1 =? ch "l") && (c2 =? ch "d") then int_arg u64 10 true 2
  else if c0 =? ch "u" then int_arg i32 10 false 0
  else if (c0 =? ch "l") && (c1 =? ch "u") then int_arg u64 10 false 1
  else if (c0 =? ch "l") && (c1 =? ch "l") && (c2 =? ch "u") then int_arg u64 10 false 2
  else if c0 =? ch "x" then int_arg i32 16 false 0
  else if (c0 =? ch "l") && (c1 =? ch "x") then int_arg u64 16 false 1
  else if (c0 =? ch "l") && (c1 =? ch "l") && (c2 =? ch "x") then int_arg u64 16 false 2
  else if c0 =? ch "p" then
    match va_int ap with Some (z, ap') => Some (printptr (u64 z), ap', 0) | None => None end
  else if c0 =? ch "s" then
    match va_str ap with
    | Some (Some s, ap') => Some (s, ap', 0)
    | Some (None, ap') => Some (bytes "(null)", ap', 0)
    | None => None
    end
  else if c0 =? ch "%" then Some (bytes "%", ap, 0)
  else Some (bytes "%" ++ [c0], ap, 0).

(** [state] is 0 or '%'. *)
Fixpoint vprintf_loop (fuel : nat) (fmt : list Z) (i : Z) (state : bool) (ap : list varg)
    : option (list Z) :=
  match fuel with
  | O => None
  | S fuel' =>
    let c0 := str_at fmt i in
    if c0 =? 0 then Some []
    else if negb state then
      if c0 =? str_at (bytes "%") 0 then vprintf_loop fuel' fmt (i + 1) true ap
      else match vprintf_loop fuel' fmt (i + 1) false ap with
           | Some out => Some (c0 :: out)
           | None => None
           end
    else
      let c1 := str_at fmt (i + 1) in
      let c2 := if c1 =? 0 then 0 else str_at fmt (i + 2) in
      match directive c0 c1 c2 ap with
      | None => None
      | Some (out, ap', adv) =>
        match vprintf_loop fuel' fmt (i + adv + 1) false ap' with
        | Some out' => Some (out ++ out')
        | None => None
        end
      end
  end.

Definition vprintf (fmt : list Z) (ap : list varg) : option (list Z) :=
  vprintf_loop (S (length fmt)) fmt 0 false ap.

(** ** Integers *)

Lemma fill_digits fuel x base buf ds :
  digits_of fuel base x = Some ds -> (length buf + length ds <= BUFLEN)%nat ->
  fill fuel x base buf = Some (buf ++ (digit <$> ds)).
Proof.
  revert x buf ds. induction fuel as [|fuel IH]; intros x buf ds E Hl; [done|].
  simpl in *. destruct (x / base =? 0) eqn:Ez.
  - injection E as <-. simpl in Hl. rewrite (proj2 (Nat.ltb_lt _ _)) by lia. done.
  - destruct (digits_of fuel base (x / base)) as [ds'|] eqn:E'; [|done]. injection E as <-.
    simpl in Hl. rewrite (proj2 (Nat.ltb_lt _ _)) by lia.
    rewrite (IH _ _ ds') by (done || rewrite length_app; simpl; lia).
    rewrite fmap_cons, <- app_assoc. done.
Qed.

(** A 32-bit number has at most 10 digits, whatever the base from 10 up. *)
Lemma fill_u32 x base : 10 <= base <= 16 -> 0 <= x < 2 ^ 32 ->
  exists ds, fill 33 x base [] = Some (digit <$> ds) /\ value base ds = x /\
    Forall (fun d => 0 <= d < base) ds /\ (0 < length ds <= 10)%nat.
Proof.
  intros Hb Hx. assert (Hb1 : 1 < base) by lia. assert (Hb0 : 0 < base) by lia.
  assert (Hx0 : 0 <= x) by lia. assert (Hp : 2 ^ 32 <= base ^ Z.of_nat 10).
  { apply Z.le_trans with (10 ^ Z.of_nat 10); [vm_compute; discriminate|].
    apply Z.pow_le_mono_l. lia. }
  destruct (proj2 (digits_of_enough 10 base x Hb1 Hx0)) as [ds E].
  { split; [lia|]. eapply Z.lt_le_trans; [apply Hx|exact Hp]. }
  destruct (digits_of_value _ _ _ _ Hb0 Hx0 E) as (Hv & Hd & Hl).
  exists ds. split_and!; try done; try lia.
  assert (E33 : digits_of 33 base x = Some ds) by (by apply (digits_of_more 23 10)).
  by rewrite (fill_digits 33 x base [] ds E33) by (unfold BUFLEN; simpl; lia).
Qed.

(** The inverse of [printint]: an optional minus sign and digits. *)
Definition undigit (c : Z) : Z := if c <=? 57 then c - 48 else c - 55.
Definition read_int (base : Z) (s : list Z) : Z :=
  match s with
  | 45 :: s' => - read_digits base (undigit <$> s')
  | s => read_digits base (undigit <$> s)
  end.

Lemma undigit_digit d : 0 <= d < 16 -> undigit (digit d) = d /\ digit d <> 45 /\ digit d <> 0.
Proof.
  intros H. assert (Hc : d = 0 \/ d = 1 \/ d = 2 \/ d = 3 \/ d = 4 \/ d = 5 \/ d = 6 \/ d = 7 \/ d = 8 \/
    d = 9 \/ d = 10 \/ d = 11 \/ d = 12 \/ d = 13 \/ d = 14 \/ d = 15) by lia.
  repeat (destruct Hc as [->|Hc]; [vm_compute; done|]). subst. vm_compute. done.
Qed.

Lemma read_printed base ds : 0 < base <= 16 -> Forall (fun d => 0 <= d < base) ds ->
  read_digits base (undigit <$> reverse (digit <$> ds)) = value base ds /\
  (forall c s, reverse (digit <$> ds) = c :: s -> c <> 45).
Proof.
  intros Hb Hd. split.
  - rewrite <- fmap_reverse, <- list_fmap_compose, fmap_reverse.
    replace (undigit ∘ digit <$> ds) with ds; [apply read_digits_reverse|].
    induction Hd as [|d ds Hd _ IH]; [done|]. rewrite fmap_cons, <- IH. f_equal.
    unfold compose. symmetry. apply undigit_digit. lia.
  - intros c s E. assert (Hin : c ∈ reverse (digit <$> ds)) by (rewrite E; left).
    rewrite elem_of_reverse in Hin. apply list_elem_of_fmap in Hin as (d & -> & Hin).
    rewrite list.Forall_forall in Hd. apply undigit_digit. specialize (Hd d Hin). lia.
Qed.

(** [printint] of a user program is correct for every [int]: it never writes
    outside its buffer, and the characters it writes read back as the number,
    signed in base 10 (including the most negative one) or unsigned in base 10
    and 16. *)
Theorem user_printint_roundtrip xx base sgn :
  10 <= base <= 16 -> - 2 ^ 31 <= xx < 2 ^ 31 ->
  exists out, printint xx base sgn = Some out /\ (0 < length out <= 11)%nat /\
    read_int base out = if sgn then xx else u32 xx.
Proof.
  intros Hb Hx. unfold printint. set (neg := sgn && (xx <? 0)).
  assert (Hr : 0 <= (if neg then u32 (- xx) else u32 xx) < 2 ^ 32)
    by (destruct neg; apply (wrap_range 32); lia).
  destruct (fill_u32 _ base Hb Hr) as (ds & -> & Hv & Hd & Hl).
  destruct (read_printed base ds ltac:(lia) Hd) as [Hrd Hno].
  destruct neg eqn:En.
  - rewrite length_fmap, (proj2 (Nat.ltb_lt _ _)) by (unfold BUFLEN; lia).
    eexists. split; [done|]. rewrite reverse_app. simpl.
    rewrite length_reverse, length_fmap. split; [lia|]. rewrite Hrd, Hv.
    unfold neg in En. destruct sgn; [|done]. simpl in En. apply Z.ltb_lt in En.
    rewrite (wrap_small 32) by lia. lia.
  - eexists. split; [done|]. rewrite length_reverse, length_fmap. split; [lia|].
    assert (Er : read_int base (reverse (digit <$> ds)) = value base ds).
    { rewrite <- Hrd. unfold read_int. destruct (reverse (digit <$> ds)) as [|c s] eqn:E; [done|].
      pose proof (Hno c s eq_refl). destruct c as [|c|]; try done.
      do 6 (destruct c as [c|c|]; try done). }
    rewrite Er, Hv. destruct sgn; [|done]. unfold neg in En. simpl in En. apply Z.ltb_ge in En.
    apply wrap_small. lia.
Qed.

Lemma user_printint_roundtrip_witness :
  exists out, printint (-2147483648) 10 true = Some out /\ read_int 10 out = -2147483648.
Proof.
  destruct (user_printint_roundtrip (-2147483648) 10 true) as (out & E & _ & Hr); [lia|lia|].
  exists out. split; [exact E|exact Hr].
Defined.

(** ** Formats *)

(** An [int] in decimal, as printf writes it. *)
Definition dec (x : Z) : list Z := default [] (printint (i32 x) 10 true).

Lemma printint_dec x : printint (i32 (i32 x)) 10 true = Some (dec x).
Proof.
  unfold dec. assert (Hx : - 2 ^ 31 <= i32 x < 2 ^ 31) by (apply (swrap_range 32); lia). rewrite (swrap_small 32 (i32 x)) by lia.
  by destruct (user_printint_roundtrip (i32 x) 10 true) as (out & -> & _).
Qed.

Lemma directive_d c1 c2 z ap : directive 100 c1 c2 (VInt z :: ap) = Some (dec z, ap, 0).
Proof.
  unfold directive. change (100 =? str_at (bytes "d") 0) with true. cbn [va_int]. by rewrite printint_dec.
Qed.

(** The steps of [vprintf]. *)
Lemma vp_end fuel fmt i ap : str_at fmt i = 0 -> vprintf_loop (S fuel) fmt i false ap = Some [].
Proof. intros E. cbn [vprintf_loop]. by rewrite E. Qed.

Lemma vp_lit fuel fmt i c ap out : str_at fmt i = c -> (c =? 0) || (c =? 37) = false ->
  vprintf_loop fuel fmt (i + 1) false ap = Some out -> vprintf_loop (S fuel) fmt i false ap = Some (c :: out).
Proof.
  intros E Hc H. apply orb_false_iff in Hc as [H0 H1]. cbn [vprintf_loop negb]. rewrite E, H0.
  change (str_at (bytes "%") 0) with 37. by rewrite H1, H.
Qed.

Lemma vp_dir fuel fmt i c ap ap' adv out out' : str_at fmt i = 37 -> str_at fmt (i + 1) = c -> c <> 0 ->
  (forall c1 c2, directive c c1 c2 ap = Some (out, ap', adv)) ->
  vprintf_loop fuel fmt (i + 1 + adv + 1) false ap' = Some out' -> vprintf_loop (S (S fuel)) fmt i false ap = Some (out ++ out').
Proof.
  intros E Ec Hc Hd H. cbn [vprintf_loop negb]. rewrite E. change (37 =? 0) with false. change (str_at (bytes "%") 0) with 37.
  rewrite Z.eqb_refl, Ec, (proj2 (Z.eqb_neq _ _) Hc). cbv zeta. cbn match. rewrite Hd, H. done.
Qed.

(** Characters that stand for themselves. *)
Definition plain (l : list Z) : Prop := Forall (fun c => c <> 0 /\ c <> 37) l.

Lemma vp_lits l fuel fmt i ap out : plain l -> (forall k c, l !! k = Some c -> str_at fmt (i + Z.of_nat k) = c) ->
  vprintf_loop fuel fmt (i + Z.of_nat (length l)) false ap = Some out -> vprintf_loop (length l + fuel) fmt i false ap = Some (l ++ out).
Proof.
  intros Hl. revert i. induction Hl as [|c l [H0 H37] Hl IH]; intros i Hat H; cbn [length app plus] in *; [by rewrite Z.add_0_r in H|].
  eapply vp_lit; [rewrite <- (Z.add_0_r i); exact (Hat 0%nat c eq_refl)|by rewrite (proj2 (Z.eqb_neq _ _) H0), (proj2 (Z.eqb_neq _ _) H37)|].
  apply IH; [|by replace (i + 1 + Z.of_nat (length l)) with (i + Z.of_nat (S (length l))) by lia].
  intros k c' Hk. replace (i + 1 + Z.of_nat k) with (i + Z.of_nat (S k)) by lia. by apply (Hat (S k)).
Qed.

Lemma str_at_app l l' k c : l' !! k = Some c -> str_at (l ++ l') (Z.of_nat (length l) + Z.of_nat k) = c.
Proof.
  intros E. unfold str_at, zget. rewrite (proj2 (Z.leb_le _ _)) by lia. replace (Z.to_nat _) with (length l + k)%nat by lia.
  by rewrite lookup_app_r, Nat.add_comm, Nat.add_sub, E by lia.
Qed.

(** A format with one directive. *)
Lemma vprintf_one pre c post arg out : plain pre -> plain post -> c <> 0 -> (forall c1 c2, directive c c1 c2 [arg] = Some (out, [], 0)) ->
  vprintf (pre ++ [37; c] ++ post) [arg] = Some (pre ++ out ++ post).
Proof.
  intros Hpre Hpost Hc Hd. unfold vprintf. set (fmt := pre ++ [37; c] ++ post).
  assert (Hat : forall l1 l2 k c, fmt = l1 ++ l2 -> l2 !! k = Some c -> str_at fmt (Z.of_nat (length l1) + Z.of_nat k) = c) by (intros l1 l2 k c' -> E; by apply str_at_app).
  replace (S (length fmt)) with (length pre + (S (S (length post + 1))))%nat by (unfold fmt; rewrite !length_app; cbn [length]; lia).
  apply vp_lits; [done|intros k c' E; apply (Hat [] fmt); [done|unfold fmt; by apply lookup_app_l_Some]|].
  assert (E37 : str_at fmt (0 + Z.of_nat (length pre)) = 37) by (pose proof (Hat pre ([37; c] ++ post) 0%nat 37 eq_refl eq_refl) as E; by rewrite Z.add_comm in E).
  assert (Ec : str_at fmt (0 + Z.of_nat (length pre) + 1) = c) by (pose proof (Hat pre ([37; c] ++ post) 1%nat c eq_refl eq_refl) as E; by rewrite Z.add_0_l).
  eapply vp_dir; [exact E37|exact Ec|done|exact Hd|].
  replace (0 + Z.of_nat (length pre) + 1 + 0 + 1) with (Z.of_nat (length (pre ++ [37; c]))) by (rewrite length_app; cbn [length]; lia).
  rewrite <- (app_nil_r post) at 2. apply vp_lits; [done| |].
  - intros k c' E. apply (Hat (pre ++ [37; c]) post); [unfold fmt; by rewrite <- app_assoc|done].
  - apply vp_end. unfold str_at, zget. rewrite (proj2 (Z.leb_le _ _)) by lia. rewrite lookup_ge_None_2; [done|].
    unfold fmt. rewrite !length_app. cbn [length]. lia.
Qed.

Lemma vprintf_d pre post z : plain pre -> plain post -> vprintf (pre ++ [37; 100] ++ post) [VInt z] = Some (pre ++ dec z ++ post).
Proof. intros Hpre Hpost. apply vprintf_one; [done|done|done|]. intros c1 c2. apply directive_d. Qed.

Lemma vprintf_s pre post s : plain pre -> plain post -> vprintf (pre ++ [37; 115] ++ post) [VStr (Some s)] = Some (pre ++ s ++ post).
Proof. intros Hpre Hpost. by apply vprintf_one. Qed.
