(* ===== verification/KPrintf.v ===== *)
(** * kernel/printf.c: formatted output to the console

    A call is modelled by the characters it passes to [consputc], in order;
    [None] is undefined behaviour (a missing argument, a store outside [buf]).
    [pr.lock] keeps the characters of one call together. *)

From Stdlib Require Import ZArith Lia.
From stdpp Require Import base list strings numbers.
From S2P Require Import Prelude Digits.

Definition digits : list Z := bytes "0123456789abcdef".
Definition digit (d : Z) : Z := str_at digits d.

Definition BUFLEN : nat := 16.

(** [do buf[i++] = digits[x % base]; while((x /= base) != 0)] *)
Fixpoint fill (fuel : nat) (x base : Z) (buf : list Z) : option (list Z) :=
  match fuel with
  | O => None
  | S fuel' =>
    if (length buf <? BUFLEN)%nat then
      let buf' := buf ++ [digit (x mod base)] in
      if x / base =? 0 then Some buf' else fill fuel' (x / base) base buf'
    else None
  end.

Definition printint (xx base : Z) (sign : bool) : option (list Z) :=
  let sign := sign && (xx <? 0) in
  let x := if sign then u64 (- xx) else u64 xx in
  match fill 65 x base [] with
  | None => None
  | Some buf =>
    if sign then
      if (length buf <? BUFLEN)%nat then Some (reverse (buf ++ bytes "-")) else None
    else Some (reverse buf)
  end.

(** Sixteen hexadecimal digits, most significant first. *)
Fixpoint printptr_loop (k : nat) (x : Z) : list Z :=
  match k with
  | O => []
  | S k' => digit (Z.shiftr x 60) :: printptr_loop k' (u64 (Z.shiftl x 4))
  end.

Definition printptr (x : Z) : list Z := bytes "0x" ++ printptr_loop 16 x.

(** What a '%' directive with first characters [c0], [c1], [c2] prints, the rest
    of the arguments and how far [i] advances beyond [c0]; an [int] argument is
    converted to [long long], a [uint64] one keeps its bits. *)
Definition directive (c0 c1 c2 : Z) (ap : list varg) : option (list Z * list varg * Z) :=
  let ch := fun s => str_at (bytes s) 0 in
  let int_arg := fun (w : Z -> Z) base sgn adv =>
    match va_int ap with
    | None => None
    | Some (z, ap') =>
      match printint (i64 (w z)) base sgn with
      | None => None
      | Some out => Some (out, ap', adv)
      end
    end in
  if c0 =? ch "d" then int_arg i32 10 true 0
  else if (c0 =? ch "l") && (c1 =? ch "d") then int_arg u64 10 true 1
  else if (c0 =? ch "l") && (c1 =? ch "l") && (c2 =? ch "d") then int_arg u64 10 true 2
  else if c0 =? ch "u" then int_arg i32 10 false 0
  else if (c0 =? ch "l") && (c1 =? ch "u") then int_arg u64 10 false 1
  else if (c0 =? ch "l") && (c1 =? ch "l") && (c2 =? ch "u") then int_arg u64 10 false 2
  else if c0 =? ch "x" then int_arg i32 16 false 0
  else if (c0 =? ch "l") && (c1 =? ch "x") then int_arg u64 16 false 1
  else if (c0 =? ch "l") && (c1 =? ch "l") && (c2 =? ch "x") then int_arg u64 16 false 2
  else if c0 =? ch "p" then
    match va_int ap with Some (z, ap') => Some (printptr (u64 z), ap', 0) | None => None end
  else if c0 =? ch "s" then
    match va_str ap with
    | Some (Some s, ap') => Some (s, ap', 0)
    | Some (None, ap') => Some (bytes "(null)", ap', 0)
    | None => None
    end
  else if c0 =? ch "%" then Some (bytes "%", ap, 0)
  else Some (bytes "%" ++ [c0], ap, 0).

Fixpoint printf_loop (fuel : nat) (fmt : list Z) (i : Z) (ap : list varg) : option (list Z) :=
  match fuel with
  | O => None
  | S fuel' =>
    let cx := str_at fmt i in
    if cx =? 0 then Some []
    else if negb (cx =? str_at (bytes "%") 0) then
      match printf_loop fuel' fmt (i + 1) ap with Some out => Some (cx :: out) | None => None end
    else
      let i := i + 1 in
      let c0 := str_at fmt i in
      let c1 := if c0 =? 0 then 0 else str_at fmt (i + 1) in
      let c2 := if c1 =? 0 then 0 else str_at fmt (i + 2) in
      if c0 =? 0 then Some []
      else
        match directive c0 c1 c2 ap with
        | None => None
        | Some (out, ap', adv) =>
          match printf_loop fuel' fmt (i + adv + 1) ap' with
          | Some out' => Some (out ++ out')
          | None => None
          end
        end
  end.

Definition printf (fmt : list Z) (ap : list varg) : option (list Z) :=
  printf_loop (S (length fmt)) fmt 0 ap.

(** The characters of [panic]; afterwards [panicked] is set and the processor
    spins. *)
Definition panic_output (s : list Z) : option (list Z) :=
  match printf (bytes "panic: ") [], printf (bytes "%s" ++ [10]) [VStr (Some s)] with
  | Some a, Some b => Some (a ++ b)
  | _, _ => None
  end.

(** ** Integers *)

Lemma kfill_digits fuel x base buf ds :
  digits_of fuel base x = Some ds -> (length buf + length ds <= BUFLEN)%nat ->
  fill fuel x base buf = Some (buf ++ (digit <$> ds)).
Proof.
  revert x buf ds. induction fuel as [|fuel IH]; intros x buf ds E Hl; [done|].
  simpl in *. destruct (x / base =? 0) eqn:Ez.
  - injection E as <-. simpl in Hl. rewrite (proj2 (Nat.ltb_lt _ _)) by lia. done.
  - destruct (digits_of fuel base (x / base)) as [ds'|] eqn:E'; [|done]. injection E as <-.
    simpl in Hl. rewrite (proj2 (Nat.ltb_lt _ _)) by lia.
    rewrite (IH _ _ ds') by (done || rewrite length_app; simpl; lia).
    rewrite fmap_cons, <- app_assoc. done.
Qed.

(** A number of more than sixteen digits runs over the buffer. *)
Lemma fill_overflow fuel x base buf :
  1 < base -> 0 <= x -> (length buf <= BUFLEN)%nat ->
  base ^ Z.of_nat (BUFLEN - length buf) <= x -> fill fuel x base buf = None.
Proof.
  intros Hb. revert x buf. induction fuel as [|fuel IH]; intros x buf Hx Hl Hbig; [done|]. simpl.
  destruct (Nat.ltb_spec (length buf) BUFLEN) as [Hlt|]; [|done].
  assert (E : (BUFLEN - length buf = S (BUFLEN - (length buf + 1)))%nat) by lia.
  rewrite E, Nat2Z.inj_succ, Z.pow_succ_r in Hbig by lia.
  assert (Hq : base ^ Z.of_nat (BUFLEN - (length buf + 1)) <= x / base)
    by (apply Z.div_le_lower_bound; lia).
  assert (Hp : 0 < base ^ Z.of_nat (BUFLEN - (length buf + 1))) by (apply Z.pow_pos_nonneg; lia).
  rewrite (proj2 (Z.eqb_neq _ 0)) by lia.
  apply IH; [lia|rewrite length_app; simpl; lia|]. rewrite length_app. exact Hq.
Qed.

Definition undigit (c : Z) : Z := if c <=? 57 then c - 48 else c - 87.

Lemma kundigit_digit d : 0 <= d < 16 -> undigit (digit d) = d.
Proof.
  intros H. assert (Hc : d = 0 \/ d = 1 \/ d = 2 \/ d = 3 \/ d = 4 \/ d = 5 \/ d = 6 \/ d = 7 \/ d = 8 \/
    d = 9 \/ d = 10 \/ d = 11 \/ d = 12 \/ d = 13 \/ d = 14 \/ d = 15) by lia.
  repeat (destruct Hc as [->|Hc]; [vm_compute; done|]). subst. vm_compute. done.
Qed.

(** The kernel's [printint] prints an unsigned 64-bit number correctly exactly
    when it has at most sixteen digits: then the characters read back as the
    number, and otherwise the loop stores outside the sixteen-byte buffer.  In
    base 16 every number fits. *)
Theorem kernel_printint_bounds x base :
  1 < base <= 16 -> 0 <= x < 2 ^ 64 ->
  (x < base ^ 16 -> exists out, printint x base false = Some out /\
     read_digits base (undigit <$> out) = x) /\
  (base ^ 16 <= x -> printint x base false = None) /\
  (base = 16 -> x < base ^ 16).
Proof.
  intros Hb Hx. unfold printint. simpl andb. cbv iota.
  assert (Eu : u64 x = x) by (by apply wrap_small). rewrite Eu.
  split_and!.
  - intros Hlt. assert (Hb1 : 1 < base) by lia. assert (Hb0 : 0 < base) by lia.
    assert (Hx0 : 0 <= x) by lia.
    destruct (proj2 (digits_of_enough 16 base x Hb1 Hx0)) as [ds E]; [split; [lia|exact Hlt]|].
    destruct (digits_of_value _ _ _ _ Hb0 Hx0 E) as (Hv & Hd & Hl).
    assert (E65 : digits_of 65 base x = Some ds) by (by apply (digits_of_more 49 16)).
    rewrite (kfill_digits 65 x base [] ds E65) by (unfold BUFLEN; simpl; lia).
    eexists. split; [done|]. rewrite <- Hv, <- read_digits_reverse. f_equal.
    simpl. rewrite <- fmap_reverse, <- list_fmap_compose, fmap_reverse. f_equal.
    clear -Hd Hb. induction Hd as [|d ds Hd _ IH]; [done|]. rewrite fmap_cons, IH. f_equal.
    unfold compose. apply kundigit_digit. lia.
  - intros Hbig. rewrite fill_overflow; [done|lia|lia|unfold BUFLEN; simpl; lia|exact Hbig].
  - intros ->. exact (proj2 Hx).
Qed.

(** C40: [%u] of a negative [int] and [%lu] or [%ld] of a long number overflow the
    buffer of the kernel's [printint]: the conversion to [long long] makes them
    numbers of more than sixteen decimal digits. *)
Theorem kernel_printint_overflow :
  (forall z, - 2 ^ 31 <= z < 0 -> printf (bytes "%u") [VInt z] = None) /\
  printf (bytes "%ld") [VInt 10000000000000000] = None.
Proof.
  split; [|by vm_compute]. intros z Hz.
  assert (E : printint (i64 (i32 z)) 10 false = None).
  { rewrite (swrap_small 32), (swrap_small 64) by lia. unfold printint. simpl andb. cbv iota.
    rewrite fill_overflow; [done|lia|apply (wrap_range 64); lia|unfold BUFLEN; simpl; lia|].
    unfold wrap. rewrite <- (Z.mod_add z 1 (2 ^ 64)) by lia. rewrite Z.mod_small by lia.
    change (10 ^ Z.of_nat (BUFLEN - length (@nil Z))) with 10000000000000000. lia. }
  assert (D : directive 117 0 0 [VInt z] =
    match printint (i64 (i32 z)) 10 false with
    | None => None
    | Some out => Some (out, [], 0)
    end) by reflexivity.
  rewrite E in D. unfold printf. cbn [printf_loop].
  change (str_at (bytes "%u") 0) with 37. change (str_at (bytes "%u") (0 + 1)) with 117.
  change (str_at (bytes "%u") (0 + 1 + 1)) with 0. cbn [Z.eqb]. by rewrite D.
Qed.

Lemma kernel_printint_bounds_witness : printint 10000000000000000 10 false = None.
Proof.
  apply (kernel_printint_bounds 10000000000000000 10); [lia|lia|]. vm_compute. discriminate.
Defined.
