(* ===== verification/Ring.v ===== *)
(** * Rings

    Doubly linked rings, the shape of [bcache]'s LRU list: next and previous pointers given as
    functions on nodes, related to the list of nodes they thread.  The two
    lemmas on updates are the pointer surgeries the cache performs.

    Ring buffers indexed by free-running counters: the pipe, the console and the UART keep
    bytes in an array whose size is a power of two and index it with counters that only grow, modulo the
    word size. *)

From Stdlib Require Import ZArith Lia.
From stdpp Require Import base list sets numbers.
From S2P Require Import Prelude Memory.

(** From [x], the nodes [l] and then [y], linked both ways. *)
Fixpoint chain (n p : Z -> Z) (x : Z) (l : list Z) (y : Z) : Prop :=
  match l with
  | [] => n x = y /\ p y = x
  | z :: l' => n x = z /\ p z = x /\ chain n p z l' y
  end.

(** The same in one direction only. *)
Fixpoint path (f : Z -> Z) (x : Z) (l : list Z) (y : Z) : Prop :=
  match l with
  | [] => f x = y
  | z :: l' => f x = z /\ path f z l' y
  end.

Lemma chain_app n p x l1 z l2 y :
  chain n p x (l1 ++ z :: l2) y <-> chain n p x l1 z /\ chain n p z l2 y.
Proof.
  revert x. induction l1 as [|w l1 IH]; intros x; simpl; [tauto|].
  rewrite IH. tauto.
Qed.

Lemma chain_ext n p n' p' x l y :
  (forall u, u ∈ x :: l -> n' u = n u) -> (forall v, v ∈ l ++ [y] -> p' v = p v) ->
  chain n p x l y -> chain n' p' x l y.
Proof.
  revert x. induction l as [|z l IH]; intros x Hn Hp; simpl.
  - intros [H1 H2]. rewrite Hn, Hp by set_solver. done.
  - intros (H1 & H2 & H3). rewrite Hn, Hp by set_solver. repeat split; [done..|].
    apply IH; [set_solver..|done].
Qed.

Lemma chain_prev_in n p x l y : chain n p x l y -> p y ∈ x :: l.
Proof.
  revert x. induction l as [|z l IH]; intros x; simpl.
  - intros [_ <-]. set_solver.
  - intros (_ & _ & H). apply IH in H. set_solver.
Qed.

Lemma chain_next_in n p x l y : chain n p x l y -> n x ∈ l ++ [y].
Proof. destruct l; simpl; intros H; destruct_and?; set_solver. Qed.

Lemma chain_path_next n p x l y : chain n p x l y -> path n x l y.
Proof.
  revert x. induction l as [|z l IH]; intros x; simpl; [tauto|].
  intros (H1 & _ & H3). eauto.
Qed.

Lemma path_app f x l1 z l2 y :
  path f x (l1 ++ z :: l2) y <-> path f x l1 z /\ path f z l2 y.
Proof.
  revert x. induction l1 as [|w l1 IH]; intros x; simpl; [tauto|].
  rewrite IH. tauto.
Qed.

Lemma chain_path_prev n p x l y : chain n p x l y -> path p y (reverse l) x.
Proof.
  revert x. induction l as [|z l IH]; intros x; simpl; [tauto|].
  intros (_ & H2 & H3). rewrite reverse_cons, path_app. eauto.
Qed.

(** [b->next->prev = b->prev; b->prev->next = b->next;] *)
Lemma chain_unlink n p x l1 b l2 y :
  chain n p x l1 b -> chain n p b l2 y ->
  NoDup (x :: l1 ++ b :: l2) -> y ∉ l1 ++ b :: l2 ->
  chain (upd n (p b) (n b)) (upd p (n b) (p b)) x (l1 ++ l2) y.
Proof.
  revert x. induction l1 as [|z l1 IH]; intros x H1 H2 Hnd Hy; simpl app in *.
  - destruct H1 as [Hnx ->]. rewrite list.NoDup_cons in Hnd. destruct Hnd as [Hx Hnd].
    rewrite list.NoDup_cons in Hnd. destruct Hnd as [Hb Hnd].
    destruct l2 as [|c l2]; simpl in H2 |- *; [destruct H2 as [-> _]; by rewrite !upd_eq|].
    destruct H2 as (-> & H3 & H4). rewrite !upd_eq. repeat split.
    rewrite list.NoDup_cons in Hnd. destruct Hnd as [Hc Hnd].
    eapply chain_ext; [| |exact H4].
    + intros u Hu. apply upd_ne. set_solver.
    + intros v Hv. apply upd_ne. set_solver.
  - destruct H1 as (Hnx & Hpz & H1). rewrite list.NoDup_cons in Hnd. destruct Hnd as [Hx Hnd].
    pose proof (chain_prev_in _ _ _ _ _ H1) as Hpb.
    pose proof (chain_next_in _ _ _ _ _ H2) as Hnb.
    assert (x <> p b) by (intros E; rewrite <- E in Hpb; set_solver).
    assert (z <> n b).
    { intros E. rewrite <- E in Hnb. rewrite list.NoDup_cons in Hnd. set_solver. }
    simpl. rewrite !upd_ne by done. repeat split; [done..|].
    apply IH; [done..|set_solver].
Qed.

(** [b->next = head.next; b->prev = &head; head.next->prev = b; head.next = b;] *)
Lemma chain_push n p h l b :
  chain n p h l h -> b <> h -> b ∉ l -> NoDup (h :: l) ->
  chain (upd (upd n b (n h)) h b) (upd (upd p b h) (n h) b) h (b :: l) h.
Proof.
  intros H Hbh Hbl Hnd. simpl. rewrite upd_eq.
  pose proof (chain_next_in _ _ _ _ _ H) as Hin.
  assert (b <> n h) by (intros E; rewrite <- E in Hin; set_solver).
  rewrite (upd_ne _ (n h)), upd_eq by done.
  repeat split; [done..|]. rewrite list.NoDup_cons in Hnd. destruct Hnd as [Hh Hnd].
  destruct l as [|c l]; simpl in H |- *.
  - destruct H as [-> Hp]. rewrite upd_ne, !upd_eq by done. done.
  - destruct H as (-> & Hp & H). rewrite upd_ne, !upd_eq by done. repeat split.
    rewrite list.NoDup_cons in Hnd. destruct Hnd as [Hc Hnd].
    eapply chain_ext; [| |exact H].
    + intros u Hu. rewrite !upd_ne; set_solver.
    + intros v Hv. rewrite !upd_ne; set_solver.
Qed.

(** ** Ring buffers *)

Section ring.
Context (w k : Z) (Hk : 0 <= k <= w).

(** The [n] bytes from counter [rd] on. *)
Definition ring_list (data : list Z) (rd : Z) (n : nat) : list Z :=
  (fun j => default 0 (zget data ((rd + Z.of_nat j) mod 2 ^ k))) <$> seq 0 n.

Lemma length_ring_list data rd n : length (ring_list data rd n) = n.
Proof. unfold ring_list. by rewrite length_fmap, length_seq. Qed.

Lemma ring_list_S data rd n : ring_list data rd (S n) =
  ring_list data rd n ++ [default 0 (zget data ((rd + Z.of_nat n) mod 2 ^ k))].
Proof. unfold ring_list. by rewrite seq_S, fmap_app. Qed.

(** The position of a counter does not depend on its wrapping. *)
Lemma ring_index x y : wrap w x mod 2 ^ k = x mod 2 ^ k /\ (wrap w x + y) mod 2 ^ k = (x + y) mod 2 ^ k.
Proof.
  split; [by apply wrap_mod_pow2|]. rewrite <- Zplus_mod_idemp_l, wrap_mod_pow2 by done.
  apply Zplus_mod_idemp_l.
Qed.

Lemma ring_list_cons data rd n : ring_list data rd (S n) =
  default 0 (zget data (rd mod 2 ^ k)) :: ring_list data (wrap w (rd + 1)) n.
Proof.
  unfold ring_list. cbn [seq]. rewrite fmap_cons, <- fmap_S_seq, <- list_fmap_compose. f_equal.
  - by rewrite Z.add_0_r.
  - apply list_fmap_ext. intros i j _. unfold compose.
    rewrite (proj2 (ring_index (rd + 1) (Z.of_nat j))). do 3 f_equal. lia.
Qed.

(** Storing behind the last byte appends; storing there leaves the others. *)
Lemma ring_list_put data rd n wr c :
  Z.of_nat (length data) = 2 ^ k -> Z.of_nat n < 2 ^ k ->
  wr mod 2 ^ k = (rd + Z.of_nat n) mod 2 ^ k ->
  ring_list (zset data (wr mod 2 ^ k) c) rd n = ring_list data rd n /\
  ring_list (zset data (wr mod 2 ^ k) c) rd (S n) = ring_list data rd n ++ [c].
Proof.
  intros Hlen Hn Ew. assert (Hp : 0 < 2 ^ k) by (apply Z.pow_pos_nonneg; lia).
  assert (E : ring_list (zset data (wr mod 2 ^ k) c) rd n = ring_list data rd n).
  { apply list_fmap_ext. intros i j [-> Hj]%lookup_seq. simpl. rewrite zget_zset_ne; [done|].
    rewrite Ew. intros E.
    assert (E' : (rd + Z.of_nat n - (rd + Z.of_nat i)) mod 2 ^ k = 0)
      by (rewrite Zminus_mod, E, Z.sub_diag; apply Z.mod_0_l; lia).
    rewrite Z.mod_small in E' by lia. lia. }
  split; [done|]. rewrite ring_list_S, E. do 2 f_equal. rewrite <- Ew, zget_zset_eq; [done|].
  rewrite Hlen. by apply Z.mod_pos_bound.
Qed.

(** Lengths as differences of counters. *)
Lemma ring_len_inc wr rd : wrap w (wr - rd) < 2 ^ w - 1 ->
  wrap w (wrap w (wr + 1) - rd) = wrap w (wr - rd) + 1.
Proof.
  intros H. rewrite wrap_sub_l. replace (wr + 1 - rd) with (wr - rd + 1) by lia.
  rewrite <- wrap_add_l. apply wrap_small. pose proof (wrap_range w (wr - rd)). lia.
Qed.

Lemma ring_len_dec wr rd : 0 < wrap w (wr - rd) ->
  wrap w (wr - wrap w (rd + 1)) = wrap w (wr - rd) - 1 /\
  wrap w (wrap w (wr - 1) - rd) = wrap w (wr - rd) - 1.
Proof.
  intros H. pose proof (wrap_range w (wr - rd)). split.
  - rewrite wrap_sub_r. replace (wr - (rd + 1)) with (wr - rd - 1) by lia.
    rewrite <- wrap_sub_l. apply wrap_small. lia.
  - rewrite wrap_sub_l. replace (wr - 1 - rd) with (wr - rd - 1) by lia.
    rewrite <- wrap_sub_l. apply wrap_small. lia.
Qed.

(** A counter [wr] that is ahead of [rd] by the length addresses the slot after
    the last byte. *)
Lemma ring_write_pos wr rd :
  wr mod 2 ^ k = (rd + wrap w (wr - rd)) mod 2 ^ k.
Proof.
  rewrite Z.add_comm, (proj2 (ring_index (wr - rd) rd)). f_equal. lia.
Qed.

Lemma ring_len_eq wr rd n : 0 <= wr < 2 ^ w -> 0 <= rd < 2 ^ w -> 0 <= n < 2 ^ w ->
  (wr =? wrap w (rd + n)) = (wrap w (wr - rd) =? n).
Proof.
  intros Hw Hr Hn.
  destruct (Z.eqb_spec wr (wrap w (rd + n))) as [E|E], (Z.eqb_spec (wrap w (wr - rd)) n) as [E'|E'];
    try done; exfalso.
  - apply E'. rewrite E, wrap_sub_l. replace (rd + n - rd) with n by lia. by apply wrap_small.
  - apply E. rewrite <- E', wrap_add_r. replace (rd + (wr - rd)) with wr by lia.
    by rewrite wrap_small.
Qed.
End ring.

Lemma ring_list_app w k data rd n m : 0 <= k <= w ->
  ring_list k data rd (n + m) = ring_list k data rd n ++ ring_list k data (wrap w (rd + Z.of_nat n)) m.
Proof.
  intros Hk. revert rd. induction n as [|n IH]; intros rd.
  - simpl. unfold ring_list. apply list_fmap_ext. intros i j _.
    rewrite (proj2 (ring_index w k Hk (rd + Z.of_nat 0) (Z.of_nat j))). do 3 f_equal. lia.
  - change (S n + m)%nat with (S (n + m)). rewrite !(ring_list_cons w k Hk), IH. simpl. f_equal. f_equal.
    f_equal. rewrite wrap_add_l. f_equal. lia.
Qed.

Lemma ring_list_rd w k data rd n : 0 <= k <= w -> ring_list k data (wrap w rd) n = ring_list k data rd n.
Proof.
  intros Hk. apply list_fmap_ext. intros i j _. by rewrite (proj2 (ring_index w k Hk rd (Z.of_nat j))).
Qed.
