(* ===== verification/Sleeplock.v ===== *)
(** * kernel/sleeplock.c: long-term locks

    The inner spinlock [lk] makes each function atomic; what remains is the flag
    and the owner.  A call of [acquiresleep] on a held lock sleeps on the lock's
    own address and tests the flag again when it is woken, so a [Sleep] outcome
    means that the whole call is retried. *)

From Stdlib Require Import ZArith Lia.
From stdpp Require Import base list strings.
From S2P Require Import Prelude.

Record sleeplock := Sleeplock { sl_locked : Z; sl_pid : Z }.

Definition initsleeplock : sleeplock := Sleeplock 0 0.

(** [me] is [myproc()->pid], [c] the address of the lock. *)
Definition acquiresleep (me : Z) (c : chan) : M sleeplock unit :=
  let* lk := get in
  if negb (sl_locked lk =? 0) then sleep_on c
  else put (Sleeplock 1 me).

Definition releasesleep (c : chan) : M sleeplock unit :=
  put (Sleeplock 0 0) ;;;
  wakeup_ev c.

Definition holdingsleep (me : Z) : M sleeplock bool :=
  let* lk := get in
  ret (negb (sl_locked lk =? 0) && (sl_pid lk =? me)).

Lemma acquiresleep_free me c lk :
  sl_locked lk = 0 -> acquiresleep me c lk = Done tt (Sleeplock 1 me) [].
Proof. intros H. unfold acquiresleep, bind, get. by rewrite H. Qed.

Lemma acquiresleep_busy me c lk :
  sl_locked lk <> 0 -> acquiresleep me c lk = Sleep c lk [].
Proof.
  intros H. unfold acquiresleep, bind, get. by rewrite (proj2 (Z.eqb_neq _ 0)).
Qed.

Lemma holdingsleep_run me lk :
  holdingsleep me lk = Done (negb (sl_locked lk =? 0) && (sl_pid lk =? me)) lk [].
Proof. done. Qed.

Lemma releasesleep_run c lk : releasesleep c lk = Done tt (Sleeplock 0 0) [EvWakeup c].
Proof. done. Qed.
