(* ===== verification/Spinlock.v ===== *)
(** * kernel/spinlock.c: spin locks and interrupt nesting

    The functions act on one lock and on the state of the processor that calls
    them.  The processors run concurrently: [lock_step] interleaves the atomic
    actions the calls of [acquire] and [release] are made of, and the theorems
    are about every interleaving. *)

From Stdlib Require Import ZArith Lia.
From stdpp Require Import base list sets strings numbers relations.
From S2P Require Import Prelude.

(** [sstatus.SIE], and the fields [noff] and [intena] of [struct cpu]. *)
Record cpu := Cpu { c_intr : bool; c_noff : Z; c_intena : bool }.

Definition intr_get : M cpu bool := gets c_intr.
Definition intr_on : M cpu unit := modify (fun c => Cpu true (c_noff c) (c_intena c)).
Definition intr_off : M cpu unit := modify (fun c => Cpu false (c_noff c) (c_intena c)).

Definition push_off : M cpu unit :=
  let* old := intr_get in
  intr_off ;;;
  modify (fun c => if c_noff c =? 0 then Cpu (c_intr c) (c_noff c) old else c) ;;;
  modify (fun c => Cpu (c_intr c) (c_noff c + 1) (c_intena c)).

Definition pop_off : M cpu unit :=
  let* i := intr_get in
  if i then panic "pop_off - interruptible"
  else
    let* c := get in
    if c_noff c <? 1 then panic "pop_off"
    else
      modify (fun c => Cpu (c_intr c) (c_noff c - 1) (c_intena c)) ;;;
      let* c := get in
      if (c_noff c =? 0) && c_intena c then intr_on else ret tt.

(** [lk->cpu] is the number of a processor or null. *)
Record spinlock := Spinlock { lk_locked : Z; lk_cpu : option Z }.

Definition initlock : spinlock := Spinlock 0 None.

(** The lock and the processors. *)
Record machine := Machine { m_lock : spinlock; m_cpu : Z -> cpu }.

Definition on_cpu {A} (me : Z) (f : M cpu A) : M machine A :=
  lift (Lens (fun s => m_cpu s me) (fun c s => Machine (m_lock s) (fset (m_cpu s) me c))) f.

Definition holding (me : Z) : M machine bool :=
  gets (fun s => negb (lk_locked (m_lock s) =? 0) && bool_decide (lk_cpu (m_lock s) = Some me)).

(** [__sync_lock_test_and_set(&lk->locked, 1)]: the old value. *)
Definition test_and_set : M machine Z :=
  let* s := get in
  put (Machine (Spinlock 1 (lk_cpu (m_lock s))) (m_cpu s)) ;;;
  ret (lk_locked (m_lock s)).

Definition set_lk_cpu (c : option Z) : M machine unit :=
  modify (fun s => Machine (Spinlock (lk_locked (m_lock s)) c) (m_cpu s)).

(** [__sync_lock_release(&lk->locked)] *)
Definition lock_release : M machine unit :=
  modify (fun s => Machine (Spinlock 0 (lk_cpu (m_lock s))) (m_cpu s)).

(** The parts of [acquire] before and after the loop. *)
Definition acquire_enter (me : Z) : M machine unit :=
  on_cpu me push_off ;;;
  let* h := holding me in
  if h then panic "acquire" else ret tt.

Fixpoint spin (fuel : nat) : M machine unit :=
  match fuel with
  | O => undef "acquire: spinning"
  | S fuel' => let* old := test_and_set in if negb (old =? 0) then spin fuel' else ret tt
  end.

Definition acquire (fuel : nat) (me : Z) : M machine unit :=
  acquire_enter me ;;; spin fuel ;;; set_lk_cpu (Some me).

Definition release_check (me : Z) : M machine unit :=
  let* h := holding me in
  if negb h then panic "release" else set_lk_cpu None.

Definition release (me : Z) : M machine unit :=
  release_check me ;;; lock_release ;;; on_cpu me pop_off.

(** ** Interrupt nesting *)

Lemma push_off_run c : push_off c =
  Done tt (Cpu false (c_noff c + 1) (if c_noff c =? 0 then c_intr c else c_intena c)) [].
Proof. destruct c as [i n e]. unfold push_off, bind. simpl. by destruct (n =? 0). Qed.

Lemma pop_off_run c : c_intr c = false -> 1 <= c_noff c -> pop_off c =
  Done tt (Cpu ((c_noff c =? 1) && c_intena c) (c_noff c - 1) (c_intena c)) [].
Proof.
  destruct c as [i n e]. simpl. intros -> Hn. unfold pop_off, bind, gets, get. simpl.
  rewrite (proj2 (Z.ltb_ge n 1)) by lia. simpl.
  destruct (Z.eqb_spec n 1) as [->|]; [by destruct e|].
  rewrite (proj2 (Z.eqb_neq (n - 1) 0)) by lia. done.
Qed.

Fixpoint times {S} (n : nat) (f : M S unit) : M S unit :=
  match n with O => ret tt | Datatypes.S n' => f ;;; times n' f end.

Lemma push_times n c : 1 <= c_noff c -> c_intr c = false ->
  times n push_off c = Done tt (Cpu false (c_noff c + Z.of_nat n) (c_intena c)) [].
Proof.
  revert c. induction n as [|n IH]; intros [i k e] Hk Hi; simpl in *.
  - rewrite Z.add_0_r. by subst.
  - rewrite (bind_Done _ _ _ _ _ _ (push_off_run _)), prepend_nil. simpl.
    rewrite (proj2 (Z.eqb_neq k 0)), IH by (simpl; lia || done). simpl.
    do 2 f_equal. lia.
Qed.

Lemma pop_times n c : c_noff c = Z.of_nat n -> c_intr c = false -> (0 < n)%nat ->
  times n pop_off c = Done tt (Cpu (c_intena c) 0 (c_intena c)) [].
Proof.
  revert c. induction n as [|n IH]; intros [i k e] Hk Hi Hn; simpl in *; [lia|].
  rewrite (bind_Done _ _ _ _ _ _ (pop_off_run (Cpu i k e) Hi ltac:(simpl; lia))), prepend_nil. simpl.
  destruct n as [|n].
  - simpl. unfold ret. rewrite (proj2 (Z.eqb_eq k 1)) by lia. simpl. do 2 f_equal. lia.
  - rewrite (proj2 (Z.eqb_neq k 1)) by lia. rewrite IH; simpl; (done || lia).
Qed.

(** [push_off] and [pop_off] match: as many [pop_off]s as [push_off]s leave
    interrupts enabled exactly if they were enabled before, and none of the calls
    in between panics. *)
Theorem push_pop_restores n c :
  c_noff c = 0 -> (0 < n)%nat ->
  (times n push_off ;;; times n pop_off) c = Done tt (Cpu (c_intr c) 0 (c_intr c)) [].
Proof.
  intros Hc Hn. destruct n as [|n]; [lia|]. simpl times at 1. rewrite bind_assoc.
  rewrite (bind_Done _ _ _ _ _ _ (push_off_run _)), prepend_nil, Hc. simpl.
  rewrite (bind_Done _ _ _ _ _ _ (push_times n (Cpu false 1 (c_intr c)) ltac:(simpl; lia) eq_refl)), prepend_nil.
  change (times (Datatypes.S n) pop_off (Cpu false (1 + Z.of_nat n) (c_intr c)) =
    Done tt (Cpu (c_intr c) 0 (c_intr c)) []).
  rewrite (pop_times (Datatypes.S n)); simpl c_noff; (done || lia).
Qed.

Lemma push_pop_restores_witness :
  (times 3 push_off ;;; times 3 pop_off) (Cpu true 0 false) = Done tt (Cpu true 0 true) [].
Proof. apply (push_pop_restores 3 (Cpu true 0 false)); [reflexivity|lia]. Defined.

(** ** The processors together *)

(** Where a processor is in its use of the lock. *)
Inductive pc := Idle | Spinning | Got | Critical | Cleared | Unlocked.

#[export] Instance pc_eq_dec : EqDecision pc.
Proof. solve_decision. Defined.

(** [s_nest i] counts the [push_off]s processor [i] has pending for other
    reasons: other locks it holds, or [mycpu] and [myproc]. *)
Record system := System { s_mach : machine; s_pc : Z -> pc; s_nest : Z -> Z }.

Definition at_pc (x : system) (i : Z) (p p' : pc) (m' : machine) (y : system) : Prop :=
  s_pc x i = p /\ y = System m' (fset (s_pc x) i p') (s_nest x).

Inductive lock_step (x : system) : system -> Prop :=
| st_enter i m t y : acquire_enter i (s_mach x) = Done tt m t ->
    at_pc x i Idle Spinning m y -> lock_step x y
| st_spin i old m t y : test_and_set (s_mach x) = Done old m t -> old <> 0 ->
    at_pc x i Spinning Spinning m y -> lock_step x y
| st_got i m t y : test_and_set (s_mach x) = Done 0 m t ->
    at_pc x i Spinning Got m y -> lock_step x y
| st_record i m t y : set_lk_cpu (Some i) (s_mach x) = Done tt m t ->
    at_pc x i Got Critical m y -> lock_step x y
| st_release i m t y : release_check i (s_mach x) = Done tt m t ->
    at_pc x i Critical Cleared m y -> lock_step x y
| st_unlock i m t y : lock_release (s_mach x) = Done tt m t ->
    at_pc x i Cleared Unlocked m y -> lock_step x y
| st_pop i m t y : on_cpu i pop_off (s_mach x) = Done tt m t ->
    at_pc x i Unlocked Idle m y -> lock_step x y
| st_nest i m t : on_cpu i push_off (s_mach x) = Done tt m t ->
    s_pc x i = Idle \/ s_pc x i = Critical ->
    lock_step x (System m (s_pc x) (fset (s_nest x) i (s_nest x i + 1)))
| st_unnest i m t : on_cpu i pop_off (s_mach x) = Done tt m t ->
    s_pc x i = Idle \/ s_pc x i = Critical -> 0 < s_nest x i ->
    lock_step x (System m (s_pc x) (fset (s_nest x) i (s_nest x i - 1)))
| st_intr i m t (on : bool) : c_noff (m_cpu (s_mach x) i) = 0 ->
    on_cpu i (if on then intr_on else intr_off) (s_mach x) = Done tt m t ->
    lock_step x (System m (s_pc x) (s_nest x)).

Definition sys_start (x : system) : Prop :=
  m_lock (s_mach x) = initlock /\
  forall i, s_pc x i = Idle /\ s_nest x i = 0 /\ c_noff (m_cpu (s_mach x) i) = 0.

(** The processor owns [locked]. *)
Definition owns (p : pc) : bool :=
  match p with Got | Critical | Cleared => true | _ => false end.

Definition cpu_inv (p : pc) (nest : Z) (c : cpu) : Prop :=
  0 <= nest /\ c_noff c = nest + (if decide (p = Idle) then 0 else 1) /\
  (0 < c_noff c -> c_intr c = false).

Record sys_inv (x : system) : Prop := {
  si_cpu i : cpu_inv (s_pc x i) (s_nest x i) (m_cpu (s_mach x) i);
  si_free : lk_locked (m_lock (s_mach x)) = 0 -> forall i, owns (s_pc x i) = false;
  si_one i j : owns (s_pc x i) = true -> owns (s_pc x j) = true -> i = j;
  si_holder i : lk_cpu (m_lock (s_mach x)) = Some i <-> s_pc x i = Critical
}.

Lemma on_cpu_run {A} i (f : M cpu A) a c' t m :
  f (m_cpu m i) = Done a c' t -> on_cpu i f m = Done a (Machine (m_lock m) (fset (m_cpu m) i c')) t.
Proof. intros E. unfold on_cpu, lift. simpl. by rewrite E. Qed.

(** One processor moves: the effect of a step on the invariant. *)
Lemma sys_inv_move x i p' nest' c' lk' :
  sys_inv x -> cpu_inv p' nest' c' ->
  (owns p' = owns (s_pc x i) -> lk_locked lk' = 0 -> lk_locked (m_lock (s_mach x)) = 0) ->
  (owns p' = true -> owns (s_pc x i) = false -> lk_locked (m_lock (s_mach x)) = 0) ->
  (owns p' = true -> lk_locked lk' <> 0) ->
  (owns p' = false -> owns (s_pc x i) = true -> lk_locked lk' = 0) ->
  lk_cpu lk' = (if decide (p' = Critical) then Some i
                else if decide (s_pc x i = Critical) then None else lk_cpu (m_lock (s_mach x))) ->
  sys_inv (System (Machine lk' (fset (m_cpu (s_mach x)) i c')) (fset (s_pc x) i p')
             (fset (s_nest x) i nest')).
Proof.
  intros [Hcpu Hfree Hone Hhold] Hc Hsame Hget Hset Hrel Hlk. split; simpl.
  - intros j. unfold fset. destruct (Z.eqb_spec j i) as [->|]; [done|apply Hcpu].
  - intros Hz j. unfold fset. destruct (Z.eqb_spec j i) as [->|Hne].
    + destruct (owns p') eqn:E; [|done]. exfalso. by apply Hset.
    + destruct (owns p') eqn:E; [exfalso; by apply Hset|].
      destruct (owns (s_pc x i)) eqn:E'; [|apply Hfree; by apply Hsame].
      destruct (owns (s_pc x j)) eqn:Ej; [|done]. exfalso. by apply Hne, Hone.
  - intros j k. unfold fset. destruct (Z.eqb_spec j i) as [->|Hj], (Z.eqb_spec k i) as [->|Hk];
      try done; intros H1 H2; [..|by apply Hone];
      destruct (owns (s_pc x i)) eqn:E; try (by apply Hone);
      exfalso; assert (Hz : lk_locked (m_lock (s_mach x)) = 0) by (by apply Hget);
      rewrite (Hfree Hz) in *; done.
  - intros j. rewrite Hlk. unfold fset. destruct (Z.eqb_spec j i) as [->|Hj].
    + destruct (decide (p' = Critical)) as [->|]; [done|]. split; [|done].
      destruct (decide (s_pc x i = Critical)); [done|]. by intros Hi%Hhold.
    + destruct (decide (p' = Critical)) as [->|].
      * split; [intros [= ->]; done|]. intros Hcr. exfalso.
        destruct (owns (s_pc x i)) eqn:E.
        -- apply Hj, Hone; [by rewrite Hcr|done].
        -- pose proof (Hfree (Hget eq_refl eq_refl) j) as Hf. by rewrite Hcr in Hf.
      * destruct (decide (s_pc x i = Critical)) as [Ei|]; [|apply Hhold].
        split; [done|]. intros Hcr. exfalso. apply Hj, Hone; [by rewrite Hcr|by rewrite Ei].
Qed.

Lemma lock_holding_run i m : holding i m =
  Done (negb (lk_locked (m_lock m) =? 0) && bool_decide (lk_cpu (m_lock m) = Some i)) m [].
Proof. done. Qed.

Lemma acquire_enter_run x i : sys_inv x -> s_pc x i = Idle ->
  let c := m_cpu (s_mach x) i in
  acquire_enter i (s_mach x) = Done tt (Machine (m_lock (s_mach x))
    (fset (m_cpu (s_mach x)) i
      (Cpu false (c_noff c + 1) (if c_noff c =? 0 then c_intr c else c_intena c)))) [].
Proof.
  intros Hi Hp c. unfold acquire_enter.
  rewrite (bind_Done _ _ _ _ _ _ (on_cpu_run _ _ _ _ _ _ (push_off_run _))), prepend_nil.
  rewrite (bind_Done _ _ _ _ _ _ (lock_holding_run _ _)), prepend_nil. simpl.
  rewrite (bool_decide_false (lk_cpu _ = Some i)), andb_false_r; [done|].
  intros E%(si_holder _ Hi). congruence.
Qed.

Lemma release_check_run x i : sys_inv x -> s_pc x i = Critical ->
  release_check i (s_mach x) =
    Done tt (Machine (Spinlock (lk_locked (m_lock (s_mach x))) None) (m_cpu (s_mach x))) [].
Proof.
  intros Hi Hp. unfold release_check.
  rewrite (bind_Done _ _ _ _ _ _ (lock_holding_run _ _)), prepend_nil.
  rewrite (bool_decide_true (lk_cpu _ = Some i)) by (by apply (si_holder _ Hi)).
  destruct (Z.eqb_spec (lk_locked (m_lock (s_mach x))) 0) as [E|]; [|done].
  pose proof (si_free _ Hi E i) as Ho. by rewrite Hp in Ho.
Qed.

(** A step that keeps processor [i]'s own fields. *)
Lemma fset_self {A} (f : Z -> A) i : f = fset f i (f i).
Proof. symmetry. apply fset_id. Qed.

Lemma sys_inv_cpu x i nest' c' :
  sys_inv x -> cpu_inv (s_pc x i) nest' c' ->
  sys_inv (System (Machine (m_lock (s_mach x)) (fset (m_cpu (s_mach x)) i c')) (s_pc x)
             (fset (s_nest x) i nest')).
Proof.
  intros Hi Hc. rewrite (fset_self (s_pc x) i). apply sys_inv_move; try done.
  - intros Ho Ho'. congruence.
  - intros Ho Hz. rewrite (si_free _ Hi Hz) in Ho. done.
  - intros Ho Ho'. congruence.
  - destruct (decide _) as [Hp|Hp]; [by apply (si_holder _ Hi)|done].
Qed.

Lemma sys_inv_step x y : sys_inv x -> lock_step x y -> sys_inv y.
Proof.
  intros Hi Hst. pose proof (si_cpu _ Hi) as Hc.
  destruct Hst as [i m t y E [Hp ->]|i old m t y E Ho [Hp ->]|i m t y E [Hp ->]|i m t y E [Hp ->]
    |i m t y E [Hp ->]|i m t y E [Hp ->]|i m t y E [Hp ->]|i m t E Hp|i m t E Hp Hn|i m t on Hz E];
    pose proof (Hc i) as (Hn0 & Hnoff & Hint).
  - rewrite acquire_enter_run in E by done. injection E as <- <-. rewrite (fset_self (s_nest x) i).
    apply sys_inv_move; rewrite ?Hp in *; simpl in *; try done.
    unfold cpu_inv. split_and!; simpl; [done|lia|done].
  - injection E as <- <- <-. rewrite (fset_self (s_nest x) i).
    rewrite (fset_self (m_cpu (s_mach x)) i). apply sys_inv_move; rewrite ?Hp in *; simpl; try done.
  - injection E as E0 <- <-. rewrite (fset_self (s_nest x) i).
    rewrite (fset_self (m_cpu (s_mach x)) i). apply sys_inv_move; rewrite ?Hp in *; simpl; try done.
  - injection E as <- <-. rewrite (fset_self (s_nest x) i).
    rewrite (fset_self (m_cpu (s_mach x)) i). apply sys_inv_move; rewrite ?Hp in *; simpl; try done.
    intros _ Hz. pose proof (si_free _ Hi Hz i) as Hf. by rewrite Hp in Hf.
  - rewrite release_check_run in E by done. injection E as <- <-. rewrite (fset_self (s_nest x) i).
    rewrite (fset_self (m_cpu (s_mach x)) i). apply sys_inv_move; rewrite ?Hp in *; simpl; try done.
    intros _ Hz. pose proof (si_free _ Hi Hz i) as Hf. by rewrite Hp in Hf.
  - injection E as <- <-. rewrite (fset_self (s_nest x) i).
    rewrite (fset_self (m_cpu (s_mach x)) i). apply sys_inv_move; rewrite ?Hp in *; simpl; try done.
  - rewrite Hp in *. simpl in Hnoff.
    rewrite (on_cpu_run _ _ _ _ _ _ (pop_off_run _ (Hint ltac:(lia)) ltac:(lia))) in E.
    injection E as <- <-. rewrite (fset_self (s_nest x) i).
    apply sys_inv_move; rewrite ?Hp in *; simpl; try done.
    unfold cpu_inv. split_and!; simpl; [done|lia|]. intros Hpos. case_bool; simpl; [lia|done].
  - rewrite (on_cpu_run _ _ _ _ _ _ (push_off_run _)) in E. injection E as <- <-.
    apply sys_inv_cpu; [done|]. unfold cpu_inv. simpl. split_and!; [lia|lia|done].
  - assert (Hpos : 1 <= c_noff (m_cpu (s_mach x) i)) by (destruct (decide _); lia).
    rewrite (on_cpu_run _ _ _ _ _ _ (pop_off_run _ (Hint ltac:(lia)) Hpos)) in E.
    injection E as <- <-. apply sys_inv_cpu; [done|]. unfold cpu_inv. simpl.
    split_and!; [lia|lia|]. intros Hgt. case_bool; simpl; [lia|done].
  - assert (Eon : exists b, m = Machine (m_lock (s_mach x)) (fset (m_cpu (s_mach x)) i
      (Cpu b (c_noff (m_cpu (s_mach x) i)) (c_intena (m_cpu (s_mach x) i)))))
      by (destruct on; injection E as <- <-; eauto).
    destruct Eon as [b ->]. rewrite (fset_self (s_nest x) i). apply sys_inv_cpu; [done|].
    unfold cpu_inv. simpl. split_and!; [done..|lia].
Qed.

(** C25: The spin lock gives mutual exclusion, under every interleaving of the
    processors' instructions: at most one processor is between the successful
    swap of [acquire] and the release of [locked]; the processor in its critical
    section has interrupts off, [holding] is true on it and false on every other,
    and its [release] succeeds; a processor that does not use the lock can start
    [acquire] without the panic for a lock already held. *)
Theorem spinlock_mutex x y :
  sys_start x -> rtc lock_step x y ->
  (forall i j, owns (s_pc y i) = true -> owns (s_pc y j) = true -> i = j) /\
  (forall i, s_pc y i = Critical -> c_intr (m_cpu (s_mach y) i) = false /\
     (exists m', release i (s_mach y) = Done tt m' [])) /\
  (forall i, holding i (s_mach y) = Done (bool_decide (s_pc y i = Critical)) (s_mach y) []) /\
  (forall i, s_pc y i = Idle -> exists m', acquire_enter i (s_mach y) = Done tt m' []).
Proof.
  intros [Hlk Hst] Hr. assert (Hi : sys_inv x).
  { split.
    - intros i. destruct (Hst i) as (-> & -> & Hn). unfold cpu_inv. rewrite Hn. simpl. lia.
    - intros _ i. by destruct (Hst i) as (-> & _).
    - intros i j. by destruct (Hst i) as (-> & _).
    - intros i. rewrite Hlk. by destruct (Hst i) as (-> & _). }
  clear Hlk Hst. induction Hr as [x|x y z Hst _ IH]; [|apply IH; by eapply sys_inv_step].
  split_and!.
  - apply (si_one _ Hi).
  - intros i Hp. destruct (si_cpu _ Hi i) as (Hn & Hnoff & Hint). rewrite Hp in Hnoff. simpl in Hnoff.
    split; [apply Hint; lia|]. unfold release.
    rewrite (bind_Done _ _ _ _ _ _ (release_check_run _ _ Hi Hp)), prepend_nil.
    unfold lock_release, bind, modify. simpl.
    erewrite on_cpu_run by (apply pop_off_run; [apply Hint; lia|simpl; lia]). eauto.
  - intros i. rewrite lock_holding_run. do 2 f_equal. destruct (decide (s_pc x i = Critical)) as [Hp|Hp].
    + rewrite (bool_decide_true (s_pc x i = _)), bool_decide_true by (done || by apply (si_holder _ Hi)).
      rewrite andb_true_r. destruct (Z.eqb_spec (lk_locked (m_lock (s_mach x))) 0) as [Hz|]; [|done].
      pose proof (si_free _ Hi Hz i) as Ho. by rewrite Hp in Ho.
    + rewrite (bool_decide_false (s_pc x i = _)), (bool_decide_false (lk_cpu _ = _)), andb_false_r; try done.
      by intros E%(si_holder _ Hi).
  - intros i Hp. rewrite (acquire_enter_run _ _ Hi Hp). eauto.
Qed.

(** Two processors; the first one takes the lock while the second spins. *)
Lemma spinlock_mutex_witness :
  let x := System (Machine initlock (fun _ => Cpu true 0 false)) (fun _ => Idle) (fun _ => 0) in
  exists y, rtc lock_step x y /\ s_pc y 0 = Got /\ owns (s_pc y 1) = false.
Proof.
  intros x. eexists. split; [|split].
  - eapply rtc_l; [eapply (st_enter _ 0); [reflexivity|split; reflexivity]|].
    eapply rtc_l; [eapply (st_enter _ 1); [reflexivity|split; reflexivity]|].
    eapply rtc_once, (st_got _ 0); [reflexivity|split; reflexivity].
  - reflexivity.
  - match goal with |- owns (s_pc ?y 1) = false =>
      destruct (owns (s_pc y 1)) eqn:E; [|reflexivity];
      destruct (spinlock_mutex x y) as (H1 & _);
        [split; [reflexivity|]; intros i; repeat split
        |eapply rtc_l; [eapply (st_enter _ 0); [reflexivity|split; reflexivity]|];
         eapply rtc_l; [eapply (st_enter _ 1); [reflexivity|split; reflexivity]|];
         eapply rtc_once, (st_got _ 0); [reflexivity|split; reflexivity]
        |specialize (H1 0 1 eq_refl E); discriminate] end.
Defined.
