(* ===== verification/Blocks.v ===== *)
(** * Disk blocks as byte arrays

    kernel/fs.h fixes the block size and the layout of the structures stored in
    blocks; C code reaches them by casting [b->data].  The accessors below read
    and write little-endian fields of a block. *)

From Stdlib Require Import ZArith Lia.
From stdpp Require Import base list numbers.
From S2P Require Import Prelude.

Definition BSIZE : Z := 1024.

Abbreviation block := (list Z).

Definition zero_block : block := replicate (Z.to_nat BSIZE) 0.

Definition byte_at (d : block) (off : Z) : Z := default 0 (zget d off).

Fixpoint get_le (n : nat) (d : block) (off : Z) : Z :=
  match n with
  | O => 0
  | S n' => byte_at d off + 256 * get_le n' d (off + 1)
  end.

Fixpoint set_le (n : nat) (d : block) (off v : Z) : block :=
  match n with
  | O => d
  | S n' => set_le n' (zset d off (v mod 256)) (off + 1) (v / 256)
  end.

Abbreviation get16 := (get_le 2).
Abbreviation get32 := (get_le 4).
Abbreviation set16 := (set_le 2).
Abbreviation set32 := (set_le 4).

(** The bytes [off .. off+n) of a block, and a block with bytes written over. *)
Definition sub_bytes (d : list Z) (off n : Z) : list Z := take (Z.to_nat n) (drop (Z.to_nat off) d).
Definition put_bytes (d : list Z) (off : Z) (l : list Z) : list Z :=
  take (Z.to_nat off) d ++ l ++ drop (Z.to_nat off + length l) d.

Definition block_ok (d : block) : Prop := length d = Z.to_nat BSIZE.

Lemma length_set_le n d off v : length (set_le n d off v) = length d.
Proof.
  revert d off v. induction n as [|n IH]; intros; simpl; [done|].
  by rewrite IH, length_zset.
Qed.

#[export] Hint Rewrite length_set_le : arrays.

Lemma block_ok_zero : block_ok zero_block.
Proof. unfold block_ok, zero_block. by rewrite length_replicate. Qed.

Lemma block_ok_set_le n d off v : block_ok d -> block_ok (set_le n d off v).
Proof. unfold block_ok. by rewrite length_set_le. Qed.

Lemma block_ok_zset d i v : block_ok d -> block_ok (zset d i v).
Proof. unfold block_ok. by rewrite length_zset. Qed.

#[export] Hint Resolve block_ok_zero block_ok_set_le block_ok_zset : kernel.

Lemma byte_at_zset_eq d i v : 0 <= i < Z.of_nat (length d) -> byte_at (zset d i v) i = v.
Proof. intros. unfold byte_at. by rewrite zget_zset_eq. Qed.

Lemma byte_at_zset_ne d i j v : i <> j -> byte_at (zset d i v) j = byte_at d j.
Proof. intros. unfold byte_at. by rewrite zget_zset_ne. Qed.

Lemma byte_at_set_le_outside n d off v i :
  i < off \/ off + Z.of_nat n <= i -> byte_at (set_le n d off v) i = byte_at d i.
Proof.
  revert d off v. induction n as [|n IH]; intros d off v H; simpl; [done|].
  rewrite IH by lia. apply byte_at_zset_ne. lia.
Qed.

Lemma get_le_ext n d d' off :
  (forall i, off <= i < off + Z.of_nat n -> byte_at d i = byte_at d' i) ->
  get_le n d off = get_le n d' off.
Proof.
  revert off. induction n as [|n IH]; intros off H; simpl; [done|].
  rewrite H by lia. rewrite (IH (off + 1)); [done|]. intros. apply H. lia.
Qed.

Lemma get_le_set_le_ne n k d off off' v :
  off + Z.of_nat n <= off' \/ off' + Z.of_nat k <= off ->
  get_le n (set_le k d off' v) off = get_le n d off.
Proof. intros H. apply get_le_ext. intros. apply byte_at_set_le_outside. lia. Qed.

Lemma get_le_set_le_eq n d off v :
  0 <= off -> off + Z.of_nat n <= Z.of_nat (length d) ->
  get_le n (set_le n d off v) off = v mod 256 ^ Z.of_nat n.
Proof.
  revert d off v. induction n as [|n IH]; intros d off v H0 H1.
  - simpl. by rewrite Z.mod_1_r.
  - cbn [set_le get_le]. rewrite byte_at_set_le_outside by lia.
    rewrite byte_at_zset_eq by lia. rewrite IH by (rewrite ?length_zset; lia).
    rewrite Nat2Z.inj_succ, Z.pow_succ_r by lia.
    rewrite (Z.rem_mul_r v 256); [done|lia|].
    assert (0 < 256 ^ Z.of_nat n) by (apply Z.pow_pos_nonneg; lia). lia.
Qed.

Lemma get32_set32_eq d off v :
  block_ok d -> 0 <= off <= BSIZE - 4 -> 0 <= v < 2 ^ 32 -> get32 (set32 d off v) off = v.
Proof.
  unfold block_ok, BSIZE. intros Hd Ho Hv.
  rewrite get_le_set_le_eq by lia. by apply Z.mod_small.
Qed.

Lemma zget_byte_at d i : 0 <= i < Z.of_nat (length d) -> zget d i = Some (byte_at d i).
Proof. intros H. destruct (zget_is_Some d i H) as [x E]. unfold byte_at. by rewrite E. Qed.

Lemma length_sub_bytes d off n :
  0 <= off -> 0 <= n -> off + n <= Z.of_nat (length d) -> length (sub_bytes d off n) = Z.to_nat n.
Proof. intros. unfold sub_bytes. rewrite length_take, length_drop. lia. Qed.

Lemma length_put_bytes d off l :
  0 <= off -> off + Z.of_nat (length l) <= Z.of_nat (length d) ->
  length (put_bytes d off l) = length d.
Proof.
  intros. unfold put_bytes. rewrite !length_app, length_take, length_drop. lia.
Qed.

Lemma byte_at_put_bytes d off l i :
  0 <= off -> off + Z.of_nat (length l) <= Z.of_nat (length d) -> 0 <= i ->
  byte_at (put_bytes d off l) i =
    if (off <=? i) && (i <? off + Z.of_nat (length l)) then byte_at l (i - off) else byte_at d i.
Proof.
  intros H0 H1 Hi. unfold byte_at, zget, put_bytes.
  rewrite (proj2 (Z.leb_le 0 i)) by lia.
  destruct (Z.leb_spec off i); cbn [andb].
  - rewrite (proj2 (Z.leb_le 0 (i - off))) by lia.
    rewrite lookup_app_r by (rewrite length_take; lia). rewrite length_take.
    replace (Z.to_nat i - _)%nat with (Z.to_nat (i - off)) by lia.
    destruct (Z.ltb_spec i (off + Z.of_nat (length l))).
    + by rewrite lookup_app_l by lia.
    + rewrite lookup_app_r by lia. rewrite lookup_drop. do 2 f_equal. lia.
  - rewrite lookup_app_l by (rewrite length_take; lia).
    by rewrite lookup_take_lt by lia.
Qed.

Arguments get_le : simpl never.
Arguments set_le : simpl never.
