(* ===== verification/BlockCache.v ===== *)
(** * The interface between the buffer cache and its clients

    Clients see the cache as a store of blocks: the current content of every
    block, what the disk holds, how often each block is referenced and which
    blocks the running process holds locked.  [BlockCache] states what each
    operation of kernel/bio.c does to that view; the log and the file system are
    verified against it and BioProofs.v shows that the cache satisfies it. *)

From Stdlib Require Import ZArith Lia.
From stdpp Require Import base list sets numbers.
From S2P Require Import Prelude Blocks.

Record view := View {
  v_content : Z -> block;
  v_disk : Z -> block;
  v_refs : Z -> Z;
  v_held : Z -> bool;
  v_free : Z
}.

Definition view_bread (n : Z) (v : view) : view :=
  View (v_content v) (v_disk v)
    (fset (v_refs v) n (v_refs v n + 1))
    (fset (v_held v) n true)
    (v_free v - if v_refs v n =? 0 then 1 else 0).

Definition view_bstore (n : Z) (d : block) (v : view) : view :=
  View (fset (v_content v) n d) (v_disk v) (v_refs v) (v_held v) (v_free v).

Definition view_bwrite (n : Z) (v : view) : view :=
  View (v_content v) (fset (v_disk v) n (v_content v n)) (v_refs v) (v_held v) (v_free v).

Definition view_brelse (n : Z) (v : view) : view :=
  View (v_content v) (v_disk v)
    (fset (v_refs v) n (v_refs v n - 1))
    (fset (v_held v) n false)
    (v_free v + if v_refs v n =? 1 then 1 else 0).

Definition view_bpin (n : Z) (v : view) : view :=
  View (v_content v) (v_disk v) (fset (v_refs v) n (v_refs v n + 1)) (v_held v) (v_free v).

Definition view_bunpin (n : Z) (v : view) : view :=
  View (v_content v) (v_disk v) (fset (v_refs v) n (v_refs v n - 1)) (v_held v) (v_free v).

(** Nothing is locked or referenced, the cache agrees with the disk. *)
Definition view_boot (disk : Z -> block) (free : Z) : view :=
  View disk disk (fun _ => 0) (fun _ => false) free.

(** The disk writes of a trace, oldest first, and their effect on a disk. *)
Definition disk_writes (t : list event) : list (Z * block) :=
  omap (fun e => match e with EvDiskWrite n d => Some (n, d) | _ => None end) t.

Definition apply_writes (ws : list (Z * block)) (d : Z -> block) : Z -> block :=
  foldl (fun d w => fset d w.1 w.2) d ws.

Class BlockCache (S : Type) := {
  bc_view : S -> view;
  bc_inv : S -> Prop;
  (** Buffer [h] is locked by the caller and caches block [n]. *)
  bc_handle : S -> Z -> Z -> Prop;
  c_bread : Z -> M S Z;
  c_bwrite : Z -> M S unit;
  c_brelse : Z -> M S unit;
  c_bpin : Z -> M S unit;
  c_bunpin : Z -> M S unit;
  c_data : Z -> M S block;
  c_store : Z -> block -> M S unit;
  c_blockno : Z -> M S Z;
  (** The cache after [binit] on a given disk. *)
  c_boot : (Z -> block) -> S;
  c_nbuf : Z
}.

Class BlockCacheLaws (S : Type) `{BlockCache S} : Prop := {
  content_ok s n : bc_inv s -> block_ok (v_content (bc_view s) n);
  disk_ok s n : bc_inv s -> block_ok (v_disk (bc_view s) n);
  refs_range s n : bc_inv s -> 0 <= v_refs (bc_view s) n < 2 ^ 32;
  free_range s : bc_inv s -> 0 <= v_free (bc_view s) <= c_nbuf;
  unreferenced_clean s n : bc_inv s -> v_refs (bc_view s) n = 0 ->
    v_content (bc_view s) n = v_disk (bc_view s) n;
  handle_held s h n : bc_inv s -> bc_handle s h n ->
    v_held (bc_view s) n = true /\ 0 < v_refs (bc_view s) n;
  bread_ok s n : bc_inv s -> v_held (bc_view s) n = false ->
    v_refs (bc_view s) n < 2 ^ 32 - 1 ->
    0 < v_refs (bc_view s) n \/ 0 < v_free (bc_view s) ->
    wp (c_bread n) s (fun h s' t => bc_inv s' /\ disk_writes t = [] /\
      bc_view s' = view_bread n (bc_view s) /\ bc_handle s' h n /\
      (forall h' n', bc_handle s h' n' -> bc_handle s' h' n'));
  bwrite_ok s h n : bc_inv s -> bc_handle s h n ->
    wp (c_bwrite h) s (fun _ s' t => bc_inv s' /\
      disk_writes t = [(n, v_content (bc_view s) n)] /\
      bc_view s' = view_bwrite n (bc_view s) /\
      (forall h' n', bc_handle s h' n' -> bc_handle s' h' n'));
  brelse_ok s h n : bc_inv s -> bc_handle s h n ->
    (v_refs (bc_view s) n = 1 -> v_content (bc_view s) n = v_disk (bc_view s) n) ->
    wp (c_brelse h) s (fun _ s' t => bc_inv s' /\ disk_writes t = [] /\
      bc_view s' = view_brelse n (bc_view s) /\
      (forall h' n', n' <> n -> bc_handle s h' n' -> bc_handle s' h' n'));
  bpin_ok s h n : bc_inv s -> bc_handle s h n -> v_refs (bc_view s) n < 2 ^ 32 - 1 ->
    wp (c_bpin h) s (fun _ s' t => bc_inv s' /\ t = [] /\
      bc_view s' = view_bpin n (bc_view s) /\
      (forall h' n', bc_handle s h' n' -> bc_handle s' h' n'));
  bunpin_ok s h n : bc_inv s -> bc_handle s h n -> 1 < v_refs (bc_view s) n ->
    wp (c_bunpin h) s (fun _ s' t => bc_inv s' /\ t = [] /\
      bc_view s' = view_bunpin n (bc_view s) /\
      (forall h' n', bc_handle s h' n' -> bc_handle s' h' n'));
  data_ok s h n : bc_inv s -> bc_handle s h n ->
    c_data h s = Done (v_content (bc_view s) n) s [];
  blockno_ok s h n : bc_inv s -> bc_handle s h n -> c_blockno h s = Done n s [];
  store_ok s h n d : bc_inv s -> bc_handle s h n -> block_ok d ->
    wp (c_store h d) s (fun _ s' t => bc_inv s' /\ t = [] /\
      bc_view s' = view_bstore n d (bc_view s) /\
      (forall h' n', bc_handle s h' n' -> bc_handle s' h' n'));
  boot_ok d : (forall n, block_ok (d n)) ->
    bc_inv (c_boot d) /\ bc_view (c_boot d) = view_boot d c_nbuf
}.

Lemma disk_writes_app t t' : disk_writes (t ++ t') = disk_writes t ++ disk_writes t'.
Proof. apply omap_app. Qed.

Lemma apply_writes_app ws ws' d :
  apply_writes (ws ++ ws') d = apply_writes ws' (apply_writes ws d).
Proof. apply foldl_app. Qed.

Lemma apply_writes_cons n b ws d :
  apply_writes ((n, b) :: ws) d = apply_writes ws (fset d n b).
Proof. done. Qed.

Lemma apply_writes_notin ws d n : n ∉ ws.*1 -> apply_writes ws d n = d n.
Proof.
  revert d. induction ws as [|[m b] ws IH]; intros d H; [done|].
  rewrite apply_writes_cons, IH by set_solver. apply fset_ne. set_solver.
Qed.

#[export] Hint Rewrite @disk_writes_app : trace.
