(* ===== verification/Bio.v ===== *)
(** * kernel/bio.c: the buffer cache

    The cache is an array of [NBUF] buffers threaded on a doubly linked list in
    order of last use; [bcache.head] is the buffer of index [HEAD].  The spin
    lock [bcache.lock] makes every list operation atomic.  The second half shows
    that the cache implements an abstract store of blocks (class [BlockCache]),
    which is what the log and the file system rely on. *)

From Stdlib Require Import ZArith Lia FunctionalExtensionality.
From stdpp Require Import base list strings numbers.
From S2P Require Import Prelude Sleeplock Blocks.

Definition NBUF : Z := 30.
Definition HEAD : Z := NBUF.
Definition ROOTDEV : Z := 1.

Record buf := Buf {
  b_valid : Z;
  b_dev : Z;
  b_blockno : Z;
  b_lock : sleeplock;
  b_refcnt : Z;
  b_prev : Z;
  b_next : Z;
  b_data : block
}.

(** The cache, the disk below it and the pid of the running process. *)
Record bcache := Bcache {
  bc_buf : list buf;
  bc_disk : Z -> block;
  bc_pid : Z
}.

Definition set_prev (p : Z) (b : buf) : buf :=
  Buf (b_valid b) (b_dev b) (b_blockno b) (b_lock b) (b_refcnt b) p (b_next b) (b_data b).
Definition set_next (n : Z) (b : buf) : buf :=
  Buf (b_valid b) (b_dev b) (b_blockno b) (b_lock b) (b_refcnt b) (b_prev b) n (b_data b).
Definition set_lock (l : sleeplock) (b : buf) : buf :=
  Buf (b_valid b) (b_dev b) (b_blockno b) l (b_refcnt b) (b_prev b) (b_next b) (b_data b).
Definition set_refcnt (r : Z) (b : buf) : buf :=
  Buf (b_valid b) (b_dev b) (b_blockno b) (b_lock b) r (b_prev b) (b_next b) (b_data b).
Definition set_valid (v : Z) (b : buf) : buf :=
  Buf v (b_dev b) (b_blockno b) (b_lock b) (b_refcnt b) (b_prev b) (b_next b) (b_data b).
Definition set_data (d : block) (b : buf) : buf :=
  Buf (b_valid b) (b_dev b) (b_blockno b) (b_lock b) (b_refcnt b) (b_prev b) (b_next b) d.
Definition set_block (dev blockno : Z) (b : buf) : buf :=
  Buf 0 dev blockno (b_lock b) 1 (b_prev b) (b_next b) (b_data b).

Definition buf_at (i : Z) : M bcache buf :=
  let* s := get in of_option "bad struct buf pointer" (zget (bc_buf s) i).

Definition upd_at (i : Z) (f : buf -> buf) : M bcache unit :=
  let* b := buf_at i in
  modify (fun s => Bcache (zset (bc_buf s) i (f b)) (bc_disk s) (bc_pid s)).

(** [b->lock]'s own operations, on the buffer of index [i]. *)
Definition buf_lens (i : Z) (b : buf) : lens bcache sleeplock :=
  Lens (fun _ => b_lock b)
       (fun l s => Bcache (zset (bc_buf s) i (set_lock l b)) (bc_disk s) (bc_pid s)).

Definition b_acquiresleep (i : Z) : M bcache unit :=
  let* b := buf_at i in
  let* me := gets bc_pid in
  lift (buf_lens i b) (acquiresleep me (ChSleeplock "buffer" i)).

Definition b_releasesleep (i : Z) : M bcache unit :=
  let* b := buf_at i in
  lift (buf_lens i b) (releasesleep (ChSleeplock "buffer" i)).

Definition b_holdingsleep (i : Z) : M bcache bool :=
  let* b := buf_at i in
  let* me := gets bc_pid in
  lift (buf_lens i b) (holdingsleep me).

(** The contract of [virtio_disk_rw(b, write)]: when it returns, the block has
    been transferred between the buffer and the disk.  The driver takes the
    block number from the buffer and ignores the device. *)
Definition disk_rw (i : Z) (write : bool) : M bcache unit :=
  let* b := buf_at i in
  if write then
    modify (fun s => Bcache (bc_buf s)
      (fun n => if n =? b_blockno b then b_data b else bc_disk s n) (bc_pid s)) ;;;
    emit (EvDiskWrite (b_blockno b) (b_data b))
  else
    let* d := gets bc_disk in
    upd_at i (set_data (d (b_blockno b))).

Definition binit : M bcache unit :=
  upd_at HEAD (set_prev HEAD) ;;;
  upd_at HEAD (set_next HEAD) ;;;
  for_loop (Z.to_nat NBUF) 0 (fun b =>
    let* head := buf_at HEAD in
    upd_at b (set_next (b_next head)) ;;;
    upd_at b (set_prev HEAD) ;;;
    upd_at b (set_lock initsleeplock) ;;;
    let* head := buf_at HEAD in
    upd_at (b_next head) (set_prev b) ;;;
    upd_at HEAD (set_next b)).

(** The two loops of [bget]: follow [step] from [b] until the head or until a
    buffer satisfies [p].  [NBUF + 1] looks are enough on a well-formed list. *)
Fixpoint bscan (fuel : nat) (step : buf -> Z) (p : buf -> bool) (b : Z) : M bcache (option Z) :=
  match fuel with
  | O => undef "buffer list without end"
  | S fuel' =>
    if b =? HEAD then ret None
    else
      let* x := buf_at b in
      if p x then ret (Some b) else bscan fuel' step p (step x)
  end.

Definition scan_fuel : nat := Z.to_nat (NBUF + 1).

Definition bget (dev blockno : Z) : M bcache Z :=
  let* head := buf_at HEAD in
  let* cached := bscan scan_fuel b_next
       (fun x => (b_dev x =? dev) && (b_blockno x =? blockno)) (b_next head) in
  match cached with
  | Some b =>
    let* x := buf_at b in
    upd_at b (set_refcnt (u32 (b_refcnt x + 1))) ;;;
    b_acquiresleep b ;;;
    ret b
  | None =>
    let* head := buf_at HEAD in
    let* unused := bscan scan_fuel b_prev (fun x => b_refcnt x =? 0) (b_prev head) in
    match unused with
    | Some b =>
      upd_at b (set_block dev blockno) ;;;
      b_acquiresleep b ;;;
      ret b
    | None => panic "bget: no buffers"
    end
  end.

Definition bread (dev blockno : Z) : M bcache Z :=
  let* b := bget dev blockno in
  let* x := buf_at b in
  (if b_valid x =? 0 then disk_rw b false ;;; upd_at b (set_valid 1) else ret tt) ;;;
  ret b.

Definition bwrite (b : Z) : M bcache unit :=
  let* h := b_holdingsleep b in
  if negb h then panic "bwrite" else disk_rw b true.

(** The list surgery of [brelse]: unlink [b] and put it after the head. *)
Definition to_front (b : Z) : M bcache unit :=
  let* x := buf_at b in
  upd_at (b_next x) (set_prev (b_prev x)) ;;;
  let* x := buf_at b in
  upd_at (b_prev x) (set_next (b_next x)) ;;;
  let* head := buf_at HEAD in
  upd_at b (set_next (b_next head)) ;;;
  upd_at b (set_prev HEAD) ;;;
  let* head := buf_at HEAD in
  upd_at (b_next head) (set_prev b) ;;;
  upd_at HEAD (set_next b).

Definition brelse (b : Z) : M bcache unit :=
  let* h := b_holdingsleep b in
  if negb h then panic "brelse"
  else
    b_releasesleep b ;;;
    let* x := buf_at b in
    upd_at b (set_refcnt (u32 (b_refcnt x - 1))) ;;;
    let* x := buf_at b in
    if b_refcnt x =? 0 then to_front b
    else ret tt.

Definition bpin (b : Z) : M bcache unit :=
  let* x := buf_at b in upd_at b (set_refcnt (u32 (b_refcnt x + 1))).

Definition bunpin (b : Z) : M bcache unit :=
  let* x := buf_at b in upd_at b (set_refcnt (u32 (b_refcnt x - 1))).

(** [b->data] read and assigned by the holder of the buffer. *)
Definition bdata (b : Z) : M bcache block := let* x := buf_at b in ret (b_data x).
Definition bstore (b : Z) (d : block) : M bcache unit := upd_at b (set_data d).

(** The cache as the loader leaves it, and after [binit]. *)
Definition buf0 : buf := Buf 0 0 0 (Sleeplock 0 0) 0 0 0 zero_block.
Definition bss (disk : Z -> block) (pid : Z) : bcache :=
  Bcache (replicate (Z.to_nat (NBUF + 1)) buf0) disk pid.
