(* ===== verification/BioProofs.v ===== *)
(** * The buffer cache implements the block store

    Well-formedness of the cache, its preservation by every operation of
    kernel/bio.c, and the instance of [BlockCache] with its laws. *)

From Stdlib Require Import ZArith Lia FunctionalExtensionality.
From stdpp Require Import base list sets strings numbers.
From S2P Require Import Prelude Memory Sleeplock Blocks BlockCache Ring Bio.

(** The real buffers, without the list head. *)
Definition slots (bs : list buf) : list buf := take (Z.to_nat NBUF) bs.

Definition nxt (bs : list buf) (i : Z) : Z := default (-1) (b_next <$> zget bs i).
Definition prv (bs : list buf) (i : Z) : Z := default (-1) (b_prev <$> zget bs i).

Definition ring (bs : list buf) (l : list Z) : Prop :=
  l ≡ₚ seqZ 0 NBUF /\ chain (nxt bs) (prv bs) HEAD l HEAD.

(** What holds of one buffer between operations. *)
Record buf_ok (disk : Z -> block) (pid : Z) (b : buf) : Prop := {
  bo_dev : b_dev b = ROOTDEV \/ (b_dev b = 0 /\ b_refcnt b = 0 /\ b_valid b = 0);
  bo_ref : 0 <= b_refcnt b < 2 ^ 32;
  bo_data : block_ok (b_data b);
  bo_unlocked : b_refcnt b = 0 -> sl_locked (b_lock b) = 0;
  bo_owner : sl_locked (b_lock b) <> 0 -> sl_pid (b_lock b) = pid;
  bo_valid : b_dev b = ROOTDEV -> b_valid b = 1;
  bo_clean : b_dev b = ROOTDEV -> b_refcnt b = 0 -> b_data b = disk (b_blockno b)
}.

Definition bufs_uniq (bs : list buf) : Prop :=
  forall i j b c, slots bs !! i = Some b -> slots bs !! j = Some c ->
    b_dev b = ROOTDEV -> b_dev c = ROOTDEV -> b_blockno b = b_blockno c -> i = j.

Record cache_wf (s : bcache) : Prop := {
  wf_len : length (bc_buf s) = Z.to_nat (NBUF + 1);
  wf_ring : exists l, ring (bc_buf s) l;
  wf_bufs : Forall (buf_ok (bc_disk s) (bc_pid s)) (slots (bc_buf s));
  wf_uniq : bufs_uniq (bc_buf s);
  wf_disk : forall n, block_ok (bc_disk s n)
}.

(** ** The view of the cache *)

Definition caches (n : Z) (b : buf) : bool := (b_dev b =? ROOTDEV) && (b_blockno b =? n).

Definition find_buf (bs : list buf) (n : Z) : option buf := List.find (caches n) (slots bs).

Definition nfree (bs : list buf) : Z :=
  Z.of_nat (length (filter (fun b => b_refcnt b = 0) (slots bs))).

Definition cache_view (s : bcache) : view :=
  View
    (fun n => match find_buf (bc_buf s) n with Some b => b_data b | None => bc_disk s n end)
    (bc_disk s)
    (fun n => match find_buf (bc_buf s) n with Some b => b_refcnt b | None => 0 end)
    (fun n => match find_buf (bc_buf s) n with
              | Some b => negb (sl_locked (b_lock b) =? 0) | None => false end)
    (nfree (bc_buf s)).

Definition cache_handle (s : bcache) (h n : Z) : Prop :=
  0 <= h < NBUF /\
  exists b, zget (bc_buf s) h = Some b /\ caches n b = true /\ sl_locked (b_lock b) <> 0 /\
    0 < b_refcnt b.

(** ** Running the accessors *)

Definition setb (s : bcache) (i : Z) (b : buf) : bcache :=
  Bcache (zset (bc_buf s) i b) (bc_disk s) (bc_pid s).

Lemma buf_at_run s i b : zget (bc_buf s) i = Some b -> buf_at i s = Done b s [].
Proof. intros H. unfold buf_at, bind, get. by rewrite H. Qed.

Lemma upd_at_run s i b f :
  zget (bc_buf s) i = Some b -> upd_at i f s = Done tt (setb s i (f b)) [].
Proof. intros H. unfold upd_at. by rewrite (bind_Done _ _ _ _ _ _ (buf_at_run _ _ _ H)). Qed.

Lemma b_holdingsleep_run s i b :
  zget (bc_buf s) i = Some b ->
  b_holdingsleep i s =
    Done (negb (sl_locked (b_lock b) =? 0) && (sl_pid (b_lock b) =? bc_pid s))
      (setb s i b) [].
Proof.
  intros H. unfold b_holdingsleep.
  rewrite (bind_Done _ _ _ _ _ _ (buf_at_run _ _ _ H)). by destruct b as [???[]????].
Qed.

Lemma b_acquiresleep_run s i b :
  zget (bc_buf s) i = Some b -> sl_locked (b_lock b) = 0 ->
  b_acquiresleep i s = Done tt (setb s i (set_lock (Sleeplock 1 (bc_pid s)) b)) [].
Proof.
  intros H Hl. unfold b_acquiresleep.
  rewrite (bind_Done _ _ _ _ _ _ (buf_at_run _ _ _ H)). unfold bind, gets, lift. simpl.
  by rewrite acquiresleep_free.
Qed.

Lemma b_releasesleep_run s i b :
  zget (bc_buf s) i = Some b ->
  b_releasesleep i s = Done tt (setb s i (set_lock (Sleeplock 0 0) b))
    [EvWakeup (ChSleeplock "buffer" i)].
Proof.
  intros H. unfold b_releasesleep.
  rewrite (bind_Done _ _ _ _ _ _ (buf_at_run _ _ _ H)). done.
Qed.

Lemma zget_setb_eq s i b :
  0 <= i < Z.of_nat (length (bc_buf s)) -> zget (bc_buf (setb s i b)) i = Some b.
Proof. apply zget_zset_eq. Qed.

Lemma zget_setb_ne s i j b : i <> j -> zget (bc_buf (setb s i b)) j = zget (bc_buf s) j.
Proof. apply zget_zset_ne. Qed.

Lemma setb_setb s i b b' : setb (setb s i b) i b' = setb s i b'.
Proof.
  unfold setb, zset; simpl. destruct (0 <=? i); [|done]. by rewrite list_insert_insert_eq.
Qed.

Lemma setb_same s i b : zget (bc_buf s) i = Some b -> setb s i b = s.
Proof. intros H. unfold setb. rewrite zset_id by done. by destruct s. Qed.

(** ** Scanning the list *)

Definition first_in (bs : list buf) (p : buf -> bool) (l : list Z) : option Z :=
  List.find (fun i => match zget bs i with Some b => p b | None => false end) l.

Lemma bscan_run fuel s step p x l :
  (forall i, i ∈ l -> i <> HEAD /\ is_Some (zget (bc_buf s) i)) ->
  (length l < fuel)%nat ->
  path (fun i => default (-1) (step <$> zget (bc_buf s) i)) x l HEAD ->
  bscan fuel step p (default (-1) (step <$> zget (bc_buf s) x)) s =
    Done (first_in (bc_buf s) p l) s [].
Proof.
  revert fuel x. induction l as [|z l IH]; intros fuel x Hl Hf Hp;
    (destruct fuel as [|fuel]; [simpl in Hf; lia|]); simpl in Hp, Hf.
  - rewrite Hp. done.
  - destruct Hp as [Hx Hp]. rewrite Hx. cbn [bscan].
    destruct (Hl z ltac:(set_solver)) as [Hz [b Hb]].
    rewrite (proj2 (Z.eqb_neq z HEAD)) by done.
    rewrite (bind_Done _ _ _ _ _ _ (buf_at_run _ _ _ Hb)). rewrite prepend_nil.
    cbn [first_in List.find]. unfold first_in. simpl. rewrite Hb. destruct (p b); [done|].
    specialize (IH fuel z ltac:(set_solver) ltac:(lia) Hp). rewrite Hb in IH. apply IH.
Qed.

Lemma first_in_Some bs p l i :
  first_in bs p l = Some i -> i ∈ l /\ exists b, zget bs i = Some b /\ p b = true.
Proof.
  intros H. apply List.find_some in H as [Hin H]. split; [by apply list_elem_of_In|].
  destruct (zget bs i) as [b|]; [eauto|done].
Qed.

Lemma first_in_None bs p l i b :
  first_in bs p l = None -> i ∈ l -> zget bs i = Some b -> p b = false.
Proof.
  intros H Hin Hb. apply list_elem_of_In in Hin. apply (List.find_none _ _ H) in Hin.
  by rewrite Hb in Hin.
Qed.

(** ** Slots *)

Lemma slots_lookup bs k b :
  slots bs !! k = Some b <-> (k < Z.to_nat NBUF)%nat /\ bs !! k = Some b.
Proof. unfold slots. rewrite lookup_take_Some. tauto. Qed.

Lemma zget_slots bs i b :
  0 <= i < NBUF -> zget bs i = Some b <-> slots bs !! Z.to_nat i = Some b.
Proof.
  intros H. rewrite slots_lookup. unfold zget. rewrite (proj2 (Z.leb_le 0 i)) by lia.
  split; [|tauto]. intros E. split; [lia|done].
Qed.

Lemma slots_zset bs i b :
  0 <= i < NBUF -> slots (zset bs i b) = <[Z.to_nat i := b]> (slots bs).
Proof.
  intros H. unfold slots, zset. rewrite (proj2 (Z.leb_le 0 i)) by lia.
  by rewrite take_insert_lt by lia.
Qed.

Lemma slots_zset_head bs b : slots (zset bs HEAD b) = slots bs.
Proof. unfold slots, zset. simpl. by rewrite take_insert_ge by (unfold HEAD, NBUF; lia). Qed.

Lemma find_buf_Some bs n b : bufs_uniq bs ->
  find_buf bs n = Some b <-> exists k, slots bs !! k = Some b /\ caches n b = true.
Proof.
  intros Hu. unfold find_buf. split.
  - intros H. apply List.find_some in H as [Hin H].
    apply list_elem_of_In, list_elem_of_lookup in Hin as [k Hk]. eauto.
  - intros (k & Hk & Hc). destruct (List.find (caches n) (slots bs)) as [c|] eqn:E.
    + apply List.find_some in E as [Hin Hc'].
      apply list_elem_of_In, list_elem_of_lookup in Hin as [j Hj].
      unfold caches in Hc, Hc'. rewrite andb_true_iff, !Z.eqb_eq in Hc, Hc'.
      assert (j = k) as -> by (eapply Hu; [exact Hj|exact Hk|..]; naive_solver congruence).
      congruence.
    + rewrite (List.find_none _ _ E b) in Hc; [done|].
      apply list_elem_of_In, list_elem_of_lookup. eauto.
Qed.

Lemma find_buf_None bs n :
  find_buf bs n = None <-> forall k b, slots bs !! k = Some b -> caches n b = false.
Proof.
  unfold find_buf. split.
  - intros E k b Hk. apply (List.find_none _ _ E). apply list_elem_of_In, list_elem_of_lookup. eauto.
  - intros H. destruct (List.find (caches n) (slots bs)) as [c|] eqn:E; [|done].
    apply List.find_some in E as [Hin Hc].
    apply list_elem_of_In, list_elem_of_lookup in Hin as [j Hj].
    apply H in Hj. congruence.
Qed.

Section update_one.
Context (bs : list buf) (i : Z) (b b' : buf).
Context (Hi : 0 <= i < NBUF) (Hb : zget bs i = Some b).

Lemma slots_zset_lookup k :
  slots (zset bs i b') !! k = if decide (k = Z.to_nat i) then Some b' else slots bs !! k.
Proof.
  rewrite slots_zset by done. apply zget_slots in Hb; [|done].
  case_decide; subst.
  - apply list_lookup_insert_eq. by eapply lookup_lt_Some.
  - by apply list_lookup_insert_ne.
Qed.

(** Updating one buffer changes what is found for its old and its new block. *)
Lemma find_buf_zset n : bufs_uniq bs -> bufs_uniq (zset bs i b') ->
  find_buf (zset bs i b') n =
    if caches n b' then Some b' else if caches n b then None else find_buf bs n.
Proof.
  intros Hu Hu'. pose proof (proj1 (zget_slots _ _ _ Hi) Hb) as Hs.
  destruct (caches n b') eqn:E'.
  { apply find_buf_Some; [done|]. exists (Z.to_nat i).
    rewrite slots_zset_lookup, decide_True by done. done. }
  destruct (caches n b) eqn:E.
  { apply find_buf_None. intros k c. rewrite slots_zset_lookup. case_decide; [congruence|].
    intros Hk. destruct (caches n c) eqn:Ec; [|done].
    unfold caches in E, Ec. rewrite andb_true_iff, !Z.eqb_eq in E, Ec.
    assert (k = Z.to_nat i) by (eapply Hu; [exact Hk|exact Hs|..]; naive_solver congruence).
    done. }
  destruct (find_buf bs n) as [c|] eqn:F.
  - apply find_buf_Some in F as (k & Hk & Hc); [|done].
    apply find_buf_Some; [done|]. exists k. rewrite slots_zset_lookup.
    rewrite decide_False; [done|]. intros ->. congruence.
  - rewrite find_buf_None in F |- *. intros k c. rewrite slots_zset_lookup.
    case_decide; [congruence|]. apply F.
Qed.

Lemma bufs_uniq_zset_same : b_dev b' = b_dev b -> b_blockno b' = b_blockno b ->
  bufs_uniq bs -> bufs_uniq (zset bs i b').
Proof.
  intros Hd Hn Hu j k c d. pose proof (proj1 (zget_slots _ _ _ Hi) Hb) as Hs.
  rewrite !slots_zset_lookup. do 2 case_decide; intros; simplify_eq; try done.
  - symmetry. eapply Hu; [eassumption|exact Hs|..]; congruence.
  - eapply Hu; [eassumption|exact Hs|..]; congruence.
  - by eapply Hu.
Qed.

Lemma nfree_zset :
  nfree (zset bs i b') =
    nfree bs - (if b_refcnt b =? 0 then 1 else 0) + (if b_refcnt b' =? 0 then 1 else 0).
Proof.
  pose proof (proj1 (zget_slots _ _ _ Hi) Hb) as Hs.
  unfold nfree. rewrite slots_zset by done.
  rewrite insert_take_drop by (by eapply lookup_lt_Some).
  rewrite <- (take_drop_middle _ _ _ Hs) at 3.
  rewrite !list.filter_app, !filter_cons, !length_app.
  destruct (Z.eqb_spec (b_refcnt b) 0), (Z.eqb_spec (b_refcnt b') 0);
    repeat case_decide; try done; simpl; lia.
Qed.

Lemma Forall_slots_zset (P : buf -> Prop) :
  Forall P (slots bs) -> P b' -> Forall P (slots (zset bs i b')).
Proof. intros. rewrite slots_zset by done. by apply Forall_insert. Qed.
End update_one.

(** ** Link fields do not matter to the view *)

Definition core (b : buf) : buf := set_prev 0 (set_next 0 b).

Definition same_cores (bs bs' : list buf) : Prop := core <$> bs = core <$> bs'.

Lemma slots_same_cores bs bs' : same_cores bs bs' -> same_cores (slots bs) (slots bs').
Proof. unfold same_cores, slots. intros H. by rewrite !fmap_take, H. Qed.

Lemma find_core n bs : List.find (caches n) (core <$> bs) = core <$> List.find (caches n) bs.
Proof.
  induction bs as [|b bs IH]; simpl; [done|].
  change (caches n (core b)) with (caches n b). by destruct (caches n b).
Qed.

Lemma find_buf_same_cores bs bs' n :
  same_cores bs bs' -> core <$> find_buf bs n = core <$> find_buf bs' n.
Proof. intros H. apply slots_same_cores in H. unfold find_buf. by rewrite <- !find_core, H. Qed.

Lemma length_filter_core bs :
  length (filter (fun b => b_refcnt b = 0) (core <$> bs)) =
  length (filter (fun b => b_refcnt b = 0) bs).
Proof.
  induction bs as [|b bs IH]; [done|].
  rewrite fmap_cons, !filter_cons. change (b_refcnt (core b)) with (b_refcnt b).
  case_decide; cbn [length]; by rewrite IH.
Qed.

Lemma core_fields b b' : core b = core b' ->
  b_valid b = b_valid b' /\ b_dev b = b_dev b' /\ b_blockno b = b_blockno b' /\
  b_lock b = b_lock b' /\ b_refcnt b = b_refcnt b' /\ b_data b = b_data b'.
Proof. by intros [=]. Qed.

Lemma same_cores_view s s' :
  same_cores (bc_buf s) (bc_buf s') -> bc_disk s = bc_disk s' -> cache_view s = cache_view s'.
Proof.
  intros H Hd. unfold cache_view. rewrite Hd.
  assert (Hf := fun n => find_buf_same_cores _ _ n H).
  f_equal; try (apply functional_extensionality; intros n; specialize (Hf n);
    destruct (find_buf (bc_buf s) n) as [b|], (find_buf (bc_buf s') n) as [b'|];
    simpl in Hf; simplify_eq; try done; by destruct b, b'; simpl in *; simplify_eq).
  unfold nfree. apply slots_same_cores in H.
  by rewrite <- (length_filter_core (slots (bc_buf s))), H, length_filter_core.
Qed.

Lemma same_cores_lookup bs bs' k b' :
  same_cores bs bs' -> slots bs' !! k = Some b' ->
  exists b, slots bs !! k = Some b /\ core b = core b'.
Proof.
  intros H Hk. apply slots_same_cores in H.
  assert ((core <$> slots bs) !! k = Some (core b')) as E by (rewrite H; apply list_lookup_fmap_Some; eauto).
  apply list_lookup_fmap_Some in E as (b & E & Hb). eauto.
Qed.

Lemma same_cores_wf s s' :
  same_cores (bc_buf s) (bc_buf s') -> bc_disk s = bc_disk s' -> bc_pid s = bc_pid s' ->
  (exists l, ring (bc_buf s') l) -> cache_wf s -> cache_wf s'.
Proof.
  intros H Hd Hp Hr [Hlen _ Hb Hu Hdk]. split; [|done| | |by rewrite <- Hd].
  - rewrite <- Hlen. rewrite <- (length_fmap core (bc_buf s)), H. by rewrite length_fmap.
  - apply Forall_lookup. intros k b' Hk.
    destruct (same_cores_lookup _ _ _ _ H Hk) as (b & Hk' & E).
    rewrite Forall_lookup in Hb. specialize (Hb k b Hk'). rewrite <- Hd, <- Hp.
    apply core_fields in E as (E1 & E2 & E3 & E4 & E5 & E6).
    destruct Hb as [A1 A2 A3 A4 A5 A6 A7].
    rewrite E1, E2, ?E3, ?E4, ?E5, ?E6 in *. by constructor.
  - intros i j c d Hi Hj.
    destruct (same_cores_lookup _ _ _ _ H Hi) as (c' & Hi' & Ec).
    destruct (same_cores_lookup _ _ _ _ H Hj) as (d' & Hj' & Ed).
    apply core_fields in Ec as (_ & Ec1 & Ec2 & _), Ed as (_ & Ed1 & Ed2 & _).
    intros. eapply Hu; [exact Hi'|exact Hj'|..]; congruence.
Qed.

(** ** The list surgery *)

Lemma same_cores_zset bs i b b' :
  zget bs i = Some b -> core b' = core b -> same_cores bs (zset bs i b').
Proof.
  intros H E. pose proof (zget_Some _ _ _ H). unfold same_cores, zget, zset in *.
  rewrite (proj2 (Z.leb_le 0 i)) in * by lia.
  rewrite list_fmap_insert. rewrite E. symmetry. apply list_insert_id.
  apply list_lookup_fmap_Some. eauto.
Qed.

Lemma nxt_set_next bs i b v : zget bs i = Some b -> nxt (zset bs i (set_next v b)) = upd (nxt bs) i v.
Proof.
  intros H. pose proof (zget_Some _ _ _ H). apply mem_ext. intros j. unfold nxt, upd.
  destruct (Z.eqb_spec j i) as [->|]; [by rewrite zget_zset_eq|by rewrite zget_zset_ne].
Qed.

Lemma prv_set_prev bs i b v : zget bs i = Some b -> prv (zset bs i (set_prev v b)) = upd (prv bs) i v.
Proof.
  intros H. pose proof (zget_Some _ _ _ H). apply mem_ext. intros j. unfold prv, upd.
  destruct (Z.eqb_spec j i) as [->|]; [by rewrite zget_zset_eq|by rewrite zget_zset_ne].
Qed.

Lemma nxt_same bs i b b' : zget bs i = Some b -> b_next b' = b_next b -> nxt (zset bs i b') = nxt bs.
Proof.
  intros H E. pose proof (zget_Some _ _ _ H). apply mem_ext. intros j. unfold nxt.
  destruct (Z.eq_dec i j) as [->|]; [|by rewrite zget_zset_ne].
  rewrite zget_zset_eq by lia. by rewrite H; simpl; rewrite E.
Qed.

Lemma prv_same bs i b b' : zget bs i = Some b -> b_prev b' = b_prev b -> prv (zset bs i b') = prv bs.
Proof.
  intros H E. pose proof (zget_Some _ _ _ H). apply mem_ext. intros j. unfold prv.
  destruct (Z.eq_dec i j) as [->|]; [|by rewrite zget_zset_ne].
  rewrite zget_zset_eq by lia. by rewrite H; simpl; rewrite E.
Qed.

(** A state reached from [s] by assignments to link fields only. *)
Definition relinked (s s' : bcache) (n p : Z -> Z) : Prop :=
  same_cores (bc_buf s) (bc_buf s') /\ bc_disk s = bc_disk s' /\ bc_pid s = bc_pid s' /\
  length (bc_buf s') = length (bc_buf s) /\ nxt (bc_buf s') = n /\ prv (bc_buf s') = p.

Lemma upd_at_next s s' n p i v :
  relinked s s' n p -> 0 <= i < Z.of_nat (length (bc_buf s)) ->
  exists s'', upd_at i (set_next v) s' = Done tt s'' [] /\ relinked s s'' (upd n i v) p.
Proof.
  intros (Hc & Hd & Hp & Hl & Hn & Hpr) Hi.
  destruct (zget_is_Some (bc_buf s') i ltac:(lia)) as [b Hb].
  eexists. split; [by apply upd_at_run|]. repeat split; simpl; try done.
  - etransitivity; [exact Hc|]. by eapply same_cores_zset.
  - by rewrite length_zset.
  - by rewrite (nxt_set_next _ _ _ _ Hb), Hn.
  - by rewrite (prv_same _ _ _ _ Hb).
Qed.

Lemma upd_at_prev s s' n p i v :
  relinked s s' n p -> 0 <= i < Z.of_nat (length (bc_buf s)) ->
  exists s'', upd_at i (set_prev v) s' = Done tt s'' [] /\ relinked s s'' n (upd p i v).
Proof.
  intros (Hc & Hd & Hp & Hl & Hn & Hpr) Hi.
  destruct (zget_is_Some (bc_buf s') i ltac:(lia)) as [b Hb].
  eexists. split; [by apply upd_at_run|]. repeat split; simpl; try done.
  - etransitivity; [exact Hc|]. by eapply same_cores_zset.
  - by rewrite length_zset.
  - by rewrite (nxt_same _ _ _ _ Hb).
  - by rewrite (prv_set_prev _ _ _ _ Hb), Hpr.
Qed.

Lemma buf_at_links s s' n p i :
  relinked s s' n p -> 0 <= i < Z.of_nat (length (bc_buf s)) ->
  exists b, buf_at i s' = Done b s' [] /\ b_next b = n i /\ b_prev b = p i.
Proof.
  intros (Hc & Hd & Hp & Hl & <- & <-) Hi.
  destruct (zget_is_Some (bc_buf s') i ltac:(lia)) as [b Hb].
  exists b. split; [by apply buf_at_run|]. unfold nxt, prv. by rewrite Hb.
Qed.

Lemma ring_in l i : l ≡ₚ seqZ 0 NBUF -> i ∈ l <-> 0 <= i < NBUF.
Proof. intros ->. rewrite elem_of_seqZ. lia. Qed.

Lemma ring_nodup l : l ≡ₚ seqZ 0 NBUF -> NoDup (HEAD :: l).
Proof.
  intros H. apply list.NoDup_cons. split; [rewrite (ring_in _ _ H); unfold HEAD; lia|].
  rewrite H. apply NoDup_seqZ.
Qed.

Ltac run_links :=
  match goal with
  | R : relinked _ ?s' _ _ |- context [bind (buf_at ?i) _ ?s'] =>
    let b := fresh "b" in let E := fresh "E" in let En := fresh "En" in let Ep := fresh "Ep" in
    destruct (buf_at_links _ _ _ _ i R ltac:(eauto)) as (b & E & En & Ep);
    rewrite (bind_Done _ _ _ _ _ _ E), prepend_nil; rewrite ?En, ?Ep
  | R : relinked _ ?s' _ _ |- context [bind (upd_at ?i (set_next ?v)) _ ?s'] =>
    let s := fresh "s" in let E := fresh "E" in let R' := fresh "R" in
    destruct (upd_at_next _ _ _ _ i v R ltac:(eauto)) as (s & E & R');
    rewrite (bind_Done _ _ _ _ _ _ E), prepend_nil; clear R
  | R : relinked _ ?s' _ _ |- context [bind (upd_at ?i (set_prev ?v)) _ ?s'] =>
    let s := fresh "s" in let E := fresh "E" in let R' := fresh "R" in
    destruct (upd_at_prev _ _ _ _ i v R ltac:(eauto)) as (s & E & R');
    rewrite (bind_Done _ _ _ _ _ _ E), prepend_nil; clear R
  end.

(** Moving a buffer to the front of the list: the links change, the list stays
    a ring over the same buffers with [b] first. *)
Lemma to_front_run s l1 b l2 :
  length (bc_buf s) = Z.to_nat (NBUF + 1) -> ring (bc_buf s) (l1 ++ b :: l2) ->
  exists s', to_front b s = Done tt s' [] /\ ring (bc_buf s') (b :: l1 ++ l2) /\
    same_cores (bc_buf s) (bc_buf s') /\ bc_disk s = bc_disk s' /\ bc_pid s = bc_pid s'.
Proof.
  intros Hlen [Hperm Hch]. pose proof (ring_nodup _ Hperm) as Hnd.
  assert (Hin : forall i, i ∈ HEAD :: l1 ++ b :: l2 -> 0 <= i < Z.of_nat (length (bc_buf s))).
  { intros i. rewrite elem_of_cons, (ring_in _ _ Hperm), Hlen. unfold HEAD, NBUF. lia. }
  set (n := nxt (bc_buf s)) in *. set (p := prv (bc_buf s)) in *.
  pose proof (proj1 (chain_app _ _ _ _ _ _ _) Hch) as [Hc1 Hc2].
  assert (Hnb : n b ∈ HEAD :: l1 ++ b :: l2)
    by (pose proof (chain_next_in _ _ _ _ _ Hc2); set_solver).
  assert (Hpb : p b ∈ HEAD :: l1 ++ b :: l2)
    by (pose proof (chain_prev_in _ _ _ _ _ Hc1); set_solver).
  assert (Hhd : HEAD ∉ l1 ++ b :: l2) by (by eapply NoDup_cons_1_1).
  assert (HbH : b <> HEAD) by (intros ->; apply Hhd, elem_of_app; right; left).
  pose proof (chain_unlink n p HEAD l1 b l2 HEAD Hc1 Hc2 Hnd Hhd) as Hun.
  assert (Hnd2 : NoDup (b :: l1 ++ l2))
    by (rewrite Permutation_middle; by eapply NoDup_cons_1_2).
  pose proof (NoDup_cons_1_1 _ _ Hnd2) as Hbn.
  assert (Hnd' : NoDup (HEAD :: l1 ++ l2)).
  { apply NoDup_cons_2; [set_solver|]. by eapply NoDup_cons_1_2. }
  pose proof (chain_push _ _ HEAD (l1 ++ l2) b Hun HbH Hbn Hnd') as Hpu.
  assert (Hnbb : b <> n b).
  { pose proof (chain_next_in _ _ _ _ _ Hc2) as Hn. intros E. rewrite <- E in Hn. set_solver. }
  assert (R : relinked s s n p) by (repeat split).
  assert (Hrb := Hin b ltac:(set_solver)). assert (HrH := Hin HEAD ltac:(set_solver)).
  assert (Hrn := Hin _ Hnb). assert (Hrp := Hin _ Hpb).
  unfold to_front. run_links. run_links. run_links.
  rewrite (upd_ne _ _ _ b) in * by done.
  run_links. run_links. run_links. run_links. run_links.
  rewrite (upd_ne _ b _ HEAD) in * by done.
  assert (Hh : 0 <= upd n (p b) (n b) HEAD < Z.of_nat (length (bc_buf s))).
  { apply Hin. pose proof (chain_next_in _ _ _ _ _ Hun). set_solver. }
  run_links. cbn beta.
  match goal with R : relinked _ ?s' _ _ |- context [upd_at HEAD (set_next ?v) ?s'] =>
    destruct (upd_at_next _ _ _ _ HEAD v R HrH) as (s6 & Efin & (Q1 & Q2 & Q3 & _ & Q4 & Q5)) end.
  exists s6. split; [done|]. split; [|done].
  split; [rewrite <- Hperm; apply Permutation_middle|]. by rewrite Q4, Q5.
Qed.

(** ** Finding buffers *)

Lemma scan_both s p :
  cache_wf s ->
  exists l1 l2 h, zget (bc_buf s) HEAD = Some h /\ l1 ≡ₚ seqZ 0 NBUF /\ l2 ≡ₚ seqZ 0 NBUF /\
    bscan scan_fuel b_next p (b_next h) s = Done (first_in (bc_buf s) p l1) s [] /\
    bscan scan_fuel b_prev p (b_prev h) s = Done (first_in (bc_buf s) p l2) s [].
Proof.
  intros [Hlen [l [Hperm Hch]] _ _ _].
  destruct (zget_is_Some (bc_buf s) HEAD) as [h Hh]; [rewrite Hlen; unfold HEAD, NBUF; lia|].
  assert (Hmem : forall l', l' ≡ₚ seqZ 0 NBUF ->
      forall i, i ∈ l' -> i <> HEAD /\ is_Some (zget (bc_buf s) i)).
  { intros l' Hp i. rewrite (ring_in _ _ Hp). intros Hi. split; [unfold HEAD; lia|].
    apply zget_is_Some. rewrite Hlen. unfold NBUF in *. lia. }
  assert (Hfuel : forall l', l' ≡ₚ seqZ 0 NBUF -> (length l' < scan_fuel)%nat).
  { intros l' Hp. rewrite Hp. rewrite length_seqZ. unfold scan_fuel, NBUF. lia. }
  assert (Hrev : reverse l ≡ₚ seqZ 0 NBUF) by (by rewrite reverse_Permutation).
  exists l, (reverse l), h. split_and!; [done..| |].
  - pose proof (bscan_run scan_fuel s b_next p HEAD l (Hmem _ Hperm) (Hfuel _ Hperm)
      (chain_path_next _ _ _ _ _ Hch)) as E. by rewrite Hh in E.
  - pose proof (bscan_run scan_fuel s b_prev p HEAD (reverse l) (Hmem _ Hrev) (Hfuel _ Hrev)
      (chain_path_prev _ _ _ _ _ Hch)) as E. by rewrite Hh in E.
Qed.

(** The test of the first loop of [bget] with the one device there is. *)
Lemma scan_cached s n :
  cache_wf s ->
  exists h, zget (bc_buf s) HEAD = Some h /\
    match find_buf (bc_buf s) n with
    | Some b => exists i, 0 <= i < NBUF /\ zget (bc_buf s) i = Some b /\ caches n b = true /\
        bscan scan_fuel b_next (caches n) (b_next h) s = Done (Some i) s []
    | None => bscan scan_fuel b_next (caches n) (b_next h) s = Done None s []
    end.
Proof.
  intros Hwf. destruct (scan_both s (caches n) Hwf) as (l & _ & h & Hh & Hl & _ & E & _).
  exists h. split; [done|]. rewrite E. destruct Hwf as [Hlen _ _ Hu _].
  destruct (first_in (bc_buf s) (caches n) l) as [i|] eqn:F.
  - apply first_in_Some in F as (Hi & b & Hb & Hc). rewrite (ring_in _ _ Hl) in Hi.
    pose proof (proj1 (zget_slots _ _ _ Hi) Hb) as Hs.
    rewrite (proj2 (find_buf_Some _ n b Hu)) by eauto. eauto.
  - replace (find_buf (bc_buf s) n) with (@None buf); [done|]. symmetry.
    apply find_buf_None. intros k b Hk. apply slots_lookup in Hk as [Hk Hb].
    eapply (first_in_None _ _ _ (Z.of_nat k)); [done| |].
    + apply (ring_in _ _ Hl). lia.
    + unfold zget. rewrite (proj2 (Z.leb_le _ _)) by lia. by rewrite Nat2Z.id.
Qed.

Lemma scan_unused s :
  cache_wf s -> 0 < nfree (bc_buf s) ->
  exists h i b, zget (bc_buf s) HEAD = Some h /\ 0 <= i < NBUF /\
    zget (bc_buf s) i = Some b /\ b_refcnt b = 0 /\
    bscan scan_fuel b_prev (fun x => b_refcnt x =? 0) (b_prev h) s = Done (Some i) s [].
Proof.
  intros Hwf Hf. destruct (scan_both s (fun x => b_refcnt x =? 0) Hwf)
    as (_ & l & h & Hh & _ & Hl & _ & E).
  destruct (first_in (bc_buf s) (fun x => b_refcnt x =? 0) l) as [i|] eqn:F.
  - pose proof F as F'. apply first_in_Some in F as (Hi & b & Hb & Hc).
    rewrite (ring_in _ _ Hl) in Hi. apply Z.eqb_eq in Hc. exists h, i, b. by rewrite E.
  - exfalso. unfold nfree in Hf.
    destruct (filter (fun b => b_refcnt b = 0) (slots (bc_buf s))) as [|b bl] eqn:Ef;
      [simpl in Hf; lia|].
    assert (Hin : b ∈ filter (fun b => b_refcnt b = 0) (slots (bc_buf s)))
      by (rewrite Ef; left).
    apply list_elem_of_filter in Hin as [Hr Hin].
    apply list_elem_of_lookup in Hin as [k Hk]. apply slots_lookup in Hk as [Hk Hb].
    assert (Z.eqb (b_refcnt b) 0 = false); [|by rewrite Hr in *].
    eapply (first_in_None _ (fun x => b_refcnt x =? 0) _ (Z.of_nat k)); [exact F| |].
    + apply (ring_in _ _ Hl). lia.
    + unfold zget. rewrite (proj2 (Z.leb_le _ _)) by lia. by rewrite Nat2Z.id.
Qed.

(** ** Changing one buffer *)

Section set_buffer.
Context (s : bcache) (i : Z) (b b' : buf).
Context (Hwf : cache_wf s) (Hi : 0 <= i < NBUF) (Hb : zget (bc_buf s) i = Some b).
Context (Hprev : b_prev b' = b_prev b) (Hnext : b_next b' = b_next b).

Lemma setb_wf disk :
  (forall n, block_ok (disk n)) ->
  bufs_uniq (zset (bc_buf s) i b') ->
  (forall k c, slots (bc_buf s) !! k = Some c -> k <> Z.to_nat i -> buf_ok disk (bc_pid s) c) ->
  buf_ok disk (bc_pid s) b' ->
  cache_wf (Bcache (zset (bc_buf s) i b') disk (bc_pid s)).
Proof.
  intros Hdisk Hu' Hother Hok. destruct Hwf as [Hlen [l [Hperm Hch]] Hbs Hu Hd].
  split; simpl; [by rewrite length_zset| | |done|done].
  - exists l. split; [done|]. by rewrite (nxt_same _ _ _ _ Hb), (prv_same _ _ _ _ Hb).
  - apply Forall_lookup. intros k c. rewrite (slots_zset_lookup _ _ b) by done.
    case_decide; intros; simplify_eq; eauto.
Qed.

Hypothesis Hdev : b_dev b = ROOTDEV.
Hypothesis Hdev' : b_dev b' = b_dev b.
Hypothesis Hblk : b_blockno b' = b_blockno b.

Lemma setb_wf_same : buf_ok (bc_disk s) (bc_pid s) b' -> cache_wf (setb s i b').
Proof.
  intros Hok. pose proof Hwf as [Hlen Hr Hbs Hu Hd]. apply setb_wf; [done| | |done].
  - by eapply bufs_uniq_zset_same.
  - intros k c Hk _. by eapply Forall_lookup_1.
Qed.

Lemma find_buf_own n : find_buf (bc_buf s) n = Some b <-> n = b_blockno b.
Proof.
  pose proof Hwf as [_ _ _ Hu _]. rewrite find_buf_Some by done. unfold caches. split.
  - intros (k & _ & H). rewrite andb_true_iff, !Z.eqb_eq in H. lia.
  - intros ->. exists (Z.to_nat i). split; [by apply zget_slots|].
    by rewrite Hdev, !Z.eqb_refl.
Qed.

Lemma setb_view :
  cache_view (setb s i b') =
    View (fset (v_content (cache_view s)) (b_blockno b) (b_data b')) (bc_disk s)
      (fset (v_refs (cache_view s)) (b_blockno b) (b_refcnt b'))
      (fset (v_held (cache_view s)) (b_blockno b) (negb (sl_locked (b_lock b') =? 0)))
      (nfree (bc_buf s) - (if b_refcnt b =? 0 then 1 else 0) +
         (if b_refcnt b' =? 0 then 1 else 0)).
Proof.
  pose proof Hwf as [_ _ _ Hu _].
  assert (Hu' : bufs_uniq (zset (bc_buf s) i b')) by (by eapply bufs_uniq_zset_same).
  unfold cache_view, setb. simpl.
  assert (Hf : forall n, find_buf (zset (bc_buf s) i b') n =
    if n =? b_blockno b then Some b' else find_buf (bc_buf s) n).
  { intros n. rewrite (find_buf_zset _ _ _ _ Hi Hb) by done. unfold caches.
    rewrite Hdev', Hblk, Hdev, Z.eqb_refl. simpl. rewrite (Z.eqb_sym n).
    by destruct (b_blockno b =? n). }
  f_equal; try (apply functional_extensionality; intros n; rewrite Hf; unfold fset;
    by destruct (n =? b_blockno b)).
  by apply nfree_zset.
Qed.

Lemma setb_handle h n :
  cache_handle s h n -> (h = i -> sl_locked (b_lock b') <> 0 /\ 0 < b_refcnt b') ->
  cache_handle (setb s i b') h n.
Proof.
  intros (Hh & c & Hc & Hca & Hl & Hr) Himp. split; [done|].
  destruct (Z.eq_dec h i) as [->|Hne].
  - assert (c = b) as -> by congruence. exists b'. destruct (Himp eq_refl). split_and!; [|..|done|done].
    + apply zget_setb_eq. by eapply zget_Some.
    + unfold caches in *. by rewrite Hdev', Hblk.
  - exists c. by rewrite zget_setb_ne by done.
Qed.
End set_buffer.

(** ** The operations *)

#[export] Instance bio_cache (pid : Z) : BlockCache bcache := {
  bc_view := cache_view;
  bc_inv := cache_wf;
  bc_handle := cache_handle;
  c_bread := bread ROOTDEV;
  c_bwrite := bwrite;
  c_brelse := brelse;
  c_bpin := bpin;
  c_bunpin := bunpin;
  c_data := bdata;
  c_store := bstore;
  c_blockno h := let* x := buf_at h in ret (b_blockno x);
  c_boot d := match binit (bss d pid) with Done _ s _ => s | _ => bss d pid end;
  c_nbuf := NBUF
}.

Lemma handle_buf s h n :
  cache_wf s -> cache_handle s h n ->
  exists b, 0 <= h < NBUF /\ zget (bc_buf s) h = Some b /\ b_dev b = ROOTDEV /\ b_blockno b = n /\
    sl_locked (b_lock b) <> 0 /\ 0 < b_refcnt b /\ buf_ok (bc_disk s) (bc_pid s) b /\
    find_buf (bc_buf s) n = Some b.
Proof.
  intros Hwf (Hh & b & Hb & Hc & Hl & Hr). exists b.
  unfold caches in Hc. rewrite andb_true_iff, !Z.eqb_eq in Hc. destruct Hc as [Hd Hn].
  split_and!; try (done || lia).
  - destruct Hwf as [_ _ Hbs _ _]. eapply Forall_lookup_1; [exact Hbs|]. by apply zget_slots.
  - by eapply find_buf_own.
Qed.

Lemma found_buf s n b :
  cache_wf s -> find_buf (bc_buf s) n = Some b ->
  buf_ok (bc_disk s) (bc_pid s) b /\ b_dev b = ROOTDEV /\ b_blockno b = n.
Proof.
  intros [_ _ Hbs Hu _] H. apply find_buf_Some in H as (k & Hk & Hc); [|done].
  unfold caches in Hc. rewrite andb_true_iff, !Z.eqb_eq in Hc.
  split; [by eapply Forall_lookup_1|tauto].
Qed.

Lemma bread_hit s n b : cache_wf s -> find_buf (bc_buf s) n = Some b ->
  sl_locked (b_lock b) = 0 -> b_refcnt b < 2 ^ 32 - 1 ->
  exists i, 0 <= i < NBUF /\ zget (bc_buf s) i = Some b /\ bread ROOTDEV n s =
    Done i (setb s i (set_lock (Sleeplock 1 (bc_pid s)) (set_refcnt (b_refcnt b + 1) b))) [].
Proof.
  intros Hwf Hf Hl Hr. destruct (scan_cached s n Hwf) as (h & Hh & E). rewrite Hf in E.
  destruct E as (i & Hi & Hb & Hc & E). exists i. split; [done|]. split; [done|].
  destruct (found_buf _ _ _ Hwf Hf) as (Hok & Hd & _).
  unfold bread, bget. rewrite bind_assoc.
  rewrite (bind_Done _ _ _ _ _ _ (buf_at_run _ _ _ Hh)), prepend_nil, bind_assoc.
  change (fun x => (b_dev x =? ROOTDEV) && (b_blockno x =? n)) with (caches n).
  rewrite (bind_Done _ _ _ _ _ _ E), prepend_nil. cbv beta iota. rewrite bind_assoc.
  rewrite (bind_Done _ _ _ _ _ _ (buf_at_run _ _ _ Hb)), prepend_nil, bind_assoc.
  rewrite (bind_Done _ _ _ _ _ _ (upd_at_run _ _ _ _ Hb)), prepend_nil, bind_assoc.
  assert (Hlen : 0 <= i < Z.of_nat (length (bc_buf s))) by (by eapply zget_Some).
  rewrite (wrap_small 32) by (destruct (bo_ref _ _ _ Hok); lia).
  set (b1 := set_refcnt (b_refcnt b + 1) b).
  assert (H1 : zget (bc_buf (setb s i b1)) i = Some b1) by (by apply zget_setb_eq).
  rewrite (bind_Done _ _ _ _ _ _ (b_acquiresleep_run _ _ _ H1 Hl)), prepend_nil.
  rewrite setb_setb. unfold bind at 1, ret at 1. rewrite prepend_nil.
  set (b2 := set_lock _ b1).
  assert (H2 : zget (bc_buf (setb s i b2)) i = Some b2) by (by apply zget_setb_eq).
  rewrite (bind_Done _ _ _ _ _ _ (buf_at_run _ _ _ H2)), prepend_nil.
  change (b_valid b2) with (b_valid b). rewrite (bo_valid _ _ _ Hok Hd). done.
Qed.

Lemma bread_miss_at s n h i b : cache_wf s -> find_buf (bc_buf s) n = None ->
  zget (bc_buf s) HEAD = Some h -> 0 <= i < NBUF -> zget (bc_buf s) i = Some b -> b_refcnt b = 0 ->
  bscan scan_fuel b_prev (fun x => b_refcnt x =? 0) (b_prev h) s = Done (Some i) s [] ->
  bread ROOTDEV n s =
    Done i (setb s i (Buf 1 ROOTDEV n (Sleeplock 1 (bc_pid s)) 1 (b_prev b) (b_next b)
                        (bc_disk s n))) [].
Proof.
  intros Hwf Hf Hh' Hi Hb Hr E'. destruct (scan_cached s n Hwf) as (h0 & Hh & E). rewrite Hf in E.
  assert (h0 = h) as -> by congruence.
  assert (Hok : buf_ok (bc_disk s) (bc_pid s) b).
  { destruct Hwf as [_ _ Hbs _ _]. eapply Forall_lookup_1; [exact Hbs|]. by apply zget_slots. }
  unfold bread, bget. rewrite bind_assoc.
  rewrite (bind_Done _ _ _ _ _ _ (buf_at_run _ _ _ Hh)), prepend_nil, bind_assoc.
  change (fun x => (b_dev x =? ROOTDEV) && (b_blockno x =? n)) with (caches n).
  rewrite (bind_Done _ _ _ _ _ _ E), prepend_nil. cbv beta iota. rewrite bind_assoc.
  rewrite (bind_Done _ _ _ _ _ _ (buf_at_run _ _ _ Hh)), prepend_nil, bind_assoc.
  rewrite (bind_Done _ _ _ _ _ _ E'), prepend_nil. cbv beta iota. rewrite bind_assoc.
  rewrite (bind_Done _ _ _ _ _ _ (upd_at_run _ _ _ _ Hb)), prepend_nil, bind_assoc.
  assert (Hlen : 0 <= i < Z.of_nat (length (bc_buf s))) by (by eapply zget_Some).
  set (b1 := set_block ROOTDEV n b).
  assert (H1 : zget (bc_buf (setb s i b1)) i = Some b1) by (by apply zget_setb_eq).
  assert (Hl : sl_locked (b_lock b1) = 0) by (by apply (bo_unlocked _ _ _ Hok)).
  rewrite (bind_Done _ _ _ _ _ _ (b_acquiresleep_run _ _ _ H1 Hl)), prepend_nil.
  rewrite setb_setb. unfold bind at 1, ret at 1. rewrite prepend_nil.
  set (b2 := set_lock _ b1).
  assert (H2 : zget (bc_buf (setb s i b2)) i = Some b2) by (by apply zget_setb_eq).
  rewrite (bind_Done _ _ _ _ _ _ (buf_at_run _ _ _ H2)), prepend_nil. cbn [b_valid b2 b1 set_lock set_block Z.eqb].
  rewrite bind_assoc. unfold disk_rw. rewrite bind_assoc.
  rewrite (bind_Done _ _ _ _ _ _ (buf_at_run _ _ _ H2)), prepend_nil.
  unfold bind at 1, gets at 1. unfold bind at 1.
  rewrite (upd_at_run _ _ _ _ H2), setb_setb. cbn [prepend app].
  set (b3 := set_data _ b2).
  assert (H3 : zget (bc_buf (setb s i b3)) i = Some b3) by (by apply zget_setb_eq).
  rewrite (bind_Done _ _ _ _ _ _ (upd_at_run _ _ _ _ H3)), setb_setb. done.
Qed.

Lemma bread_miss s n : cache_wf s -> find_buf (bc_buf s) n = None -> 0 < nfree (bc_buf s) ->
  exists i b, 0 <= i < NBUF /\ zget (bc_buf s) i = Some b /\ b_refcnt b = 0 /\
    bread ROOTDEV n s =
      Done i (setb s i (Buf 1 ROOTDEV n (Sleeplock 1 (bc_pid s)) 1 (b_prev b) (b_next b)
                          (bc_disk s n))) [].
Proof.
  intros Hwf Hf Hfree. destruct (scan_unused s Hwf Hfree) as (h & i & b & Hh & Hi & Hb & Hr & E).
  exists i, b. split_and!; try (done || lia). by apply (bread_miss_at s n h).
Qed.

Lemma view_eta (v : view) :
  View (v_content v) (v_disk v) (v_refs v) (v_held v) (v_free v) = v.
Proof. by destruct v. Qed.

(** Reusing an unreferenced buffer [b] for a block [n] that is not cached. *)
Section recycle.
Context (s : bcache) (i n : Z) (b : buf).
Context (Hwf : cache_wf s) (Hi : 0 <= i < NBUF) (Hb : zget (bc_buf s) i = Some b).
Context (Hf : find_buf (bc_buf s) n = None) (Hr0 : b_refcnt b = 0).

Let b' : buf :=
  Buf 1 ROOTDEV n (Sleeplock 1 (bc_pid s)) 1 (b_prev b) (b_next b) (bc_disk s n).

Lemma recycle_ok : buf_ok (bc_disk s) (bc_pid s) b.
Proof using Hwf Hi Hb.
  destruct Hwf as [_ _ Hbs _ _]. eapply Forall_lookup_1; [exact Hbs|]. by apply zget_slots.
Qed.

Lemma recycle_uniq : bufs_uniq (zset (bc_buf s) i b').
Proof using Hwf Hi Hb Hf.
  assert (Hno : forall k c, slots (bc_buf s) !! k = Some c -> b_dev c = ROOTDEV ->
    b_blockno c <> n).
  { intros k c Hk Hd Hn. pose proof (proj1 (find_buf_None _ _) Hf k c Hk) as Hc.
    unfold caches in Hc. by rewrite Hd, Hn, !Z.eqb_refl in Hc. }
  intros j k c d. rewrite !(slots_zset_lookup _ _ b) by done.
  do 2 case_decide; intros Hj Hk Hd1 Hd2 Hbn; simplify_eq; try done.
  - by destruct (Hno k d).
  - by destruct (Hno j c).
  - destruct Hwf as [_ _ _ Hu _]. by eapply Hu.
Qed.

Lemma recycle_wf : cache_wf (setb s i b').
Proof using Hwf Hi Hb Hf.
  pose proof Hwf as [_ _ Hbs _ Hdk]. apply (setb_wf s i b b'); try done.
  - apply recycle_uniq.
  - intros k c Hk _. by eapply Forall_lookup_1.
  - constructor; simpl; try done; try lia; auto.
Qed.

Lemma recycle_find m :
  find_buf (zset (bc_buf s) i b') m =
    if m =? n then Some b' else if caches m b then None else find_buf (bc_buf s) m.
Proof using Hwf Hi Hb Hf.
  pose proof Hwf as [_ _ _ Hu _].
  rewrite (find_buf_zset _ _ _ _ Hi Hb) by (done || apply recycle_uniq).
  unfold caches at 1. simpl. rewrite (Z.eqb_sym m). by destruct (n =? m).
Qed.

Lemma recycle_victim m : caches m b = true ->
  find_buf (bc_buf s) m = Some b /\ b_data b = bc_disk s m /\ sl_locked (b_lock b) = 0.
Proof using Hwf Hi Hb Hr0.
  intros Hm. pose proof Hwf as [_ _ _ Hu _]. pose proof recycle_ok as Hok.
  split; [apply find_buf_Some; [done|]; exists (Z.to_nat i); split; [by apply zget_slots|done]|].
  unfold caches in Hm. rewrite andb_true_iff, !Z.eqb_eq in Hm. destruct Hm as [Hd <-].
  split; [by apply (bo_clean _ _ _ Hok)|by apply (bo_unlocked _ _ _ Hok)].
Qed.

Lemma recycle_view : cache_view (setb s i b') = view_bread n (cache_view s).
Proof using Hwf Hi Hb Hf Hr0.
  unfold view_bread, cache_view, setb. simpl. rewrite Hf.
  f_equal; [| | |rewrite (nfree_zset _ _ b) by done; rewrite Hr0; simpl; lia];
    apply functional_extensionality; intros m; rewrite recycle_find; unfold fset;
    (destruct (Z.eqb_spec m n) as [->|]; [by rewrite ?Hf|]);
    (destruct (caches m b) eqn:Hm; [|done]);
    destruct (recycle_victim m Hm) as (-> & Hc & Hl); by rewrite ?Hc, ?Hr0, ?Hl.
Qed.

Lemma recycle_handle h m : cache_handle s h m -> cache_handle (setb s i b') h m.
Proof using Hb Hr0.
  intros (Hh & c & Hc & Hca & Hl & Hrc). split; [done|]. exists c.
  rewrite zget_setb_ne; [done|]. intros <-. assert (c = b) by congruence. subst c. lia.
Qed.
End recycle.

(** Taking a reference to and the lock of a cached block. *)
Lemma bread_law_hit s n i b : cache_wf s -> 0 <= i < NBUF -> zget (bc_buf s) i = Some b ->
  find_buf (bc_buf s) n = Some b -> sl_locked (b_lock b) = 0 -> b_refcnt b < 2 ^ 32 - 1 ->
  let s' := setb s i (set_lock (Sleeplock 1 (bc_pid s)) (set_refcnt (b_refcnt b + 1) b)) in
  cache_wf s' /\ cache_view s' = view_bread n (cache_view s) /\ cache_handle s' i n /\
  (forall h' n', cache_handle s h' n' -> cache_handle s' h' n').
Proof.
  intros Hwf Hi Hb Hf Hl Hr. destruct (found_buf _ _ _ Hwf Hf) as (Hok & Hd & Hn).
  destruct (bo_ref _ _ _ Hok) as [Hr0 _]. set (b' := set_lock _ _). split_and!.
  - eapply setb_wf_same; try done. destruct Hok. constructor; simpl; try done; try lia; auto.
  - rewrite (setb_view s i b b') by done. unfold view_bread. simpl. rewrite Hn, Hf. f_equal.
    + apply functional_extensionality. intros m. unfold fset.
      destruct (Z.eqb_spec m n) as [->|]; [by rewrite Hf|done].
    + rewrite (proj2 (Z.eqb_neq (b_refcnt b + 1) 0)) by lia. lia.
  - split; [done|]. exists b'. split_and!; [apply zget_setb_eq; by eapply zget_Some| |done|].
    + unfold caches. simpl. by rewrite Hd, Hn, !Z.eqb_refl.
    + simpl. lia.
  - intros h' n' Hh'. eapply setb_handle; try done. intros _. simpl. lia.
Qed.

Lemma bread_law s n : cache_wf s -> v_held (cache_view s) n = false ->
  v_refs (cache_view s) n < 2 ^ 32 - 1 ->
  0 < v_refs (cache_view s) n \/ 0 < v_free (cache_view s) ->
  wp (bread ROOTDEV n) s (fun h s' t => cache_wf s' /\ disk_writes t = [] /\
    cache_view s' = view_bread n (cache_view s) /\ cache_handle s' h n /\
    (forall h' n', cache_handle s h' n' -> cache_handle s' h' n')).
Proof.
  intros Hwf Hheld Hr Hav. apply wp_done. simpl in Hheld, Hr, Hav.
  destruct (find_buf (bc_buf s) n) as [b|] eqn:Hf.
  - apply negb_false_iff, Z.eqb_eq in Hheld.
    destruct (bread_hit s n b Hwf Hf Hheld Hr) as (i & Hi & Hb & E).
    rewrite E. do 3 eexists. split; [done|].
    destruct (bread_law_hit s n i b Hwf Hi Hb Hf Hheld Hr) as (A & B & C & D).
    by split_and!.
  - assert (Hfree : 0 < nfree (bc_buf s)) by lia.
    destruct (bread_miss s n Hwf Hf Hfree) as (i & b & Hi & Hb & Hr0 & E).
    rewrite E. do 3 eexists. split; [done|]. split_and!.
    + by eapply recycle_wf.
    + done.
    + by apply recycle_view.
    + split; [done|]. eexists. split_and!; [apply zget_setb_eq; by eapply zget_Some| |done|done].
      unfold caches. simpl. by rewrite Z.eqb_refl.
    + intros h' n'. by apply recycle_handle.
Qed.

Lemma holding_run s h n : cache_wf s -> cache_handle s h n -> b_holdingsleep h s = Done true s [].
Proof.
  intros Hwf Hh. destruct (handle_buf _ _ _ Hwf Hh) as (b & Hi & Hb & _ & _ & Hl & _ & Hok & _).
  rewrite (b_holdingsleep_run _ _ _ Hb), (setb_same _ _ _ Hb).
  rewrite (bo_owner _ _ _ Hok Hl), Z.eqb_refl, (proj2 (Z.eqb_neq _ 0)) by done. done.
Qed.

Lemma bwrite_law s h n : cache_wf s -> cache_handle s h n ->
  wp (bwrite h) s (fun _ s' t => cache_wf s' /\
    disk_writes t = [(n, v_content (cache_view s) n)] /\
    cache_view s' = view_bwrite n (cache_view s) /\
    (forall h' n', cache_handle s h' n' -> cache_handle s' h' n')).
Proof.
  intros Hwf Hh. destruct (handle_buf _ _ _ Hwf Hh) as (b & Hi & Hb & Hd & Hn & Hl & Hr & Hok & Hf).
  apply wp_done. unfold bwrite. rewrite (bind_Done _ _ _ _ _ _ (holding_run _ _ _ Hwf Hh)), prepend_nil.
  cbn [negb]. unfold disk_rw.
  rewrite (bind_Done _ _ _ _ _ _ (buf_at_run _ _ _ Hb)), prepend_nil.
  do 3 eexists. split; [done|]. simpl. rewrite Hn, Hf. split_and!; [|done| |done].
  - rewrite <- (zset_id _ _ _ Hb). pose proof Hwf as [_ _ Hbs Hu Hdk].
    pose proof (proj1 (zget_slots _ _ _ Hi) Hb) as Hs. apply (setb_wf s h b b); try done.
    + intros m. case_match; [apply (bo_data _ _ _ Hok)|done].
    + by rewrite zset_id.
    + intros k c Hk Hne. pose proof (Forall_lookup_1 _ _ _ _ Hbs Hk) as [A1 A2 A3 A4 A5 A6 A7].
      constructor; try done. intros Hdc Hrc. rewrite A7 by done.
      case_match eqn:E; [|done]. apply Z.eqb_eq in E.
      destruct Hne. eapply Hu; [exact Hk|exact Hs|..]; congruence.
    + destruct Hok as [A1 A2 A3 A4 A5 A6 A7]. constructor; try done; intros; lia.
  - unfold view_bwrite, cache_view. simpl. rewrite Hf. f_equal.
    + apply functional_extensionality. intros m.
      destruct (find_buf (bc_buf s) m) eqn:Hm; [done|].
      destruct (Z.eqb_spec m n) as [->|]; [congruence|done].
Qed.

Lemma same_cores_zget bs bs' i b :
  same_cores bs bs' -> zget bs i = Some b -> exists b', zget bs' i = Some b' /\ core b = core b'.
Proof.
  unfold same_cores, zget. intros H. destruct (0 <=? i); [|done]. intros E.
  assert ((core <$> bs') !! Z.to_nat i = Some (core b)) as E'
    by (rewrite <- H; apply list_lookup_fmap_Some; eauto).
  apply list_lookup_fmap_Some in E' as (b' & E' & Hb). eauto.
Qed.

Lemma same_cores_handle s s' h n :
  same_cores (bc_buf s) (bc_buf s') -> cache_handle s h n -> cache_handle s' h n.
Proof.
  intros H (Hi & b & Hb & Hc & Hl & Hr). split; [done|].
  destruct (same_cores_zget _ _ _ _ H Hb) as (b' & Hb' & E). exists b'.
  apply core_fields in E as (_ & E1 & E2 & E3 & E4 & _). unfold caches in *.
  rewrite <- E1, <- E2, <- E3, <- E4. done.
Qed.

(** The state of [brelse] before it touches the list. *)
Lemma released_wf s h n b : cache_wf s -> cache_handle s h n -> zget (bc_buf s) h = Some b ->
  (b_refcnt b = 1 -> b_data b = bc_disk s n) ->
  let s' := setb s h (set_refcnt (b_refcnt b - 1) (set_lock (Sleeplock 0 0) b)) in
  cache_wf s' /\ cache_view s' = view_brelse n (cache_view s) /\
  (forall h' n', n' <> n -> cache_handle s h' n' -> cache_handle s' h' n').
Proof.
  intros Hwf Hh Hb Hc. destruct (handle_buf _ _ _ Hwf Hh)
    as (b0 & Hi & Hb0 & Hd & Hn & Hl & Hr & Hok & Hf). assert (b0 = b) as -> by congruence.
  set (b' := set_refcnt _ _). split_and!.
  - eapply setb_wf_same; try done. destruct Hok as [A1 A2 A3 A4 A5 A6 A7].
    constructor; simpl; try done; try lia. intros _ E. rewrite Hn. apply Hc. lia.
  - rewrite (setb_view s h b b') by done. unfold view_brelse. simpl. rewrite Hn, Hf. f_equal.
    + apply functional_extensionality. intros m. unfold fset.
      destruct (Z.eqb_spec m n) as [->|]; [by rewrite Hf|done].
    + rewrite (proj2 (Z.eqb_neq (b_refcnt b) 0)) by lia.
      destruct (Z.eqb_spec (b_refcnt b - 1) 0), (Z.eqb_spec (b_refcnt b) 1); lia.
  - intros h' n' Hne Hh'. eapply setb_handle; try done. intros ->.
    destruct Hh' as (_ & c & Hc' & Hca & _). assert (c = b) as -> by congruence.
    unfold caches in Hca. rewrite andb_true_iff, !Z.eqb_eq in Hca. lia.
Qed.

Lemma brelse_run s h n b : cache_wf s -> cache_handle s h n -> zget (bc_buf s) h = Some b ->
  let s1 := setb s h (set_refcnt (b_refcnt b - 1) (set_lock (Sleeplock 0 0) b)) in
  brelse h s = prepend [EvWakeup (ChSleeplock "buffer" h)]
    (if b_refcnt b - 1 =? 0 then to_front h s1 else Done tt s1 []).
Proof.
  intros Hwf Hh Hb0 s1. destruct (handle_buf _ _ _ Hwf Hh)
    as (b' & Hi & Hb & Hd & Hn & Hl & Hr & Hok & Hf). assert (b' = b) as -> by congruence.
  assert (Hlen : 0 <= h < Z.of_nat (length (bc_buf s))) by (by eapply zget_Some).
  unfold brelse.
  rewrite (bind_Done _ _ _ _ _ _ (holding_run _ _ _ Hwf Hh)), prepend_nil. cbn [negb].
  rewrite (bind_Done _ _ _ _ _ _ (b_releasesleep_run _ _ _ Hb)).
  set (b1 := set_lock _ b) in *.
  assert (H1 : zget (bc_buf (setb s h b1)) h = Some b1) by (by apply zget_setb_eq).
  rewrite (bind_Done _ _ _ _ _ _ (buf_at_run _ _ _ H1)), prepend_nil.
  rewrite (bind_Done _ _ _ _ _ _ (upd_at_run _ _ _ _ H1)), prepend_nil, setb_setb.
  change (b_refcnt b1) with (b_refcnt b).
  rewrite (wrap_small 32) by (destruct (bo_ref _ _ _ Hok); lia). fold s1.
  set (b2 := set_refcnt (b_refcnt b - 1) b1).
  assert (H2 : zget (bc_buf s1) h = Some b2) by (by apply zget_setb_eq).
  rewrite (bind_Done _ _ _ _ _ _ (buf_at_run _ _ _ H2)), prepend_nil.
  change (b_refcnt b2) with (b_refcnt b - 1). by destruct (_ =? 0).
Qed.

Lemma brelse_law s h n : cache_wf s -> cache_handle s h n ->
  (v_refs (cache_view s) n = 1 -> v_content (cache_view s) n = v_disk (cache_view s) n) ->
  wp (brelse h) s (fun _ s' t => cache_wf s' /\ disk_writes t = [] /\
    cache_view s' = view_brelse n (cache_view s) /\
    (forall h' n', n' <> n -> cache_handle s h' n' -> cache_handle s' h' n')).
Proof.
  intros Hwf Hh Hc. destruct (handle_buf _ _ _ Hwf Hh)
    as (b & Hi & Hb & Hd & Hn & Hl & Hr & Hok & Hf). simpl in Hc. rewrite Hf in Hc.
  destruct (released_wf s h n b Hwf Hh Hb Hc) as (Hwf' & Hv & Hhs).
  apply wp_done. rewrite (brelse_run s h n b) by done. set (s1 := setb s h _) in *.
  destruct (b_refcnt b - 1 =? 0).
  - pose proof Hwf' as [Hlen' [l [Hp Hch]] _ _ _].
    assert (Hin : h ∈ l) by (by apply (ring_in _ _ Hp)).
    apply list_elem_of_split in Hin as (l1 & l2 & ->).
    destruct (to_front_run s1 l1 h l2 Hlen' (conj Hp Hch)) as (s2 & E & Hring & Hsc & Hdk & Hpid).
    rewrite E. do 3 eexists. split; [done|]. split_and!; [|done| |].
    + eapply same_cores_wf; eauto.
    + by rewrite <- Hv, (same_cores_view s1 s2).
    + intros h' n' Hne Hh'. eapply same_cores_handle; eauto.
  - do 3 eexists. split; [done|]. by split_and!.
Qed.

Lemma pin_state s h n b r : cache_wf s -> cache_handle s h n -> zget (bc_buf s) h = Some b ->
  0 < r < 2 ^ 32 ->
  let s' := setb s h (set_refcnt r b) in
  cache_wf s' /\
  cache_view s' = View (v_content (cache_view s)) (v_disk (cache_view s))
    (fset (v_refs (cache_view s)) n r) (v_held (cache_view s)) (v_free (cache_view s)) /\
  (forall h' n', cache_handle s h' n' -> cache_handle s' h' n').
Proof.
  intros Hwf Hh Hb Hr. destruct (handle_buf _ _ _ Hwf Hh)
    as (b0 & Hi & Hb0 & Hd & Hn & Hl & Hr0 & Hok & Hf). assert (b0 = b) as -> by congruence.
  split_and!.
  - eapply setb_wf_same; try done. destruct Hok as [A1 A2 A3 A4 A5 A6 A7].
    constructor; simpl; try done; lia.
  - rewrite (setb_view s h b) by done. simpl. rewrite Hn. f_equal.
    + apply functional_extensionality. intros m. unfold fset.
      destruct (Z.eqb_spec m n) as [->|]; [by rewrite Hf|done].
    + apply functional_extensionality. intros m. unfold fset.
      destruct (Z.eqb_spec m n) as [->|]; [by rewrite Hf|done].
    + rewrite !(proj2 (Z.eqb_neq _ 0)) by lia. lia.
  - intros h' n' Hh'. eapply setb_handle; try done. intros _. simpl. split; [done|lia].
Qed.

Lemma store_state s h n b d : cache_wf s -> cache_handle s h n -> zget (bc_buf s) h = Some b ->
  block_ok d ->
  let s' := setb s h (set_data d b) in
  cache_wf s' /\ cache_view s' = view_bstore n d (cache_view s) /\
  (forall h' n', cache_handle s h' n' -> cache_handle s' h' n').
Proof.
  intros Hwf Hh Hb Hd'. destruct (handle_buf _ _ _ Hwf Hh)
    as (b0 & Hi & Hb0 & Hd & Hn & Hl & Hr0 & Hok & Hf). assert (b0 = b) as -> by congruence.
  split_and!.
  - eapply setb_wf_same; try done. destruct Hok as [A1 A2 A3 A4 A5 A6 A7].
    constructor; simpl; try done; lia.
  - rewrite (setb_view s h b) by done. unfold view_bstore. simpl. rewrite Hn. f_equal.
    + apply functional_extensionality. intros m. unfold fset.
      destruct (Z.eqb_spec m n) as [->|]; [by rewrite Hf|done].
    + apply functional_extensionality. intros m. unfold fset.
      destruct (Z.eqb_spec m n) as [->|]; [by rewrite Hf|done].
    + lia.
  - intros h' n' Hh'. eapply setb_handle; try done.
Qed.

(** ** Initialisation *)

(** The cache after [binit]: buffer [29] is the most recently used. *)
Definition booted (z : block) (d : Z -> block) (pid : Z) : bcache :=
  Bcache
    (map (fun i => Buf 0 0 0 (Sleeplock 0 0) 0 (i + 1) (if i =? 0 then HEAD else i - 1) z)
       (seqZ 0 NBUF) ++ [Buf 0 0 0 (Sleeplock 0 0) 0 0 (NBUF - 1) z]) d pid.

Lemma binit_run d pid : binit (bss d pid) = Done tt (booted zero_block d pid) [].
Proof. unfold bss, buf0. generalize zero_block. intros z. vm_compute. reflexivity. Qed.

Lemma booted_slots z d pid k b :
  slots (bc_buf (booted z d pid)) !! k = Some b ->
  b_dev b = 0 /\ b_refcnt b = 0 /\ b_valid b = 0 /\ b_lock b = Sleeplock 0 0 /\ b_data b = z.
Proof.
  unfold slots, booted. cbn [bc_buf]. rewrite take_app_length' by
    (rewrite length_map, length_seqZ; done).
  intros H. apply list_lookup_fmap_Some in H as (i & -> & _). done.
Qed.

Lemma booted_ring z d pid : ring (bc_buf (booted z d pid)) (reverse (seqZ 0 NBUF)).
Proof.
  split; [by rewrite reverse_Permutation|]. vm_compute. repeat split.
Qed.

Lemma boot_law d pid : (forall n, block_ok (d n)) ->
  cache_wf (booted zero_block d pid) /\
  cache_view (booted zero_block d pid) = view_boot d NBUF.
Proof.
  intros Hd. split.
  - split; [done|eexists; apply booted_ring| | |done].
    + apply Forall_lookup. intros k b Hk. apply booted_slots in Hk as (H1 & H2 & H3 & H4 & H5).
      constructor; rewrite ?H1, ?H2, ?H3, ?H4, ?H5; try done; auto using block_ok_zero.
    + intros i j b c Hb _ Hdv. apply booted_slots in Hb as (H1 & _). rewrite H1 in Hdv. done.
  - assert (Hf : forall n, find_buf (bc_buf (booted zero_block d pid)) n = None).
    { intros n. apply find_buf_None. intros k b Hk. apply booted_slots in Hk as (H1 & _).
      unfold caches. by rewrite H1. }
    unfold cache_view, view_boot.
    f_equal; try (apply functional_extensionality; intros n; by rewrite Hf).
Qed.

#[export] Instance bio_laws (pid : Z) : @BlockCacheLaws bcache (bio_cache pid).
Proof.
  split; cbn [bc_view bc_inv bc_handle c_bread c_bwrite c_brelse c_bpin c_bunpin c_data c_store
    c_blockno c_boot c_nbuf bio_cache].
  - intros s n Hwf. simpl. destruct (find_buf (bc_buf s) n) as [b|] eqn:E; [|apply Hwf].
    destruct (found_buf _ _ _ Hwf E) as ([] & _). done.
  - intros s n Hwf. apply Hwf.
  - intros s n Hwf. simpl. destruct (find_buf (bc_buf s) n) as [b|] eqn:E; [|lia].
    destruct (found_buf _ _ _ Hwf E) as ([] & _). done.
  - intros s Hwf. simpl. unfold nfree. split; [lia|].
    pose proof (length_filter (fun b => b_refcnt b = 0) (slots (bc_buf s))) as H.
    unfold slots in *. rewrite length_take in H. unfold NBUF in *. lia.
  - intros s n Hwf. simpl. destruct (find_buf (bc_buf s) n) as [b|] eqn:E; [|done].
    destruct (found_buf _ _ _ Hwf E) as ([] & Hd & <-). auto.
  - intros s h n Hwf Hh. destruct (handle_buf _ _ _ Hwf Hh) as (b & _ & _ & _ & _ & Hl & Hr & _ & Hf).
    simpl. rewrite Hf. by rewrite (proj2 (Z.eqb_neq _ 0)).
  - apply bread_law.
  - apply bwrite_law.
  - apply brelse_law.
  - intros s h n Hwf Hh Hr. destruct (handle_buf _ _ _ Hwf Hh)
      as (b & Hi & Hb & _ & _ & _ & Hr0 & Hok & Hf). simpl in Hr. rewrite Hf in Hr.
    apply wp_done. unfold bpin. rewrite (bind_Done _ _ _ _ _ _ (buf_at_run _ _ _ Hb)), prepend_nil.
    rewrite (upd_at_run _ _ _ _ Hb), (wrap_small 32) by lia.
    destruct (pin_state s h n b (b_refcnt b + 1) Hwf Hh Hb ltac:(lia)) as (A & B & C).
    do 3 eexists. split; [done|]. split_and!; [done..| |done].
    rewrite B. unfold view_bpin. simpl. by rewrite Hf.
  - intros s h n Hwf Hh Hr. destruct (handle_buf _ _ _ Hwf Hh)
      as (b & Hi & Hb & _ & _ & _ & Hr0 & Hok & Hf). simpl in Hr. rewrite Hf in Hr.
    pose proof (bo_ref _ _ _ Hok).
    apply wp_done. unfold bunpin. rewrite (bind_Done _ _ _ _ _ _ (buf_at_run _ _ _ Hb)), prepend_nil.
    rewrite (upd_at_run _ _ _ _ Hb), (wrap_small 32) by lia.
    destruct (pin_state s h n b (b_refcnt b - 1) Hwf Hh Hb ltac:(lia)) as (A & B & C).
    do 3 eexists. split; [done|]. split_and!; [done..| |done].
    rewrite B. unfold view_bunpin. simpl. by rewrite Hf.
  - intros s h n Hwf Hh. destruct (handle_buf _ _ _ Hwf Hh) as (b & _ & Hb & _ & _ & _ & _ & _ & Hf).
    unfold bdata. rewrite (bind_Done _ _ _ _ _ _ (buf_at_run _ _ _ Hb)). simpl. by rewrite Hf.
  - intros s h n Hwf Hh. destruct (handle_buf _ _ _ Hwf Hh) as (b & _ & Hb & _ & <- & _).
    by rewrite (bind_Done _ _ _ _ _ _ (buf_at_run _ _ _ Hb)).
  - intros s h n d Hwf Hh Hd. destruct (handle_buf _ _ _ Hwf Hh) as (b & _ & Hb & _).
    apply wp_done. unfold bstore. rewrite (upd_at_run _ _ _ _ Hb).
    destruct (store_state s h n b d Hwf Hh Hb Hd) as (A & B & C).
    do 3 eexists. split; [done|]. by split_and!.
  - intros d Hd. rewrite binit_run. by apply boot_law.
Qed.
