(* ===== verification/BioProps.v ===== *)
(** * The buffer cache: what its functions promise

    The statements about kernel/bio.c: [bread] returns the one locked buffer of
    a block with its current contents, buffers are recycled least recently used
    first, and the outcomes of the error branches. *)

From Stdlib Require Import ZArith Lia FunctionalExtensionality.
From stdpp Require Import base list sets strings numbers.
From S2P Require Import Prelude Memory Sleeplock Blocks BlockCache Ring Bio BioProofs.

(** A scan from the tail of the list. *)
Lemma scan_prev s l h p :
  cache_wf s -> ring (bc_buf s) l -> zget (bc_buf s) HEAD = Some h ->
  bscan scan_fuel b_prev p (b_prev h) s = Done (first_in (bc_buf s) p (reverse l)) s [].
Proof.
  intros Hwf [Hperm Hch] Hh. pose proof (wf_len _ Hwf) as Hlen.
  assert (Hrev : reverse l ≡ₚ seqZ 0 NBUF) by (by rewrite reverse_Permutation).
  pose proof (bscan_run scan_fuel s b_prev p HEAD (reverse l)) as E.
  rewrite Hh in E. apply E.
  - intros i. rewrite (ring_in _ _ Hrev). intros Hi. split; [unfold HEAD; lia|].
    apply zget_is_Some. rewrite Hlen. unfold NBUF in *. lia.
  - rewrite Hrev, length_seqZ. unfold scan_fuel, NBUF. lia.
  - by eapply chain_path_prev.
Qed.

Definition refs_of (s : bcache) (i : Z) : Z := default 0 (b_refcnt <$> zget (bc_buf s) i).

(** The first unreferenced buffer from the tail. *)
Lemma first_in_reverse bs p l i :
  (forall j, j ∈ l -> is_Some (zget bs j)) ->
  first_in bs p (reverse l) = Some i ->
  exists l1 l2, l = l1 ++ i :: l2 /\
    forall j b, j ∈ l2 -> zget bs j = Some b -> p b = false.
Proof.
  revert i. induction l as [|x l IH] using rev_ind; intros i Hz; [done|].
  rewrite reverse_app. simpl. unfold first_in. simpl.
  destruct (Hz x) as [b Hb]; [set_solver|]. rewrite Hb. simpl. destruct (p b) eqn:Ep.
  - intros [= <-]. exists l, []. split; [done|]. intros ? ? []%elem_of_nil.
  - intros E. destruct (IH i) as (l1 & l2 & -> & Hl2); [set_solver|exact E|].
    exists l1, (l2 ++ [x]). rewrite <- app_assoc. split; [done|].
    intros j c [Hj| ->%list_elem_of_singleton]%elem_of_app Hc; [by eapply Hl2|congruence].
Qed.

(** C19: [bread] of a block that the caller does not hold, when it is cached or a
    buffer is free, returns a buffer that caches this block, is valid, holds its
    current contents (the cached data, or what the disk has) and is locked by the
    caller; it writes nothing to the disk, and to every client the cache changes
    only in the reference and the lock of this block. *)
Theorem bread_correct s n :
  cache_wf s -> v_held (cache_view s) n = false -> v_refs (cache_view s) n < 2 ^ 32 - 1 ->
  0 < v_refs (cache_view s) n \/ 0 < v_free (cache_view s) ->
  wp (bread ROOTDEV n) s (fun h s' t => cache_wf s' /\ disk_writes t = [] /\
    (exists b, zget (bc_buf s') h = Some b /\ b_dev b = ROOTDEV /\ b_blockno b = n /\
       b_valid b = 1 /\ b_data b = v_content (cache_view s) n /\
       b_lock b = Sleeplock 1 (bc_pid s)) /\
    cache_view s' = view_bread n (cache_view s)).
Proof.
  intros Hwf Hh Hr Hf.
  destruct (find_buf (bc_buf s) n) as [b|] eqn:E; simpl in Hh, Hr, Hf; rewrite E in Hh, Hr, Hf.
  - apply negb_false_iff, Z.eqb_eq in Hh.
    destruct (bread_hit s n b) as (i & Hi & Hb & E'); [done..|].
    pose proof (bread_law s n Hwf) as L. simpl in L. rewrite E, Hh in L.
    specialize (L eq_refl Hr Hf). unfold wp in *. rewrite E' in *.
    destruct L as (A & B & C & _). split_and!; [done..| |done].
    destruct (found_buf _ _ _ Hwf E) as (Hok & Hd & Hn).
    eexists. split; [apply zget_setb_eq; by eapply zget_Some|]. simpl. rewrite E.
    split_and!; try done. by apply (bo_valid _ _ _ Hok).
  - destruct Hf as [?|Hf]; [lia|]. destruct (bread_miss s n) as (i & b & Hi & Hb & _ & E'); [done..|].
    pose proof (bread_law s n Hwf) as L. simpl in L. rewrite E in L.
    specialize (L eq_refl Hr (or_intror Hf)). unfold wp in *. rewrite E' in *.
    destruct L as (A & B & C & _). split_and!; [done..| |done].
    eexists. split; [apply zget_setb_eq; by eapply zget_Some|]. simpl. by rewrite E.
Qed.

(** Buffers are recycled least recently used first: with the list in the
    order [l], a [bread] of a block that is not cached takes the unreferenced
    buffer nearest to the tail, reads the block from the disk into it, and leaves
    the list as it was. *)
Theorem bread_recycles_lru s l n :
  cache_wf s -> ring (bc_buf s) l -> find_buf (bc_buf s) n = None -> 0 < nfree (bc_buf s) ->
  exists l1 h l2 s', l = l1 ++ h :: l2 /\ bread ROOTDEV n s = Done h s' [] /\
    refs_of s h = 0 /\ (forall j, j ∈ l2 -> refs_of s j <> 0) /\
    refs_of s' h = 1 /\ b_data <$> zget (bc_buf s') h = Some (bc_disk s n) /\
    ring (bc_buf s') l.
Proof.
  intros Hwf Hring Hf Hfree.
  destruct (scan_unused s Hwf Hfree) as (hd & i & b & Hh & Hi & Hb & Hr & E).
  pose proof E as E'. rewrite (scan_prev s l hd) in E' by done. injection E' as E'.
  apply first_in_reverse in E' as (l1 & l2 & -> & Hl2); cycle 1.
  { intros j Hj. destruct Hring as [Hp _]. apply (ring_in _ _ Hp) in Hj.
    apply zget_is_Some. rewrite (wf_len _ Hwf). unfold NBUF in *. lia. }
  exists l1, i, l2. eexists. split; [done|].
  split; [by apply (bread_miss_at s n hd i b)|]. unfold refs_of. rewrite Hb. split; [done|].
  assert (Hlen := zget_Some _ _ _ Hb). split_and!.
  - intros j Hj. destruct (zget (bc_buf s) j) as [c|] eqn:Ec.
    + apply Z.eqb_neq. by apply (Hl2 j).
    + destruct Hring as [Hp _]. apply zget_None in Ec. rewrite (wf_len _ Hwf) in Ec.
      assert (0 <= j < NBUF) by (apply (ring_in _ _ Hp); set_solver). unfold NBUF in *. lia.
  - rewrite zget_setb_eq by done. done.
  - rewrite zget_setb_eq by done. done.
  - destruct Hring as [Hp Hch]. split; [done|]. simpl.
    by rewrite (nxt_same _ _ b), (prv_same _ _ b).
Qed.

(** [brelse] by the holder unlocks the buffer, drops one reference and wakes
    the waiters; when that was the last reference the buffer moves to the front
    of the list (most recently used) and the order of the others is kept,
    otherwise the list does not change. *)
Theorem brelse_moves_to_front s l1 h l2 n :
  cache_wf s -> ring (bc_buf s) (l1 ++ h :: l2) -> cache_handle s h n ->
  (refs_of s h = 1 -> v_content (cache_view s) n = bc_disk s n) ->
  exists s', brelse h s = Done tt s' [EvWakeup (ChSleeplock "buffer" h)] /\
    cache_wf s' /\ refs_of s' h = refs_of s h - 1 /\ v_held (cache_view s') n = false /\
    ring (bc_buf s') (if refs_of s h =? 1 then h :: l1 ++ l2 else l1 ++ h :: l2).
Proof.
  intros Hwf Hring Hh Hc. destruct (handle_buf _ _ _ Hwf Hh)
    as (b & Hi & Hb & Hd & Hn & Hl & Hr & Hok & Hf). assert (Hlen := zget_Some _ _ _ Hb).
  unfold refs_of in *. rewrite Hb in *. simpl in *. rewrite Hf in Hc.
  pose proof (brelse_law s h n Hwf Hh) as L. simpl in L. rewrite Hf in L. specialize (L Hc).
  rewrite (brelse_run s h n b) in * by done. unfold wp in L. rewrite (brelse_run s h n b) in L by done.
  set (s1 := setb s h _) in *.
  assert (H1 : zget (bc_buf s1) h = Some (set_refcnt (b_refcnt b - 1) (set_lock (Sleeplock 0 0) b)))
    by (by apply zget_setb_eq).
  assert (Hr1 : ring (bc_buf s1) (l1 ++ h :: l2)).
  { destruct Hring as [Hp Hch]. split; [done|]. simpl. by rewrite (nxt_same _ _ b), (prv_same _ _ b). }
  replace (b_refcnt b =? 1) with (b_refcnt b - 1 =? 0) by (repeat case_bool; lia).
  destruct (b_refcnt b - 1 =? 0).
  - destruct (to_front_run s1 l1 h l2) as (s2 & E & Hring2 & Hsc & _ & _);
      [simpl; rewrite length_zset; apply Hwf|done|].
    rewrite E in *. exists s2. destruct L as (A & _ & B & _). split_and!; try done.
    + destruct (same_cores_zget _ _ _ _ Hsc H1) as (b' & -> & Eb).
      apply core_fields in Eb. simpl in Eb. simpl. destruct Eb as (_ & _ & _ & _ & -> & _). done.
    + change (v_held (cache_view s2) n = false). rewrite B. apply fset_eq.
  - exists s1. destruct L as (A & _ & B & _). split_and!; try done; [by rewrite H1|].
    change (v_held (cache_view s1) n = false). rewrite B. apply fset_eq.
Qed.

(** The branches of the cache that do not return: [bread] panics when the
    block is not cached and every buffer is referenced, and sleeps on the buffer's
    lock, its reference already counted, when the block's buffer is locked;
    [bwrite] and [brelse] panic when the caller does not hold the buffer. *)
Theorem bio_failures s n h b :
  cache_wf s ->
  (find_buf (bc_buf s) n = None -> nfree (bc_buf s) = 0 ->
     bread ROOTDEV n s = Panic "bget: no buffers") /\
  (find_buf (bc_buf s) n = Some b -> sl_locked (b_lock b) <> 0 -> b_refcnt b < 2 ^ 32 - 1 ->
     exists i, zget (bc_buf s) i = Some b /\ bread ROOTDEV n s =
       Sleep (ChSleeplock "buffer" i) (setb s i (set_refcnt (b_refcnt b + 1) b)) []) /\
  (zget (bc_buf s) h = Some b -> sl_locked (b_lock b) = 0 \/ sl_pid (b_lock b) <> bc_pid s ->
     bwrite h s = Panic "bwrite" /\ brelse h s = Panic "brelse").
Proof.
  intros Hwf. split_and!.
  - intros Hf Hn. destruct (scan_cached s n Hwf) as (hd & Hh & E). rewrite Hf in E.
    destruct (scan_both s (fun x => b_refcnt x =? 0) Hwf) as (_ & l & hd' & Hh' & _ & Hl & _ & E').
    assert (hd' = hd) as -> by congruence.
    assert (first_in (bc_buf s) (fun x => b_refcnt x =? 0) l = None) as Hno.
    { destruct (first_in _ _ l) as [i|] eqn:F; [|done].
      apply first_in_Some in F as (Hi & c & Hc & Hr). apply (ring_in _ _ Hl) in Hi.
      apply (zget_slots _ _ _ Hi) in Hc. apply list_elem_of_lookup_2 in Hc.
      assert (c ∈ filter (fun b => b_refcnt b = 0) (slots (bc_buf s))) as Hin
        by (apply list_elem_of_filter; split; [by apply Z.eqb_eq|done]).
      unfold nfree in Hn. destruct (filter _ _); [by apply elem_of_nil in Hin|simpl in Hn; lia]. }
    rewrite Hno in E'. unfold bread, bget. rewrite bind_assoc.
    rewrite (bind_Done _ _ _ _ _ _ (buf_at_run _ _ _ Hh)), prepend_nil, bind_assoc.
    change (fun x => (b_dev x =? ROOTDEV) && (b_blockno x =? n)) with (caches n).
    rewrite (bind_Done _ _ _ _ _ _ E), prepend_nil, bind_assoc.
    rewrite (bind_Done _ _ _ _ _ _ (buf_at_run _ _ _ Hh)), prepend_nil, bind_assoc.
    by rewrite (bind_Done _ _ _ _ _ _ E').
  - intros Hf Hl Hr. destruct (scan_cached s n Hwf) as (hd & Hh & E). rewrite Hf in E.
    destruct E as (i & Hi & Hb & Hc & E). exists i. split; [done|].
    destruct (found_buf _ _ _ Hwf Hf) as (Hok & _ & _). assert (Hlen := zget_Some _ _ _ Hb).
    unfold bread, bget. rewrite bind_assoc.
    rewrite (bind_Done _ _ _ _ _ _ (buf_at_run _ _ _ Hh)), prepend_nil, bind_assoc.
    change (fun x => (b_dev x =? ROOTDEV) && (b_blockno x =? n)) with (caches n).
    rewrite (bind_Done _ _ _ _ _ _ E), prepend_nil, bind_assoc.
    rewrite (bind_Done _ _ _ _ _ _ (buf_at_run _ _ _ Hb)), prepend_nil, bind_assoc.
    rewrite (bind_Done _ _ _ _ _ _ (upd_at_run _ _ _ _ Hb)), prepend_nil, bind_assoc.
    rewrite (wrap_small 32) by (destruct (bo_ref _ _ _ Hok); lia).
    set (b1 := set_refcnt _ b).
    assert (H1 : zget (bc_buf (setb s i b1)) i = Some b1) by (by apply zget_setb_eq).
    unfold bind at 1, b_acquiresleep.
    rewrite (bind_Done _ _ _ _ _ _ (buf_at_run _ _ _ H1)), prepend_nil.
    unfold bind, gets, lift. simpl lget. rewrite acquiresleep_busy by done.
    change (Sleep (ChSleeplock "buffer" i) (setb (setb s i b1) i (set_lock (b_lock b) b1)) [] =
      Sleep (A := Z) (ChSleeplock "buffer" i) (setb s i b1) []).
    rewrite setb_setb. by destruct b.
  - intros Hb Hno. unfold bwrite, brelse.
    rewrite !(bind_Done _ _ _ _ _ _ (b_holdingsleep_run _ _ _ Hb)).
    assert (negb (sl_locked (b_lock b) =? 0) && (sl_pid (b_lock b) =? bc_pid s) = false) as ->;
      [|done]. repeat case_bool; try done; lia.
Qed.

(** ** The functions at work on a cache just after [binit] *)

Definition fresh : bcache := booted zero_block (fun _ => zero_block) 1.

Lemma fresh_wf : cache_wf fresh /\ cache_view fresh = view_boot (fun _ => zero_block) NBUF.
Proof. apply boot_law. intros. apply block_ok_zero. Qed.

Lemma bread_correct_witness :
  wp (bread ROOTDEV 50) fresh (fun h s' _ => cache_wf s' /\
    exists b, zget (bc_buf s') h = Some b /\ b_data b = zero_block).
Proof.
  destruct fresh_wf as [Hwf Hv].
  eapply wp_mono; [apply (bread_correct fresh 50 Hwf); rewrite Hv; (done || by right)|].
  intros h s' t (A & _ & (b & Hb & _ & _ & _ & E & _) & _). split; [done|]. exists b.
  split; [done|]. rewrite E, Hv. done.
Defined.

Lemma bread_recycles_lru_witness :
  exists s', bread ROOTDEV 50 fresh = Done 0 s' [] /\ refs_of s' 0 = 1.
Proof.
  destruct fresh_wf as [Hwf _].
  destruct (bread_recycles_lru fresh (reverse (seqZ 0 NBUF)) 50 Hwf) as
    (l1 & h & l2 & s' & El & E & Hr & Hl2 & Hr' & _); [apply booted_ring|done|done|].
  assert (h = 0) as ->; [|eauto]. assert (E0 : exists s0, bread ROOTDEV 50 fresh = Done 0 s0 [])
    by (vm_compute; eauto). destruct E0 as [s0 E0]. congruence.
Defined.

Definition held50 : bcache := match bread ROOTDEV 50 fresh with Done _ s _ => s | _ => fresh end.

Lemma held50_wf : cache_wf held50 /\ cache_handle held50 0 50 /\
  cache_view held50 = view_bread 50 (view_boot (fun _ => zero_block) NBUF).
Proof.
  destruct fresh_wf as [Hwf Hv]. pose proof (bread_law fresh 50 Hwf) as L. rewrite Hv in L.
  specialize (L eq_refl eq_refl (or_intror eq_refl)). apply wp_done in L as (h & s & t & E & A & _ & B & C & _).
  assert (h = 0) as ->.
  { assert (E0 : exists s0, bread ROOTDEV 50 fresh = Done 0 s0 []) by (vm_compute; eauto).
    destruct E0 as [s0 E0]. congruence. }
  unfold held50. rewrite E. done.
Qed.

Lemma held50_ring : ring (bc_buf held50) (reverse (seqZ 1 29) ++ [0]).
Proof. split; [|by vm_compute; repeat split]. change (reverse (seqZ 0 NBUF) ≡ₚ seqZ 0 NBUF). apply reverse_Permutation. Qed.

Lemma brelse_moves_to_front_witness :
  exists s', brelse 0 held50 = Done tt s' [EvWakeup (ChSleeplock "buffer" 0)] /\
    ring (bc_buf s') (0 :: reverse (seqZ 1 29) ++ []).
Proof.
  destruct held50_wf as (Hwf & Hh & Hv).
  destruct (brelse_moves_to_front held50 (reverse (seqZ 1 29)) 0 [] 50 Hwf held50_ring Hh)
    as (s' & E & _ & _ & _ & R); [rewrite Hv; done|]. exists s'. split; [done|].
  by replace (refs_of held50 0 =? 1) with true in R by (by vm_compute).
Defined.

Lemma bio_failures_witness : brelse 3 fresh = Panic "brelse".
Proof.
  destruct fresh_wf as [Hwf _]. destruct (zget_is_Some (bc_buf fresh) 3) as [b Hb]; [vm_compute; done|].
  apply (bio_failures fresh 50 3 b Hwf); [done|]. left.
  assert (E : b_lock <$> zget (bc_buf fresh) 3 = Some (Sleeplock 0 0)) by (by vm_compute).
  rewrite Hb in E. by injection E as ->.
Defined.
