(* ===== verification/Log.v ===== *)
(** * kernel/log.c: the write-ahead log

    Transactions over the buffer cache: [log_write] records the blocks an
    operation changed and pins them, [commit] copies them to the on-disk log,
    makes the transaction durable by writing the log header, and installs the
    blocks at their home locations; [recover_from_log] replays a committed
    transaction after a crash.  The cache is any implementation of
    [BlockCache]. *)

From Stdlib Require Import ZArith Lia.
From stdpp Require Import base list strings numbers.
From S2P Require Import Prelude Blocks BlockCache.

Definition MAXOPBLOCKS : Z := 10.
Definition LOGSIZE : Z := MAXOPBLOCKS * 3.

(** [struct logheader]: a count and an array of block numbers. *)
Record logheader := Logheader { lh_n : Z; lh_block : list Z }.

Record log := Log {
  lg_start : Z;
  lg_size : Z;
  lg_outstanding : Z;
  lg_committing : Z;
  lg_lh : logheader
}.

Record logstate (S : Type) := Logstate { ls_log : log; ls_cache : S }.
Arguments Logstate {S} _ _.
Arguments ls_log {S} _.
Arguments ls_cache {S} _.

Definition set_lh (h : logheader) (l : log) : log :=
  Log (lg_start l) (lg_size l) (lg_outstanding l) (lg_committing l) h.
Definition set_outstanding (o : Z) (l : log) : log :=
  Log (lg_start l) (lg_size l) o (lg_committing l) (lg_lh l).
Definition set_committing (c : Z) (l : log) : log :=
  Log (lg_start l) (lg_size l) (lg_outstanding l) c (lg_lh l).

(** [log] as the loader leaves it. *)
Definition log_bss : log := Log 0 0 0 0 (Logheader 0 (replicate (Z.to_nat LOGSIZE) 0)).

(** Fields of the header block: [n] at offset 0, [block[i]] at [4 + 4 * i]. *)
Definition hdr_n (d : block) : Z := i32 (get32 d 0).
Definition hdr_block (d : block) (i : Z) : Z := i32 (get32 d (4 + 4 * i)).

Section code.
Context {S : Type} `{BlockCache S}.

Definition log_lens : lens (logstate S) log :=
  Lens ls_log (fun l s => Logstate l (ls_cache s)).
Definition cache_lens : lens (logstate S) S :=
  Lens ls_cache (fun c s => Logstate (ls_log s) c).

Definition on_cache {A} (m : M S A) : M (logstate S) A := lift cache_lens m.
Definition the_log : M (logstate S) log := gets ls_log.
Definition upd_log (f : log -> log) : M (logstate S) unit :=
  modify (fun s => Logstate (f (ls_log s)) (ls_cache s)).

(** Reading and assigning [log.lh.block[i]]. *)
Definition lh_get (i : Z) : M (logstate S) Z :=
  let* l := the_log in of_option "log.lh.block" (zget (lh_block (lg_lh l)) i).
Definition lh_set (i b : Z) : M (logstate S) unit :=
  let* l := the_log in
  match zget (lh_block (lg_lh l)) i with
  | None => undef "log.lh.block"
  | Some _ =>
    upd_log (fun l => set_lh (Logheader (lh_n (lg_lh l)) (zset (lh_block (lg_lh l)) i b)) l)
  end.

Definition install_trans (recovering : bool) : M (logstate S) unit :=
  let* l := the_log in
  for_loop (Z.to_nat (lh_n (lg_lh l))) 0 (fun tail =>
    let* lbuf := on_cache (c_bread (u32 (lg_start l + tail + 1))) in
    let* b := lh_get tail in
    let* dbuf := on_cache (c_bread (u32 b)) in
    let* d := on_cache (c_data lbuf) in
    on_cache (c_store dbuf d) ;;;
    on_cache (c_bwrite dbuf) ;;;
    (if recovering then ret tt else on_cache (c_bunpin dbuf)) ;;;
    on_cache (c_brelse lbuf) ;;;
    on_cache (c_brelse dbuf)).

Definition read_head : M (logstate S) unit :=
  let* l := the_log in
  let* buf := on_cache (c_bread (u32 (lg_start l))) in
  let* d := on_cache (c_data buf) in
  upd_log (fun l => set_lh (Logheader (hdr_n d) (lh_block (lg_lh l))) l) ;;;
  for_loop (Z.to_nat (hdr_n d)) 0 (fun i => lh_set i (hdr_block d i)) ;;;
  on_cache (c_brelse buf).

Definition write_head : M (logstate S) unit :=
  let* l := the_log in
  let* buf := on_cache (c_bread (u32 (lg_start l))) in
  let* d := on_cache (c_data buf) in
  on_cache (c_store buf (set32 d 0 (lh_n (lg_lh l)))) ;;;
  for_loop (Z.to_nat (lh_n (lg_lh l))) 0 (fun i =>
    let* b := lh_get i in
    let* d := on_cache (c_data buf) in
    on_cache (c_store buf (set32 d (4 + 4 * i) b))) ;;;
  on_cache (c_bwrite buf) ;;;
  on_cache (c_brelse buf).

Definition recover_from_log : M (logstate S) unit :=
  read_head ;;;
  install_trans true ;;;
  upd_log (fun l => set_lh (Logheader 0 (lh_block (lg_lh l))) l) ;;;
  write_head.

(** [logstart] and [nlog] are the fields of the superblock the code uses. *)
Definition initlog (logstart nlog : Z) : M (logstate S) unit :=
  if BSIZE <=? 4 + 4 * LOGSIZE then panic "initlog: too big logheader"
  else
    upd_log (fun l => Log logstart nlog (lg_outstanding l) (lg_committing l) (lg_lh l)) ;;;
    recover_from_log.

(** One pass of the loop of [begin_op]; when it sleeps, the test is made again
    after the wakeup. *)
Definition begin_op : M (logstate S) unit :=
  let* l := the_log in
  if negb (lg_committing l =? 0) then sleep_on ChLog
  else if LOGSIZE <? lh_n (lg_lh l) + (lg_outstanding l + 1) * MAXOPBLOCKS then sleep_on ChLog
  else upd_log (set_outstanding (lg_outstanding l + 1)).

Definition write_log : M (logstate S) unit :=
  let* l := the_log in
  for_loop (Z.to_nat (lh_n (lg_lh l))) 0 (fun tail =>
    let* to := on_cache (c_bread (u32 (lg_start l + tail + 1))) in
    let* b := lh_get tail in
    let* from := on_cache (c_bread (u32 b)) in
    let* d := on_cache (c_data from) in
    on_cache (c_store to d) ;;;
    on_cache (c_bwrite to) ;;;
    on_cache (c_brelse from) ;;;
    on_cache (c_brelse to)).

Definition commit : M (logstate S) unit :=
  let* l := the_log in
  if 0 <? lh_n (lg_lh l) then
    write_log ;;;
    write_head ;;;
    install_trans false ;;;
    upd_log (fun l => set_lh (Logheader 0 (lh_block (lg_lh l))) l) ;;;
    write_head
  else ret tt.

Definition end_op : M (logstate S) unit :=
  let* l := the_log in
  let outstanding := lg_outstanding l - 1 in
  upd_log (set_outstanding outstanding) ;;;
  (if negb (lg_committing l =? 0) then panic "log.committing" else ret tt) ;;;
  (if outstanding =? 0 then upd_log (set_committing 1) else wakeup_ev ChLog) ;;;
  (if outstanding =? 0 then
     commit ;;;
     upd_log (set_committing 0) ;;;
     wakeup_ev ChLog
   else ret tt).

(** The absorption loop: the first [i < n] with [block[i] == blockno], or [n]. *)
Fixpoint find_slot (fuel : nat) (i blockno : Z) (h : logheader) : Z :=
  match fuel with
  | O => i
  | Datatypes.S fuel' =>
    if (i <? lh_n h) && negb (u32 (default 0 (zget (lh_block h) i)) =? blockno)
    then find_slot fuel' (i + 1) blockno h else i
  end.

Definition log_write (b : Z) : M (logstate S) unit :=
  let* l := the_log in
  if (LOGSIZE <=? lh_n (lg_lh l)) || (lg_size l - 1 <=? lh_n (lg_lh l))
  then panic "too big a transaction"
  else if lg_outstanding l <? 1 then panic "log_write outside of trans"
  else
    let* blockno := on_cache (c_blockno b) in
    let i := find_slot (Z.to_nat LOGSIZE) 0 blockno (lg_lh l) in
    lh_set i (i32 blockno) ;;;
    (if i =? lh_n (lg_lh l) then
       on_cache (c_bpin b) ;;;
       upd_log (fun l => set_lh (Logheader (lh_n (lg_lh l) + 1) (lh_block (lg_lh l))) l)
     else ret tt).

End code.
