(* ===== verification/LogProofs.v ===== *)
(** * The log: what each function does, and crash safety

    The first part describes the functions of kernel/log.c by their effect on
    the view of the cache and by the exact sequence of disk writes they make;
    the second part studies the disks a crash can leave. *)

From Stdlib Require Import ZArith Lia FunctionalExtensionality.
From stdpp Require Import base list sets strings numbers.
From S2P Require Import Prelude Blocks BlockCache Log.

(** ** Views *)

Lemma view_ext (v w : view) :
  (forall n, v_content v n = v_content w n) -> (forall n, v_disk v n = v_disk w n) ->
  (forall n, v_refs v n = v_refs w n) -> (forall n, v_held v n = v_held w n) ->
  v_free v = v_free w -> v = w.
Proof.
  destruct v, w. simpl. intros H1 H2 H3 H4 ->.
  f_equal; by apply functional_extensionality.
Qed.

(** The view after writing [d] to block [n] in the cache and on the disk. *)
Definition view_put (n : Z) (d : block) (v : view) : view :=
  View (fset (v_content v) n d) (fset (v_disk v) n d) (v_refs v) (v_held v) (v_free v).

(** The same, and a reference to [n] dropped. *)
Definition view_put_unpin (n : Z) (d : block) (v : view) : view :=
  View (fset (v_content v) n d) (fset (v_disk v) n d)
    (fset (v_refs v) n (v_refs v n - 1)) (v_held v)
    (v_free v + if v_refs v n =? 1 then 1 else 0).

Definition view_puts (ws : list (Z * block)) (v : view) : view :=
  foldl (fun v w => view_put w.1 w.2 v) v ws.

Definition view_puts_unpin (ws : list (Z * block)) (v : view) : view :=
  foldl (fun v w => view_put_unpin w.1 w.2 v) v ws.

Ltac view_eq :=
  apply view_ext; [intros ?m..|]; simpl; unfold fset; repeat case_bool; subst;
  try congruence; try lia; try done.

Lemma view_puts_app ws ws' v : view_puts (ws ++ ws') v = view_puts ws' (view_puts ws v).
Proof. apply foldl_app. Qed.

Lemma view_puts_unpin_app ws ws' v :
  view_puts_unpin (ws ++ ws') v = view_puts_unpin ws' (view_puts_unpin ws v).
Proof. apply foldl_app. Qed.

Lemma view_puts_cons n d ws v : view_puts ((n, d) :: ws) v = view_puts ws (view_put n d v).
Proof. done. Qed.

Lemma view_puts_unpin_cons n d ws v :
  view_puts_unpin ((n, d) :: ws) v = view_puts_unpin ws (view_put_unpin n d v).
Proof. done. Qed.

Lemma view_puts_proj ws v :
  v_content (view_puts ws v) = apply_writes ws (v_content v) /\
  v_disk (view_puts ws v) = apply_writes ws (v_disk v) /\
  v_refs (view_puts ws v) = v_refs v /\ v_held (view_puts ws v) = v_held v /\
  v_free (view_puts ws v) = v_free v.
Proof.
  revert v. induction ws as [|[n d] ws IH]; intros v; [done|].
  rewrite view_puts_cons, !apply_writes_cons.
  destruct (IH (view_put n d v)) as (A & B & C & D & E). by rewrite A, B, C, D, E.
Qed.

Lemma view_puts_unpin_proj ws v :
  v_content (view_puts_unpin ws v) = apply_writes ws (v_content v) /\
  v_disk (view_puts_unpin ws v) = apply_writes ws (v_disk v) /\
  v_held (view_puts_unpin ws v) = v_held v /\ v_free v <= v_free (view_puts_unpin ws v).
Proof.
  revert v. induction ws as [|[n d] ws IH]; intros v; [done|].
  rewrite view_puts_unpin_cons, !apply_writes_cons.
  destruct (IH (view_put_unpin n d v)) as (A & B & C & D). rewrite A, B, C. split_and!; try done.
  simpl in D. revert D. case_bool; lia.
Qed.

(** Every block written loses a reference, and the buffers of those that had one
    only become free. *)
Lemma view_puts_unpin_refs ws v :
  NoDup ws.*1 -> (forall n, n ∈ ws.*1 -> v_refs v n = 1) ->
  (forall n, v_refs (view_puts_unpin ws v) n = if bool_decide (n ∈ ws.*1) then 0 else v_refs v n) /\
  v_free (view_puts_unpin ws v) = v_free v + Z.of_nat (length ws).
Proof.
  revert v. induction ws as [|[n d] ws IH]; intros v Hd H1; [split; [done|simpl; lia]|].
  rewrite view_puts_unpin_cons. simpl in Hd.
  apply list.NoDup_cons in Hd as [Hn Hd].
  destruct (IH (view_put_unpin n d v)) as [A B]; [done| |].
  { intros m Hm. simpl. rewrite fset_ne by (by intros ->). apply H1. simpl. set_solver. }
  assert (E : v_refs v n = 1) by (apply H1; simpl; set_solver).
  rewrite B. split; [|simpl; rewrite E; simpl; lia].
  intros m. rewrite A. simpl. rewrite E. unfold fset.
  destruct (Z.eqb_spec m n) as [->|Hne].
  - rewrite bool_decide_false by done. rewrite bool_decide_true; [done|set_solver].
  - destruct (decide (m ∈ ws.*1)) as [Hm|Hm].
    + rewrite !bool_decide_true; [done|set_solver..].
    + rewrite !bool_decide_false; [done|set_solver..].
Qed.

(** ** The header block *)

Fixpoint put_blocks (d : block) (i : Z) (bl : list Z) : block :=
  match bl with
  | [] => d
  | b :: bl' => put_blocks (set32 d (4 + 4 * i) b) (i + 1) bl'
  end.

(** What [write_head] leaves in a header block [d] for the logged blocks [bl]. *)
Definition hdr_image (d : block) (bl : list Z) : block :=
  put_blocks (set32 d 0 (Z.of_nat (length bl))) 0 bl.

(** The block numbers a header block records. *)
Definition hdr_blocks (d : block) : list Z :=
  (fun i => hdr_block d (Z.of_nat i)) <$> seq 0 (Z.to_nat (hdr_n d)).

Lemma put_blocks_snoc d i bl b :
  put_blocks d i (bl ++ [b]) = set32 (put_blocks d i bl) (4 + 4 * (i + Z.of_nat (length bl))) b.
Proof.
  revert d i. induction bl as [|a bl IH]; intros d i.
  - simpl. by rewrite Z.add_0_r.
  - cbn [put_blocks app length]. rewrite IH. f_equal. lia.
Qed.

Lemma block_ok_put_blocks d i bl : block_ok d -> block_ok (put_blocks d i bl).
Proof. revert d i. induction bl as [|b bl IH]; simpl; auto with kernel. Qed.

Lemma block_ok_hdr_image d bl : block_ok d -> block_ok (hdr_image d bl).
Proof. intros. apply block_ok_put_blocks. auto with kernel. Qed.

#[export] Hint Resolve block_ok_put_blocks block_ok_hdr_image : kernel.

Lemma get32_put_blocks d i bl off :
  0 <= i -> off + 4 <= 4 + 4 * i -> get32 (put_blocks d i bl) off = get32 d off.
Proof.
  revert d i. induction bl as [|b bl IH]; intros d i Hi Ho; simpl; [done|].
  rewrite IH by lia. apply get_le_set_le_ne. lia.
Qed.

Lemma put_blocks_get d i bl k b :
  block_ok d -> 0 <= i -> i + Z.of_nat (length bl) <= LOGSIZE ->
  bl !! k = Some b -> 0 <= b < 2 ^ 32 ->
  get32 (put_blocks d i bl) (4 + 4 * (i + Z.of_nat k)) = b.
Proof.
  revert d i k. induction bl as [|a bl IH]; intros d i k Hd Hi Hl Hk Hb; [done|].
  simpl in Hl. destruct k as [|k]; simpl in *.
  - injection Hk as ->. rewrite Z.add_0_r, get32_put_blocks by lia.
    apply get32_set32_eq; [done| |done]. unfold BSIZE, LOGSIZE, MAXOPBLOCKS in *. lia.
  - replace (i + Z.of_nat (Datatypes.S k)) with (i + 1 + Z.of_nat k) by lia.
    apply IH; auto with kernel; lia.
Qed.

Lemma hdr_n_image d bl :
  block_ok d -> Z.of_nat (length bl) <= LOGSIZE -> hdr_n (hdr_image d bl) = Z.of_nat (length bl).
Proof.
  unfold LOGSIZE, MAXOPBLOCKS. intros Hd Hl. unfold hdr_n, hdr_image.
  rewrite get32_put_blocks, get32_set32_eq by (done || unfold BSIZE; lia).
  apply swrap_small; lia.
Qed.

Lemma hdr_block_image d bl k b :
  block_ok d -> Z.of_nat (length bl) <= LOGSIZE -> bl !! k = Some b -> 0 <= b < 2 ^ 31 ->
  hdr_block (hdr_image d bl) (Z.of_nat k) = b.
Proof.
  intros Hd Hl Hk Hb. unfold hdr_block, hdr_image.
  rewrite <- (Z.add_0_l (Z.of_nat k)), (put_blocks_get _ _ _ _ b) by (auto with kernel; lia).
  apply swrap_small; lia.
Qed.

(** The header round trip: what [write_head] writes [read_head] reads back. *)
Lemma hdr_blocks_image d bl :
  block_ok d -> Z.of_nat (length bl) <= LOGSIZE -> Forall (fun b => 0 <= b < 2 ^ 31) bl ->
  hdr_blocks (hdr_image d bl) = bl.
Proof.
  intros Hd Hl Hb. unfold hdr_blocks. rewrite hdr_n_image, Nat2Z.id by done.
  apply list_eq. intros k.
  destruct (bl !! k) as [b|] eqn:E.
  - rewrite list_lookup_fmap, lookup_seq_lt by (by eapply lookup_lt_Some). simpl. f_equal.
    apply hdr_block_image; auto. by eapply Forall_lookup_1 in Hb.
  - apply lookup_ge_None. rewrite length_fmap, length_seq. by apply lookup_ge_None.
Qed.

(** ** The log region and the running transaction *)

Definition in_log (l : log) (b : Z) : Prop := lg_start l <= b < lg_start l + lg_size l.

(** The blocks of the running transaction. *)
Definition logged (l : log) : list Z := take (Z.to_nat (lh_n (lg_lh l))) (lh_block (lg_lh l)).

(** The writes of [write_log] and of [install_trans]. *)
Definition log_writes (start : Z) (bl : list Z) (c : Z -> block) : list (Z * block) :=
  imap (fun i b => (start + Z.of_nat i + 1, c b)) bl.
Definition home_writes (start : Z) (bl : list Z) (c : Z -> block) : list (Z * block) :=
  imap (fun i b => (b, c (start + Z.of_nat i + 1))) bl.

Record log_ok (l : log) : Prop := {
  lo_len : Z.of_nat (length (lh_block (lg_lh l))) = LOGSIZE;
  lo_n : 0 <= lh_n (lg_lh l) <= LOGSIZE;
  lo_size : lh_n (lg_lh l) < lg_size l;
  lo_start : 0 <= lg_start l /\ lg_start l + lg_size l <= 2 ^ 31;
  lo_nodup : NoDup (logged l);
  lo_blocks b : b ∈ logged l -> 0 <= b < 2 ^ 31 /\ ~ in_log l b
}.

(** The cache when a transaction commits: the logged blocks are pinned once, the
    blocks of the log are not in use and a buffer is free. *)
Record commit_ready (l : log) (v : view) : Prop := {
  cr_held b : b ∈ logged l \/ in_log l b -> v_held v b = false;
  cr_log b : in_log l b -> v_refs v b = 0;
  cr_refs b : b ∈ logged l -> v_refs v b = 1;
  cr_free : 0 < v_free v
}.

Lemma length_logged l : log_ok l -> Z.of_nat (length (logged l)) = lh_n (lg_lh l).
Proof.
  intros H. pose proof (lo_len _ H). pose proof (lo_n _ H).
  unfold logged. rewrite length_take. lia.
Qed.

Lemma logged_zget l i : log_ok l -> 0 <= i < lh_n (lg_lh l) ->
  exists b, zget (lh_block (lg_lh l)) i = Some b /\ logged l !! Z.to_nat i = Some b.
Proof.
  intros H Hi. pose proof (lo_len _ H). pose proof (lo_n _ H).
  destruct (zget_is_Some (lh_block (lg_lh l)) i) as [b E]; [lia|].
  exists b. split; [done|]. unfold logged. rewrite lookup_take_lt by lia.
  unfold zget in E. by rewrite (proj2 (Z.leb_le 0 i)) in E by lia.
Qed.

Lemma take_imap_S {A B} (f : nat -> A -> B) (l : list A) i x :
  l !! i = Some x -> take (Datatypes.S i) (imap f l) = take i (imap f l) ++ [f i x].
Proof. intros H. apply take_S_r. by rewrite list_lookup_imap, H. Qed.

Lemma take_incl {A} k (l : list A) x : x ∈ take k l -> x ∈ l.
Proof. intros H. rewrite <- (take_drop k l). apply elem_of_app. by left. Qed.

Lemma log_writes_fst start bl c n :
  n ∈ (log_writes start bl c).*1 -> start < n <= start + Z.of_nat (length bl).
Proof.
  unfold log_writes. intros H. apply list_elem_of_fmap in H as ([m d] & -> & H).
  apply elem_of_lookup_imap in H as (i & b & [= -> ->] & Hb).
  apply lookup_lt_Some in Hb. simpl. lia.
Qed.

Lemma home_writes_fst start bl c : (home_writes start bl c).*1 = bl.
Proof.
  unfold home_writes. rewrite fmap_imap. apply list_eq. intros i.
  rewrite list_lookup_imap. by destruct (bl !! i).
Qed.

(** The view after [install_trans]. *)
Definition view_install (recovering : bool) (ws : list (Z * block)) (v : view) : view :=
  if recovering then view_puts ws v else view_puts_unpin ws v.

(** The cache when [install_trans] runs. *)
Record install_ready (recovering : bool) (l : log) (v : view) : Prop := {
  ir_held b : b ∈ logged l \/ in_log l b -> v_held v b = false;
  ir_log b : in_log l b -> v_refs v b = 0;
  ir_refs b : b ∈ logged l -> v_refs v b = if recovering then 0 else 1;
  ir_free : (if recovering then 1 else 0) < v_free v
}.

Lemma view_install_snoc recovering ws n d v :
  view_install recovering (ws ++ [(n, d)]) v =
  (if recovering then view_put else view_put_unpin) n d (view_install recovering ws v).
Proof. destruct recovering; [apply view_puts_app|apply view_puts_unpin_app]. Qed.

(** Writing some of the logged blocks leaves the others ready to be written. *)
Lemma view_install_ready recovering l ws v :
  log_ok l -> install_ready recovering l v -> NoDup ws.*1 -> (forall b, b ∈ ws.*1 -> b ∈ logged l) ->
  let v' := view_install recovering ws v in
  v_content v' = apply_writes ws (v_content v) /\ v_disk v' = apply_writes ws (v_disk v) /\
  v_held v' = v_held v /\ v_free v <= v_free v' /\
  (forall b, in_log l b -> v_refs v' b = 0) /\
  (forall b, b ∈ logged l -> b ∉ ws.*1 -> v_refs v' b = if recovering then 0 else 1).
Proof.
  intros Hl Hr Hnd Hin v'. subst v'. unfold view_install. destruct recovering.
  - destruct (view_puts_proj ws v) as (-> & -> & -> & -> & ->).
    split_and!; try done; intros b; [apply Hr|intros ? _; by apply (ir_refs _ _ _ Hr)].
  - destruct (view_puts_unpin_proj ws v) as (-> & -> & -> & Hf).
    destruct (view_puts_unpin_refs ws v) as [Hrefs _]; [done|intros; by apply (ir_refs _ _ _ Hr); auto|].
    split_and!; try done; intros b; rewrite Hrefs.
    + intros Hb. case_bool_decide; [done|by apply Hr].
    + intros Hb Hb'. rewrite bool_decide_false by done. by apply (ir_refs _ _ _ Hr).
Qed.

Section proofs.
Context {S : Type} `{HL : BlockCacheLaws S}.

Lemma wp_on_cache {A} (m : M S A) l c (Q : A -> logstate S -> list event -> Prop) :
  wp m c (fun a c' t => Q a (Logstate l c') t) -> wp (on_cache m) (Logstate l c) Q.
Proof. intros Hm. by apply wp_lift. Qed.

Lemma wp_the_log l c (Q : log -> logstate S -> list event -> Prop) :
  Q l (Logstate l c) [] -> wp the_log (Logstate l c) Q.
Proof. done. Qed.

Lemma wp_upd_log f l c (Q : unit -> logstate S -> list event -> Prop) :
  Q tt (Logstate (f l) c) [] -> wp (upd_log f) (Logstate l c) Q.
Proof. done. Qed.

Lemma wp_lh_get i b l c (Q : Z -> logstate S -> list event -> Prop) :
  zget (lh_block (lg_lh l)) i = Some b -> Q b (Logstate l c) [] ->
  wp (lh_get i) (Logstate l c) Q.
Proof. intros E HQ. unfold lh_get. apply wp_bind, wp_the_log. by rewrite E. Qed.

Lemma wp_lh_set i b l c (Q : unit -> logstate S -> list event -> Prop) :
  0 <= i < Z.of_nat (length (lh_block (lg_lh l))) ->
  Q tt (Logstate (set_lh (Logheader (lh_n (lg_lh l)) (zset (lh_block (lg_lh l)) i b)) l) c) [] ->
  wp (lh_set i b) (Logstate l c) Q.
Proof.
  intros Hi HQ. unfold lh_set. apply wp_bind, wp_the_log.
  destruct (zget_is_Some _ _ Hi) as [x ->]. by apply wp_upd_log.
Qed.

(** The body of [write_log]: the block [from] is copied to the log block [to]. *)
Lemma copy_to_log l c tail to from Q :
  to = lg_start l + tail + 1 -> zget (lh_block (lg_lh l)) tail = Some from ->
  bc_inv c -> v_held (bc_view c) to = false -> v_held (bc_view c) from = false -> to <> from ->
  0 <= to < 2 ^ 32 -> 0 <= from < 2 ^ 32 ->
  v_refs (bc_view c) to = 0 -> v_refs (bc_view c) from = 1 -> 0 < v_free (bc_view c) ->
  (forall c' t, bc_inv c' ->
     bc_view c' = view_put to (v_content (bc_view c) from) (bc_view c) ->
     disk_writes t = [(to, v_content (bc_view c) from)] -> Q tt (Logstate l c') t) ->
  wp (let* h := on_cache (c_bread (u32 (lg_start l + tail + 1))) in
      let* b := lh_get tail in
      let* g := on_cache (c_bread (u32 b)) in
      let* d := on_cache (c_data g) in
      on_cache (c_store h d) ;;;
      on_cache (c_bwrite h) ;;;
      on_cache (c_brelse g) ;;;
      on_cache (c_brelse h)) (Logstate l c) Q.
Proof.
  intros Eto Hb Hinv Hh1 Hh2 Hne Hto Hfrom Hr0 Hr1 Hfree HQ.
  rewrite <- Eto, (wrap_small 32) by done.
  apply wp_bind, wp_on_cache. eapply wp_mono; [apply bread_ok; [done|done|lia|lia]|].
  intros h c1 t1 (I1 & T1 & V1 & G1 & _). cbn beta.
  apply wp_bind. eapply wp_lh_get; [done|]. rewrite (wrap_small 32) by done.
  apply wp_bind, wp_on_cache. eapply wp_mono.
  { apply (bread_ok c1 from); [done|..]; rewrite V1; simpl; rewrite ?fset_ne by done;
      [done|lia|lia]. }
  intros g c2 t2 (I2 & T2 & V2 & G2 & K2). cbn beta.
  apply wp_bind, wp_on_cache. unfold wp. rewrite (data_ok c2 g from) by done.
  apply wp_bind, wp_on_cache.
  eapply wp_mono; [apply (store_ok c2 h to); [done|by apply K2|by apply content_ok]|].
  intros _ c3 t3 (I3 & -> & V3 & K3). cbn beta.
  apply wp_bind, wp_on_cache. eapply wp_mono; [apply (bwrite_ok c3 h to); [done|auto]|].
  intros _ c4 t4 (I4 & T4 & V4 & K4). cbn beta.
  apply wp_bind, wp_on_cache. eapply wp_mono.
  { apply (brelse_ok c4 g from); [done|auto|]. rewrite V4, V3, V2, V1. simpl.
    rewrite !fset_eq, !fset_ne by done. lia. }
  intros _ c5 t5 (I5 & T5 & V5 & K5). cbn beta. apply wp_on_cache.
  eapply wp_mono.
  { apply (brelse_ok c5 h to); [done|auto|]. rewrite V5, V4, V3, V2, V1. simpl.
    rewrite !fset_eq. done. }
  intros [] c6 t6 (I6 & T6 & V6 & _). apply HQ; [done| |].
  - rewrite V6, V5, V4, V3, V2, V1. view_eq.
  - rewrite !disk_writes_app, T1, T2, T4, T5, T6, V3, V2, V1. simpl. by rewrite fset_eq.
Qed.
(** The body of [install_trans]: the log block is copied to its home block. *)
Lemma copy_to_home (recovering : bool) l c tail from to Q :
  from = lg_start l + tail + 1 -> zget (lh_block (lg_lh l)) tail = Some to ->
  bc_inv c -> v_held (bc_view c) from = false -> v_held (bc_view c) to = false -> from <> to ->
  0 <= from < 2 ^ 32 -> 0 <= to < 2 ^ 32 -> v_refs (bc_view c) from = 0 ->
  (if recovering then v_refs (bc_view c) to = 0 /\ 1 < v_free (bc_view c)
   else v_refs (bc_view c) to = 1 /\ 0 < v_free (bc_view c)) ->
  (forall c' t, bc_inv c' ->
     bc_view c' = (if recovering then view_put else view_put_unpin) to
                    (v_content (bc_view c) from) (bc_view c) ->
     disk_writes t = [(to, v_content (bc_view c) from)] -> Q tt (Logstate l c') t) ->
  wp (let* lbuf := on_cache (c_bread (u32 (lg_start l + tail + 1))) in
      let* b := lh_get tail in
      let* dbuf := on_cache (c_bread (u32 b)) in
      let* d := on_cache (c_data lbuf) in
      on_cache (c_store dbuf d) ;;;
      on_cache (c_bwrite dbuf) ;;;
      (if recovering then ret tt else on_cache (c_bunpin dbuf)) ;;;
      on_cache (c_brelse lbuf) ;;;
      on_cache (c_brelse dbuf)) (Logstate l c) Q.
Proof.
  intros Ef Hb Hinv Hh1 Hh2 Hne Hfrom Hto Hr0 Hr1 HQ.
  rewrite <- Ef, (wrap_small 32) by done.
  apply wp_bind, wp_on_cache.
  eapply wp_mono; [apply bread_ok; [done|done|lia|destruct recovering; lia]|].
  intros h c1 t1 (I1 & T1 & V1 & G1 & _). cbn beta.
  apply wp_bind. eapply wp_lh_get; [done|]. rewrite (wrap_small 32) by done.
  apply wp_bind, wp_on_cache. eapply wp_mono.
  { apply (bread_ok c1 to); [done|..]; rewrite V1; simpl; rewrite ?fset_ne by done;
      [done|rewrite ?Hr0; simpl; destruct recovering; lia..]. }
  intros g c2 t2 (I2 & T2 & V2 & G2 & K2). cbn beta.
  apply wp_bind, wp_on_cache. unfold wp. rewrite (data_ok c2 h from) by auto.
  assert (E2 : v_content (bc_view c2) = v_content (bc_view c)) by (by rewrite V2, V1).
  apply wp_bind, wp_on_cache.
  eapply wp_mono; [apply (store_ok c2 g to); [done..|by apply content_ok]|].
  intros _ c3 t3 (I3 & -> & V3 & K3). cbn beta.
  apply wp_bind, wp_on_cache. eapply wp_mono; [apply (bwrite_ok c3 g to); [done|auto]|].
  intros _ c4 t4 (I4 & T4 & V4 & K4). cbn beta. rewrite V3, E2 in T4. simpl in T4.
  rewrite fset_eq in T4. apply wp_bind.
  apply (wp_mono _ _ (fun _ s t => exists c5, s = Logstate l c5 /\ t = [] /\ bc_inv c5 /\
    bc_view c5 = (if recovering then fun v => v else view_bunpin to) (bc_view c4) /\
    bc_handle c5 h from /\ bc_handle c5 g to)).
  { destruct recovering; [exists c4; auto 10|]. apply wp_on_cache.
    eapply wp_mono; [apply (bunpin_ok c4 g to); [done|auto|]|].
    - rewrite V4, V3, V2, V1. simpl. rewrite fset_eq, fset_ne by done. lia.
    - intros _ c5 t5 (I5 & -> & V5 & K5). exists c5. auto 12. }
  intros _ s5 t5 (c5 & -> & -> & I5 & V5 & Gh & Gg). cbn beta.
  apply wp_bind, wp_on_cache. eapply wp_mono.
  { apply (brelse_ok c5 h from); [done..|]. intros _. rewrite V5, V4, V3, V2, V1.
    destruct recovering; simpl; rewrite !fset_ne by done; by apply unreferenced_clean. }
  intros _ c6 t6 (I6 & T6 & V6 & K6). cbn beta. apply wp_on_cache.
  eapply wp_mono.
  { apply (brelse_ok c6 g to); [done|auto|]. intros _. rewrite V6, V5, V4, V3, V2, V1.
    destruct recovering; simpl; by rewrite !fset_eq. }
  intros [] c7 t7 (I7 & T7 & V7 & _). apply HQ; [done| |].
  - rewrite V7, V6, V5, V4, V3, V2, V1. destruct recovering; destruct Hr1; view_eq.
  - rewrite !disk_writes_app, T1, T2, T4, T6, T7. done.
Qed.
(** [write_log] writes the logged blocks, in order, after the header. *)
Lemma write_log_spec l c :
  log_ok l -> bc_inv c -> commit_ready l (bc_view c) ->
  let W := log_writes (lg_start l) (logged l) (v_content (bc_view c)) in
  wp write_log (Logstate l c) (fun _ s t => exists c', s = Logstate l c' /\ bc_inv c' /\
    bc_view c' = view_puts W (bc_view c) /\ disk_writes t = W).
Proof.
  intros Hl Hc Hr W. pose proof (lo_n _ Hl). pose proof (lo_size _ Hl).
  pose proof (lo_start _ Hl). pose proof (length_logged _ Hl).
  assert (HW : length W = length (logged l)) by apply length_imap.
  unfold write_log. apply wp_bind, wp_the_log.
  apply (wp_for_loop _ _ _ _ (fun i s t => exists c', s = Logstate l c' /\ bc_inv c' /\
    bc_view c' = view_puts (take (Z.to_nat i) W) (bc_view c) /\
    disk_writes t = take (Z.to_nat i) W)).
  - by exists c.
  - intros i s t Hi (c1 & -> & I1 & V1 & T1).
    destruct (logged_zget l i) as (b & Hb & Hb'); [done|lia|].
    assert (Hin : b ∈ logged l) by (by eapply list_elem_of_lookup_2).
    destruct (lo_blocks _ Hl b Hin) as [Hrng Hout].
    destruct (view_puts_proj (take (Z.to_nat i) W) (bc_view c)) as (PC & PD & PR & PH & PF).
    assert (Hil : in_log l (lg_start l + i + 1)) by (unfold in_log; lia).
    assert (EC : v_content (bc_view c1) b = v_content (bc_view c) b).
    { rewrite V1, PC. apply apply_writes_notin. intros Hx.
      rewrite fmap_take in Hx. apply take_incl, log_writes_fst in Hx.
      apply Hout. unfold in_log. lia. }
    assert (ET : take (Z.to_nat (i + 1)) W =
      take (Z.to_nat i) W ++ [(lg_start l + i + 1, v_content (bc_view c) b)]).
    { replace (Z.to_nat (i + 1)) with (Datatypes.S (Z.to_nat i)) by lia.
      unfold W, log_writes. erewrite take_imap_S by done. by rewrite Z2Nat.id by lia. }
    eapply (copy_to_log l c1 i _ b); try done; try lia.
    + rewrite V1, PH. apply Hr. by right.
    + rewrite V1, PH. apply Hr. by left.
    + intros E. apply Hout. by rewrite <- E.
    + rewrite V1, PR. by apply Hr.
    + rewrite V1, PR. by apply Hr.
    + rewrite V1, PF. apply Hr.
    + intros c2 t2 I2 V2 T2. exists c2. rewrite ET, disk_writes_app, T1, T2, EC.
      split_and!; try done. by rewrite V2, EC, V1, view_puts_app.
  - intros s t. rewrite Z.add_0_l, Z2Nat.id by lia.
    rewrite take_ge by (rewrite HW; lia). done.
Qed.
(** [install_trans] copies the logged blocks, in order, to their home. *)
Lemma install_trans_spec recovering l c :
  log_ok l -> bc_inv c -> install_ready recovering l (bc_view c) ->
  let W := home_writes (lg_start l) (logged l) (v_content (bc_view c)) in
  wp (install_trans recovering) (Logstate l c) (fun _ s t => exists c', s = Logstate l c' /\
    bc_inv c' /\ bc_view c' = view_install recovering W (bc_view c) /\ disk_writes t = W).
Proof.
  intros Hl Hc Hr W. pose proof (lo_n _ Hl). pose proof (lo_size _ Hl).
  pose proof (lo_start _ Hl). pose proof (length_logged _ Hl).
  assert (HW : length W = length (logged l)) by apply length_imap.
  assert (HW1 : forall i, (take i W).*1 = take i (logged l))
    by (intros i; rewrite fmap_take; f_equal; apply home_writes_fst).
  unfold install_trans. apply wp_bind, wp_the_log.
  apply (wp_for_loop _ _ _ _ (fun i s t => exists c', s = Logstate l c' /\ bc_inv c' /\
    bc_view c' = view_install recovering (take (Z.to_nat i) W) (bc_view c) /\
    disk_writes t = take (Z.to_nat i) W)).
  - exists c. by destruct recovering.
  - intros i s t Hi (c1 & -> & I1 & V1 & T1).
    destruct (logged_zget l i) as (b & Hb & Hb'); [done|lia|].
    assert (Hin : b ∈ logged l) by (by eapply list_elem_of_lookup_2).
    destruct (lo_blocks _ Hl b Hin) as [Hrng Hout].
    pose proof (lo_nodup _ Hl) as Hnd. rewrite <- (take_drop_middle _ _ _ Hb') in Hnd.
    apply list.NoDup_app in Hnd as (Hnd & Hdis & _).
    assert (Hnot : b ∉ take (Z.to_nat i) (logged l)) by (intros Hx; apply (Hdis b Hx); set_solver).
    assert (Hil : in_log l (lg_start l + i + 1)) by (unfold in_log; lia).
    destruct (view_install_ready recovering l (take (Z.to_nat i) W) (bc_view c) Hl Hr)
      as (PC & PD & PH & PF & PL & PR); [by rewrite HW1|intros ?; rewrite HW1; apply take_incl|].
    rewrite <- V1 in *. rewrite HW1 in PR.
    assert (EC : v_content (bc_view c1) (lg_start l + i + 1) =
                 v_content (bc_view c) (lg_start l + i + 1)).
    { rewrite PC. apply apply_writes_notin. rewrite HW1. intros Hx%take_incl.
      by apply (lo_blocks _ Hl) in Hx as [_ []]. }
    assert (ET : take (Z.to_nat (i + 1)) W =
      take (Z.to_nat i) W ++ [(b, v_content (bc_view c) (lg_start l + i + 1))]).
    { replace (Z.to_nat (i + 1)) with (Datatypes.S (Z.to_nat i)) by lia.
      unfold W, home_writes. erewrite take_imap_S by done. by rewrite Z2Nat.id by lia. }
    eapply (copy_to_home recovering l c1 i _ b); try done; try lia.
    + rewrite PH. apply Hr. by right.
    + rewrite PH. apply Hr. by left.
    + intros E. apply Hout. by rewrite <- E.
    + by apply PL.
    + pose proof (PR b Hin Hnot). pose proof (ir_free _ _ _ Hr). destruct recovering; lia.
    + intros c2 t2 I2 V2 T2. exists c2. rewrite ET, disk_writes_app, T1, T2, EC.
      split_and!; try done. by rewrite V2, EC, V1, view_install_snoc.
  - intros s t. rewrite Z.add_0_l, Z2Nat.id by lia.
    rewrite take_ge by (rewrite HW; lia). done.
Qed.
(** [write_head] makes one disk write, of the header block. *)
Lemma write_head_spec l c :
  log_ok l -> bc_inv c -> v_held (bc_view c) (lg_start l) = false ->
  v_refs (bc_view c) (lg_start l) = 0 -> 0 < v_free (bc_view c) ->
  let d := hdr_image (v_content (bc_view c) (lg_start l)) (logged l) in
  wp write_head (Logstate l c) (fun _ s t => exists c', s = Logstate l c' /\ bc_inv c' /\
    bc_view c' = view_put (lg_start l) d (bc_view c) /\ disk_writes t = [(lg_start l, d)]).
Proof.
  intros Hl Hc Hh Hr Hf d. pose proof (lo_n _ Hl). pose proof (lo_size _ Hl).
  pose proof (lo_start _ Hl). pose proof (length_logged _ Hl) as Hlen.
  set (st := lg_start l) in *. set (d0 := set32 (v_content (bc_view c) st) 0 (lh_n (lg_lh l))).
  assert (Hd0 : block_ok d0) by (apply block_ok_set_le; by apply content_ok).
  unfold write_head. apply wp_bind, wp_the_log. fold st. rewrite (wrap_small 32) by lia.
  apply wp_bind, wp_on_cache. eapply wp_mono; [apply bread_ok; [done|done|lia|lia]|].
  intros h c1 t1 (I1 & T1 & V1 & G1 & _). cbn beta.
  apply wp_bind, wp_on_cache. unfold wp. rewrite (data_ok c1 h st) by done.
  rewrite V1. simpl (v_content _). fold d0.
  apply wp_bind, wp_on_cache. eapply wp_mono; [by apply (store_ok c1 h st)|].
  intros _ c2 t2 (I2 & -> & V2 & K2). cbn beta. rewrite V1 in V2. apply wp_bind.
  apply (wp_for_loop _ _ _ _ (fun i s t => exists c', s = Logstate l c' /\ bc_inv c' /\ t = [] /\
    bc_view c' = view_bstore st (put_blocks d0 0 (take (Z.to_nat i) (logged l)))
                   (view_bread st (bc_view c)) /\ bc_handle c' h st)).
  - exists c2. rewrite V2. auto 10.
  - intros i s t Hi (c3 & -> & I3 & -> & V3 & G3).
    destruct (logged_zget l i) as (b & Hb & Hb'); [done|lia|].
    apply wp_bind. eapply wp_lh_get; [done|]. apply wp_bind, wp_on_cache. unfold wp.
    rewrite (data_ok c3 h st) by done. rewrite V3. simpl (v_content _). rewrite fset_eq.
    apply wp_on_cache.
    eapply wp_mono; [apply (store_ok c3 h st); auto with kernel|].
    intros _ c4 t4 (I4 & -> & V4 & K4). exists c4. split_and!; auto.
    rewrite V4, V3. unfold view_bstore. simpl. rewrite fset_fset. do 2 f_equal.
    replace (Z.to_nat (i + 1)) with (Datatypes.S (Z.to_nat i)) by lia.
    rewrite (take_S_r _ _ b), put_blocks_snoc by done. f_equal.
    rewrite length_take. lia.
  - intros s t (c3 & -> & I3 & -> & V3 & G3).
    rewrite Z.add_0_l, Z2Nat.id, take_ge in V3 by lia.
    assert (Ed : put_blocks d0 0 (logged l) = d) by (unfold d, hdr_image, d0; by rewrite Hlen).
    rewrite Ed in V3. apply wp_bind, wp_on_cache.
    eapply wp_mono; [by apply (bwrite_ok c3 h st)|].
    intros _ c4 t4 (I4 & T4 & V4 & K4). cbn beta. apply wp_on_cache.
    eapply wp_mono.
    { apply (brelse_ok c4 h st); [done|auto|]. intros _. rewrite V4. simpl. by rewrite fset_eq. }
    intros [] c5 t5 (I5 & T5 & V5 & _). exists c5. split_and!; [done|done| |].
    + rewrite V5, V4, V3. view_eq.
    + rewrite !disk_writes_app, T1, T4, T5, V3. simpl. by rewrite fset_eq.
Qed.

(** [read_head] loads the header and changes no block. *)
Lemma read_head_spec l c :
  bc_inv c -> 0 <= lg_start l < 2 ^ 32 -> v_held (bc_view c) (lg_start l) = false ->
  v_refs (bc_view c) (lg_start l) = 0 -> 0 < v_free (bc_view c) ->
  Z.of_nat (length (lh_block (lg_lh l))) = LOGSIZE ->
  let d := v_content (bc_view c) (lg_start l) in
  0 <= hdr_n d <= LOGSIZE ->
  wp read_head (Logstate l c) (fun _ s t => exists bl c',
    s = Logstate (set_lh (Logheader (hdr_n d) bl) l) c' /\ bc_inv c' /\
    bc_view c' = bc_view c /\ disk_writes t = [] /\
    Z.of_nat (length bl) = LOGSIZE /\ take (Z.to_nat (hdr_n d)) bl = hdr_blocks d).
Proof.
  intros Hc Hst Hh Hr Hf Hlen d Hn. set (st := lg_start l) in *.
  unfold read_head. apply wp_bind, wp_the_log. fold st. rewrite (wrap_small 32) by lia.
  apply wp_bind, wp_on_cache. eapply wp_mono; [apply bread_ok; [done|done|lia|lia]|].
  intros h c1 t1 (I1 & T1 & V1 & G1 & _). cbn beta.
  apply wp_bind, wp_on_cache. unfold wp. rewrite (data_ok c1 h st) by done.
  rewrite V1. simpl (v_content _). fold d.
  apply wp_bind, wp_upd_log, wp_bind.
  apply (wp_for_loop _ _ _ _ (fun i s t => exists bl, t = [] /\
    s = Logstate (set_lh (Logheader (hdr_n d) bl) l) c1 /\ Z.of_nat (length bl) = LOGSIZE /\
    take (Z.to_nat i) bl = (fun i => hdr_block d (Z.of_nat i)) <$> seq 0 (Z.to_nat i))).
  - by exists (lh_block (lg_lh l)).
  - intros i s t Hi (bl & -> & -> & Hbl & Ht). apply wp_lh_set; [simpl; lia|].
    exists (zset bl i (hdr_block d i)). split_and!; [done|done|by rewrite length_zset|].
    replace (Z.to_nat (i + 1)) with (Datatypes.S (Z.to_nat i)) by lia.
    unfold zset. rewrite (proj2 (Z.leb_le 0 i)) by lia.
    rewrite (take_S_r _ _ (hdr_block d i)) by (apply list_lookup_insert_eq; lia).
    rewrite take_insert_ge, Ht, seq_S, fmap_app by lia. simpl. by rewrite Z2Nat.id by lia.
  - intros s t (bl & -> & -> & Hbl & Ht). rewrite Z.add_0_l, Z2Nat.id in Ht by lia.
    apply wp_on_cache. eapply wp_mono.
    { apply (brelse_ok c1 h st); [done..|]. intros _. rewrite V1. by apply unreferenced_clean. }
    intros [] c2 t2 (I2 & T2 & V2 & _). exists bl, c2. split_and!; try done.
    + rewrite V2, V1. view_eq.
    + by rewrite !disk_writes_app, T1, T2.
Qed.
End proofs.
