(* ===== verification/LogCrash.v ===== *)
(** * The log: commit, recovery and crashes

    A crash stops the machine between two disk writes, so what survives it is
    the disk after a prefix of the writes made so far.  The theorems say that
    recovery turns every such disk into one on which the transaction happened
    completely or not at all, and that recovery may itself be interrupted any
    number of times. *)

From Stdlib Require Import ZArith Lia FunctionalExtensionality.
From stdpp Require Import base list sets strings numbers.
From S2P Require Import Prelude Blocks BlockCache Log LogProofs Bio BioProofs.

(** ** Disks *)

(** Block [b] is outside the log. *)
Definition home (st size b : Z) : Prop := ~ (st <= b < st + size).

(** A disk whose log header is one that [write_head] can have written. *)
Record disk_wf (st size : Z) (D : Z -> block) : Prop := {
  dw_ok n : block_ok (D n);
  dw_n : 0 <= hdr_n (D st) <= LOGSIZE;
  dw_size : hdr_n (D st) < size;
  dw_nodup : NoDup (hdr_blocks (D st));
  dw_blocks b : b ∈ hdr_blocks (D st) -> 0 <= b < 2 ^ 31 /\ home st size b
}.

(** The blocks as they are once the log has been replayed. *)
Definition logical (st : Z) (D : Z -> block) : Z -> block :=
  apply_writes (home_writes st (hdr_blocks (D st)) D) D.

(** The transaction as one assignment of its blocks. *)
Definition trans_writes (bl : list Z) (C : Z -> block) : list (Z * block) :=
  (fun b => (b, C b)) <$> bl.

(** The disk writes of [recover_from_log] on disk [D]. *)
Definition recover_writes (st : Z) (D : Z -> block) : list (Z * block) :=
  home_writes st (hdr_blocks (D st)) D ++ [(st, hdr_image (D st) [])].

(** The disk writes of [commit] for the logged blocks [bl] with contents [C]. *)
Definition commit_writes (st : Z) (bl : list Z) (C : Z -> block) : list (Z * block) :=
  log_writes st bl C ++ (st, hdr_image (C st) bl) :: trans_writes bl C ++
    [(st, hdr_image (hdr_image (C st) bl) [])].

Lemma apply_writes_in ws D b d :
  NoDup ws.*1 -> (b, d) ∈ ws -> apply_writes ws D b = d.
Proof.
  revert D. induction ws as [|[m x] ws IH]; intros D Hd Hin; [by apply elem_of_nil in Hin|].
  simpl in Hd. apply list.NoDup_cons in Hd as [Hm Hd]. rewrite apply_writes_cons.
  apply elem_of_cons in Hin as [[= -> ->]|Hin]; [|by apply IH].
  rewrite apply_writes_notin by done. apply fset_eq.
Qed.

Lemma apply_writes_ext ws D D' b :
  D b = D' b -> apply_writes ws D b = apply_writes ws D' b.
Proof.
  revert D D'. induction ws as [|[m x] ws IH]; intros D D' E; [done|].
  rewrite !apply_writes_cons. apply IH. unfold fset. by destruct (b =? m).
Qed.

(** Repeating a prefix of some writes before making them all changes nothing. *)
Lemma apply_writes_redo ws k D b :
  NoDup ws.*1 -> apply_writes ws (apply_writes (take k ws) D) b = apply_writes ws D b.
Proof.
  intros Hd. destruct (decide (b ∈ ws.*1)) as [Hin|Hin].
  - apply list_elem_of_fmap in Hin as ([m d] & -> & Hin). simpl.
    by rewrite !(apply_writes_in _ _ m d).
  - apply apply_writes_ext, apply_writes_notin. intros Hx. apply Hin.
    rewrite fmap_take in Hx. by eapply take_incl.
Qed.

Lemma block_ok_apply_writes ws D n :
  (forall m, block_ok (D m)) -> Forall (fun w => block_ok w.2) ws ->
  block_ok (apply_writes ws D n).
Proof.
  revert D. induction ws as [|[m d] ws IH]; intros D HD Hw; [done|].
  inversion Hw; subst. rewrite apply_writes_cons. apply IH; [|done].
  intros k. unfold fset. by destruct (k =? m).
Qed.

Lemma trans_writes_fst bl C : (trans_writes bl C).*1 = bl.
Proof. unfold trans_writes. rewrite <- list_fmap_compose. apply list_fmap_id. Qed.

Lemma apply_trans bl C D b :
  NoDup bl -> apply_writes (trans_writes bl C) D b = if bool_decide (b ∈ bl) then C b else D b.
Proof.
  intros Hd. case_bool_decide as Hb.
  - apply apply_writes_in; [by rewrite trans_writes_fst|].
    apply list_elem_of_fmap. by exists b.
  - apply apply_writes_notin. by rewrite trans_writes_fst.
Qed.

Lemma hdr_blocks_empty d : hdr_n d = 0 -> hdr_blocks d = [].
Proof. intros E. unfold hdr_blocks. by rewrite E. Qed.

Lemma hdr_n_empty d : block_ok d -> hdr_n (hdr_image d []) = 0.
Proof. intros. rewrite hdr_n_image; [done|done|]. unfold LOGSIZE, MAXOPBLOCKS. simpl. lia. Qed.

(** A disk with an empty header is well formed, and its own logical content. *)
Lemma disk_wf_empty st size D :
  (forall n, block_ok (D n)) -> hdr_n (D st) = 0 -> 0 < size ->
  disk_wf st size D /\ logical st D = D.
Proof.
  intros Hok E Hs. pose proof (hdr_blocks_empty _ E) as Eb. split.
  - split; rewrite ?E, ?Eb; try done; unfold LOGSIZE, MAXOPBLOCKS; try lia.
    + constructor.
    + intros b Hb. by apply elem_of_nil in Hb.
  - unfold logical. by rewrite Eb.
Qed.

(** A disk with the same header block and log blocks has the same log. *)
Lemma disk_wf_same st size D D' :
  disk_wf st size D -> (forall n, block_ok (D' n)) -> D' st = D st -> disk_wf st size D'.
Proof. intros [] Hok E. split; rewrite ?E; auto. Qed.

Lemma home_writes_ext st bl C C' size :
  (forall b, st <= b < st + size -> C b = C' b) -> Z.of_nat (length bl) < size ->
  home_writes st bl C = home_writes st bl C'.
Proof.
  intros H Hl. unfold home_writes. apply imap_ext. intros i b Hb.
  apply lookup_lt_Some in Hb. rewrite H by lia. done.
Qed.

Lemma Forall_home_writes st bl C : (forall n, block_ok (C n)) ->
  Forall (fun w : Z * block => block_ok w.2) (home_writes st bl C).
Proof.
  intros H. apply list.Forall_forall. intros [n d] Hin.
  apply elem_of_lookup_imap in Hin as (i & b & [= -> ->] & _). apply H.
Qed.

Lemma Forall_log_writes st bl C : (forall n, block_ok (C n)) ->
  Forall (fun w : Z * block => block_ok w.2) (log_writes st bl C).
Proof.
  intros H. apply list.Forall_forall. intros [n d] Hin.
  apply elem_of_lookup_imap in Hin as (i & b & [= -> ->] & _). apply H.
Qed.

Lemma Forall_trans_writes bl C : (forall n, block_ok (C n)) ->
  Forall (fun w : Z * block => block_ok w.2) (trans_writes bl C).
Proof.
  intros H. apply list.Forall_forall. intros [n d] Hin.
  apply list_elem_of_fmap in Hin as (b & [= -> ->] & _). apply H.
Qed.

Lemma length_hdr_blocks d : 0 <= hdr_n d -> Z.of_nat (length (hdr_blocks d)) = hdr_n d.
Proof. intros. unfold hdr_blocks. rewrite length_fmap, length_seq. lia. Qed.

(** ** Crashes while recovering *)

Lemma recover_prefix st size D k :
  disk_wf st size D ->
  let D' := apply_writes (take k (recover_writes st D)) D in
  disk_wf st size D' /\ forall b, home st size b -> logical st D' b = logical st D b.
Proof.
  intros Hw D'. unfold recover_writes in D'.
  set (W := home_writes st (hdr_blocks (D st)) D) in *.
  pose proof (dw_n _ _ _ Hw). pose proof (dw_size _ _ _ Hw).
  assert (HW : W.*1 = hdr_blocks (D st)) by apply home_writes_fst.
  assert (HlogW : forall j b, st <= b < st + size -> apply_writes (take j W) D b = D b).
  { intros j b Hb. apply apply_writes_notin. rewrite fmap_take, HW. intros Hx%take_incl.
    by apply (dw_blocks _ _ _ Hw) in Hx as [_ []]. }
  assert (HokW : forall j n, block_ok (apply_writes (take j W) D n)).
  { intros j n. apply block_ok_apply_writes; [apply Hw|].
    apply Forall_take, Forall_home_writes, Hw. }
  destruct (decide (k <= length W)%nat) as [Hk|Hk].
  - assert (ED : D' = apply_writes (take k W) D) by (unfold D'; by rewrite take_app_le by lia).
    rewrite ED. split; [apply (disk_wf_same _ _ D); [done|apply HokW|apply HlogW; lia]|].
    intros b Hb. unfold logical. rewrite (HlogW k st) by lia.
    rewrite (home_writes_ext st _ (apply_writes (take k W) D) D size);
      [|apply HlogW|rewrite length_hdr_blocks; lia].
    fold W. apply apply_writes_redo. rewrite HW. apply Hw.
  - assert (ED : D' = fset (apply_writes W D) st (hdr_image (D st) [])).
    { unfold D'. rewrite take_ge by (rewrite length_app; simpl; lia).
      by rewrite apply_writes_app. }
    destruct (disk_wf_empty st size D') as [Hw' El]; [| |lia|].
    + intros n. rewrite ED. unfold fset. destruct (n =? st); [apply block_ok_hdr_image, Hw|].
      rewrite <- (firstn_all W). apply HokW.
    + rewrite ED, fset_eq. apply hdr_n_empty, Hw.
    + split; [done|]. intros b Hb. rewrite El, ED, fset_ne; [done|].
      intros ->. apply Hb. lia.
Qed.

(** ** Crashes while committing *)

Section commit.
Context (st size : Z) (bl : list Z) (C D : Z -> block).
Context (HC : forall n, block_ok (C n)) (HD : forall n, block_ok (D n)).
Context (Hempty : hdr_n (D st) = 0).
Context (Hlen : Z.of_nat (length bl) <= LOGSIZE) (Hsize : Z.of_nat (length bl) < size).
Context (Hnd : NoDup bl) (Hbl : forall b, b ∈ bl -> 0 <= b < 2 ^ 31 /\ home st size b).

Let W := log_writes st bl C.
Let hd := hdr_image (C st) bl.
(** The disk after the log blocks and the header, and [j] of the home blocks. *)
Let committed (j : nat) := apply_writes (take j (trans_writes bl C)) (fset (apply_writes W D) st hd).

Lemma log_prefix k b : home st size b \/ b = st -> apply_writes (take k W) D b = D b.
Proof.
  intros Hb. apply apply_writes_notin. rewrite fmap_take.
  intros Hx%take_incl%log_writes_fst. destruct Hb as [Hb| ->]; [apply Hb|]; lia.
Qed.

Lemma log_block i b : bl !! i = Some b -> apply_writes W D (st + Z.of_nat i + 1) = C b.
Proof.
  intros Hi. apply apply_writes_in.
  - unfold W, log_writes. rewrite fmap_imap. apply NoDup_alt. intros p q x.
    rewrite !list_lookup_imap. intros Hp Hq.
    destruct (bl !! p), (bl !! q); simpl in *; try done. simplify_eq. lia.
  - apply elem_of_lookup_imap. by exists i, b.
Qed.

Lemma committed_log j b : st <= b < st + size -> committed j b = fset (apply_writes W D) st hd b.
Proof.
  intros Hb. apply apply_writes_notin. rewrite fmap_take, trans_writes_fst.
  intros Hx%take_incl. by destruct (Hbl b Hx) as [_ []].
Qed.

Lemma block_ok_committed j n : block_ok (committed j n).
Proof.
  apply block_ok_apply_writes; [|apply Forall_take, Forall_trans_writes, HC].
  intros m. unfold fset. destruct (m =? st); [apply block_ok_hdr_image, HC|].
  apply block_ok_apply_writes; [done|]. by apply Forall_log_writes.
Qed.

Lemma hdr_blocks_committed j : hdr_blocks (committed j st) = bl /\
  hdr_n (committed j st) = Z.of_nat (length bl).
Proof.
  rewrite committed_log, fset_eq by lia. split; [|by apply hdr_n_image].
  apply hdr_blocks_image; [done..|]. apply list.Forall_forall. intros b Hb. by apply Hbl.
Qed.

Lemma home_writes_committed j : home_writes st bl (committed j) = trans_writes bl C.
Proof.
  apply list_eq. intros i. unfold home_writes, trans_writes.
  rewrite list_lookup_imap, list_lookup_fmap. destruct (bl !! i) as [b|] eqn:E; [|done].
  simpl. do 2 f_equal. apply lookup_lt_Some in E as Hi.
  rewrite committed_log, fset_ne by lia. by apply log_block.
Qed.

Lemma committed_ok j : disk_wf st size (committed j) /\
  forall b, home st size b -> logical st (committed j) b = apply_writes (trans_writes bl C) D b.
Proof.
  destruct (hdr_blocks_committed j) as [Eb En]. split.
  - split; rewrite ?Eb, ?En; auto; [apply block_ok_committed|lia].
  - intros b Hb. unfold logical. rewrite Eb, home_writes_committed.
    unfold committed. rewrite apply_writes_redo by (by rewrite trans_writes_fst).
    apply apply_writes_ext. rewrite fset_ne by (intros ->; apply Hb; lia).
    rewrite <- (firstn_all W). apply log_prefix. by left.
Qed.

(** Before the header is written the transaction has not happened, from then on
    it has. *)
Lemma commit_prefix k :
  let D' := apply_writes (take k (commit_writes st bl C)) D in
  disk_wf st size D' /\ forall b, home st size b ->
    logical st D' b = if (k <=? length bl)%nat then D b else apply_writes (trans_writes bl C) D b.
Proof.
  intros D'. unfold commit_writes in D'. fold W in D'. fold hd in D'.
  assert (HW : length W = length bl) by apply length_imap.
  assert (HT : length (trans_writes bl C) = length bl) by apply length_fmap.
  destruct (Nat.leb_spec k (length bl)) as [Hk|Hk].
  - assert (ED : D' = apply_writes (take k W) D) by (unfold D'; by rewrite take_app_le by lia).
    destruct (disk_wf_empty st size D') as [Hw El]; [| |lia|].
    + intros n. rewrite ED. apply block_ok_apply_writes; [done|].
      by apply Forall_take, Forall_log_writes.
    + rewrite ED, log_prefix by auto. done.
    + split; [done|]. intros b Hb. rewrite El, ED. apply log_prefix. by left.
  - destruct (decide (k <= length bl + 1 + length bl)%nat) as [Hk2|Hk2].
    + assert (exists j, (k - length bl = Datatypes.S j)%nat) as [j Ej]
        by (exists (k - length bl - 1)%nat; lia).
      assert (ED : D' = committed j).
      { unfold D'. rewrite take_app_ge, HW, Ej by lia.
        rewrite firstn_cons, take_app_le by lia. by rewrite apply_writes_app, apply_writes_cons. }
      rewrite ED. apply committed_ok.
    + assert (ED : D' = fset (committed (length bl)) st (hdr_image hd [])).
      { unfold D', committed.
        rewrite take_ge by (rewrite length_app, length_cons, length_app, HW, HT; simpl; lia).
        rewrite apply_writes_app, apply_writes_cons, apply_writes_app.
        rewrite (take_ge (trans_writes bl C)) by lia. done. }
      destruct (disk_wf_empty st size D') as [Hw El]; [| |lia|].
      * intros n. rewrite ED. unfold fset.
        destruct (n =? st); [apply block_ok_hdr_image, block_ok_hdr_image, HC|apply block_ok_committed].
      * rewrite ED, fset_eq. by apply hdr_n_empty, block_ok_hdr_image.
      * split; [done|]. intros b Hb. assert (b <> st) by (intros ->; apply Hb; lia).
        rewrite El, ED, fset_ne by done. unfold committed.
        rewrite (take_ge (trans_writes bl C)) by lia. apply apply_writes_ext.
        rewrite fset_ne by done. rewrite <- (firstn_all W). apply log_prefix. by left.
Qed.
End commit.

(** ** What [commit] and [initlog] do *)

Definition emptied (l : log) : log := set_lh (Logheader 0 (lh_block (lg_lh l))) l.

Lemma log_ok_emptied l : log_ok l -> log_ok (emptied l).
Proof.
  intros [Hl Hn Hs Hst _ _]. split; simpl; try done; try lia.
  - constructor.
  - intros b Hb. by apply elem_of_nil in Hb.
Qed.

Lemma logged_home l b : log_ok l -> b ∈ logged l ->
  0 <= b < 2 ^ 31 /\ home (lg_start l) (lg_size l) b.
Proof. intros Hl Hb. by apply (lo_blocks _ Hl). Qed.

Section run.
Context {S : Type} `{HL : BlockCacheLaws S}.

Lemma commit_spec l c :
  log_ok l -> 0 < lh_n (lg_lh l) -> bc_inv c -> commit_ready l (bc_view c) ->
  let bl := logged l in let v := bc_view c in
  wp commit (Logstate l c) (fun _ s t => exists c', s = Logstate (emptied l) c' /\ bc_inv c' /\
    disk_writes t = commit_writes (lg_start l) bl (v_content v) /\
    v_disk (bc_view c') = apply_writes (disk_writes t) (v_disk v) /\
    v_content (bc_view c') = apply_writes (disk_writes t) (v_content v) /\
    v_held (bc_view c') = v_held v /\
    (forall b, v_refs (bc_view c') b = if bool_decide (b ∈ bl) then 0 else v_refs v b) /\
    v_free (bc_view c') = v_free v + Z.of_nat (length bl)).
Proof.
  intros Hl Hn Hc Hr bl v. set (st := lg_start l). set (C := v_content v).
  pose proof (length_logged _ Hl) as Hlen. fold bl in Hlen.
  pose proof (lo_n _ Hl). pose proof (lo_size _ Hl).
  assert (Hst : in_log l st) by (unfold in_log, st; lia).
  unfold commit. apply wp_bind, wp_the_log. rewrite (proj2 (Z.ltb_lt 0 _)) by done.
  apply wp_bind. eapply wp_mono; [by apply write_log_spec|].
  intros _ s t1 (c1 & -> & I1 & V1 & T1). cbn beta. fold st bl v C in V1, T1.
  set (W := log_writes st bl C) in *.
  destruct (view_puts_proj W v) as (PC1 & PD1 & PR1 & PH1 & PF1). rewrite <- V1 in *.
  assert (EC1 : v_content (bc_view c1) st = C st).
  { rewrite PC1, <- (firstn_all W). apply (log_prefix st (lg_size l)); [lia|by right]. }
  apply wp_bind. eapply wp_mono.
  { apply write_head_spec; [done..| | |]; fold st; rewrite ?PH1, ?PR1, ?PF1; apply Hr; auto. }
  intros _ s t2 (c2 & -> & I2 & V2 & T2). cbn beta. fold st bl in V2, T2. rewrite EC1 in V2, T2.
  set (h1 := hdr_image (C st) bl) in *.
  assert (E2 : v_content (bc_view c2) = fset (apply_writes W C) st h1) by (rewrite V2; simpl; by rewrite PC1).
  apply wp_bind. eapply wp_mono.
  { apply (install_trans_spec false); [done..|]. split; rewrite V2; simpl; rewrite ?PH1, ?PR1, ?PF1; apply Hr. }
  intros _ s t3 (c3 & -> & I3 & V3 & T3). cbn beta. fold st bl in V3, T3. rewrite E2 in V3, T3.
  assert (E3 : home_writes st bl (fset (apply_writes W C) st h1) = trans_writes bl C).
  { apply (home_writes_committed st (lg_size l) bl C C ltac:(lia) (fun b => logged_home l b Hl) 0). }
  rewrite E3 in V3, T3.
  set (T := trans_writes bl C) in *. change (view_install false) with view_puts_unpin in V3.
  assert (HT1 : T.*1 = bl) by apply trans_writes_fst.
  destruct (view_puts_unpin_proj T (bc_view c2)) as (PC3 & PD3 & PH3 & PF3).
  destruct (view_puts_unpin_refs T (bc_view c2)) as [PR3 PF3'].
  { rewrite HT1. apply Hl. }
  { intros n. rewrite HT1, V2. simpl. rewrite PR1. apply Hr. }
  rewrite <- V3 in *. rewrite HT1 in PR3.
  assert (EC3 : v_content (bc_view c3) st = h1).
  { rewrite PC3, apply_writes_notin, E2, fset_eq; [done|]. rewrite HT1. intros Hx.
    by apply (logged_home l) in Hx as [_ []]. }
  apply wp_bind, wp_upd_log. fold (emptied l).
  eapply wp_mono.
  { apply (write_head_spec (emptied l)); [by apply log_ok_emptied|done|..];
      change (lg_start (emptied l)) with st.
    - rewrite PH3, V2. simpl. rewrite PH1. apply Hr. auto.
    - rewrite PR3, V2. simpl. rewrite PR1. case_bool_decide; [done|]. by apply Hr.
    - assert (0 < v_free (bc_view c2)) by (rewrite V2; simpl; rewrite PF1; apply Hr). lia. }
  intros [] s t4 (c4 & -> & I4 & V4 & T4). change (lg_start (emptied l)) with st in *.
  change (logged (emptied l)) with (@nil Z) in *. rewrite EC3 in *.
  exists c4. rewrite !disk_writes_app, T1, T2, T3, T4. split_and!; try done.
  - rewrite V4. simpl. rewrite PD3, V2. simpl. rewrite PD1.
    by rewrite apply_writes_app, apply_writes_cons, apply_writes_app.
  - rewrite V4. simpl. rewrite PC3, V2. simpl. rewrite PC1.
    by rewrite apply_writes_app, apply_writes_cons, apply_writes_app.
  - rewrite V4. simpl. by rewrite PH3, V2.
  - intros b. rewrite V4. simpl. rewrite PR3, V2. simpl. by rewrite PR1.
  - rewrite V4. simpl. rewrite PF3', V2. simpl. rewrite PF1. f_equal. f_equal. apply length_fmap.
Qed.
(** Starting the machine on disk [D]: [initlog] with a cold cache. *)
Definition reboot (st size : Z) (D : Z -> block) : outcome (logstate S) unit :=
  initlog st size (Logstate log_bss (c_boot D)).

(** [initlog] after the size check, on a log [l] just loaded with the header. *)
Lemma recover_spec l c D :
  1 < v_free (bc_view c) -> bc_inv c -> bc_view c = view_boot D (v_free (bc_view c)) ->
  0 <= lg_start l -> lg_start l + lg_size l <= 2 ^ 31 ->
  Z.of_nat (length (lh_block (lg_lh l))) = LOGSIZE -> disk_wf (lg_start l) (lg_size l) D ->
  wp recover_from_log (Logstate l c) (fun _ s t => exists l' c', s = Logstate l' c' /\ bc_inv c' /\
    log_ok l' /\ logged l' = [] /\ lg_start l' = lg_start l /\ lg_size l' = lg_size l /\
    lg_outstanding l' = lg_outstanding l /\ lg_committing l' = lg_committing l /\
    disk_writes t = recover_writes (lg_start l) D /\
    bc_view c' = view_boot (apply_writes (disk_writes t) D) (v_free (bc_view c))).
Proof.
  intros Hf Hc Hv Hst Hsz Hlen Hw. set (st := lg_start l) in *.
  assert (EC : v_content (bc_view c) = D) by (by rewrite Hv).
  pose proof (dw_n _ _ _ Hw). pose proof (dw_size _ _ _ Hw).
  unfold recover_from_log. apply wp_bind. eapply wp_mono.
  { apply read_head_spec; [done|fold st; lia|..|done|]; fold st; rewrite ?EC; try rewrite Hv; simpl; (done || lia). }
  intros _ s t1 (bl & c1 & -> & I1 & V1 & T1 & Hbl & Htake). cbn beta. fold st in Htake.
  rewrite EC in *. set (l1 := set_lh _ l).
  assert (Hlg : logged l1 = hdr_blocks (D st)) by exact Htake.
  assert (Hok : log_ok l1).
  { split; rewrite ?Hlg; simpl; try done; try lia; [apply Hw|intros b; apply (dw_blocks _ _ _ Hw)]. }
  apply wp_bind. eapply wp_mono.
  { apply (install_trans_spec true); [done..|]. rewrite V1, Hv. by split. }
  intros _ s t2 (c2 & -> & I2 & V2 & T2). cbn beta.
  change (lg_start l1) with st in *. rewrite V1, EC, Hlg in *.
  change (view_install true) with view_puts in V2. set (W := home_writes _ _ _) in *.
  destruct (view_puts_proj W (bc_view c)) as (PC & PD & PR & PH & PF). rewrite <- V2 in *.
  assert (Est : v_content (bc_view c2) st = D st).
  { rewrite PC, EC. apply apply_writes_notin. unfold W. rewrite home_writes_fst.
    intros Hx. apply (dw_blocks _ _ _ Hw) in Hx as [_ []]. lia. }
  apply wp_bind, wp_upd_log. fold (emptied l1). eapply wp_mono.
  { apply (write_head_spec (emptied l1)); [by apply log_ok_emptied|done|..];
      rewrite ?PH, ?PR, ?PF; try rewrite Hv; simpl; (done || lia). }
  intros [] s t3 (c3 & -> & I3 & V3 & T3). change (lg_start (emptied l1)) with st in *.
  change (logged (emptied l1)) with (@nil Z) in *. rewrite Est in *.
  exists (emptied l1), c3. rewrite !disk_writes_app, T1, T2, T3.
  split_and!; try done; [by apply log_ok_emptied|].
  rewrite V3. apply view_ext; intros; simpl; rewrite ?PC, ?PD, ?PR, ?PH, ?PF;
    rewrite ?apply_writes_app; try done; by rewrite Hv.
Qed.
Lemma reboot_spec st size D :
  1 < c_nbuf -> 0 <= st -> st + size <= 2 ^ 31 -> disk_wf st size D ->
  exists l c t, reboot st size D = Done tt (Logstate l c) t /\ bc_inv c /\ log_ok l /\
    logged l = [] /\ disk_writes t = recover_writes st D /\
    bc_view c = view_boot (apply_writes (recover_writes st D) D) c_nbuf.
Proof.
  intros Hn Hst Hsz Hw. destruct (boot_ok D (dw_ok _ _ _ Hw)) as [Hi Hv].
  assert (E : wp (initlog st size) (Logstate log_bss (c_boot D)) (fun _ s t => exists l c,
    s = Logstate l c /\ bc_inv c /\ log_ok l /\ logged l = [] /\
    disk_writes t = recover_writes st D /\
    bc_view c = view_boot (apply_writes (recover_writes st D) D) c_nbuf)).
  { unfold initlog. rewrite (proj2 (Z.leb_gt _ _)) by done. apply wp_bind, wp_upd_log.
    eapply wp_mono.
    { apply recover_spec; simpl; rewrite ?Hv; try done. }
    intros _ s t (l & c & -> & Hc & Hok & Hlg & _ & _ & _ & _ & T & V). exists l, c.
    rewrite T, Hv in V. done. }
  apply wp_done in E as ([] & s & t & E & l & c & -> & H'). eauto 10.
Qed.

(** The log is empty and every home block has its logical content. *)
Lemma reboot_logical st size D :
  1 < c_nbuf -> 0 <= st -> st + size <= 2 ^ 31 -> disk_wf st size D ->
  exists l c t, reboot st size D = Done tt (Logstate l c) t /\ bc_inv c /\ log_ok l /\ logged l = [] /\
    hdr_n (v_disk (bc_view c) st) = 0 /\
    forall b, home st size b -> v_disk (bc_view c) b = logical st D b.
Proof.
  intros Hn Hst Hsz Hw. destruct (reboot_spec st size D) as (l & c & t & E & Hc & Hl & Hlg & T & V);
    [done..|].
  pose proof (dw_n _ _ _ Hw). pose proof (dw_size _ _ _ Hw).
  exists l, c, t. split_and!; try done; rewrite V; simpl; unfold recover_writes; rewrite apply_writes_app; simpl.
  - rewrite fset_eq. apply hdr_n_empty, Hw.
  - intros b Hb. rewrite fset_ne; [done|]. intros ->. apply Hb. lia.
Qed.

(** [crashed st size D D']: [D'] is left by restarting on [D] some number of
    times, each recovery being cut after some of its disk writes. *)
Inductive crashed (st size : Z) : (Z -> block) -> (Z -> block) -> Prop :=
| crashed_refl D : crashed st size D D
| crashed_step D D' s t k :
    crashed st size D D' -> reboot st size D' = Done tt s t ->
    crashed st size D (apply_writes (take k (disk_writes t)) D').

Lemma crashed_logical st size D D' :
  1 < c_nbuf -> 0 <= st -> st + size <= 2 ^ 31 -> disk_wf st size D -> crashed st size D D' ->
  disk_wf st size D' /\ forall b, home st size b -> logical st D' b = logical st D b.
Proof.
  intros Hn Hst Hsz Hw Hcr. induction Hcr as [D|D D' s t k _ IH E]; [done|].
  destruct (IH Hw) as [Hw' El]. destruct (reboot_spec st size D') as (l & c & t' & E' & _ & _ & _ & T & _);
    [done..|]. rewrite E' in E. simplify_eq. rewrite T.
  destruct (recover_prefix st size D' k Hw') as [Hw2 El2]. split; [done|].
  intros b Hb. by rewrite El2, El.
Qed.
(** A cache in which block [b] has been changed to [d] and pinned. *)
Lemma pinned_state D b d :
  0 < c_nbuf -> (forall n, block_ok (D n)) -> block_ok d ->
  exists c, bc_inv c /\
    bc_view c = View (fset D b d) D (fset (fun _ => 0) b 1) (fun _ => false) (c_nbuf - 1).
Proof.
  intros Hn HD Hd. destruct (boot_ok D HD) as [I0 V0].
  assert (E : wp (let* h := c_bread b in c_store h d ;;; c_bpin h ;;; c_brelse h) (c_boot D)
    (fun _ c _ => bc_inv c /\
    bc_view c = View (fset D b d) D (fset (fun _ => 0) b 1) (fun _ => false) (c_nbuf - 1))).
  { apply wp_bind. eapply wp_mono; [apply bread_ok; rewrite ?V0; simpl; (done || lia)|].
    intros h c1 t1 (I1 & T1 & V1 & G1 & _). cbn beta.
    apply wp_bind. eapply wp_mono; [by apply (store_ok c1 h b)|].
    intros _ c2 t2 (I2 & _ & V2 & K2). cbn beta.
    apply wp_bind. eapply wp_mono; [apply (bpin_ok c2 h b); auto|].
    { rewrite V2, V1, V0. simpl. rewrite fset_eq. lia. }
    intros _ c3 t3 (I3 & _ & V3 & K3). cbn beta.
    eapply wp_mono; [apply (brelse_ok c3 h b); auto|].
    { rewrite V3, V2, V1, V0. simpl. rewrite !fset_eq. lia. }
    intros _ c4 t4 (I4 & _ & V4 & _). split; [done|].
    rewrite V4, V3, V2, V1, V0. view_eq. }
  apply wp_done in E as (_ & c & _ & _ & H'). by exists c.
Qed.

(** C1: A transaction is atomic and durable across crashes.  However far into
    [commit]'s disk writes the machine stops, and however often the restarts are
    themselves cut short, the restart that completes leaves an empty log and, on
    every block outside the log, the old contents if the stop came before the
    header was written, and otherwise the new contents of exactly the logged
    blocks. *)
Theorem commit_atomic l c :
  1 < c_nbuf -> log_ok l -> 0 < lh_n (lg_lh l) -> bc_inv c -> commit_ready l (bc_view c) ->
  hdr_n (v_disk (bc_view c) (lg_start l)) = 0 ->
  let st := lg_start l in let size := lg_size l in let v := bc_view c in
  exists s t, commit (Logstate l c) = Done tt s t /\
    forall k D', crashed st size (apply_writes (take k (disk_writes t)) (v_disk v)) D' ->
     exists l2 c2 t2, reboot st size D' = Done tt (Logstate l2 c2) t2 /\ logged l2 = [] /\
       hdr_n (v_disk (bc_view c2) st) = 0 /\
       forall b, home st size b -> v_disk (bc_view c2) b =
         if (k <=? length (logged l))%nat then v_disk v b
         else if bool_decide (b ∈ logged l) then v_content v b else v_disk v b.
Proof.
  intros Hnb Hl Hn Hc Hr Hh st size v.
  pose proof (commit_spec l c Hl Hn Hc Hr) as E.
  apply wp_done in E as ([] & s & t & E & c' & -> & _ & T & _).
  exists (Logstate (emptied l) c'), t. split; [done|]. rewrite T. intros k D' Hcr.
  pose proof (length_logged _ Hl). pose proof (lo_n _ Hl). pose proof (lo_size _ Hl).
  pose proof (lo_start _ Hl).
  destruct (commit_prefix st size (logged l) (v_content v) (v_disk v)) with (k := k) as [Hw El];
    [intros; by apply content_ok|intros; by apply disk_ok|done|lia|unfold size; lia|apply Hl
    |intros ?; by apply logged_home|].
  destruct (crashed_logical st size _ D' Hnb ltac:(unfold st; lia) ltac:(unfold st, size; lia) Hw Hcr) as [Hw' El'].
  destruct (reboot_logical st size D') as (l2 & c2 & t2 & E2 & _ & _ & Hlg & Hz & Hb);
    [done|unfold st, size; lia..|done|].
  exists l2, c2, t2. split_and!; [done..|]. intros b Hhome.
  rewrite Hb, El', El, apply_trans by (done || apply Hl). done.
Qed.

(** [recover_from_log] (through [initlog]) always completes on a disk whose
    log header is well formed, makes the log empty and gives each block outside
    the log the content recorded for it in the log; running it again, or after
    any number of recoveries that were interrupted between two disk writes, ends
    with the same blocks. *)
Theorem recovery_idempotent st size D D' :
  1 < c_nbuf -> 0 <= st -> st + size <= 2 ^ 31 -> disk_wf st size D -> crashed st size D D' ->
  exists l c t l' c' t', reboot st size D = Done tt (Logstate l c) t /\
    reboot st size D' = Done tt (Logstate l' c') t' /\ logged l' = [] /\
    hdr_n (v_disk (bc_view c') st) = 0 /\
    forall b, home st size b -> v_disk (bc_view c') b = v_disk (bc_view c) b /\
      v_disk (bc_view c) b = logical st D b.
Proof.
  intros Hnb Hst Hsz Hw Hcr.
  destruct (crashed_logical _ _ _ _ Hnb Hst Hsz Hw Hcr) as [Hw' El'].
  destruct (reboot_logical st size D) as (l & c & t & E & _ & _ & _ & _ & Hb); [done..|].
  destruct (reboot_logical st size D') as (l' & c' & t' & E' & _ & _ & Hlg & Hz & Hb'); [done..|].
  exists l, c, t, l', c', t'. split_and!; [done..|]. intros b Hhome.
  rewrite Hb', Hb, El' by done. done.
Qed.

(** After [commit] returns, the logged blocks are on disk with their current
    contents and no longer pinned, the in-memory log and the on-disk header are
    empty, and no block outside the log changed in the cache. *)
Theorem commit_durable l c :
  log_ok l -> 0 < lh_n (lg_lh l) -> bc_inv c -> commit_ready l (bc_view c) ->
  wp commit (Logstate l c) (fun _ s _ =>
    let v := bc_view c in let v' := bc_view (ls_cache s) in
    bc_inv (ls_cache s) /\ logged (ls_log s) = [] /\ hdr_n (v_disk v' (lg_start l)) = 0 /\
    (forall b, b ∈ logged l -> v_disk v' b = v_content v b /\ v_refs v' b = 0) /\
    (forall b, home (lg_start l) (lg_size l) b -> v_content v' b = v_content v b) /\
    v_free v' = v_free v + lh_n (lg_lh l)).
Proof.
  intros Hl Hn Hc Hr. eapply wp_mono; [by apply commit_spec|].
  intros _ s t (c' & -> & I & T & VD & VC & VH & VR & VF). rewrite T in *. simpl.
  set (st := lg_start l) in *. pose proof (lo_size _ Hl). pose proof (lo_n _ Hl).
  assert (Hout : forall b D, home st (lg_size l) b ->
    apply_writes (commit_writes st (logged l) (v_content (bc_view c))) D b =
    if bool_decide (b ∈ logged l) then v_content (bc_view c) b else D b).
  { intros b D Hb. unfold commit_writes. assert (b <> st) by (intros ->; apply Hb; lia).
    rewrite apply_writes_app, apply_writes_cons, apply_writes_app. simpl.
    rewrite fset_ne, apply_trans by (done || apply Hl). case_bool_decide; [done|].
    rewrite fset_ne, apply_writes_notin; [done| |done].
    intros Hx%log_writes_fst. pose proof (length_logged _ Hl). apply Hb. unfold st in *. lia. }
  split_and!; [done|done| | | |by rewrite VF, length_logged].
  - rewrite VD. unfold commit_writes. rewrite apply_writes_app, apply_writes_cons, apply_writes_app.
    simpl. rewrite fset_eq. by apply hdr_n_empty, block_ok_hdr_image, content_ok.
  - intros b Hb. rewrite VD, VR, Hout, bool_decide_true by (done || by apply logged_home). done.
  - intros b Hb. rewrite VC, Hout by done. by case_bool_decide.
Qed.
End run.

(** ** A transaction that changes block 50 *)

Definition demo_disk : Z -> block := fun _ => zero_block.
Definition demo_log : log := Log 2 31 0 1 (Logheader 1 (50 :: replicate 29 0)).
Definition demo_block : block := replicate 1024 7.

Lemma demo_log_ok : log_ok demo_log.
Proof.
  split; try done; try (simpl; lia).
  - apply NoDup_singleton.
  - intros b Hb%list_elem_of_singleton. subst. unfold in_log. simpl. lia.
Qed.

Lemma demo_ready (v : view) :
  v = View (fset demo_disk 50 demo_block) demo_disk (fset (fun _ => 0) 50 1) (fun _ => false) 29 ->
  commit_ready demo_log v.
Proof.
  intros ->. split; try done.
  - intros b Hb. unfold in_log in Hb. simpl in *. apply fset_ne. lia.
  - intros b Hb%list_elem_of_singleton. by subst.
Qed.

Lemma demo_disk_wf : disk_wf 2 31 demo_disk.
Proof. apply disk_wf_empty; [intros; apply block_ok_zero|by vm_compute|lia]. Qed.

Lemma commit_atomic_witness :
  let _ := bio_cache 1 in
  exists c s t, commit (Logstate demo_log c) = Done tt s t /\
    exists l2 c2 t2, reboot 2 31 (apply_writes (take 2 (disk_writes t)) (v_disk (bc_view c)))
        = Done tt (Logstate l2 c2) t2 /\
      v_disk (bc_view c2) 50 = v_content (bc_view c) 50.
Proof.
  intros ?. destruct (pinned_state demo_disk 50 demo_block) as (c & I & V);
    [done|intros; apply block_ok_zero|done|]. exists c.
  destruct (commit_atomic demo_log c) as (s & t & E & Hcr);
    [done|apply demo_log_ok|done|done|by apply demo_ready|rewrite V; by vm_compute|].
  exists s, t. split; [done|].
  destruct (Hcr 2%nat _ (crashed_refl _ _ _)) as (l2 & c2 & t2 & E2 & _ & _ & Hb).
  exists l2, c2, t2. split; [done|]. rewrite Hb by (unfold home; simpl; lia). by vm_compute.
Defined.

Lemma recovery_idempotent_witness :
  let _ := bio_cache 1 in
  exists l c t, reboot 2 31 demo_disk = Done tt (Logstate l c) t /\ v_disk (bc_view c) 50 = zero_block.
Proof.
  intros ?. destruct (recovery_idempotent 2 31 demo_disk demo_disk)
    as (l & c & t & l' & c' & t' & E & _ & _ & _ & Hb);
    [done|lia|lia|apply demo_disk_wf|constructor|].
  exists l, c, t. split; [done|]. destruct (Hb 50) as [_ ->]; [unfold home; lia|]. by vm_compute.
Defined.

Lemma commit_durable_witness :
  let _ := bio_cache 1 in
  exists c, wp commit (Logstate demo_log c) (fun _ s _ => v_disk (bc_view (ls_cache s)) 50 = demo_block).
Proof.
  intros ?. destruct (pinned_state demo_disk 50 demo_block) as (c & I & V);
    [done|intros; apply block_ok_zero|done|]. exists c.
  eapply wp_mono; [apply (commit_durable demo_log c);
    [apply demo_log_ok|done|done|by apply demo_ready]|].
  intros _ s t (_ & _ & _ & Hb & _). destruct (Hb 50) as [-> _]; [apply list_elem_of_here|].
  rewrite V. by vm_compute.
Defined.
