(* ===== verification/LogOps.v ===== *)
(** * The log: reservation and absorption

    [log_write] adds a block to the running transaction once, pinning it, and
    [begin_op] admits an operation only while the log has room for
    [MAXOPBLOCKS] blocks of every operation in progress.  The operations in
    progress are kept as a list of the numbers of blocks each has logged. *)

From Stdlib Require Import ZArith Lia FunctionalExtensionality.
From stdpp Require Import base list sets strings numbers relations.
From S2P Require Import Prelude Blocks BlockCache Log LogProofs LogCrash Bio BioProofs.

(** ** [log_write] *)

Definition absorb (b : Z) (l : log) : log :=
  let i := find_slot (Z.to_nat LOGSIZE) 0 b (lg_lh l) in
  let bl := zset (lh_block (lg_lh l)) i b in
  set_lh (Logheader (if i =? lh_n (lg_lh l) then lh_n (lg_lh l) + 1 else lh_n (lg_lh l)) bl) l.

Lemma find_slot_spec fuel i b h :
  0 <= i <= lh_n h -> (Z.to_nat (lh_n h - i) <= fuel)%nat ->
  let j := find_slot fuel i b h in
  i <= j <= lh_n h /\ (forall k, i <= k < j -> u32 (default 0 (zget (lh_block h) k)) <> b) /\
  (j < lh_n h -> u32 (default 0 (zget (lh_block h) j)) = b).
Proof.
  revert i. induction fuel as [|fuel IH]; intros i Hi Hf; simpl.
  { split_and!; lia. }
  destruct (Z.ltb_spec i (lh_n h)), (Z.eqb_spec (u32 (default 0 (zget (lh_block h) i))) b);
    simpl; try (split_and!; intros; lia || done).
  destruct (IH (i + 1)) as (A & B & C); [lia|lia|]. split_and!; [lia|lia| |exact C].
  intros k Hk. destruct (decide (k = i)) as [->|]; [done|]. apply B. lia.
Qed.

Arguments find_slot : simpl never.

Lemma log_slot l b : log_ok l -> 0 <= b < 2 ^ 31 ->
  let i := find_slot (Z.to_nat LOGSIZE) 0 b (lg_lh l) in
  (b ∈ logged l /\ 0 <= i < lh_n (lg_lh l) /\ zget (lh_block (lg_lh l)) i = Some b) \/
  (b ∉ logged l /\ i = lh_n (lg_lh l)).
Proof.
  intros Hl Hb i. pose proof (lo_n _ Hl).
  destruct (find_slot_spec (Z.to_nat LOGSIZE) 0 b (lg_lh l)) as (A & B & C); [lia|lia|].
  fold i in A, B, C.
  assert (Hval : forall k x, zget (lh_block (lg_lh l)) k = Some x -> x ∈ logged l ->
    u32 (default 0 (zget (lh_block (lg_lh l)) k)) = x).
  { intros k x E Hin. rewrite E. apply wrap_small. apply (lo_blocks _ Hl) in Hin. lia. }
  destruct (decide (i = lh_n (lg_lh l))) as [E|Hne]; [right|left].
  - split; [|done]. intros [k Hk]%list_elem_of_lookup.
    pose proof (lookup_lt_Some _ _ _ Hk) as Hlt.
    pose proof (length_logged _ Hl).
    destruct (logged_zget l (Z.of_nat k)) as (x & Hx & Hx'); [done|lia|].
    rewrite Nat2Z.id, Hk in Hx'. injection Hx' as <-.
    apply (B (Z.of_nat k)); [lia|]. apply Hval; [done|]. by eapply list_elem_of_lookup_2.
  - destruct (logged_zget l i) as (x & Hx & Hx'); [done|lia|].
    assert (Hin : x ∈ logged l) by (by eapply list_elem_of_lookup_2).
    assert (x = b) as -> by (rewrite <- (Hval _ _ Hx Hin); apply C; lia). split_and!; try done; lia.
Qed.

Lemma logged_absorb l b : log_ok l -> 0 <= b < 2 ^ 31 -> lh_n (lg_lh l) < LOGSIZE ->
  logged (absorb b l) = if bool_decide (b ∈ logged l) then logged l else logged l ++ [b].
Proof.
  intros Hl Hb Hn. pose proof (lo_n _ Hl). pose proof (lo_len _ Hl).
  unfold absorb. destruct (log_slot l b Hl Hb) as [(Hin & Hi & E)|(Hin & E)].
  - rewrite bool_decide_true, zset_id, (proj2 (Z.eqb_neq _ _)) by (done || lia). done.
  - rewrite bool_decide_false, E, Z.eqb_refl by done. unfold logged. simpl.
    unfold zset. rewrite (proj2 (Z.leb_le 0 (lh_n (lg_lh l)))) by lia.
    replace (Z.to_nat (lh_n (lg_lh l) + 1)) with (Datatypes.S (Z.to_nat (lh_n (lg_lh l)))) by lia.
    rewrite (take_S_r _ _ b) by (apply list_lookup_insert_eq; lia).
    by rewrite take_insert_ge by lia.
Qed.

Lemma log_ok_absorb l b : log_ok l -> 0 <= b < 2 ^ 31 -> ~ in_log l b ->
  lh_n (lg_lh l) < LOGSIZE -> lh_n (lg_lh l) < lg_size l - 1 -> log_ok (absorb b l).
Proof.
  intros Hl Hb Hout Hn Hs. pose proof (lo_n _ Hl).
  assert (Hlg := logged_absorb l b Hl Hb Hn). split; try apply Hl.
  - simpl. rewrite length_zset. apply Hl.
  - simpl. case_bool; lia.
  - simpl. case_bool; lia.
  - rewrite Hlg. case_bool_decide; [apply Hl|]. apply list.NoDup_app.
    split_and!; [apply Hl| |apply NoDup_singleton]. intros x Hx ->%list_elem_of_singleton. done.
  - intros x. rewrite Hlg. case_bool_decide; [apply Hl|].
    intros [Hx| ->%list_elem_of_singleton]%elem_of_app; [by apply Hl|done].
Qed.

Section run.
Context {S : Type} `{HL : BlockCacheLaws S}.

Lemma log_write_run l c h b :
  log_ok l -> bc_inv c -> bc_handle c h b -> 0 <= b < 2 ^ 31 ->
  v_refs (bc_view c) b < 2 ^ 32 - 1 ->
  lh_n (lg_lh l) < LOGSIZE -> lh_n (lg_lh l) < lg_size l - 1 -> 0 < lg_outstanding l ->
  wp (log_write h) (Logstate l c) (fun _ s t => t = [] /\ ls_log s = absorb b l /\ bc_inv (ls_cache s) /\
    bc_view (ls_cache s) = (if bool_decide (b ∈ logged l) then bc_view c else view_bpin b (bc_view c)) /\
    (forall h' n, bc_handle c h' n -> bc_handle (ls_cache s) h' n)).
Proof.
  intros Hl Hc Hh Hb Hr Hn Hs Ho. pose proof (lo_n _ Hl). pose proof (lo_len _ Hl).
  unfold log_write. apply wp_bind, wp_the_log.
  rewrite (proj2 (Z.leb_gt LOGSIZE _)), (proj2 (Z.leb_gt (lg_size l - 1) _)) by done.
  rewrite (proj2 (Z.ltb_ge _ 1)) by lia. cbn [orb].
  apply wp_bind, wp_on_cache. unfold wp at 1. rewrite (blockno_ok c h b) by done.
  rewrite swrap_small by lia. unfold absorb.
  apply wp_bind. destruct (log_slot l b Hl Hb) as [(Hin & Hi & E)|(Hin & E)].
  - apply wp_lh_set; [lia|]. rewrite (proj2 (Z.eqb_neq _ _)) in * by lia.
    rewrite bool_decide_true in * by done. apply wp_ret. by split_and!.
  - rewrite E, Z.eqb_refl, bool_decide_false in * by done. apply wp_lh_set; [lia|].
    apply wp_bind, wp_on_cache. eapply wp_mono; [by apply (bpin_ok c h b)|].
    intros _ c' t (I & -> & V & K). cbn beta. apply wp_upd_log. by split_and!.
Qed.

(** [log_write] on a buffer the caller holds, with room in the log, records
    its block in the transaction exactly once: a block already logged is
    absorbed and nothing changes, a new one is appended and its buffer pinned.
    The log stays well formed, and no disk write is made. *)
Theorem log_write_absorbs l c h b :
  log_ok l -> bc_inv c -> bc_handle c h b -> 0 <= b < 2 ^ 31 -> ~ in_log l b ->
  v_refs (bc_view c) b < 2 ^ 32 - 1 ->
  lh_n (lg_lh l) < LOGSIZE -> lh_n (lg_lh l) < lg_size l - 1 -> 0 < lg_outstanding l ->
  wp (log_write h) (Logstate l c) (fun _ s t => t = [] /\ log_ok (ls_log s) /\ bc_inv (ls_cache s) /\
    logged (ls_log s) = (if bool_decide (b ∈ logged l) then logged l else logged l ++ [b]) /\
    bc_view (ls_cache s) = (if bool_decide (b ∈ logged l) then bc_view c else view_bpin b (bc_view c)) /\
    (forall h' n, bc_handle c h' n -> bc_handle (ls_cache s) h' n)).
Proof.
  intros Hl Hc Hh Hb Hout Hr Hn Hs Ho.
  pose proof (log_ok_absorb l b Hl Hb Hout Hn Hs) as Hok. pose proof (logged_absorb l b Hl Hb Hn) as Hlg.
  eapply wp_mono; [by apply (log_write_run l c h b)|].
  intros _ s t (-> & -> & I & V & K). by split_and!.
Qed.

(** A cache in which the caller holds block [b]. *)
Lemma held_state D b : 0 < c_nbuf -> (forall n, block_ok (D n)) ->
  exists c h, bc_inv c /\ bc_handle c h b /\ bc_view c = view_bread b (view_boot D c_nbuf).
Proof.
  intros Hn HD. destruct (boot_ok D HD) as [I0 V0].
  assert (E : wp (c_bread b) (c_boot D) (fun h c _ =>
    bc_inv c /\ bc_handle c h b /\ bc_view c = view_bread b (view_boot D c_nbuf))).
  { eapply wp_mono; [apply bread_ok; rewrite ?V0; simpl; (done || lia)|].
    intros h c t (I & _ & V & G & _). by rewrite V0 in V. }
  apply wp_done in E as (h & c & _ & _ & E). eauto.
Qed.

(** ** Operations in progress *)

(** Code that leaves [log] as it is. *)
Definition keeps_log {A} (m : M (logstate S) A) : Prop :=
  forall s a s' t, m s = Done a s' t -> ls_log s' = ls_log s.

Lemma keeps_ret {A} (a : A) : keeps_log (ret a).
Proof. intros s ? ? ? [= <- <- <-]. done. Qed.

Lemma keeps_bind {A B} (m : M (logstate S) A) (k : A -> M (logstate S) B) :
  keeps_log m -> (forall a, keeps_log (k a)) -> keeps_log (bind m k).
Proof.
  intros Hm Hk s b s' t E. inv_bind E. rewrite (Hk _ _ _ _ _ H1). by eapply Hm.
Qed.

Lemma keeps_on_cache {A} (m : M S A) : keeps_log (on_cache m).
Proof.
  intros s a s' t. unfold on_cache, lift. destruct (m _); try done. by intros [= <- <- <-].
Qed.

Lemma keeps_the_log : keeps_log (the_log (S := S)).
Proof. by intros s a s' t [= <- <- <-]. Qed.

Lemma keeps_lh_get i : keeps_log (lh_get (S := S) i).
Proof.
  apply keeps_bind; [apply keeps_the_log|]. intros l. destruct (zget _ _); [apply keeps_ret|done].
Qed.

Lemma keeps_for_loop n lo body :
  (forall i, keeps_log (body i)) -> keeps_log (for_loop n lo body).
Proof.
  intros Hb. revert lo. induction n as [|n IH]; intros lo; simpl; [apply keeps_ret|].
  by apply keeps_bind.
Qed.

Ltac keeps := repeat (first [apply keeps_ret | apply keeps_on_cache | apply keeps_the_log
  | apply keeps_lh_get | apply keeps_bind; [|intros ?] | apply keeps_for_loop; intros ? | case_match]).

Lemma keeps_write_log : keeps_log (write_log (S := S)).
Proof. unfold write_log. keeps. Qed.
Lemma keeps_write_head : keeps_log (write_head (S := S)).
Proof. unfold write_head. keeps. Qed.
Lemma keeps_install_trans r : keeps_log (install_trans (S := S) r).
Proof. unfold install_trans. keeps. Qed.

Lemma commit_log s s' t :
  commit (S := S) s = Done tt s' t ->
  ls_log s' = if 0 <? lh_n (lg_lh (ls_log s)) then emptied (ls_log s) else ls_log s.
Proof.
  unfold commit. intros E.
  apply bind_Done_inv in E as (l & s1 & t1 & t2 & [= <- <- <-] & E & ->). destruct (0 <? _).
  - apply bind_Done_inv in E as (_ & s1 & t1 & t3 & E1%keeps_write_log & E & ->).
    apply bind_Done_inv in E as (_ & s2 & t2 & t4 & E2%keeps_write_head & E & ->).
    apply bind_Done_inv in E as (_ & s3 & t5 & t6 & E3%keeps_install_trans & E & ->).
    apply bind_Done_inv in E as (_ & s4 & t7 & t8 & [= <- <-] & E%keeps_write_head & ->).
    rewrite E. simpl. by rewrite E3, E2, E1.
  - by injection E as <- <-.
Qed.

(** One call of the log by some operation, or anything that happens in the
    cache.  [ws] gives, for each operation in progress, the number of
    [log_write]s it has made; an operation makes at most [MAXOPBLOCKS]. *)
Inductive op_step : list Z * logstate S -> list Z * logstate S -> Prop :=
| op_begin ws s s' t : begin_op s = Done tt s' t -> op_step (ws, s) (ws ++ [0], s')
| op_write ws1 w ws2 h s s' t : w < MAXOPBLOCKS -> log_write h s = Done tt s' t ->
    op_step (ws1 ++ w :: ws2, s) (ws1 ++ (w + 1) :: ws2, s')
| op_end ws1 w ws2 s s' t : end_op s = Done tt s' t ->
    op_step (ws1 ++ w :: ws2, s) (ws1 ++ ws2, s')
| op_cache ws l c c' : op_step (ws, Logstate l c) (ws, Logstate l c').

Definition ops_start (size : Z) (x : list Z * logstate S) : Prop :=
  x.1 = [] /\ let l := ls_log x.2 in lg_outstanding l = 0 /\ lg_committing l = 0 /\
  lh_n (lg_lh l) = 0 /\ lg_size l = size /\ Z.of_nat (length (lh_block (lg_lh l))) = LOGSIZE.

(** What the operations in progress may still log. *)
Definition budget (ws : list Z) : Z := foldr (fun w a => MAXOPBLOCKS - w + a) 0 ws.

Lemma budget_app ws ws' : budget (ws ++ ws') = budget ws + budget ws'.
Proof. induction ws as [|w ws IH]; simpl; [done|]. rewrite IH. lia. Qed.

Record ops_inv (size : Z) (x : list Z * logstate S) : Prop := {
  oi_out : lg_outstanding (ls_log x.2) = Z.of_nat (length x.1);
  oi_com : lg_committing (ls_log x.2) = 0;
  oi_n : 0 <= lh_n (lg_lh (ls_log x.2));
  oi_room : lh_n (lg_lh (ls_log x.2)) + budget x.1 <= LOGSIZE;
  oi_ws : Forall (fun w => 0 <= w <= MAXOPBLOCKS) x.1;
  oi_size : lg_size (ls_log x.2) = size;
  oi_len : Z.of_nat (length (lh_block (lg_lh (ls_log x.2)))) = LOGSIZE
}.

Lemma budget_bounds ws : Forall (fun w => 0 <= w <= MAXOPBLOCKS) ws ->
  0 <= budget ws <= MAXOPBLOCKS * Z.of_nat (length ws).
Proof.
  induction 1 as [|w ws Hw _ IH]; simpl; [lia|]. unfold MAXOPBLOCKS in *. lia.
Qed.

Lemma begin_op_log s s' t : begin_op (S := S) s = Done tt s' t ->
  let l := ls_log s in lg_committing l = 0 /\
  lh_n (lg_lh l) + (lg_outstanding l + 1) * MAXOPBLOCKS <= LOGSIZE /\
  s' = Logstate (set_outstanding (lg_outstanding l + 1) l) (ls_cache s).
Proof.
  unfold begin_op, bind, the_log, gets. simpl.
  destruct (Z.eqb_spec (lg_committing (ls_log s)) 0); simpl; [|done].
  destruct (Z.ltb_spec LOGSIZE (lh_n (lg_lh (ls_log s)) + (lg_outstanding (ls_log s) + 1) * MAXOPBLOCKS));
    simpl; [done|]. intros [= <-]. done.
Qed.

Lemma log_write_log h s s' t : log_write (S := S) h s = Done tt s' t ->
  let l := ls_log s in let l' := ls_log s' in
  lg_outstanding l' = lg_outstanding l /\ lg_committing l' = lg_committing l /\
  lg_size l' = lg_size l /\ length (lh_block (lg_lh l')) = length (lh_block (lg_lh l)) /\
  lh_n (lg_lh l) <= lh_n (lg_lh l') <= lh_n (lg_lh l) + 1.
Proof.
  unfold log_write. intros E.
  apply bind_Done_inv in E as (l & s1 & t1 & t2 & [= <- <- <-] & E & ->).
  case_match; [done|]. case_match; [done|].
  apply bind_Done_inv in E as (b & s1 & t1 & t3 & E1%keeps_on_cache & E & ->).
  apply bind_Done_inv in E as ([] & s2 & t4 & t5 & E2 & E & ->).
  unfold lh_set in E2. apply bind_Done_inv in E2 as (l & s3 & t6 & t7 & [= <- <- <-] & E2 & ->).
  destruct (zget _ _); [|done]. injection E2 as <- <-. destruct (_ =? _).
  - apply bind_Done_inv in E as (_ & s4 & t6 & t8 & E4%keeps_on_cache & E & ->).
    injection E as <- <-. simpl. rewrite E4. simpl. rewrite E1, length_zset. split_and!; try done; lia.
  - injection E as <- <-. simpl. rewrite E1, length_zset. split_and!; try done; lia.
Qed.

Lemma end_op_log s s' t : end_op (S := S) s = Done tt s' t ->
  let l := ls_log s in let l' := ls_log s' in let o := lg_outstanding l - 1 in
  lg_outstanding l' = o /\ lg_committing l' = 0 /\ lg_size l' = lg_size l /\
  lh_block (lg_lh l') = lh_block (lg_lh l) /\
  lh_n (lg_lh l') = if (o =? 0) && (0 <? lh_n (lg_lh l)) then 0 else lh_n (lg_lh l).
Proof.
  unfold end_op. intros E.
  apply bind_Done_inv in E as (l & s0 & ta & tb & [= <- <- <-] & E & ->).
  apply bind_Done_inv in E as (_ & s1 & tc & td & [= <- <-] & E & ->).
  destruct (Z.eqb_spec (lg_committing (ls_log s)) 0) as [Hc|]; [|done].
  apply bind_Done_inv in E as (_ & s2 & te & tf & [= <- <-] & E & ->).
  destruct (lg_outstanding (ls_log s) - 1 =? 0) eqn:Eo; simpl in E.
  - apply bind_Done_inv in E as (_ & s3 & tg & th & [= <- <-] & E & ->).
    apply bind_Done_inv in E as ([] & s4 & ti & tj & E1%commit_log & E & ->).
    apply bind_Done_inv in E as (_ & s5 & tk & tm & [= <- <-] & E & ->).
    injection E as <- <-. simpl in *. rewrite E1. destruct (0 <? _); done.
  - apply bind_Done_inv in E as (_ & s3 & tg & th & [= <- <-] & E & ->).
    injection E as <- <-. done.
Qed.

Lemma ops_inv_step size x y : ops_inv size x -> op_step x y -> ops_inv size y.
Proof.
  intros Hi Hst. destruct Hst as [ws s s' t E|ws1 w ws2 h s s' t Hw E|ws1 w ws2 s s' t E|ws l c c'];
    destruct Hi as [Ho Hc Hn Hr Hf Hz Hlen]; simpl in *.
  - apply begin_op_log in E as (_ & Hg & ->). pose proof (budget_bounds _ Hf).
    split; simpl; try done.
    + rewrite length_app. simpl. lia.
    + rewrite budget_app. simpl. unfold MAXOPBLOCKS in *. lia.
    + apply Forall_app. split; [done|]. constructor; [|constructor]. unfold MAXOPBLOCKS. lia.
  - apply log_write_log in E as (E1 & E2 & E3 & E4 & E5). rewrite budget_app in Hr. simpl in Hr.
    apply Forall_app in Hf as [Hf1 Hf2]. inversion Hf2; subst.
    split; simpl; rewrite ?E1, ?E2, ?E3, ?E4, ?budget_app; simpl; try done; try lia.
    + rewrite Ho, !length_app. done.
    + apply Forall_app. split; [done|]. constructor; [lia|done].
  - apply end_op_log in E as (E1 & E2 & E3 & E4 & E5). rewrite budget_app in Hr. simpl in Hr.
    apply Forall_app in Hf as [Hf1 Hf2]. inversion Hf2; subst.
    split; simpl; rewrite ?E1, ?E2, ?E3, ?E4, ?E5, ?budget_app; simpl; try done.
    + rewrite Ho, !length_app. simpl. lia.
    + case_match; lia.
    + pose proof (budget_bounds _ Hf1). pose proof (budget_bounds ws2 ltac:(done)).
      destruct (_ && _) eqn:Eb; [|unfold MAXOPBLOCKS in *; lia].
      apply andb_prop in Eb as [Eb _]. apply Z.eqb_eq in Eb.
      rewrite Ho, length_app in Eb. simpl in Eb.
      destruct ws1, ws2; simpl in *; unfold LOGSIZE, MAXOPBLOCKS; lia.
    + by apply Forall_app.
  - by split.
Qed.

Lemma ops_inv_reachable size x y : ops_start size x -> rtc op_step x y -> ops_inv size y.
Proof.
  intros Hs Hr. assert (Hi : ops_inv size x).
  { destruct x as [ws s], Hs as (E0 & E1 & E2 & E3 & E4 & E5). simpl in *. subst.
    split; simpl; rewrite ?E3; try done; unfold LOGSIZE, MAXOPBLOCKS; lia. }
  clear Hs. induction Hr as [|x y z Hst _ IH]; [done|]. apply IH. by eapply ops_inv_step.
Qed.

(** C24: The reservation of [begin_op] is enough, on a log of more than [LOGSIZE]
    blocks: in every state reached by operations that each log at most
    [MAXOPBLOCKS] blocks, an operation that still has part of its share can
    [log_write] any buffer it holds; it never meets the panics
    [too big a transaction] and [log_write outside of trans], nor [end_op] the
    panic [log.committing]. *)
Theorem log_space_reserved size x ws1 w ws2 l c h b :
  ops_start size x -> rtc op_step x (ws1 ++ w :: ws2, Logstate l c) ->
  LOGSIZE < size -> w < MAXOPBLOCKS -> bc_inv c -> bc_handle c h b ->
  0 <= b < 2 ^ 31 -> v_refs (bc_view c) b < 2 ^ 32 - 1 ->
  lg_committing l = 0 /\
  wp (log_write h) (Logstate l c) (fun _ s _ => lh_n (lg_lh (ls_log s)) <= LOGSIZE).
Proof.
  intros Hs Hr Hsz Hw Hc Hh Hb Hrf.
  destruct (ops_inv_reachable _ _ _ Hs Hr) as [Ho Hcm Hn Hroom Hf Hz Hlen]. simpl in *.
  split; [done|]. rewrite budget_app in Hroom. simpl in Hroom. rewrite length_app in Ho. simpl in Ho.
  apply Forall_app in Hf as [Hf1 Hf2]. inversion Hf2 as [|? ? _ Hf3]; subst.
  pose proof (budget_bounds _ Hf1). pose proof (budget_bounds _ Hf3).
  unfold log_write. apply wp_bind, wp_the_log.
  rewrite (proj2 (Z.leb_gt LOGSIZE _)), (proj2 (Z.leb_gt (lg_size l - 1) _)) by lia.
  rewrite (proj2 (Z.ltb_ge _ 1)) by lia. cbn [orb].
  apply wp_bind, wp_on_cache. unfold wp at 1. rewrite (blockno_ok c h b) by done.
  destruct (find_slot_spec (Z.to_nat LOGSIZE) 0 b (lg_lh l)) as (A & _); [lia|lia|].
  apply wp_bind, wp_lh_set; [lia|]. case_match.
  - apply wp_bind, wp_on_cache. eapply wp_mono; [by apply (bpin_ok c h b)|].
    intros _ c' t _. apply wp_upd_log. simpl. lia.
  - apply wp_ret. simpl. lia.
Qed.
End run.

(** ** A log of [LOGSIZE] blocks, as mkfs makes it *)

(** Three operations begin; block [100 + i] is read, logged and released for
    each [i < n]. *)
Definition three_ops (n : nat) : M (logstate bcache) unit :=
  let _ := bio_cache 1 in
  begin_op ;;; begin_op ;;; begin_op ;;;
  for_loop n 0 (fun i =>
    let* h := on_cache (c_bread (100 + i)) in
    log_write h ;;;
    on_cache (c_brelse h)).

Definition mkfs_log : log := Log 2 LOGSIZE 0 0 (Logheader 0 (replicate 30 0)).


Lemma log_space_reserved_witness :
  let _ := bio_cache 1 in
  exists c h, wp (log_write h) (Logstate (Log 2 31 1 0 (Logheader 0 (replicate 30 0))) c)
    (fun _ s _ => lh_n (lg_lh (ls_log s)) <= LOGSIZE).
Proof.
  intros ?. destruct (held_state demo_disk 50) as (c & h & I & G & V);
    [done|intros; apply block_ok_zero|].
  exists c, h. eapply (log_space_reserved 31
    ([], Logstate (Log 2 31 0 0 (Logheader 0 (replicate 30 0))) c) [] 0 [] _ c h 50);
    try done; [|rewrite V; by vm_compute].
  apply rtc_once. by apply (op_begin []) with (t := []).
Defined.

Lemma log_write_absorbs_witness :
  let _ := bio_cache 1 in
  exists c h, wp (log_write h) (Logstate (Log 2 31 1 0 (Logheader 0 (replicate 30 0))) c)
    (fun _ s _ => logged (ls_log s) = [50]).
Proof.
  intros ?. destruct (held_state demo_disk 50) as (c & h & I & G & V);
    [done|intros; apply block_ok_zero|].
  exists c, h. eapply wp_mono; [apply (log_write_absorbs _ c h 50); try done|].
  - split; try done; try (simpl; lia); [constructor|]. intros n Hb. by apply elem_of_nil in Hb.
  - unfold in_log. simpl. lia.
  - rewrite V. by vm_compute.
  - by intros _ s t' (_ & _ & _ & Hlg & _).
Defined.
