(* ===== verification/Virtio.v ===== *)
(** * kernel/virtio_disk.c: the disk driver

    The driver shares with the device a table of [NUM] descriptors and two rings:
    in [avail] it puts the heads of the chains of descriptors that make up a request,
    in [used] the device returns them.  An address stored in a descriptor is one of
    the objects the driver points to ([vaddr]); the buffers are those of kernel/bio.c, by
    index, with the fields the driver uses.  [vdisk_lock] makes the code between two sleeps
    atomic; [virtio_disk_rw] sleeps while fewer than three descriptors are free and until
    the interrupt handler has cleared [b->disk]. *)

From Stdlib Require Import ZArith Lia.
From stdpp Require Import base list strings numbers.
From S2P Require Import Prelude Blocks.

(** ** kernel/virtio.h *)

Definition VIRTIO_MMIO_MAGIC_VALUE : Z := 0x000.
Definition VIRTIO_MMIO_VERSION : Z := 0x004.
Definition VIRTIO_MMIO_DEVICE_ID : Z := 0x008.
Definition VIRTIO_MMIO_VENDOR_ID : Z := 0x00c.
Definition VIRTIO_MMIO_DEVICE_FEATURES : Z := 0x010.
Definition VIRTIO_MMIO_DRIVER_FEATURES : Z := 0x020.
Definition VIRTIO_MMIO_QUEUE_SEL : Z := 0x030.
Definition VIRTIO_MMIO_QUEUE_NUM_MAX : Z := 0x034.
Definition VIRTIO_MMIO_QUEUE_NUM : Z := 0x038.
Definition VIRTIO_MMIO_QUEUE_READY : Z := 0x044.
Definition VIRTIO_MMIO_QUEUE_NOTIFY : Z := 0x050.
Definition VIRTIO_MMIO_INTERRUPT_STATUS : Z := 0x060.
Definition VIRTIO_MMIO_INTERRUPT_ACK : Z := 0x064.
Definition VIRTIO_MMIO_STATUS : Z := 0x070.
Definition VIRTIO_MMIO_QUEUE_DESC_LOW : Z := 0x080.
Definition VIRTIO_MMIO_QUEUE_DESC_HIGH : Z := 0x084.
Definition VIRTIO_MMIO_DRIVER_DESC_LOW : Z := 0x090.
Definition VIRTIO_MMIO_DRIVER_DESC_HIGH : Z := 0x094.
Definition VIRTIO_MMIO_DEVICE_DESC_LOW : Z := 0x0a0.
Definition VIRTIO_MMIO_DEVICE_DESC_HIGH : Z := 0x0a4.

Definition VIRTIO_CONFIG_S_ACKNOWLEDGE : Z := 1.
Definition VIRTIO_CONFIG_S_DRIVER : Z := 2.
Definition VIRTIO_CONFIG_S_DRIVER_OK : Z := 4.
Definition VIRTIO_CONFIG_S_FEATURES_OK : Z := 8.

Definition VIRTIO_BLK_F_RO : Z := 5.
Definition VIRTIO_BLK_F_SCSI : Z := 7.
Definition VIRTIO_BLK_F_CONFIG_WCE : Z := 11.
Definition VIRTIO_BLK_F_MQ : Z := 12.
Definition VIRTIO_F_ANY_LAYOUT : Z := 27.
Definition VIRTIO_RING_F_INDIRECT_DESC : Z := 28.
Definition VIRTIO_RING_F_EVENT_IDX : Z := 29.

Definition NUM : Z := 8.
Definition VRING_DESC_F_NEXT : Z := 1.
Definition VRING_DESC_F_WRITE : Z := 2.
Definition VIRTIO_BLK_T_IN : Z := 0.
Definition VIRTIO_BLK_T_OUT : Z := 1.

(** The objects a descriptor can point to: [&disk.ops[i]], [b->data],
    [&disk.info[i].status]. *)
Inductive vaddr := VNull | VOps (i : Z) | VData (b : Z) | VStatus (i : Z).

Record virtq_desc := VirtqDesc { dc_addr : vaddr; dc_len : Z; dc_flags : Z; dc_next : Z }.
Record virtq_avail := VirtqAvail { av_idx : Z; av_ring : list Z }.
(** The field [len] of a used entry is not looked at. *)
Record virtq_used := VirtqUsed { us_idx : Z; us_ring : list Z }.
Record virtio_blk_req := VirtioBlkReq { rq_type : Z; rq_reserved : Z; rq_sector : Z }.

(** ** The state *)

(** [disk.info[i]] *)
Record vinfo := Vinfo { in_b : option Z; in_status : Z }.
(** What the driver uses of [struct buf]. *)
Record vbuf := Vbuf { vb_blockno : Z; vb_disk : Z; vb_data : list Z }.

Record disk := Disk {
  dk_desc : list virtq_desc;
  dk_avail : virtq_avail;
  dk_used : virtq_used;
  dk_free : list Z;
  dk_used_idx : Z;
  dk_info : list vinfo;
  dk_ops : list virtio_blk_req;
  dk_bufs : list vbuf
}.

Definition with_desc (l : list virtq_desc) (d : disk) : disk :=
  Disk l (dk_avail d) (dk_used d) (dk_free d) (dk_used_idx d) (dk_info d) (dk_ops d) (dk_bufs d).
Definition with_avail (a : virtq_avail) (d : disk) : disk :=
  Disk (dk_desc d) a (dk_used d) (dk_free d) (dk_used_idx d) (dk_info d) (dk_ops d) (dk_bufs d).
Definition with_used (u : virtq_used) (d : disk) : disk :=
  Disk (dk_desc d) (dk_avail d) u (dk_free d) (dk_used_idx d) (dk_info d) (dk_ops d) (dk_bufs d).
Definition with_free (l : list Z) (d : disk) : disk :=
  Disk (dk_desc d) (dk_avail d) (dk_used d) l (dk_used_idx d) (dk_info d) (dk_ops d) (dk_bufs d).
Definition with_used_idx (i : Z) (d : disk) : disk :=
  Disk (dk_desc d) (dk_avail d) (dk_used d) (dk_free d) i (dk_info d) (dk_ops d) (dk_bufs d).
Definition with_info (l : list vinfo) (d : disk) : disk :=
  Disk (dk_desc d) (dk_avail d) (dk_used d) (dk_free d) (dk_used_idx d) l (dk_ops d) (dk_bufs d).
Definition with_ops (l : list virtio_blk_req) (d : disk) : disk :=
  Disk (dk_desc d) (dk_avail d) (dk_used d) (dk_free d) (dk_used_idx d) (dk_info d) l (dk_bufs d).
Definition with_bufs (l : list vbuf) (d : disk) : disk :=
  Disk (dk_desc d) (dk_avail d) (dk_used d) (dk_free d) (dk_used_idx d) (dk_info d) (dk_ops d) l.

(** An element of an array, and its update; outside the array is undefined. *)
Definition arr_get {A} (f : disk -> list A) (i : Z) : M disk A :=
  let* d := get in of_option "virtio: bad index" (zget (f d) i).
Definition arr_upd {A} (f : disk -> list A) (g : list A -> disk -> disk) (i : Z) (h : A -> A) : M disk unit :=
  let* x := arr_get f i in modify (fun d => g (zset (f d) i (h x)) d).

Definition desc_put (i : Z) (x : virtq_desc) : M disk unit := arr_upd dk_desc with_desc i (fun _ => x).

Definition free_flag (i : Z) : M disk Z := arr_get dk_free i.
Definition set_free (i v : Z) : M disk unit := arr_upd dk_free with_free i (fun _ => v).

(** [*R(reg) = v] *)
Definition write_reg (reg v : Z) : M disk unit := emit (EvWriteReg reg (u32 v)).

(** ** Initialisation *)

Definition zero_desc : virtq_desc := VirtqDesc VNull 0 0 0.

(** [r] gives the values of the registers of the device, [status2] the value of the
    status register when it is read back; [pages] are the results of the three calls of
    [kalloc]. *)
Definition virtio_disk_init (r : Z -> Z) (status2 : Z) (pages : Z * Z * Z) : M disk unit :=
  let '(pd, pa, pu) := pages in
  if negb (r VIRTIO_MMIO_MAGIC_VALUE =? 0x74726976) || negb (r VIRTIO_MMIO_VERSION =? 2) ||
     negb (r VIRTIO_MMIO_DEVICE_ID =? 2) || negb (r VIRTIO_MMIO_VENDOR_ID =? 0x554d4551)
  then panic "could not find virtio disk"
  else
    let status := 0 in
    write_reg VIRTIO_MMIO_STATUS status ;;;
    let status := Z.lor status VIRTIO_CONFIG_S_ACKNOWLEDGE in
    write_reg VIRTIO_MMIO_STATUS status ;;;
    let status := Z.lor status VIRTIO_CONFIG_S_DRIVER in
    write_reg VIRTIO_MMIO_STATUS status ;;;
    let features := r VIRTIO_MMIO_DEVICE_FEATURES in
    let features := Z.land features (Z.lnot (Z.shiftl 1 VIRTIO_BLK_F_RO)) in
    let features := Z.land features (Z.lnot (Z.shiftl 1 VIRTIO_BLK_F_SCSI)) in
    let features := Z.land features (Z.lnot (Z.shiftl 1 VIRTIO_BLK_F_CONFIG_WCE)) in
    let features := Z.land features (Z.lnot (Z.shiftl 1 VIRTIO_BLK_F_MQ)) in
    let features := Z.land features (Z.lnot (Z.shiftl 1 VIRTIO_F_ANY_LAYOUT)) in
    let features := Z.land features (Z.lnot (Z.shiftl 1 VIRTIO_RING_F_EVENT_IDX)) in
    let features := Z.land features (Z.lnot (Z.shiftl 1 VIRTIO_RING_F_INDIRECT_DESC)) in
    write_reg VIRTIO_MMIO_DRIVER_FEATURES features ;;;
    let status := Z.lor status VIRTIO_CONFIG_S_FEATURES_OK in
    write_reg VIRTIO_MMIO_STATUS status ;;;
    let status := status2 in
    if Z.land status VIRTIO_CONFIG_S_FEATURES_OK =? 0 then panic "virtio disk FEATURES_OK unset"
    else
      write_reg VIRTIO_MMIO_QUEUE_SEL 0 ;;;
      if negb (r VIRTIO_MMIO_QUEUE_READY =? 0) then panic "virtio disk should not be ready"
      else
        let max := r VIRTIO_MMIO_QUEUE_NUM_MAX in
        if max =? 0 then panic "virtio disk has no queue 0"
        else if max <? NUM then panic "virtio disk max queue too short"
        else if (pd =? 0) || (pa =? 0) || (pu =? 0) then panic "virtio disk kalloc"
        else
          modify (with_desc (replicate (Z.to_nat NUM) zero_desc)) ;;;
          modify (with_avail (VirtqAvail 0 (replicate (Z.to_nat NUM) 0))) ;;;
          modify (with_used (VirtqUsed 0 (replicate (Z.to_nat NUM) 0))) ;;;
          write_reg VIRTIO_MMIO_QUEUE_NUM NUM ;;;
          write_reg VIRTIO_MMIO_QUEUE_DESC_LOW pd ;;;
          write_reg VIRTIO_MMIO_QUEUE_DESC_HIGH (Z.shiftr pd 32) ;;;
          write_reg VIRTIO_MMIO_DRIVER_DESC_LOW pa ;;;
          write_reg VIRTIO_MMIO_DRIVER_DESC_HIGH (Z.shiftr pa 32) ;;;
          write_reg VIRTIO_MMIO_DEVICE_DESC_LOW pu ;;;
          write_reg VIRTIO_MMIO_DEVICE_DESC_HIGH (Z.shiftr pu 32) ;;;
          write_reg VIRTIO_MMIO_QUEUE_READY 1 ;;;
          for_loop (Z.to_nat NUM) 0 (fun i => set_free i 1) ;;;
          write_reg VIRTIO_MMIO_STATUS (Z.lor status VIRTIO_CONFIG_S_DRIVER_OK).

(** ** Descriptors *)

(** The first index of [free] that is set, from [i] on. *)
Fixpoint find_free (l : list Z) (i : Z) : option Z :=
  match l with
  | [] => None
  | f :: l' => if negb (f =? 0) then Some i else find_free l' (i + 1)
  end.

Definition alloc_desc : M disk Z :=
  let* d := get in
  match find_free (take (Z.to_nat NUM) (dk_free d)) 0 with
  | Some i => set_free i 0 ;;; ret i
  | None => ret (-1)
  end.

Definition free_desc (i : Z) : M disk unit :=
  if NUM <=? i then panic "free_desc 1"
  else
    let* f := free_flag i in
    if negb (f =? 0) then panic "free_desc 2"
    else
      desc_put i zero_desc ;;;
      set_free i 1 ;;;
      wakeup_ev ChDiskFree.

(** Each turn frees a descriptor that was in use, so there are at most [NUM]. *)
Fixpoint free_chain_loop (fuel : nat) (i : Z) : M disk unit :=
  match fuel with
  | O => undef "free_chain: out of fuel"
  | S fuel' =>
    let* x := arr_get dk_desc i in
    free_desc i ;;;
    if negb (Z.land (dc_flags x) VRING_DESC_F_NEXT =? 0) then free_chain_loop fuel' (dc_next x) else ret tt
  end.

Definition free_chain (i : Z) : M disk unit := free_chain_loop (S (Z.to_nat NUM)) i.

(** The three indices, or [None] for -1. *)
Definition alloc3_desc : M disk (option (Z * Z * Z)) :=
  let* i0 := alloc_desc in
  if i0 <? 0 then ret None
  else
    let* i1 := alloc_desc in
    if i1 <? 0 then free_desc i0 ;;; ret None
    else
      let* i2 := alloc_desc in
      if i2 <? 0 then free_desc i0 ;;; free_desc i1 ;;; ret None
      else ret (Some (i0, i1, i2)).

(** ** Requests *)

(** [virtio_disk_rw] up to the wait: the request is handed to the device; the result is
    the head of its chain, [idx[0]]. *)
Definition rw_start (b : Z) (write : bool) : M disk Z :=
  let* x := arr_get dk_bufs b in
  let sector := u32 (vb_blockno x * (BSIZE / 512)) in
  let* o := alloc3_desc in
  match o with
  | None => sleep_on ChDiskFree
  | Some (i0, i1, i2) =>
    arr_upd dk_ops with_ops i0 (fun _ => VirtioBlkReq (if write then VIRTIO_BLK_T_OUT else VIRTIO_BLK_T_IN) 0 sector) ;;;
    desc_put i0 (VirtqDesc (VOps i0) 16 VRING_DESC_F_NEXT i1) ;;;
    desc_put i1 (VirtqDesc (VData b) BSIZE (Z.lor (if write then 0 else VRING_DESC_F_WRITE) VRING_DESC_F_NEXT) i2) ;;;
    arr_upd dk_info with_info i0 (fun n => Vinfo (in_b n) 0xff) ;;;
    desc_put i2 (VirtqDesc (VStatus i0) 1 VRING_DESC_F_WRITE 0) ;;;
    arr_upd dk_bufs with_bufs b (fun x => Vbuf (vb_blockno x) 1 (vb_data x)) ;;;
    arr_upd dk_info with_info i0 (fun n => Vinfo (Some b) (in_status n)) ;;;
    modify (fun d => with_avail
      (VirtqAvail (av_idx (dk_avail d)) (zset (av_ring (dk_avail d)) (av_idx (dk_avail d) mod NUM) i0)) d) ;;;
    modify (fun d => with_avail (VirtqAvail (u16 (av_idx (dk_avail d) + 1)) (av_ring (dk_avail d))) d) ;;;
    write_reg VIRTIO_MMIO_QUEUE_NOTIFY 0 ;;;
    ret i0
  end.

(** [while(b->disk == 1) sleep(b, ...)] *)
Definition rw_wait (b : Z) : M disk unit :=
  let* x := arr_get dk_bufs b in
  if vb_disk x =? 1 then sleep_on (ChBuf b) else ret tt.

Definition rw_end (i0 : Z) : M disk unit :=
  arr_upd dk_info with_info i0 (fun n => Vinfo None (in_status n)) ;;;
  free_chain i0.

Definition virtio_disk_rw (b : Z) (write : bool) : M disk unit :=
  let* i0 := rw_start b write in
  rw_wait b ;;;
  rw_end i0.

(** ** Interrupts *)

(** The fuel is the number of entries the device has added. *)
Fixpoint intr_loop (fuel : nat) : M disk unit :=
  let* d := get in
  if dk_used_idx d =? us_idx (dk_used d) then ret tt
  else
    match fuel with
    | O => undef "virtio_disk_intr: out of fuel"
    | S fuel' =>
      let* id := of_option "virtio: bad index" (zget (us_ring (dk_used d)) (dk_used_idx d mod NUM)) in
      let* n := arr_get dk_info id in
      if negb (in_status n =? 0) then panic "virtio_disk_intr status"
      else
        let* b := of_option "virtio: null buffer" (in_b n) in
        arr_upd dk_bufs with_bufs b (fun x => Vbuf (vb_blockno x) 0 (vb_data x)) ;;;
        wakeup_ev (ChBuf b) ;;;
        modify (fun d => with_used_idx (u16 (dk_used_idx d + 1)) d) ;;;
        intr_loop fuel'
    end.

(** [status] is the value of the interrupt status register. *)
Definition virtio_disk_intr (status : Z) : M disk unit :=
  write_reg VIRTIO_MMIO_INTERRUPT_ACK (Z.land status 3) ;;;
  let* d := get in
  intr_loop (Z.to_nat (u16 (us_idx (dk_used d) - dk_used_idx d))).
