(* ===== verification/VirtioProofs.v ===== *)
(** * The disk driver and the device

    The driver runs against a device that follows the virtio specification: it takes
    the heads of chains from the avail ring in order, executes requests in any
    order, and returns their heads in the used ring.  [vstep] interleaves the two with
    the processes that wait for their requests and with the rest of the kernel, which may
    change the buffers that are not in flight. *)

From Stdlib Require Import ZArith Lia.
From stdpp Require Import base list strings numbers relations.
From S2P Require Import Prelude Ring Blocks Virtio.

(** ** The device *)

(** The bytes of the disk. *)
Abbreviation store := (Z -> Z).

Definition region (st : store) (off n : Z) : list Z := st <$> seqZ off n.
Definition put_region (st : store) (off : Z) (l : list Z) : store :=
  fun a => if (off <=? a) && (a <? off + Z.of_nat (length l)) then byte_at l (a - off) else st a.
Definition disk_block (st : store) (n : Z) : list Z := region st (n * BSIZE) BSIZE.

(** The device executes the request whose chain starts at [h]: the header says what and
    where, the second descriptor is the data, the third the status byte; then it returns
    [h] in the used ring. *)
Definition dev_exec (d : disk) (st : store) (h : Z) : option (disk * store) :=
  x0 ← zget (dk_desc d) h;
  x1 ← zget (dk_desc d) (dc_next x0);
  x2 ← zget (dk_desc d) (dc_next x1);
  match dc_addr x0, dc_addr x1, dc_addr x2 with
  | VOps i, VData b, VStatus j =>
    rq ← zget (dk_ops d) i;
    x ← zget (dk_bufs d) b;
    n ← zget (dk_info d) j;
    let off := rq_sector rq * 512 in
    let out := rq_type rq =? VIRTIO_BLK_T_OUT in
    if negb out && (Z.land (dc_flags x1) VRING_DESC_F_WRITE =? 0) then None
    else
      let bufs := if out then dk_bufs d
                  else zset (dk_bufs d) b (Vbuf (vb_blockno x) (vb_disk x) (region st off (dc_len x1))) in
      let st' := if out then put_region st off (take (Z.to_nat (dc_len x1)) (vb_data x)) else st in
      let info := zset (dk_info d) j (Vinfo (in_b n) 0) in
      let u := dk_used d in
      Some (with_used (VirtqUsed (u16 (us_idx u + 1)) (zset (us_ring u) (us_idx u mod NUM) h))
              (with_info info (with_bufs bufs d)), st')
  | _, _, _ => None
  end.

(** ** The system *)

(** A call of [virtio_disk_rw] that waits: the three descriptors, the buffer and its
    block, and, when the request was made, the data in the buffer and the block on the
    disk. *)
Record req := Req {
  q_head : Z; q_mid : Z; q_tail : Z;
  q_buf : Z; q_block : Z; q_write : bool; q_data : list Z; q_disk : list Z
}.

(** [sy_seen] is how far the device has read the avail ring, [sy_work] the heads it has
    taken and not yet returned. *)
Record vsys := Vsys { sy_d : disk; sy_st : store; sy_seen : Z; sy_work : list Z; sy_reqs : list req }.

Definition buf_ok (x : vbuf) : Prop := 0 <= vb_blockno x < 2 ^ 31 /\ length (vb_data x) = Z.to_nat BSIZE.
Definition bufs_ok (l : list vbuf) : Prop := forall x, x ∈ l -> buf_ok x.

(** Before the first request. *)
Inductive vinit : vsys -> Prop :=
| vinit_intro d0 r status pages d t st :
    length (dk_free d0) = Z.to_nat NUM -> length (dk_info d0) = Z.to_nat NUM -> length (dk_ops d0) = Z.to_nat NUM ->
    dk_used_idx d0 = 0 -> bufs_ok (dk_bufs d0) ->
    virtio_disk_init r status pages d0 = Done tt d t ->
    vinit (Vsys d st 0 [] []).

Inductive vstep : vsys -> vsys -> Prop :=
| step_start d st seen work reqs b w x i0 d' t x0 x1 :
    (* the caller holds the lock of the buffer, and the block has no other buffer *)
    zget (dk_bufs d) b = Some x -> b ∉ q_buf <$> reqs -> vb_blockno x ∉ q_block <$> reqs ->
    rw_start b w d = Done i0 d' t ->
    zget (dk_desc d') i0 = Some x0 -> zget (dk_desc d') (dc_next x0) = Some x1 ->
    vstep (Vsys d st seen work reqs)
      (Vsys d' st seen work
         (Req i0 (dc_next x0) (dc_next x1) b (vb_blockno x) w (vb_data x) (disk_block st (vb_blockno x)) :: reqs))
| step_sleep d st seen work reqs b w d' t :
    rw_start b w d = Sleep ChDiskFree d' t ->
    vstep (Vsys d st seen work reqs) (Vsys d' st seen work reqs)
| step_take d st seen work reqs h :
    seen <> av_idx (dk_avail d) -> zget (av_ring (dk_avail d)) (seen mod NUM) = Some h ->
    vstep (Vsys d st seen work reqs) (Vsys d st (u16 (seen + 1)) (work ++ [h]) reqs)
| step_exec d st seen w1 h w2 reqs d' st' :
    dev_exec d st h = Some (d', st') ->
    vstep (Vsys d st seen (w1 ++ h :: w2) reqs) (Vsys d' st' seen (w1 ++ w2) reqs)
| step_intr d st seen work reqs status d' t :
    virtio_disk_intr status d = Done tt d' t ->
    vstep (Vsys d st seen work reqs) (Vsys d' st seen work reqs)
| step_end d st seen work r1 q r2 d' t :
    rw_wait (q_buf q) d = Done tt d [] -> rw_end (q_head q) d = Done tt d' t ->
    vstep (Vsys d st seen work (r1 ++ q :: r2)) (Vsys d' st seen work (r1 ++ r2))
| step_cache d st seen work reqs bufs :
    bufs_ok bufs -> (forall q, q ∈ reqs -> zget bufs (q_buf q) = zget (dk_bufs d) (q_buf q)) ->
    vstep (Vsys d st seen work reqs) (Vsys (with_bufs bufs d) st seen work reqs).

(** ** The invariant *)

Definition idxs (q : req) : list Z := [q_head q; q_mid q; q_tail q].
Definition busy (reqs : list req) : list Z := concat (idxs <$> reqs).

(** Where a request is: with the device, returned, or seen by the interrupt handler. *)
Inductive phase := PDev | PUsed | PDone.

Definition disk_flag (p : phase) : Z := match p with PDone => 0 | _ => 1 end.
Definition status_byte (p : phase) : Z := match p with PDev => 255 | _ => 0 end.

(** The descriptors and the header of a request. *)
Record chain_ok (d : disk) (q : req) : Prop := {
  ch_head : zget (dk_desc d) (q_head q) = Some (VirtqDesc (VOps (q_head q)) 16 VRING_DESC_F_NEXT (q_mid q));
  ch_mid : zget (dk_desc d) (q_mid q) = Some (VirtqDesc (VData (q_buf q)) BSIZE
    (Z.lor (if q_write q then 0 else VRING_DESC_F_WRITE) VRING_DESC_F_NEXT) (q_tail q));
  ch_tail : zget (dk_desc d) (q_tail q) = Some (VirtqDesc (VStatus (q_head q)) 1 VRING_DESC_F_WRITE 0);
  ch_ops : zget (dk_ops d) (q_head q) =
    Some (VirtioBlkReq (if q_write q then VIRTIO_BLK_T_OUT else VIRTIO_BLK_T_IN) 0 (2 * q_block q))
}.

(** Its buffer, its status and the block. *)
Record data_ok (d : disk) (st : store) (q : req) (p : phase) : Prop := {
  da_info : zget (dk_info d) (q_head q) = Some (Vinfo (Some (q_buf q)) (status_byte p));
  da_buf : zget (dk_bufs d) (q_buf q) = Some (Vbuf (q_block q) (disk_flag p)
    (match p with PDev => q_data q | _ => disk_block st (q_block q) end));
  da_disk : disk_block st (q_block q) = match p with PDev => q_disk q | _ => if q_write q then q_data q else q_disk q end
}.

(** The elements [l] of a ring between two counters. *)
Definition in_ring (ring : list Z) (from to : Z) (l : list Z) : Prop :=
  length ring = Z.to_nat NUM /\ 0 <= from < 2 ^ 16 /\ to = u16 (from + Z.of_nat (length l)) /\
  ring_list 3 ring from (length l) = l.

Definition free_ok (d : disk) (X : list Z) : Prop :=
  length (dk_free d) = Z.to_nat NUM /\
  forall i, 0 <= i < NUM -> zget (dk_free d) i = Some (if bool_decide (i ∈ X) then 0 else 1).

Record vinv_at (s : vsys) (avail used done : list Z) : Prop := {
  vi_lens : length (dk_desc (sy_d s)) = Z.to_nat NUM /\ length (dk_info (sy_d s)) = Z.to_nat NUM /\
            length (dk_ops (sy_d s)) = Z.to_nat NUM;
  vi_free : free_ok (sy_d s) (busy (sy_reqs s));
  vi_nodup : NoDup (busy (sy_reqs s));
  vi_range i : i ∈ busy (sy_reqs s) -> 0 <= i < NUM;
  vi_bufs : bufs_ok (dk_bufs (sy_d s));
  vi_distinct : NoDup (q_buf <$> sy_reqs s) /\ NoDup (q_block <$> sy_reqs s);
  vi_chain q : q ∈ sy_reqs s -> chain_ok (sy_d s) q;
  vi_heads : q_head <$> sy_reqs s ≡ₚ (avail ++ sy_work s) ++ used ++ done;
  vi_dev q : q ∈ sy_reqs s -> q_head q ∈ avail ++ sy_work s -> data_ok (sy_d s) (sy_st s) q PDev;
  vi_used q : q ∈ sy_reqs s -> q_head q ∈ used -> data_ok (sy_d s) (sy_st s) q PUsed;
  vi_done q : q ∈ sy_reqs s -> q_head q ∈ done -> data_ok (sy_d s) (sy_st s) q PDone;
  vi_avail_ring : in_ring (av_ring (dk_avail (sy_d s))) (sy_seen s) (av_idx (dk_avail (sy_d s))) avail;
  vi_used_ring : in_ring (us_ring (dk_used (sy_d s))) (dk_used_idx (sy_d s)) (us_idx (dk_used (sy_d s))) used
}.

Definition vinv (s : vsys) : Prop := exists avail used done, vinv_at s avail used done.

(** ** Rings *)

Lemma NUM_pow : NUM = 2 ^ 3.
Proof. done. Qed.

Lemma in_ring_put ring from to l h :
  in_ring ring from to l -> Z.of_nat (length l) < NUM -> in_ring (zset ring (to mod NUM) h) from (u16 (to + 1)) (l ++ [h]).
Proof.
  intros (H1 & H2 & H3 & H4) Hl. rewrite NUM_pow in Hl. unfold in_ring. rewrite length_zset, length_app. cbn [length].
  split_and!; [done|lia|lia| |].
  - rewrite H3, wrap_add_l. f_equal. lia.
  - replace (length l + 1)%nat with (S (length l)) by lia. rewrite NUM_pow.
    destruct (ring_list_put 16 3 ltac:(lia) ring from (length l) to h) as [_ ->].
    + rewrite H1. done.
    + lia.
    + rewrite H3. apply (ring_index 16 3 ltac:(lia) _ 0).
    + by rewrite H4.
Qed.

Lemma in_ring_take ring from to l h :
  in_ring ring from to l -> from <> to -> zget ring (from mod NUM) = Some h ->
  exists l', l = h :: l' /\ in_ring ring (u16 (from + 1)) to l'.
Proof.
  intros (H1 & H2 & H3 & H4) Hne Hh. destruct l as [|a l].
  { exfalso. apply Hne. rewrite H3. simpl. rewrite Z.add_0_r. symmetry. by apply wrap_small. }
  cbn [length] in *. rewrite (ring_list_cons 16 3 ltac:(lia)), <- NUM_pow, Hh in H4. simpl in H4. injection H4 as <- H4.
  exists l. split; [done|]. pose proof (wrap_range 16 (from + 1)). split_and!; [done|lia|lia| |done].
  rewrite H3, wrap_add_l. f_equal. lia.
Qed.

Lemma in_ring_stop ring from l : in_ring ring from from l -> Z.of_nat (length l) < 2 ^ 16 -> l = [].
Proof.
  intros (H1 & H2 & H3 & H4) Hl. destruct l as [|a l]; [done|]. exfalso.
  set (n := Z.of_nat (length (a :: l))) in *. assert (Hn : 0 < n) by (unfold n; simpl; lia).
  assert (E : wrap 16 (from - from) = wrap 16 (from + n - from)) by (rewrite H3 at 1; by rewrite wrap_sub_l).
  replace (from + n - from) with n in E by lia. rewrite Z.sub_diag, !wrap_small in E by lia. lia.
Qed.

Lemma in_ring_nonempty ring from to l : in_ring ring from to l -> from <> to ->
  is_Some (zget ring (from mod NUM)).
Proof. intros (H1 & H2 & _) _. apply zget_is_Some. rewrite H1. apply Z.mod_pos_bound. done. Qed.

Lemma in_ring_len ring from to l : in_ring ring from to l -> Z.of_nat (length l) < 2 ^ 16 ->
  u16 (to - from) = Z.of_nat (length l).
Proof.
  intros (H1 & H2 & H3 & H4) Hl. rewrite H3, wrap_sub_l.
  replace (from + Z.of_nat (length l) - from) with (Z.of_nat (length l)) by lia. apply wrap_small. lia.
Qed.

(** ** Arrays *)

Lemma arr_get_run {A} (f : disk -> list A) i d x : zget (f d) i = Some x -> arr_get f i d = Done x d [].
Proof. intros E. unfold arr_get, bind, get, of_option. simpl. by rewrite E. Qed.

Lemma arr_upd_run {A} (f : disk -> list A) g i h d x :
  zget (f d) i = Some x -> arr_upd f g i h d = Done tt (g (zset (f d) i (h x)) d) [].
Proof. intros E. unfold arr_upd. by erewrite bind_Done by (by apply arr_get_run). Qed.

Lemma zget_in {A} (l : list A) n i : length l = Z.to_nat n -> 0 <= i < n -> is_Some (zget l i).
Proof. intros H Hi. apply zget_is_Some. rewrite H. lia. Qed.

Lemma elem_of_zset {A} (l : list A) i v x : x ∈ zset l i v -> x = v \/ x ∈ l.
Proof.
  unfold zset. destruct (0 <=? i); [|by right]. intros [j Hj]%list_elem_of_lookup.
  destruct (decide (j = Z.to_nat i)) as [->|Hne].
  - pose proof (lookup_lt_Some _ _ _ Hj) as Hl. rewrite length_insert in Hl. rewrite list_lookup_insert_eq in Hj by done.
    left. congruence.
  - rewrite list_lookup_insert_ne in Hj by done. right. by eapply list_elem_of_lookup_2.
Qed.

(** ** Descriptors *)

Lemma find_free_spec l i :
  match find_free l i with
  | Some k => i <= k < i + Z.of_nat (length l) /\ exists v, zget l (k - i) = Some v /\ v <> 0
  | None => forall v, v ∈ l -> v = 0
  end.
Proof.
  revert i. induction l as [|f l IH]; intros i; cbn [find_free]; [intros v Hv; by apply not_elem_of_nil in Hv|].
  destruct (Z.eqb_spec f 0) as [->|Hne]; cbn [negb].
  - specialize (IH (i + 1)). destruct (find_free l (i + 1)) as [k|].
    + cbn [length]. destruct IH as (H1 & v & H2 & H3). split; [lia|]. exists v. split; [|done].
      unfold zget in *. rewrite (proj2 (Z.leb_le 0 (k - (i + 1)))) in H2 by lia. rewrite (proj2 (Z.leb_le 0 (k - i))) by lia.
      replace (Z.to_nat (k - i)) with (S (Z.to_nat (k - (i + 1)))) by lia. done.
    + intros v [->|Hv]%elem_of_cons; auto.
  - cbn [length]. split; [lia|]. exists f. by rewrite Z.sub_diag.
Qed.

Lemma free_ok_take d X i : free_ok d X -> 0 <= i < NUM -> free_ok (with_free (zset (dk_free d) i 0) d) (i :: X).
Proof.
  intros [Hl Hf] Hi. split; [by simpl; rewrite length_zset|]. intros j Hj. simpl. destruct (decide (j = i)) as [->|Hne].
  - rewrite zget_zset_eq by (rewrite Hl; unfold NUM in *; lia). rewrite bool_decide_eq_true_2 by left. done.
  - rewrite zget_zset_ne, Hf by done. rewrite (bool_decide_ext (j ∈ i :: X) (j ∈ X)); [done|]. rewrite elem_of_cons. tauto.
Qed.

Lemma free_ok_give d X i : free_ok d (i :: X) -> i ∉ X -> 0 <= i < NUM -> free_ok (with_free (zset (dk_free d) i 1) d) X.
Proof.
  intros [Hl Hf] Hn Hi. split; [by simpl; rewrite length_zset|]. intros j Hj. simpl. destruct (decide (j = i)) as [->|Hne].
  - rewrite zget_zset_eq by (rewrite Hl; unfold NUM in *; lia). rewrite bool_decide_eq_false_2 by done. done.
  - rewrite zget_zset_ne, Hf by done. rewrite (bool_decide_ext (j ∈ i :: X) (j ∈ X)); [done|]. rewrite elem_of_cons. tauto.
Qed.

Lemma alloc_desc_run d X : free_ok d X ->
  (exists i, 0 <= i < NUM /\ i ∉ X /\ alloc_desc d = Done i (with_free (zset (dk_free d) i 0) d) []) \/
  ((forall i, 0 <= i < NUM -> i ∈ X) /\ alloc_desc d = Done (-1) d []).
Proof.
  intros [Hl Hf].
  assert (E0 : alloc_desc d = match find_free (dk_free d) 0 with Some i => (set_free i 0 ;;; ret i) d | None => Done (-1) d [] end).
  { unfold alloc_desc. erewrite bind_Done by done. rewrite prepend_nil, firstn_all2 by lia. by destruct (find_free _ _). }
  rewrite E0. clear E0.
  pose proof (find_free_spec (take (Z.to_nat NUM) (dk_free d)) 0) as Hs. rewrite firstn_all2 in * by lia.
  destruct (find_free (dk_free d) 0) as [k|].
  - left. exists k. rewrite Z.add_0_l, Z.sub_0_r, Hl in Hs. destruct Hs as (Hk & v & Hv & Hv0).
    rewrite Z2Nat.id in Hk by done. rewrite Hf in Hv by done. injection Hv as <-. split_and!; [lia|lia| |].
    + intros Hin. rewrite bool_decide_eq_true_2 in Hv0 by done. done.
    + unfold set_free. by erewrite bind_Done by (apply arr_upd_run; by apply Hf).
  - right. split; [|reflexivity]. intros i Hi. destruct (decide (i ∈ X)) as [|Hn]; [done|]. exfalso.
    pose proof (Hf i Hi) as E. rewrite bool_decide_eq_false_2 in E by done.
    assert (1 = 0); [|lia]. apply Hs. unfold zget in E. destruct (0 <=? i); [|done]. by apply list_elem_of_lookup_2 in E.
Qed.

Definition freed (i : Z) (d : disk) : disk := with_free (zset (dk_free d) i 1) (with_desc (zset (dk_desc d) i zero_desc) d).

Lemma free_desc_run d X i : free_ok d (i :: X) -> i ∉ X -> 0 <= i < NUM -> length (dk_desc d) = Z.to_nat NUM ->
  free_desc i d = Done tt (freed i d) [EvWakeup ChDiskFree] /\ free_ok (freed i d) X.
Proof.
  intros Hf Hn Hi Hl. split; [|by apply (free_ok_give (with_desc _ d))].
  unfold free_desc. rewrite (proj2 (Z.leb_gt _ _)) by lia. pose proof (proj2 Hf i Hi) as E.
  rewrite bool_decide_eq_true_2 in E by left. unfold free_flag. erewrite bind_Done by (by apply arr_get_run). cbn [Z.eqb negb].
  destruct (zget_in _ _ i Hl Hi) as [x Hx].
  rewrite prepend_nil. erewrite bind_Done by (unfold desc_put; by apply (arr_upd_run dk_desc)).
  rewrite prepend_nil. erewrite bind_Done by (unfold set_free; by apply (arr_upd_run dk_free)).
  done.
Qed.

Lemma free_ok_ext d X Y : (forall i, i ∈ X <-> i ∈ Y) -> free_ok d X -> free_ok d Y.
Proof.
  intros E [Hl Hf]. split; [done|]. intros i Hi. rewrite Hf by done. by rewrite (bool_decide_ext _ _ (E i)).
Qed.

(** Three descriptors, none of them in [X]. *)
Definition three (X : list Z) (l : Z * Z * Z) : Prop :=
  let '(i0, i1, i2) := l in
  NoDup [i0; i1; i2] /\ forall i, i ∈ [i0; i1; i2] -> 0 <= i < NUM /\ i ∉ X.

(** Descriptors outside [X] may have been cleared. *)
Definition cleared (X : list Z) (d d' : disk) : Prop :=
  exists f l, d' = with_free f (with_desc l d) /\ length l = length (dk_desc d) /\
    forall j, j ∈ X -> zget l j = zget (dk_desc d) j.

Lemma alloc3_run d X : free_ok d X -> length (dk_desc d) = Z.to_nat NUM ->
  (exists l f, alloc3_desc d = Done (Some l) (with_free f d) [] /\ three X l /\
     free_ok (with_free f d) ([l.1.1; l.1.2; l.2] ++ X)) \/
  (exists d' t, alloc3_desc d = Done None d' t /\ cleared X d d' /\ free_ok d' X /\
     exists L, (length L <= 2)%nat /\ forall i, 0 <= i < NUM -> i ∈ L ++ X).
Proof.
  intros Hf Hl. unfold alloc3_desc.
  destruct (alloc_desc_run d X Hf) as [(i0 & R0 & N0 & E0)|[Hall E0]].
  2: { right. exists d, []. erewrite bind_Done by done. split_and!; [done| |done|exists []; split; [simpl; lia|done]].
       exists (dk_free d), (dk_desc d). by destruct d. }
  erewrite bind_Done by done. rewrite (proj2 (Z.ltb_ge i0 0)), prepend_nil by lia.
  set (d1 := with_free _ d) in *. assert (F1 : free_ok d1 (i0 :: X)) by (by apply free_ok_take).
  destruct (alloc_desc_run d1 (i0 :: X) F1) as [(i1 & R1 & N1 & E1)|[Hall E1]].
  2: { right. erewrite bind_Done by done. cbn [Z.ltb Z.compare]. rewrite prepend_nil.
       destruct (free_desc_run d1 X i0) as [G0 F0]; [done|done|done|done|].
       erewrite bind_Done by done. exists (freed i0 d1), [EvWakeup ChDiskFree]. split_and!; [done| |done|].
       - exists (dk_free (freed i0 d1)), (zset (dk_desc d) i0 zero_desc). split_and!; [done|by rewrite length_zset|].
         intros j Hj. apply zget_zset_ne. congruence.
       - exists [i0]. split; [simpl; lia|]. done. }
  erewrite bind_Done by done. rewrite (proj2 (Z.ltb_ge i1 0)), prepend_nil by lia.
  set (d2 := with_free (zset (dk_free d1) i1 0) d1) in *. assert (F2 : free_ok d2 (i1 :: i0 :: X)) by (by apply free_ok_take).
  apply not_elem_of_cons in N1 as [N1 N1'].
  destruct (alloc_desc_run d2 (i1 :: i0 :: X) F2) as [(i2 & R2 & N2 & E2)|[Hall E2]].
  - left. apply not_elem_of_cons in N2 as [N2 N2']. apply not_elem_of_cons in N2' as [N2' N2''].
    erewrite bind_Done by done. rewrite (proj2 (Z.ltb_ge i2 0)), prepend_nil by lia.
    eexists (i0, i1, i2), _. split_and!; [reflexivity| |].
    + split; [|intros i; rewrite !elem_of_cons, elem_of_nil; naive_solver].
      apply list.NoDup_cons. split; [rewrite !elem_of_cons, elem_of_nil; naive_solver|].
      apply list.NoDup_cons. split; [rewrite !elem_of_cons, elem_of_nil; naive_solver|apply NoDup_singleton].
    + eapply free_ok_ext; [|by apply (free_ok_take d2)]. intros i. cbn [fst snd app]. rewrite !elem_of_cons. tauto.
  - right. erewrite bind_Done by done. cbn [Z.ltb Z.compare]. rewrite prepend_nil.
    assert (F2' : free_ok d2 (i0 :: i1 :: X)) by (eapply free_ok_ext; [|done]; intros i; rewrite !elem_of_cons; tauto).
    destruct (free_desc_run d2 (i1 :: X) i0) as [G0 F0]; [done|rewrite elem_of_cons; naive_solver|done|done|].
    destruct (free_desc_run (freed i0 d2) X i1) as [G1 F3]; [done|done|done|simpl; by rewrite length_zset|].
    erewrite bind_Done by done. erewrite (bind_Done (free_desc i1)) by done.
    eexists (freed i1 (freed i0 d2)), _. split_and!; [reflexivity| |done|].
    + exists (dk_free (freed i1 (freed i0 d2))), (zset (zset (dk_desc d) i0 zero_desc) i1 zero_desc).
      split_and!; [done|by rewrite !length_zset|]. intros j Hj. rewrite !zget_zset_ne by congruence. done.
    + exists [i1; i0]. split; [simpl; lia|]. done.
Qed.

(** ** Requests have descriptors, buffers and blocks of their own *)

Lemma elem_of_busy i reqs : i ∈ busy reqs <-> exists q, q ∈ reqs /\ i ∈ idxs q.
Proof.
  unfold busy. induction reqs as [|q r IH]; [split; [intros Hi; by apply not_elem_of_nil in Hi|]|].
  - intros (q & Hq & _). by apply not_elem_of_nil in Hq.
  - rewrite fmap_cons. cbn [concat]. rewrite elem_of_app, IH. setoid_rewrite elem_of_cons. naive_solver.
Qed.

Lemma length_busy reqs : length (busy reqs) = (3 * length reqs)%nat.
Proof. unfold busy. induction reqs as [|q r IH]; [done|]. rewrite fmap_cons. cbn [concat]. rewrite length_app, IH. simpl. lia. Qed.

Lemma busy_perm r1 r2 : r1 ≡ₚ r2 -> busy r1 ≡ₚ busy r2.
Proof.
  unfold busy. induction 1 as [|x l l' _ IH|x y l|l l' l'' _ IH1 _ IH2]; rewrite ?fmap_cons; cbn [concat].
  - done.
  - by rewrite IH.
  - by rewrite !app_assoc, (Permutation_app_comm (idxs y)).
  - by etrans.
Qed.

Lemma busy_inj reqs q q' i : NoDup (busy reqs) -> q ∈ reqs -> q' ∈ reqs -> i ∈ idxs q -> i ∈ idxs q' -> q = q'.
Proof.
  intros Hd Hq Hq' Hi Hi'. apply list_elem_of_split in Hq as (r1 & r2 & ->).
  apply elem_of_app in Hq' as [Hq'|[->|Hq']%elem_of_cons]; [|done|]; exfalso;
    rewrite (busy_perm _ (q :: r1 ++ r2)) in Hd by (by rewrite Permutation_middle);
    unfold busy in Hd; rewrite fmap_cons in Hd; cbn [concat] in Hd; apply NoDup_app in Hd as (_ & Hd & _);
    apply (Hd i Hi), elem_of_busy; exists q'; (split; [|done]); apply elem_of_app; auto.
Qed.

Lemma fmap_inj {A B} (f : A -> B) l x y : NoDup (f <$> l) -> x ∈ l -> y ∈ l -> f x = f y -> x = y.
Proof.
  induction l as [|a l IH]; [intros _ Hx; by apply not_elem_of_nil in Hx|]. rewrite fmap_cons, list.NoDup_cons.
  intros [Hn Hd] [->|Hx]%elem_of_cons [->|Hy]%elem_of_cons E; [done| | |by apply IH]; exfalso; apply Hn.
  - rewrite E. by apply list_elem_of_fmap_2.
  - rewrite <- E. by apply list_elem_of_fmap_2.
Qed.

Lemma head_in_idxs q : q_head q ∈ idxs q.
Proof. left. Qed.
Lemma mid_in_idxs q : q_mid q ∈ idxs q.
Proof. right. left. Qed.
Lemma tail_in_idxs q : q_tail q ∈ idxs q.
Proof. right. right. left. Qed.
#[local] Hint Resolve head_in_idxs mid_in_idxs tail_in_idxs : core.

Lemma few_reqs reqs : NoDup (busy reqs) -> (forall i, i ∈ busy reqs -> 0 <= i < NUM) -> (length reqs <= 2)%nat.
Proof.
  intros Hd Hr. assert (length (busy reqs) <= length (seqZ 0 NUM))%nat.
  { apply NoDup_incl_length; [by apply NoDup_ListNoDup|]. intros i Hi%list_elem_of_In. apply list_elem_of_In, elem_of_seqZ.
    specialize (Hr i Hi). lia. }
  rewrite length_busy, length_seqZ in H. change (Z.to_nat NUM) with 8%nat in H. lia.
Qed.

(** ** What a request depends on *)

Lemma chain_ok_ext d d' q : chain_ok d q -> (forall i, i ∈ idxs q -> zget (dk_desc d') i = zget (dk_desc d) i) ->
  zget (dk_ops d') (q_head q) = zget (dk_ops d) (q_head q) -> chain_ok d' q.
Proof. intros [H1 H2 H3 H4] Hd Ho. split; rewrite ?Hd by done; try done. by rewrite Ho. Qed.

Lemma data_ok_ext d st d' st' q p : data_ok d st q p ->
  zget (dk_info d') (q_head q) = zget (dk_info d) (q_head q) -> zget (dk_bufs d') (q_buf q) = zget (dk_bufs d) (q_buf q) ->
  disk_block st' (q_block q) = disk_block st (q_block q) -> data_ok d' st' q p.
Proof. intros [H1 H2 H3] Hi Hb Hs. split; rewrite ?Hi, ?Hb, ?Hs; done. Qed.

Section inv.
Context (s : vsys) (avail used done : list Z) (I : vinv_at s avail used done).

Lemma inv_few : (length (sy_reqs s) <= 2)%nat.
Proof using I. apply few_reqs; apply I. Qed.

Lemma inv_lens : (length avail + length (sy_work s) + length used + length done <= 2)%nat.
Proof using I.
  pose proof inv_few as Hf. pose proof (Permutation_length (vi_heads _ _ _ _ I)) as Hp.
  rewrite length_fmap, !length_app in Hp. lia.
Qed.

Lemma inv_head_range q : q ∈ sy_reqs s -> forall i, i ∈ idxs q -> 0 <= i < NUM.
Proof using I. intros Hq i Hi. apply (vi_range _ _ _ _ I), elem_of_busy. eauto. Qed.

Lemma inv_find h : h ∈ (avail ++ sy_work s) ++ used ++ done -> exists q, q ∈ sy_reqs s /\ q_head q = h.
Proof using I. rewrite <- (vi_heads _ _ _ _ I), list_elem_of_fmap. naive_solver. Qed.

Lemma inv_heads_nodup : NoDup ((avail ++ sy_work s) ++ used ++ done).
Proof using I.
  rewrite <- (vi_heads _ _ _ _ I). apply NoDup_fmap_2_strong.
  - intros q q' Hq Hq' E. apply (busy_inj (sy_reqs s) q q' (q_head q)); try done; [apply I|]. rewrite E. done.
  - pose proof (vi_distinct _ _ _ _ I) as [Hb _]. by apply NoDup_fmap_1 in Hb.
Qed.

(** Every request is in one of the three phases. *)
Lemma inv_phase q : q ∈ sy_reqs s -> exists p, data_ok (sy_d s) (sy_st s) q p.
Proof using I.
  intros Hq. assert (Hh : q_head q ∈ (avail ++ sy_work s) ++ used ++ done)
    by (rewrite <- (vi_heads _ _ _ _ I); by apply list_elem_of_fmap_2).
  apply elem_of_app in Hh as [Hh|[Hh|Hh]%elem_of_app].
  - exists PDev. by apply (vi_dev _ _ _ _ I).
  - exists PUsed. by apply (vi_used _ _ _ _ I).
  - exists PDone. by apply (vi_done _ _ _ _ I).
Qed.
End inv.

(** ** The device takes a request *)

Lemma inv_take d st seen work reqs h avail used done :
  vinv_at (Vsys d st seen work reqs) avail used done ->
  seen <> av_idx (dk_avail d) -> zget (av_ring (dk_avail d)) (seen mod NUM) = Some h ->
  exists avail', avail = h :: avail' /\ vinv_at (Vsys d st (u16 (seen + 1)) (work ++ [h]) reqs) avail' used done.
Proof.
  intros [] Hne Hh. simpl in *.
  destruct (in_ring_take _ _ _ _ _ vi_avail_ring0 Hne Hh) as (avail' & -> & Hring).
  assert (Hin : forall i, i ∈ avail' ++ work ++ [h] <-> i ∈ (h :: avail') ++ work).
  { intros i. rewrite !elem_of_app, !elem_of_cons, elem_of_nil. tauto. }
  exists avail'. split; [done|]. split; simpl; try done.
  - rewrite vi_heads0, (app_assoc avail' work [h]). apply Permutation_app_tail.
    change ((h :: avail') ++ work) with ([h] ++ (avail' ++ work)). apply Permutation_app_comm.
  - intros q Hq Hi. apply vi_dev0; [done|]. by apply Hin.
Qed.

(** ** The device executes a request *)

Lemma length_disk_block st n : length (disk_block st n) = Z.to_nat BSIZE.
Proof. unfold disk_block, region. by rewrite length_fmap, length_seqZ. Qed.

Lemma disk_block_put st n l m : length l = Z.to_nat BSIZE ->
  disk_block (put_region st (n * BSIZE) l) m = if decide (m = n) then l else disk_block st m.
Proof.
  intros Hl. assert (HB : BSIZE = 1024) by done. case_decide as D.
  - subst m. apply list_eq_same_length with (Z.to_nat BSIZE); [done|apply length_disk_block|].
    intros i x y Hi Hx Hy. unfold disk_block, region in Hx. rewrite list_lookup_fmap, lookup_seqZ_lt in Hx by lia.
    injection Hx as <-. unfold put_region. rewrite (proj2 (Z.leb_le _ _)), (proj2 (Z.ltb_lt _ _)) by lia. cbn [andb].
    replace (n * BSIZE + Z.of_nat i - n * BSIZE) with (Z.of_nat i) by lia. unfold byte_at, zget.
    rewrite (proj2 (Z.leb_le 0 _)), Nat2Z.id by lia. by rewrite Hy.
  - apply list_fmap_ext. intros i a Ha. apply lookup_seqZ in Ha as [-> Hi]. unfold put_region.
    destruct (Z.leb_spec (n * BSIZE) (m * BSIZE + Z.of_nat i)), (Z.ltb_spec (m * BSIZE + Z.of_nat i) (n * BSIZE + Z.of_nat (length l)));
      cbn [andb]; try done. lia.
Qed.

(** The state after the request [q]. *)
Definition exec_disk (d : disk) (st : store) (q : req) : disk :=
  let u := dk_used d in
  with_used (VirtqUsed (u16 (us_idx u + 1)) (zset (us_ring u) (us_idx u mod NUM) (q_head q)))
    (with_info (zset (dk_info d) (q_head q) (Vinfo (Some (q_buf q)) 0))
       (with_bufs (if q_write q then dk_bufs d
                   else zset (dk_bufs d) (q_buf q) (Vbuf (q_block q) 1 (disk_block st (q_block q)))) d)).
Definition exec_store (st : store) (q : req) : store :=
  if q_write q then put_region st (q_block q * BSIZE) (q_data q) else st.

Lemma dev_exec_run d st q : chain_ok d q -> data_ok d st q PDev -> length (q_data q) = Z.to_nat BSIZE ->
  dev_exec d st (q_head q) = Some (exec_disk d st q, exec_store st q).
Proof.
  intros [H1 H2 H3 H4] [I1 I2 I3] Hl. unfold dev_exec. rewrite H1. cbn [mbind option_bind dc_next dc_addr].
  rewrite H2. cbn [mbind option_bind dc_next dc_addr]. rewrite H3. cbn [mbind option_bind dc_next dc_addr].
  rewrite H4. cbn [mbind option_bind]. rewrite I2. cbn [mbind option_bind]. rewrite I1. cbn [mbind option_bind].
  cbn [rq_sector rq_type dc_flags dc_len vb_data vb_blockno vb_disk disk_flag in_b].
  replace (2 * q_block q * 512) with (q_block q * BSIZE) by (unfold BSIZE; lia).
  rewrite firstn_all2 by lia. unfold exec_disk, exec_store, disk_block. by destruct (q_write q).
Qed.

Lemma exec_block st q m : length (q_data q) = Z.to_nat BSIZE ->
  disk_block (exec_store st q) m = if decide (m = q_block q) then (if q_write q then q_data q else disk_block st m) else disk_block st m.
Proof.
  intros Hl. unfold exec_store. destruct (q_write q); [by apply disk_block_put|]. by case_decide.
Qed.

Lemma inv_data_len d st seen work reqs avail used done q :
  vinv_at (Vsys d st seen work reqs) avail used done -> q ∈ reqs -> data_ok d st q PDev ->
  length (q_data q) = Z.to_nat BSIZE /\ 0 <= q_block q < 2 ^ 31.
Proof.
  intros I Hq Hd. pose proof (vi_bufs _ _ _ _ I) as Hb. simpl in Hb.
  pose proof (da_buf _ _ _ _ Hd) as E. unfold zget in E. destruct (0 <=? q_buf q); [|done].
  apply list_elem_of_lookup_2 in E. destruct (Hb _ E) as [H1 H2]. done.
Qed.

Lemma perm_out (a w1 : list Z) h w2 u : (a ++ w1 ++ h :: w2) ++ u ≡ₚ h :: (a ++ w1 ++ w2) ++ u.
Proof. rewrite (app_assoc a w1 (h :: w2)), <- Permutation_middle, <- app_assoc. done. Qed.

Lemma perm_in (a u : list Z) h v : a ++ (u ++ [h]) ++ v ≡ₚ h :: a ++ u ++ v.
Proof. rewrite <- (app_assoc u [h] v). simpl. rewrite (app_assoc a u (h :: v)), <- Permutation_middle, <- app_assoc. done. Qed.

Lemma inv_exec d st seen w1 h w2 reqs avail used done d' st' :
  vinv_at (Vsys d st seen (w1 ++ h :: w2) reqs) avail used done -> dev_exec d st h = Some (d', st') ->
  vinv_at (Vsys d' st' seen (w1 ++ w2) reqs) avail (used ++ [h]) done.
Proof.
  intros I Hex. assert (Hh : h ∈ avail ++ w1 ++ h :: w2) by (rewrite !elem_of_app, elem_of_cons; auto).
  destruct (inv_find _ _ _ _ I h) as (q & Hq & Eh); [simpl; rewrite elem_of_app; by left|]. simpl in Hq.
  assert (Hdev : data_ok d st q PDev) by (apply (vi_dev _ _ _ _ I); simpl; [done|by rewrite Eh]).
  destruct (inv_data_len _ _ _ _ _ _ _ _ q I Hq Hdev) as [Hlen Hblk].
  rewrite <- Eh, (dev_exec_run d st q) in Hex; [|by apply (vi_chain _ _ _ _ I)|done|done]. injection Hex as <- <-.
  pose proof (inv_lens _ _ _ _ I) as Hfew. pose proof (inv_heads_nodup _ _ _ _ I) as Hnd.
  pose proof (inv_head_range _ _ _ _ I q Hq _ (head_in_idxs q)) as Hhr. simpl in *.
  destruct I as [[L1 [L2 L3]] Fr Nd Rg Bf [Ds1 Ds2] Ch Hd Dv Us Dn Ra Ru]. simpl in *.
  assert (Hoth : forall q' p, q' ∈ reqs -> q_head q' <> h -> data_ok d st q' p -> data_ok (exec_disk d st q) (exec_store st q) q' p).
  { intros q' p Hq' Hne Hd'. assert (q' <> q) by congruence. apply (data_ok_ext d st); [done| | |].
    - simpl. apply zget_zset_ne. congruence.
    - simpl. destruct (q_write q); [done|]. apply zget_zset_ne. intros E. by apply (fmap_inj q_buf reqs) in E.
    - rewrite exec_block, decide_False; [done| |done]. intros E. by apply (fmap_inj q_block reqs) in E. }
  assert (Hnh : h ∉ avail ++ w1 ++ w2 /\ h ∉ used /\ h ∉ done).
  { rewrite perm_out in Hnd. apply list.NoDup_cons in Hnd as [Hn _]. rewrite !elem_of_app in *. tauto. }
  split; simpl; try done.
  - rewrite length_zset. done.
  - intros x Hx. destruct (q_write q); [by apply Bf|]. apply elem_of_zset in Hx as [->|Hx]; [|by apply Bf]. split; [done|apply length_disk_block].
  - intros q' Hq'. apply (chain_ok_ext d); [by apply Ch|done|done].
  - rewrite Hd, perm_out. by rewrite perm_in.
  - intros q' Hq' Hi. apply Hoth; [done|intros E; rewrite E in Hi; tauto|]. apply Dv; [done|].
    rewrite !elem_of_app, elem_of_cons in *. tauto.
  - intros q' Hq' Hi. apply elem_of_app in Hi as [Hi|Hi%list_elem_of_singleton].
    + apply Hoth; [done|intros E; rewrite E in Hi; tauto|]. by apply Us.
    + assert (q' = q) as -> by (apply (busy_inj reqs q' q h); try done; [rewrite <- Hi|rewrite <- Eh]; done).
      destruct Hdev as [I1 I2 I3]. split; rewrite ?exec_block, ?decide_True by done; simpl.
      * by rewrite zget_zset_eq by (rewrite L2; unfold NUM in *; lia).
      * simpl in I2. destruct (q_write q); [done|]. rewrite zget_zset_eq; [done|]. by apply zget_Some in I2.
      * by destruct (q_write q).
  - intros q' Hq' Hi. apply Hoth; [done|intros E; rewrite E in Hi; tauto|]. by apply Dn.
  - rewrite <- Eh. apply in_ring_put; [done|]. unfold NUM. lia.
Qed.

(** ** The interrupt handler *)

Lemma in_ring_neq ring from to h l : in_ring ring from to (h :: l) -> Z.of_nat (length (h :: l)) < 2 ^ 16 ->
  from <> to /\ zget ring (from mod NUM) = Some h /\ in_ring ring (u16 (from + 1)) to l.
Proof.
  intros Hr Hl. assert (Hne : from <> to) by (intros <-; by apply in_ring_stop in Hr).
  destruct (in_ring_nonempty _ _ _ _ Hr Hne) as [h' Hh]. destruct (in_ring_take _ _ _ _ _ Hr Hne Hh) as (l' & [= -> ->] & Hr').
  done.
Qed.

(** The handler has looked at the first returned request. *)
Definition seen_disk (d : disk) (st : store) (q : req) : disk :=
  with_used_idx (u16 (dk_used_idx d + 1)) (with_bufs (zset (dk_bufs d) (q_buf q) (Vbuf (q_block q) 0 (disk_block st (q_block q)))) d).

Lemma inv_seen d st seen work reqs avail h used done q :
  vinv_at (Vsys d st seen work reqs) avail (h :: used) done -> q ∈ reqs -> q_head q = h ->
  vinv_at (Vsys (seen_disk d st q) st seen work reqs) avail used (done ++ [h]).
Proof.
  intros I Hq Eh. pose proof (inv_heads_nodup _ _ _ _ I) as Hnd. pose proof (inv_lens _ _ _ _ I) as Hfew.
  assert (Hus : data_ok d st q PUsed) by (apply (vi_used _ _ _ _ I); simpl; [done|rewrite Eh; left]).
  destruct I as [Ls Fr Nd Rg Bf [Ds1 Ds2] Ch Hd Dv Us Dn Ra Ru]. simpl in *.
  assert (Hoth : forall q' p, q' ∈ reqs -> q_head q' <> h -> data_ok d st q' p -> data_ok (seen_disk d st q) st q' p).
  { intros q' p Hq' Hne Hd'. assert (q' <> q) by congruence. apply (data_ok_ext d st); [done|done| |done].
    simpl. apply zget_zset_ne. intros E. by apply (fmap_inj q_buf reqs) in E. }
  assert (Hnh : h ∉ avail ++ work /\ h ∉ used /\ h ∉ done).
  { rewrite <- Permutation_middle in Hnd. apply list.NoDup_cons in Hnd as [Hn _]. rewrite !elem_of_app in *. tauto. }
  split; simpl; try done.
  - intros x [->|Hx]%elem_of_zset; [|by apply Bf]. destruct Hus as [_ E _]. unfold zget in E.
    destruct (0 <=? q_buf q); [|done]. apply list_elem_of_lookup_2, Bf in E. done.
  - intros q' Hq'. apply (chain_ok_ext d); [by apply Ch|done|done].
  - rewrite Hd, <- Permutation_middle. rewrite (app_assoc _ used (done ++ [h])), (app_assoc _ done [h]), <- (app_assoc _ used done).
    by rewrite (Permutation_app_comm _ [h]).
  - intros q' Hq' Hi. apply Hoth; [done|intros E; rewrite E in Hi; tauto|]. by apply Dv.
  - intros q' Hq' Hi. apply Hoth; [done|intros E; rewrite E in Hi; tauto|]. apply Us; [done|by right].
  - intros q' Hq' Hi. apply elem_of_app in Hi as [Hi|Hi%list_elem_of_singleton].
    + apply Hoth; [done|intros E; rewrite E in Hi; tauto|]. by apply Dn.
    + assert (q' = q) as -> by (apply (busy_inj reqs q' q h); try done; [rewrite <- Hi|rewrite <- Eh]; done).
      destruct Hus as [I1 I2 I3]. split; simpl; [done| |done].
      rewrite zget_zset_eq; [done|]. by apply zget_Some in I2.
  - apply in_ring_neq in Ru; [apply Ru|simpl; lia].
Qed.

Lemma intr_loop_run used d st seen work reqs avail done :
  vinv_at (Vsys d st seen work reqs) avail used done ->
  exists d' t, intr_loop (length used) d = Done tt d' t /\ vinv_at (Vsys d' st seen work reqs) avail [] (done ++ used).
Proof.
  revert d done. induction used as [|h used IH]; intros d done I; cbn [length intr_loop].
  - exists d, []. erewrite bind_Done by done. destruct (vi_used_ring _ _ _ _ I) as (_ & Hf & Ht & _). simpl in *.
    rewrite Z.add_0_r, wrap_small in Ht by done. rewrite Ht, Z.eqb_refl, app_nil_r. done.
  - pose proof (inv_lens _ _ _ _ I) as Hfew. cbn [length] in Hfew.
    destruct (in_ring_neq _ _ _ _ _ (vi_used_ring _ _ _ _ I)) as (Hne & Hh & _); [simpl; lia|]. simpl in Hne, Hh.
    destruct (inv_find _ _ _ _ I h) as (q & Hq & Eh); [rewrite !elem_of_app, elem_of_cons; auto|]. simpl in Hq.
    assert (Hus : data_ok d st q PUsed) by (apply (vi_used _ _ _ _ I); simpl; [done|rewrite Eh; left]).
    destruct (IH _ _ (inv_seen _ _ _ _ _ _ _ _ _ q I Hq Eh)) as (d' & t & E & I').
    pose proof (da_info _ _ _ _ Hus) as Hi. pose proof (da_buf _ _ _ _ Hus) as Hb. rewrite Eh in Hi. simpl in Hi, Hb.
    erewrite bind_Done by done. rewrite (proj2 (Z.eqb_neq _ _) Hne), prepend_nil.
    erewrite bind_Done by (unfold of_option; by rewrite Hh). rewrite prepend_nil.
    erewrite bind_Done by (by apply arr_get_run). cbn [in_status in_b Z.eqb negb]. rewrite prepend_nil.
    erewrite bind_Done by done. rewrite prepend_nil.
    erewrite bind_Done by (by apply (arr_upd_run dk_bufs)). rewrite prepend_nil.
    erewrite bind_Done by done. erewrite bind_Done by done.
    match goal with |- context [intr_loop _ ?x] => change x with (seen_disk d st q) end. eexists d', _. rewrite E. split; [reflexivity|].
    by rewrite <- app_assoc in I'.
Qed.

Lemma intr_run d st seen work reqs avail used done status :
  vinv_at (Vsys d st seen work reqs) avail used done ->
  exists d' t, virtio_disk_intr status d = Done tt d' t /\ vinv_at (Vsys d' st seen work reqs) avail [] (done ++ used).
Proof.
  intros I. destruct (intr_loop_run used d st seen work reqs avail done I) as (d' & t & E & I').
  pose proof (inv_lens _ _ _ _ I) as Hfew. pose proof (in_ring_len _ _ _ _ (vi_used_ring _ _ _ _ I)) as El. simpl in *.
  unfold virtio_disk_intr. erewrite bind_Done by done. erewrite (bind_Done get) by done.
  rewrite El, Nat2Z.id, E by lia. eexists d', _. split; [reflexivity|done].
Qed.

(** ** A request is finished *)

Lemma rw_wait_run d st seen work reqs avail used done q :
  vinv_at (Vsys d st seen work reqs) avail used done -> q ∈ reqs ->
  (rw_wait (q_buf q) d = Done tt d [] /\ q_head q ∈ done /\ data_ok d st q PDone) \/
  (rw_wait (q_buf q) d = Sleep (ChBuf (q_buf q)) d [] /\ q_head q ∈ (avail ++ work) ++ used).
Proof.
  intros I Hq. assert (Hh : q_head q ∈ (avail ++ work) ++ used ++ done)
    by (rewrite <- (vi_heads _ _ _ _ I); by apply list_elem_of_fmap_2).
  assert (R : forall p, data_ok d st q p ->
    rw_wait (q_buf q) d = if disk_flag p =? 1 then Sleep (ChBuf (q_buf q)) d [] else Done tt d []).
  { intros p Hp. unfold rw_wait. erewrite bind_Done by (apply arr_get_run, Hp). cbn [vb_disk]. by destruct p. }
  rewrite app_assoc in Hh. apply elem_of_app in Hh as [Hh|Hh].
  - right. split; [|done]. apply elem_of_app in Hh as [Hh|Hh].
    + rewrite (R PDev); [done|]. by apply (vi_dev _ _ _ _ I).
    + rewrite (R PUsed); [done|]. by apply (vi_used _ _ _ _ I).
  - left. assert (Hd : data_ok d st q PDone) by (by apply (vi_done _ _ _ _ I)). rewrite (R PDone) by done. done.
Qed.

(** The chain of a request is freed. *)
Lemma free_chain_run d X q :
  chain_ok d q -> free_ok d (idxs q ++ X) -> NoDup (idxs q ++ X) -> (forall i, i ∈ idxs q -> 0 <= i < NUM) ->
  length (dk_desc d) = Z.to_nat NUM ->
  let d' := freed (q_tail q) (freed (q_mid q) (freed (q_head q) d)) in
  (exists t, free_chain (q_head q) d = Done tt d' t) /\ free_ok d' X.
Proof.
  intros [H1 H2 H3 _] Hf Hnd Hr Hl d'. unfold idxs in *. cbn [app] in *.
  pose proof Hnd as Hnd0. apply list.NoDup_cons in Hnd as [N0 Hnd]. apply list.NoDup_cons in Hnd as [N1 Hnd].
  apply list.NoDup_cons in Hnd as [N2 _].
  pose proof N0 as N0'. rewrite !elem_of_cons in N0'. pose proof N1 as N1'. rewrite elem_of_cons in N1'.
  destruct (free_desc_run d _ _ Hf N0) as [E0 F0]; [apply Hr; left|done|].
  destruct (free_desc_run _ _ _ F0 N1) as [E1 F1]; [apply Hr; right; left|simpl; by rewrite length_zset|].
  destruct (free_desc_run _ _ _ F1 N2) as [E2 F2]; [apply Hr; right; right; left|simpl; by rewrite !length_zset|].
  split; [|done]. unfold free_chain. change (S (Z.to_nat NUM)) with 9%nat.
  cbn [free_chain_loop]. erewrite bind_Done by (by apply arr_get_run). cbn [dc_flags dc_next]. rewrite prepend_nil.
  erewrite bind_Done by exact E0. change (Z.land VRING_DESC_F_NEXT VRING_DESC_F_NEXT =? 0) with false. cbn [negb].
  erewrite bind_Done by (apply arr_get_run; simpl; rewrite zget_zset_ne by tauto; exact H2). cbn [dc_flags dc_next]. rewrite prepend_nil.
  erewrite bind_Done by exact E1.
  assert (Hfl : (Z.land (Z.lor (if q_write q then 0 else VRING_DESC_F_WRITE) VRING_DESC_F_NEXT) VRING_DESC_F_NEXT =? 0) = false)
    by (by destruct (q_write q)).
  rewrite Hfl. cbn [negb].
  erewrite bind_Done by (apply arr_get_run; simpl; rewrite !zget_zset_ne by tauto; exact H3). cbn [dc_flags dc_next]. rewrite prepend_nil.
  erewrite bind_Done by exact E2. eexists. reflexivity.
Qed.

Lemma idxs_other reqs q q' i : NoDup (busy (q :: reqs)) -> q' ∈ reqs -> i ∈ idxs q -> i ∉ idxs q'.
Proof.
  unfold busy. rewrite fmap_cons. cbn [concat]. intros (_ & Hd & _)%NoDup_app Hq Hi Hi'. apply (Hd i Hi), elem_of_busy. eauto.
Qed.

Lemma rw_end_run d st seen work r1 q r2 avail used done :
  vinv_at (Vsys d st seen work (r1 ++ q :: r2)) avail used done -> q_head q ∈ done ->
  exists d' t, rw_end (q_head q) d = Done tt d' t /\ vinv (Vsys d' st seen work (r1 ++ r2)).
Proof.
  intros I Hin. assert (Hq : q ∈ r1 ++ q :: r2) by (rewrite elem_of_app, elem_of_cons; auto).
  pose proof (inv_head_range _ _ _ _ I q Hq) as Hrg. pose proof (inv_heads_nodup _ _ _ _ I) as Hhn.
  assert (Hdn : data_ok d st q PDone) by (by apply (vi_done _ _ _ _ I)).
  destruct I as [[L1 [L2 L3]] Fr Nd Rg Bf [Ds1 Ds2] Ch Hd Dv Us Dn Ra Ru]. simpl in *.
  assert (Hp : r1 ++ q :: r2 ≡ₚ q :: r1 ++ r2) by (symmetry; apply Permutation_middle).
  assert (Hsub : forall q', q' ∈ r1 ++ r2 -> q' ∈ r1 ++ q :: r2) by (intros q'; rewrite !elem_of_app, elem_of_cons; tauto).
  rewrite (busy_perm _ _ Hp) in Nd. set (X := busy (r1 ++ r2)).
  assert (EX : busy (q :: r1 ++ r2) = idxs q ++ X) by done.
  set (d1 := with_info (zset (dk_info d) (q_head q) (Vinfo None 0)) d).
  destruct (free_chain_run d1 X q) as [[t Et] F']; [| |by rewrite <- EX|done|done|].
  { apply (chain_ok_ext d); [by apply Ch|done|done]. }
  { apply (free_ok_ext d (busy (r1 ++ q :: r2))); [|done]. intros i. by rewrite (busy_perm _ _ Hp), EX. }
  set (d' := freed _ _) in *. exists d', ([] ++ t). split.
  { unfold rw_end. erewrite bind_Done by (apply (arr_upd_run dk_info); apply Hdn). cbn [in_status status_byte].
    fold d1. by rewrite Et. }
  apply list_elem_of_split in Hin as (e1 & e2 & ->).
  assert (Hother : forall q' i, q' ∈ r1 ++ r2 -> i ∈ idxs q' -> i <> q_head q /\ i <> q_mid q /\ i <> q_tail q).
  { intros q' i Hq' Hi. split_and!; intros E; (apply (idxs_other (r1 ++ r2) q q' i); [done|done| |done]; rewrite E; auto). }
  assert (Hne : forall q', q' ∈ r1 ++ r2 -> q_head q' <> q_head q) by (intros q' Hq'; by apply (Hother q')).
  assert (Hdata : forall q' p, q' ∈ r1 ++ r2 -> data_ok d st q' p -> data_ok d' st q' p).
  { intros q' p Hq' Hp'. apply (data_ok_ext d st); try done. simpl. apply zget_zset_ne. intros E. by apply (Hne q'). }
  exists avail, used, (e1 ++ e2). split; simpl; try done.
  - by rewrite !length_zset.
  - rewrite EX in Nd. by apply NoDup_app in Nd as (_ & _ & Nd).
  - intros i Hi. apply Rg. rewrite (busy_perm _ _ Hp), EX, elem_of_app. by right.
  - rewrite Hp, fmap_cons in Ds1, Ds2. apply list.NoDup_cons in Ds1 as [_ ?], Ds2 as [_ ?]. done.
  - intros q' Hq'. apply (chain_ok_ext d); [by apply Ch, Hsub| |done].
    intros i Hi. destruct (Hother q' i Hq' Hi) as (? & ? & ?). simpl. rewrite !zget_zset_ne by congruence. done.
  - rewrite Hp, fmap_cons in Hd. rewrite <- Permutation_middle in Hd. rewrite (app_assoc (avail ++ work) used) in Hd.
    rewrite <- Permutation_middle in Hd. apply Permutation_cons_inv in Hd. rewrite Hd. by rewrite <- app_assoc.
  - intros q' Hq' Hi. apply Hdata; [done|]. by apply Dv; [apply Hsub|].
  - intros q' Hq' Hi. apply Hdata; [done|]. by apply Us; [apply Hsub|].
  - intros q' Hq' Hi. apply Hdata; [done|]. apply Dn; [by apply Hsub|]. apply elem_of_app in Hi. rewrite elem_of_app, elem_of_cons. tauto.
Qed.

(** ** A request is made *)

Definition started (d : disk) (f : list Z) (b : Z) (w : bool) (x : vbuf) (i0 i1 i2 : Z) : disk :=
  Disk
    (zset (zset (zset (dk_desc d) i0 (VirtqDesc (VOps i0) 16 VRING_DESC_F_NEXT i1))
            i1 (VirtqDesc (VData b) BSIZE (Z.lor (if w then 0 else VRING_DESC_F_WRITE) VRING_DESC_F_NEXT) i2))
       i2 (VirtqDesc (VStatus i0) 1 VRING_DESC_F_WRITE 0))
    (VirtqAvail (u16 (av_idx (dk_avail d) + 1)) (zset (av_ring (dk_avail d)) (av_idx (dk_avail d) mod NUM) i0))
    (dk_used d) f (dk_used_idx d)
    (zset (dk_info d) i0 (Vinfo (Some b) 255))
    (zset (dk_ops d) i0 (VirtioBlkReq (if w then VIRTIO_BLK_T_OUT else VIRTIO_BLK_T_IN) 0 (u32 (vb_blockno x * (BSIZE / 512)))))
    (zset (dk_bufs d) b (Vbuf (vb_blockno x) 1 (vb_data x))).

Lemma rw_start_run d X b w x :
  zget (dk_bufs d) b = Some x -> free_ok d X -> length (dk_desc d) = Z.to_nat NUM ->
  length (dk_info d) = Z.to_nat NUM -> length (dk_ops d) = Z.to_nat NUM ->
  (exists l f t, rw_start b w d = Done l.1.1 (started d f b w x l.1.1 l.1.2 l.2) t /\ three X l /\
     free_ok (with_free f d) ([l.1.1; l.1.2; l.2] ++ X)) \/
  (exists d' t, rw_start b w d = Sleep ChDiskFree d' t /\ cleared X d d' /\ free_ok d' X /\
     exists L, (length L <= 2)%nat /\ forall i, 0 <= i < NUM -> i ∈ L ++ X).
Proof.
  intros Hx Hf L1 L2 L3. unfold rw_start. erewrite bind_Done by (by apply arr_get_run). rewrite prepend_nil.
  destruct (alloc3_run d X Hf L1) as [([[i0 i1] i2] & f & E & H3 & Hf')|(d' & t & E & Hc & Hf' & HL)].
  2: { right. erewrite bind_Done by done. eexists d', _. split; [reflexivity|]. done. }
  left. exists (i0, i1, i2), f. cbn [fst snd] in *. erewrite bind_Done by done. rewrite prepend_nil.
  destruct H3 as [Hnd Hr]. destruct (Hr i0) as [R0 _]; [left|]. destruct (Hr i1) as [R1 _]; [right; left|].
  destruct (Hr i2) as [R2 _]; [right; right; left|].
  destruct (zget_in _ _ i0 L3 R0) as [o Ho]. destruct (zget_in _ _ i0 L2 R0) as [n Hn]. destruct (zget_in _ _ i0 L1 R0) as [y0 H0].
  erewrite bind_Done by (by apply (arr_upd_run dk_ops)). rewrite prepend_nil.
  erewrite bind_Done by (by apply (arr_upd_run dk_desc)). rewrite prepend_nil.
  destruct (zget_in (zset (dk_desc d) i0 (VirtqDesc (VOps i0) 16 VRING_DESC_F_NEXT i1)) NUM i1) as [y1 H1]; [by rewrite length_zset|done|].
  erewrite bind_Done by (by apply (arr_upd_run dk_desc)). rewrite prepend_nil.
  erewrite bind_Done by (by apply (arr_upd_run dk_info)). rewrite prepend_nil.
  destruct (zget_in (zset (zset (dk_desc d) i0 (VirtqDesc (VOps i0) 16 VRING_DESC_F_NEXT i1)) i1 (VirtqDesc (VData b) BSIZE
    (Z.lor (if w then 0 else VRING_DESC_F_WRITE) VRING_DESC_F_NEXT) i2)) NUM i2) as [y2 H2]; [by rewrite !length_zset|done|].
  erewrite bind_Done by (by apply (arr_upd_run dk_desc)). rewrite prepend_nil.
  erewrite bind_Done by (by apply (arr_upd_run dk_bufs)). rewrite prepend_nil.
  erewrite bind_Done by (apply (arr_upd_run dk_info); simpl; apply zget_zset_eq; by apply zget_Some in Hn). rewrite prepend_nil.
  erewrite bind_Done by done. rewrite prepend_nil. erewrite bind_Done by done. rewrite prepend_nil.
  erewrite bind_Done by done. eexists. split; [|done]. unfold started. simpl. by rewrite zset_zset.
Qed.

(** The request just made: its chain is in the table and its data are where the device
    expects them. *)
Lemma started_own d st f b w x j0 j1 j2 :
  length (dk_desc d) = Z.to_nat NUM -> length (dk_info d) = Z.to_nat NUM -> length (dk_ops d) = Z.to_nat NUM ->
  (forall i, i ∈ [j0; j1; j2] -> 0 <= i < Z.of_nat (Z.to_nat NUM)) -> j0 <> j1 -> j0 <> j2 -> j1 <> j2 ->
  zget (dk_bufs d) b = Some x -> buf_ok x ->
  let q := Req j0 j1 j2 b (vb_blockno x) w (vb_data x) (disk_block st (vb_blockno x)) in
  chain_ok (started d f b w x j0 j1 j2) q /\ data_ok (started d f b w x j0 j1 j2) st q PDev.
Proof.
  intros L1 L2 L3 Hri D01 D02 D12 Hx Hbx q.
  pose proof (Hri j0 ltac:(left)) as R0. pose proof (Hri j1 ltac:(right; left)) as R1. pose proof (Hri j2 ltac:(right; right; left)) as R2.
  split; split; simpl; rewrite ?zget_zset_ne by congruence.
  - by rewrite zget_zset_eq by (rewrite ?length_zset, L1; done).
  - by rewrite zget_zset_eq by (rewrite ?length_zset, L1; done).
  - by rewrite zget_zset_eq by (rewrite ?length_zset, L1; done).
  - rewrite zget_zset_eq by (rewrite L3; done). change (BSIZE / 512) with 2. destruct Hbx. rewrite wrap_small by lia.
    by rewrite Z.mul_comm.
  - by rewrite zget_zset_eq by (rewrite L2; done).
  - rewrite zget_zset_eq; [by destruct x|by apply zget_Some in Hx].
  - done.
Qed.

Lemma inv_start d st seen work reqs avail used done b w x i0 d' t x0 x1 :
  vinv_at (Vsys d st seen work reqs) avail used done ->
  zget (dk_bufs d) b = Some x -> b ∉ q_buf <$> reqs -> vb_blockno x ∉ q_block <$> reqs ->
  rw_start b w d = Done i0 d' t -> zget (dk_desc d') i0 = Some x0 -> zget (dk_desc d') (dc_next x0) = Some x1 ->
  vinv (Vsys d' st seen work
    (Req i0 (dc_next x0) (dc_next x1) b (vb_blockno x) w (vb_data x) (disk_block st (vb_blockno x)) :: reqs)).
Proof.
  intros I Hx Hb Hblk Hs Hx0 Hx1. pose proof (inv_lens _ _ _ _ I) as Hfew.
  destruct I as [[L1 [L2 L3]] Fr Nd Rg Bf [Ds1 Ds2] Ch Hd Dv Us Dn Ra Ru]. simpl in *.
  destruct (rw_start_run d (busy reqs) b w x Hx Fr L1 L2 L3) as [([[j0 j1] j2] & f & t' & E & [Hnd Hr] & Hf)|(? & ? & E & _)];
    rewrite Hs in E; [|done]. injection E as -> -> <-. cbn [fst snd] in *.
  assert (Hri : forall i, i ∈ [j0; j1; j2] -> 0 <= i < Z.of_nat (Z.to_nat NUM)) by (intros i Hi; apply Hr in Hi; unfold NUM in *; lia).
  pose proof (Hri j0 ltac:(left)) as R0. pose proof (Hri j1 ltac:(right; left)) as R1. pose proof (Hri j2 ltac:(right; right; left)) as R2.
  pose proof Hnd as Hnd'. apply list.NoDup_cons in Hnd' as [N0 Hnd']. apply list.NoDup_cons in Hnd' as [N1 _].
  assert (D01 : j0 <> j1) by (intros ->; apply N0; left). assert (D02 : j0 <> j2) by (intros ->; apply N0; right; left).
  assert (D12 : j1 <> j2) by (intros ->; apply N1; left).
  simpl in Hx0, Hx1. rewrite !zget_zset_ne in Hx0 by congruence. rewrite zget_zset_eq in Hx0 by (by rewrite L1). injection Hx0 as <-.
  cbn [dc_next] in *. rewrite zget_zset_ne, zget_zset_eq in Hx1 by (rewrite ?length_zset, ?L1; (done || congruence)). injection Hx1 as <-. cbn [dc_next].
  set (q := Req j0 j1 j2 b (vb_blockno x) w (vb_data x) (disk_block st (vb_blockno x))).
  assert (Hbx : buf_ok x) by (apply Bf; unfold zget in Hx; destruct (0 <=? b); [by eapply list_elem_of_lookup_2|done]).
  destruct (started_own d st f b w x j0 j1 j2 L1 L2 L3 Hri D01 D02 D12 Hx Hbx) as [Hown1 Hown2]. fold q in Hown1, Hown2.
  assert (Hout : forall q' i, q' ∈ reqs -> i ∈ idxs q' -> i <> j0 /\ i <> j1 /\ i <> j2).
  { intros q' i Hq' Hi. assert (Hib : i ∈ busy reqs) by (apply elem_of_busy; eauto).
    split_and!; intros E; (apply (proj2 (Hr i ltac:(rewrite E, !elem_of_cons; auto))), Hib). }
  assert (Hhd : forall q', q' ∈ reqs -> j0 <> q_head q').
  { intros q' Hq' E. destruct (Hout q' j0 Hq') as (? & _); [rewrite E; auto|done]. }
  set (d' := started d f b w x j0 j1 j2).
  assert (Hdata : forall q' p, q' ∈ reqs -> data_ok d st q' p -> data_ok d' st q' p).
  { intros q' p Hq' Hp. apply (data_ok_ext d st); [done| | |done]; simpl; apply zget_zset_ne.
    - by apply Hhd.
    - intros E. apply Hb. rewrite E. by apply list_elem_of_fmap_2. }
  assert (Hh0 : j0 ∉ (avail ++ work) ++ used ++ done).
  { rewrite <- Hd, list_elem_of_fmap. intros (q' & E & Hq'). by apply (Hhd q'). }
  exists (avail ++ [j0]), used, done. split; simpl; try done.
  - by rewrite !length_zset.
  - apply list.NoDup_app. split; [done|]. split; [|done]. intros i Hi. by apply Hr.
  - intros i Hi. unfold busy in Hi. rewrite fmap_cons in Hi. cbn [concat] in Hi. apply elem_of_app in Hi as [Hi|Hi]; [by apply Hr|by apply Rg].
  - intros y [->|Hy]%elem_of_zset; [done|by apply Bf].
  - by rewrite !list.NoDup_cons.
  - intros q' [->|Hq']%elem_of_cons.
    + exact Hown1.
    + apply (chain_ok_ext d); [by apply Ch| |].
      * intros i Hi. destruct (Hout q' i Hq' Hi) as (? & ? & ?). simpl. rewrite !zget_zset_ne by congruence. done.
      * simpl. apply zget_zset_ne. by apply Hhd.
  - rewrite Hd, <- (app_assoc avail [j0] work). simpl. by rewrite <- (Permutation_middle avail).
  - intros q' [->|Hq']%elem_of_cons Hi.
    + exact Hown2.
    + apply Hdata; [done|]. apply Dv; [done|]. rewrite !elem_of_app, list_elem_of_singleton in Hi.
      destruct Hi as [[Hi|Hi]|Hi]; [rewrite elem_of_app; auto| |rewrite elem_of_app; auto].
      exfalso. by apply (Hhd q').
  - intros q' [->|Hq']%elem_of_cons Hi; [exfalso; apply Hh0; simpl in Hi; rewrite !elem_of_app; auto|]. apply Hdata; [done|]. by apply Us.
  - intros q' [->|Hq']%elem_of_cons Hi; [exfalso; apply Hh0; simpl in Hi; rewrite !elem_of_app; auto|]. apply Hdata; [done|]. by apply Dn.
  - apply in_ring_put; [done|]. unfold NUM. lia.
Qed.

(** ** The other steps *)

Lemma set_free_loop n lo d : 0 <= lo -> lo + Z.of_nat n <= Z.of_nat (length (dk_free d)) ->
  exists f, for_loop n lo (fun i => set_free i 1) d = Done tt (with_free f d) [] /\ length f = length (dk_free d) /\
    forall i, zget f i = if decide (lo <= i < lo + Z.of_nat n) then Some 1 else zget (dk_free d) i.
Proof.
  revert lo d. induction n as [|n IH]; intros lo d H0 Hl; cbn [for_loop].
  - exists (dk_free d). split; [by destruct d|]. split; [done|]. intros i. by rewrite decide_False by lia.
  - destruct (zget_is_Some (dk_free d) lo) as [v Hv]; [lia|].
    erewrite bind_Done by (by apply (arr_upd_run dk_free)). rewrite prepend_nil.
    destruct (IH (lo + 1) (with_free (zset (dk_free d) lo 1) d)) as (f & E & Hlf & Hf); [lia|simpl; rewrite length_zset; lia|].
    exists f. rewrite E. simpl in Hlf, Hf. rewrite length_zset in Hlf. split; [done|]. split; [done|]. intros i. rewrite Hf.
    destruct (decide (lo = i)) as [<-|Hne].
    + rewrite decide_False, decide_True by lia. apply zget_zset_eq. lia.
    + rewrite zget_zset_ne by done. repeat case_decide; (done || lia).
Qed.

(** Each step of [virtio_disk_init] is an event, an assignment or a check. *)
Ltac init_step H :=
  match type of H with
  | (if ?c then panic _ else _) _ = _ => destruct c; [discriminate H|]
  | bind _ _ _ = _ => apply bind_Done_inv in H as (? & ? & ? & ? & [= <- <- <-] & H & ->)
  end.

Lemma init_run d0 r status pages d t :
  virtio_disk_init r status pages d0 = Done tt d t -> length (dk_free d0) = Z.to_nat NUM ->
  exists f, d = Disk (replicate (Z.to_nat NUM) zero_desc) (VirtqAvail 0 (replicate (Z.to_nat NUM) 0))
    (VirtqUsed 0 (replicate (Z.to_nat NUM) 0)) f (dk_used_idx d0) (dk_info d0) (dk_ops d0) (dk_bufs d0) /\
    length f = Z.to_nat NUM /\ forall i, 0 <= i < NUM -> zget f i = Some 1.
Proof.
  intros H Hl. destruct pages as [[pd pa] pu]. unfold virtio_disk_init in H. cbv zeta in H. repeat init_step H.
  destruct (set_free_loop (Z.to_nat NUM) 0 (with_used (VirtqUsed 0 (replicate (Z.to_nat NUM) 0))
    (with_avail (VirtqAvail 0 (replicate (Z.to_nat NUM) 0)) (with_desc (replicate (Z.to_nat NUM) zero_desc) d0))))
    as (f & E & Hlf & Hf); [lia|simpl; rewrite Hl; lia|].
  apply bind_Done_inv in H as (? & s1 & ? & ? & E1 & H & ->). assert (E2 := eq_trans (eq_sym E) E1). injection E2 as <- <- <-.
  injection H as <- <-. exists f. split; [done|]. simpl in Hlf. split; [congruence|]. intros i Hi. rewrite Hf.
  by rewrite decide_True by (unfold NUM in *; lia).
Qed.

Lemma inv_init s : vinit s -> vinv s.
Proof.
  intros [d0 r status pages d t st H1 H2 H3 H4 H5 H]. destruct (init_run _ _ _ _ _ _ H H1) as (f & -> & Hlf & Hf).
  exists [], [], []. split; simpl; try done; try (intros q Hq; by apply not_elem_of_nil in Hq).
  - constructor.
  - split; constructor.
  - rewrite H4. done.
Qed.

Lemma inv_sleep d st seen work reqs avail used done b w d' t :
  vinv_at (Vsys d st seen work reqs) avail used done -> rw_start b w d = Sleep ChDiskFree d' t ->
  vinv_at (Vsys d' st seen work reqs) avail used done.
Proof.
  intros [[L1 [L2 L3]] Fr Nd Rg Bf Ds Ch Hd Dv Us Dn Ra Ru] Hs. simpl in *.
  destruct (zget (dk_bufs d) b) as [x|] eqn:Hx.
  2: { unfold rw_start, arr_get, bind, get, of_option in Hs. simpl in Hs. rewrite Hx in Hs. done. }
  destruct (rw_start_run d (busy reqs) b w x Hx Fr L1 L2 L3) as [(? & ? & ? & E & _)|(d1 & t1 & E & (f & l & -> & Hl & Hc) & Hf & _)];
    rewrite Hs in E; [done|]. injection E as -> ->.
  split; simpl; try done.
  - split; [by rewrite Hl|done].
  - intros q Hq. apply (chain_ok_ext d); [by apply Ch| |done]. intros i Hi. simpl. apply Hc, elem_of_busy. eauto.
  - intros q Hq Hi. by apply (data_ok_ext d st); [apply Dv|..].
  - intros q Hq Hi. by apply (data_ok_ext d st); [apply Us|..].
  - intros q Hq Hi. by apply (data_ok_ext d st); [apply Dn|..].
Qed.

Lemma inv_cache d st seen work reqs avail used done bufs :
  vinv_at (Vsys d st seen work reqs) avail used done -> bufs_ok bufs ->
  (forall q, q ∈ reqs -> zget bufs (q_buf q) = zget (dk_bufs d) (q_buf q)) ->
  vinv_at (Vsys (with_bufs bufs d) st seen work reqs) avail used done.
Proof.
  intros [Ls Fr Nd Rg Bf Ds Ch Hd Dv Us Dn Ra Ru] Hb Hq. simpl in *. split; simpl; try done.
  - intros q Hq'. by apply (chain_ok_ext d); [apply Ch|..].
  - intros q Hq' Hi. apply (data_ok_ext d st); [by apply Dv|done|by apply Hq|done].
  - intros q Hq' Hi. apply (data_ok_ext d st); [by apply Us|done|by apply Hq|done].
  - intros q Hq' Hi. apply (data_ok_ext d st); [by apply Dn|done|by apply Hq|done].
Qed.

Lemma inv_step s s' : vstep s s' -> vinv s -> vinv s'.
Proof.
  intros Hs (avail & used & done & I). destruct Hs.
  - by eapply inv_start.
  - eexists _, _, _. by eapply inv_sleep.
  - destruct (inv_take _ _ _ _ _ _ _ _ _ I H H0) as (avail' & _ & I'). by eexists _, _, _.
  - eexists _, _, _. by eapply inv_exec.
  - destruct (intr_run _ _ _ _ _ _ _ _ status I) as (d1 & t1 & E & I'). rewrite E in H. injection H as <- <-. by eexists _, _, _.
  - destruct (rw_wait_run _ _ _ _ _ _ _ _ q I) as [(_ & Hin & _)|[E _]]; [rewrite elem_of_app, elem_of_cons; auto| |congruence].
    destruct (rw_end_run _ _ _ _ _ _ _ _ _ _ I Hin) as (d1 & t1 & E & I'). rewrite E in H0. injection H0 as <- <-. done.
  - eexists _, _, _. by eapply inv_cache.
Qed.

Lemma inv_reachable s0 s : vinit s0 -> rtc vstep s0 s -> vinv s.
Proof.
  intros H0 Hs. pose proof (inv_init _ H0) as I. clear H0. induction Hs as [|s1 s2 s3 H12 _ IH]; [done|].
  by apply IH, (inv_step s1).
Qed.

(** ** What the driver guarantees *)

Lemma rw_start_cases s avail used done b w x : vinv_at s avail used done -> zget (dk_bufs (sy_d s)) b = Some x ->
  (exists i d' t, rw_start b w (sy_d s) = Done i d' t) \/
  (length (sy_reqs s) = 2%nat /\ exists d' t, rw_start b w (sy_d s) = Sleep ChDiskFree d' t).
Proof.
  intros I Hx. destruct (vi_lens _ _ _ _ I) as (L1 & L2 & L3).
  destruct (rw_start_run _ _ b w x Hx (vi_free _ _ _ _ I) L1 L2 L3) as [(l & f & t & E & _)|(d' & t & E & _ & _ & L & HL & Hall)]; [eauto|].
  right. split; [|by eauto]. pose proof (inv_few _ _ _ _ I).
  assert (length (seqZ 0 NUM) <= length (L ++ busy (sy_reqs s)))%nat as Hle.
  { apply NoDup_incl_length; [apply NoDup_ListNoDup, NoDup_seqZ|]. intros i Hi%list_elem_of_In%elem_of_seqZ.
    apply list_elem_of_In, Hall. lia. }
  rewrite length_app, length_busy, length_seqZ in Hle. change (Z.to_nat NUM) with 8%nat in Hle. lia.
Qed.


(** C18: [virtio_disk_rw] transfers the block: when the wait of a request is over,
    the buffer and the block on the disk are the same, for a write the data that was in the
    buffer when the request was made, for a read the block as it was then. *)
Theorem virtio_transfer s0 s q : vinit s0 -> rtc vstep s0 s -> q ∈ sy_reqs s ->
  rw_wait (q_buf q) (sy_d s) = Done tt (sy_d s) [] ->
  zget (dk_bufs (sy_d s)) (q_buf q) = Some (Vbuf (q_block q) 0 (disk_block (sy_st s) (q_block q))) /\
  disk_block (sy_st s) (q_block q) = if q_write q then q_data q else q_disk q.
Proof.
  intros H0 Hs Hq Hw. destruct (inv_reachable s0 s H0 Hs) as (avail & used & done & I).
  destruct s as [d st seen work reqs]. simpl in *.
  destruct (rw_wait_run _ _ _ _ _ _ _ _ q I Hq) as [(_ & _ & [_ H1 H2])|[E _]]; [done|congruence].
Qed.

(** ** Requests complete *)

Lemma drain_avail avail d st seen work reqs used done : vinv_at (Vsys d st seen work reqs) avail used done ->
  exists seen' , rtc vstep (Vsys d st seen work reqs) (Vsys d st seen' (work ++ avail) reqs) /\
    vinv_at (Vsys d st seen' (work ++ avail) reqs) [] used done.
Proof.
  revert seen work. induction avail as [|h avail IH]; intros seen work I; [exists seen; rewrite app_nil_r; done|].
  pose proof (inv_lens _ _ _ _ I) as Hfew. cbn [length] in Hfew.
  destruct (in_ring_neq _ _ _ _ _ (vi_avail_ring _ _ _ _ I)) as (Hne & Hh & _); [simpl; lia|]. simpl in Hne, Hh.
  destruct (inv_take _ _ _ _ _ _ _ _ _ I Hne Hh) as (avail' & [= <-] & I').
  destruct (IH _ _ I') as (seen' & Hs & I''). exists seen'. rewrite <- app_assoc in Hs, I''. split; [|done].
  eapply rtc_l; [|exact Hs]. by constructor.
Qed.

Lemma drain_work work d st seen reqs used done : vinv_at (Vsys d st seen work reqs) [] used done ->
  exists d' st', rtc vstep (Vsys d st seen work reqs) (Vsys d' st' seen [] reqs) /\
    vinv_at (Vsys d' st' seen [] reqs) [] (used ++ work) done.
Proof.
  revert d st used. induction work as [|h work IH]; intros d st used I; [exists d, st; rewrite app_nil_r; done|].
  destruct (inv_find _ _ _ _ I h) as (q & Hq & Eh); [simpl; rewrite elem_of_cons; auto|]. simpl in Hq.
  assert (Hd : data_ok d st q PDev) by (apply (vi_dev _ _ _ _ I); simpl; [done|rewrite elem_of_cons; auto]).
  assert (Hex : dev_exec d st h = Some (exec_disk d st q, exec_store st q)).
  { rewrite <- Eh. apply dev_exec_run; [by apply (vi_chain _ _ _ _ I)|done|by eapply inv_data_len]. }
  pose proof (inv_exec d st seen [] h work reqs [] used done _ _ I Hex) as I'.
  destruct (IH _ _ _ I') as (d' & st' & Hs & I''). exists d', st'. rewrite <- app_assoc in I''. split; [|done].
  eapply rtc_l; [|exact Hs]. by apply (step_exec d st seen [] h work).
Qed.


(** ** An example: a write of one block *)

Definition demo_regs (r : Z) : Z :=
  if r =? VIRTIO_MMIO_MAGIC_VALUE then 0x74726976
  else if r =? VIRTIO_MMIO_VENDOR_ID then 0x554d4551
  else if (r =? VIRTIO_MMIO_VERSION) || (r =? VIRTIO_MMIO_DEVICE_ID) then 2
  else if r =? VIRTIO_MMIO_QUEUE_NUM_MAX then 1024
  else 0.

Definition demo_buf : vbuf := Vbuf 5 0 (replicate (Z.to_nat BSIZE) 7).
Definition demo_static : disk :=
  Disk [] (VirtqAvail 0 []) (VirtqUsed 0 []) (replicate 8 0) 0 (replicate 8 (Vinfo None 0)) (replicate 8 (VirtioBlkReq 0 0 0)) [demo_buf].
Definition demo_vdisk : disk :=
  Disk (replicate 8 zero_desc) (VirtqAvail 0 (replicate 8 0)) (VirtqUsed 0 (replicate 8 0)) (replicate 8 1) 0
    (replicate 8 (Vinfo None 0)) (replicate 8 (VirtioBlkReq 0 0 0)) [demo_buf].
Definition demo_vsys : vsys := Vsys demo_vdisk (fun _ => 0) 0 [] [].
Definition demo_req : req := Req 0 1 2 0 5 true (vb_data demo_buf) (disk_block (fun _ => 0) 5).
Definition demo_started : vsys :=
  Vsys (started demo_vdisk [0; 0; 0; 1; 1; 1; 1; 1] 0 true demo_buf 0 1 2) (fun _ => 0) 0 [] [demo_req].

Lemma demo_vinit : vinit demo_vsys.
Proof.
  eapply (vinit_intro demo_static demo_regs 8 (4096, 8192, 12288)); try done.
  - intros x Hx. apply list_elem_of_singleton in Hx as ->. split; [simpl; lia|reflexivity].
  - vm_compute. reflexivity.
Qed.

Lemma demo_start : vstep demo_vsys demo_started.
Proof.
  eapply (step_start demo_vdisk (fun _ => 0) 0 [] [] 0 true demo_buf 0 (sy_d demo_started) _
    (VirtqDesc (VOps 0) 16 1 1) (VirtqDesc (VData 0) BSIZE 1 2));
    [reflexivity|apply not_elem_of_nil|apply not_elem_of_nil|vm_compute; reflexivity|reflexivity|reflexivity].
Qed.

Lemma demo_finished : exists s, rtc vstep demo_vsys s /\ demo_req ∈ sy_reqs s /\ rw_wait 0 (sy_d s) = Done tt (sy_d s) [].
Proof.
  destruct (inv_step _ _ demo_start (inv_init _ demo_vinit)) as (avail & used & done & I).
  destruct (drain_avail _ _ _ _ _ _ _ _ I) as (seen' & S1 & I1). destruct (drain_work _ _ _ _ _ _ _ I1) as (d' & st' & S2 & I2).
  destruct (intr_run _ _ _ _ _ _ _ _ 1 I2) as (d'' & t & E & I3).
  exists (Vsys d'' st' seen' [] [demo_req]). split_and!; [|left|].
  - eapply rtc_l; [exact demo_start|]. etrans; [exact S1|]. etrans; [exact S2|]. apply rtc_once. by eapply step_intr.
  - destruct (rw_wait_run _ _ _ _ _ _ _ _ demo_req I3) as [(Hw & _)|[_ Hin]]; [left|exact Hw|by apply not_elem_of_nil in Hin].
Qed.


Lemma virtio_transfer_witness :
  exists s, rtc vstep demo_vsys s /\ disk_block (sy_st s) 5 = replicate (Z.to_nat BSIZE) 7.
Proof.
  destruct demo_finished as (s & Hs & Hq & Hw). exists s. split; [exact Hs|].
  exact (proj2 (virtio_transfer demo_vsys s demo_req demo_vinit Hs Hq Hw)).
Defined.

