(* ===== verification/Boot.v ===== *)
(** * kernel/start.c, main.c, plic.c and the registers of kernel/riscv.h

    A hart has its privilege mode, its program counter, the thread pointer and control and
    status registers; registers of machine mode cannot be read or written from supervisor
    mode, where the access is an illegal instruction.  [sie] and [sstatus] are views of [mie]
    and [mstatus], as the RISC-V privileged specification says.  Which bits of [medeleg]
    and [mideleg] exist is up to the processor, a parameter.

    [main] runs on all harts at once: [main_step] interleaves them, and the theorem is about
    every interleaving. *)

From Stdlib Require Import ZArith Lia.
From stdpp Require Import base list strings numbers relations.
From S2P Require Import Prelude Riscv.

Inductive mode := User | Supervisor | Machine.

Inductive csr :=
| Mhartid | Mstatus | Mepc | Mie | Medeleg | Mideleg | Menvcfg | Mcounteren | Pmpcfg0 | Pmpaddr0
| Satp | Stvec | Sscratch | Sepc | Scause | Stval | Stimecmp | Time.

(** Their numbers. *)
Definition csr_no (c : csr) : Z :=
  match c with
  | Mhartid => 0xf14 | Mstatus => 0x300 | Mepc => 0x341 | Mie => 0x304 | Medeleg => 0x302 | Mideleg => 0x303
  | Menvcfg => 0x30a | Mcounteren => 0x306 | Pmpcfg0 => 0x3a0 | Pmpaddr0 => 0x3b0
  | Satp => 0x180 | Stvec => 0x105 | Sscratch => 0x140 | Sepc => 0x141 | Scause => 0x142 | Stval => 0x143 | Stimecmp => 0x14d | Time => 0xc01
  end.

(** Bits 8 and 9 of the number are the lowest mode with access. *)
Definition machine_only (c : csr) : bool := Z.land (Z.shiftr (csr_no c) 8) 3 =? 3.

Record hart := Hart {
  h_mode : mode;
  h_pc : Z;
  h_tp : Z;
  h_csr : csr -> Z
}.

Definition csr_upd (f : csr -> Z) (c : csr) (x : Z) : csr -> Z := fun c' => if csr_no c' =? csr_no c then x else f c'.
Definition set_csr (c : csr) (x : Z) (h : hart) : hart := Hart (h_mode h) (h_pc h) (h_tp h) (csr_upd (h_csr h) c x).

Definition MSTATUS_MPP_MASK : Z := Z.shiftl 3 11.
Definition MSTATUS_MPP_S : Z := Z.shiftl 1 11.
Definition SSTATUS_SIE : Z := Z.shiftl 1 1.
Definition SIE_SEIE : Z := Z.shiftl 1 9.
Definition SIE_STIE : Z := Z.shiftl 1 5.
Definition SIE_SSIE : Z := Z.shiftl 1 1.
Definition MIE_STIE : Z := Z.shiftl 1 5.

(** The bits of [mstatus] that [sstatus] shows. *)
Definition sstatus_bits : Z := 0x80000003000DE762.

Section Code.
Context (medeleg_bits mideleg_bits : Z).

(** ** Access to the registers *)

(** [csrr] and [csrw] *)
Definition csrr (c : csr) : M hart Z :=
  let* h := get in
  match h_mode h with
  | Machine => ret (h_csr h c)
  | Supervisor => if machine_only c then undef "illegal instruction" else ret (h_csr h c)
  | User => undef "illegal instruction"
  end.
Definition csrw (c : csr) (x : Z) : M hart unit :=
  let* _ := csrr c in
  let x :=
    match c with
    | Medeleg => Z.land x medeleg_bits
    | Mideleg => Z.land x mideleg_bits
    | _ => x
    end in
  modify (set_csr c (u64 x)).

(** Writing through a view: the bits of [mask] only. *)
Definition csr_view (c : csr) (mask : Z) : M hart Z :=
  let* h := get in
  match h_mode h with
  | User => undef "illegal instruction"
  | _ => ret (Z.land (h_csr h c) mask)
  end.
Definition csr_view_set (c : csr) (mask x : Z) : M hart unit :=
  csr_view c mask ;;;
  modify (fun h => set_csr c (Z.lor (Z.land (h_csr h c) (Z.lnot mask)) (Z.land (u64 x) mask)) h).

Definition r_mhartid : M hart Z := csrr Mhartid.
Definition r_mstatus : M hart Z := csrr Mstatus.
Definition w_mstatus (x : Z) : M hart unit := csrw Mstatus x.
Definition w_mepc (x : Z) : M hart unit := csrw Mepc x.
Definition r_sstatus : M hart Z := csr_view Mstatus sstatus_bits.
Definition w_sstatus (x : Z) : M hart unit := csr_view_set Mstatus sstatus_bits x.
Definition r_sie : M hart Z := let* h := get in csr_view Mie (h_csr h Mideleg).
Definition w_sie (x : Z) : M hart unit := let* h := get in csr_view_set Mie (h_csr h Mideleg) x.
Definition r_mie : M hart Z := csrr Mie.
Definition w_mie (x : Z) : M hart unit := csrw Mie x.
Definition w_medeleg (x : Z) : M hart unit := csrw Medeleg x.
Definition w_mideleg (x : Z) : M hart unit := csrw Mideleg x.
Definition w_stvec (x : Z) : M hart unit := csrw Stvec x.
Definition w_stimecmp (x : Z) : M hart unit := csrw Stimecmp x.
Definition r_menvcfg : M hart Z := csrr Menvcfg.
Definition w_menvcfg (x : Z) : M hart unit := csrw Menvcfg x.
Definition w_pmpcfg0 (x : Z) : M hart unit := csrw Pmpcfg0 x.
Definition w_pmpaddr0 (x : Z) : M hart unit := csrw Pmpaddr0 x.
Definition w_satp (x : Z) : M hart unit := csrw Satp x.
Definition w_mcounteren (x : Z) : M hart unit := csrw Mcounteren x.
Definition r_mcounteren : M hart Z := csrr Mcounteren.
Definition r_time : M hart Z := csrr Time.
Definition r_tp : M hart Z := gets h_tp.
Definition w_tp (x : Z) : M hart unit := modify (fun h => Hart (h_mode h) (h_pc h) (u64 x) (h_csr h)).

(** [mret]: the mode in [MPP], interrupts of machine mode as in [MPIE]. *)
Definition mret : M hart unit :=
  let* h := get in
  match h_mode h with
  | Machine =>
    let st := h_csr h Mstatus in
    let mpp := Z.land (Z.shiftr st 11) 3 in
    let m := if mpp =? 3 then Machine else if mpp =? 1 then Supervisor else User in
    let mie := if Z.testbit st 7 then Z.shiftl 1 3 else 0 in
    let st := Z.lor (Z.land st (Z.lnot (Z.lor MSTATUS_MPP_MASK (Z.shiftl 1 3)))) (Z.lor mie (Z.shiftl 1 7)) in
    let st := if mpp =? 3 then st else Z.land st (Z.lnot (Z.shiftl 1 17)) in
    put (Hart m (h_csr h Mepc) (h_tp h) (csr_upd (h_csr h) Mstatus st))
  | _ => undef "illegal instruction"
  end.

(** ** kernel/start.c *)

Definition timerinit : M hart unit :=
  let* x := r_mie in
  w_mie (Z.lor x MIE_STIE) ;;;
  let* x := r_menvcfg in
  w_menvcfg (Z.lor x (Z.shiftl 1 63)) ;;;
  let* x := r_mcounteren in
  w_mcounteren (Z.lor x 2) ;;;
  let* t := r_time in
  w_stimecmp (t + 1000000).

Definition start (main : Z) : M hart unit :=
  let* x := r_mstatus in
  let x := Z.land x (Z.lnot MSTATUS_MPP_MASK) in
  let x := Z.lor x MSTATUS_MPP_S in
  w_mstatus x ;;;
  w_mepc main ;;;
  w_satp 0 ;;;
  w_medeleg 0xffff ;;;
  w_mideleg 0xffff ;;;
  let* x := r_sie in
  w_sie (Z.lor (Z.lor (Z.lor x SIE_SEIE) SIE_STIE) SIE_SSIE) ;;;
  w_pmpaddr0 0x3fffffffffffff ;;;
  w_pmpcfg0 0xf ;;;
  timerinit ;;;
  let* id := r_mhartid in
  w_tp (i32 id) ;;;
  mret.

(** ** Registers of supervisor mode *)

Definition intr_on : M hart unit := let* x := r_sstatus in w_sstatus (Z.lor x SSTATUS_SIE).
Definition intr_off : M hart unit := let* x := r_sstatus in w_sstatus (Z.land x (Z.lnot SSTATUS_SIE)).
Definition intr_get : M hart bool := let* x := r_sstatus in ret (negb (Z.land x SSTATUS_SIE =? 0)).

(** [cpuid] of proc.c *)
Definition cpuid : M hart Z := let* id := r_tp in ret (i32 id).

(** [trapinithart] of trap.c, and [kvminithart] of vm.c, where the flushes of the TLB have no
    effect on the registers. *)
Definition trapinithart (kernelvec : Z) : M hart unit := w_stvec kernelvec.
Definition kvminithart (kernel_pagetable : Z) : M hart unit := w_satp (MAKE_SATP kernel_pagetable).

(** ** kernel/plic.c

    The words of the interrupt controller; what a read of one gives is the device's. *)
Record board := Board { b_hart : hart; b_plic : Z -> Z }.
Context (plic_read : Z -> (Z -> Z) -> Z * (Z -> Z)).

Definition on_hart {A} (m : M hart A) : M board A := lift (Lens b_hart (fun h b => Board h (b_plic b))) m.
Definition sw (a x : Z) : M board unit := modify (fun b => Board (b_hart b) (fset (b_plic b) a (u32 x))).
Definition lw (a : Z) : M board Z :=
  let* b := get in
  let '(x, w) := plic_read a (b_plic b) in
  put (Board (b_hart b) w) ;;;
  ret (u32 x).

Definition PLIC_SENABLE (hart : Z) : Z := PLIC + 0x2080 + hart * 0x100.
Definition PLIC_SPRIORITY (hart : Z) : Z := PLIC + 0x201000 + hart * 0x2000.
Definition PLIC_SCLAIM (hart : Z) : Z := PLIC + 0x201004 + hart * 0x2000.

Definition plicinit : M board unit :=
  sw (PLIC + UART0_IRQ * 4) 1 ;;;
  sw (PLIC + VIRTIO0_IRQ * 4) 1.
Definition plicinithart : M board unit :=
  let* hart := on_hart cpuid in
  sw (PLIC_SENABLE hart) (Z.lor (Z.shiftl 1 UART0_IRQ) (Z.shiftl 1 VIRTIO0_IRQ)) ;;;
  sw (PLIC_SPRIORITY hart) 0.
Definition plic_claim : M board Z :=
  let* hart := on_hart cpuid in
  let* irq := lw (PLIC_SCLAIM hart) in
  ret (i32 irq).
Definition plic_complete (irq : Z) : M board unit :=
  let* hart := on_hart cpuid in
  sw (PLIC_SCLAIM hart) irq.
End Code.

(** ** kernel/main.c *)

(** The calls of [main], by name; [Booting] and [Starting] are its messages. *)
Inductive init :=
| Consoleinit | Printfinit | Booting | Kinit | Kvminit | Kvminithart | Procinit | Trapinit | Trapinithart
| Plicinit | Plicinithart | Binit | Iinit | Fileinit | Virtio_disk_init | Userinit | Starting.

Definition main_first : list init :=
  [Consoleinit; Printfinit; Booting; Kinit; Kvminit; Kvminithart; Procinit; Trapinit; Trapinithart;
   Plicinit; Plicinithart; Binit; Iinit; Fileinit; Virtio_disk_init; Userinit].
Definition main_other : list init := [Starting; Kvminithart; Trapinithart; Plicinithart].

(** Where a hart is: in the loop on [started], with calls still to make, in [scheduler]. *)
Inductive main_pc := Waiting | Calling (rest : list init) | Scheduling.

Record booting := BootState {
  bs_started : bool;
  bs_pc : Z -> main_pc;
  bs_calls : list (Z * init)
}.

Definition main_start : booting := BootState false (fun n => if n =? 0 then Calling main_first else Waiting) [].

Inductive main_step (s : booting) : booting -> Prop :=
| main_call n i rest : bs_pc s n = Calling (i :: rest) ->
    main_step s (BootState (bs_started s) (fset (bs_pc s) n (Calling rest)) (bs_calls s ++ [(n, i)]))
| main_started : bs_pc s 0 = Calling [] ->
    main_step s (BootState true (fset (bs_pc s) 0 Scheduling) (bs_calls s))
| main_go n : bs_pc s n = Waiting -> bs_started s = true ->
    main_step s (BootState (bs_started s) (fset (bs_pc s) n (Calling main_other)) (bs_calls s))
| main_scheduler n : n <> 0 -> bs_pc s n = Calling [] ->
    main_step s (BootState (bs_started s) (fset (bs_pc s) n Scheduling) (bs_calls s)).

(** ** [start] enters [main] *)

Lemma u64_bits x n : 0 <= n < 64 -> Z.testbit (u64 x) n = Z.testbit x n.
Proof. intros Hn. unfold u64, wrap. by rewrite Z.mod_pow2_bits_low by lia. Qed.

Lemma mpp_supervisor x : Z.land (Z.shiftr (u64 (Z.lor (Z.land x (Z.lnot MSTATUS_MPP_MASK)) MSTATUS_MPP_S)) 11) 3 = 1.
Proof.
  apply Z.bits_inj'. intros n Hn. rewrite Z.land_spec, Z.shiftr_spec by lia.
  destruct (decide (n = 0)) as [->|]; [|destruct (decide (n = 1)) as [->|]].
  - rewrite u64_bits, Z.lor_spec, Z.land_spec, Z.lnot_spec by lia. change (Z.testbit MSTATUS_MPP_S (0 + 11)) with true. by rewrite orb_true_r.
  - rewrite u64_bits, Z.lor_spec, Z.land_spec, Z.lnot_spec by lia. change (Z.testbit MSTATUS_MPP_S (1 + 11)) with false.
    change (Z.testbit MSTATUS_MPP_MASK (1 + 11)) with true. by rewrite andb_false_r.
  - rewrite (Z.bits_above_log2 3), (Z.bits_above_log2 1), andb_false_r by (change (Z.log2 3) with 1; change (Z.log2 1) with 0; lia). done.
Qed.

Lemma wp_get {S} (s : S) (Q : S -> S -> list event -> Prop) : Q s s [] -> wp get s Q.
Proof. done. Qed.

Lemma csr_set_eq c x h : h_csr (set_csr c x h) c = x.
Proof. unfold set_csr, csr_upd. cbn. by rewrite Z.eqb_refl. Qed.
Lemma csr_set_ne c c' x h : (csr_no c' =? csr_no c) = false -> h_csr (set_csr c x h) c' = h_csr h c'.
Proof. intros E. unfold set_csr, csr_upd. cbn. by rewrite E. Qed.
Ltac csr_get := repeat (rewrite csr_set_eq || rewrite csr_set_ne by reflexivity).

Section Start.
Context (md mi : Z).

Lemma wp_csrr c h (Q : Z -> hart -> list event -> Prop) : h_mode h = Machine -> Q (h_csr h c) h [] -> wp (csrr c) h Q.
Proof using Type. intros Hm HQ. unfold wp, csrr, bind, get. by rewrite Hm. Qed.

Definition written (c : csr) (x : Z) : Z := u64 (match c with Medeleg => Z.land x md | Mideleg => Z.land x mi | _ => x end).

Lemma wp_csrw c x h (Q : unit -> hart -> list event -> Prop) : h_mode h = Machine -> Q tt (set_csr c (written c x) h) [] -> wp (csrw md mi c x) h Q.
Proof using Type. intros Hm HQ. unfold csrw. apply wp_bind, wp_csrr; [done|]. exact HQ. Qed.

Lemma wp_view c mask h (Q : Z -> hart -> list event -> Prop) : h_mode h = Machine -> Q (Z.land (h_csr h c) mask) h [] -> wp (csr_view c mask) h Q.
Proof using Type. intros Hm HQ. unfold wp, csr_view, bind, get. by rewrite Hm. Qed.

Lemma wp_view_set c mask x h (Q : unit -> hart -> list event -> Prop) : h_mode h = Machine ->
  Q tt (set_csr c (Z.lor (Z.land (h_csr h c) (Z.lnot mask)) (Z.land (u64 x) mask)) h) [] -> wp (csr_view_set c mask x) h Q.
Proof using Type. intros Hm HQ. unfold csr_view_set. apply wp_bind, wp_view; [done|]. exact HQ. Qed.
End Start.

Ltac csr_step := lazymatch goal with
  | |- wp (bind _ _) _ _ => apply wp_bind
  | |- wp get _ _ => apply wp_get; csr_get
  | |- wp (csrr _) _ _ => apply wp_csrr; [done|]; csr_get
  | |- wp (csrw _ _ _ _) _ _ => apply wp_csrw; [done|]
  | |- wp (csr_view _ _) _ _ => apply wp_view; [done|]; csr_get
  | |- wp (csr_view_set _ _ _) _ _ => apply wp_view_set; [done|]; csr_get
  end.

(** The three kinds of interrupts of supervisor mode. *)
Definition sie_all : Z := Z.lor (Z.lor SIE_SEIE SIE_STIE) SIE_SSIE.

Lemma lor_in a b m : Z.land a m = m -> Z.land (Z.lor a b) m = m.
Proof.
  intros E. apply Z.bits_inj'. intros n Hn. assert (En : Z.testbit (Z.land a m) n = Z.testbit m n) by (by rewrite E).
  rewrite !Z.land_spec, Z.lor_spec in *. by destruct (Z.testbit a n), (Z.testbit b n), (Z.testbit m n).
Qed.

Lemma lor_in_r a b m : Z.land b m = m -> Z.land (Z.lor a b) m = m.
Proof. rewrite Z.lor_comm. apply lor_in. Qed.

Lemma land_u64 x m : 0 <= m < 2 ^ 64 -> Z.land (u64 x) m = Z.land x m.
Proof.
  intros Hm. apply Z.bits_inj'. intros n Hn. rewrite !Z.land_spec. destruct (Z.ltb_spec n 64); [by rewrite u64_bits by lia|].
  assert (E : Z.testbit m n = false); [|by rewrite E, !andb_false_r].
  destruct (Z.eq_dec m 0) as [->|]; [apply Z.bits_0|]. apply Z.bits_above_log2; [lia|]. apply Z.log2_lt_pow2; [lia|].
  apply Z.lt_le_trans with (2 ^ 64); [lia|]. apply Z.pow_le_mono_r; lia.
Qed.

Lemma deleg_all md mi : Z.land mi sie_all = sie_all -> Z.land (written md mi Mideleg 0xffff) sie_all = sie_all.
Proof.
  intros H. unfold written. rewrite land_u64 by done. rewrite (Z.land_comm 0xffff), <- Z.land_assoc. exact H.
Qed.

Lemma sie_enabled md mi x old : let d := written md mi Mideleg 0xffff in Z.land mi sie_all = sie_all ->
  Z.land (u64 (Z.lor (Z.lor old (Z.land (u64 (Z.lor (Z.lor (Z.lor x SIE_SEIE) SIE_STIE) SIE_SSIE)) d)) MIE_STIE)) sie_all = sie_all.
Proof.
  intros d H. rewrite land_u64 by done. apply lor_in, lor_in_r. rewrite <- Z.land_assoc, (Z.land_comm d). unfold d. rewrite (Z.land_comm sie_all), deleg_all by done.
  rewrite land_u64 by done. rewrite <- !Z.lor_assoc. apply lor_in_r. reflexivity.
Qed.

(** [mret] with [MPP] set to supervisor mode. *)
Definition mstatus_mret (st : Z) : Z :=
  Z.land (Z.lor (Z.land st (Z.lnot (Z.lor MSTATUS_MPP_MASK (Z.shiftl 1 3)))) (Z.lor (if Z.testbit st 7 then Z.shiftl 1 3 else 0) (Z.shiftl 1 7))) (Z.lnot (Z.shiftl 1 17)).

Lemma wp_mret h (Q : unit -> hart -> list event -> Prop) : h_mode h = Machine -> Z.land (Z.shiftr (h_csr h Mstatus) 11) 3 = 1 ->
  Q tt (Hart Supervisor (h_csr h Mepc) (h_tp h) (csr_upd (h_csr h) Mstatus (mstatus_mret (h_csr h Mstatus)))) [] -> wp mret h Q.
Proof. intros Hm Hp HQ. unfold wp, mret, bind, get. rewrite Hm. cbv zeta. rewrite Hp. exact HQ. Qed.

Lemma wp_w_tp x h (Q : unit -> hart -> list event -> Prop) : Q tt (Hart (h_mode h) (h_pc h) (u64 x) (h_csr h)) [] -> wp (w_tp x) h Q.
Proof. done. Qed.

Lemma mstatus_sie x : Z.testbit (mstatus_mret (u64 (Z.lor (Z.land x (Z.lnot MSTATUS_MPP_MASK)) MSTATUS_MPP_S))) 1 = Z.testbit x 1.
Proof.
  unfold mstatus_mret. rewrite Z.land_spec, !Z.lnot_spec, Z.lor_spec, Z.land_spec, Z.lnot_spec, Z.lor_spec by lia.
  change (Z.testbit (Z.shiftl 1 17) 1) with false. change (Z.testbit (Z.lor MSTATUS_MPP_MASK (Z.shiftl 1 3)) 1) with false. change (Z.testbit (Z.shiftl 1 7) 1) with false.
  rewrite u64_bits, Z.lor_spec, Z.land_spec, Z.lnot_spec by lia. change (Z.testbit MSTATUS_MPP_MASK 1) with false. change (Z.testbit MSTATUS_MPP_S 1) with false.
  by destruct (Z.testbit _ 7), (Z.testbit x 1).
Qed.

(** C28: [start] brings a hart from machine mode to [main].  On every hart it completes, no
    access to a register being illegal, and leaves the hart in supervisor mode at [main] with
    paging off, whether interrupts are taken as before, the exceptions and interrupts the
    processor allows delegated to supervisor mode, external, timer and software interrupts
    enabled and delegated, all of physical memory accessible, the timer set a million ticks
    ahead and open to supervisor mode, and the number of the hart in [tp]. *)
Theorem start_enters_main md mi main h (Hm : h_mode h = Machine) (Hmi : Z.land mi sie_all = sie_all) (Hmain : 0 <= main < 2 ^ 64) :
  exists h', start md mi main h = Done tt h' [] /\ h_mode h' = Supervisor /\ h_pc h' = main /\ h_tp h' = u64 (i32 (h_csr h Mhartid)) /\
    h_csr h' Satp = 0 /\ Z.testbit (h_csr h' Mstatus) 1 = Z.testbit (h_csr h Mstatus) 1 /\
    h_csr h' Medeleg = u64 (Z.land 0xffff md) /\ Z.land (h_csr h' Mideleg) sie_all = sie_all /\ Z.land (h_csr h' Mie) sie_all = sie_all /\
    h_csr h' Pmpaddr0 = 0x3fffffffffffff /\ h_csr h' Pmpcfg0 = 0xf /\
    Z.testbit (h_csr h' Menvcfg) 63 = true /\ Z.testbit (h_csr h' Mcounteren) 1 = true /\ h_csr h' Stimecmp = u64 (h_csr h Time + 1000000).
Proof.
  enough (W : wp (start md mi main) h (fun _ h' t => t = [] /\ h_mode h' = Supervisor /\ h_pc h' = main /\ h_tp h' = u64 (i32 (h_csr h Mhartid)) /\
    h_csr h' Satp = 0 /\ Z.testbit (h_csr h' Mstatus) 1 = Z.testbit (h_csr h Mstatus) 1 /\
    h_csr h' Medeleg = u64 (Z.land 0xffff md) /\ Z.land (h_csr h' Mideleg) sie_all = sie_all /\ Z.land (h_csr h' Mie) sie_all = sie_all /\
    h_csr h' Pmpaddr0 = 0x3fffffffffffff /\ h_csr h' Pmpcfg0 = 0xf /\
    Z.testbit (h_csr h' Menvcfg) 63 = true /\ Z.testbit (h_csr h' Mcounteren) 1 = true /\ h_csr h' Stimecmp = u64 (h_csr h Time + 1000000))).
  { apply wp_done in W as ([] & h' & t & E & -> & H). by exists h'. }
  unfold start, timerinit, r_mstatus, w_mstatus, w_mepc, w_satp, w_medeleg, w_mideleg, r_sie, w_sie, w_pmpaddr0, w_pmpcfg0, r_mie, w_mie, r_menvcfg, w_menvcfg,
    r_mcounteren, w_mcounteren, r_time, w_stimecmp, r_mhartid.
  repeat csr_step. apply wp_w_tp. cbn [h_mode h_pc h_tp]. match goal with |- wp mret {| h_csr := h_csr ?g |} _ => set (h1 := g) end.
  assert (Em : h_csr h1 Mstatus = u64 (Z.lor (Z.land (h_csr h Mstatus) (Z.lnot MSTATUS_MPP_MASK)) MSTATUS_MPP_S)) by (unfold h1; csr_get; done).
  apply wp_mret; [done|cbn [h_csr]; rewrite Em; apply mpp_supervisor|]. cbn [h_csr h_mode h_pc h_tp app]. rewrite Em.
  split_and!; [done|done| |done|..];
    try (match goal with |- context [csr_upd _ Mstatus _ ?c] => change (csr_upd (h_csr h1) Mstatus (mstatus_mret _) c) with (h_csr h1 c) end); unfold h1; csr_get; try done.
  - by apply wrap_small.
  - apply mstatus_sie.
  - by apply deleg_all.
  - by apply sie_enabled.
  - unfold written. rewrite u64_bits, Z.lor_spec by lia. apply orb_true_r.
  - unfold written. rewrite u64_bits, Z.lor_spec by lia. apply orb_true_r.
Qed.

Lemma start_enters_main_witness :
  exists h', start 0xb3ff 0x222 0x80000a00 (Hart Machine 0x80000000 0 (fun c => match c with Mhartid => 2 | Mstatus => 0xa00000000 | _ => 0 end)) = Done tt h' [] /\
    h_mode h' = Supervisor /\ h_pc h' = 0x80000a00 /\ h_tp h' = 2.
Proof.
  destruct (start_enters_main 0xb3ff 0x222 0x80000a00 (Hart Machine 0x80000000 0 (fun c => match c with Mhartid => 2 | Mstatus => 0xa00000000 | _ => 0 end)))
    as (h' & E & H1 & H2 & H3 & _); [reflexivity|reflexivity|lia|]. exists h'. split_and!; [exact E|exact H1|exact H2|exact H3].
Defined.

(** ** The order of initialisation *)

(** What has been called on hart 0 is what it no longer has to call. *)
Record main_inv (s : booting) : Prop := {
  mi_first : exists l, pair 0 <$> main_first = l ++ match bs_pc s 0 with Calling rest => pair 0 <$> rest | _ => [] end /\
    exists l', bs_calls s = l ++ l' /\ (bs_started s = false -> l' = []) /\ Forall (fun c => c.1 <> 0) l';
  mi_started : bs_started s = false -> forall n, n <> 0 -> bs_pc s n = Waiting;
  mi_zero : bs_pc s 0 <> Waiting /\ (bs_started s = true <-> bs_pc s 0 = Scheduling)
}.

Lemma main_inv_start : main_inv main_start.
Proof.
  split; cbn.
  - exists []. split; [done|]. by exists [].
  - intros _ n Hn. by rewrite (proj2 (Z.eqb_neq _ _)).
  - by split.
Qed.

Lemma main_inv_call s n i rest : main_inv s -> bs_pc s n = Calling (i :: rest) ->
  main_inv (BootState (bs_started s) (fset (bs_pc s) n (Calling rest)) (bs_calls s ++ [(n, i)])).
Proof.
  intros [(l & E & l' & Ec & Hl' & Hn') Hst [Hz0 Hz1]] Hpc. destruct (decide (n = 0)) as [->|Hne].
  - assert (Hf : bs_started s = false) by (destruct (bs_started s); [|done]; rewrite (proj1 Hz1 eq_refl) in Hpc; done).
    rewrite (Hl' Hf), app_nil_r in Ec. rewrite Hpc in E. split; cbn [bs_pc bs_started bs_calls].
    + exists (l ++ [(0, i)]). rewrite fset_eq, E, <- app_assoc. split; [done|]. exists []. by rewrite Ec, app_nil_r.
    + intros _ m Hm. rewrite fset_ne by done. by apply Hst.
    + rewrite fset_eq, Hf. done.
  - assert (Hf : bs_started s = true) by (destruct (bs_started s); [done|]; by rewrite Hst in Hpc).
    split; cbn [bs_pc bs_started bs_calls].
    + exists l. rewrite fset_ne by done. split; [done|]. exists (l' ++ [(n, i)]). rewrite Ec, app_assoc, Hf. split_and!; [done|done|].
      apply Forall_app. split; [done|]. by constructor.
    + by rewrite Hf.
    + by rewrite fset_ne.
Qed.

Lemma main_inv_step s s' : main_inv s -> main_step s s' -> main_inv s'.
Proof.
  intros I H. destruct H as [n i rest Hpc|Hpc|n Hpc Hf|n Hne Hpc]; [by apply main_inv_call|..];
    destruct I as [(l & E & l' & Ec & Hl' & Hn') Hst [Hz0 Hz1]]; split; cbn [bs_pc bs_started bs_calls].
  - exists l. rewrite fset_eq. rewrite Hpc in E. split; [exact E|]. by exists l'.
  - done.
  - by rewrite fset_eq.
  - assert (Hne : 0 <> n) by (intros <-; done). exists l. rewrite fset_ne by done. split; [done|]. by exists l'.
  - by rewrite Hf.
  - assert (Hne : 0 <> n) by (intros <-; done). by rewrite fset_ne.
  - exists l. rewrite fset_ne by done. split; [done|]. by exists l'.
  - intros Hf m Hm. by rewrite (Hst Hf n Hne) in Hpc.
  - by rewrite fset_ne.
Qed.

Lemma main_inv_run s s' : rtc main_step s s' -> main_inv s -> main_inv s'.
Proof. induction 1; eauto using main_inv_step. Qed.

(** Hart 0 can always go on to the scheduler. *)
Lemma main_finishes rest s : bs_pc s 0 = Calling rest -> exists s', rtc main_step s s' /\ bs_pc s' 0 = Scheduling.
Proof.
  revert s. induction rest as [|i rest IH]; intros s Hpc.
  - eexists. split; [eapply rtc_once, main_started, Hpc|]. apply fset_eq.
  - edestruct IH as (s' & Hr & Hpc'); [|exists s'; split; [eapply rtc_l; [eapply main_call, Hpc|exact Hr]|exact Hpc']]. apply fset_eq.
Qed.

(** C27: Initialisation is complete before it is used.  In every interleaving of the harts
    in [main], as soon as a hart other than hart 0 has made a call, or any hart is in
    [scheduler], hart 0 has made all of its calls, in order and each once, before any call of
    another hart. *)
Theorem main_order s (Hr : rtc main_step main_start s) :
  (exists n i, n <> 0 /\ (n, i) ∈ bs_calls s) \/ (exists n, bs_pc s n = Scheduling) ->
  exists l, bs_calls s = (pair 0 <$> main_first) ++ l /\ Forall (fun c => c.1 <> 0) l.
Proof.
  destruct (main_inv_run _ _ Hr main_inv_start) as [(l & E & l' & Ec & Hl' & Hn') Hst [Hz0 Hz1]]. intros H.
  assert (Hf : bs_started s = true).
  { destruct (bs_started s) eqn:Ef; [done|exfalso]. rewrite (Hl' eq_refl), app_nil_r in Ec. destruct H as [(n & i & Hne & Hin)|(n & Hpc)].
    - rewrite Ec in Hin. assert (Hin' : (n, i) ∈ pair 0 <$> main_first) by (rewrite E; apply elem_of_app; by left).
      apply list_elem_of_fmap in Hin' as (j & [= -> _] & _). done.
    - destruct (decide (n = 0)) as [->|Hne]; [by apply Hz1 in Hpc|]. by rewrite Hst in Hpc. }
  rewrite (proj1 Hz1 Hf), app_nil_r in E. exists l'. by rewrite Ec, E.
Qed.

Lemma main_order_witness : exists s, rtc main_step main_start s /\ bs_pc s 0 = Scheduling /\
  exists l, bs_calls s = (pair 0 <$> main_first) ++ l /\ Forall (fun c => c.1 <> 0) l.
Proof.
  destruct (main_finishes main_first main_start eq_refl) as (s & Hr & Hpc). exists s. split; [exact Hr|]. split; [exact Hpc|]. apply (main_order s Hr). right. by exists 0.
Defined.
