(* ===== verification/Asm.v ===== *)
(** * The assembly of the kernel: swtch.S, trampoline.S, kernelvec.S and entry.S

    The files are straight lines of code up to a jump, so a program is a list of
    instructions and [run_code] runs it to its first jump.  The state has the 32
    registers, the mode and the control registers of Boot.v, and the memory of Memory.v.  What
    the page tables map is a parameter, the function [tr] from the value of [satp] and a virtual
    address to a physical one: this code does not change page tables, it only switches
    between them.  Instruction fetch is not modelled. *)

From Stdlib Require Import ZArith Lia FunctionalExtensionality.
From stdpp Require Import base list numbers option.
From S2P Require Import Prelude Memory Riscv Boot.

(** ** Registers and instructions *)

(** The registers by the names of the calling convention. *)
Definition Zero : Z := 0.
Definition Ra : Z := 1.
Definition Sp : Z := 2.
Definition Gp : Z := 3.
Definition Tp : Z := 4.
Definition T0 : Z := 5.
Definition T1 : Z := 6.
Definition T2 : Z := 7.
Definition S0 : Z := 8.
Definition S1 : Z := 9.
Definition A0 : Z := 10.
Definition A1 : Z := 11.
Definition A2 : Z := 12.
Definition A3 : Z := 13.
Definition A4 : Z := 14.
Definition A5 : Z := 15.
Definition A6 : Z := 16.
Definition A7 : Z := 17.
Definition S2 : Z := 18.
Definition S3 : Z := 19.
Definition S4 : Z := 20.
Definition S5 : Z := 21.
Definition S6 : Z := 22.
Definition S7 : Z := 23.
Definition S8 : Z := 24.
Definition S9 : Z := 25.
Definition S10 : Z := 26.
Definition S11 : Z := 27.
Definition T3 : Z := 28.
Definition T4 : Z := 29.
Definition T5 : Z := 30.
Definition T6 : Z := 31.

Inductive instr :=
| Sd (rs off base : Z)
| Ld (rd off base : Z)
| Li (rd imm : Z)
| Addi (rd rs imm : Z)
| Add (rd rs1 rs2 : Z)
| Mul (rd rs1 rs2 : Z)
| Csrr (rd : Z) (c : csr)
| Csrw (c : csr) (rs : Z)
| Sfence
| Jr (rs : Z)
| Call (target : Z)
| Sret.

Record asm := Asm {
  a_regs : Z -> Z;
  a_pc : Z;
  a_mode : mode;
  a_csr : csr -> Z;
  a_mem : mem
}.

Definition setr (rd v : Z) (s : asm) : asm :=
  if rd =? 0 then s else Asm (fset (a_regs s) rd (u64 v)) (a_pc s) (a_mode s) (a_csr s) (a_mem s).
Definition with_regs (f : Z -> Z) (s : asm) : asm := Asm f (a_pc s) (a_mode s) (a_csr s) (a_mem s).
Definition with_mem (m : mem) (s : asm) : asm := Asm (a_regs s) (a_pc s) (a_mode s) (a_csr s) m.
Definition with_csr (c : csr) (v : Z) (s : asm) : asm := Asm (a_regs s) (a_pc s) (a_mode s) (csr_upd (a_csr s) c v) (a_mem s).
Definition jump (pc : Z) (s : asm) : asm := Asm (a_regs s) pc (a_mode s) (a_csr s) (a_mem s).

(** Access to a control register in the mode the hart is in. *)
Definition csr_ok (c : csr) (s : asm) : bool :=
  match a_mode s with Machine => true | Supervisor => negb (machine_only c) | User => false end.

(** [sret]: the mode in [SPP], interrupts as in [SPIE]. *)
Definition sret (s : asm) : option asm :=
  match a_mode s with
  | User => None
  | _ =>
    let st := a_csr s Mstatus in
    let sie := if Z.testbit st 5 then Z.shiftl 1 1 else 0 in
    let st' := Z.lor (Z.land st (Z.lnot (Z.lor (Z.shiftl 1 8) (Z.shiftl 1 1)))) (Z.lor sie (Z.shiftl 1 5)) in
    Some (Asm (a_regs s) (a_csr s Sepc) (if Z.testbit st 8 then Supervisor else User) (csr_upd (a_csr s) Mstatus st') (a_mem s))
  end.

Section Code.
Context (tr : Z -> Z -> option Z).

(** The physical address of an aligned double word; only the code that runs in supervisor
    mode accesses memory. *)
Definition translate (va : Z) (s : asm) : option Z := if va mod 8 =? 0 then tr (a_csr s Satp) va else None.

Definition step (i : instr) (s : asm) : option asm :=
  let x := a_regs s in
  match i with
  | Sd rs off base => pa ← translate (u64 (x base + off)) s; Some (with_mem (store64 (a_mem s) pa (x rs)) s)
  | Ld rd off base => pa ← translate (u64 (x base + off)) s; Some (setr rd (load64 (a_mem s) pa) s)
  | Li rd imm => Some (setr rd imm s)
  | Addi rd rs imm => Some (setr rd (x rs + imm) s)
  | Add rd rs1 rs2 => Some (setr rd (x rs1 + x rs2) s)
  | Mul rd rs1 rs2 => Some (setr rd (x rs1 * x rs2) s)
  | Csrr rd c => if csr_ok c s then Some (setr rd (a_csr s c) s) else None
  | Csrw c rs => if csr_ok c s then Some (with_csr c (x rs) s) else None
  | Sfence => Some s
  | Jr rs => Some (jump (x rs) s)
  | Call target => Some (jump target s)
  | Sret => sret s
  end.

Definition jumps (i : instr) : bool := match i with Jr _ | Call _ | Sret => true | _ => false end.

Fixpoint run_code (l : list instr) (s : asm) : option asm :=
  match l with
  | [] => Some s
  | i :: l' => s' ← step i s; if jumps i then Some s' else run_code l' s'
  end.

(** ** The programs *)

Definition swtch : list instr :=
  [Sd Ra 0 A0; Sd Sp 8 A0; Sd S0 16 A0; Sd S1 24 A0; Sd S2 32 A0; Sd S3 40 A0;
   Sd S4 48 A0; Sd S5 56 A0; Sd S6 64 A0; Sd S7 72 A0; Sd S8 80 A0; Sd S9 88 A0;
   Sd S10 96 A0; Sd S11 104 A0; Ld Ra 0 A1; Ld Sp 8 A1; Ld S0 16 A1; Ld S1 24 A1;
   Ld S2 32 A1; Ld S3 40 A1; Ld S4 48 A1; Ld S5 56 A1; Ld S6 64 A1; Ld S7 72 A1;
   Ld S8 80 A1; Ld S9 88 A1; Ld S10 96 A1; Ld S11 104 A1; Jr Ra].

Definition uservec : list instr :=
  [Csrw Sscratch A0; Li A0 TRAPFRAME; Sd Ra 40 A0; Sd Sp 48 A0; Sd Gp 56 A0; Sd Tp 64 A0;
   Sd T0 72 A0; Sd T1 80 A0; Sd T2 88 A0; Sd S0 96 A0; Sd S1 104 A0; Sd A1 120 A0;
   Sd A2 128 A0; Sd A3 136 A0; Sd A4 144 A0; Sd A5 152 A0; Sd A6 160 A0; Sd A7 168 A0;
   Sd S2 176 A0; Sd S3 184 A0; Sd S4 192 A0; Sd S5 200 A0; Sd S6 208 A0; Sd S7 216 A0;
   Sd S8 224 A0; Sd S9 232 A0; Sd S10 240 A0; Sd S11 248 A0; Sd T3 256 A0; Sd T4 264 A0;
   Sd T5 272 A0; Sd T6 280 A0; Csrr T0 Sscratch; Sd T0 112 A0; Ld Sp 8 A0; Ld Tp 32 A0;
   Ld T0 16 A0; Ld T1 0 A0; Sfence; Csrw Satp T1; Sfence; Jr T0].

Definition userret : list instr :=
  [Sfence; Csrw Satp A0; Sfence; Li A0 TRAPFRAME; Ld Ra 40 A0; Ld Sp 48 A0;
   Ld Gp 56 A0; Ld Tp 64 A0; Ld T0 72 A0; Ld T1 80 A0; Ld T2 88 A0; Ld S0 96 A0;
   Ld S1 104 A0; Ld A1 120 A0; Ld A2 128 A0; Ld A3 136 A0; Ld A4 144 A0; Ld A5 152 A0;
   Ld A6 160 A0; Ld A7 168 A0; Ld S2 176 A0; Ld S3 184 A0; Ld S4 192 A0; Ld S5 200 A0;
   Ld S6 208 A0; Ld S7 216 A0; Ld S8 224 A0; Ld S9 232 A0; Ld S10 240 A0; Ld S11 248 A0;
   Ld T3 256 A0; Ld T4 264 A0; Ld T5 272 A0; Ld T6 280 A0; Ld A0 112 A0; Sret].

(** kernelvec.S up to the call of [kerneltrap], and after it. *)
Definition kernelvec_save : list instr :=
  [Addi Sp Sp (-256); Sd Ra 0 Sp; Sd Sp 8 Sp; Sd Gp 16 Sp; Sd Tp 24 Sp; Sd T0 32 Sp;
   Sd T1 40 Sp; Sd T2 48 Sp; Sd A0 72 Sp; Sd A1 80 Sp; Sd A2 88 Sp; Sd A3 96 Sp;
   Sd A4 104 Sp; Sd A5 112 Sp; Sd A6 120 Sp; Sd A7 128 Sp; Sd T3 216 Sp; Sd T4 224 Sp;
   Sd T5 232 Sp; Sd T6 240 Sp].
Definition kernelvec_restore : list instr :=
  [Ld Ra 0 Sp; Ld Sp 8 Sp; Ld Gp 16 Sp;
   Ld T0 32 Sp; Ld T1 40 Sp; Ld T2 48 Sp; Ld A0 72 Sp; Ld A1 80 Sp; Ld A2 88 Sp;
   Ld A3 96 Sp; Ld A4 104 Sp; Ld A5 112 Sp; Ld A6 120 Sp; Ld A7 128 Sp; Ld T3 216 Sp;
   Ld T4 224 Sp; Ld T5 232 Sp; Ld T6 240 Sp; Addi Sp Sp 256; Sret].

(** entry.S; [la sp, stack0] loads the address the linker gives, and [start] does not return,
    so the return address of the call and the loop after it play no part. *)
Definition entry (stack0 start : Z) : list instr :=
  [Li Sp stack0; Li A0 (1024 * 4); Csrr A1 Mhartid; Addi A1 A1 1; Mul A0 A0 A1; Add Sp Sp A0; Call start].
End Code.

(** ** Saving and loading a table of registers *)

(** The place of a register in a table of registers and offsets. *)
Fixpoint slot_of (l : list (Z * Z)) (r : Z) : option Z :=
  match l with
  | [] => None
  | (r', o) :: l' => if r' =? r then Some o else slot_of l' r
  end.
Definition saves (base : Z) (l : list (Z * Z)) : list instr := (fun p => Sd p.1 p.2 base) <$> l.
Definition loads (base : Z) (l : list (Z * Z)) : list instr := (fun p => Ld p.1 p.2 base) <$> l.

(** A table for [n] bytes: registers other than 0, aligned offsets, none twice. *)
Record table_ok (n : Z) (l : list (Z * Z)) : Prop := {
  tb_range r o : (r, o) ∈ l -> 0 < r /\ 0 <= o /\ o + 8 <= n /\ o mod 8 = 0;
  tb_regs : NoDup l.*1;
  tb_offs : NoDup l.*2
}.

Definition table_okb (n : Z) (l : list (Z * Z)) : bool :=
  forallb (fun p => (0 <? p.1) && (0 <=? p.2) && (p.2 + 8 <=? n) && (p.2 mod 8 =? 0)) l && bool_decide (NoDup l.*1) && bool_decide (NoDup l.*2).

Lemma table_okb_ok n l : table_okb n l = true -> table_ok n l.
Proof.
  unfold table_okb. intros [[Hf H1%bool_decide_eq_true]%andb_true_iff H2%bool_decide_eq_true]%andb_true_iff. split; [|done|done].
  intros r o Hin. rewrite forallb_forall in Hf. specialize (Hf (r, o) (proj1 (list_elem_of_In _ _) Hin)). cbn [fst snd] in Hf.
  rewrite !andb_true_iff in Hf. lia.
Qed.

Lemma table_tail n p l : table_ok n (p :: l) -> table_ok n l.
Proof.
  intros [H1 H2 H3]. apply list.NoDup_cons in H2 as [_ H2]. apply list.NoDup_cons in H3 as [_ H3]. split; [|done|done].
  intros r o Hin. apply H1. by right.
Qed.

Lemma slot_of_in l r o : NoDup l.*1 -> (r, o) ∈ l -> slot_of l r = Some o.
Proof.
  induction l as [|[r' o'] l IH]; [by intros _ ?%not_elem_of_nil|]. cbn [fmap list_fmap fst slot_of].
  intros [Hn Hd]%list.NoDup_cons [[= -> ->]|Hin]%elem_of_cons; [by rewrite Z.eqb_refl|].
  rewrite (proj2 (Z.eqb_neq _ _)); [auto|]. intros ->. apply Hn. by apply (list_elem_of_fmap_2 fst) in Hin.
Qed.

Lemma slot_of_Some l r o : slot_of l r = Some o -> (r, o) ∈ l.
Proof.
  induction l as [|[r' o'] l IH]; cbn [slot_of]; [done|]. destruct (Z.eqb_spec r' r) as [->|]; [intros [= ->]; left|right; auto].
Qed.

(** The memory after the registers [x] have been saved at [pa]. *)
Fixpoint save_all (x : Z -> Z) (pa : Z) (l : list (Z * Z)) (m : mem) : mem :=
  match l with
  | [] => m
  | (r, o) :: l' => save_all x pa l' (store64 m (pa + o) (x r))
  end.

Lemma save_all_outside x pa n l m : table_ok n l -> same_outside pa n m (save_all x pa l m).
Proof.
  revert m. induction l as [|[r o] l IH]; intros m Ht; cbn [save_all]; [apply same_outside_refl|].
  destruct (tb_range _ _ Ht r o ltac:(left)) as (_ & H1 & H2 & _).
  eapply same_outside_trans; [|apply IH; by eapply table_tail]. intros a Ha. apply store_le_outside. lia.
Qed.

Lemma save_all_other x pa n l m o : table_ok n l -> o mod 8 = 0 -> o ∉ l.*2 -> load64 (save_all x pa l m) (pa + o) = load64 m (pa + o).
Proof.
  intros Ht Ho. revert m. induction l as [|[r o'] l IH]; intros m Hn; [done|]. cbn [save_all fmap list_fmap snd] in *.
  apply not_elem_of_cons in Hn as [Hne Hn]. destruct (tb_range _ _ Ht r o' ltac:(left)) as (_ & _ & _ & Ho').
  rewrite IH by (done || by eapply table_tail). apply load_le_store_le_ne.
  pose proof (Z.div_mod o 8 ltac:(lia)). pose proof (Z.div_mod o' 8 ltac:(lia)). lia.
Qed.

Lemma save_all_at x pa n l m r o : table_ok n l -> (forall r, 0 <= x r < 2 ^ 64) -> slot_of l r = Some o ->
  load64 (save_all x pa l m) (pa + o) = x r.
Proof.
  intros Ht Hx. revert m. induction l as [|[r' o'] l IH]; intros m; [done|]. cbn [save_all slot_of].
  destruct (Z.eqb_spec r' r) as [->|]; [intros [= ->]|apply IH; by eapply table_tail].
  pose proof (tb_offs _ _ Ht) as Hd. cbn in Hd. apply list.NoDup_cons in Hd as [Hn _]. destruct (tb_range _ _ Ht r o ltac:(left)) as (_ & _ & _ & Ho).
  rewrite (save_all_other x pa n) by (done || by eapply table_tail). by apply load64_store64_eq.
Qed.

(** The registers after a table has been loaded from [pa]. *)
Definition load_all (x : Z -> Z) (m : mem) (pa : Z) (l : list (Z * Z)) (r : Z) : Z :=
  match slot_of l r with Some o => load64 m (pa + o) | None => x r end.

Section Tables.
Context (tr : Z -> Z -> option Z).
Abbreviation run := (run_code tr).

(** The [n] bytes at virtual address [va] are at physical address [pa]. *)
Record maps (satp va pa n : Z) : Prop := {
  mp_range : 0 <= va /\ va + n <= 2 ^ 64;
  mp_align : va mod 8 = 0;
  mp_tr o : 0 <= o -> o + 8 <= n -> o mod 8 = 0 -> tr satp (va + o) = Some (pa + o)
}.

Lemma translate_at s va pa n o : maps (a_csr s Satp) va pa n -> 0 <= o -> o + 8 <= n -> o mod 8 = 0 -> translate tr (u64 (va + o)) s = Some (pa + o).
Proof using Type.
  intros [H1 H2 H3] Ho Hn Hm. unfold translate. rewrite wrap_small by lia. rewrite Z.add_mod, H2, Hm by lia. cbn [Z.add]. rewrite Zmod_0_l, Z.eqb_refl. by apply H3.
Qed.

Lemma run_saves b va pa n l rest s : table_ok n l -> a_regs s b = va -> maps (a_csr s Satp) va pa n ->
  run (saves b l ++ rest) s = run rest (with_mem (save_all (a_regs s) pa l (a_mem s)) s).
Proof using Type.
  intros Ht Hb Hm. revert s Hb Hm. induction l as [|[r o] l IH]; intros s Hb Hm; [by destruct s|].
  destruct (tb_range _ _ Ht r o ltac:(left)) as (_ & H1 & H2 & H3). cbn [saves fmap list_fmap app Asm.run_code step fst snd].
  rewrite Hb, (translate_at s va pa n) by done. cbn [mbind option_bind jumps]. fold (saves b l).
  rewrite IH by (done || by eapply table_tail). done.
Qed.

Lemma run_loads b va pa n l rest s : table_ok n l -> (forall o, (b, o) ∈ l -> load64 (a_mem s) (pa + o) = va) -> a_regs s b = va ->
  maps (a_csr s Satp) va pa n -> bytes_ok (a_mem s) ->
  run (loads b l ++ rest) s = run rest (with_regs (load_all (a_regs s) (a_mem s) pa l) s).
Proof using Type.
  intros Ht Hn Hb Hm Hby. revert s Hn Hb Hm Hby. induction l as [|[r o] l IH]; intros s Hn Hb Hm Hby; [by destruct s|].
  destruct (tb_range _ _ Ht r o ltac:(left)) as (H0 & H1 & H2 & H3). cbn [loads fmap list_fmap app Asm.run_code step fst snd] in *.
  rewrite Hb, (translate_at s va pa n) by done. cbn [mbind option_bind jumps]. fold (loads b l).
  pose proof (load_le_bound 8 (a_mem s) (pa + o) Hby) as Hv. change (256 ^ Z.of_nat 8) with (2 ^ 64) in Hv.
  unfold setr. rewrite (proj2 (Z.eqb_neq r 0)) by lia. rewrite (wrap_small _ (load64 _ _)) by lia.
  rewrite IH; [|by eapply table_tail|intros o' Ho'; apply Hn; by right| |done|done].
  2: { cbn. destruct (decide (b = r)) as [->|]; [rewrite fset_eq; apply Hn; left|by rewrite fset_ne]. }
  f_equal. unfold with_regs. cbn [a_regs a_pc a_mode a_csr a_mem]. f_equal. extensionality x. unfold load_all. cbn [slot_of].
  pose proof (tb_regs _ _ Ht) as Hd. cbn in Hd. apply list.NoDup_cons in Hd as [Hr _].
  destruct (Z.eqb_spec r x) as [<-|Hx].
  - destruct (slot_of l r) as [o'|] eqn:E; [|by rewrite fset_eq]. apply slot_of_Some, (list_elem_of_fmap_2 fst) in E. done.
  - destruct (slot_of l x); [done|]. by rewrite fset_ne.
Qed.

Lemma save_all_bytes x pa l m : bytes_ok m -> bytes_ok (save_all x pa l m).
Proof using Type. revert m. induction l as [|[r o] l IH]; intros m Hm; cbn [save_all]; [done|]. apply IH. by apply store_le_bytes_ok. Qed.

Lemma load_all_in x m pa l r o : slot_of l r = Some o -> load_all x m pa l r = load64 m (pa + o).
Proof using Type. unfold load_all. by intros ->. Qed.

Lemma load_all_out x m pa l r : slot_of l r = None -> load_all x m pa l r = x r.
Proof using Type. unfold load_all. by intros ->. Qed.

(** Registers hold 64 bits, and memory bytes. *)
Record asm_ok (s : asm) : Prop := {
  ao_regs r : 0 <= a_regs s r < 2 ^ 64;
  ao_mem : bytes_ok (a_mem s)
}.
Definition clear_of (a b n : Z) : Prop := a + n <= b \/ b + n <= a.
Definition same_inside (lo n : Z) (m m' : mem) : Prop := forall a, lo <= a < lo + n -> m' a = m a.

Lemma load64_inside lo n m m' a : same_inside lo n m m' -> lo <= a -> a + 8 <= lo + n -> load64 m' a = load64 m a.
Proof using Type. intros Hs H1 H2. apply load_le_ext. intros y Hy. apply Hs. lia. Qed.

Lemma load64_clear pa pb n m m' o : same_outside pa n m m' -> clear_of pa pb n -> 0 <= o -> o + 8 <= n -> load64 m' (pb + o) = load64 m (pb + o).
Proof using Type. intros Hs Ha H1 H2. apply load_le_ext. intros y Hy. apply Hs. unfold clear_of in Ha. lia. Qed.

(** ** swtch *)

(** The layout of struct context. *)
Definition context : list (Z * Z) :=
  [(Ra, 0); (Sp, 8); (S0, 16); (S1, 24); (S2, 32); (S3, 40); (S4, 48); (S5, 56); (S6, 64); (S7, 72); (S8, 80); (S9, 88); (S10, 96); (S11, 104)].

Lemma context_ok : table_ok 112 context.
Proof using Type. apply table_okb_ok. vm_compute. reflexivity. Qed.

Lemma swtch_run s pold pnew : asm_ok s -> maps (a_csr s Satp) (a_regs s A0) pold 112 -> maps (a_csr s Satp) (a_regs s A1) pnew 112 ->
  let m := save_all (a_regs s) pold context (a_mem s) in
  run swtch s = Some (jump (load64 m (pnew + 0)) (with_regs (load_all (a_regs s) m pnew context) (with_mem m s))).
Proof using Type.
  intros [Hr Hb] Ho Hn m. change swtch with (saves A0 context ++ loads A1 context ++ [Jr Ra]).
  rewrite (run_saves A0 _ pold 112) by (done || apply context_ok). fold m.
  rewrite (run_loads A1 (a_regs s A1) pnew 112).
  - done.
  - apply context_ok.
  - intros o Ho'. exfalso. apply (slot_of_in _ _ _ (tb_regs _ _ context_ok)) in Ho'. by vm_compute in Ho'.
  - done.
  - done.
  - by apply save_all_bytes.
Qed.

(** What one call does: the caller's context is saved, that of the other thread resumed. *)
Record switched (pold pnew : Z) (s s' : asm) : Prop := {
  sw_pc : a_pc s' = load64 (a_mem s) pnew;
  sw_new r o : slot_of context r = Some o -> a_regs s' r = load64 (a_mem s) (pnew + o);
  sw_rest r : slot_of context r = None -> a_regs s' r = a_regs s r;
  sw_old r o : slot_of context r = Some o -> load64 (a_mem s') (pold + o) = a_regs s r;
  sw_mem : same_outside pold 112 (a_mem s) (a_mem s');
  sw_csr : a_csr s' = a_csr s;
  sw_mode : a_mode s' = a_mode s
}.

Lemma swtch_switches s pold pnew : asm_ok s -> maps (a_csr s Satp) (a_regs s A0) pold 112 -> maps (a_csr s Satp) (a_regs s A1) pnew 112 ->
  clear_of pold pnew 112 -> exists s', run swtch s = Some s' /\ switched pold pnew s s'.
Proof using Type.
  intros Hs Ho Hn Hap. eexists. split; [by apply swtch_run|].
  pose proof (save_all_outside (a_regs s) pold 112 context (a_mem s) context_ok) as Hm. pose proof context_ok as Ht.
  split; cbn [a_pc a_regs a_mem a_csr a_mode jump with_regs with_mem]; try done.
  - rewrite <- (Z.add_0_r pnew) at 2. apply (load64_clear pold _ 112); [done|done|lia|lia].
  - intros r o Hr. rewrite (load_all_in _ _ _ _ _ _ Hr). destruct (tb_range _ _ Ht r o (slot_of_Some _ _ _ Hr)) as (_ & ? & ? & _).
    by apply (load64_clear pold _ 112).
  - intros r Hr. by apply load_all_out.
  - intros r o Hr. apply (save_all_at _ _ 112); [done|apply (ao_regs _ Hs)|done].
Qed.

(** C16: A thread that calls [swtch] is suspended with its return address, stack pointer and saved
    registers in its context and the other thread's registers taken from its own context.  When any hart later calls [swtch]
    with that context as the new one and unchanged in between, execution goes on at the thread's return address with
    the stack pointer and saved registers it had; the remaining registers are those of the hart. *)
Theorem swtch_resumes s pold pnew :
  asm_ok s -> maps (a_csr s Satp) (a_regs s A0) pold 112 -> maps (a_csr s Satp) (a_regs s A1) pnew 112 -> clear_of pold pnew 112 ->
  exists s1, run swtch s = Some s1 /\ switched pold pnew s s1 /\
  forall s2 pcur, asm_ok s2 -> maps (a_csr s2 Satp) (a_regs s2 A0) pcur 112 -> maps (a_csr s2 Satp) (a_regs s2 A1) pold 112 -> clear_of pcur pold 112 ->
    same_inside pold 112 (a_mem s1) (a_mem s2) ->
  exists s3, run swtch s2 = Some s3 /\ a_pc s3 = a_regs s Ra /\
    (forall r o, slot_of context r = Some o -> a_regs s3 r = a_regs s r) /\
    (forall r, slot_of context r = None -> a_regs s3 r = a_regs s2 r).
Proof using Type.
  intros Hs Ho Hn Hap. destruct (swtch_switches s pold pnew Hs Ho Hn Hap) as (s1 & E1 & H1).
  exists s1. split; [done|]. split; [done|]. intros s2 pcur Hs2 Hc Ho2 Hap2 Hsame.
  destruct (swtch_switches s2 pcur pold Hs2 Hc Ho2 Hap2) as (s3 & E3 & H3). exists s3. split; [done|].
  assert (Hk : forall r o, slot_of context r = Some o -> load64 (a_mem s2) (pold + o) = a_regs s r).
  { intros r o Hr. destruct (tb_range _ _ context_ok r o (slot_of_Some _ _ _ Hr)) as (_ & ? & ? & _).
    rewrite (load64_inside pold 112 (a_mem s1)) by (done || lia). by apply (sw_old _ _ _ _ H1). }
  repeat split.
  - rewrite (sw_pc _ _ _ _ H3). specialize (Hk Ra 0 eq_refl). by rewrite Z.add_0_r in Hk.
  - intros r o Hr. rewrite (sw_new _ _ _ _ H3 r o Hr). by apply Hk.
  - apply (sw_rest _ _ _ _ H3).
Qed.

(** ** uservec and userret *)

(** The layout of the user registers in struct trapframe; [a0] is handled apart. *)
Definition user_regs : list (Z * Z) :=
  [(Ra, 40); (Sp, 48); (Gp, 56); (Tp, 64); (T0, 72); (T1, 80); (T2, 88); (S0, 96); (S1, 104);
   (A1, 120); (A2, 128); (A3, 136); (A4, 144); (A5, 152); (A6, 160); (A7, 168);
   (S2, 176); (S3, 184); (S4, 192); (S5, 200); (S6, 208); (S7, 216); (S8, 224); (S9, 232); (S10, 240); (S11, 248);
   (T3, 256); (T4, 264); (T5, 272); (T6, 280)].
Definition trapframe : list (Z * Z) := user_regs ++ [(A0, 112)].
(** The fields the kernel leaves in the frame for [uservec]. *)
Definition kernel_regs : list (Z * Z) := [(Sp, 8); (Tp, 32); (T0, 16); (T1, 0)].

Lemma user_regs_ok : table_ok 288 user_regs.
Proof using Type. apply table_okb_ok. vm_compute. reflexivity. Qed.

Lemma kernel_regs_ok : table_ok 288 kernel_regs.
Proof using Type. apply table_okb_ok. vm_compute. reflexivity. Qed.

Lemma trapframe_range r o : slot_of trapframe r = Some o -> 0 < r < 32 /\ 40 <= o /\ o + 8 <= 288.
Proof using Type.
  assert (Hf : forallb (fun p => (0 <? p.1) && (p.1 <? 32) && (40 <=? p.2) && (p.2 + 8 <=? 288)) trapframe = true) by (vm_compute; reflexivity).
  intros Hr%slot_of_Some. rewrite forallb_forall in Hf. specialize (Hf (r, o) (proj1 (list_elem_of_In _ _) Hr)). cbn [fst snd] in Hf.
  rewrite !andb_true_iff in Hf. lia.
Qed.

Lemma trapframe_all r : 0 < r < 32 -> exists o, slot_of trapframe r = Some o.
Proof using Type.
  intros Hr. assert (Hf : forallb (fun r => match slot_of trapframe r with Some _ => true | None => false end) (seqZ 1 31) = true) by (vm_compute; reflexivity).
  rewrite forallb_forall in Hf. specialize (Hf r). rewrite <- list_elem_of_In, elem_of_seqZ in Hf. specialize (Hf ltac:(lia)).
  destruct (slot_of trapframe r); [eauto|done].
Qed.

Lemma slot_of_app l l' r : slot_of (l ++ l') r = match slot_of l r with Some o => Some o | None => slot_of l' r end.
Proof using Type. induction l as [|[r' o] l IH]; cbn [app slot_of]; [done|]. by destruct (r' =? r). Qed.

Lemma trapframe_cases r o : slot_of trapframe r = Some o -> r = A0 /\ o = 112 \/ r <> A0 /\ slot_of user_regs r = Some o.
Proof using Type.
  unfold trapframe. rewrite slot_of_app. destruct (slot_of user_regs r) eqn:E.
  - intros [= ->]. right. split; [|done]. intros ->. by vm_compute in E.
  - cbn [slot_of]. destruct (Z.eqb_spec A0 r) as [<-|]; [intros [= <-]; by left|done].
Qed.

(** What [uservec] does with the frame at [tf]. *)
Record user_saved (tf : Z) (s s' : asm) : Prop := {
  us_slot r o : slot_of trapframe r = Some o -> load64 (a_mem s') (tf + o) = a_regs s r;
  us_mem : same_outside (tf + 40) 248 (a_mem s) (a_mem s');
  us_satp : a_csr s' Satp = load64 (a_mem s) tf;
  us_sp : a_regs s' Sp = load64 (a_mem s) (tf + 8);
  us_pc : a_pc s' = load64 (a_mem s) (tf + 16);
  us_tp : a_regs s' Tp = load64 (a_mem s) (tf + 32);
  us_mode : a_mode s' = Supervisor
}.

Definition user_mem (tf : Z) (s : asm) : mem :=
  store64 (save_all (fset (a_regs s) A0 TRAPFRAME) tf user_regs (a_mem s)) (tf + 112) (a_regs s A0).

Lemma save_all_range x pa lo n l m : (forall r o, (r, o) ∈ l -> lo <= o /\ o + 8 <= lo + n) -> same_outside (pa + lo) n m (save_all x pa l m).
Proof using Type.
  revert m. induction l as [|[r o] l IH]; intros m Ht; cbn [save_all]; [apply same_outside_refl|].
  destruct (Ht r o ltac:(left)) as [H1 H2].
  eapply same_outside_trans; [|apply IH; intros r' o' Hin; apply (Ht r'); by right]. intros a Ha. apply store_le_outside. lia.
Qed.

Lemma user_mem_outside tf s : same_outside (tf + 40) 248 (a_mem s) (user_mem tf s).
Proof using Type.
  eapply same_outside_trans; [apply (save_all_range (fset (a_regs s) A0 TRAPFRAME) tf 40 248 user_regs)|].
  - intros r o Hin. pose proof (slot_of_in _ _ _ (tb_regs _ _ user_regs_ok) Hin) as Hr.
    destruct (trapframe_range r o) as (_ & ? & ?); [|lia]. unfold trapframe. by rewrite slot_of_app, Hr.
  - intros a Ha. apply store_le_outside. lia.
Qed.

Lemma user_mem_slot tf s r o : asm_ok s -> slot_of trapframe r = Some o -> load64 (user_mem tf s) (tf + o) = a_regs s r.
Proof using Type.
  intros Hs [[-> ->]|[Hne Hr]]%trapframe_cases; unfold user_mem.
  - apply load64_store64_eq. apply (ao_regs _ Hs).
  - assert (o <> 112) by (intros ->; apply slot_of_Some in Hr; repeat (apply elem_of_cons in Hr as [Hr|Hr]; [done|]); by apply not_elem_of_nil in Hr).
    destruct (tb_range _ _ user_regs_ok r o (slot_of_Some _ _ _ Hr)) as (_ & ? & ? & Ho8). pose proof (Z.div_mod o 8 ltac:(lia)).
    rewrite load_le_store_le_ne by lia. rewrite (save_all_at _ _ 288 _ _ r) by
      (done || apply user_regs_ok || (intros x; unfold fset; destruct (_ =? _); [vm_compute; split; congruence|apply (ao_regs _ Hs)])).
    by apply fset_ne.
Qed.

Lemma run_step i l s s' : step tr i s = Some s' -> jumps i = false -> run (i :: l) s = run l s'.
Proof using Type. intros E J. cbn [Asm.run_code]. rewrite E. cbn [mbind option_bind]. by rewrite J. Qed.

Lemma csr_upd_eq f c v : csr_upd f c v c = v.
Proof using Type. unfold csr_upd. by rewrite Z.eqb_refl. Qed.

Lemma uservec_saves tf s rest : asm_ok s -> a_mode s = Supervisor -> maps (a_csr s Satp) TRAPFRAME tf 288 ->
  run (Csrw Sscratch A0 :: Li A0 TRAPFRAME :: saves A0 user_regs ++ Csrr T0 Sscratch :: Sd T0 112 A0 :: rest) s =
  run rest (Asm (fset (fset (a_regs s) A0 TRAPFRAME) T0 (a_regs s A0)) (a_pc s) Supervisor (csr_upd (a_csr s) Sscratch (a_regs s A0)) (user_mem tf s)).
Proof using Type.
  intros Hs Hm Hmap. rewrite (run_step _ _ _ (with_csr Sscratch (a_regs s A0) s)); [|unfold step, csr_ok; by rewrite Hm|done].
  erewrite run_step; [|reflexivity|done]. unfold setr. cbn [Z.eqb A0]. change (u64 TRAPFRAME) with TRAPFRAME.
  rewrite (run_saves A0 TRAPFRAME tf 288) by (apply user_regs_ok || (cbn; by rewrite fset_eq) || done).
  erewrite run_step; [|unfold step, csr_ok; cbn [a_mode with_mem with_csr]; rewrite Hm; reflexivity|done].
  unfold setr. cbn [Z.eqb T0 with_mem with_csr a_csr a_regs a_pc a_mode a_mem]. rewrite csr_upd_eq, wrap_small by apply (ao_regs _ Hs).
  erewrite run_step; [| |done].
  2: { unfold step. cbn [a_regs]. rewrite (fset_ne _ _ A0), fset_eq by done.
       rewrite (translate_at _ TRAPFRAME tf 288) by (done || lia). reflexivity. }
  done.
Qed.

Lemma uservec_run tf s : asm_ok s -> a_mode s = Supervisor -> maps (a_csr s Satp) TRAPFRAME tf 288 ->
  exists s', run uservec s = Some s' /\ user_saved tf s s'.
Proof using Type.
  intros Hs Hm Hmap.
  change uservec with (Csrw Sscratch A0 :: Li A0 TRAPFRAME :: saves A0 user_regs ++ Csrr T0 Sscratch :: Sd T0 112 A0 :: loads A0 kernel_regs ++ [Sfence; Csrw Satp T1; Sfence; Jr T0]).
  rewrite (uservec_saves tf) by done. pose proof (user_mem_outside tf s) as Hout.
  assert (Hk : forall o, 0 <= o <= 32 -> load64 (user_mem tf s) (tf + o) = load64 (a_mem s) (tf + o)).
  { intros o Ho. apply load_le_ext. intros y Hy. apply Hout. lia. }
  rewrite (run_loads A0 TRAPFRAME tf 288).
  - eexists. split; [reflexivity|].
    split; cbn [with_regs with_csr jump a_regs a_mem a_csr a_pc a_mode]; try done.
    + intros r o. by apply user_mem_slot.
    + rewrite csr_upd_eq, (load_all_in _ _ _ _ T1 0), Hk by done. by rewrite Z.add_0_r.
    + by rewrite (load_all_in _ _ _ _ Sp 8), Hk.
    + by rewrite (load_all_in _ _ _ _ T0 16), Hk.
    + by rewrite (load_all_in _ _ _ _ Tp 32), Hk.
  - apply kernel_regs_ok.
  - intros o Ho. exfalso. apply (slot_of_in _ _ _ (tb_regs _ _ kernel_regs_ok)) in Ho. by vm_compute in Ho.
  - cbn [a_regs]. by rewrite fset_ne, fset_eq.
  - done.
  - apply store_le_bytes_ok, save_all_bytes, (ao_mem _ Hs).
Qed.

(** What [userret] does with the frame at [tf]. *)
Record user_resumed (tf : Z) (s s' : asm) : Prop := {
  ur_slot r o : slot_of trapframe r = Some o -> a_regs s' r = load64 (a_mem s) (tf + o);
  ur_mem : a_mem s' = a_mem s;
  ur_satp : a_csr s' Satp = a_regs s A0;
  ur_pc : a_pc s' = a_csr s Sepc;
  ur_mode : a_mode s' = if Z.testbit (a_csr s Mstatus) 8 then Supervisor else User;
  ur_intr : Z.testbit (a_csr s' Mstatus) 1 = Z.testbit (a_csr s Mstatus) 5
}.

Lemma sret_sie st : Z.testbit (Z.lor (Z.land st (Z.lnot (Z.lor (Z.shiftl 1 8) (Z.shiftl 1 1)))) (Z.lor (if Z.testbit st 5 then Z.shiftl 1 1 else 0) (Z.shiftl 1 5))) 1 = Z.testbit st 5.
Proof using Type. rewrite !Z.lor_spec, Z.land_spec. destruct (Z.testbit st 5); cbn; by rewrite andb_false_r. Qed.

Lemma userret_run tf s : asm_ok s -> a_mode s = Supervisor -> maps (a_regs s A0) TRAPFRAME tf 288 ->
  exists s', run userret s = Some s' /\ user_resumed tf s s'.
Proof using Type.
  intros Hs Hm Hmap. change userret with (Sfence :: Csrw Satp A0 :: Sfence :: Li A0 TRAPFRAME :: loads A0 user_regs ++ [Ld A0 112 A0; Sret]).
  erewrite run_step; [|reflexivity|done]. rewrite (run_step _ _ _ (with_csr Satp (a_regs s A0) s)); [|unfold step, csr_ok; by rewrite Hm|done].
  do 2 (erewrite run_step; [|reflexivity|done]). unfold setr. cbn [Z.eqb A0]. change (u64 TRAPFRAME) with TRAPFRAME.
  set (s1 := Asm _ _ _ _ _). assert (E0 : a_regs s1 A0 = TRAPFRAME) by (unfold s1; cbn [a_regs]; apply fset_eq).
  assert (Hn : slot_of user_regs A0 = None) by done.
  assert (Hmap1 : maps (a_csr s1 Satp) TRAPFRAME tf 288) by (cbn [s1 a_csr with_csr]; by rewrite csr_upd_eq).
  rewrite (run_loads A0 TRAPFRAME tf 288); [|apply user_regs_ok| |done|done|apply (ao_mem _ Hs)].
  2: { intros o Ho. exfalso. apply (slot_of_in _ _ _ (tb_regs _ _ user_regs_ok)) in Ho. by rewrite Hn in Ho. }
  erewrite run_step; [| |done].
  2: { unfold step. cbn [a_regs with_regs]. rewrite load_all_out, E0 by done.
       rewrite (translate_at _ TRAPFRAME tf 288) by (done || lia). reflexivity. }
  unfold setr. cbn [Z.eqb A0]. pose proof (load_le_bound 8 (a_mem s) (tf + 112) (ao_mem _ Hs)) as Hb.
  cbn [Asm.run_code step sret a_mode with_regs s1 with_csr]. rewrite Hm. cbn [mbind option_bind jumps]. eexists. split; [reflexivity|].
  split; cbn [a_regs a_mem a_csr a_pc a_mode with_regs with_csr s1]; try done.
  - intros r o [[-> ->]|[Hne Hr]]%trapframe_cases.
    + rewrite fset_eq. by apply wrap_small.
    + rewrite fset_ne by done. by apply load_all_in.
  - apply sret_sie.
Qed.

(** C6: On a trap from user space [uservec] saves all 31 user registers in the process's trap frame, writes nothing else, and
    enters the kernel on the stack, page table, hart id and handler that the frame holds.  When the kernel
    later runs [userret] with the process's page table, on any hart, the process goes on at [sepc] in the mode of [SPP], and
    every register whose place in the frame was not written in between has the value it had at the trap: all of
    them after an interrupt, all but [a0] after a system call. *)
Theorem trap_registers s tf :
  asm_ok s -> a_mode s = Supervisor -> maps (a_csr s Satp) TRAPFRAME tf 288 ->
  exists s1, run uservec s = Some s1 /\ user_saved tf s s1 /\
  forall s2, asm_ok s2 -> a_mode s2 = Supervisor -> maps (a_regs s2 A0) TRAPFRAME tf 288 ->
  exists s3, run userret s2 = Some s3 /\ user_resumed tf s2 s3 /\
    forall r, 0 < r < 32 -> (forall o, slot_of trapframe r = Some o -> load64 (a_mem s2) (tf + o) = load64 (a_mem s1) (tf + o)) ->
      a_regs s3 r = a_regs s r.
Proof using Type.
  intros Hs Hm Hmap. destruct (uservec_run tf s Hs Hm Hmap) as (s1 & E1 & H1). exists s1. split; [done|]. split; [done|].
  intros s2 Hs2 Hm2 Hmap2. destruct (userret_run tf s2 Hs2 Hm2 Hmap2) as (s3 & E3 & H3). exists s3. split; [done|]. split; [done|].
  intros r Hr Hk. destruct (trapframe_all r Hr) as [o Ho].
  rewrite (ur_slot _ _ _ H3 r o Ho), (Hk o Ho). by apply (us_slot _ _ _ H1).
Qed.

(** ** kernelvec *)

(** The registers [kernelvec] restores, by their place on the stack; [tp] is saved but not restored. *)
Definition kernel_frame : list (Z * Z) :=
  [(Ra, 0); (Sp, 8); (Gp, 16); (T0, 32); (T1, 40); (T2, 48); (A0, 72); (A1, 80); (A2, 88); (A3, 96); (A4, 104); (A5, 112); (A6, 120); (A7, 128);
   (T3, 216); (T4, 224); (T5, 232); (T6, 240)].
Definition kernel_saved : list (Z * Z) := take 3 kernel_frame ++ (Tp, 24) :: drop 3 kernel_frame.
Definition callee_saved : list Z := [S0; S1; S2; S3; S4; S5; S6; S7; S8; S9; S10; S11].

Lemma kernel_frame_ok : table_ok 256 kernel_frame.
Proof using Type. apply table_okb_ok. vm_compute. reflexivity. Qed.

Lemma kernel_saved_ok : table_ok 256 kernel_saved.
Proof using Type. apply table_okb_ok. vm_compute. reflexivity. Qed.

Lemma kernel_frame_saved r o : slot_of kernel_frame r = Some o -> slot_of kernel_saved r = Some o.
Proof using Type.
  intros Hr%slot_of_Some. apply slot_of_in; [apply (tb_regs _ _ kernel_saved_ok)|].
  unfold kernel_saved. rewrite <- (take_drop 3 kernel_frame), elem_of_app in Hr. rewrite elem_of_app, elem_of_cons. destruct Hr as [Hr|Hr]; [by left|by right; right].
Qed.

Lemma kernel_frame_rest r : 0 < r < 32 -> r <> Tp -> slot_of kernel_frame r = None -> r ∈ callee_saved.
Proof using Type.
  intros Hr Ht Hn. assert (Hf : forallb (fun r => match slot_of kernel_frame r with Some _ => true | None => (r =? Tp) || bool_decide (r ∈ callee_saved) end) (seqZ 1 31) = true) by (vm_compute; reflexivity).
  rewrite forallb_forall in Hf. specialize (Hf r). rewrite <- list_elem_of_In, elem_of_seqZ, Hn in Hf. specialize (Hf ltac:(lia)).
  apply orb_true_iff in Hf as [Hf|Hf]; [lia|by apply bool_decide_eq_true in Hf].
Qed.

(** The state in which [kernelvec] calls [kerneltrap]. *)
Definition kernel_entry (pa : Z) (s : asm) : asm :=
  let x := fset (a_regs s) Sp (u64 (a_regs s Sp - 256)) in with_mem (save_all x pa kernel_saved (a_mem s)) (with_regs x s).

Lemma kernelvec_saves pa s : maps (a_csr s Satp) (u64 (a_regs s Sp - 256)) pa 256 -> run kernelvec_save s = Some (kernel_entry pa s).
Proof using Type.
  intros Hm. change kernelvec_save with (Addi Sp Sp (-256) :: saves Sp kernel_saved ++ []).
  erewrite run_step; [|reflexivity|done]. unfold setr. cbn [Z.eqb Sp].
  rewrite (run_saves Sp (u64 (a_regs s Sp - 256)) pa 256); [done|apply kernel_saved_ok|cbn [a_regs]; apply fset_eq|done].
Qed.

(** What the calling convention and its own code promise of [kerneltrap]: the stack pointer and the saved
    registers are back, the frame above the stack pointer and the page table are as they were. *)
Record called (pa : Z) (s s' : asm) : Prop := {
  ca_ok : asm_ok s';
  ca_mode : a_mode s' = Supervisor;
  ca_sp : a_regs s' Sp = a_regs s Sp;
  ca_saved r : r ∈ callee_saved -> a_regs s' r = a_regs s r;
  ca_satp : a_csr s' Satp = a_csr s Satp;
  ca_frame : same_inside pa 256 (a_mem s) (a_mem s')
}.

(** What is back after an interrupt in the kernel. *)
Record interrupted (s s2 s3 : asm) : Prop := {
  in_regs r : 0 < r < 32 -> r <> Tp -> a_regs s3 r = a_regs s r;
  in_tp : a_regs s3 Tp = a_regs s2 Tp;
  in_pc : a_pc s3 = a_csr s2 Sepc;
  in_mode : a_mode s3 = if Z.testbit (a_csr s2 Mstatus) 8 then Supervisor else User;
  in_intr : Z.testbit (a_csr s3 Mstatus) 1 = Z.testbit (a_csr s2 Mstatus) 5;
  in_mem : a_mem s3 = a_mem s2
}.

Lemma kernel_entry_slot pa s r o : asm_ok s -> slot_of kernel_frame r = Some o ->
  load64 (a_mem (kernel_entry pa s)) (pa + o) = fset (a_regs s) Sp (u64 (a_regs s Sp - 256)) r.
Proof using Type.
  intros Hs Hr%kernel_frame_saved. unfold kernel_entry. cbn [a_mem with_mem].
  apply (save_all_at _ _ 256); [apply kernel_saved_ok| |done].
  intros x. unfold fset. destruct (x =? Sp); [apply wrap_range; lia|apply (ao_regs _ Hs)].
Qed.

Lemma kernelvec_restores pa s s2 : asm_ok s -> maps (a_csr s Satp) (u64 (a_regs s Sp - 256)) pa 256 -> called pa (kernel_entry pa s) s2 ->
  exists s3, run kernelvec_restore s2 = Some s3 /\ interrupted s s2 s3.
Proof using Type.
  intros Hs Hm [[Hr2 Hb2] Hm2 Hsp Hsv Hsatp Hfr]. set (sp := u64 (a_regs s Sp - 256)) in *.
  assert (Hslot : forall r o, slot_of kernel_frame r = Some o -> load64 (a_mem s2) (pa + o) = fset (a_regs s) Sp sp r).
  { intros r o Hr. destruct (tb_range _ _ kernel_frame_ok r o (slot_of_Some _ _ _ Hr)) as (_ & ? & ? & _).
    rewrite (load64_inside pa 256 (a_mem (kernel_entry pa s))) by (done || lia). by apply kernel_entry_slot. }
  change kernelvec_restore with (loads Sp kernel_frame ++ [Addi Sp Sp 256; Sret]).
  rewrite (run_loads Sp sp pa 256); [|apply kernel_frame_ok| | | |done].
  2: { intros o Ho. apply (slot_of_in _ _ _ (tb_regs _ _ kernel_frame_ok)) in Ho. rewrite (Hslot _ _ Ho). apply fset_eq. }
  2: { rewrite Hsp. apply fset_eq. }
  2: { by rewrite Hsatp. }
  cbn [Asm.run_code step setr Z.eqb Sp mbind option_bind jumps sret a_mode with_regs a_regs]. rewrite Hm2. eexists. split; [reflexivity|].
  split; cbn [a_regs a_mem a_csr a_pc a_mode]; try done; [|apply sret_sie].
  intros r Hr Ht. destruct (decide (r = Sp)) as [->|Hne].
  - rewrite fset_eq, (load_all_in _ _ _ _ _ 8), (Hslot Sp 8) by done. rewrite fset_eq. unfold sp, wrap. rewrite Zplus_mod_idemp_l.
    replace (a_regs s Sp - 256 + 256) with (a_regs s Sp) by lia. apply Z.mod_small, (ao_regs _ Hs).
  - rewrite fset_ne by done. destruct (slot_of kernel_frame r) as [o|] eqn:E.
    + rewrite (load_all_in _ _ _ _ _ _ E), (Hslot _ _ E). by apply fset_ne.
    + rewrite load_all_out, Hsv by (done || by apply kernel_frame_rest). by apply fset_ne.
Qed.

(** C23: An interrupt taken in the kernel is invisible to the code it interrupts: [kernelvec] reaches [kerneltrap] with a frame of 256
    bytes pushed on the kernel stack, writing nothing outside it, and once [kerneltrap] has returned as a C function does, every
    register but [tp] is as it was, execution goes on at [sepc], and [tp] is the hart id of the hart the thread now runs on. *)
Theorem kernelvec_transparent s pa :
  asm_ok s -> maps (a_csr s Satp) (u64 (a_regs s Sp - 256)) pa 256 ->
  run kernelvec_save s = Some (kernel_entry pa s) /\
  same_outside pa 256 (a_mem s) (a_mem (kernel_entry pa s)) /\
  forall s2, called pa (kernel_entry pa s) s2 ->
    exists s3, run kernelvec_restore s2 = Some s3 /\ interrupted s s2 s3.
Proof using Type.
  intros Hs Hm. split; [by apply kernelvec_saves|]. split; [apply save_all_outside, kernel_saved_ok|].
  intros s2 Hc. by apply (kernelvec_restores pa).
Qed.

(** ** entry *)

(** Each hart starts C code at the top of its own 4096 bytes of [stack0]. *)
Theorem entry_stack stack0 start s :
  a_mode s = Machine -> 0 <= stack0 -> 0 <= a_csr s Mhartid < 8 -> stack0 + 4096 * 8 < 2 ^ 64 ->
  exists s', run (entry stack0 start) s = Some s' /\ a_pc s' = start /\ a_regs s' Sp = stack0 + 4096 * (a_csr s Mhartid + 1) /\
    a_csr s' = a_csr s /\ a_mem s' = a_mem s /\ a_mode s' = Machine.
Proof using Type.
  intros Hm H0 Hh Hs. eexists. split.
  - unfold entry. cbn [Asm.run_code step setr Z.eqb Sp A0 A1 mbind option_bind jumps csr_ok a_mode a_csr a_regs]. rewrite Hm. reflexivity.
  - cbn [jump a_pc a_regs a_csr a_mem a_mode]. repeat split. rewrite !fset_eq.
    rewrite (fset_ne _ A0 Sp), (fset_ne _ A1 Sp), (fset_ne _ A1 Sp), (fset_ne _ A0 Sp), fset_eq by done.
    rewrite (fset_ne _ A1 A0), (fset_ne _ A1 A0), fset_eq by done. cbn [a_csr]. unfold wrap.
    rewrite (Z.mod_small (1024 * 4)), (Z.mod_small (a_csr s Mhartid)), (Z.mod_small stack0), (Z.mod_small (a_csr s Mhartid + 1)) by lia.
    rewrite (Z.mod_small (1024 * 4 * _)) by lia. rewrite Z.mod_small by lia. lia.
Qed.
End Tables.

(** ** Concrete runs *)

Definition tr_id (satp va : Z) : option Z := Some va.
(** A user page table, number 7, that maps the trap frame to 0x87f50000. *)
Definition tr_user (satp va : Z) : option Z := if satp =? 7 then Some (va - TRAPFRAME + 0x87f50000) else None.
Definition regs2 (a0 a1 sp r : Z) : Z := if r =? A0 then a0 else if r =? A1 then a1 else if r =? Sp then sp else if r =? Ra then 0x80001234 else 0.
Definition hart_at (a0 a1 sp satp : Z) (m : mem) : asm := Asm (regs2 a0 a1 sp) 0 Supervisor (fun c => match c with Satp => satp | Sepc => 0x1000 | _ => 0 end) m.
Definition mem0 : mem := fun _ => 0.

Lemma hart_at_ok a0 a1 sp satp m : 0 <= a0 < 2 ^ 64 -> 0 <= a1 < 2 ^ 64 -> 0 <= sp < 2 ^ 64 -> bytes_ok m -> asm_ok (hart_at a0 a1 sp satp m).
Proof. intros H0 H1 H2 Hm. split; [|done]. intros r. cbn [hart_at a_regs]. unfold regs2. repeat (destruct (_ =? _); [lia|]). lia. Qed.

Lemma mem0_ok : bytes_ok mem0.
Proof. intros a. unfold mem0. lia. Qed.

Lemma maps_id satp va n : 0 <= va -> va + n <= 2 ^ 64 -> va mod 8 = 0 -> maps tr_id satp va va n.
Proof. intros H1 H2 H3. by split. Qed.

Lemma maps_user : maps tr_user 7 TRAPFRAME 0x87f50000 288.
Proof. split; [by vm_compute|done|]. intros o H1 H2 H3. unfold tr_user. cbn [Z.eqb Pos.eqb]. f_equal. lia. Qed.

Lemma swtch_resumes_witness :
  let s := hart_at 0x80010000 0x80020000 0x3fffffe000 0 mem0 in
  let s2 := hart_at 0x80030000 0x80010000 0x3fffffc000 0 (save_all (a_regs s) 0x80010000 context mem0) in
  exists s1 s3, run_code tr_id swtch s = Some s1 /\ a_pc s1 = 0 /\
    run_code tr_id swtch s2 = Some s3 /\ a_pc s3 = 0x80001234 /\ a_regs s3 Sp = 0x3fffffe000 /\ a_regs s3 A0 = 0x80030000.
Proof.
  intros s s2. assert (Hs : asm_ok s) by (apply hart_at_ok; [lia|lia|lia|apply mem0_ok]).
  assert (M1 : maps tr_id (a_csr s Satp) (a_regs s A0) 0x80010000 112) by (apply maps_id; done || lia).
  assert (M2 : maps tr_id (a_csr s Satp) (a_regs s A1) 0x80020000 112) by (apply maps_id; done || lia).
  assert (Hap : clear_of 0x80010000 0x80020000 112) by (unfold clear_of; lia).
  destruct (swtch_resumes tr_id s _ _ Hs M1 M2 Hap) as (s1 & E1 & H1 & K).
  pose proof (swtch_run tr_id s _ _ Hs M1 M2) as E1'. cbv zeta in E1'. rewrite E1 in E1'. injection E1' as Es1.
  destruct (K s2 0x80030000) as (s3 & E3 & Hpc & Hc & Hr).
  - apply hart_at_ok; [lia|lia|lia|apply save_all_bytes, mem0_ok].
  - apply maps_id; done || lia.
  - apply maps_id; done || lia.
  - unfold clear_of. lia.
  - rewrite Es1. by intros a _.
  - exists s1, s3. split; [done|]. split; [rewrite (sw_pc _ _ _ _ H1); by vm_compute|]. split; [done|]. split; [by rewrite Hpc|].
    split; [by rewrite (Hc Sp 8)|by rewrite (Hr A0)].
Defined.

Lemma trap_registers_witness :
  let s := hart_at 5 6 0x4fc0 7 mem0 in
  let s2 := hart_at 7 0 0x3fffffe000 9 (store64 (user_mem 0x87f50000 s) (0x87f50000 + 112) 42) in
  exists s1 s3, run_code tr_user uservec s = Some s1 /\ a_pc s1 = 0 /\
    run_code tr_user userret s2 = Some s3 /\ a_pc s3 = 0x1000 /\ a_mode s3 = User /\ a_regs s3 A0 = 42 /\ a_regs s3 A1 = 6 /\ a_regs s3 Sp = 0x4fc0.
Proof.
  intros s s2. assert (Hs : asm_ok s) by (apply hart_at_ok; [lia|lia|lia|apply mem0_ok]).
  assert (Hb : bytes_ok (user_mem 0x87f50000 s)) by (apply store_le_bytes_ok, save_all_bytes, mem0_ok).
  destruct (trap_registers tr_user s 0x87f50000 Hs eq_refl maps_user) as (s1 & E1 & H1 & K).
  destruct (K s2) as (s3 & E3 & H3 & Hr).
  - apply hart_at_ok; [lia|lia|lia|by apply store_le_bytes_ok].
  - done.
  - apply maps_user.
  - assert (Hk : forall r o, slot_of trapframe r = Some o -> o + 8 <= 112 \/ 120 <= o -> a_regs s3 r = a_regs s r).
    { intros r o Ho Hd. apply Hr; [by apply (trapframe_range _ o)|]. intros o'. rewrite Ho. intros [= <-].
      rewrite (us_slot _ _ _ H1 r o Ho). cbn [s2 hart_at a_mem]. rewrite load_le_store_le_ne by lia. by apply user_mem_slot. }
    exists s1, s3. split; [exact E1|]. split; [rewrite (us_pc _ _ _ H1); by vm_compute|]. split; [exact E3|].
    split; [exact (ur_pc _ _ _ H3)|]. split; [exact (ur_mode _ _ _ H3)|].
    split; [rewrite (ur_slot _ _ _ H3 A0 112 eq_refl); cbn [s2 hart_at a_mem]; apply load64_store64_eq; lia|].
    split; [exact (Hk A1 120 eq_refl ltac:(lia))|exact (Hk Sp 48 eq_refl ltac:(lia))].
Defined.

Lemma kernelvec_transparent_witness :
  let s := hart_at 5 6 0x3fffffe000 0 mem0 in
  exists s1 s3, run_code tr_id kernelvec_save s = Some s1 /\ run_code tr_id kernelvec_restore s1 = Some s3 /\
    a_pc s3 = 0x1000 /\ a_regs s3 A0 = 5 /\ a_regs s3 Sp = 0x3fffffe000 /\ a_regs s3 Ra = 0x80001234.
Proof.
  intros s. assert (Hs : asm_ok s) by (apply hart_at_ok; [lia|lia|lia|apply mem0_ok]).
  assert (M : maps tr_id (a_csr s Satp) (u64 (a_regs s Sp - 256)) 0x3fffffdf00 256) by (apply maps_id; done || lia).
  destruct (kernelvec_transparent tr_id s _ Hs M) as (E1 & Ho & K).
  destruct (K (kernel_entry 0x3fffffdf00 s)) as (s3 & E3 & H3).
  - split; [|reflexivity|reflexivity|reflexivity|reflexivity|intros a _; reflexivity].
    split; [|apply save_all_bytes, mem0_ok]. intros r. cbn [kernel_entry with_mem with_regs a_regs]. unfold fset.
    destruct (r =? Sp); [apply wrap_range; lia|apply (ao_regs _ Hs)].
  - exists (kernel_entry 0x3fffffdf00 s), s3. split; [exact E1|]. split; [exact E3|]. split; [exact (in_pc _ _ _ H3)|].
    assert (Hr : forall r, 0 < r < 32 -> r <> Tp -> a_regs s3 r = a_regs s r) by exact (in_regs _ _ _ H3).
    split; [exact (Hr A0 ltac:(unfold A0; lia) ltac:(discriminate))|].
    split; [exact (Hr Sp ltac:(unfold Sp; lia) ltac:(discriminate))|exact (Hr Ra ltac:(unfold Ra; lia) ltac:(discriminate))].
Defined.
