(* ===== verification/Kalloc.v ===== *)
(** * kernel/kalloc.c: the physical page allocator

    The free list lives in the free pages themselves: the first eight bytes of a
    free page hold the address of the next one.  [kend] is the linker's symbol
    [end], the first address after the kernel. *)

From Stdlib Require Import ZArith Lia.
From stdpp Require Import base list sets strings numbers relations.
From S2P Require Import Prelude Memory KString Riscv.

Record kmem := Kmem { km_mem : mem; km_freelist : Z }.

Definition kmem_get : M kmem mem := gets km_mem.
Definition kmem_put (f : mem -> mem) : M kmem unit :=
  modify (fun s => Kmem (f (km_mem s)) (km_freelist s)).

Section code.
Context (kend : Z).

Definition kfree (pa : Z) : M kmem unit :=
  if negb (pa mod PGSIZE =? 0) || (pa <? kend) || (PHYSTOP <=? pa) then panic "kfree"
  else
    kmem_put (fun m => memset m pa 1 PGSIZE) ;;;
    modify (fun s => Kmem (store64 (km_mem s) pa (km_freelist s)) pa).

Definition kalloc : M kmem Z :=
  let* s := get in
  let r := km_freelist s in
  (if negb (r =? 0) then modify (fun s => Kmem (km_mem s) (load64 (km_mem s) r)) else ret tt) ;;;
  (if negb (r =? 0) then kmem_put (fun m => memset m r 5 PGSIZE) else ret tt) ;;;
  ret r.

(** [for(; p + PGSIZE <= pa_end; p += PGSIZE) kfree(p)] *)
Fixpoint freerange_loop (fuel : nat) (p pa_end : Z) : M kmem unit :=
  match fuel with
  | O => undef "freerange: out of fuel"
  | S fuel' =>
    if p + PGSIZE <=? pa_end then kfree p ;;; freerange_loop fuel' (p + PGSIZE) pa_end
    else ret tt
  end.

Definition freerange (pa_start pa_end : Z) : M kmem unit :=
  freerange_loop (S (Z.to_nat ((pa_end - pa_start) / PGSIZE))) (PGROUNDUP pa_start) pa_end.

Definition kinit : M kmem unit := freerange kend PHYSTOP.

(** ** The free list *)

Definition page_ok (x : Z) : Prop := x mod PGSIZE = 0 /\ kend <= x < PHYSTOP.

(** The pages reached from [p] through the links in memory. *)
Fixpoint free_list (m : mem) (p : Z) (l : list Z) : Prop :=
  match l with
  | [] => p = 0
  | x :: l' => p = x /\ free_list m (load64 m x) l'
  end.

Record kinv (l : list Z) (s : kmem) : Prop := {
  ki_list : free_list (km_mem s) (km_freelist s) l;
  ki_pages x : x ∈ l -> page_ok x;
  ki_nodup : NoDup l;
  ki_bytes : bytes_ok (km_mem s)
}.

Context (Hend : 0 < kend <= PHYSTOP).

(** Two pages are equal or disjoint. *)
Lemma pages_apart x y : x mod PGSIZE = 0 -> y mod PGSIZE = 0 -> x <> y ->
  x + PGSIZE <= y \/ y + PGSIZE <= x.
Proof.
  unfold PGSIZE. intros Hx Hy Hne. pose proof (Z.div_mod x 4096). pose proof (Z.div_mod y 4096).
  assert (x / 4096 <> y / 4096) by lia. lia.
Qed.

Lemma free_list_ext m m' p l :
  (forall x, x ∈ l -> load64 m' x = load64 m x) -> free_list m p l -> free_list m' p l.
Proof.
  revert p. induction l as [|x l IH]; intros p H; simpl; [done|].
  intros [-> Hl]. split; [done|]. rewrite H by set_solver. apply IH; [set_solver|done].
Qed.

(** Changes inside one page outside the list keep the list. *)
Lemma free_list_page m m' p l y :
  (forall x, x ∈ l -> page_ok x) -> y ∉ l -> y mod PGSIZE = 0 ->
  same_outside y PGSIZE m m' -> free_list m p l -> free_list m' p l.
Proof.
  intros Hok Hy Hal Hs. apply free_list_ext. intros x Hx. apply load_le_ext. intros a Ha.
  apply Hs. destruct (Hok x Hx) as [Hxa _].
  destruct (pages_apart x y Hxa Hal) as [|]; [by intros ->|..]; unfold PGSIZE in *; lia.
Qed.

Lemma memset_page m y c : same_outside y PGSIZE m (memset m y c PGSIZE).
Proof. intros a Ha. apply memset_outside; [unfold PGSIZE; lia|done]. Qed.

Lemma kalloc_run l s : kinv l s ->
  match l with
  | [] => kalloc s = Done 0 s []
  | x :: l' => exists s', kalloc s = Done x s' [] /\ kinv l' s' /\
      same_outside x PGSIZE (km_mem s) (km_mem s') /\
      (forall a, x <= a < x + PGSIZE -> km_mem s' a = 5)
  end.
Proof.
  intros [Hl Hp Hd Hb]. destruct s as [m f]. simpl in *.
  destruct l as [|x l]; simpl in Hl.
  - subst f. done.
  - destruct Hl as [-> Hl]. assert (Hx : page_ok x) by (apply Hp; set_solver).
    apply list.NoDup_cons in Hd as [Hxl Hd].
    assert (E : negb (x =? 0) = true) by (destruct Hx; case_bool; [lia|done]).
    exists (Kmem (memset m x 5 PGSIZE) (load64 m x)). unfold kalloc, bind, get. simpl.
    rewrite !E. simpl. split; [done|]. split; [split; simpl|].
    + eapply (free_list_page m _ _ _ x); auto; [set_solver|apply Hx|apply memset_page].
    + set_solver.
    + done.
    + apply memset_bytes_ok; [done|unfold PGSIZE; lia].
    + split; [apply memset_page|]. intros a Ha. by apply memset_inside.
Qed.

Lemma kfree_run l s pa : kinv l s -> page_ok pa -> pa ∉ l ->
  exists s', kfree pa s = Done tt s' [] /\ kinv (pa :: l) s' /\
    same_outside pa PGSIZE (km_mem s) (km_mem s').
Proof.
  intros [Hl Hp Hd Hb] [Hal Hr] Hnot. destruct s as [m f]. simpl in *.
  exists (Kmem (store64 (memset m pa 1 PGSIZE) pa f) pa). unfold kfree.
  rewrite Hal, (proj2 (Z.ltb_ge pa kend)), (proj2 (Z.leb_gt PHYSTOP pa)) by lia. simpl.
  assert (Hs : same_outside pa PGSIZE m (store64 (memset m pa 1 PGSIZE) pa f)).
  { intros a Ha. rewrite store_le_outside by (unfold PGSIZE in *; lia). by apply memset_page. }
  split; [done|]. split; [|done]. split; simpl.
  - split; [done|]. rewrite load64_store64_eq.
    + by eapply (free_list_page m).
    + destruct l as [|x l]; simpl in Hl; [subst; lia|]. destruct Hl as [-> _].
      destruct (Hp x ltac:(set_solver)) as [_ Hx]. unfold PHYSTOP, KERNBASE in *. lia.
  - intros x Hx. apply elem_of_cons in Hx as [->|Hx]; [done|by apply Hp].
  - by apply list.NoDup_cons.
  - apply store_le_bytes_ok, memset_bytes_ok; [done|unfold PGSIZE; lia].
Qed.
(** ** [kinit] *)

(** The pages from [p] on, [n] of them, last first. *)
Fixpoint pages_from (n : nat) (p : Z) (acc : list Z) : list Z :=
  match n with
  | O => acc
  | S n' => pages_from n' (p + PGSIZE) (p :: acc)
  end.

Lemma elem_of_pages_from n p acc x :
  x ∈ pages_from n p acc <-> x ∈ acc \/ exists i, 0 <= i < Z.of_nat n /\ x = p + i * PGSIZE.
Proof.
  revert p acc. induction n as [|n IH]; intros p acc; simpl.
  - split; [by left|]. intros [H|(i & Hi & _)]; [done|lia].
  - rewrite IH, elem_of_cons. split.
    + intros [[->|H]|(i & Hi & ->)]; [right; exists 0; lia|by left|right; exists (i + 1); lia].
    + intros [H|(i & Hi & ->)]; [by left; right|].
      destruct (decide (i = 0)) as [->|]; [left; left; lia|right; exists (i - 1); lia].
Qed.

Lemma freerange_run fuel p l s :
  kinv l s -> p mod PGSIZE = 0 -> kend <= p -> (forall x, x ∈ l -> x < p) ->
  let n := Z.to_nat ((PHYSTOP - p) / PGSIZE) in (n < fuel)%nat ->
  exists s', freerange_loop fuel p PHYSTOP s = Done tt s' [] /\ kinv (pages_from n p l) s'.
Proof.
  revert p l s. induction fuel as [|fuel IH]; intros p l s Hi Hal Hp Hl n Hn; [lia|].
  cbn [freerange_loop]. destruct (Z.leb_spec (p + PGSIZE) PHYSTOP) as [Hle|Hgt].
  - destruct (kfree_run l s p Hi) as (s1 & E1 & Hi1 & _).
    { split; [done|unfold PGSIZE in *; lia]. } { intros Hx. apply Hl in Hx. lia. }
    rewrite (bind_Done _ _ _ _ _ _ E1), prepend_nil.
    assert (En : n = S (Z.to_nat ((PHYSTOP - (p + PGSIZE)) / PGSIZE))).
    { unfold n. replace (PHYSTOP - p) with (PHYSTOP - (p + PGSIZE) + 1 * PGSIZE) by lia.
      rewrite Z.div_add by done. rewrite Z2Nat.inj_add; [|apply Z.div_pos; unfold PGSIZE in *; lia|lia].
      change (Z.to_nat 1) with 1%nat. lia. }
    destruct (IH (p + PGSIZE) (p :: l) s1) as (s2 & E2 & Hi2); try done.
    + rewrite Z.add_mod, Hal by done. done.
    + unfold PGSIZE in *. lia.
    + intros x Hx. apply elem_of_cons in Hx as [->|Hx]; [unfold PGSIZE; lia|].
      apply Hl in Hx. unfold PGSIZE. lia.
    + lia.
    + exists s2. split; [done|]. by rewrite En.
  - exists s. split; [done|]. assert (n = 0%nat) as ->; [|done]. unfold n.
    destruct (decide (0 <= PHYSTOP - p)) as [Hd|Hd].
    + rewrite Z.div_small; [done|]. unfold PGSIZE in *. lia.
    + assert ((PHYSTOP - p) / PGSIZE < 0) by (apply Z.div_lt_upper_bound; unfold PGSIZE; lia). lia.
Qed.

(** [kinit] makes every whole page between the end of the kernel and
    [PHYSTOP] free, each exactly once: the free list has no repetition and
    contains exactly the page-aligned addresses of that range. *)
Lemma kinit_spec m :
  bytes_ok m -> exists s l, kinit (Kmem m 0) = Done tt s [] /\ kinv l s /\
    forall x, x ∈ l <-> page_ok x.
Proof.
  intros Hb. unfold kinit, freerange.
  assert (Hbig : kend + PGSIZE <= 2 ^ 64) by (unfold PGSIZE, PHYSTOP, KERNBASE in *; lia).
  destruct (PGROUNDUP_bounds kend ltac:(lia) Hbig) as [Hr Hal].
  destruct (freerange_run (S (Z.to_nat ((PHYSTOP - kend) / PGSIZE))) (PGROUNDUP kend) [] (Kmem m 0))
    as (s & E & Hi).
  - split; [done| |constructor|done]. intros x Hx. by apply elem_of_nil in Hx.
  - done.
  - lia.
  - intros x Hx. by apply elem_of_nil in Hx.
  - assert ((PHYSTOP - PGROUNDUP kend) / PGSIZE <= (PHYSTOP - kend) / PGSIZE)
      by (apply Z.div_le_mono; unfold PGSIZE in *; lia). lia.
  - eexists _, _. split; [done|]. split; [done|]. intros x.
    rewrite elem_of_pages_from. unfold page_ok. split.
    + intros [Hx|(i & Hx & ->)]; [by apply elem_of_nil in Hx|].
      assert (Hd : (PHYSTOP - PGROUNDUP kend) / PGSIZE * PGSIZE <= PHYSTOP - PGROUNDUP kend)
        by (rewrite Z.mul_comm; by apply Z.mul_div_le).
      rewrite Z.add_mod, Z.mod_mul, Hal by done. split; [done|].
      unfold PGSIZE in *. nia.
    + intros [Hxa Hx]. right. exists ((x - PGROUNDUP kend) / PGSIZE).
      unfold PGSIZE, PHYSTOP, KERNBASE in *.
      pose proof (Z.div_mod x 4096). pose proof (Z.div_mod (PGROUNDUP kend) 4096).
      assert (Hge : PGROUNDUP kend <= x) by lia.
      assert (Ex : x - PGROUNDUP kend = (x / 4096 - PGROUNDUP kend / 4096) * 4096) by lia.
      rewrite Ex, Z.div_mul by lia. split; [|lia]. split; [lia|].
      rewrite Z2Nat.id by (apply Z.div_pos; lia).
      assert (x / 4096 - PGROUNDUP kend / 4096 + 1 <= (2147483648 + 128 * 1024 * 1024 - PGROUNDUP kend) / 4096);
        [|lia]. apply Z.div_le_lower_bound; lia.
Qed.
(** ** Clients of the allocator *)

(** [A] is the list of pages the kernel has been given and not returned.  The
    kernel writes only to the pages it has. *)
Inductive alloc_step : list Z * kmem -> list Z * kmem -> Prop :=
| step_kalloc A s r s' t : kalloc s = Done r s' t ->
    alloc_step (A, s) (if r =? 0 then A else r :: A, s')
| step_kfree A1 pa A2 s s' t : kfree pa s = Done tt s' t ->
    alloc_step (A1 ++ pa :: A2, s) (A1 ++ A2, s')
| step_write A m m' f : bytes_ok m' ->
    (forall a, m' a <> m a -> exists pa, pa ∈ A /\ pa <= a < pa + PGSIZE) ->
    alloc_step (A, Kmem m f) (A, Kmem m' f).

Definition alloc_inv (x : list Z * kmem) : Prop :=
  exists l, kinv l x.2 /\ NoDup (x.1 ++ l) /\ forall pa, pa ∈ x.1 ++ l <-> page_ok pa.

Lemma alloc_inv_step x y : alloc_inv x -> alloc_step x y -> alloc_inv y.
Proof.
  intros (l & Hi & Hd & Hall) Hst.
  destruct Hst as [A s r s' t E|A1 pa A2 s s' t E|A m m' f Hb Hw]; simpl in *.
  - pose proof (kalloc_run l s Hi) as Hk. destruct l as [|x l].
    + rewrite Hk in E. simplify_eq. simpl. exists []. by rewrite app_nil_r in *.
    + destruct Hk as (s1 & E1 & Hi1 & _). rewrite E1 in E. simplify_eq.
      assert (page_ok r) as [_ Hr] by (apply Hi; set_solver).
      rewrite (proj2 (Z.eqb_neq r 0)) by lia. exists l. simpl. split; [done|].
      assert (Hp : A ++ r :: l ≡ₚ r :: A ++ l) by (symmetry; apply Permutation_middle).
      rewrite <- Hp. split; [done|]. intros pa. rewrite <- Hall. by rewrite Hp.
  - assert (Hp : (A1 ++ pa :: A2) ++ l ≡ₚ (A1 ++ A2) ++ pa :: l).
    { rewrite <- !app_assoc. simpl. rewrite <- !Permutation_middle.
      by rewrite (Permutation_app_comm A1 (pa :: A2 ++ l)) || rewrite !app_assoc. }
    rewrite Hp in Hd.
    destruct (kfree_run l s pa Hi) as (s1 & E1 & Hi1 & _).
    + apply Hall. set_solver.
    + apply list.NoDup_app in Hd as (_ & _ & Hd). by apply list.NoDup_cons in Hd as [? _].
    + rewrite E1 in E. simplify_eq. exists (pa :: l). simpl. split; [done|]. split; [done|].
      intros x. rewrite <- Hall, Hp. done.
  - exists l. split; [|done]. destruct Hi as [Hl Hp Hnd _]. split; simpl in *; try done.
    apply (free_list_ext m); [|done]. intros x Hx. apply load_le_ext. intros a Ha.
    destruct (decide (m' a = m a)) as [|Hne]; [done|].
    apply Hw in Hne as (pa & Hpa & Hin). exfalso.
    apply list.NoDup_app in Hd as (_ & Hdis & _).
    assert (page_ok pa) as [Hal1 _] by (apply Hall; set_solver).
    destruct (Hp x Hx) as [Hal2 _].
    destruct (pages_apart x pa Hal2 Hal1) as [|]; [intros ->; by apply (Hdis pa)|..];
      unfold PGSIZE in *; lia.
Qed.

(** C10: The allocator never hands out a page twice: starting after [kinit], after
    any sequence of [kalloc], [kfree] of pages that were handed out, and writes
    to such pages, the pages handed out are distinct, page aligned and between
    the kernel and [PHYSTOP]; freeing any one of them succeeds and the next
    [kalloc] gives a page that is not in use, or 0 only when every page is. *)
Theorem kalloc_exclusive m s0 t0 A s :
  bytes_ok m -> kinit (Kmem m 0) = Done tt s0 t0 -> rtc alloc_step ([], s0) (A, s) ->
  NoDup A /\ (forall pa, pa ∈ A -> page_ok pa /\ exists s', kfree pa s = Done tt s' []) /\
  exists r s', kalloc s = Done r s' [] /\
    ((r = 0 /\ forall pa, page_ok pa -> pa ∈ A) \/ (page_ok r /\ r ∉ A)).
Proof.
  intros Hb E Hr. assert (Hi : alloc_inv ([], s0)).
  { destruct (kinit_spec m Hb) as (s1 & l & E1 & Hi & Hl). rewrite E1 in E. simplify_eq.
    exists l. simpl. split; [done|]. split; [apply Hi|done]. }
  assert (Hi' : alloc_inv (A, s)).
  { clear E Hb. induction Hr as [|x y z Hst _ IH]; [done|]. apply IH. by eapply alloc_inv_step. }
  destruct Hi' as (l & Hk & Hd & Hall). simpl in *.
  pose proof Hd as Hd'. apply list.NoDup_app in Hd' as (HdA & Hdis & _). split_and!; [done| |].
  - intros pa Hpa. assert (page_ok pa) by (apply Hall; set_solver). split; [done|].
    destruct (kfree_run l s pa) as (s' & E' & _); [done..|by apply Hdis|eauto].
  - pose proof (kalloc_run l s Hk) as Ha. destruct l as [|x l].
    + exists 0, s. split; [done|]. left. split; [done|]. intros pa. rewrite <- Hall. by rewrite app_nil_r.
    + destruct Ha as (s' & Ea & _). exists x, s'. split; [done|]. right.
      split; [apply Hall; set_solver|]. intros Hx. apply (Hdis x Hx). set_solver.
Qed.
End code.

Lemma kalloc_exclusive_witness :
  exists s r r' s', r <> 0 /\ kalloc s = Done r' s' [] /\ r' <> r.
Proof.
  set (kend := PHYSTOP - 3 * PGSIZE). set (m := (fun _ => 0) : mem).
  assert (Hb : bytes_ok m) by (intros a; unfold m; lia).
  assert (He : 0 < kend <= PHYSTOP) by (unfold kend, PHYSTOP, KERNBASE, PGSIZE; lia).
  destruct (kinit_spec kend He m Hb) as (s0 & l & E & Hi & Hl).
  pose proof (kalloc_run kend He l s0 Hi) as Hk.
  assert (Hp : PHYSTOP - PGSIZE ∈ l).
  { apply Hl. split; [by vm_compute|]. unfold kend, PHYSTOP, KERNBASE, PGSIZE; lia. }
  destruct l as [|x l]; [by apply elem_of_nil in Hp|]. destruct Hk as (s1 & E1 & _).
  assert (Hx : x <> 0).
  { assert (page_ok kend x) as [_ Hx] by (apply Hi; set_solver). lia. }
  destruct (kalloc_exclusive kend He m s0 [] [x] s1 Hb E)
    as (_ & _ & r' & s' & E2 & [[Er _]|[_ Hr']]).
  - apply rtc_once. pose proof (step_kalloc kend [] s0 x s1 [] E1) as Hst.
    rewrite (proj2 (Z.eqb_neq x 0)) in Hst by exact Hx. exact Hst.
  - exists s1, x, r', s'. split; [exact Hx|]. split; [exact E2|]. congruence.
  - exists s1, x, r', s'. split; [exact Hx|]. split; [exact E2|]. intros ->. apply Hr'. left.
Defined.
