(* ===== verification/Vm.v ===== *)
(** * kernel/vm.c: page tables and user memory

    Page tables are the memory the hardware walks: 512 eight-byte entries in a
    page.  A kernel buffer that [copyin], [copyout] and [copyinstr] move bytes to
    or from is the list of these bytes.  Pointers to page table entries and
    pages are addresses, 0 is null. *)

From Stdlib Require Import ZArith Lia.
From stdpp Require Import base list strings numbers.
From S2P Require Import Prelude Memory KString Riscv Kalloc.

(** [(pte & flag) != 0] *)
Definition has (pte flag : Z) : bool := negb (Z.land pte flag =? 0).

Definition load_pte (a : Z) : M kmem Z := let* m := kmem_get in ret (load64 m a).
Definition store_pte (a v : Z) : M kmem unit := kmem_put (fun m => store64 m a v).

Section code.
Context (kend : Z).

(** The loop of [walk] from [level] down. *)
Fixpoint walk_loop (level : nat) (pagetable va : Z) (alloc : bool) : M kmem Z :=
  match level with
  | O => ret (pagetable + 8 * PX 0 va)
  | S level' =>
    let a := pagetable + 8 * PX (Z.of_nat level) va in
    let* pte := load_pte a in
    if has pte PTE_V then walk_loop level' (PTE2PA pte) va alloc
    else if negb alloc then ret 0
    else
      let* pt := kalloc in
      if pt =? 0 then ret 0
      else
        kmem_put (fun m => memset m pt 0 PGSIZE) ;;;
        store_pte a (Z.lor (PA2PTE pt) PTE_V) ;;;
        walk_loop level' pt va alloc
  end.

Definition walk (pagetable va : Z) (alloc : bool) : M kmem Z :=
  if MAXVA <=? va then panic "walk" else walk_loop 2 pagetable va alloc.

Definition walkaddr (pagetable va : Z) : M kmem Z :=
  if MAXVA <=? va then ret 0
  else
    let* a := walk pagetable va false in
    if a =? 0 then ret 0
    else
      let* pte := load_pte a in
      if negb (has pte PTE_V) then ret 0
      else if negb (has pte PTE_U) then ret 0
      else ret (PTE2PA pte).

(** The loop of [mappages] makes [size / PGSIZE] iterations. *)
Fixpoint mappages_loop (fuel : nat) (pagetable a last pa perm : Z) : M kmem Z :=
  match fuel with
  | O => undef "mappages: out of fuel"
  | S fuel' =>
    let* pte := walk pagetable a true in
    if pte =? 0 then ret (-1)
    else
      let* v := load_pte pte in
      if has v PTE_V then panic "mappages: remap"
      else
        store_pte pte (Z.lor (Z.lor (PA2PTE pa) perm) PTE_V) ;;;
        if a =? last then ret 0
        else mappages_loop fuel' pagetable (u64 (a + PGSIZE)) last (u64 (pa + PGSIZE)) perm
  end.

Definition mappages (pagetable va size pa perm : Z) : M kmem Z :=
  if negb (va mod PGSIZE =? 0) then panic "mappages: va not aligned"
  else if negb (size mod PGSIZE =? 0) then panic "mappages: size not aligned"
  else if size =? 0 then panic "mappages: size"
  else mappages_loop (Z.to_nat (size / PGSIZE)) pagetable va (u64 (va + size - PGSIZE)) pa perm.

Definition kvmmap (kpgtbl va pa sz perm : Z) : M kmem unit :=
  let* r := mappages kpgtbl va sz pa perm in
  if negb (r =? 0) then panic "kvmmap" else ret tt.

Fixpoint uvmunmap_loop (fuel : nat) (pagetable a lim : Z) (do_free : bool) : M kmem unit :=
  match fuel with
  | O => undef "uvmunmap: out of fuel"
  | S fuel' =>
    if a <? lim then
      let* pte := walk pagetable a false in
      if pte =? 0 then panic "uvmunmap: walk"
      else
        let* v := load_pte pte in
        if negb (has v PTE_V) then panic "uvmunmap: not mapped"
        else if PTE_FLAGS v =? PTE_V then panic "uvmunmap: not a leaf"
        else
          (if do_free then kfree kend (PTE2PA v) else ret tt) ;;;
          store_pte pte 0 ;;;
          uvmunmap_loop fuel' pagetable (u64 (a + PGSIZE)) lim do_free
    else ret tt
  end.

Definition uvmunmap (pagetable va npages : Z) (do_free : bool) : M kmem unit :=
  if negb (va mod PGSIZE =? 0) then panic "uvmunmap: not aligned"
  else uvmunmap_loop (S (Z.to_nat npages)) pagetable va (u64 (va + npages * PGSIZE)) do_free.

Definition uvmcreate : M kmem Z :=
  let* pagetable := kalloc in
  if pagetable =? 0 then ret 0
  else kmem_put (fun m => memset m pagetable 0 PGSIZE) ;;; ret pagetable.

Definition uvmfirst (pagetable : Z) (src : list Z) : M kmem unit :=
  if PGSIZE <=? Z.of_nat (length src) then panic "uvmfirst: more than a page"
  else
    let* page := kalloc in
    kmem_put (fun m => memset m page 0 PGSIZE) ;;;
    mappages pagetable 0 PGSIZE page (Z.lor (Z.lor (Z.lor PTE_W PTE_R) PTE_X) PTE_U) ;;;
    kmem_put (fun m => store_bytes m page src).

Definition uvmdealloc (pagetable oldsz newsz : Z) : M kmem Z :=
  if oldsz <=? newsz then ret oldsz
  else
    (if PGROUNDUP newsz <? PGROUNDUP oldsz then
       let npages := i32 ((PGROUNDUP oldsz - PGROUNDUP newsz) / PGSIZE) in
       uvmunmap pagetable (PGROUNDUP newsz) npages true
     else ret tt) ;;;
    ret newsz.

Fixpoint uvmalloc_loop (fuel : nat) (pagetable a oldsz newsz xperm : Z) : M kmem Z :=
  match fuel with
  | O => undef "uvmalloc: out of fuel"
  | S fuel' =>
    if a <? newsz then
      let* page := kalloc in
      if page =? 0 then
        uvmdealloc pagetable a oldsz ;;; ret 0
      else
        kmem_put (fun m => memset m page 0 PGSIZE) ;;;
        let* r := mappages pagetable a PGSIZE page (Z.lor (Z.lor PTE_R PTE_U) xperm) in
        if negb (r =? 0) then
          kfree kend page ;;; uvmdealloc pagetable a oldsz ;;; ret 0
        else uvmalloc_loop fuel' pagetable (u64 (a + PGSIZE)) oldsz newsz xperm
    else ret newsz
  end.

Definition uvmalloc (pagetable oldsz newsz xperm : Z) : M kmem Z :=
  if newsz <? oldsz then ret oldsz
  else
    let oldsz := PGROUNDUP oldsz in
    uvmalloc_loop (S (Z.to_nat ((newsz - oldsz + PGSIZE - 1) / PGSIZE))) pagetable oldsz oldsz newsz xperm.

(** The entries of one table, from index [i] on; [child] frees a table of the
    next level. *)
Fixpoint freewalk_entries (n : nat) (pagetable i : Z) (child : Z -> M kmem unit) : M kmem unit :=
  match n with
  | O => ret tt
  | S n' =>
    let a := pagetable + 8 * i in
    let* pte := load_pte a in
    (if has pte PTE_V && negb (has pte (Z.lor (Z.lor PTE_R PTE_W) PTE_X)) then
       child (PTE2PA pte) ;;; store_pte a 0
     else if has pte PTE_V then panic "freewalk: leaf"
     else ret tt) ;;;
    freewalk_entries n' pagetable (i + 1) child
  end.

(** A table has at most three levels below it, the root included. *)
Fixpoint freewalk_level (level : nat) (pagetable : Z) : M kmem unit :=
  match level with
  | O => undef "freewalk: too deep"
  | S level' =>
    freewalk_entries 512 pagetable 0 (freewalk_level level') ;;;
    kfree kend pagetable
  end.

Definition freewalk (pagetable : Z) : M kmem unit := freewalk_level 4 pagetable.

Definition uvmfree (pagetable sz : Z) : M kmem unit :=
  (if 0 <? sz then uvmunmap pagetable 0 (PGROUNDUP sz / PGSIZE) true else ret tt) ;;;
  freewalk pagetable.

Fixpoint uvmcopy_loop (fuel : nat) (old new sz i : Z) : M kmem Z :=
  match fuel with
  | O => undef "uvmcopy: out of fuel"
  | S fuel' =>
    if i <? sz then
      let* pte := walk old i false in
      if pte =? 0 then panic "uvmcopy: pte should exist"
      else
        let* v := load_pte pte in
        if negb (has v PTE_V) then panic "uvmcopy: page not present"
        else
          let pa := PTE2PA v in
          let flags := PTE_FLAGS v in
          let* page := kalloc in
          if page =? 0 then uvmunmap new 0 (i / PGSIZE) true ;;; ret (-1)
          else
            kmem_put (fun m => memmove m page pa PGSIZE) ;;;
            let* r := mappages new i PGSIZE page flags in
            if negb (r =? 0) then
              kfree kend page ;;; uvmunmap new 0 (i / PGSIZE) true ;;; ret (-1)
            else uvmcopy_loop fuel' old new sz (u64 (i + PGSIZE))
    else ret 0
  end.

Definition uvmcopy (old new sz : Z) : M kmem Z :=
  uvmcopy_loop (S (Z.to_nat ((sz + PGSIZE - 1) / PGSIZE))) old new sz 0.

Definition uvmclear (pagetable va : Z) : M kmem unit :=
  let* pte := walk pagetable va false in
  if pte =? 0 then panic "uvmclear"
  else
    let* v := load_pte pte in
    store_pte pte (Z.land v (Z.lnot PTE_U)).

(** One iteration per page touched, so [length src + 1] is enough fuel. *)
Fixpoint copyout_loop (fuel : nat) (pagetable dstva : Z) (src : list Z) : M kmem Z :=
  match fuel with
  | O => undef "copyout: out of fuel"
  | S fuel' =>
    if (0 <? length src)%nat then
      let va0 := PGROUNDDOWN dstva in
      if MAXVA <=? va0 then ret (-1)
      else
        let* pte := walk pagetable va0 false in
        if pte =? 0 then ret (-1)
        else
          let* v := load_pte pte in
          if negb (has v PTE_V) || negb (has v PTE_U) || negb (has v PTE_W) then ret (-1)
          else
            let pa0 := PTE2PA v in
            let n := Z.to_nat (Z.min (PGSIZE - (dstva - va0)) (Z.of_nat (length src))) in
            kmem_put (fun m => store_bytes m (pa0 + (dstva - va0)) (take n src)) ;;;
            copyout_loop fuel' pagetable (va0 + PGSIZE) (drop n src)
    else ret 0
  end.

Definition copyout (pagetable dstva : Z) (src : list Z) : M kmem Z :=
  copyout_loop (S (length src)) pagetable dstva src.

Fixpoint copyin_loop (fuel : nat) (pagetable srcva len : Z) : M kmem (Z * list Z) :=
  match fuel with
  | O => undef "copyin: out of fuel"
  | S fuel' =>
    if 0 <? len then
      let va0 := PGROUNDDOWN srcva in
      let* pa0 := walkaddr pagetable va0 in
      if pa0 =? 0 then ret (-1, [])
      else
        let n := Z.min (PGSIZE - (srcva - va0)) len in
        let* m := kmem_get in
        let bs := load_bytes (Z.to_nat n) m (pa0 + (srcva - va0)) in
        let* r := copyin_loop fuel' pagetable (va0 + PGSIZE) (len - n) in
        ret (r.1, bs ++ r.2)
    else ret (0, [])
  end.

(** The return value and the bytes copied; when it is -1, these are the bytes
    before the page that is not mapped. *)
Definition copyin (pagetable srcva len : Z) : M kmem (Z * list Z) :=
  copyin_loop (S (Z.to_nat len)) pagetable srcva len.

(** The bytes of one page up to the terminator, at most [n]; whether it was found. *)
Fixpoint copy_until_nul (n : nat) (m : mem) (p : Z) : list Z * bool :=
  match n with
  | O => ([], false)
  | S n' =>
    if m p =? 0 then ([], true)
    else let '(bs, got) := copy_until_nul n' m (p + 1) in (m p :: bs, got)
  end.

Fixpoint copyinstr_loop (fuel : nat) (pagetable srcva max : Z) : M kmem (option (list Z)) :=
  match fuel with
  | O => undef "copyinstr: out of fuel"
  | S fuel' =>
    if 0 <? max then
      let va0 := PGROUNDDOWN srcva in
      let* pa0 := walkaddr pagetable va0 in
      if pa0 =? 0 then ret None
      else
        let n := Z.min (PGSIZE - (srcva - va0)) max in
        let* m := kmem_get in
        let '(bs, got_null) := copy_until_nul (Z.to_nat n) m (pa0 + (srcva - va0)) in
        if got_null then ret (Some bs)
        else
          let* r := copyinstr_loop fuel' pagetable (va0 + PGSIZE) (max - n) in
          ret (match r with Some rest => Some (bs ++ rest) | None => None end)
    else ret None
  end.

(** The characters before the terminator, or [None] for -1. *)
Definition copyinstr (pagetable srcva max : Z) : M kmem (option (list Z)) :=
  copyinstr_loop (S (Z.to_nat max)) pagetable srcva max.

(** [trampoline] and [etext] are symbols of the linker. *)
Definition kvmmake (etext trampoline : Z) (proc_mapstacks : Z -> M kmem unit) : M kmem Z :=
  let* kpgtbl := kalloc in
  kmem_put (fun m => memset m kpgtbl 0 PGSIZE) ;;;
  kvmmap kpgtbl UART0 UART0 PGSIZE (Z.lor PTE_R PTE_W) ;;;
  kvmmap kpgtbl VIRTIO0 VIRTIO0 PGSIZE (Z.lor PTE_R PTE_W) ;;;
  kvmmap kpgtbl PLIC PLIC 67108864 (Z.lor PTE_R PTE_W) ;;;
  kvmmap kpgtbl KERNBASE KERNBASE (etext - KERNBASE) (Z.lor PTE_R PTE_X) ;;;
  kvmmap kpgtbl etext etext (PHYSTOP - etext) (Z.lor PTE_R PTE_W) ;;;
  kvmmap kpgtbl TRAMPOLINE trampoline PGSIZE (Z.lor PTE_R PTE_X) ;;;
  proc_mapstacks kpgtbl ;;;
  ret kpgtbl.

(** [proc_mapstacks] of kernel/proc.c: a kernel stack for each of [nproc]
    processes. *)
Definition proc_mapstacks (nproc : nat) (kpgtbl : Z) : M kmem unit :=
  for_loop nproc 0 (fun p =>
    let* pa := kalloc in
    if pa =? 0 then panic "kalloc"
    else kvmmap kpgtbl (KSTACK p) pa PGSIZE (Z.lor PTE_R PTE_W)).
End code.
