(* ===== verification/Pipe.v ===== *)
(** * kernel/pipe.c: pipes

    A pipe is a ring of [PIPESIZE] bytes indexed by two free-running 32-bit
    counters.  The user memory of the calling process is a parameter of the code
    here: [copyin1 u va] reads a byte and [copyout1 u va ch] writes one, as calls
    of [copyin] and [copyout] with length 1 do, [None] standing for -1; they are
    instantiated with the functions of kernel/vm.c in Kernel.v.  A call that
    sleeps stops at [WSleep i] or [RSleep]; it continues from the same point. *)

From Stdlib Require Import ZArith Lia FunctionalExtensionality.
From stdpp Require Import base list strings numbers relations.
From S2P Require Import Prelude Ring.

Definition PIPESIZE : Z := 512.

Record pipe := Pipe {
  pi_data : list Z;
  pi_nread : Z;
  pi_nwrite : Z;
  pi_readopen : Z;
  pi_writeopen : Z
}.

(** [pipealloc]'s initialisation of the page it got. *)
Definition pipeinit (data : list Z) : pipe := Pipe data 0 0 1 1.

(** What [pipewrite] and [piperead] come back with: a return value, or the point
    at which they sleep. *)
Inductive wres := WRet (r : Z) | WSleep (i : Z).
Inductive rres := RRet (r : Z) | RSleep.

Section code.
Context {U : Type}.
Context (copyin1 : U -> Z -> option Z) (copyout1 : U -> Z -> Z -> option U) (killed : U -> bool).
(** The address of the pipe, for its sleep channels. *)
Context (self : Z).

(** The pipe and the running process. *)
Record pstate := Pstate { ps_pipe : pipe; ps_user : U }.

Definition upd_pipe (f : pipe -> pipe) : M pstate unit :=
  modify (fun s => Pstate (f (ps_pipe s)) (ps_user s)).

(** Closing one end; the result says whether the page is freed. *)
Definition pipeclose (writable : bool) : M pipe bool :=
  (if writable then
     modify (fun p => Pipe (pi_data p) (pi_nread p) (pi_nwrite p) (pi_readopen p) 0) ;;;
     wakeup_ev (ChPipeRead self)
   else
     modify (fun p => Pipe (pi_data p) (pi_nread p) (pi_nwrite p) 0 (pi_writeopen p)) ;;;
     wakeup_ev (ChPipeWrite self)) ;;;
  let* p := get in
  ret ((pi_readopen p =? 0) && (pi_writeopen p =? 0)).

(** [pi->data[pi->nwrite++ % PIPESIZE] = ch] *)
Definition pipe_put (ch : Z) (p : pipe) : pipe :=
  Pipe (zset (pi_data p) (pi_nwrite p mod PIPESIZE) ch) (pi_nread p) (u32 (pi_nwrite p + 1))
    (pi_readopen p) (pi_writeopen p).

(** [ch = pi->data[pi->nread++ % PIPESIZE]] *)
Definition pipe_take (p : pipe) : option (Z * pipe) :=
  match zget (pi_data p) (pi_nread p mod PIPESIZE) with
  | Some ch => Some (ch, Pipe (pi_data p) (u32 (pi_nread p + 1)) (pi_nwrite p)
                             (pi_readopen p) (pi_writeopen p))
  | None => None
  end.

(** The loop of [pipewrite] from index [i]; each iteration advances [i] or ends
    the loop, so [n - i] iterations and one more test are enough. *)
Fixpoint pipewrite_loop (fuel : nat) (addr n i : Z) : M pstate wres :=
  match fuel with
  | O => undef "pipewrite: out of fuel"
  | S fuel' =>
    if i <? n then
      let* s := get in
      let p := ps_pipe s in
      if (pi_readopen p =? 0) || killed (ps_user s) then ret (WRet (-1))
      else if pi_nwrite p =? u32 (pi_nread p + PIPESIZE) then
        wakeup_ev (ChPipeRead self) ;;; ret (WSleep i)
      else
        match copyin1 (ps_user s) (u64 (addr + i)) with
        | None => wakeup_ev (ChPipeRead self) ;;; ret (WRet i)
        | Some ch => upd_pipe (pipe_put ch) ;;; pipewrite_loop fuel' addr n (i + 1)
        end
    else wakeup_ev (ChPipeRead self) ;;; ret (WRet i)
  end.

Definition pipewrite_from (addr n i : Z) : M pstate wres :=
  pipewrite_loop (S (Z.to_nat (n - i))) addr n i.

Definition pipewrite (addr n : Z) : M pstate wres := pipewrite_from addr n 0.

Fixpoint piperead_copy (k : nat) (addr n i : Z) : M pstate Z :=
  match k with
  | O => ret i
  | S k' =>
    let* s := get in
    let p := ps_pipe s in
    if pi_nread p =? pi_nwrite p then ret i
    else
      match pipe_take p with
      | None => undef "pi->data"
      | Some (ch, p') =>
        upd_pipe (fun _ => p') ;;;
        match copyout1 (ps_user s) (u64 (addr + i)) ch with
        | None => ret i
        | Some u' =>
          modify (fun s => Pstate (ps_pipe s) u') ;;;
          piperead_copy k' addr n (i + 1)
        end
      end
  end.

Definition piperead (addr n : Z) : M pstate rres :=
  let* s := get in
  let p := ps_pipe s in
  if (pi_nread p =? pi_nwrite p) && negb (pi_writeopen p =? 0) then
    if killed (ps_user s) then ret (RRet (-1)) else ret RSleep
  else
    let* i := piperead_copy (Z.to_nat n) addr n 0 in
    wakeup_ev (ChPipeWrite self) ;;;
    ret (RRet i).

(** ** The bytes in a pipe *)

Definition pipe_len (p : pipe) : Z := u32 (pi_nwrite p - pi_nread p).

(** Oldest byte first. *)
Definition contents (p : pipe) : list Z :=
  ring_list 9 (pi_data p) (pi_nread p) (Z.to_nat (pipe_len p)).

Record pipe_inv (p : pipe) : Prop := {
  pi_length : Z.of_nat (length (pi_data p)) = PIPESIZE;
  pi_r : 0 <= pi_nread p < 2 ^ 32;
  pi_w : 0 <= pi_nwrite p < 2 ^ 32;
  pi_len : pipe_len p <= PIPESIZE
}.

Lemma pipe_len_pos p : 0 <= pipe_len p.
Proof. apply (wrap_range 32). lia. Qed.

Lemma length_contents p : Z.of_nat (length (contents p)) = pipe_len p.
Proof. unfold contents. rewrite length_ring_list, Z2Nat.id; [done|]. apply pipe_len_pos. Qed.

(** The code's tests for a full and for an empty pipe. *)
Lemma full_test p : pipe_inv p ->
  (pi_nwrite p =? u32 (pi_nread p + PIPESIZE)) = (pipe_len p =? PIPESIZE).
Proof. intros [_ Hr Hw _]. apply (ring_len_eq 32); (done || unfold PIPESIZE; lia). Qed.

Lemma empty_test p : pipe_inv p -> (pi_nread p =? pi_nwrite p) = (pipe_len p =? 0).
Proof.
  intros [_ Hr Hw _]. unfold pipe_len. rewrite Z.eqb_sym, <- (ring_len_eq 32 _ _ 0) by (done || lia).
  by rewrite Z.add_0_r, (wrap_small 32).
Qed.

Lemma pipe_len_put p ch : pipe_inv p -> pipe_len p < PIPESIZE ->
  pipe_len (pipe_put ch p) = pipe_len p + 1.
Proof. intros Hi Hl. apply (ring_len_inc 32 9); [lia|]. change (pipe_len p < 2 ^ 32 - 1). unfold PIPESIZE in *. lia. Qed.

Lemma pipe_inv_put p ch : pipe_inv p -> pipe_len p < PIPESIZE -> pipe_inv (pipe_put ch p).
Proof.
  intros Hi Hl. pose proof (pipe_len_put p ch Hi Hl). destruct Hi as [H1 H2 H3 H4].
  split; [simpl; by rewrite length_zset|done|apply (wrap_range 32); lia|lia].
Qed.

(** A byte put in a pipe goes behind the others. *)
Lemma contents_put p ch : pipe_inv p -> pipe_len p < PIPESIZE ->
  contents (pipe_put ch p) = contents p ++ [ch].
Proof.
  intros Hi Hl. unfold contents. rewrite pipe_len_put by done. pose proof (pipe_len_pos p).
  replace (Z.to_nat (pipe_len p + 1)) with (S (Z.to_nat (pipe_len p))) by lia.
  simpl pi_data. simpl pi_nread. change PIPESIZE with (2 ^ 9) in *.
  apply (ring_list_put 32 9); [lia|apply Hi|lia|].
  rewrite Z2Nat.id by done. apply (ring_write_pos 32 9); lia.
Qed.

Lemma pipe_take_run p : pipe_inv p -> 0 < pipe_len p ->
  exists ch p', pipe_take p = Some (ch, p') /\ pipe_inv p' /\ contents p = ch :: contents p' /\
    pi_readopen p' = pi_readopen p /\ pi_writeopen p' = pi_writeopen p.
Proof.
  intros Hi Hpos. pose proof Hi as [Hlen Hr Hw Hl]. unfold pipe_take.
  destruct (zget_is_Some (pi_data p) (pi_nread p mod PIPESIZE)) as [ch E];
    [rewrite Hlen; apply Z.mod_pos_bound; unfold PIPESIZE; lia|].
  rewrite E. set (p' := Pipe _ _ _ _ _). exists ch, p'.
  assert (El : pipe_len p' = pipe_len p - 1) by (apply (ring_len_dec 32 9); [lia|done]).
  split; [done|]. split; [split; [done|apply (wrap_range 32); lia|done|lia]|].
  split; [|done]. unfold contents. rewrite El.
  replace (Z.to_nat (pipe_len p)) with (S (Z.to_nat (pipe_len p - 1))) by lia.
  rewrite (ring_list_cons 32 9) by lia. simpl pi_data. change (2 ^ 9) with PIPESIZE. by rewrite E.
Qed.

(** The bytes of the user's memory from [addr + i] on, as far as they are mapped. *)
Fixpoint user_bytes (u : U) (addr i : Z) (k : nat) : list Z :=
  match k with
  | O => []
  | S k' => match copyin1 u (u64 (addr + i)) with
            | Some ch => ch :: user_bytes u addr (i + 1) k'
            | None => []
            end
  end.

(** How many bytes a call of [pipewrite] moved before it returned or slept. *)
Definition wcount (i : Z) (r : wres) : nat :=
  match r with WRet j => Z.to_nat (j - i) | WSleep j => Z.to_nat (j - i) end.

Lemma pipewrite_loop_run fuel addr n i p u :
  pipe_inv p -> 0 <= i <= n -> (Z.to_nat (n - i) < fuel)%nat ->
  exists r p' t, pipewrite_loop fuel addr n i (Pstate p u) = Done r (Pstate p' u) t /\
    pipe_inv p' /\ pi_readopen p' = pi_readopen p /\ pi_writeopen p' = pi_writeopen p /\
    contents p' = contents p ++ user_bytes u addr i (wcount i r) /\
    match r with
    | WRet j => (j = -1 /\ p' = p /\ (pi_readopen p = 0 \/ killed u = true)) \/
        (i <= j <= n /\ t = [EvWakeup (ChPipeRead self)] /\ (j < n -> copyin1 u (u64 (addr + j)) = None))
    | WSleep j => i <= j < n /\ t = [EvWakeup (ChPipeRead self)] /\ pipe_len p' = PIPESIZE
    end.
Proof.
  revert i p. induction fuel as [|fuel IH]; intros i p Hi Hn Hf; [lia|]. cbn [pipewrite_loop].
  destruct (Z.ltb_spec i n) as [Hlt|Hge]; cycle 1.
  { assert (i = n) as -> by lia. do 3 eexists. split; [done|]. simpl.
    rewrite Z.sub_diag. simpl. rewrite app_nil_r. split_and!; try done. right. split; [lia|]. split; [done|lia]. }
  unfold bind at 1, get at 1. cbn [ps_pipe ps_user]. rewrite prepend_nil.
  destruct (Z.eqb_spec (pi_readopen p) 0) as [Ho|Ho]; cbn [orb].
  { do 3 eexists. split; [done|]. cbn [wcount]. replace (Z.to_nat (-1 - i)) with 0%nat by lia.
    simpl. rewrite app_nil_r. split_and!; try done. left. auto. }
  destruct (killed u) eqn:Ek.
  { do 3 eexists. split; [done|]. cbn [wcount]. replace (Z.to_nat (-1 - i)) with 0%nat by lia.
    simpl. rewrite app_nil_r. split_and!; try done. left. auto. }
  rewrite full_test by done. destruct (Z.eqb_spec (pipe_len p) PIPESIZE) as [Hfull|Hfull].
  { do 3 eexists. split; [done|]. cbn [wcount]. rewrite Z.sub_diag. simpl. rewrite app_nil_r.
    split_and!; try done; lia. }
  destruct (copyin1 u (u64 (addr + i))) as [ch|] eqn:Ec; cycle 1.
  { do 3 eexists. split; [done|]. cbn [wcount]. rewrite Z.sub_diag. simpl. rewrite app_nil_r.
    split_and!; try done. right. split; [lia|]. split; [done|]. intros _. done. }
  assert (Hroom : pipe_len p < PIPESIZE) by (pose proof (pi_len _ Hi); lia).
  unfold bind, upd_pipe, modify. simpl prepend. cbn [ps_pipe ps_user].
  destruct (IH (i + 1) (pipe_put ch p)) as (r & p' & t & E & Hi' & Er & Ew & Ec' & Hr);
    [by apply pipe_inv_put|lia|lia|].
  rewrite E, prepend_nil. exists r, p', t. split; [done|]. simpl in Er, Ew. split_and!; try done.
  - rewrite Ec', contents_put, <- app_assoc by done. f_equal. simpl.
    assert (Hj : exists j, (r = WRet j \/ r = WSleep j) /\ i + 1 <= j).
    { destruct r as [j|j].
      - exists j. split; [by left|]. destruct Hr as [(-> & _ & [H|H])|(H & _)];
          [simpl in H; congruence|congruence|lia].
      - exists j. split; [by right|]. lia. }
    destruct Hj as (j & Hrj & Hij).
    replace (wcount i r) with (S (wcount (i + 1) r)); [simpl; by rewrite Ec|].
    destruct Hrj as [-> | ->]; simpl; lia.
  - destruct r as [j|j]; [|destruct Hr as (? & ? & ?); split_and!; try done; lia].
    destruct Hr as [(-> & _ & [H|H])|(H & H1 & H2)]; [simpl in H; congruence|congruence|].
    right. split_and!; try done; lia.
Qed.
(** What the code relies on: a byte copied out can be copied in again, and
    copying it out changes no other byte of the user's memory. *)
Context (copyout_same : forall u va ch u', copyout1 u va ch = Some u' -> copyin1 u' va = Some ch).
Context (copyout_other : forall u va ch u' va',
  copyout1 u va ch = Some u' -> va' <> va -> copyin1 u' va' = copyin1 u va').

Lemma u64_apart addr x y : x < y < x + 2 ^ 64 -> u64 (addr + x) <> u64 (addr + y).
Proof.
  intros H E. unfold wrap in E.
  assert (E' : (addr + y - (addr + x)) mod 2 ^ 64 = 0) by (rewrite Zminus_mod, E, Z.sub_diag; done).
  replace (addr + y - (addr + x)) with (y - x) in E' by lia. rewrite Z.mod_small in E'; lia.
Qed.

Lemma piperead_copy_run k addr n i p u :
  pipe_inv p -> 0 <= i -> i + Z.of_nat k < 2 ^ 63 ->
  exists j p' u' lost, piperead_copy k addr n i (Pstate p u) = Done j (Pstate p' u') [] /\
    pipe_inv p' /\ pi_writeopen p' = pi_writeopen p /\ i <= j <= i + Z.of_nat k /\
    contents p = user_bytes u' addr i (Z.to_nat (j - i)) ++ lost ++ contents p' /\
    length (user_bytes u' addr i (Z.to_nat (j - i))) = Z.to_nat (j - i) /\
    (forall va, (forall x, i <= x < j -> va <> u64 (addr + x)) -> copyin1 u' va = copyin1 u va) /\
    ((lost = [] /\ (j < i + Z.of_nat k -> contents p' = [])) \/
     (exists ch, lost = [ch] /\ copyout1 u' (u64 (addr + j)) ch = None)).
Proof.
  revert i p u. induction k as [|k IH]; intros i p u Hi H0 Hk; cbn [piperead_copy].
  { exists i, p, u, []. rewrite Z.sub_diag. split_and!; try done; try lia. left. split; [done|lia]. }
  unfold bind at 1, get at 1. cbn [ps_pipe ps_user]. rewrite prepend_nil, empty_test by done.
  destruct (Z.eqb_spec (pipe_len p) 0) as [Hz|Hz].
  { exists i, p, u, []. rewrite Z.sub_diag. split_and!; try done; try lia. left. split; [done|].
    intros _. unfold contents. by rewrite Hz. }
  assert (Hpos : 0 <= pipe_len p) by (apply (wrap_range 32); lia).
  destruct (pipe_take_run p Hi ltac:(lia)) as (ch & p1 & -> & Hi1 & Ec & _ & Ew).
  unfold bind at 1, upd_pipe, modify. simpl prepend. cbn [ps_pipe ps_user].
  destruct (copyout1 u (u64 (addr + i)) ch) as [u1|] eqn:Eo; cycle 1.
  { exists i, p1, u, [ch]. rewrite Z.sub_diag. split_and!; try done; try lia. right. by exists ch. }
  unfold bind, modify. simpl prepend. cbn [ps_pipe ps_user].
  destruct (IH (i + 1) p1 u1) as (j & p' & u' & lost & E & Hi' & Ew' & Hj & Econ & Elen & Hsame & Hlost);
    [done|lia|lia|].
  rewrite E. simpl. exists j, p', u', lost.
  assert (Ei : copyin1 u' (u64 (addr + i)) = Some ch).
  { rewrite Hsame; [by eapply copyout_same|]. intros x Hx. apply u64_apart. lia. }
  replace (Z.to_nat (j - i)) with (S (Z.to_nat (j - (i + 1)))) by lia. simpl. rewrite Ei. simpl.
  split_and!; try done; try lia; try congruence.
  - intros va Hva. rewrite Hsame by (intros x Hx; apply Hva; lia).
    eapply copyout_other; [done|]. apply Hva. lia.
  - destruct Hlost as [[-> He]|He]; [left|by right]. split; [done|]. intros. apply He. lia.
Qed.

(** ** Writers and readers of one pipe *)

(** [win] is what the writers had in their memory, [rout] what the readers find
    in theirs, each in the order of the calls.  A write call may be resumed after
    it slept ([i] is where it continues), and a call may be made by any process.
    Readers' buffers are mapped. *)
Inductive pipe_step : pipe * list Z * list Z -> pipe * list Z * list Z -> Prop :=
| pstep_write u addr n i r p p' t win rout :
    0 <= i <= n -> n < 2 ^ 31 ->
    pipewrite_from addr n i (Pstate p u) = Done r (Pstate p' u) t ->
    pipe_step (p, win, rout) (p', win ++ user_bytes u addr i (wcount i r), rout)
| pstep_read u u' addr n j p p' t win rout :
    0 <= n < 2 ^ 31 -> (forall u va ch, is_Some (copyout1 u va ch)) ->
    piperead addr n (Pstate p u) = Done (RRet j) (Pstate p' u') t ->
    pipe_step (p, win, rout) (p', win, rout ++ user_bytes u' addr 0 (Z.to_nat j)).

End code.

(** ** A user memory of mapped bytes *)

Definition flat_in (u : Z -> Z) (va : Z) : option Z := Some (u va).
Definition flat_out (u : Z -> Z) (va ch : Z) : option (Z -> Z) := Some (fset u va ch).
Definition empty_pipe : pipe := pipeinit (replicate 512 0).

Lemma empty_pipe_inv : pipe_inv empty_pipe.
Proof. split; try done; vm_compute; done. Qed.

