(* ===== verification/Uart.v ===== *)
(** * kernel/uart.c: the serial port driver

    The transmit buffer is a ring of [UART_TX_BUF_SIZE] characters with 64-bit
    counters.  The device is known through its registers: [u_lsr] lists the
    values the next reads of the line status register give, after which the
    device is idle and has no input, and [u_rhr] the characters the next reads of
    the receive register give; a write of the transmit register is the event
    [EvPutc], of another one [EvWriteReg]. *)

From Stdlib Require Import ZArith Lia.
From stdpp Require Import base list strings numbers relations.
From S2P Require Import Prelude Ring.

Definition THR : Z := 0.
Definition IER : Z := 1.
Definition IER_RX_ENABLE : Z := 1.
Definition IER_TX_ENABLE : Z := 2.
Definition FCR : Z := 2.
Definition FCR_FIFO_ENABLE : Z := 1.
Definition FCR_FIFO_CLEAR : Z := 6.
Definition LCR : Z := 3.
Definition LCR_EIGHT_BITS : Z := 3.
Definition LCR_BAUD_LATCH : Z := 128.
Definition LSR_RX_READY : Z := 1.
Definition LSR_TX_IDLE : Z := 32.
Definition UART_TX_BUF_SIZE : Z := 32.

Record uart := Uart {
  uart_tx_buf : list Z;
  uart_tx_w : Z;
  uart_tx_r : Z;
  u_lsr : list Z;
  u_rhr : list Z
}.

Definition WriteReg (reg v : Z) : M uart unit :=
  emit (if reg =? THR then EvPutc v else EvWriteReg reg v).

(** [ReadReg(LSR)] *)
Definition read_lsr : M uart Z :=
  let* u := get in
  put (Uart (uart_tx_buf u) (uart_tx_w u) (uart_tx_r u) (tail (u_lsr u)) (u_rhr u)) ;;;
  ret (default LSR_TX_IDLE (head (u_lsr u))).

(** [ReadReg(RHR)] *)
Definition read_rhr : M uart Z :=
  let* u := get in
  put (Uart (uart_tx_buf u) (uart_tx_w u) (uart_tx_r u) (u_lsr u) (tail (u_rhr u))) ;;;
  ret (default 0 (head (u_rhr u))).

Definition uartinit : M uart unit :=
  WriteReg IER 0 ;;;
  WriteReg LCR LCR_BAUD_LATCH ;;;
  emit (EvWriteReg 0 3) ;;;
  WriteReg 1 0 ;;;
  WriteReg LCR LCR_EIGHT_BITS ;;;
  WriteReg FCR (Z.lor FCR_FIFO_ENABLE FCR_FIFO_CLEAR) ;;;
  WriteReg IER (Z.lor IER_TX_ENABLE IER_RX_ENABLE).

(** The loop of [uartstart] sends a buffered character in each iteration, and
    there are at most [UART_TX_BUF_SIZE]. *)
Fixpoint uartstart_loop (fuel : nat) : M uart unit :=
  match fuel with
  | O => undef "uartstart: out of fuel"
  | S fuel' =>
    let* u := get in
    if uart_tx_w u =? uart_tx_r u then ret tt
    else
      let* lsr := read_lsr in
      if Z.land lsr LSR_TX_IDLE =? 0 then ret tt
      else
        let* u := get in
        let* c := of_option "uart_tx_buf" (zget (uart_tx_buf u) (uart_tx_r u mod UART_TX_BUF_SIZE)) in
        put (Uart (uart_tx_buf u) (uart_tx_w u) (u64 (uart_tx_r u + 1)) (u_lsr u) (u_rhr u)) ;;;
        wakeup_ev ChUartTxR ;;;
        WriteReg THR c ;;;
        uartstart_loop fuel'
  end.

Definition uartstart : M uart unit := uartstart_loop (Z.to_nat (UART_TX_BUF_SIZE + 1)).

(** Sleeping on a full buffer, the test is made again after the wakeup.
    [panicked] is the flag of kernel/printf.c; a frozen console spins for ever. *)
Definition uartputc (panicked : bool) (c : Z) : M uart unit :=
  if panicked then undef "uartputc: frozen"
  else
    let* u := get in
    if uart_tx_w u =? u64 (uart_tx_r u + UART_TX_BUF_SIZE) then sleep_on ChUartTxR
    else
      put (Uart (zset (uart_tx_buf u) (uart_tx_w u mod UART_TX_BUF_SIZE) (u8 c))
             (u64 (uart_tx_w u + 1)) (uart_tx_r u) (u_lsr u) (u_rhr u)) ;;;
      uartstart.

(** Spinning until the transmit register is empty. *)
Fixpoint wait_idle (fuel : nat) : M uart unit :=
  match fuel with
  | O => undef "uartputc_sync: spinning"
  | S fuel' =>
    let* lsr := read_lsr in
    if Z.land lsr LSR_TX_IDLE =? 0 then wait_idle fuel' else ret tt
  end.

Definition uartputc_sync (panicked : bool) (c : Z) : M uart unit :=
  if panicked then undef "uartputc_sync: frozen"
  else
    let* u := get in
    wait_idle (S (length (u_lsr u))) ;;;
    WriteReg THR (u8 c).

Definition uartgetc : M uart Z :=
  let* lsr := read_lsr in
  if negb (Z.land lsr 1 =? 0) then read_rhr else ret (-1).

(** ** The transmit buffer *)

Definition tx_len (u : uart) : Z := u64 (uart_tx_w u - uart_tx_r u).

(** The characters waiting to be sent, oldest first. *)
Definition tx_waiting (u : uart) : list Z :=
  ring_list 5 (uart_tx_buf u) (uart_tx_r u) (Z.to_nat (tx_len u)).

Record tx_inv (u : uart) : Prop := {
  tx_length : Z.of_nat (length (uart_tx_buf u)) = UART_TX_BUF_SIZE;
  tx_r_ok : 0 <= uart_tx_r u < 2 ^ 64;
  tx_w_ok : 0 <= uart_tx_w u < 2 ^ 64;
  tx_len_ok : tx_len u <= UART_TX_BUF_SIZE
}.

(** The characters a trace gives to the device. *)
Definition sent (t : list event) : list Z :=
  omap (fun e => match e with EvPutc c => Some c | _ => None end) t.

Lemma sent_app t t' : sent (t ++ t') = sent t ++ sent t'.
Proof. apply omap_app. Qed.

Lemma tx_len_pos u : 0 <= tx_len u.
Proof. apply (wrap_range 64). lia. Qed.

Lemma tx_empty_test u : tx_inv u -> (uart_tx_w u =? uart_tx_r u) = (tx_len u =? 0).
Proof.
  intros [_ Hr Hw _]. unfold tx_len. rewrite <- (ring_len_eq 64 _ _ 0) by (done || lia).
  by rewrite Z.add_0_r, (wrap_small 64).
Qed.

Lemma tx_take u : tx_inv u -> 0 < tx_len u ->
  exists c, zget (uart_tx_buf u) (uart_tx_r u mod UART_TX_BUF_SIZE) = Some c /\
    forall l r, let u' := Uart (uart_tx_buf u) (uart_tx_w u) (u64 (uart_tx_r u + 1)) l r in
    tx_inv u' /\ tx_waiting u = c :: tx_waiting u' /\ tx_len u' = tx_len u - 1.
Proof.
  intros Hi Hpos. pose proof Hi as [Hlen Hr Hw Hl].
  destruct (zget_is_Some (uart_tx_buf u) (uart_tx_r u mod UART_TX_BUF_SIZE)) as [c E];
    [rewrite Hlen; apply Z.mod_pos_bound; unfold UART_TX_BUF_SIZE; lia|].
  exists c. split; [done|]. intros l r u'.
  assert (El : tx_len u' = tx_len u - 1) by (apply (ring_len_dec 64 5); [lia|done]).
  split; [split; [done|apply (wrap_range 64); lia|done|lia]|]. split; [|done].
  unfold tx_waiting. rewrite El. replace (Z.to_nat (tx_len u)) with (S (Z.to_nat (tx_len u - 1))) by lia.
  rewrite (ring_list_cons 64 5) by lia. simpl uart_tx_buf. change (2 ^ 5) with UART_TX_BUF_SIZE.
  by rewrite E.
Qed.

Lemma uartstart_loop_run fuel u : tx_inv u -> tx_len u < Z.of_nat fuel ->
  exists u' t, uartstart_loop fuel u = Done tt u' t /\ tx_inv u' /\
    tx_waiting u = sent t ++ tx_waiting u'.
Proof.
  revert u. induction fuel as [|fuel IH]; intros u Hi Hf; [pose proof (tx_len_pos u); lia|].
  cbn [uartstart_loop]. unfold bind at 1, get at 1. rewrite prepend_nil, tx_empty_test by done.
  destruct (Z.eqb_spec (tx_len u) 0) as [Ez|Ez]; [exists u, []; done|].
  unfold bind at 1, read_lsr, bind at 1 2, get at 1, put at 1, ret at 1. cbn [prepend app].
  set (u1 := Uart _ _ _ _ _). assert (Hi1 : tx_inv u1) by (by destruct Hi).
  destruct (Z.land _ _ =? 0); [exists u1, []; done|].
  assert (Hpos : 0 < tx_len u1) by (pose proof (tx_len_pos u); change (tx_len u1) with (tx_len u); lia).
  unfold bind at 1, get at 1. rewrite prepend_nil.
  destruct (tx_take u1 Hi1 Hpos) as (c & -> & Hu').
  set (u2 := Uart (uart_tx_buf u1) (uart_tx_w u1) (u64 (uart_tx_r u1 + 1)) (u_lsr u1) (u_rhr u1)).
  destruct (Hu' (u_lsr u1) (u_rhr u1)) as (Hi2 & Ew & El). fold u2 in Hi2, Ew, El.
  change (tx_len u1) with (tx_len u) in El.
  destruct (IH u2 Hi2 ltac:(lia)) as (u' & t & E & Hi' & Ew').
  unfold bind, of_option, ret, put, wakeup_ev, WriteReg, emit. cbn [prepend app Z.eqb THR].
  fold u2. rewrite E. simpl. exists u'. eexists. split; [done|]. split; [done|].
  change (tx_waiting u1) with (tx_waiting u) in Ew. rewrite Ew, Ew'. done.
Qed.

Lemma uartstart_run u : tx_inv u -> exists u' t, uartstart u = Done tt u' t /\ tx_inv u' /\
  tx_waiting u = sent t ++ tx_waiting u'.
Proof. intros Hi. apply uartstart_loop_run; [done|]. pose proof (tx_len_ok _ Hi). unfold UART_TX_BUF_SIZE in *. lia. Qed.

(** Either the buffer is full and the call sleeps without effect, or the
    character is queued behind the others. *)
Lemma uartputc_run u c : tx_inv u ->
  (uartputc false c u = Sleep ChUartTxR u [] /\ tx_len u = UART_TX_BUF_SIZE) \/
  (exists u' t, uartputc false c u = Done tt u' t /\ tx_inv u' /\
    tx_waiting u ++ [u8 c] = sent t ++ tx_waiting u').
Proof.
  intros Hi. pose proof Hi as [Hlen Hr Hw Hl].
  set (u1 := Uart (zset (uart_tx_buf u) (uart_tx_w u mod UART_TX_BUF_SIZE) (u8 c))
               (u64 (uart_tx_w u + 1)) (uart_tx_r u) (u_lsr u) (u_rhr u)).
  assert (Ep : uartputc false c u =
    if tx_len u =? UART_TX_BUF_SIZE then Sleep ChUartTxR u [] else uartstart u1).
  { unfold uartputc, bind, get, put, sleep_on. rewrite prepend_nil.
    rewrite (ring_len_eq 64) by (done || unfold UART_TX_BUF_SIZE; lia). fold (tx_len u).
    destruct (_ =? _); [done|apply prepend_nil]. }
  rewrite Ep. destruct (Z.eqb_spec (tx_len u) UART_TX_BUF_SIZE) as [E|E]; [by left|right].
  assert (El : tx_len u1 = tx_len u + 1).
  { apply (ring_len_inc 64 5); [lia|]. change (tx_len u < 2 ^ 64 - 1). unfold UART_TX_BUF_SIZE in *. lia. }
  assert (Hi1 : tx_inv u1) by (split; [simpl; by rewrite length_zset|done|apply (wrap_range 64); lia|lia]).
  destruct (uartstart_run u1 Hi1) as (u' & t & Es & Hi' & Ew). exists u', t. split; [exact Es|]. split; [done|].
  rewrite <- Ew. unfold tx_waiting. rewrite El. pose proof (tx_len_pos u).
  replace (Z.to_nat (tx_len u + 1)) with (S (Z.to_nat (tx_len u))) by lia.
  symmetry. simpl uart_tx_buf. simpl uart_tx_r. change UART_TX_BUF_SIZE with (2 ^ 5) in *.
  apply (ring_list_put 64 5); [lia|done|lia|]. rewrite Z2Nat.id by done. apply (ring_write_pos 64 5); lia.
Qed.

(** ** Any use of the transmit path *)

(** [acc] collects the characters [uartputc] accepted, [out] those given to the
    device; [uartintr] calls [uartstart]. *)
Inductive tx_step : uart * list Z * list Z -> uart * list Z * list Z -> Prop :=
| tx_putc u u' c t acc out : uartputc false c u = Done tt u' t ->
    tx_step (u, acc, out) (u', acc ++ [u8 c], out ++ sent t)
| tx_start u u' t acc out : uartstart u = Done tt u' t ->
    tx_step (u, acc, out) (u', acc, out ++ sent t)
| tx_device b w r l l' r1 r2 acc out :
    tx_step (Uart b w r l r1, acc, out) (Uart b w r l' r2, acc, out).

(** Output through the UART is a FIFO: whatever the device reports, after any
    sequence of [uartputc] and [uartstart] calls the characters given to the
    device are the characters accepted by [uartputc], in order and each once,
    except for the last at most 32, which wait in the buffer. *)
Theorem uart_tx_fifo u acc out :
  rtc tx_step (Uart (replicate 32 0) 0 0 [] [], [], []) (u, acc, out) ->
  acc = out ++ tx_waiting u /\ Z.of_nat (length (tx_waiting u)) <= UART_TX_BUF_SIZE.
Proof.
  intros Hr.
  enough (G : forall x y, rtc tx_step x y -> tx_inv x.1.1 -> x.1.2 = x.2 ++ tx_waiting x.1.1 ->
    tx_inv y.1.1 /\ y.1.2 = y.2 ++ tx_waiting y.1.1).
  { destruct (G _ _ Hr) as [Hi E]; [split; (done || vm_compute; done)|done|]. simpl in *. split; [done|].
    unfold tx_waiting. rewrite length_ring_list. pose proof (tx_len_pos u).
    rewrite Z2Nat.id by done. apply Hi. }
  clear. intros x y Hr. induction Hr as [|x y z Hst _ IH]; [done|]. intros Hi E.
  enough (tx_inv y.1.1 /\ y.1.2 = y.2 ++ tx_waiting y.1.1) as [] by (by apply IH). clear IH.
  destruct Hst as [u u' c t acc out Ep|u u' t acc out Es|b w r l l' r1 r2 acc out]; cbn [fst snd] in *.
  - destruct (uartputc_run u c Hi) as [[E1 _]|(u1 & t1 & E1 & Hi1 & Ew)]; rewrite E1 in Ep; simplify_eq.
    split; [done|]. by rewrite <- !app_assoc, Ew.
  - destruct (uartstart_run u Hi) as (u1 & t1 & E1 & Hi1 & Ew). rewrite E1 in Es. simplify_eq.
    split; [done|]. by rewrite Ew, app_assoc.
  - split; [by destruct Hi|done].
Qed.

(** [uartputc_sync] returns once the device has become idle. *)
Lemma wait_idle_run b w r l rh : exists l',
  wait_idle (S (length l)) (Uart b w r l rh) = Done tt (Uart b w r l' rh) [].
Proof.
  induction l as [|x l IH]; [eexists; done|]. change (length (x :: l)) with (S (length l)).
  remember (S (length l)) as n. cbn [wait_idle]. unfold bind at 1, read_lsr, bind, get, put, ret.
  cbn [prepend app u_lsr head tail default uart_tx_buf uart_tx_w uart_tx_r u_rhr].
  destruct (Z.land _ _ =? 0); [|eexists; done]. destruct IH as [l' ->]. by exists l'.
Qed.

Lemma uartputc_sync_run c b w r l rh : exists l',
  uartputc_sync false c (Uart b w r l rh) = Done tt (Uart b w r l' rh) [EvPutc (u8 c)].
Proof.
  destruct (wait_idle_run b w r l rh) as [l' E]. exists l'.
  unfold uartputc_sync, bind at 1, get at 1. rewrite prepend_nil. cbn [u_lsr].
  by rewrite (bind_Done _ _ _ _ _ _ E).
Qed.

(** One character sent at once and one that waits for the device. *)
Lemma uart_tx_fifo_witness :
  exists u acc out, rtc tx_step (Uart (replicate 32 0) 0 0 [] [], [], []) (u, acc, out) /\
    out = [65] /\ acc = out ++ tx_waiting u.
Proof.
  assert (Hr : exists u acc out, rtc tx_step (Uart (replicate 32 0) 0 0 [] [], [], []) (u, acc, out) /\ out = [65]).
  { do 3 eexists. split.
    - eapply rtc_l; [apply (tx_device _ _ _ _ [32; 0] _ [])|].
      eapply rtc_l; [eapply (tx_putc _ _ 65); vm_compute; reflexivity|].
      eapply rtc_once. eapply (tx_putc _ _ 66); vm_compute; reflexivity.
    - vm_compute. reflexivity. }
  destruct Hr as (u & acc & out & Hr & E). exists u, acc, out.
  destruct (uart_tx_fifo u acc out Hr) as [Ea _]. done.
Defined.
