(* ===== verification/Console.v ===== *)
(** * kernel/console.c: line editing and console input and output

    The input buffer is a ring of [INPUT_BUF_SIZE] characters with three
    counters: [r <= w <= e], read, committed and edited so far.  User memory is a
    parameter, as in Pipe.v: [copyin1] and [copyout1] are [either_copyin] and
    [either_copyout] of one byte.  [procdump] of kernel/proc.c is a parameter of
    the interrupt handler.  Calls that sleep return where they continue. *)

From Stdlib Require Import ZArith Lia.
From stdpp Require Import base list strings numbers relations.
From S2P Require Import Prelude Ring Uart.

Definition BACKSPACE : Z := 256.
(** [C(x)], for the code of a letter. *)
Definition Ctl (x : Z) : Z := x - 64.
Definition INPUT_BUF_SIZE : Z := 128.

Record console := Console {
  cons_buf : list Z;
  cons_r : Z;
  cons_w : Z;
  cons_e : Z;
  cons_uart : uart
}.

Definition cons_lens : lens console uart :=
  Lens cons_uart (fun u s => Console (cons_buf s) (cons_r s) (cons_w s) (cons_e s) u).

Definition sync (c : Z) : M console unit := lift cons_lens (uartputc_sync false c).

Definition consputc (c : Z) : M console unit :=
  if c =? BACKSPACE then sync 8 ;;; sync 32 ;;; sync 8 else sync c.

Definition set_e (e : Z) : M console unit :=
  modify (fun s => Console (cons_buf s) (cons_r s) (cons_w s) e (cons_uart s)).

(** [while(cons.e != cons.w && cons.buf[(cons.e-1) % INPUT_BUF_SIZE] != '\n')] *)
Fixpoint kill_line (fuel : nat) : M console unit :=
  match fuel with
  | O => undef "consoleintr: out of fuel"
  | S fuel' =>
    let* s := get in
    if negb (cons_e s =? cons_w s) &&
       negb (default 0 (zget (cons_buf s) (u32 (cons_e s - 1) mod INPUT_BUF_SIZE)) =? 10)
    then set_e (u32 (cons_e s - 1)) ;;; consputc BACKSPACE ;;; kill_line fuel'
    else ret tt
  end.

Section intr.
Context (procdump : M console unit).

Definition consoleintr (c : Z) : M console unit :=
  if c =? Ctl 80 then procdump
  else if c =? Ctl 85 then kill_line (S (Z.to_nat INPUT_BUF_SIZE))
  else if (c =? Ctl 72) || (c =? 127) then
    let* s := get in
    if negb (cons_e s =? cons_w s) then set_e (u32 (cons_e s - 1)) ;;; consputc BACKSPACE
    else ret tt
  else
    let* s := get in
    if negb (c =? 0) && (u32 (cons_e s - cons_r s) <? INPUT_BUF_SIZE) then
      let c := if c =? 13 then 10 else c in
      consputc c ;;;
      modify (fun s => Console (zset (cons_buf s) (cons_e s mod INPUT_BUF_SIZE) (u8 c))
                         (cons_r s) (cons_w s) (u32 (cons_e s + 1)) (cons_uart s)) ;;;
      let* s := get in
      if (c =? 10) || (c =? Ctl 68) || (u32 (cons_e s - cons_r s) =? INPUT_BUF_SIZE) then
        modify (fun s => Console (cons_buf s) (cons_r s) (cons_e s) (cons_e s) (cons_uart s)) ;;;
        wakeup_ev ChConsR
      else ret tt
    else ret tt.

(** The characters the device has ready are handed to [consoleintr], then
    buffered output is sent.  At most one character per status value. *)
Fixpoint uartintr_loop (fuel : nat) : M console unit :=
  match fuel with
  | O => undef "uartintr: out of fuel"
  | S fuel' =>
    let* c := lift cons_lens uartgetc in
    if c =? -1 then ret tt else consoleintr c ;;; uartintr_loop fuel'
  end.

Definition uartintr : M console unit :=
  let* s := get in
  uartintr_loop (S (length (u_lsr (cons_uart s)))) ;;;
  lift cons_lens uartstart.
End intr.

Section user.
Context {U : Type}.
Context (copyin1 : U -> Z -> option Z) (copyout1 : U -> Z -> Z -> option U) (killed : U -> bool).

Record cstate := Cstate { cs_cons : console; cs_user : U }.

Definition on_cons {A} (m : M console A) : M cstate A :=
  lift (Lens cs_cons (fun c s => Cstate c (cs_user s))) m.

Inductive cres := CRet (r : Z) | CSleep (i : Z).

(** The loop of [consolewrite] from [i]; [uartputc] may sleep, and the copy of the
    character is made before. *)
Fixpoint consolewrite_loop (k : nat) (src i : Z) : M cstate cres :=
  match k with
  | O => ret (CRet i)
  | S k' =>
    let* s := get in
    match copyin1 (cs_user s) (u64 (src + i)) with
    | None => ret (CRet i)
    | Some c =>
      match uartputc false c (cons_uart (cs_cons s)) with
      | Sleep _ _ _ => ret (CSleep i)
      | _ => on_cons (lift cons_lens (uartputc false c)) ;;; consolewrite_loop k' src (i + 1)
      end
    end
  end.

Definition consolewrite (src n : Z) : M cstate cres := consolewrite_loop (Z.to_nat n) src 0.

(** What [consoleread] comes back with: a count, or the [dst] and [n] it has when
    it sleeps. *)
Inductive crres := RdRet (r : Z) | RdSleep (dst n : Z).

Fixpoint consoleread_loop (fuel : nat) (target dst n : Z) : M cstate crres :=
  match fuel with
  | O => undef "consoleread: out of fuel"
  | S fuel' =>
    if 0 <? n then
      let* s := get in
      let co := cs_cons s in
      if cons_r co =? cons_w co then
        if killed (cs_user s) then ret (RdRet (-1)) else ret (RdSleep dst n)
      else
        let* c := of_option "cons.buf" (zget (cons_buf co) (cons_r co mod INPUT_BUF_SIZE)) in
        on_cons (modify (fun s =>
          Console (cons_buf s) (u32 (cons_r s + 1)) (cons_w s) (cons_e s) (cons_uart s))) ;;;
        if c =? Ctl 68 then
          (if n <? target then
             on_cons (modify (fun s =>
               Console (cons_buf s) (u32 (cons_r s - 1)) (cons_w s) (cons_e s) (cons_uart s)))
           else ret tt) ;;;
          ret (RdRet (target - n))
        else
          match copyout1 (cs_user s) dst c with
          | None => ret (RdRet (target - n))
          | Some u' =>
            modify (fun s => Cstate (cs_cons s) u') ;;;
            if c =? 10 then ret (RdRet (target - (n - 1)))
            else consoleread_loop fuel' target (u64 (dst + 1)) (n - 1)
          end
    else ret (RdRet (target - n))
  end.

Definition consoleread_from (target dst n : Z) : M cstate crres :=
  consoleread_loop (S (Z.to_nat n)) target dst n.

Definition consoleread (dst n : Z) : M cstate crres := consoleread_from n dst n.
End user.

(** [consoleinit]: the UART is set up; the table of devices gets [consoleread] and
    [consolewrite] (see File.v). *)
Definition consoleinit : M console unit := lift cons_lens uartinit.
