(* ===== verification/ConsoleProofs.v ===== *)
(** * The console implements line editing

    The committed input and the line being edited as two lists of characters,
    and what the interrupt handler and [consoleread] do to them. *)

From Stdlib Require Import ZArith Lia.
From stdpp Require Import base list strings numbers relations.
From S2P Require Import Prelude Ring Uart Console.

Definition ncommit (s : console) : Z := u32 (cons_w s - cons_r s).
Definition nedit (s : console) : Z := u32 (cons_e s - cons_w s).

(** Input that [consoleread] may take, and the line still being typed. *)
Definition committed (s : console) : list Z := ring_list 7 (cons_buf s) (cons_r s) (Z.to_nat (ncommit s)).
Definition editing (s : console) : list Z := ring_list 7 (cons_buf s) (cons_w s) (Z.to_nat (nedit s)).

Record cinv (s : console) : Prop := {
  ci_len : Z.of_nat (length (cons_buf s)) = INPUT_BUF_SIZE;
  ci_r : 0 <= cons_r s < 2 ^ 32;
  ci_w : 0 <= cons_w s < 2 ^ 32;
  ci_e : 0 <= cons_e s < 2 ^ 32;
  ci_room : ncommit s + nedit s <= INPUT_BUF_SIZE;
  ci_noline : 10 ∉ editing s
}.

Lemma ncommit_pos s : 0 <= ncommit s.
Proof. apply (wrap_range 32). lia. Qed.
Lemma nedit_pos s : 0 <= nedit s.
Proof. apply (wrap_range 32). lia. Qed.

Lemma total_len s : cinv s -> u32 (cons_e s - cons_r s) = ncommit s + nedit s.
Proof.
  intros Hi. pose proof (ci_room _ Hi). pose proof (ncommit_pos s). pose proof (nedit_pos s).
  unfold ncommit, nedit in *. replace (cons_e s - cons_r s) with
    ((cons_w s - cons_r s) + (cons_e s - cons_w s)) by lia.
  rewrite <- wrap_add_l, <- wrap_add_r. apply wrap_small. unfold INPUT_BUF_SIZE in *. lia.
Qed.

Lemma edit_empty s : cinv s -> (cons_e s =? cons_w s) = (nedit s =? 0).
Proof.
  intros Hi. unfold nedit. rewrite <- (ring_len_eq 32 _ _ 0) by (apply Hi || lia).
  by rewrite Z.add_0_r, (wrap_small 32) by apply Hi.
Qed.

(** ** Echoing *)

Lemma sync_run c s : exists l, sync c s =
  Done tt (Console (cons_buf s) (cons_r s) (cons_w s) (cons_e s)
    (Uart (uart_tx_buf (cons_uart s)) (uart_tx_w (cons_uart s)) (uart_tx_r (cons_uart s)) l
       (u_rhr (cons_uart s)))) [EvPutc (u8 c)].
Proof.
  destruct s as [b r w e [tb tw tr l rh]]. destruct (uartputc_sync_run c tb tw tr l rh) as [l' E].
  exists l'. unfold sync, lift. simpl lget. by rewrite E.
Qed.

(** The characters a terminal gets for [c]. *)
Definition echo (c : Z) : list Z := if c =? BACKSPACE then [8; 32; 8] else [u8 c].

(** Echoing changes only the state of the UART. *)
Definition same_input (s s' : console) : Prop :=
  cons_buf s' = cons_buf s /\ cons_r s' = cons_r s /\ cons_w s' = cons_w s /\ cons_e s' = cons_e s.

Lemma consputc_run c s : exists s' t, consputc c s = Done tt s' t /\ same_input s s' /\ sent t = echo c.
Proof.
  unfold consputc, echo. destruct (c =? BACKSPACE).
  - destruct (sync_run 8 s) as [l1 E1]. rewrite (bind_Done _ _ _ _ _ _ E1).
    match goal with |- context [bind _ _ ?s1] => destruct (sync_run 32 s1) as [l2 E2] end.
    rewrite (bind_Done _ _ _ _ _ _ E2).
    match goal with |- context [sync 8 ?s2] => destruct (sync_run 8 s2) as [l3 E3] end.
    rewrite E3. do 2 eexists. split; [done|]. done.
  - destruct (sync_run c s) as [l1 E1]. rewrite E1. do 2 eexists. split; [done|]. done.
Qed.

Lemma cinv_same s s' : same_input s s' -> cinv s -> cinv s' /\ committed s' = committed s /\ editing s' = editing s.
Proof.
  intros (E1 & E2 & E3 & E4) [H1 H2 H3 H4 H5 H6].
  assert (Ec : committed s' = committed s) by (unfold committed, ncommit; by rewrite E1, E2, E3).
  assert (Ee : editing s' = editing s) by (unfold editing, nedit; by rewrite E1, E3, E4).
  split; [|done]. split; rewrite ?E1, ?E2, ?E3, ?E4, ?Ee; try done.
  unfold ncommit, nedit. by rewrite E2, E3, E4.
Qed.

(** ** Erasing *)

Definition unedit (s : console) : console :=
  Console (cons_buf s) (cons_r s) (cons_w s) (u32 (cons_e s - 1)) (cons_uart s).

Lemma unedit_ok s : cinv s -> 0 < nedit s ->
  cinv (unedit s) /\ committed (unedit s) = committed s /\ nedit (unedit s) = nedit s - 1 /\
  editing s = editing (unedit s) ++
    [default 0 (zget (cons_buf s) (u32 (cons_e s - 1) mod INPUT_BUF_SIZE))].
Proof.
  intros Hi Hpos. pose proof Hi as [H1 H2 H3 H4 H5 H6].
  assert (En : nedit (unedit s) = nedit s - 1) by (apply (ring_len_dec 32 7); [lia|done]).
  assert (Ee : editing s = editing (unedit s) ++
    [default 0 (zget (cons_buf s) (u32 (cons_e s - 1) mod INPUT_BUF_SIZE))]).
  { unfold editing. rewrite En.
    replace (Z.to_nat (nedit s)) with (S (Z.to_nat (nedit s - 1))) by lia.
    rewrite ring_list_S. simpl cons_buf. simpl cons_w. do 4 f_equal.
    change INPUT_BUF_SIZE with (2 ^ 7). rewrite (wrap_mod_pow2 32 7) by lia.
    rewrite Z2Nat.id by lia. rewrite <- En. unfold nedit. simpl.
    rewrite <- (ring_write_pos 32 7) by lia. by rewrite (wrap_mod_pow2 32 7) by lia. }
  split; [|done]. split; simpl; try done.
  - apply (wrap_range 32). lia.
  - rewrite En. change (ncommit (unedit s)) with (ncommit s). lia.
  - intros Hin. apply H6. rewrite Ee. apply elem_of_app. by left.
Qed.

Lemma kill_line_run fuel s : cinv s -> nedit s < Z.of_nat fuel ->
  exists s' t, kill_line fuel s = Done tt s' t /\ cinv s' /\ committed s' = committed s /\
    editing s' = [] /\ sent t = concat (replicate (Z.to_nat (nedit s)) [8; 32; 8]).
Proof.
  revert s. induction fuel as [|fuel IH]; intros s Hi Hf; [pose proof (nedit_pos s); lia|].
  cbn [kill_line]. unfold bind at 1, get at 1. rewrite prepend_nil, edit_empty by done.
  destruct (Z.eqb_spec (nedit s) 0) as [Ez|Ez].
  - exists s, []. split; [done|]. split; [done|]. split; [done|]. rewrite Ez. split; [|done].
    unfold editing. by rewrite Ez.
  - pose proof (nedit_pos s). destruct (unedit_ok s Hi ltac:(lia)) as (Hi1 & Ec & En & Ee).
    destruct (Z.eqb_spec (default 0 (zget (cons_buf s) (u32 (cons_e s - 1) mod INPUT_BUF_SIZE))) 10) as [E10|E10].
    { exfalso. apply (ci_noline _ Hi). rewrite Ee, E10. set_solver. }
    cbn [negb andb]. unfold bind at 1, set_e, modify. rewrite prepend_nil.
    change (Console _ _ _ _ _) with (unedit s).
    destruct (consputc_run BACKSPACE (unedit s)) as (s2 & t2 & E2 & Hs & Ht).
    destruct (cinv_same _ _ Hs Hi1) as (Hi2 & Ec2 & Ee2).
    assert (En2 : nedit s2 = nedit (unedit s)) by (destruct Hs as (_ & _ & A & B); unfold nedit; by rewrite A, B).
    destruct (IH s2 Hi2 ltac:(lia)) as (s3 & t3 & E3 & Hi3 & Ec3 & Ee3 & Ht3).
    rewrite (bind_Done _ _ _ _ _ _ E2), E3. simpl. do 2 eexists. split; [done|]. split; [done|].
    split; [congruence|]. split; [done|]. rewrite sent_app, Ht, Ht3, En2, En.
    replace (Z.to_nat (nedit s)) with (S (Z.to_nat (nedit s - 1))) by lia. done.
Qed.

(** ** Typing *)

Definition typed (c : Z) (s : console) : console :=
  Console (zset (cons_buf s) (cons_e s mod INPUT_BUF_SIZE) (u8 c)) (cons_r s) (cons_w s)
    (u32 (cons_e s + 1)) (cons_uart s).

(** The whole buffer is the committed input followed by the line. *)
Lemma buffer_split buf r w n m :
  0 <= w < 2 ^ 32 -> n = Z.to_nat (u32 (w - r)) ->
  ring_list 7 buf r (n + m) = ring_list 7 buf r n ++ ring_list 7 buf w m.
Proof.
  intros Hw ->. rewrite (ring_list_app 32 7) by lia. do 2 f_equal.
  rewrite Z2Nat.id by (apply (wrap_range 32); lia). rewrite wrap_add_r.
  replace (r + (w - r)) with w by lia. by apply wrap_small.
Qed.

Lemma typed_ok c s : cinv s -> ncommit s + nedit s < INPUT_BUF_SIZE ->
  let s' := typed c s in
  Z.of_nat (length (cons_buf s')) = INPUT_BUF_SIZE /\ 0 <= cons_e s' < 2 ^ 32 /\
  ncommit s' = ncommit s /\ nedit s' = nedit s + 1 /\
  committed s' = committed s /\ editing s' = editing s ++ [u8 c].
Proof.
  intros Hi Hroom s'. pose proof Hi as [H1 H2 H3 H4 H5 H6].
  pose proof (ncommit_pos s). pose proof (nedit_pos s).
  assert (En : nedit s' = nedit s + 1).
  { apply (ring_len_inc 32 7); [lia|]. change (nedit s < 2 ^ 32 - 1). unfold INPUT_BUF_SIZE in *. lia. }
  set (a := Z.to_nat (ncommit s)). set (b := Z.to_nat (nedit s)).
  destruct (ring_list_put 32 7 ltac:(lia) (cons_buf s) (cons_r s) (a + b) (cons_e s) (u8 c)) as [P1 P2].
  { done. } { change (2 ^ 7) with INPUT_BUF_SIZE. lia. }
  { rewrite (ring_write_pos 32 7 ltac:(lia) (cons_e s) (cons_r s)), total_len by done. do 2 f_equal. lia. }
  change (zset (cons_buf s) (cons_e s mod 2 ^ 7) (u8 c)) with (cons_buf s') in P1, P2.
  replace (S (a + b)) with (a + S b)%nat in P2 by lia.
  rewrite !(buffer_split _ _ (cons_w s) a) in P2 by done.
  rewrite <- app_assoc in P2. apply app_inj_1 in P2 as [Pa Pb]; [|by rewrite !length_ring_list].
  split; [simpl; by rewrite length_zset|]. split; [apply (wrap_range 32); lia|]. split; [done|].
  split; [done|]. split; [exact Pa|]. unfold editing. rewrite En.
  replace (Z.to_nat (nedit s + 1)) with (S b) by lia. exact Pb.
Qed.

(** The line discipline: the committed input, the line being typed and what the
    terminal shows, after the character [c]. *)
Definition edit (c : Z) (cm ed : list Z) : list Z * list Z * list Z :=
  if c =? Ctl 85 then (cm, [], concat (replicate (length ed) [8; 32; 8]))
  else if (c =? Ctl 72) || (c =? 127) then
    (cm, removelast ed, if decide (ed = []) then [] else [8; 32; 8])
  else if (c =? 0) || (INPUT_BUF_SIZE <=? Z.of_nat (length cm + length ed)) then (cm, ed, [])
  else
    let c := if c =? 13 then 10 else c in
    let ed' := ed ++ [c] in
    if (c =? 10) || (c =? Ctl 68) || (Z.of_nat (length cm + length ed') =? INPUT_BUF_SIZE)
    then (cm ++ ed', [], [c]) else (cm, ed', [c]).

Lemma length_committed s : Z.of_nat (length (committed s)) = ncommit s.
Proof. unfold committed. rewrite length_ring_list, Z2Nat.id; [done|apply ncommit_pos]. Qed.
Lemma length_editing s : Z.of_nat (length (editing s)) = nedit s.
Proof. unfold editing. rewrite length_ring_list, Z2Nat.id; [done|apply nedit_pos]. Qed.

(** The character [c] stored, the line committed or not. *)
Lemma commit_line s c : cinv s -> ncommit s + nedit s < INPUT_BUF_SIZE -> 0 <= c < 256 ->
  let s1 := typed c s in
  let s2 := Console (cons_buf s1) (cons_r s1) (cons_e s1) (cons_e s1) (cons_uart s1) in
  (cinv s2 /\ committed s2 = committed s ++ editing s ++ [c] /\ editing s2 = []) /\
  (c <> 10 -> cinv s1 /\ committed s1 = committed s /\ editing s1 = editing s ++ [c]).
Proof.
  intros Hi Hroom Hc s1 s2. destruct (typed_ok c s Hi Hroom) as (L1 & L2 & L3 & L4 & L5 & L6).
  fold s1 in L1, L2, L3, L4, L5, L6. rewrite (wrap_small 8) in L6 by done.
  pose proof (ncommit_pos s). pose proof (nedit_pos s). pose proof Hi as [H1 H2 H3 H4 H5 H6].
  assert (E2 : nedit s2 = 0) by (unfold nedit; simpl; by rewrite Z.sub_diag).
  assert (C2 : ncommit s2 = ncommit s + nedit s + 1).
  { unfold ncommit at 1. simpl. rewrite (ring_len_inc 32 7) by (rewrite ?total_len by done; unfold INPUT_BUF_SIZE in *; lia).
    by rewrite total_len. }
  assert (Ec2 : committed s2 = committed s ++ editing s ++ [c]).
  { unfold committed at 1. rewrite C2.
    replace (Z.to_nat (ncommit s + nedit s + 1)) with (Z.to_nat (ncommit s) + Z.to_nat (nedit s + 1))%nat by lia.
    change (cons_buf s2) with (cons_buf s1). change (cons_r s2) with (cons_r s1).
    rewrite (buffer_split _ _ (cons_w s1)) by (done || by rewrite <- L3). rewrite <- L3, <- L4.
    change (ring_list 7 (cons_buf s1) (cons_r s1) (Z.to_nat (ncommit s1))) with (committed s1).
    change (ring_list 7 (cons_buf s1) (cons_w s1) (Z.to_nat (nedit s1))) with (editing s1).
    by rewrite L5, L6. }
  assert (Ee2 : editing s2 = []) by (unfold editing; by rewrite E2).
  split; [split; [|done]|].
  - split; try done; [lia|]. rewrite Ee2. apply not_elem_of_nil.
  - intros Hne. split; [|done]. split; try done; [lia|]. rewrite L6. set_solver.
Qed.

Lemma consoleintr_char procdump c s :
  cinv s -> 0 <= c < 256 -> c <> Ctl 80 -> c <> Ctl 85 -> c <> Ctl 72 -> c <> 127 ->
  exists s' t, consoleintr procdump c s = Done tt s' t /\ cinv s' /\
    (committed s', editing s', sent t) = edit c (committed s) (editing s).
Proof.
  intros Hi Hc N1 N2 N3 N4. unfold consoleintr, edit.
  rewrite (proj2 (Z.eqb_neq c (Ctl 80))), (proj2 (Z.eqb_neq c (Ctl 85))), (proj2 (Z.eqb_neq c (Ctl 72))),
    (proj2 (Z.eqb_neq c 127)) by done. cbn [orb].
  unfold bind at 1, get at 1. rewrite prepend_nil, total_len by done.
  rewrite Nat2Z.inj_add, length_committed, length_editing.
  destruct (Z.eqb_spec c 0) as [->|Hc0]; [by exists s, []|]. cbn [negb andb orb].
  destruct (Z.ltb_spec (ncommit s + nedit s) INPUT_BUF_SIZE) as [Hroom|Hfull]; cycle 1.
  { rewrite (proj2 (Z.leb_le INPUT_BUF_SIZE _)) by done. by exists s, []. }
  rewrite (proj2 (Z.leb_gt INPUT_BUF_SIZE _)) by done.
  set (c1 := if c =? 13 then 10 else c).
  assert (Hc1 : 0 <= c1 < 256) by (unfold c1; case_bool; lia).
  destruct (consputc_run c1 s) as (s1 & t1 & E1 & Hs1 & Ht1). rewrite (bind_Done _ _ _ _ _ _ E1).
  destruct (cinv_same _ _ Hs1 Hi) as (Hi1 & Ec1 & Ee1).
  assert (En : ncommit s1 = ncommit s /\ nedit s1 = nedit s).
  { destruct Hs1 as (_ & A & B & D). unfold ncommit, nedit. by rewrite A, B, D. }
  destruct En as [En1 En2].
  destruct (commit_line s1 c1 Hi1 ltac:(lia) Hc1) as [(Hi2 & Ec2 & Ee2) Hno].
  unfold bind, modify, get. cbn [prepend app]. fold (typed c1 s1).
  change (Console (zset (cons_buf s1) (cons_e s1 mod INPUT_BUF_SIZE) (u8 c1)) (cons_r s1) (cons_w s1)
    (u32 (cons_e s1 + 1)) (cons_uart s1)) with (typed c1 s1).
  assert (Etot : u32 (cons_e (typed c1 s1) - cons_r (typed c1 s1)) =
    Z.of_nat (length (committed s) + length (editing s ++ [c1]))).
  { simpl. rewrite (ring_len_inc 32 7) by (rewrite ?total_len by done; unfold INPUT_BUF_SIZE in *; lia).
    rewrite total_len by done. rewrite length_app, !Nat2Z.inj_add, length_committed, length_editing. simpl. lia. }
  rewrite Etot. assert (Hecho : echo c1 = [c1]).
  { unfold echo, BACKSPACE. rewrite (proj2 (Z.eqb_neq c1 256)) by lia. by rewrite (wrap_small 8). }
  destruct ((c1 =? 10) || (c1 =? Ctl 68) || _) eqn:Eb.
  - match type of Hi2 with cinv ?s2 => exists s2 end. eexists. split; [reflexivity|]. split; [exact Hi2|].
    rewrite Ec2, Ee2, sent_app, Ht1, Hecho, Ec1, Ee1. done.
  - apply orb_false_iff in Eb as [Eb _]. apply orb_false_iff in Eb as [Eb _]. apply Z.eqb_neq in Eb.
    destruct (Hno Eb) as (Hi3 & Ec3 & Ee3). exists (typed c1 s1). eexists.
    split; [reflexivity|]. split; [exact Hi3|].
    rewrite Ec3, Ee3, sent_app, app_nil_r, Ht1, Hecho, Ec1, Ee1. done.
Qed.

(** C31: The console interrupt handler implements line editing: control-U erases
    the line being typed and backspace its last character, never input that was
    already committed; an ordinary character (carriage return counting as
    newline) is echoed and appended while the 128-byte buffer has room, and
    newline, control-D or a full buffer commit the line.  The handler always
    returns and the three counters of the buffer stay in order, also when they
    wrap around. *)
Theorem consoleintr_edits procdump c s :
  cinv s -> 0 <= c < 256 -> c <> Ctl 80 ->
  exists s' t, consoleintr procdump c s = Done tt s' t /\ cinv s' /\
    (committed s', editing s', sent t) = edit c (committed s) (editing s).
Proof.
  intros Hi Hc N1. destruct (decide (c = Ctl 85)) as [->|N2].
  { pose proof (ci_room _ Hi). pose proof (ncommit_pos s).
    destruct (kill_line_run (S (Z.to_nat INPUT_BUF_SIZE)) s Hi) as (s' & t & E & Hi' & Ec & Ee & Ht);
      [unfold INPUT_BUF_SIZE in *; lia|].
    exists s', t. split; [exact E|]. split; [done|]. unfold edit. simpl. rewrite Ec, Ee, Ht.
    unfold editing at 1. by rewrite length_ring_list. }
  destruct (decide (c = Ctl 72 \/ c = 127)) as [N3|N3]; [|apply consoleintr_char; tauto].
  assert (E3 : (c =? Ctl 72) || (c =? 127) = true) by (destruct N3 as [-> | ->]; done).
  unfold consoleintr, edit. rewrite E3, (proj2 (Z.eqb_neq c (Ctl 80))), (proj2 (Z.eqb_neq c (Ctl 85))) by done.
  unfold bind at 1, get at 1. rewrite prepend_nil, edit_empty by done.
  pose proof (nedit_pos s). destruct (Z.eqb_spec (nedit s) 0) as [Ez|Ez].
  { assert (Ee : editing s = []) by (unfold editing; by rewrite Ez). exists s, []. by rewrite Ee. }
  destruct (unedit_ok s Hi ltac:(lia)) as (Hi1 & Ec & En & Ee).
  cbn [negb]. unfold bind, set_e, modify. rewrite prepend_nil. change (Console _ _ _ _ _) with (unedit s).
  destruct (consputc_run BACKSPACE (unedit s)) as (s2 & t2 & E2 & Hs & Ht).
  destruct (cinv_same _ _ Hs Hi1) as (Hi2 & Ec2 & Ee2). exists s2, t2. split; [exact E2|]. split; [done|].
  rewrite Ec2, Ee2, Ht, Ec, Ee, removelast_last. rewrite decide_False; [done|].
  by destruct (editing (unedit s)).
Qed.

(** ** Reading a line *)

(** What a read of [n] characters gets from the committed input: the characters,
    what stays committed, and whether the call returns or sleeps.  [first] says
    that nothing has been read yet: a control-D is consumed only then. *)
Fixpoint read_line (first : bool) (n : nat) (cm : list Z) : list Z * list Z * bool :=
  match n, cm with
  | O, _ => ([], cm, true)
  | S _, [] => ([], [], false)
  | S n', c :: cm' =>
    if c =? Ctl 68 then ([], if first then cm' else cm, true)
    else if c =? 10 then ([c], cm', true)
    else let '(out, rest, fin) := read_line false n' cm' in (c :: out, rest, fin)
  end.

Definition take_one (s : console) : console :=
  Console (cons_buf s) (u32 (cons_r s + 1)) (cons_w s) (cons_e s) (cons_uart s).

Lemma take_one_ok s : cinv s -> 0 < ncommit s ->
  exists c, zget (cons_buf s) (cons_r s mod INPUT_BUF_SIZE) = Some c /\ cinv (take_one s) /\
    committed s = c :: committed (take_one s) /\ editing (take_one s) = editing s.
Proof.
  intros Hi Hpos. pose proof Hi as [H1 H2 H3 H4 H5 H6].
  destruct (zget_is_Some (cons_buf s) (cons_r s mod INPUT_BUF_SIZE)) as [c E];
    [rewrite H1; apply Z.mod_pos_bound; unfold INPUT_BUF_SIZE; lia|].
  assert (En : ncommit (take_one s) = ncommit s - 1) by (apply (ring_len_dec 32 7); [lia|done]).
  exists c. split; [done|]. split.
  { split; try done; [apply (wrap_range 32); lia|]. rewrite En. change (nedit (take_one s)) with (nedit s). lia. }
  split; [|done]. unfold committed. rewrite En.
  replace (Z.to_nat (ncommit s)) with (S (Z.to_nat (ncommit s - 1))) by lia.
  rewrite (ring_list_cons 32 7) by lia. simpl cons_buf. change (2 ^ 7) with INPUT_BUF_SIZE. by rewrite E.
Qed.

Lemma commit_empty s : cinv s -> (cons_r s =? cons_w s) = (ncommit s =? 0).
Proof.
  intros Hi. unfold ncommit. rewrite Z.eqb_sym, <- (ring_len_eq 32 _ _ 0) by (apply Hi || lia).
  by rewrite Z.add_0_r, (wrap_small 32) by apply Hi.
Qed.

Section user.
Context {U : Type}.
Context (copyout1 : U -> Z -> Z -> option U) (killed : U -> bool).
(** The reader's buffer is mapped. *)
Context (mapped : forall u va c, is_Some (copyout1 u va c)).
Context (copyout_killed : forall u va c u', copyout1 u va c = Some u' -> killed u' = killed u).

(** The bytes of [l] copied out one after the other. *)
Fixpoint copy_bytes (u : U) (dst : Z) (l : list Z) : option U :=
  match l with
  | [] => Some u
  | c :: l' => match copyout1 u dst c with Some u' => copy_bytes u' (u64 (dst + 1)) l' | None => None end
  end.

Lemma consoleread_loop_run fuel target dst n s u :
  cinv s -> killed u = false -> 0 <= n <= target -> (Z.to_nat n < fuel)%nat ->
  let '(out, rest, fin) := read_line (n =? target) (Z.to_nat n) (committed s) in
  exists s' u', consoleread_loop copyout1 killed fuel target dst n (Cstate s u) =
      Done (if fin then RdRet (target - (n - Z.of_nat (length out)))
            else RdSleep (foldr (fun _ d => u64 (d + 1)) dst out) (n - Z.of_nat (length out)))
        (Cstate s' u') [] /\
    cinv s' /\ committed s' = rest /\ editing s' = editing s /\ copy_bytes u dst out = Some u'.
Proof.
  revert dst n s u. induction fuel as [|fuel IH]; intros dst n s u Hi Hk Hn Hf; [lia|].
  cbn [consoleread_loop]. destruct (Z.ltb_spec 0 n) as [Hpos|Hz]; cycle 1.
  { assert (n = 0) as -> by lia. simpl. exists s, u. rewrite !Z.sub_0_r. done. }
  assert (En : Z.to_nat n = S (Z.to_nat (n - 1))) by lia. rewrite En.
  unfold bind at 1, get at 1. cbn [cs_cons cs_user]. rewrite prepend_nil, commit_empty, Hk by done.
  pose proof (ncommit_pos s). destruct (Z.eqb_spec (ncommit s) 0) as [Ez|Ez].
  { assert (Ec : committed s = []) by (unfold committed; by rewrite Ez). rewrite Ec. simpl.
    exists s, u. rewrite Z.sub_0_r. done. }
  destruct (take_one_ok s Hi ltac:(lia)) as (c & E & Hi1 & Ec & Ee). rewrite E, Ec.
  unfold bind at 1, of_option, ret at 1. rewrite prepend_nil.
  unfold bind at 1, on_cons at 1, lift at 1, modify at 1. cbn [lget lset cs_cons cs_user]. rewrite prepend_nil.
  fold (take_one s). cbn [read_line]. destruct (Z.eqb_spec c (Ctl 68)) as [Hd|Hd].
  - replace (n <? target) with (negb (n =? target)) by (repeat case_bool; (lia || done)).
    destruct (n =? target); cbn [negb]; unfold bind, on_cons, lift, modify, ret;
      cbn [lget lset cs_cons cs_user prepend app].
    + exists (take_one s), u. rewrite Z.sub_0_r. done.
    + exists s, u. rewrite Z.sub_0_r. split; [|done]. do 3 f_equal. destruct s as [b r w e ua]. simpl. f_equal.
      pose proof (ci_r _ Hi) as Hr. simpl in Hr. rewrite wrap_sub_l. replace (r + 1 - 1) with r by lia.
      by apply wrap_small.
  - destruct (mapped u dst c) as [u1 Eo]. rewrite Eo. unfold bind at 1, modify at 1. cbn [cs_cons cs_user].
    rewrite prepend_nil. destruct (Z.eqb_spec c 10) as [Hl|Hl].
    + exists (take_one s), u1. simpl. rewrite Eo. split; [|done]. do 3 f_equal; try lia.
    + assert (Hk1 : killed u1 = false) by (by rewrite (copyout_killed _ _ _ _ Eo)).
      specialize (IH (u64 (dst + 1)) (n - 1) (take_one s) u1 Hi1 Hk1 ltac:(lia) ltac:(lia)).
      rewrite (proj2 (Z.eqb_neq (n - 1) target)) in IH by lia.
      destruct (read_line false (Z.to_nat (n - 1)) (committed (take_one s))) as [[out rest] fin].
      destruct IH as (s' & u' & E' & Hi' & Ec' & Ee' & Eb). exists s', u'. rewrite E'.
      split; [|split_and!; [done|done|congruence|by simpl; rewrite Eo]].
      f_equal. destruct fin; simpl length; f_equal; try lia.
      clear. simpl. induction out as [|x out IH]; [done|]. simpl. by rewrite IH.
Qed.

(** [consoleread] returns at most one line of committed input: the
    characters, in order, up to and including the first newline, or up to a
    control-D (consumed only when it comes first, so that it gives an empty
    read), or up to the size of the buffer; with no complete line it takes what
    is committed and sleeps.  The line being typed is not touched. *)
Theorem consoleread_line dst n s u :
  cinv s -> killed u = false -> 0 <= n ->
  let '(out, rest, fin) := read_line true (Z.to_nat n) (committed s) in
  exists s' u' r, consoleread copyout1 killed dst n (Cstate s u) = Done r (Cstate s' u') [] /\
    cinv s' /\ committed s' = rest /\ editing s' = editing s /\ copy_bytes u dst out = Some u' /\
    (fin = true -> r = RdRet (Z.of_nat (length out))).
Proof.
  intros Hi Hk Hn. unfold consoleread, consoleread_from.
  pose proof (consoleread_loop_run (S (Z.to_nat n)) n dst n s u Hi Hk ltac:(lia) ltac:(lia)) as H.
  rewrite Z.eqb_refl in H. destruct (read_line true (Z.to_nat n) (committed s)) as [[out rest] fin].
  destruct H as (s' & u' & E & Hi' & Ec & Ee & Eb). exists s', u'. eexists. split; [exact E|].
  split_and!; try done. intros ->. f_equal. lia.
Qed.
End user.

(** ** A session *)

Definition console0 : console := Console (replicate 128 0) 0 0 0 (Uart (replicate 32 0) 0 0 [] []).

Lemma console0_inv : cinv console0.
Proof. split; try done; vm_compute; (done || intros H; inversion H). Qed.

(** The handler's [c] stored as the seventh character typed is 'a'. *)
Lemma consoleintr_edits_witness :
  exists s' t, consoleintr (ret tt) 97 console0 = Done tt s' t /\ editing s' = [97] /\ sent t = [97].
Proof.
  destruct (consoleintr_edits (ret tt) 97 console0 console0_inv) as (s' & t & E & _ & H); [lia|done|].
  assert (Ed : edit 97 (committed console0) (editing console0) = ([], [97], [97])) by (vm_compute; reflexivity).
  rewrite Ed in H. exists s', t. split; [exact E|]. by injection H.
Defined.

(** The line "hi", typed with a correction, is read back by a program. *)
Definition session : console :=
  match (consoleintr (ret tt) 104 ;;; consoleintr (ret tt) 111 ;;; consoleintr (ret tt) 127 ;;;
         consoleintr (ret tt) 105 ;;; consoleintr (ret tt) 13) console0 with
  | Done _ s _ => s
  | _ => console0
  end.

Lemma session_inv : cinv session.
Proof. split; try (vm_compute; done). intros H. inversion H. Qed.

Lemma consoleread_line_witness :
  exists s' u', consoleread (fun (u : list Z) _ c => Some (u ++ [c])) (fun _ => false) 4096 100
      (Cstate session []) = Done (RdRet 3) (Cstate s' u') [] /\ u' = [104; 105; 10].
Proof.
  pose proof (consoleread_line (fun (u : list Z) _ c => Some (u ++ [c])) (fun _ => false)
    ltac:(eauto) ltac:(done) 4096 100 session [] session_inv eq_refl ltac:(lia)) as H.
  assert (Er : read_line true (Z.to_nat 100) (committed session) = ([104; 105; 10], [], true))
    by (vm_compute; reflexivity).
  rewrite Er in H. clear Er.
  destruct H as (s' & u' & r & E & _ & _ & _ & Eb & Er). exists s', u'. rewrite (Er eq_refl) in E.
  split; [exact E|]. by injection Eb.
Defined.
