(* ===== verification/PageTable.v ===== *)
(** * Page tables as a map

    The tables of all address spaces together: a finite map [tb] from
    (root page table, level, prefix of the page number) to the page that holds
    the table.  [pt_ok] says that memory represents it: the entries of the tables
    above level 0 are exactly the links of the map, every table is a page of its
    own, and none is on the free list of the allocator.  [leaf] is the entry of a
    page number, which is what the hardware finds.  The functions of
    kernel/vm.c are shown to read and update [leaf]. *)

From Stdlib Require Import ZArith Lia.
From stdpp Require Import base list gmap sets strings numbers.
From S2P Require Import Prelude Memory KString Riscv Kalloc Vm.

Abbreviation tables := (gmap (Z * nat * Z) Z).

(** The page number of an address, and its part above the index at [level]. *)
Definition vpn (va : Z) : Z := va / PGSIZE.
Definition prefix (level : nat) (v : Z) : Z := v / 512 ^ (Z.of_nat level + 1).

Definition slot (tb : tables) (r v : Z) : option Z :=
  match tb !! (r, 0%nat, prefix 0 v) with Some p => Some (p + 8 * (v mod 512)) | None => None end.

Definition leaf (tb : tables) (m : mem) (r v : Z) : Z :=
  match slot tb r v with Some a => load64 m a | None => 0 end.

Definition in_page (p a : Z) : Prop := p <= a < p + PGSIZE.

(** ** Arithmetic *)

Lemma prefix_S level v : prefix (S level) v = prefix level v / 512.
Proof.
  unfold prefix. rewrite Z.div_div by lia. f_equal.
  replace (Z.of_nat (S level) + 1) with (Z.of_nat level + 1 + 1) by lia.
  rewrite (Z.pow_add_r 512 (Z.of_nat level + 1)) by lia. lia.
Qed.

Lemma PX_vpn level va : PX (Z.of_nat level) va = vpn va / 512 ^ Z.of_nat level mod 512.
Proof.
  rewrite PX_eq by lia. unfold vpn, PXSHIFT, PGSHIFT, PGSIZE. rewrite Z.div_div by lia. do 2 f_equal.
  rewrite Z.pow_add_r, Z.pow_mul_r by lia. done.
Qed.

Lemma prefix_split level va :
  prefix level (vpn va) = prefix (S level) (vpn va) * 512 + PX (Z.of_nat (S level)) va.
Proof.
  rewrite PX_vpn, prefix_S. unfold prefix. replace (Z.of_nat (S level)) with (Z.of_nat level + 1) by lia.
  rewrite Z.mul_comm. apply Z.div_mod. lia.
Qed.

Lemma prefix_top v : 0 <= v < 2 ^ 27 -> prefix 2 v = 0.
Proof. intros H. unfold prefix. apply Z.div_small. simpl. lia. Qed.

Lemma vpn_range va : 0 <= va < MAXVA -> 0 <= vpn va < 2 ^ 26.
Proof.
  unfold MAXVA, vpn, PGSIZE. change (Z.shiftl 1 (9 + 9 + 9 + 12 - 1)) with (2 ^ 26 * 4096). intros H.
  split; [apply Z.div_pos; lia|apply Z.div_lt_upper_bound; lia].
Qed.

Lemma valid_link q : 0 <= q < 2 ^ 56 -> q mod PGSIZE = 0 ->
  has (Z.lor (PA2PTE q) PTE_V) PTE_V = true /\ PTE2PA (Z.lor (PA2PTE q) PTE_V) = q /\
  0 <= Z.lor (PA2PTE q) PTE_V < 2 ^ 54.
Proof.
  intros Hq Hal. destruct (PTE_pack q PTE_V Hq Hal ltac:(unfold PTE_V; lia)) as (E & _ & Hr).
  split_and!; [|done|lia|lia]. unfold has. rewrite Z.land_lor_distr_l, Z.land_diag.
  destruct (Z.eqb_spec (Z.lor (Z.land (PA2PTE q) PTE_V) PTE_V) 0) as [E0|]; [|done].
  apply Z.lor_eq_0_iff in E0 as [_ E0]. done.
Qed.

(** ** Entries of page-aligned tables *)

Lemma aligned_apart p q : p mod PGSIZE = 0 -> q mod PGSIZE = 0 -> p <> q -> p + PGSIZE <= q \/ q + PGSIZE <= p.
Proof. apply pages_apart. Qed.

Lemma entry_store m p i v q j :
  p mod PGSIZE = 0 -> q mod PGSIZE = 0 -> 0 <= i < 512 -> 0 <= j < 512 -> 0 <= v < 2 ^ 64 ->
  load64 (store64 m (p + 8 * i) v) (q + 8 * j) =
    if decide (q = p /\ j = i) then v else load64 m (q + 8 * j).
Proof.
  intros Hp Hq Hi Hj Hv. case_decide as Hd.
  - destruct Hd as [-> ->]. by apply load64_store64_eq.
  - apply load_le_ext. intros x Hx. apply store_le_outside. simpl in *.
    destruct (decide (q = p)) as [->|Hne]; [assert (j <> i) by naive_solver; lia|].
    destruct (aligned_apart p q Hp Hq ltac:(done)); unfold PGSIZE in *; lia.
Qed.

Lemma entry_outside m m' q j :
  0 <= j < 512 -> (forall a, in_page q a -> m' a = m a) -> load64 m' (q + 8 * j) = load64 m (q + 8 * j).
Proof. intros Hj H. apply load_le_ext. intros x Hx. apply H. unfold in_page, PGSIZE. simpl in *. lia. Qed.

Lemma entry_zero m q j :
  0 <= j < 512 -> (forall a, in_page q a -> m a = 0) -> load64 m (q + 8 * j) = 0.
Proof.
  intros Hj H. rewrite (load_le_ext 8 m (fun _ => 0)); [done|].
  intros x Hx. apply H. unfold in_page, PGSIZE. simpl in *. lia.
Qed.

Lemma in_page_apart p q a : p mod PGSIZE = 0 -> q mod PGSIZE = 0 -> in_page p a -> in_page q a -> p = q.
Proof.
  intros Hp Hq H1 H2. destruct (decide (p = q)) as [|Hne]; [done|].
  destruct (aligned_apart p q Hp Hq Hne); unfold in_page in *; lia.
Qed.

Section proofs.
Context (kend : Z) (Hend : 0 < kend <= PHYSTOP).
Abbreviation page_ok := (page_ok kend).
Abbreviation kinv := (kinv kend).

Lemma page_small p : page_ok p -> 0 < p < 2 ^ 56 /\ p mod PGSIZE = 0.
Proof. unfold Kalloc.page_ok, PHYSTOP, KERNBASE in *. lia. Qed.

(** Writing outside the free pages keeps the free list. *)
Lemma kinv_write l s m' :
  kinv l s -> bytes_ok m' -> (forall x a, x ∈ l -> in_page x a -> m' a = km_mem s a) ->
  kinv l (Kmem m' (km_freelist s)).
Proof.
  intros [Hl Hp Hd Hb] Hb' Hs. split; simpl in *; [|done..].
  eapply free_list_ext; [..|exact Hl]; [done|]. intros x Hx. apply load_le_ext. intros a Ha.
  apply (Hs x a Hx). unfold in_page, PGSIZE. simpl in *. lia.
Qed.

Record pt_ok (tb : tables) (l : list Z) (s : kmem) : Prop := {
  pt_free : kinv l s;
  pt_page k p : tb !! k = Some p -> page_ok p /\ p ∉ l;
  pt_inj k k' p : tb !! k = Some p -> tb !! k' = Some p -> k = k';
  pt_parent r level v p : tb !! (r, level, v) = Some p ->
    if decide (level < 2)%nat then is_Some (tb !! (r, S level, v / 512))
    else (level, v, p) = (2%nat, 0, r);
  pt_entry r level v p i : tb !! (r, S level, v) = Some p -> 0 <= i < 512 ->
    match tb !! (r, level, v * 512 + i) with
    | Some q => load64 (km_mem s) (p + 8 * i) = Z.lor (PA2PTE q) PTE_V
    | None => has (load64 (km_mem s) (p + 8 * i)) PTE_V = false
    end
}.

(** What the functions that map pages may change: they take pages from the free
    list and make tables of them, and write to tables. *)
Record grows (tb : tables) (l : list Z) (s : kmem) (tb' : tables) (l' : list Z) (s' : kmem) : Prop := {
  gr_tables : tb ⊆ tb';
  gr_new k p : tb' !! k = Some p -> tb !! k = Some p \/ p ∈ l;
  gr_free : l' `suffix_of` l;
  gr_kept p : p ∈ l -> p ∈ l' \/ exists k, tb' !! k = Some p;
  gr_frame a : (forall k p, tb !! k = Some p -> ~ in_page p a) -> (forall p, p ∈ l -> ~ in_page p a) ->
    km_mem s' a = km_mem s a
}.

Definition same_leaves (tb : tables) (s : kmem) (tb' : tables) (s' : kmem) : Prop :=
  forall r v, leaf tb' (km_mem s') r v = leaf tb (km_mem s) r v.

Lemma grows_refl tb l s : grows tb l s tb l s.
Proof. split; auto. Qed.

Lemma grows_trans tb l s tb1 l1 s1 tb2 l2 s2 :
  grows tb l s tb1 l1 s1 -> grows tb1 l1 s1 tb2 l2 s2 -> grows tb l s tb2 l2 s2.
Proof.
  intros [T1 N1 F1 P1 M1] [T2 N2 F2 P2 M2].
  assert (Hin : forall p, p ∈ l1 -> p ∈ l) by (intros p; destruct F1 as [w ->]; set_solver).
  split.
  - by etrans.
  - intros k p [H|H]%N2; auto.
  - by etrans.
  - intros p [Hp|[k Hp]]%P1; [auto|]. right. exists k. by eapply lookup_weaken.
  - intros a Ht Hl. rewrite M2, M1; auto. intros k p [H|H]%N1; eauto.
Qed.

(** ** The walk without allocation *)

Lemma no_table_below tb l s r level v :
  pt_ok tb l s -> (level <= 2)%nat -> tb !! (r, level, prefix level v) = None ->
  tb !! (r, 0%nat, prefix 0 v) = None.
Proof.
  intros Hok. induction level as [|level IH]; intros Hle H; [done|]. apply IH; [lia|].
  destruct (tb !! (r, level, prefix level v)) as [p|] eqn:E; [|done].
  pose proof (pt_parent _ _ _ Hok _ _ _ _ E) as Hp. rewrite decide_True in Hp by lia.
  rewrite <- prefix_S, H in Hp. by destruct Hp.
Qed.

Lemma walk_loop_find tb l s r level p va :
  pt_ok tb l s -> (level <= 2)%nat -> tb !! (r, level, prefix level (vpn va)) = Some p ->
  walk_loop level p va false s = Done (default 0 (slot tb r (vpn va))) s [].
Proof.
  intros Hok. revert p. induction level as [|level IH]; intros p Hle Hp.
  - simpl. unfold slot. rewrite Hp, (PX_vpn 0), Z.div_1_r. done.
  - cbn [walk_loop]. unfold load_pte, kmem_get, gets, bind, ret. simpl.
    pose proof (pt_entry _ _ _ Hok _ _ _ _ (PX (Z.of_nat (S level)) va) Hp
                  ltac:(apply PX_range; lia)) as He.
    rewrite <- prefix_split in He.
    destruct (tb !! (r, level, prefix level (vpn va))) as [q|] eqn:Eq.
    + destruct (pt_page _ _ _ Hok _ _ Eq) as [[Hq Hal]%page_small _].
      destruct (valid_link q ltac:(lia) Hal) as (Hv & Ha & _).
      change (Z.pos (Pos.of_succ_nat level)) with (Z.of_nat (S level)).
      rewrite He, Hv, Ha. rewrite IH by (done || lia). done.
    + change (Z.pos (Pos.of_succ_nat level)) with (Z.of_nat (S level)). rewrite He. simpl.
      unfold slot. by rewrite (no_table_below tb l s r level) by (done || lia).
Qed.

Lemma slot_pos tb l s r v a : pt_ok tb l s -> slot tb r v = Some a -> 0 < a.
Proof.
  intros Hok. unfold slot. destruct (tb !! _) as [p|] eqn:E; [|done]. intros [= <-].
  destruct (pt_page _ _ _ Hok _ _ E) as [[Hp _]%page_small _].
  pose proof (Z.mod_pos_bound v 512). lia.
Qed.

Lemma walk_find tb l s r va :
  pt_ok tb l s -> is_Some (tb !! (r, 2%nat, 0)) -> 0 <= va < MAXVA ->
  walk r va false s = Done (default 0 (slot tb r (vpn va))) s [].
Proof.
  intros Hok [p Hr] Hva. pose proof (vpn_range va Hva). unfold walk. rewrite (proj2 (Z.leb_gt _ _)) by lia.
  pose proof (pt_parent _ _ _ Hok _ _ _ _ Hr) as Hp. rewrite decide_False in Hp by lia. simplify_eq.
  eapply walk_loop_find; [done|lia|]. by rewrite prefix_top by lia.
Qed.

(** ** The walk that allocates *)

Section add_table.
Context (tb : tables) (x : Z) (l : list Z) (s s1 : kmem) (r va p : Z) (level : nat).
Context (Hok : pt_ok tb (x :: l) s) (Hk : kinv l s1) (Hs : same_outside x PGSIZE (km_mem s) (km_mem s1)).
Context (Hlev : (level < 2)%nat) (Hp : tb !! (r, S level, prefix (S level) (vpn va)) = Some p).
Context (Hnone : tb !! (r, level, prefix level (vpn va)) = None).

Let new_key := (r, level, prefix level (vpn va)).
Let index := PX (Z.of_nat (S level)) va.
Let m2 := store64 (memset (km_mem s1) x 0 PGSIZE) (p + 8 * index) (Z.lor (PA2PTE x) PTE_V).
Let tb' := <[new_key := x]> tb.

Lemma new_page_ok : page_ok x /\ x mod PGSIZE = 0 /\ 0 < x < 2 ^ 56.
Proof.
  assert (page_ok x) as Hx by (apply (ki_pages _ _ _ (pt_free _ _ _ Hok)); set_solver).
  split; [done|]. destruct (page_small x Hx). done.
Qed.

Lemma old_page k q : tb !! k = Some q -> q mod PGSIZE = 0 /\ q <> x /\ page_ok q /\ q ∉ l.
Proof.
  intros H. destruct (pt_page _ _ _ Hok _ _ H) as [Hq Hn]. destruct (page_small q Hq) as [_ Hal].
  apply not_elem_of_cons in Hn as [??]. done.
Qed.

Lemma new_mem a : ~ in_page x a -> ~ in_page p a -> m2 a = km_mem s a.
Proof.
  intros Hx Hpa. unfold m2. assert (0 <= index < 512) by (apply PX_range; lia).
  unfold in_page, PGSIZE in *. rewrite store_le_outside by (simpl; lia).
  rewrite memset_outside by lia. apply Hs. unfold PGSIZE. lia.
Qed.

Lemma new_entry_old q j : q mod PGSIZE = 0 -> q <> x -> 0 <= j < 512 ->
  load64 m2 (q + 8 * j) =
    if decide (q = p /\ j = index) then Z.lor (PA2PTE x) PTE_V else load64 (km_mem s) (q + 8 * j).
Proof.
  intros Hq Hne Hj. destruct new_page_ok as (_ & Hxa & Hxr). destruct (old_page _ _ Hp) as (Hpa & _ & _).
  unfold m2. destruct (valid_link x ltac:(lia) Hxa) as (_ & _ & Hv).
  assert (0 <= index < 512) by (apply PX_range; lia).
  rewrite entry_store by (done || lia). case_decide; [done|].
  apply entry_outside; [done|]. intros a Ha.
  destruct (aligned_apart q x Hq Hxa Hne); unfold in_page, PGSIZE in *.
  all: rewrite memset_outside by lia; apply Hs; unfold PGSIZE; lia.
Qed.

Lemma new_entry_zero j : 0 <= j < 512 -> load64 m2 (x + 8 * j) = 0.
Proof.
  intros Hj. destruct new_page_ok as (_ & Hxa & _). destruct (old_page _ _ Hp) as (Hpa & Hpx & _).
  apply entry_zero; [done|]. intros a Ha. unfold m2. assert (0 <= index < 512) by (apply PX_range; lia).
  rewrite store_le_outside.
  - unfold in_page in Ha. by rewrite memset_inside.
  - destruct (aligned_apart p x Hpa Hxa Hpx); unfold in_page, PGSIZE in *; simpl; lia.
Qed.

Lemma new_bytes_ok : bytes_ok m2.
Proof. apply store_le_bytes_ok, memset_bytes_ok; [apply Hk|unfold PGSIZE; lia]. Qed.

Lemma new_free : kinv l (Kmem m2 (km_freelist s1)).
Proof.
  eapply kinv_write; [exact Hk|apply new_bytes_ok|].
  intros y a Hy Ha. destruct new_page_ok as (_ & Hxa & _).
  destruct (old_page _ _ Hp) as (Hpa & _ & _ & Hpl).
  assert (page_ok y) as [_ Hya]%page_small by (apply (ki_pages _ _ _ Hk); done).
  assert (x ∉ l) as Hxl.
  { pose proof (ki_nodup _ _ _ (pt_free _ _ _ Hok)) as Hd. by apply list.NoDup_cons in Hd as [? _]. }
  rewrite new_mem.
  - symmetry. apply Hs. destruct (aligned_apart x y Hxa Hya ltac:(set_solver)); unfold in_page in Ha; lia.
  - intros H. by rewrite (in_page_apart x y a) in Hxl.
  - intros H. by rewrite (in_page_apart p y a) in Hpl.
Qed.

Lemma new_child r' level' v i :
  (r', level', v * 512 + i) = new_key -> 0 <= i < 512 ->
  (r', S level', v) = (r, S level, prefix (S level) (vpn va)) /\ i = index.
Proof.
  unfold new_key. intros [= -> -> E] Hi. rewrite prefix_split in E. fold index in E.
  assert (0 <= index < 512) by (apply PX_range; lia).
  assert (v = prefix (S level) (vpn va)) as -> by lia. split; [done|lia].
Qed.

Lemma add_table_ok : pt_ok tb' l (Kmem m2 (km_freelist s1)).
Proof.
  destruct new_page_ok as (Hx & _). pose proof (ki_nodup _ _ _ (pt_free _ _ _ Hok)) as Hd.
  apply list.NoDup_cons in Hd as [Hxl _]. split.
  - apply new_free.
  - intros k q [[<- <-]|[_ H]]%lookup_insert_Some; [done|]. apply old_page in H. tauto.
  - intros k k' q [[<- <-]|[_ H]]%lookup_insert_Some [[<- H']|[_ H']]%lookup_insert_Some; try done.
    + apply old_page in H'. tauto.
    + apply old_page in H as (_ & Hqx & _). by rewrite H' in Hqx.
    + by eapply (pt_inj _ _ _ Hok).
  - intros r' lev v q [[[= <- <- <-] <-]|[_ H]]%lookup_insert_Some.
    + rewrite decide_True by done. exists p. unfold tb', new_key. rewrite lookup_insert_ne by (intros [=]; lia).
      by rewrite <- prefix_S.
    + pose proof (pt_parent _ _ _ Hok _ _ _ _ H) as G. case_decide; [|done].
      destruct G as [y G]. destruct (decide (new_key = (r', S lev, v / 512))) as [E|];
        [rewrite <- E in G; unfold new_key in G; congruence|]. exists y. unfold tb'. by rewrite lookup_insert_ne.
  - intros r' lev v q i H Hi. simpl. apply lookup_insert_Some in H as [[E <-]|[_ H]].
    + unfold new_key in E. injection E as <- E2 <-. rewrite new_entry_zero by done.
      unfold tb', new_key. rewrite lookup_insert_ne by (intros [=]; lia).
      destruct (tb !! (r, lev, _)) as [y|] eqn:Ey; [|done].
      pose proof (pt_parent _ _ _ Hok _ _ _ _ Ey) as G. rewrite decide_True in G by lia.
      rewrite Z.div_add_l, Z.div_small, Z.add_0_r, <- E2, Hnone in G by lia. by destruct G.
    + destruct (old_page _ _ H) as (Hq & Hqx & _). rewrite new_entry_old by done.
      destruct (decide (new_key = (r', lev, v * 512 + i))) as [E|Hne].
      * unfold tb'. rewrite <- E, lookup_insert_eq. symmetry in E.
        apply new_child in E as [E ->]; [|done]. rewrite E in H. rewrite decide_True by (split; congruence). done.
      * unfold tb'. rewrite lookup_insert_ne by done. rewrite decide_False; [by apply (pt_entry _ _ _ Hok)|].
        intros [-> ->]. pose proof (pt_inj _ _ _ Hok _ _ _ H Hp) as [= -> -> ->].
        apply Hne. unfold new_key, index. by rewrite <- prefix_split.
Qed.

Lemma add_table_grows : grows tb (x :: l) s tb' l (Kmem m2 (km_freelist s1)).
Proof.
  split.
  - by apply insert_subseteq.
  - intros k q [[_ <-]|[_ H]]%lookup_insert_Some; [right; set_solver|by left].
  - by exists [x].
  - intros q [->|Hq]%elem_of_cons; [|by left]. right. exists new_key. apply lookup_insert_eq.
  - intros a Ht Hl. apply new_mem; [apply Hl; set_solver|by eapply Ht].
Qed.
Lemma add_table_leaves : same_leaves tb s tb' (Kmem m2 (km_freelist s1)).
Proof.
  intros r' v. simpl. unfold leaf, slot. pose proof (Z.mod_pos_bound v 512 ltac:(lia)).
  destruct (decide (new_key = (r', 0%nat, prefix 0 v))) as [E|Hne].
  - rewrite <- E. unfold tb'. rewrite lookup_insert_eq, new_entry_zero by done.
    unfold new_key. by rewrite Hnone.
  - unfold tb'. rewrite lookup_insert_ne by done.
    destruct (tb !! (r', 0%nat, prefix 0 v)) as [q|] eqn:Eq; [|done].
    destruct (old_page _ _ Eq) as (Hq & Hqx & _). rewrite new_entry_old by done.
    rewrite decide_False; [done|]. intros [-> _]. pose proof (pt_inj _ _ _ Hok _ _ _ Eq Hp). done.
Qed.
End add_table.

Lemma walk_loop_alloc tb l s r level p va :
  pt_ok tb l s -> (level <= 2)%nat -> tb !! (r, level, prefix level (vpn va)) = Some p ->
  exists a s' tb' l', walk_loop level p va true s = Done a s' [] /\ pt_ok tb' l' s' /\
    grows tb l s tb' l' s' /\ same_leaves tb s tb' s' /\ (a = 0 /\ l' = [] /\ (length l < level)%nat \/
     slot tb' r (vpn va) = Some a /\ (length l <= length l' + level)%nat).
Proof.
  revert tb l s p. induction level as [|level IH]; intros tb l s p Hok Hle Hp.
  - exists (p + 8 * PX 0 va), s, tb, l. split_and!; [done|done|apply grows_refl|done|]. right. split; [|lia].
    unfold slot. rewrite Hp, (PX_vpn 0), Z.div_1_r. done.
  - cbn [walk_loop]. unfold load_pte, kmem_get, gets. rewrite bind_assoc.
    erewrite bind_Done by done. rewrite prepend_nil. erewrite bind_Done by done. rewrite prepend_nil.
    pose proof (pt_entry _ _ _ Hok _ _ _ _ (PX (Z.of_nat (S level)) va) Hp
                  ltac:(apply PX_range; lia)) as He.
    rewrite <- prefix_split in He.
    destruct (tb !! (r, level, prefix level (vpn va))) as [q|] eqn:Eq.
    + destruct (pt_page _ _ _ Hok _ _ Eq) as [[Hq Hal]%page_small _].
      destruct (valid_link q ltac:(lia) Hal) as (Hv & Ha & _).
      rewrite He, Hv, Ha.
      destruct (IH _ _ _ q Hok ltac:(lia) Eq) as (a & s' & tb' & l' & ? & ? & ? & ? & Hc).
      exists a, s', tb', l'. split_and!; [done..|]. destruct Hc as [(? & ? & ?)|[? ?]]; [left|right]; split_and!; (done || lia).
    + rewrite He. cbn [negb].
      pose proof (kalloc_run kend Hend l s (pt_free _ _ _ Hok)) as Hk. destruct l as [|x l].
      * erewrite bind_Done by exact Hk. rewrite prepend_nil. simpl.
        exists 0, s, tb, []. split_and!; [done|done|apply grows_refl|done|left; split_and!; (done || simpl; lia)].
      * destruct Hk as (s1 & E1 & Hk & Hs & _). erewrite bind_Done by exact E1. rewrite prepend_nil.
        assert (level < 2)%nat as Hl2 by lia.
        destruct (new_page_ok tb x l s s1 r va p level Hok Hk Hs Hl2 Hp Eq) as (_ & _ & Hx). rewrite (proj2 (Z.eqb_neq x 0)) by lia.
        pose proof (add_table_ok tb x l s s1 r va p level Hok Hk Hs Hl2 Hp Eq) as Hok2.
        pose proof (add_table_grows tb x l s s1 r va p level Hok Hk Hs Hl2 Hp Eq) as Hg.
        pose proof (add_table_leaves tb x l s s1 r va p level Hok Hk Hs Hl2 Hp Eq) as Hsl.
        unfold store_pte, kmem_put, modify. erewrite bind_Done by done. rewrite prepend_nil.
        erewrite bind_Done by done. rewrite prepend_nil. cbn [km_mem km_freelist].
        destruct (IH _ _ _ x Hok2 ltac:(lia)) as (a & s' & tb' & l' & E & Hok' & Hg' & Hsl' & Ha).
        { by rewrite lookup_insert_eq. }
        exists a, s', tb', l'. split_and!; [done|done|by eapply grows_trans| |].
        { intros r' v'. by rewrite Hsl'. }
        destruct Ha as [(? & ? & ?)|[? ?]]; [left|right]; split_and!; (done || simpl; lia).
Qed.

Lemma walk_alloc tb l s r va :
  pt_ok tb l s -> is_Some (tb !! (r, 2%nat, 0)) -> 0 <= va < MAXVA ->
  exists a s' tb' l', walk r va true s = Done a s' [] /\ pt_ok tb' l' s' /\
    grows tb l s tb' l' s' /\ same_leaves tb s tb' s' /\ (a = 0 /\ l' = [] /\ (length l < 2)%nat \/
     slot tb' r (vpn va) = Some a /\ (length l <= length l' + 2)%nat).
Proof.
  intros Hok [p Hr] Hva. pose proof (vpn_range va Hva). unfold walk. rewrite (proj2 (Z.leb_gt _ _)) by lia.
  pose proof (pt_parent _ _ _ Hok _ _ _ _ Hr) as Hp. rewrite decide_False in Hp by lia. simplify_eq.
  eapply walk_loop_alloc; [done|lia|]. by rewrite prefix_top by lia.
Qed.
End proofs.
