(* ===== verification/VmMap.v ===== *)
(** * kernel/vm.c: mapping and unmapping pages

    What [mappages], [uvmunmap], [uvmalloc] and [uvmcopy] do to the map of
    page table entries [leaf] of PageTable.v. *)

From Stdlib Require Import ZArith Lia.
From stdpp Require Import base list gmap sets strings numbers.
From S2P Require Import Prelude Memory KString Riscv Kalloc Vm PageTable.

#[local] Opaque memset.

(** The entry [mappages] writes. *)
Definition pte_of (pa perm : Z) : Z := Z.lor (Z.lor (PA2PTE pa) perm) PTE_V.

(** Case analysis on which of the pages in question an entry belongs to. *)
Ltac leaf_cases := repeat case_decide; first [done | exfalso; lia | f_equal; unfold PGSIZE; lia].

(** Arithmetic on virtual addresses. *)
Ltac va_lia := change MAXVA with (2 ^ 38) in *; unfold PGSIZE in *; lia.

Section proofs.
Context (kend : Z) (Hend : 0 < kend <= PHYSTOP).
Abbreviation page_ok := (page_ok kend).
Abbreviation kinv := (kinv kend).
Abbreviation pt_ok := (pt_ok kend).

Lemma pte_of_spec pa perm : 0 <= pa < 2 ^ 56 -> pa mod PGSIZE = 0 -> 0 <= perm < 1024 ->
  has (pte_of pa perm) PTE_V = true /\ PTE2PA (pte_of pa perm) = pa /\
  PTE_FLAGS (pte_of pa perm) = Z.lor perm PTE_V /\ 0 <= pte_of pa perm < 2 ^ 54.
Proof.
  intros Hpa Hal Hp. unfold pte_of. rewrite <- Z.lor_assoc.
  assert (0 <= Z.lor perm PTE_V < 1024).
  { split; [apply Z.lor_nonneg; unfold PTE_V; lia|].
    destruct (Z.eq_dec perm 0) as [->|]; [done|].
    apply (Z.log2_lt_pow2 _ 10); [|].
    - pose proof (Z.lor_nonneg perm PTE_V). assert (Z.lor perm PTE_V <> 0); [|unfold PTE_V in *; lia].
      intros [? _]%Z.lor_eq_0_iff. done.
    - rewrite Z.log2_lor by (unfold PTE_V; lia). apply Z.max_lub_lt; [|done].
      apply Z.log2_lt_pow2; lia. }
  destruct (PTE_pack pa (Z.lor perm PTE_V) Hpa Hal ltac:(done)) as (E & F & R).
  split_and!; [|done|done|lia|lia].
  unfold has. destruct (Z.eqb_spec (Z.land (Z.lor (PA2PTE pa) (Z.lor perm PTE_V)) PTE_V) 0) as [E0|]; [|done].
  exfalso. rewrite !Z.land_lor_distr_l in E0. apply Z.lor_eq_0_iff in E0 as [_ E0].
  apply Z.lor_eq_0_iff in E0 as [_ E0]. done.
Qed.

(** ** Writing an entry *)

Lemma slot_inj tb l s r v r' v' a :
  pt_ok tb l s -> slot tb r v = Some a -> slot tb r' v' = Some a -> r' = r /\ v' = v.
Proof.
  intros Hok. unfold slot.
  destruct (tb !! (r, _, _)) as [p|] eqn:E; [|done]. destruct (tb !! (r', _, _)) as [p'|] eqn:E'; [|done].
  intros [= <-] [= Ha].
  destruct (pt_page _ _ _ _ Hok _ _ E) as [[_ Hp]%page_small _]; [|done].
  destruct (pt_page _ _ _ _ Hok _ _ E') as [[_ Hp']%page_small _]; [|done].
  pose proof (Z.mod_pos_bound v 512 ltac:(lia)). pose proof (Z.mod_pos_bound v' 512 ltac:(lia)).
  assert (p' = p) as ->.
  { apply (in_page_apart _ _ (p + 8 * (v mod 512))); [done|done|..]; unfold in_page, PGSIZE; lia. }
  pose proof (pt_inj _ _ _ _ Hok _ _ _ E E') as [= -> Ep]. split; [done|].
  unfold prefix in Ep. change (512 ^ (Z.of_nat 0 + 1)) with 512 in Ep.
  rewrite (Z.div_mod v 512), (Z.div_mod v' 512) by lia. lia.
Qed.

Lemma load_slot_store tb l s r v a e b :
  pt_ok tb l s -> slot tb r v = Some a -> 0 <= e < 2 ^ 64 ->
  (exists k q i, tb !! k = Some q /\ 0 <= i < 512 /\ b = q + 8 * i) ->
  load64 (store64 (km_mem s) a e) b = if decide (b = a) then e else load64 (km_mem s) b.
Proof.
  intros Hok. unfold slot. destruct (tb !! (r, _, _)) as [p|] eqn:E; [|done]. intros [= <-] He (k & q & i & Hq & Hi & ->).
  destruct (pt_page _ _ _ _ Hok _ _ E) as [[_ Hp]%page_small _]; [|done].
  destruct (pt_page _ _ _ _ Hok _ _ Hq) as [[_ Hqa]%page_small _]; [|done].
  pose proof (Z.mod_pos_bound v 512 ltac:(lia)). rewrite entry_store by (done || lia).
  repeat case_decide; try done; [naive_solver lia|]. exfalso.
  assert (q = p); [|naive_solver lia].
  apply (in_page_apart _ _ (p + 8 * (v mod 512))); [done|done|..]; unfold in_page, PGSIZE; lia.
Qed.

Lemma set_leaf tb l s r v a e :
  pt_ok tb l s -> slot tb r v = Some a -> 0 <= e < 2 ^ 64 ->
  let s' := Kmem (store64 (km_mem s) a e) (km_freelist s) in
  pt_ok tb l s' /\ grows tb l s tb l s' /\
  forall r' v', leaf tb (km_mem s') r' v' = if decide (r' = r /\ v' = v) then e else leaf tb (km_mem s) r' v'.
Proof.
  intros Hok Ha He s'. pose proof (load_slot_store tb l s r v a e) as Hld.
  assert (exists p, tb !! (r, 0%nat, prefix 0 v) = Some p /\ a = p + 8 * (v mod 512)) as (p & Hp & Ea).
  { unfold slot in Ha. destruct (tb !! _) as [p|]; [|done]. exists p. by simplify_eq. }
  pose proof (Z.mod_pos_bound v 512 ltac:(lia)).
  assert (Hframe : forall b, ~ in_page p b -> km_mem s' b = km_mem s b).
  { intros b Hb. simpl. apply store_le_outside. unfold in_page, PGSIZE in Hb. simpl. lia. }
  destruct (pt_page _ _ _ _ Hok _ _ Hp) as [[_ Hpal]%page_small Hpl]; [|done].
  split; [|split].
  - split.
    + apply (kinv_write kend Hend); [apply (pt_free _ _ _ _ Hok)|apply store_le_bytes_ok, (ki_bytes _ _ _ (pt_free _ _ _ _ Hok))|].
      intros x b Hx Hb. apply Hframe. intros Hb'. apply Hpl.
      assert (page_ok x) as [_ Hxa]%page_small by (apply (ki_pages _ _ _ (pt_free _ _ _ _ Hok)); done); [|done].
      by rewrite (in_page_apart p x b).
    + apply Hok.
    + apply Hok.
    + apply Hok.
    + intros r' lev w q i Hq Hi. pose proof (pt_entry _ _ _ _ Hok _ _ _ _ i Hq Hi) as G. simpl.
      rewrite Hld by (done || by exists (r', S lev, w), q, i). rewrite decide_False; [done|]. intros Eq.
      destruct (pt_page _ _ _ _ Hok _ _ Hq) as [[_ Hqal]%page_small _]; [|done].
      assert (q = p) as ->.
      { apply (in_page_apart _ _ a); [done|done|..]; unfold in_page, PGSIZE; lia. }
      pose proof (pt_inj _ _ _ _ Hok _ _ _ Hq Hp). done.
  - split; [done|by left|done|by left|]. intros b Hb _. apply Hframe. by eapply Hb.
  - intros r' v'. unfold leaf. destruct (slot tb r' v') as [b|] eqn:Eb.
    + assert (Hb : exists k q i, tb !! k = Some q /\ 0 <= i < 512 /\ b = q + 8 * i).
      { unfold slot in Eb. destruct (tb !! (r', 0%nat, prefix 0 v')) as [q|] eqn:Eq; [|done]. injection Eb as <-.
        exists (r', 0%nat, prefix 0 v'), q, (v' mod 512). split_and!; try done; apply Z.mod_pos_bound; lia. }
      simpl. rewrite Hld by done. destruct (decide (b = a)) as [->|Hne].
      * destruct (slot_inj _ _ _ _ _ _ _ _ Hok Ha Eb) as [-> ->]. by rewrite decide_True.
      * rewrite decide_False; [done|]. intros [-> ->]. congruence.
    + rewrite decide_False; [done|]. intros [-> ->]. congruence.
Qed.

(** ** [mappages] *)

(** The entries after mapping [k] pages from page number [v] to [pa]. *)
Definition map_range (L : Z -> Z -> Z) (r v k pa perm : Z) : Z -> Z -> Z := fun r' v' =>
  if decide (r' = r /\ v <= v' < v + k) then pte_of (pa + (v' - v) * PGSIZE) perm else L r' v'.

Lemma vpn_next va : va mod PGSIZE = 0 -> vpn (va + PGSIZE) = vpn va + 1 /\ (va + PGSIZE) mod PGSIZE = 0.
Proof.
  intros H. unfold vpn. replace (va + PGSIZE) with (va + 1 * PGSIZE) by lia.
  rewrite Z.div_add, Z.mod_add by done. done.
Qed.

(** One page: the entry is found or its tables made, and written. *)
Lemma map_one tb l s r va e (k : M kmem Z) :
  pt_ok tb l s -> is_Some (tb !! (r, 2%nat, 0)) -> 0 <= va < MAXVA -> 0 <= e < 2 ^ 64 ->
  has (leaf tb (km_mem s) r (vpn va)) PTE_V = false ->
  exists s' tb' l', pt_ok tb' l' s' /\ grows tb l s tb' l' s' /\
    let run := (let* pte := walk r va true in
                if pte =? 0 then ret (-1)
                else
                  let* v := load_pte pte in
                  if has v PTE_V then panic "mappages: remap"
                  else store_pte pte e ;;; k) s in
    (run = Done (-1) s' [] /\ l' = [] /\ (length l < 2)%nat /\ same_leaves tb s tb' s' \/
     run = k s' /\ (length l <= length l' + 2)%nat /\
     forall r' v', leaf tb' (km_mem s') r' v' =
       if decide (r' = r /\ v' = vpn va) then e else leaf tb (km_mem s) r' v').
Proof.
  intros Hok Hr Hva He Hinv.
  destruct (walk_alloc kend Hend tb l s r va Hok Hr Hva) as (a & s1 & tb1 & l1 & E & Hok1 & Hg & Hsl & Ha).
  destruct Ha as [(-> & Hl & Hlen)|[Ha Hlen]].
  - exists s1, tb1, l1. split; [done|]. split; [done|]. left.
    erewrite bind_Done by exact E. rewrite prepend_nil. done.
  - destruct (set_leaf tb1 l1 s1 r (vpn va) a e Hok1 Ha He) as (Hok2 & Hg2 & Hleaf).
    eexists _, tb1, l1. split; [exact Hok2|]. split; [by eapply grows_trans|]. right. split; [|split; [done|]].
    + erewrite bind_Done by exact E. rewrite prepend_nil.
      pose proof (slot_pos kend Hend _ _ _ _ _ _ Hok1 Ha). rewrite (proj2 (Z.eqb_neq a 0)) by lia.
      unfold load_pte, kmem_get, gets, store_pte, kmem_put, modify. rewrite bind_assoc.
      erewrite bind_Done by done. rewrite prepend_nil. erewrite bind_Done by done. rewrite prepend_nil.
      specialize (Hsl r (vpn va)). unfold leaf in Hsl at 1. rewrite Ha in Hsl. rewrite Hsl, Hinv.
      erewrite bind_Done by done. by rewrite prepend_nil.
    + intros r' v'. rewrite Hleaf. case_decide; [done|]. apply Hsl.
Qed.

Lemma mappages_loop_S fuel r a last pa perm :
  mappages_loop (S fuel) r a last pa perm =
    (let* pte := walk r a true in
     if pte =? 0 then ret (-1)
     else
       let* v := load_pte pte in
       if has v PTE_V then panic "mappages: remap"
       else
         store_pte pte (pte_of pa perm) ;;;
         if a =? last then ret 0
         else mappages_loop fuel r (u64 (a + PGSIZE)) last (u64 (pa + PGSIZE)) perm).
Proof. done. Qed.

Lemma mappages_loop_run n tb l s r va pa perm :
  pt_ok tb l s -> is_Some (tb !! (r, 2%nat, 0)) -> va mod PGSIZE = 0 -> 0 <= va ->
  va + Z.of_nat (S n) * PGSIZE <= MAXVA ->
  pa mod PGSIZE = 0 -> 0 <= pa -> pa + Z.of_nat (S n) * PGSIZE <= 2 ^ 56 -> 0 <= perm < 1024 ->
  (forall i, 0 <= i < Z.of_nat (S n) -> has (leaf tb (km_mem s) r (vpn va + i)) PTE_V = false) ->
  exists ret s' tb' l' k,
    mappages_loop (S n) r va (va + Z.of_nat n * PGSIZE) pa perm s = Done ret s' [] /\
    pt_ok tb' l' s' /\ grows tb l s tb' l' s' /\
    (ret = 0 /\ k = Z.of_nat (S n) \/
     ret = -1 /\ 0 <= k < Z.of_nat (S n) /\ l' = [] /\ (length l < 2 * S n)%nat) /\
    forall r' v', leaf tb' (km_mem s') r' v' = map_range (leaf tb (km_mem s)) r (vpn va) k pa perm r' v'.
Proof.
  revert tb l s va pa. induction n as [|n IH]; intros tb l s va pa Hok Hr Hva Hva0 Hmax Hpa Hpa0 Hpm Hperm Hinv;
    rewrite mappages_loop_S.
  all: destruct (pte_of_spec pa perm ltac:(unfold PGSIZE in *; lia) Hpa Hperm) as (_ & _ & _ & He).
  all: pose proof (Hinv 0 ltac:(lia)) as Hinv0; rewrite Z.add_0_r in Hinv0.
  all: edestruct (map_one tb l s r va (pte_of pa perm)) as (s1 & tb1 & l1 & Hok1 & Hg1 & [(E & Hl & Hlen & Hsl)|(E & Hlen & Hleaf)]);
    [done|done|unfold PGSIZE in *; lia|lia|done| |]; rewrite E; clear E.
  - exists (-1), s1, tb1, l1, 0. split_and!; [done|done|done|right; split_and!; (done || lia)|].
    intros r' v'. unfold map_range. rewrite decide_False by lia. apply Hsl.
  - rewrite (proj2 (Z.eqb_eq va _)) by lia. exists 0, s1, tb1, l1, 1. split_and!; [done|done|done|left; lia|].
    intros r' v'. rewrite Hleaf. unfold map_range. leaf_cases.
  - exists (-1), s1, tb1, l1, 0. split_and!; [done|done|done|right; split_and!; (done || lia)|].
    intros r' v'. unfold map_range. rewrite decide_False by lia. apply Hsl.
  - rewrite (proj2 (Z.eqb_neq va _)) by (unfold PGSIZE; lia).
    destruct (vpn_next va Hva) as [Ev Ha]. destruct (vpn_next pa Hpa) as [_ Hpa'].
    change MAXVA with (2 ^ 38) in Hmax. rewrite !wrap_small by (unfold PGSIZE in *; lia).
    replace (va + Z.of_nat (S n) * PGSIZE) with (va + PGSIZE + Z.of_nat n * PGSIZE) by lia.
    destruct (IH tb1 l1 s1 (va + PGSIZE) (pa + PGSIZE)) as (rt & s2 & tb2 & l2 & k & E & Hok2 & Hg2 & Hk & Hleaf2);
      try done; try (change MAXVA with (2 ^ 38); unfold PGSIZE in *; lia).
    + destruct Hr as [p0 Hr]. exists p0. eapply lookup_weaken; [done|apply Hg1].
    + intros i Hi. rewrite Ev, Hleaf, decide_False by lia.
      replace (vpn va + 1 + i) with (vpn va + (i + 1)) by lia. apply Hinv. lia.
    + exists rt, s2, tb2, l2, (k + 1). split_and!; [done|done|by eapply grows_trans|destruct Hk as [Hk|(? & ? & ? & ?)]; [left; lia|right; split_and!; (done || lia)]|].
      intros r' v'. rewrite Hleaf2, Ev. unfold map_range. rewrite Hleaf.
      leaf_cases.
Qed.

(** C22: [mappages] installs translations: on page tables that are well formed,
    for a page-aligned range that is not mapped, it makes exactly the
    pages of the range translate to consecutive physical pages with the given
    permissions, in that address space only, and returns 0; when the
    allocator runs out of pages for the tables, which takes at most two for each page
    mapped, it returns -1 with a prefix of the range mapped.  The tables stay well formed, and nothing is written
    but page tables and pages that were free. *)
Theorem mappages_correct tb l s r va size pa perm :
  pt_ok tb l s -> is_Some (tb !! (r, 2%nat, 0)) ->
  va mod PGSIZE = 0 -> size mod PGSIZE = 0 -> pa mod PGSIZE = 0 ->
  0 <= va -> 0 < size -> 0 <= pa -> va + size <= MAXVA -> pa + size <= 2 ^ 56 -> 0 <= perm < 1024 ->
  (forall i, 0 <= i < size / PGSIZE -> has (leaf tb (km_mem s) r (vpn va + i)) PTE_V = false) ->
  exists ret s' tb' l' k,
    mappages r va size pa perm s = Done ret s' [] /\
    pt_ok tb' l' s' /\ grows tb l s tb' l' s' /\
    (ret = 0 /\ k = size / PGSIZE \/
     ret = -1 /\ 0 <= k < size / PGSIZE /\ l' = [] /\ Z.of_nat (length l) < 2 * (size / PGSIZE)) /\
    forall r' v', leaf tb' (km_mem s') r' v' = map_range (leaf tb (km_mem s)) r (vpn va) k pa perm r' v'.
Proof.
  intros Hok Hr Hva Hsz Hpa Hva0 Hsz0 Hpa0 Hmax Hpm Hperm Hinv.
  assert (Es : size = size / PGSIZE * PGSIZE).
  { rewrite Z.mul_comm. rewrite (Z.div_mod size PGSIZE) at 1 by done. rewrite Hsz. lia. }
  unfold mappages. rewrite Hva, Hsz. simpl negb. cbv iota. rewrite (proj2 (Z.eqb_neq size 0)) by lia.
  destruct (Z.to_nat (size / PGSIZE)) as [|n] eqn:En; [unfold PGSIZE in *; lia|].
  assert (En' : size / PGSIZE = Z.of_nat (S n)) by lia. rewrite En' in *.
  change MAXVA with (2 ^ 38) in Hmax.
  rewrite wrap_small by (unfold PGSIZE in *; lia).
  replace (va + size - PGSIZE) with (va + Z.of_nat n * PGSIZE) by lia.
  destruct (mappages_loop_run n tb l s r va pa perm) as (rt & s' & tb' & l' & k & E & Hok' & Hg & Hk & Hleaf);
    try done; [change MAXVA with (2 ^ 38); lia|lia|].
  exists rt, s', tb', l', k. split_and!; [done..| |done].
  destruct Hk as [?|(? & ? & ? & ?)]; [left; lia|right; split_and!; (done || lia)].
Qed.

(** ** A new page table *)

Section new_root.
Context (tb : tables) (x : Z) (l : list Z) (s s1 : kmem).
Context (Hok : pt_ok tb (x :: l) s) (Hk : kinv l s1) (Hs : same_outside x PGSIZE (km_mem s) (km_mem s1)).

Let m2 := memset (km_mem s1) x 0 PGSIZE.
Let tb2 := <[(x, 2%nat, 0) := x]> tb.

Lemma root_page : page_ok x /\ 0 < x < 2 ^ 56 /\ x mod PGSIZE = 0 /\ x ∉ l.
Proof.
  pose proof (pt_free _ _ _ _ Hok) as Hf. assert (page_ok x) as Hx by (apply (ki_pages _ _ _ Hf); left).
  pose proof (ki_nodup _ _ _ Hf) as Hd. apply list.NoDup_cons in Hd as [Hxl _].
  destruct (page_small kend Hend x Hx). done.
Qed.

Lemma root_mem q a : q mod PGSIZE = 0 -> q <> x -> in_page q a -> m2 a = km_mem s a /\ km_mem s1 a = km_mem s a.
Proof.
  intros Hq Hne Ha. destruct root_page as (_ & _ & Hxa & _).
  assert (a < x \/ x + PGSIZE <= a) as Ho
    by (destruct (aligned_apart q x Hq Hxa Hne); unfold in_page in Ha; lia).
  split; [|by apply Hs]. unfold m2. rewrite memset_outside by (unfold PGSIZE; lia || done). by apply Hs.
Qed.

Lemma root_old k q : tb !! k = Some q -> q mod PGSIZE = 0 /\ q <> x /\ page_ok q /\ q ∉ l.
Proof.
  intros Hq. destruct (pt_page _ _ _ _ Hok _ _ Hq) as [Hq1 Hq2].
  destruct (page_small kend Hend q Hq1). apply not_elem_of_cons in Hq2 as []. done.
Qed.

Lemma root_none : tb !! (x, 2%nat, 0) = None.
Proof.
  destruct (tb !! (x, 2%nat, 0)) as [q|] eqn:Eq; [|done].
  pose proof (pt_parent _ _ _ _ Hok _ _ _ _ Eq) as G. simpl in G. injection G as ->.
  apply root_old in Eq. tauto.
Qed.

Lemma root_free : kinv l (Kmem m2 (km_freelist s1)).
Proof.
  apply (kinv_write kend Hend); [done|apply memset_bytes_ok; [apply Hk|unfold PGSIZE; lia]|].
  intros y a Hy Ha. assert (page_ok y) as Hyo by (by apply (ki_pages _ _ _ Hk)).
  destruct (page_small kend Hend y Hyo) as [_ Hya]. destruct root_page as (_ & _ & _ & Hxl).
  destruct (root_mem y a Hya ltac:(congruence) Ha) as [-> ->]. done.
Qed.

Lemma root_entry r lev v q i :
  tb2 !! (r, S lev, v) = Some q -> 0 <= i < 512 ->
  match tb2 !! (r, lev, v * 512 + i) with
  | Some q' => load64 m2 (q + 8 * i) = Z.lor (PA2PTE q') PTE_V
  | None => has (load64 m2 (q + 8 * i)) PTE_V = false
  end.
Proof.
  intros [[[= <- E2 <-] <-]|[_ H]]%lookup_insert_Some Hi; unfold tb2.
  - assert (lev = 1%nat) as -> by lia. rewrite entry_zero; [|done|intros a Ha; by apply memset_inside].
    rewrite lookup_insert_ne by done. destruct (tb !! (x, 1%nat, 0 * 512 + i)) as [y|] eqn:Ey; [|done].
    pose proof (pt_parent _ _ _ _ Hok _ _ _ _ Ey) as G. simpl in G.
    rewrite Z.div_small, root_none in G by lia. by destruct G.
  - destruct (root_old _ _ H) as (Hq & Hqx & _).
    rewrite (entry_outside (km_mem s) m2 q i Hi (fun a Ha => proj1 (root_mem q a Hq Hqx Ha))).
    pose proof (pt_entry _ _ _ _ Hok _ _ _ _ i H Hi) as G.
    rewrite lookup_insert_ne; [done|]. intros [= <- <- E].
    pose proof (pt_parent _ _ _ _ Hok _ _ _ _ H) as G'. simpl in G'. done.
Qed.

Lemma root_ok : pt_ok tb2 l (Kmem m2 (km_freelist s1)).
Proof.
  destruct root_page as (Hx & _ & _ & Hxl). split.
  - apply root_free.
  - intros k q [[<- <-]|[_ H]]%lookup_insert_Some; [done|]. apply root_old in H. tauto.
  - intros k k' q [[<- <-]|[_ H]]%lookup_insert_Some [[<- H']|[_ H']]%lookup_insert_Some; try done.
    + apply root_old in H'. tauto.
    + apply root_old in H as (_ & Hqx & _). by rewrite H' in Hqx.
    + by eapply (pt_inj _ _ _ _ Hok).
  - intros r lev v q [[[= <- <- <-] <-]|[_ H]]%lookup_insert_Some; [done|].
    pose proof (pt_parent _ _ _ _ Hok _ _ _ _ H) as G. case_decide; [|done].
    destruct G as [y G]. destruct (decide ((x, 2%nat, 0) = (r, S lev, v / 512))) as [E|Hne].
    + rewrite <- E, root_none in G. done.
    + exists y. unfold tb2. by rewrite lookup_insert_ne.
  - intros r lev v q i. apply root_entry.
Qed.

Lemma root_grows : grows tb (x :: l) s tb2 l (Kmem m2 (km_freelist s1)).
Proof.
  split.
  - apply insert_subseteq, root_none.
  - intros k q [[_ <-]|[_ H]]%lookup_insert_Some; [right; left|by left].
  - by exists [x].
  - intros q [->|Hq]%elem_of_cons; [|by left]. right. exists (x, 2%nat, 0). apply lookup_insert_eq.
  - intros a _ Hl. simpl. assert (~ in_page x a) as Hn by (apply Hl; left).
    unfold m2, in_page, PGSIZE in *. rewrite memset_outside by lia. apply Hs. unfold PGSIZE. lia.
Qed.

Lemma root_leaves : same_leaves tb s tb2 (Kmem m2 (km_freelist s1)).
Proof.
  intros r v. unfold leaf, slot, tb2. rewrite lookup_insert_ne by congruence.
  destruct (tb !! (r, 0%nat, prefix 0 v)) as [q|] eqn:Eq; [|done]. destruct (root_old _ _ Eq) as (Hq & Hqx & _).
  pose proof (Z.mod_pos_bound v 512 ltac:(lia)).
  apply entry_outside; [done|]. intros a Ha. exact (proj1 (root_mem q a Hq Hqx Ha)).
Qed.
End new_root.

Lemma uvmcreate_run tb x l s :
  pt_ok tb (x :: l) s ->
  exists s', uvmcreate s = Done x s' [] /\ pt_ok (<[(x, 2%nat, 0) := x]> tb) l s' /\
    grows tb (x :: l) s (<[(x, 2%nat, 0) := x]> tb) l s' /\
    same_leaves tb s (<[(x, 2%nat, 0) := x]> tb) s'.
Proof.
  intros Hok. destruct (kalloc_run kend Hend _ s (pt_free _ _ _ _ Hok)) as (s1 & E1 & Hk & Hs & _).
  destruct (root_page tb x l s Hok) as (_ & Hx & _).
  eexists. split_and!; [|by apply (root_ok tb x l s s1)|by apply root_grows|by apply (root_leaves tb x l s s1)].
  unfold uvmcreate. erewrite bind_Done by exact E1. rewrite prepend_nil.
  rewrite (proj2 (Z.eqb_neq x 0)) by lia. done.
Qed.

Lemma pt_ok_empty l s : kinv l s -> pt_ok ∅ l s.
Proof. intros H. by split. Qed.
End proofs.

(** A state with one empty address space: [kinit], then [uvmcreate]. *)
Lemma boot_table (n : Z) : 1 <= n <= 1000 ->
  let kend := PHYSTOP - n * PGSIZE in
  exists s l x, pt_ok kend {[(x, 2%nat, 0) := x]} l s /\ forall r v, leaf {[(x, 2%nat, 0) := x]} (km_mem s) r v = 0.
Proof.
  intros Hn kend. assert (He : 0 < kend <= PHYSTOP) by (unfold kend, PHYSTOP, KERNBASE, PGSIZE; lia).
  destruct (kinit_spec kend He (fun _ => 0)) as (s0 & l & _ & Hi & Hl); [by intros a|].
  assert (kend ∈ l) as Hin.
  { apply Hl. split; [|unfold kend, PGSIZE; lia]. unfold kend.
    replace (PHYSTOP - n * PGSIZE) with (PHYSTOP + - n * PGSIZE) by lia. by rewrite Z.mod_add. }
  destruct l as [|x l]; [by apply not_elem_of_nil in Hin|].
  destruct (uvmcreate_run kend He ∅ x l s0 (pt_ok_empty kend _ _ Hi)) as (s & _ & Hok & _ & Hsl).
  exists s, l, x. split; [done|]. intros r v. by rewrite Hsl.
Qed.

Lemma mappages_correct_witness :
  exists r s ret s', mappages r 4096 8192 KERNBASE (Z.lor PTE_R PTE_W) s = Done ret s' [] /\ (ret = 0 \/ ret = -1).
Proof.
  destruct (boot_table 5 ltac:(lia)) as (s & l & x & Hok & Hz).
  destruct (mappages_correct (PHYSTOP - 5 * PGSIZE) ltac:(unfold PHYSTOP, KERNBASE, PGSIZE; lia)
    {[(x, 2%nat, 0) := x]} l s x 4096 8192 KERNBASE (Z.lor PTE_R PTE_W) Hok)
    as (ret & s' & tb' & l' & k & E & _ & _ & Hk & _).
  - exists x. apply lookup_singleton_eq.
  - reflexivity.
  - reflexivity.
  - reflexivity.
  - lia.
  - lia.
  - unfold KERNBASE. lia.
  - change MAXVA with (2 ^ 38). lia.
  - unfold KERNBASE. lia.
  - change (0 <= 6 < 1024). lia.
  - intros i _. rewrite Hz. reflexivity.
  - exists x, s, ret, s'. split; [exact E|]. destruct Hk as [[-> _]|[-> _]]; [left|right]; reflexivity.
Defined.
