(* ===== verification/VmUser.v ===== *)
(** * User memory

    On top of the page tables of PageTable.v, the pages that hold user memory:
    [own] maps (address space, page number) to the physical page that belongs to it.
    [vm_ok] says that such a page belongs to one page number of one address
    space, and is neither a table nor free, and that every page user code can reach is
    owned.  The functions of kernel/vm.c that allocate, free and copy user memory
    keep it. *)

From Stdlib Require Import ZArith Lia.
From stdpp Require Import base list gmap sets strings numbers.
From S2P Require Import Prelude Memory KString Riscv Kalloc Vm PageTable VmMap.

#[local] Opaque memset memmove.

Abbreviation owners := (gmap (Z * Z) Z).

Section proofs.
Context (kend : Z) (Hend : 0 < kend <= PHYSTOP).
Abbreviation page_ok := (page_ok kend).
Abbreviation kinv := (kinv kend).
Abbreviation pt_ok := (pt_ok kend).

Record vm_ok (tb : tables) (own : owners) (l : list Z) (s : kmem) : Prop := {
  vm_pt : pt_ok tb l s;
  vm_page k pa : own !! k = Some pa -> page_ok pa /\ pa ∉ l;
  vm_table k k' pa : own !! k = Some pa -> tb !! k' = Some pa -> False;
  vm_inj k k' pa : own !! k = Some pa -> own !! k' = Some pa -> k = k';
  vm_leaf r v pa : own !! (r, v) = Some pa ->
    let e := leaf tb (km_mem s) r v in has e PTE_V = true /\ PTE2PA e = pa /\ PTE_FLAGS e <> PTE_V;
  vm_user r v : let e := leaf tb (km_mem s) r v in
    has e PTE_V = true -> has e PTE_U = true -> is_Some (own !! (r, v))
}.

(** A page nobody has. *)
Record fresh (tb : tables) (own : owners) (l : list Z) (x : Z) : Prop := {
  fr_page : page_ok x;
  fr_free : x ∉ l;
  fr_table k : tb !! k <> Some x;
  fr_own k : own !! k <> Some x
}.

Lemma page_aligned x : page_ok x -> x mod PGSIZE = 0.
Proof. intros H. by apply (page_small kend Hend). Qed.

(** A page that is somewhere: free, a table, or user memory. *)
Definition accounted (tb : tables) (own : owners) (l : list Z) (p : Z) : Prop :=
  p ∈ l \/ (exists k, tb !! k = Some p) \/ (exists k, own !! k = Some p).

(** ** Changing one page that is not a table *)

Lemma page_other m m' x p a :
  page_ok x -> page_ok p -> p <> x -> same_outside x PGSIZE m m' -> in_page p a -> m' a = m a.
Proof.
  intros Hx Hp Hne Hs Ha. apply Hs.
  destruct (aligned_apart p x (page_aligned p Hp) (page_aligned x Hx) Hne); unfold in_page in Ha; lia.
Qed.

Lemma pt_other tb l s l' s' x :
  pt_ok tb l s -> kinv l' s' -> page_ok x -> same_outside x PGSIZE (km_mem s) (km_mem s') ->
  (forall k p, tb !! k = Some p -> p <> x /\ p ∉ l') ->
  pt_ok tb l' s' /\ same_leaves tb s tb s'.
Proof.
  intros Hok Hk Hx Hs Ht.
  assert (He : forall k p i, tb !! k = Some p -> 0 <= i < 512 ->
            load64 (km_mem s') (p + 8 * i) = load64 (km_mem s) (p + 8 * i)).
  { intros k p i Hp Hi. apply entry_outside; [done|]. intros a Ha.
    apply (page_other _ _ x p a); [done|apply (pt_page _ _ _ _ Hok _ _ Hp)|by eapply Ht|done|done]. }
  split.
  - split; [done| |apply Hok|apply Hok|].
    + intros k p Hp. split; [apply (pt_page _ _ _ _ Hok _ _ Hp)|by eapply Ht].
    + intros r lev v p i Hp Hi. rewrite (He _ _ _ Hp Hi). by apply (pt_entry _ _ _ _ Hok).
  - intros r v. unfold leaf, slot. destruct (tb !! (r, 0%nat, prefix 0 v)) as [q|] eqn:Eq; [|done].
    apply (He _ _ _ Eq), Z.mod_pos_bound. lia.
Qed.

Lemma vm_other tb own l s l' s' x :
  vm_ok tb own l s -> kinv l' s' -> page_ok x -> same_outside x PGSIZE (km_mem s) (km_mem s') ->
  (forall k p, tb !! k = Some p -> p <> x /\ p ∉ l') -> (forall k pa, own !! k = Some pa -> pa ∉ l') ->
  vm_ok tb own l' s' /\ same_leaves tb s tb s'.
Proof.
  intros Hok Hk Hx Hs Ht Ho.
  destruct (pt_other tb l s l' s' x (vm_pt _ _ _ _ Hok) Hk Hx Hs Ht) as [Hpt Hsl]. split; [|done].
  split; [done| |apply Hok|apply Hok| |].
  - intros k pa Hpa. split; [by apply (vm_page _ _ _ _ Hok _ _ Hpa)|by eapply Ho].
  - intros r v pa Hpa. rewrite Hsl. by apply Hok.
  - intros r v. rewrite Hsl. apply Hok.
Qed.

Lemma vm_write tb own l s x m' :
  vm_ok tb own l s -> bytes_ok m' -> page_ok x -> x ∉ l -> (forall k, tb !! k <> Some x) ->
  same_outside x PGSIZE (km_mem s) m' ->
  let s' := Kmem m' (km_freelist s) in vm_ok tb own l s' /\ same_leaves tb s tb s'.
Proof.
  intros Hok Hb Hx Hxl Hxt Hs s'. pose proof (vm_pt _ _ _ _ Hok) as Hpt. pose proof (pt_free _ _ _ _ Hpt) as Hf.
  apply (vm_other tb own l s l s' x); [done| |done|done| |].
  - apply (kinv_write kend Hend); [done|done|]. intros p a Hp.
    apply (page_other _ _ x); [done|by apply (ki_pages _ _ _ Hf)|congruence|done].
  - intros k p Hp. split; [naive_solver|]. by apply (pt_page _ _ _ _ Hpt _ _ Hp).
  - intros k pa Hpa. by apply (vm_page _ _ _ _ Hok _ _ Hpa).
Qed.

(** The contents of the owned pages. *)
Definition same_data (own : owners) (s s' : kmem) : Prop :=
  forall k pa a, own !! k = Some pa -> in_page pa a -> km_mem s' a = km_mem s a.

Lemma grows_data tb own l s tb' l' s' :
  vm_ok tb own l s -> grows tb l s tb' l' s' -> same_data own s s'.
Proof.
  intros Hok Hg k pa a Hk Ha. pose proof (vm_page _ _ _ _ Hok _ _ Hk) as [Hpa Hl].
  apply (gr_frame _ _ _ _ _ _ Hg).
  - intros k' p Hp Hin. destruct (pt_page _ _ _ _ (vm_pt _ _ _ _ Hok) _ _ Hp) as [Hpo _].
    rewrite <- (in_page_apart pa p a) in Hp by (done || by apply page_aligned).
    by eapply (vm_table _ _ _ _ Hok).
  - intros p Hp Hin. pose proof (ki_pages _ _ _ (pt_free _ _ _ _ (vm_pt _ _ _ _ Hok)) _ Hp) as Hpo.
    by rewrite (in_page_apart pa p a) in Hl by (done || by apply page_aligned).
Qed.

(** ** Taking and returning pages *)

Lemma same_data_other own s s' x :
  (forall k pa, own !! k = Some pa -> page_ok pa /\ pa <> x) -> page_ok x ->
  same_outside x PGSIZE (km_mem s) (km_mem s') -> same_data own s s'.
Proof. intros Ho Hx Hs k pa a Hpa. apply Ho in Hpa as []. by apply (page_other _ _ x). Qed.

Lemma vm_kalloc tb own l s :
  vm_ok tb own l s ->
  match l with
  | [] => kalloc s = Done 0 s []
  | x :: l' => exists s', kalloc s = Done x s' [] /\ vm_ok tb own l' s' /\ fresh tb own l' x /\ x <> 0 /\
      same_leaves tb s tb s' /\ same_data own s s'
  end.
Proof.
  intros Hok. pose proof (vm_pt _ _ _ _ Hok) as Hpt.
  pose proof (kalloc_run kend Hend l s (pt_free _ _ _ _ Hpt)) as Hk.
  destruct l as [|x l]; [done|]. destruct Hk as (s' & E & Hk & Hs & _). exists s'.
  destruct (root_page kend Hend tb x l s Hpt) as (Hx & Hx0 & Hxa & Hxl).
  assert (Ht : forall k p, tb !! k = Some p -> p <> x /\ p ∉ l).
  { intros k p Hp. by destruct (pt_page _ _ _ _ Hpt _ _ Hp) as [_ [??]%not_elem_of_cons]. }
  assert (Ho : forall k pa, own !! k = Some pa -> page_ok pa /\ pa <> x /\ pa ∉ l).
  { intros k p Hp. destruct (vm_page _ _ _ _ Hok _ _ Hp) as [? [??]%not_elem_of_cons]. done. }
  destruct (vm_other tb own (x :: l) s l s' x Hok Hk Hx Hs Ht) as [Hok' Hsl]; [intros k pa; by apply Ho|].
  split_and!; [done|done| |lia|done|].
  - split; [done|done|intros k Hp; by apply Ht in Hp as []|intros k Hp; by apply Ho in Hp as (? & ? & ?)].
  - apply (same_data_other _ _ _ x); [|done|done]. intros k pa Hpa. apply Ho in Hpa. tauto.
Qed.

Lemma vm_kfree tb own l s x :
  vm_ok tb own l s -> fresh tb own l x ->
  exists s', kfree kend x s = Done tt s' [] /\ vm_ok tb own (x :: l) s' /\
    same_leaves tb s tb s' /\ same_data own s s'.
Proof.
  intros Hok [Hx Hxl Hxt Hxo]. pose proof (vm_pt _ _ _ _ Hok) as Hpt.
  destruct (kfree_run kend Hend l s x (pt_free _ _ _ _ Hpt) Hx Hxl) as (s' & E & Hk & Hs). exists s'.
  assert (Ho : forall k pa, own !! k = Some pa -> page_ok pa /\ pa <> x /\ pa ∉ l).
  { intros k pa Hpa. destruct (vm_page _ _ _ _ Hok _ _ Hpa). split_and!; [done|naive_solver|done]. }
  destruct (vm_other tb own l s (x :: l) s' x Hok Hk Hx Hs) as [Hok' Hsl].
  - intros k p Hp. assert (p <> x) by naive_solver. split; [done|]. apply not_elem_of_cons.
    split; [done|]. by apply (pt_page _ _ _ _ Hpt _ _ Hp).
  - intros k pa Hpa. apply Ho in Hpa as (? & ? & ?). by apply not_elem_of_cons.
  - split_and!; [done|done|done|]. apply (same_data_other _ _ _ x); [|done|done].
    intros k pa Hpa. apply Ho in Hpa. tauto.
Qed.

(** ** Mapping a page of one's own *)

Lemma vm_grows tb own l s tb' l' s' :
  vm_ok tb own l s -> pt_ok tb' l' s' -> grows tb l s tb' l' s' -> same_leaves tb s tb' s' ->
  vm_ok tb' own l' s'.
Proof.
  intros Hok Hpt Hg Hsl. split; [done| | |apply Hok| |].
  - intros k pa Hpa. destruct (vm_page _ _ _ _ Hok _ _ Hpa) as [? Hl]. split; [done|].
    destruct (gr_free _ _ _ _ _ _ Hg) as [w ->]. intros Hin. apply Hl, elem_of_app. by right.
  - intros k k' pa Hpa [Hp|Hp]%(gr_new _ _ _ _ _ _ Hg); [by eapply (vm_table _ _ _ _ Hok)|].
    by destruct (vm_page _ _ _ _ Hok _ _ Hpa).
  - intros r v pa Hpa. rewrite Hsl. by apply Hok.
  - intros r v. rewrite Hsl. apply Hok.
Qed.

Lemma vm_map tb own l s tb' l' s' r v x perm :
  vm_ok tb own l s -> fresh tb own l x -> pt_ok tb' l' s' -> grows tb l s tb' l' s' ->
  0 <= perm < 1024 -> Z.lor perm PTE_V <> PTE_V -> has (leaf tb (km_mem s) r v) PTE_V = false ->
  (forall r' v', leaf tb' (km_mem s') r' v' = if decide (r' = r /\ v' = v) then pte_of x perm else leaf tb (km_mem s) r' v') ->
  vm_ok tb' (<[(r, v) := x]> own) l' s'.
Proof.
  intros Hok [Hx Hxl Hxt Hxo] Hpt Hg Hperm Hflag Hinv Hleaf.
  assert (Hl : forall p, p ∈ l' -> p ∈ l).
  { destruct (gr_free _ _ _ _ _ _ Hg) as [w ->]. intros p Hp. apply elem_of_app. by right. }
  destruct (page_small kend Hend x Hx) as [Hx0 Hxa].
  destruct (pte_of_spec x perm ltac:(lia) Hxa Hperm) as (Ev & Epa & Efl & _). split.
  - done.
  - intros k pa [[_ <-]|[_ Hpa]]%lookup_insert_Some; [auto|].
    destruct (vm_page _ _ _ _ Hok _ _ Hpa). auto.
  - intros k k' pa [[_ <-]|[_ Hpa]]%lookup_insert_Some [Hp|Hp]%(gr_new _ _ _ _ _ _ Hg).
    + by apply (Hxt k').
    + done.
    + by eapply (vm_table _ _ _ _ Hok).
    + by destruct (vm_page _ _ _ _ Hok _ _ Hpa).
  - intros k k' pa [[<- <-]|[_ H]]%lookup_insert_Some [[<- H']|[_ H']]%lookup_insert_Some.
    + done.
    + by apply Hxo in H'.
    + subst pa. by apply Hxo in H.
    + by eapply (vm_inj _ _ _ _ Hok).
  - intros r' v' pa [[[= <- <-] <-]|[Hne Hpa]]%lookup_insert_Some; cbv zeta; rewrite Hleaf.
    + rewrite decide_True by done. by rewrite Efl.
    + rewrite decide_False by naive_solver. by apply Hok.
  - intros r' v'. cbv zeta. rewrite Hleaf. destruct (decide (r' = r /\ v' = v)) as [[-> ->]|Hne].
    + intros _ _. rewrite lookup_insert_eq. eauto.
    + intros HV HU. destruct (vm_user _ _ _ _ Hok _ _ HV HU) as [pa Hpa]. exists pa.
      rewrite lookup_insert_ne by naive_solver. done.
Qed.

(** [mappages] of one page that nobody has. *)
Lemma map_owned tb own l s r va x perm :
  vm_ok tb own l s -> fresh tb own l x -> is_Some (tb !! (r, 2%nat, 0)) ->
  va mod PGSIZE = 0 -> 0 <= va -> va + PGSIZE <= MAXVA -> 0 <= perm < 1024 -> Z.lor perm PTE_V <> PTE_V ->
  has (leaf tb (km_mem s) r (vpn va)) PTE_V = false ->
  exists s' tb' l', pt_ok tb' l' s' /\ grows tb l s tb' l' s' /\
    (mappages r va PGSIZE x perm s = Done (-1) s' [] /\ l' = [] /\ (length l < 2)%nat /\ same_leaves tb s tb' s' \/
     mappages r va PGSIZE x perm s = Done 0 s' [] /\ vm_ok tb' (<[(r, vpn va) := x]> own) l' s' /\
     forall r' v', leaf tb' (km_mem s') r' v' =
       if decide (r' = r /\ v' = vpn va) then pte_of x perm else leaf tb (km_mem s) r' v').
Proof.
  intros Hok Hf Hr Hva Hva0 Hmax Hperm Hflag Hinv. pose proof (vm_pt _ _ _ _ Hok) as Hpt.
  destruct (page_small kend Hend x (fr_page _ _ _ _ Hf)) as [Hx0 Hxa].
  assert (x + PGSIZE <= 2 ^ 56).
  { destruct (fr_page _ _ _ _ Hf). unfold PHYSTOP, KERNBASE, PGSIZE in *. lia. }
  destruct (mappages_loop_run kend Hend 0 tb l s r va x perm)
    as (rt & s' & tb' & l' & k & E & Hpt' & Hg & Hk & Hleaf); try done; try lia.
  { intros i Hi. by replace (vpn va + i) with (vpn va) by lia. }
  assert (Em : mappages r va PGSIZE x perm s = Done rt s' []).
  { unfold mappages. rewrite Hva. change (Z.to_nat (PGSIZE / PGSIZE)) with 1%nat.
    change MAXVA with (2 ^ 38) in Hmax. rewrite wrap_small by (unfold PGSIZE in *; lia).
    replace (va + PGSIZE - PGSIZE) with (va + Z.of_nat 0 * PGSIZE) by lia. exact E. }
  exists s', tb', l'. split; [done|]. split; [done|]. rewrite Em.
  assert (Hleaf' : k = 1 -> forall r' v', leaf tb' (km_mem s') r' v' =
    if decide (r' = r /\ v' = vpn va) then pte_of x perm else leaf tb (km_mem s) r' v').
  { intros -> r' v'. rewrite Hleaf. unfold map_range. leaf_cases. }
  destruct Hk as [[-> Hk]|(-> & Hk & -> & Hlen)]; [right|left].
  - split; [done|]. split; [|by apply Hleaf']. eapply vm_map; eauto.
  - split_and!; [done|done|lia|]. intros r' v'. rewrite Hleaf. unfold map_range. rewrite decide_False by lia. done.
Qed.

(** ** [uvmunmap] *)

Lemma fresh_deleted tb own l s k pa :
  vm_ok tb own l s -> own !! k = Some pa -> fresh tb (delete k own) l pa.
Proof.
  intros Hok Hk. destruct (vm_page _ _ _ _ Hok _ _ Hk). split; [done|done| |].
  - intros k' Hk'. by eapply (vm_table _ _ _ _ Hok).
  - intros k' [Hne Hk']%lookup_delete_Some. by apply Hne, (vm_inj _ _ _ _ Hok _ _ pa).
Qed.

(** One page: it is freed and its entry cleared. *)
Lemma unmap_one tb own l s r v pa a (K : M kmem unit) :
  vm_ok tb own l s -> own !! (r, v) = Some pa -> slot tb r v = Some a ->
  exists s', (kfree kend pa ;;; store_pte a 0 ;;; K) s = K s' /\
    vm_ok tb (delete (r, v) own) (pa :: l) s' /\ same_data (delete (r, v) own) s s' /\
    forall r' v', leaf tb (km_mem s') r' v' = if decide (r' = r /\ v' = v) then 0 else leaf tb (km_mem s) r' v'.
Proof.
  intros Hok Hpa Ha. pose proof (fresh_deleted _ _ _ _ _ _ Hok Hpa) as Hf. pose proof (vm_pt _ _ _ _ Hok) as Hpt.
  destruct Hf as [Hx Hxl Hxt Hxo].
  destruct (kfree_run kend Hend l s pa (pt_free _ _ _ _ Hpt) Hx Hxl) as (s1 & E & Hk & Hs).
  assert (Ht : forall k p, tb !! k = Some p -> p <> pa /\ p ∉ pa :: l).
  { intros k p Hp. assert (p <> pa) by naive_solver. split; [done|]. apply not_elem_of_cons.
    split; [done|]. by apply (pt_page _ _ _ _ Hpt _ _ Hp). }
  destruct (pt_other tb l s (pa :: l) s1 pa Hpt Hk Hx Hs Ht) as [Hpt1 Hsl].
  destruct (set_leaf kend Hend tb (pa :: l) s1 r v a 0 Hpt1 Ha ltac:(lia)) as (Hpt2 & Hg & Hleaf).
  set (s2 := Kmem (store64 (km_mem s1) a 0) (km_freelist s1)) in *. exists s2. split_and!.
  - erewrite bind_Done by exact E. rewrite prepend_nil. unfold store_pte, kmem_put, modify.
    erewrite bind_Done by done. by rewrite prepend_nil.
  - split.
    + done.
    + intros k p [Hne Hp]%lookup_delete_Some. destruct (vm_page _ _ _ _ Hok _ _ Hp). split; [done|].
      apply not_elem_of_cons. split; [|done]. intros ->. by apply Hne, (vm_inj _ _ _ _ Hok _ _ pa).
    + intros k k' p [_ Hp]%lookup_delete_Some. by apply (vm_table _ _ _ _ Hok k).
    + intros k k' p [_ Hp]%lookup_delete_Some [_ Hp']%lookup_delete_Some. by eapply (vm_inj _ _ _ _ Hok).
    + intros r' v' p [Hne Hp]%lookup_delete_Some. rewrite Hleaf, decide_False by naive_solver.
      rewrite Hsl. by apply Hok.
    + intros r' v'. cbv zeta. rewrite Hleaf. destruct (decide (r' = r /\ v' = v)) as [|Hne]; [done|].
      rewrite Hsl. intros HV HU. destruct (vm_user _ _ _ _ Hok _ _ HV HU) as [p Hp]. exists p.
      rewrite lookup_delete_ne by naive_solver. done.
  - intros k p b [Hne Hp]%lookup_delete_Some Hb. destruct (vm_page _ _ _ _ Hok _ _ Hp) as [Hpo Hpl].
    assert (p <> pa) by (intros ->; by apply Hne, (vm_inj _ _ _ _ Hok _ _ pa)).
    rewrite (gr_frame _ _ _ _ _ _ Hg b); [by apply (page_other _ _ pa p)|..].
    + intros k' q Hq Hin. rewrite <- (in_page_apart p q b) in Hq;
        [by eapply (vm_table _ _ _ _ Hok)|by apply page_aligned| |done|done].
      apply page_aligned, (pt_page _ _ _ _ Hpt _ _ Hq).
    + intros q [->|Hq]%elem_of_cons Hin.
      * by rewrite (in_page_apart p pa b) in H by (done || by apply page_aligned).
      * apply Hpl. rewrite (in_page_apart p q b); [done|by apply page_aligned| |done|done].
        by apply page_aligned, (ki_pages _ _ _ (pt_free _ _ _ _ Hpt)).
  - intros r' v'. rewrite Hleaf. case_decide; [done|]. apply Hsl.
Qed.

Lemma owned_slot tb own l s r v pa :
  vm_ok tb own l s -> own !! (r, v) = Some pa ->
  exists a, slot tb r v = Some a /\ leaf tb (km_mem s) r v = load64 (km_mem s) a /\ a <> 0.
Proof.
  intros Hok Hpa. destruct (vm_leaf _ _ _ _ Hok _ _ _ Hpa) as [HV _]. unfold leaf in *.
  destruct (slot tb r v) as [a|] eqn:E; [|done]. exists a. split_and!; [done|done|].
  pose proof (slot_pos kend Hend _ _ _ _ _ _ (vm_pt _ _ _ _ Hok) E). lia.
Qed.

Lemma walk_slot tb l s r va a :
  pt_ok tb l s -> is_Some (tb !! (r, 2%nat, 0)) -> 0 <= va < MAXVA -> slot tb r (vpn va) = Some a ->
  walk r va false s = Done a s [].
Proof. intros Hok Hr Hva Ha. rewrite (walk_find kend Hend tb l s r va) by done. by rewrite Ha. Qed.

(** Without the pages from [v] on, [n] of them. *)
Definition unowned (own own' : owners) (r v n : Z) : Prop :=
  forall r' v', own' !! (r', v') = if decide (r' = r /\ v <= v' < v + n) then None else own !! (r', v').

Definition unmapped (tb : tables) (s s' : kmem) (r v n : Z) : Prop :=
  forall r' v', leaf tb (km_mem s') r' v' =
    if decide (r' = r /\ v <= v' < v + n) then 0 else leaf tb (km_mem s) r' v'.

Lemma uvmunmap_loop_run n tb own l s r va :
  vm_ok tb own l s -> is_Some (tb !! (r, 2%nat, 0)) -> va mod PGSIZE = 0 -> 0 <= va ->
  va + Z.of_nat n * PGSIZE <= MAXVA ->
  (forall i, 0 <= i < Z.of_nat n -> is_Some (own !! (r, vpn va + i))) ->
  exists s' own' l', uvmunmap_loop kend (S n) r va (va + Z.of_nat n * PGSIZE) true s = Done tt s' [] /\
    vm_ok tb own' l' s' /\ unowned own own' r (vpn va) (Z.of_nat n) /\ unmapped tb s s' r (vpn va) (Z.of_nat n) /\
    same_data own' s s' /\ l `suffix_of` l' /\ (forall k pa, own !! k = Some pa -> own' !! k = Some pa \/ pa ∈ l').
Proof.
  revert own l s va. induction n as [|n IH]; intros own l s va Hok Hr Hva Hva0 Hmax Hown.
  - exists s, own, l. cbn [uvmunmap_loop]. rewrite (proj2 (Z.ltb_ge _ _)) by lia.
    split_and!; [done|done| | |done|done|by left].
    + intros r' v'. rewrite decide_False by lia. done.
    + intros r' v'. rewrite decide_False by lia. done.
  - remember (S n) as n1 eqn:En. cbn [uvmunmap_loop]. change MAXVA with (2 ^ 38) in Hmax.
    rewrite (proj2 (Z.ltb_lt _ _)) by (unfold PGSIZE; lia).
    destruct (Hown 0 ltac:(lia)) as [pa Hpa]. rewrite Z.add_0_r in Hpa.
    destruct (owned_slot _ _ _ _ _ _ _ Hok Hpa) as (a & Ha & El & Ha0).
    rewrite (bind_Done _ _ _ _ _ _ (walk_slot tb l s r va a (vm_pt _ _ _ _ Hok) Hr
      ltac:(change MAXVA with (2 ^ 38); unfold PGSIZE in *; lia) Ha)), prepend_nil.
    rewrite (proj2 (Z.eqb_neq a 0)) by done.
    unfold load_pte, kmem_get, gets. rewrite bind_assoc.
    erewrite bind_Done by done. rewrite prepend_nil. erewrite bind_Done by done. rewrite prepend_nil.
    destruct (vm_leaf _ _ _ _ Hok _ _ _ Hpa) as (HV & HP & HF). rewrite El in *.
    rewrite HV, (proj2 (Z.eqb_neq _ _) HF), HP. cbn [negb].
    destruct (unmap_one tb own l s r (vpn va) pa a (uvmunmap_loop kend n1 r (u64 (va + PGSIZE))
      (va + Z.of_nat n1 * PGSIZE) true) Hok Hpa Ha) as (s1 & E1 & Hok1 & Hd1 & Hl1).
    rewrite E1. destruct (vpn_next va Hva) as [Ev Hva'].
    rewrite wrap_small by (unfold PGSIZE in *; lia).
    replace (va + Z.of_nat n1 * PGSIZE) with (va + PGSIZE + Z.of_nat n * PGSIZE) by lia. subst n1.
    destruct (IH _ _ s1 (va + PGSIZE) Hok1 Hr Hva') as (s' & own' & l' & E & Hok' & Ho & Hu & Hd & Hl & Hkp);
      [unfold PGSIZE; lia|change MAXVA with (2 ^ 38); unfold PGSIZE in *; lia| |].
    { intros i Hi. rewrite Ev, lookup_delete_ne by (intros [=]; lia).
      replace (vpn va + 1 + i) with (vpn va + (i + 1)) by lia. apply Hown. lia. }
    exists s', own', l'. rewrite Ev in *. split_and!; [done|done| | | | |].
    + intros r' v'. rewrite Ho. destruct (decide ((r', v') = (r, vpn va))) as [[= -> ->]|Hne].
      * rewrite lookup_delete_eq. by repeat case_decide; try lia.
      * rewrite lookup_delete_ne by done. repeat case_decide; try done; exfalso; [lia|].
        apply Hne. f_equal; lia.
    + intros r' v'. rewrite Hu, Hl1. leaf_cases.
    + intros k p b Hp Hb. rewrite (Hd k p b Hp Hb). eapply Hd1; [|done].
      destruct k as [r' v']. rewrite Ho in Hp. case_decide; [done|]. exact Hp.
    + etrans; [|exact Hl]. by exists [pa].
    + intros k p Hp. destruct (decide (k = (r, vpn va))) as [->|Hne].
      * right. destruct Hl as [w ->]. apply elem_of_app. right. simplify_eq. left.
      * apply Hkp. by rewrite lookup_delete_ne.
Qed.

Lemma uvmunmap_run tb own l s r n :
  vm_ok tb own l s -> is_Some (tb !! (r, 2%nat, 0)) -> 0 <= n -> n * PGSIZE <= MAXVA ->
  (forall v, 0 <= v < n -> is_Some (own !! (r, v))) ->
  exists s' own' l', uvmunmap kend r 0 n true s = Done tt s' [] /\
    vm_ok tb own' l' s' /\ unowned own own' r 0 n /\ unmapped tb s s' r 0 n /\
    same_data own' s s' /\ l `suffix_of` l' /\ (forall k pa, own !! k = Some pa -> own' !! k = Some pa \/ pa ∈ l').
Proof.
  intros Hok Hr Hn Hmax Hown. unfold uvmunmap. change (negb (0 mod PGSIZE =? 0)) with false. cbv iota.
  change MAXVA with (2 ^ 38) in Hmax. rewrite wrap_small by (unfold PGSIZE in *; lia).
  pose proof (uvmunmap_loop_run (Z.to_nat n) tb own l s r 0 Hok Hr eq_refl ltac:(lia)) as H.
  change (vpn 0) with 0 in H. rewrite Z2Nat.id in H by done. apply H.
  - change MAXVA with (2 ^ 38). lia.
  - intros i Hi. apply Hown. lia.
Qed.
End proofs.
