(* ===== verification/VmCopy.v ===== *)
(** * kernel/vm.c: copying an address space for fork *)

From Stdlib Require Import ZArith Lia.
From stdpp Require Import base list gmap sets strings numbers.
From S2P Require Import Prelude Memory KString Riscv Kalloc Vm PageTable VmMap VmUser.

#[local] Opaque memset memmove.

Lemma PTE_FLAGS_range e : 0 <= PTE_FLAGS e < 1024.
Proof.
  unfold PTE_FLAGS. change 1023 with (Z.ones 10). rewrite Z.land_ones by lia.
  change 1024 with (2 ^ 10). apply Z.mod_pos_bound. lia.
Qed.

Lemma PTE_FLAGS_valid e : has e PTE_V = true -> Z.lor (PTE_FLAGS e) PTE_V = PTE_FLAGS e.
Proof.
  unfold has, PTE_FLAGS, PTE_V. intros H. apply Z.bits_inj'. intros i Hi. rewrite Z.lor_spec, Z.land_spec.
  destruct (decide (i = 0)) as [->|Hne].
  - change (Z.testbit 1 0) with true. rewrite orb_true_r. change (Z.testbit 1023 0) with true.
    rewrite andb_true_r. symmetry. apply negb_true_iff, Z.eqb_neq in H.
    destruct (Z.testbit e 0) eqn:E; [done|]. exfalso. apply H. apply Z.bits_inj'. intros j Hj.
    rewrite Z.land_spec, Z.bits_0. destruct (decide (j = 0)) as [->|]; [by rewrite E|].
    replace (Z.testbit 1 j) with false; [apply andb_false_r|]. symmetry. apply (Z.bits_above_log2 1 j); simpl; lia.
  - replace (Z.testbit 1 i) with false; [by rewrite orb_false_r|]. symmetry. apply (Z.bits_above_log2 1 i); simpl; lia.
Qed.

Section proofs.
Context (kend : Z) (Hend : 0 < kend <= PHYSTOP).
Abbreviation page_ok := (page_ok kend).
Abbreviation pt_ok := (pt_ok kend).
Abbreviation vm_ok := (vm_ok kend).

(** The state [uvmcopy] starts in, and its arguments: the first [n] pages of
    [old] are to be copied. *)
Context (tb : tables) (own : owners) (l : list Z) (s : kmem) (old new sz n : Z).
Context (Hroot_old : is_Some (tb !! (old, 2%nat, 0))) (Hroot_new : is_Some (tb !! (new, 2%nat, 0))) (Hne : old <> new).
Context (Hn : 0 <= n) (Hsz : n * PGSIZE - PGSIZE < sz <= n * PGSIZE) (Hmax : n * PGSIZE <= MAXVA).
Context (Hold : forall v, 0 <= v < n -> is_Some (own !! (old, v))).
Context (Hnew : forall v, 0 <= v < n -> own !! (new, v) = None /\ leaf tb (km_mem s) new v = 0).

(** After [j] pages. *)
Record copied (j : Z) (tb' : tables) (own' : owners) (s' : kmem) : Prop := {
  cp_tb : tb ⊆ tb';
  cp_own r v : ~ (r = new /\ 0 <= v < j) -> own' !! (r, v) = own !! (r, v);
  cp_leaf r v : ~ (r = new /\ 0 <= v < j) -> leaf tb' (km_mem s') r v = leaf tb (km_mem s) r v;
  cp_new v : 0 <= v < j -> exists pa pa', own !! (old, v) = Some pa /\ own' !! (new, v) = Some pa' /\
    PTE_FLAGS (leaf tb' (km_mem s') new v) = PTE_FLAGS (leaf tb (km_mem s) old v) /\
    forall i, 0 <= i < PGSIZE -> km_mem s' (pa' + i) = km_mem s (pa + i);
  cp_data : same_data own s s'
}.

Lemma copied_keeps j tb' own' s' k pa :
  j <= n -> copied j tb' own' s' -> own !! k = Some pa -> own' !! k = Some pa.
Proof.
  intros Hj Hc Hk. destruct k as [r v]. rewrite (cp_own _ _ _ _ Hc); [done|].
  intros [-> Hv]. destruct (Hnew v ltac:(lia)). congruence.
Qed.

(** Steps that change no translation and no page that is owned. *)
Lemma copied_same j tb' own' s' tb2 s2 :
  j <= n -> copied j tb' own' s' -> tb' ⊆ tb2 -> same_leaves tb' s' tb2 s2 -> same_data own' s' s2 ->
  copied j tb2 own' s2.
Proof.
  intros Hj Hc Htb Hsl Hd. split.
  - etrans; [apply Hc|done].
  - apply Hc.
  - intros r v H. rewrite Hsl. by apply Hc.
  - intros v Hv. destruct (cp_new _ _ _ _ Hc v Hv) as (pa & pa' & H1 & H2 & H3 & H4).
    exists pa, pa'. split_and!; [done|done|by rewrite Hsl|].
    intros i Hi. rewrite <- H4 by done. apply (Hd (new, v) pa'); [done|unfold in_page; lia].
  - intros k pa a Hk Ha. rewrite (Hd k pa a); [|by eapply copied_keeps|done]. by eapply Hc.
Qed.

(** A copy of page [j] is mapped. *)
Lemma copied_step j tb' own' s' tb2 s2 x pa e :
  0 <= j < n -> copied j tb' own' s' -> tb' ⊆ tb2 ->
  own !! (old, j) = Some pa -> PTE_FLAGS e = PTE_FLAGS (leaf tb (km_mem s) old j) ->
  (forall r v, leaf tb2 (km_mem s2) r v = if decide (r = new /\ v = j) then e else leaf tb' (km_mem s') r v) ->
  same_data own' s' s2 ->
  (forall i, 0 <= i < PGSIZE -> km_mem s2 (x + i) = km_mem s (pa + i)) ->
  copied (j + 1) tb2 (<[(new, j) := x]> own') s2.
Proof.
  intros Hj Hc Htb Hpa He Hleaf Hd Hx. split.
  - etrans; [apply Hc|done].
  - intros r v H. rewrite lookup_insert_ne by (intros [=]; lia). apply Hc. lia.
  - intros r v H. rewrite Hleaf, decide_False by lia. apply Hc. lia.
  - intros v Hv. destruct (decide (v = j)) as [->|Hvj].
    + exists pa, x. rewrite lookup_insert_eq, Hleaf, decide_True by done. done.
    + destruct (cp_new _ _ _ _ Hc v ltac:(lia)) as (p & p' & H1 & H2 & H3 & H4).
      exists p, p'. rewrite lookup_insert_ne, Hleaf, decide_False by (lia || (intros [=]; lia)).
      split_and!; [done|done|done|]. intros i Hi. rewrite <- H4 by done.
      apply (Hd (new, v) p'); [done|unfold in_page; lia].
  - intros k p a Hk Ha. rewrite (Hd k p a); [|by eapply (copied_keeps j); [lia|done|]|done]. by eapply Hc.
Qed.

(** No page is lost, apart from those in [xs]. *)
Definition kept (xs : list Z) (tb' : tables) (own' : owners) (l' : list Z) : Prop :=
  forall p, accounted tb own l p -> p ∈ xs \/ accounted tb' own' l' p.

Lemma kept_grows xs tb' own' l' s' tb2 l2 s2 :
  kept xs tb' own' l' -> grows tb' l' s' tb2 l2 s2 -> kept xs tb2 own' l2.
Proof.
  intros Hk Hg p [Hp|[Hp|[[k Hp]|Hp]]]%Hk; [by left|right..].
  - apply (gr_kept _ _ _ _ _ _ Hg) in Hp as [Hp|Hp]; [by left|by right; left].
  - right. left. exists k. eapply lookup_weaken; [done|apply Hg].
  - by right; right.
Qed.

(** Giving the copies back. *)
Lemma copied_undo j tb' own' l' s' :
  0 <= j <= n -> vm_ok tb' own' l' s' -> copied j tb' own' s' -> kept [] tb' own' l' ->
  exists s2 l2, uvmunmap kend new 0 j true s' = Done tt s2 [] /\ vm_ok tb' own l2 s2 /\
    same_leaves tb s tb' s2 /\ same_data own s s2 /\ kept [] tb' own l2.
Proof.
  intros Hj Hok Hc Hkp. pose proof (cp_tb _ _ _ _ Hc) as Htb.
  destruct (uvmunmap_run kend Hend tb' own' l' s' new j Hok) as (s2 & own2 & l2 & E & Hok2 & Ho & Hu & Hd & Hl & Hkl).
  - destruct Hroot_new as [q Hq]. exists q. by eapply lookup_weaken.
  - lia.
  - unfold PGSIZE in *. lia.
  - intros v Hv. destruct (cp_new _ _ _ _ Hc v Hv) as (? & pa' & _ & H & _). by exists pa'.
  - assert (own2 = own) as ->.
    { apply map_eq. intros [r v]. rewrite Ho. case_decide as D; [|by apply Hc].
      destruct D as [-> Hv]. symmetry. apply Hnew. lia. }
    exists s2, l2. split_and!; [done|done| | |].
    3: { intros p [Hp|[Hp|[Hp|[k Hp]]]]%Hkp; [by left|right..].
         - destruct Hl as [w ->]. left. apply elem_of_app. by right.
         - by right; left.
         - apply Hkl in Hp as [Hp|Hp]; [right; right; by exists k|by left]. }
    + intros r v. rewrite Hu. case_decide as D; [|by apply Hc].
      destruct D as [-> Hv]. symmetry. apply Hnew. lia.
    + intros k pa a Hk Ha. rewrite (Hd k pa a Hk Ha). by eapply Hc.
Qed.

Lemma vpn_mul j : vpn (j * PGSIZE) = j /\ (j * PGSIZE) mod PGSIZE = 0.
Proof. unfold vpn. by rewrite Z.div_mul, Z.mod_mul. Qed.

(** The page that was allocated is filled with the contents of page [j] of [old]. *)
Lemma copy_fill j tb' own' l' s' x pa :
  0 <= j < n -> copied j tb' own' s' -> vm_ok tb' own' l' s' -> fresh kend tb' own' l' x ->
  own !! (old, j) = Some pa ->
  let s1 := Kmem (memmove (km_mem s') x pa PGSIZE) (km_freelist s') in
  vm_ok tb' own' l' s1 /\ same_leaves tb' s' tb' s1 /\ copied j tb' own' s1 /\
  forall i, 0 <= i < PGSIZE -> km_mem s1 (x + i) = km_mem s (pa + i).
Proof.
  intros Hj Hc Hok Hf Hpa s1. pose proof Hf as [Hx Hxl Hxt Hxo].
  pose proof (ki_bytes _ _ _ (pt_free _ _ _ _ (vm_pt _ _ _ _ _ Hok))) as Hb.
  assert (Hs : same_outside x PGSIZE (km_mem s') (memmove (km_mem s') x pa PGSIZE)).
  { intros a Ha. rewrite memmove_at by (unfold PGSIZE; lia). repeat case_bool; lia || done. }
  destruct (vm_write kend Hend tb' own' l' s' x _ Hok (memmove_bytes_ok _ x pa PGSIZE Hb ltac:(unfold PGSIZE; lia))
    Hx Hxl Hxt Hs) as [Hok1 Hsl].
  split_and!; [done|done| |].
  - eapply copied_same; [|exact Hc|done|exact Hsl|]; [lia|].
    apply (same_data_other kend Hend _ _ _ x); [|done|done].
    intros k p Hp. split; [by apply (vm_page _ _ _ _ _ Hok _ _ Hp)|]. intros ->. by apply (Hxo k).
  - intros i Hi. simpl. rewrite memmove_at by (unfold PGSIZE; lia). repeat case_bool; try lia.
    simpl. replace (pa + (x + i - x)) with (pa + i) by lia.
    apply (cp_data _ _ _ _ Hc (old, j) pa); [done|unfold in_page; lia].
Qed.

(** The entry of the page to copy is found. *)
Lemma copy_entry j tb' own' l' s' pa (K : Z -> M kmem Z) :
  0 <= j < n -> vm_ok tb' own' l' s' -> copied j tb' own' s' -> own !! (old, j) = Some pa ->
  (let* pte := walk old (j * PGSIZE) false in
   if pte =? 0 then panic "uvmcopy: pte should exist"
   else
     let* v := load_pte pte in
     if negb (has v PTE_V) then panic "uvmcopy: page not present" else K v) s' =
    K (leaf tb (km_mem s) old j) s' /\
  has (leaf tb (km_mem s) old j) PTE_V = true /\ PTE2PA (leaf tb (km_mem s) old j) = pa /\
  PTE_FLAGS (leaf tb (km_mem s) old j) <> PTE_V.
Proof.
  intros Hj Hok Hc Hpa. destruct (vpn_mul j) as [Ev _].
  assert (Hpa' : own' !! (old, j) = Some pa) by (eapply (copied_keeps j); [lia|done|done]).
  destruct (owned_slot kend Hend _ _ _ _ _ _ _ Hok Hpa') as (a & Ha & El & Ha0).
  destruct (vm_leaf _ _ _ _ _ Hok _ _ _ Hpa') as (HV & HP & HF).
  rewrite (cp_leaf _ _ _ _ Hc old j) in * by (intros [? _]; congruence).
  split_and!; [|done|done|done]. rewrite <- Ev in Ha.
  assert (is_Some (tb' !! (old, 2%nat, 0))) as Hr'.
  { destruct Hroot_old as [q Hq]. exists q. eapply lookup_weaken; [done|apply Hc]. }
  rewrite (bind_Done _ _ _ _ _ _ (walk_slot kend Hend tb' l' s' old (j * PGSIZE) a (vm_pt _ _ _ _ _ Hok) Hr'
    ltac:(va_lia) Ha)), prepend_nil, (proj2 (Z.eqb_neq a 0)) by done.
  unfold load_pte, kmem_get, gets. rewrite bind_assoc.
  erewrite bind_Done by done. rewrite prepend_nil. erewrite bind_Done by done. rewrite prepend_nil.
  rewrite <- El, HV. done.
Qed.

(** A page nobody has is left alone by the functions that map pages. *)
Lemma fresh_frame tb' own' l' s' tb2 l2 s2 x i :
  vm_ok tb' own' l' s' -> fresh kend tb' own' l' x -> grows tb' l' s' tb2 l2 s2 -> 0 <= i < PGSIZE ->
  km_mem s2 (x + i) = km_mem s' (x + i).
Proof.
  intros Hok Hf Hg Hi. pose proof (page_aligned kend Hend x (fr_page _ _ _ _ _ Hf)) as Hxa.
  pose proof (vm_pt _ _ _ _ _ Hok) as Hpt. assert (in_page x (x + i)) by (unfold in_page; lia).
  apply (gr_frame _ _ _ _ _ _ Hg).
  - intros k p Hp Hin. apply (fr_table _ _ _ _ _ Hf k). rewrite (in_page_apart x p (x + i)); try done.
    eapply page_aligned; [done|]. apply (pt_page _ _ _ _ Hpt _ _ Hp).
  - intros p Hp Hin. apply (fr_free _ _ _ _ _ Hf). rewrite (in_page_apart x p (x + i)); try done.
    eapply page_aligned; [done|]. apply (ki_pages _ _ _ (pt_free _ _ _ _ Hpt) _ Hp).
Qed.

Lemma fresh_grows tb' own' l' s' tb2 l2 s2 x :
  fresh kend tb' own' l' x -> grows tb' l' s' tb2 l2 s2 -> l2 = [] -> fresh kend tb2 own' l2 x.
Proof.
  intros [H1 H2 H3 H4] Hg ->. split; [done|apply not_elem_of_nil| |done].
  intros k [Hk|Hk]%(gr_new _ _ _ _ _ _ Hg); [by apply (H3 k)|done].
Qed.

(** The filled page is mapped, or given back when there is no room for tables. *)
Lemma copy_map j tb' own' l' s' x pa (K : M kmem Z) :
  0 <= j < n -> vm_ok tb' own' l' s' -> copied j tb' own' s' -> fresh kend tb' own' l' x ->
  own !! (old, j) = Some pa -> (forall i, 0 <= i < PGSIZE -> km_mem s' (x + i) = km_mem s (pa + i)) ->
  let fl := PTE_FLAGS (leaf tb (km_mem s) old j) in
  Z.lor fl PTE_V = fl -> fl <> PTE_V -> kept [x] tb' own' l' ->
  let run :=
    (let* r := mappages new (j * PGSIZE) PGSIZE x fl in
     if negb (r =? 0) then kfree kend x ;;; uvmunmap kend new 0 j true ;;; ret (-1) else K) s' in
  exists s2 tb2 own2 l2, vm_ok tb2 own2 l2 s2 /\ kept [] tb2 own2 l2 /\
    (run = (uvmunmap kend new 0 j true ;;; ret (-1)) s2 /\ copied j tb2 own2 s2 \/
     run = K s2 /\ copied (j + 1) tb2 own2 s2).
Proof.
  intros Hj Hok Hc Hf Hpa Hx fl Hlf Hfl Hkp run. destruct (vpn_mul j) as [Ev Hal].
  change MAXVA with (2 ^ 38) in Hmax.
  destruct (map_owned kend Hend tb' own' l' s' new (j * PGSIZE) x fl Hok Hf) as
    (s3 & tb3 & l3 & Hpt3 & Hg & [(E3 & Hl3 & _ & Hsl3)|(E3 & Hok3 & Hl3)]); rewrite ?Ev in *.
  { destruct Hroot_new as [q Hq]. exists q. eapply lookup_weaken; [done|apply Hc]. }
  { done. } { unfold PGSIZE. lia. } { change MAXVA with (2 ^ 38). unfold PGSIZE in *. lia. }
  { apply PTE_FLAGS_range. } { congruence. }
  { rewrite (cp_leaf _ _ _ _ Hc) by lia. by rewrite (proj2 (Hnew j Hj)). }
  - pose proof (vm_grows kend tb' own' l' s' tb3 l3 s3 Hok Hpt3 Hg Hsl3) as Hok3.
    pose proof (grows_data kend Hend tb' own' l' s' tb3 l3 s3 Hok Hg) as Hd3.
    destruct (vm_kfree kend Hend tb3 own' l3 s3 x Hok3 (fresh_grows _ _ _ _ _ _ _ _ Hf Hg Hl3))
      as (s4 & E4 & Hok4 & Hsl4 & Hd4).
    pose proof (kept_grows _ _ _ _ _ _ _ _ Hkp Hg) as Hkp3.
    exists s4, tb3, own', (x :: l3). split; [done|]. split.
    { intros p [->%list_elem_of_singleton|[Hp|Hp]]%Hkp3; right; [left; left|left; by right|by right]. }
    left. split.
    + unfold run. rewrite (bind_Done _ _ _ _ _ _ E3), prepend_nil.
      change (negb (-1 =? 0)) with true. cbv iota. by rewrite (bind_Done _ _ _ _ _ _ E4), prepend_nil.
    + pose proof (copied_same j _ _ _ tb3 s3 ltac:(lia) Hc (gr_tables _ _ _ _ _ _ Hg) Hsl3 Hd3) as Hc3.
      exact (copied_same j _ _ _ tb3 s4 ltac:(lia) Hc3 ltac:(done) Hsl4 Hd4).
  - exists s3, tb3, (<[(new, j) := x]> own'), l3. split; [done|]. split.
    { assert (Hk0 : forall k p, own' !! k = Some p -> <[(new, j) := x]> own' !! k = Some p).
      { intros k p Hp. rewrite lookup_insert_ne; [done|]. intros <-.
        rewrite (cp_own _ _ _ _ Hc) in Hp by lia. destruct (Hnew j Hj). congruence. }
      intros p [->%list_elem_of_singleton|[Hp|[Hp|[k Hp]]]]%(kept_grows _ _ _ _ _ _ _ _ Hkp Hg); right.
      - right. right. exists (new, j). apply lookup_insert_eq.
      - by left.
      - by right; left.
      - right. right. exists k. by apply Hk0. }
    right. split.
    + unfold run. by rewrite (bind_Done _ _ _ _ _ _ E3), prepend_nil.
    + eapply (copied_step j tb' own' s'); [done|exact Hc|apply Hg|exact Hpa| |exact Hl3| |].
      * destruct (page_small kend Hend x (fr_page _ _ _ _ _ Hf)) as [? ?].
        destruct (pte_of_spec x fl ltac:(lia) ltac:(done) (PTE_FLAGS_range _)) as (_ & _ & -> & _). done.
      * by eapply grows_data.
      * intros i Hi. rewrite <- Hx by done. by eapply fresh_frame.
Qed.

Lemma uvmcopy_loop_run k j tb' own' l' s' :
  n = j + Z.of_nat k -> 0 <= j -> vm_ok tb' own' l' s' -> copied j tb' own' s' -> kept [] tb' own' l' ->
  exists ret s2 tb2 own2 l2, uvmcopy_loop kend (S k) old new sz (j * PGSIZE) s' = Done ret s2 [] /\
    vm_ok tb2 own2 l2 s2 /\ kept [] tb2 own2 l2 /\
    (ret = 0 /\ copied n tb2 own2 s2 \/
     ret = -1 /\ own2 = own /\ same_leaves tb s tb2 s2 /\ same_data own s s2).
Proof.
  revert j tb' own' l' s'. induction k as [|k IH]; intros j tb' own' l' s' Hk Hj Hok Hc Hkp.
  - cbn [uvmcopy_loop]. rewrite (proj2 (Z.ltb_ge _ _)) by lia. replace n with j in * by lia.
    exists 0, s', tb', own', l'. auto 6.
  - remember (S k) as k1. cbn [uvmcopy_loop]. rewrite (proj2 (Z.ltb_lt _ _)) by (unfold PGSIZE in *; lia).
    destruct (Hold j ltac:(lia)) as [pa Hpa]. change MAXVA with (2 ^ 38) in Hmax.
    destruct (copy_entry j tb' own' l' s' pa (fun v =>
         let* page := kalloc in
         if page =? 0 then uvmunmap kend new 0 (j * PGSIZE / PGSIZE) true ;;; ret (-1)
         else
           kmem_put (fun m => memmove m page (PTE2PA v) PGSIZE) ;;;
           let* r := mappages new (j * PGSIZE) PGSIZE page (PTE_FLAGS v) in
           if negb (r =? 0) then
             kfree kend page ;;; uvmunmap kend new 0 (j * PGSIZE / PGSIZE) true ;;; ret (-1)
           else uvmcopy_loop kend k1 old new sz (u64 (j * PGSIZE + PGSIZE)))) as (E & HV & HP & HF); try done; [lia|].
    rewrite E. clear E. rewrite HP, Z.div_mul by done. pose proof (PTE_FLAGS_valid _ HV) as Hlf.
    assert (G : exists s2 tb2 own2 l2, vm_ok tb2 own2 l2 s2 /\ kept [] tb2 own2 l2 /\
      let run := (let* page := kalloc in
         if page =? 0 then uvmunmap kend new 0 j true ;;; ret (-1)
         else
           kmem_put (fun m => memmove m page pa PGSIZE) ;;;
           let* r := mappages new (j * PGSIZE) PGSIZE page (PTE_FLAGS (leaf tb (km_mem s) old j)) in
           if negb (r =? 0) then kfree kend page ;;; uvmunmap kend new 0 j true ;;; ret (-1)
           else uvmcopy_loop kend k1 old new sz (u64 (j * PGSIZE + PGSIZE))) s' in
      (run = (uvmunmap kend new 0 j true ;;; ret (-1)) s2 /\ copied j tb2 own2 s2 \/
       run = uvmcopy_loop kend k1 old new sz (u64 (j * PGSIZE + PGSIZE)) s2 /\ copied (j + 1) tb2 own2 s2)).
    { pose proof (vm_kalloc kend Hend tb' own' l' s' Hok) as Ha. destruct l' as [|x l1].
      { exists s', tb', own', []. split; [done|]. split; [done|]. left. by rewrite (bind_Done _ _ _ _ _ _ Ha), prepend_nil. }
      destruct Ha as (s1 & E1 & Hok1 & Hf & Hx0 & Hsl1 & Hd1).
      pose proof (copied_same j _ _ _ tb' s1 ltac:(lia) Hc ltac:(done) Hsl1 Hd1) as Hc1.
      destruct (copy_fill j tb' own' l1 s1 x pa ltac:(lia) Hc1 Hok1 Hf Hpa) as (Hok2 & _ & Hc2 & Hx).
      cbv zeta. rewrite (bind_Done _ _ _ _ _ _ E1), prepend_nil, (proj2 (Z.eqb_neq x 0)) by done.
      unfold kmem_put, modify. erewrite bind_Done by done. rewrite prepend_nil.
      apply (copy_map j tb' own' l1 _ x pa); try done; [lia|].
      intros p [Hp|[[->|Hp]%elem_of_cons|Hp]]%Hkp; [by apply not_elem_of_nil in Hp|left; left|right; by left|right; by right]. }
    destruct G as (s2 & tb2 & own2 & l2 & Hok2 & Hkp2 & [(-> & Hc2)|(-> & Hc2)]).
    + destruct (copied_undo j tb2 own2 l2 s2 ltac:(lia) Hok2 Hc2 Hkp2) as (s3 & l3 & E3 & Hok3 & Hsl3 & Hd3 & Hkp3).
      exists (-1), s3, tb2, own, l3. rewrite (bind_Done _ _ _ _ _ _ E3), prepend_nil.
      split; [done|]. split; [done|]. split; [done|]. right. done.
    + rewrite wrap_small by (unfold PGSIZE in *; lia).
      replace (j * PGSIZE + PGSIZE) with ((j + 1) * PGSIZE) by lia. subst k1.
      apply (IH (j + 1) tb2 own2 l2); [lia|lia|done|done|done].
Qed.
End proofs.

(** C3: [fork] gives the child a copy of the memory: on well-formed page tables,
    [uvmcopy] of an address space whose first [n] pages are present into one
    where they are not returns 0 with every page of the child in a page of its
    own that has the same permissions and the same bytes as the parent's; when the
    allocator runs out it returns -1, and every page taken for user memory has been given
    back and every translation is as before: no page is ever lost.  In both cases the memory and the
    translations of the parent and of all other address spaces are
    unchanged. *)
Theorem uvmcopy_correct kend tb own l s old new sz n :
  0 < kend <= PHYSTOP -> vm_ok kend tb own l s ->
  is_Some (tb !! (old, 2%nat, 0)) -> is_Some (tb !! (new, 2%nat, 0)) -> old <> new ->
  0 <= n -> n * PGSIZE - PGSIZE < sz <= n * PGSIZE -> n * PGSIZE <= MAXVA ->
  (forall v, 0 <= v < n -> is_Some (own !! (old, v))) ->
  (forall v, 0 <= v < n -> own !! (new, v) = None /\ leaf tb (km_mem s) new v = 0) ->
  exists ret s' tb' own' l', uvmcopy kend old new sz s = Done ret s' [] /\ vm_ok kend tb' own' l' s' /\
    (forall p, accounted tb own l p -> accounted tb' own' l' p) /\
    (ret = 0 /\ copied tb own s old new n tb' own' s' \/
     ret = -1 /\ own' = own /\ same_leaves tb s tb' s' /\ same_data own s s').
Proof.
  intros He Hok Hro Hrn Hne Hn Hsz Hmax Hold Hnew.
  destruct (uvmcopy_loop_run kend He tb own l s old new sz n Hro Hrn Hne Hn Hsz Hmax Hold Hnew
    (Z.to_nat n) 0 tb own l s ltac:(lia) ltac:(lia) Hok) as (rt & s' & tb' & own' & l' & E & Hok' & Hkp & Hrt).
  { split; [done|done|done|intros v Hv; lia|by intros k pa a]. }
  { by right. }
  exists rt, s', tb', own', l'. split; [|split_and!; [done| |done]].
  2: { intros p [Hp|Hp]%Hkp; [by apply not_elem_of_nil in Hp|done]. }
  rewrite <- E. unfold uvmcopy. replace ((sz + PGSIZE - 1) / PGSIZE) with n; [done|].
  unfold PGSIZE in *. apply Z.div_unique with (sz + 4096 - 1 - 4096 * n); lia.
Qed.

Lemma pte_of_has x perm f : Z.land perm f <> 0 -> has (pte_of x perm) f = true.
Proof.
  intros H. unfold has, pte_of. rewrite (Z.land_lor_distr_l _ PTE_V), (Z.land_lor_distr_l (PA2PTE x)).
  apply negb_true_iff, Z.eqb_neq. intros [[_ E]%Z.lor_eq_0_iff _]%Z.lor_eq_0_iff. done.
Qed.

(** Two address spaces after boot, the first with one page. *)
Lemma boot_spaces :
  let kend := PHYSTOP - 20 * PGSIZE in
  exists tb own l s old new, vm_ok kend tb own l s /\
    is_Some (tb !! (old, 2%nat, 0)) /\ is_Some (tb !! (new, 2%nat, 0)) /\ old <> new /\
    is_Some (own !! (old, 0)) /\ has (leaf tb (km_mem s) old 0) PTE_U = true /\
    has (leaf tb (km_mem s) old 0) PTE_W = true /\
    forall v, own !! (new, v) = None /\ leaf tb (km_mem s) new v = 0.
Proof.
  intros kend. assert (He : 0 < kend <= PHYSTOP) by (unfold kend, PHYSTOP, KERNBASE, PGSIZE; lia).
  destruct (kinit_spec kend He (fun _ => 0)) as (s0 & l0 & _ & Hi & Hl); [by intros a|].
  assert (Hlen : (20 <= length l0)%nat).
  { transitivity (length ((fun i => kend + i * PGSIZE) <$> seqZ 0 20)); [by rewrite length_fmap, length_seqZ|].
    apply submseteq_length, NoDup_submseteq.
    - apply NoDup_fmap_2; [|apply NoDup_seqZ]. intros i j Hij. unfold PGSIZE in Hij. lia.
    - intros p [i [-> Hi0%elem_of_seqZ]]%list_elem_of_fmap. apply Hl. split.
      + unfold kend. replace (PHYSTOP - 20 * PGSIZE + i * PGSIZE) with (PHYSTOP + (i - 20) * PGSIZE) by lia.
        by rewrite Z.mod_add.
      + unfold kend, PGSIZE. lia. }
  destruct l0 as [|old [|new [|x l]]]; simpl in Hlen; try lia.
  destruct (uvmcreate_run kend He ∅ old _ s0 (pt_ok_empty kend _ _ Hi)) as (s1 & _ & Hok1 & _ & Hsl1).
  destruct (uvmcreate_run kend He _ new _ s1 Hok1) as (s2 & _ & Hok2 & _ & Hsl2).
  set (tb := <[(new, 2%nat, 0) := new]> (<[(old, 2%nat, 0) := old]> ∅)) in *.
  assert (Hz : forall r v, leaf tb (km_mem s2) r v = 0) by (intros r v; by rewrite Hsl2, Hsl1).
  assert (Hvm : vm_ok kend tb ∅ (x :: l) s2) by (split; [done..|intros r v; by rewrite Hz]).
  assert (Hon : old <> new).
  { pose proof (ki_nodup _ _ _ Hi) as Hd. apply list.NoDup_cons in Hd as [Hd _].
    apply not_elem_of_cons in Hd as [Hd _]. done. }
  destruct (vm_kalloc kend He tb ∅ (x :: l) s2 Hvm) as (s3 & _ & Hok3 & Hf & _ & Hsl3 & _).
  destruct (map_owned kend He tb ∅ l s3 old 0 x (Z.lor (Z.lor PTE_R PTE_W) PTE_U) Hok3 Hf)
    as (s4 & tb4 & l4 & _ & Hg & [(_ & _ & Hc & _)|(_ & Hok4 & Hl4)]); try done.
  - exists old. unfold tb. rewrite lookup_insert_ne by congruence. apply lookup_insert_eq.
  - by rewrite Hsl3, Hz.
  - exfalso. lia.
  - change (vpn 0) with 0 in *.
    assert (Hr : forall r, is_Some (tb !! (r, 2%nat, 0)) -> is_Some (tb4 !! (r, 2%nat, 0))).
    { intros r [q Hq]. exists q. eapply lookup_weaken; [done|apply Hg]. }
    destruct (page_small kend He x (fr_page _ _ _ _ _ Hf)) as [_ Hxa].
    exists tb4, (<[(old, 0) := x]> ∅), l4, s4, old, new. split_and!; [done|..].
    + apply Hr. exists old. unfold tb. rewrite lookup_insert_ne by congruence. apply lookup_insert_eq.
    + apply Hr. exists new. apply lookup_insert_eq.
    + done.
    + exists x. apply lookup_insert_eq.
    + rewrite Hl4, decide_True by done. by apply pte_of_has.
    + rewrite Hl4, decide_True by done. by apply pte_of_has.
    + intros v. rewrite lookup_insert_ne by (intros [=]; congruence). split; [done|].
      rewrite Hl4, decide_False by (intros [? _]; congruence). by rewrite Hsl3, Hz.
Qed.

Lemma uvmcopy_correct_witness :
  exists kend old new s ret s', old <> new /\ uvmcopy kend old new 100 s = Done ret s' [] /\ (ret = 0 \/ ret = -1).
Proof.
  destruct boot_spaces as (tb & own & l & s & old & new & Hok & Hro & Hrn & Hne & [pa Ho] & _ & _ & Hn).
  destruct (uvmcopy_correct (PHYSTOP - 20 * PGSIZE) tb own l s old new 100 1) as (ret & s' & ? & ? & ? & E & _ & _ & Hr).
  - unfold PHYSTOP, KERNBASE, PGSIZE. lia.
  - exact Hok.
  - exact Hro.
  - exact Hrn.
  - exact Hne.
  - lia.
  - unfold PGSIZE. lia.
  - change MAXVA with (2 ^ 38). unfold PGSIZE. lia.
  - intros v Hv. replace v with 0 by lia. exists pa. exact Ho.
  - intros v Hv. apply Hn.
  - exists (PHYSTOP - 20 * PGSIZE), old, new, s, ret, s'. split; [exact Hne|]. split; [exact E|].
    destruct Hr as [[-> _]|[-> _]]; [left|right]; reflexivity.
Defined.
