(* ===== verification/VmAccess.v ===== *)
(** * kernel/vm.c: the kernel's access to user memory

    [ubyte] is the byte user code of an address space finds at an address.
    [copyout] and [copyin], which go through the page tables by hand, write and
    read exactly these bytes. *)

From Stdlib Require Import ZArith Lia.
From stdpp Require Import base list gmap sets strings numbers.
From S2P Require Import Prelude Memory KString Riscv Kalloc Vm PageTable VmMap VmUser VmCopy.

Definition readable (e : Z) : bool := has e PTE_V && has e PTE_U.
Definition writable (e : Z) : bool := has e PTE_V && has e PTE_U && has e PTE_W.

Definition ubyte (tb : tables) (s : kmem) (r a : Z) : option Z :=
  let e := leaf tb (km_mem s) r (vpn a) in
  if readable e then Some (km_mem s (PTE2PA e + a mod PGSIZE)) else None.

(** The bytes user code finds after [bs] is written at [a]. *)
Definition write_range (U : Z -> Z -> option Z) (r a : Z) (bs : list Z) : Z -> Z -> option Z := fun r' a' =>
  if decide (r' = r /\ a <= a' < a + Z.of_nat (length bs)) then bs !! Z.to_nat (a' - a) else U r' a'.

Lemma store_bytes_at m a l x :
  store_bytes m a l x = if decide (a <= x < a + Z.of_nat (length l)) then default 0 (l !! Z.to_nat (x - a)) else m x.
Proof.
  case_decide as H; [|apply store_bytes_outside; lia].
  pose proof (load_store_bytes m a l) as E. apply (f_equal (lookup (Z.to_nat (x - a)))) in E.
  rewrite lookup_load_bytes in E by lia. rewrite <- E. simpl. f_equal. lia.
Qed.

Lemma store_bytes_bytes_ok m a l : bytes_ok m -> Forall (fun b => 0 <= b < 256) l -> bytes_ok (store_bytes m a l).
Proof.
  intros Hm Hl x. rewrite store_bytes_at. case_decide; [|apply Hm].
  destruct (l !! Z.to_nat (x - a)) as [b|] eqn:E; [|simpl; lia]. by eapply (Forall_lookup_1 _ _ _ _ Hl).
Qed.

Section proofs.
Context (kend : Z) (Hend : 0 < kend <= PHYSTOP).
Abbreviation vm_ok := (vm_ok kend).

Lemma va_split a : vpn a * PGSIZE + a mod PGSIZE = a /\ 0 <= a mod PGSIZE < PGSIZE.
Proof.
  unfold vpn. pose proof (Z.div_mod a PGSIZE ltac:(done)). pose proof (Z.mod_pos_bound a PGSIZE ltac:(done)). lia.
Qed.

Lemma va_of v off : 0 <= off < PGSIZE -> vpn (v * PGSIZE + off) = v /\ (v * PGSIZE + off) mod PGSIZE = off.
Proof.
  intros H. unfold vpn. rewrite Z.div_add_l, Z.div_small, Z.add_0_r by done.
  rewrite Z.add_comm, Z.mod_add by done. rewrite Z.mod_small by done. done.
Qed.

Lemma readable_own tb own l s r v :
  vm_ok tb own l s -> readable (leaf tb (km_mem s) r v) = true -> own !! (r, v) = Some (PTE2PA (leaf tb (km_mem s) r v)).
Proof.
  intros Hok [HV HU]%andb_true_iff. destruct (vm_user _ _ _ _ _ Hok _ _ HV HU) as [pa Hpa].
  destruct (vm_leaf _ _ _ _ _ Hok _ _ _ Hpa) as (_ & <- & _). done.
Qed.

(** Writing inside one page. *)
Lemma write_user tb own l s r v off bs :
  vm_ok tb own l s -> readable (leaf tb (km_mem s) r v) = true ->
  0 <= off -> off + Z.of_nat (length bs) <= PGSIZE -> Forall (fun b => 0 <= b < 256) bs ->
  let pa := PTE2PA (leaf tb (km_mem s) r v) in
  let s' := Kmem (store_bytes (km_mem s) (pa + off) bs) (km_freelist s) in
  vm_ok tb own l s' /\ same_leaves tb s tb s' /\
  forall r' a, ubyte tb s' r' a = write_range (ubyte tb s) r (v * PGSIZE + off) bs r' a.
Proof.
  intros Hok Hrd Hoff Hlen Hbs pa s'. pose proof (readable_own _ _ _ _ _ _ Hok Hrd) as Hpa. fold pa in Hpa.
  destruct (vm_page _ _ _ _ _ Hok _ _ Hpa) as [Hpo Hpl].
  destruct (vm_write kend Hend tb own l s pa (store_bytes (km_mem s) (pa + off) bs)) as [Hok' Hsl]; [done| |done|done| | |].
  { apply store_bytes_bytes_ok; [|done]. apply (ki_bytes _ _ _ (pt_free _ _ _ _ (vm_pt _ _ _ _ _ Hok))). }
  { intros k Hk. by eapply (vm_table _ _ _ _ _ Hok). }
  { intros x Hx. apply store_bytes_outside. lia. }
  split; [done|]. split; [done|]. intros r' a. unfold ubyte. rewrite Hsl. unfold write_range.
  destruct (va_split a) as [Ea Ho]. set (e := leaf tb (km_mem s) r' (vpn a)).
  destruct (readable e) eqn:Hrd'.
  - pose proof (readable_own _ _ _ _ _ _ Hok Hrd') as Hpa'. fold e in Hpa'. cbn [km_mem s'].
    rewrite store_bytes_at. destruct (decide ((r', vpn a) = (r, v))) as [[= -> Ev]|Hne].
    + assert (PTE2PA e = pa) as -> by (unfold e, pa; by rewrite Ev).
      repeat case_decide; try lia; [|done].
      replace (pa + a mod PGSIZE - (pa + off)) with (a - (v * PGSIZE + off)) by lia.
      assert (Hlt : (Z.to_nat (a - (v * PGSIZE + off)) < length bs)%nat) by lia.
      apply lookup_lt_is_Some in Hlt as [b ->]. done.
    + assert (PTE2PA e <> pa) as Hpp by (intros E; rewrite E in Hpa'; by apply Hne, (vm_inj _ _ _ _ _ Hok _ _ pa)).
      destruct (vm_page _ _ _ _ _ Hok _ _ Hpa') as [Hpo' _].
      destruct (aligned_apart _ _ (page_aligned kend Hend _ Hpo) (page_aligned kend Hend _ Hpo') ltac:(done)).
      all: rewrite decide_False by lia; rewrite decide_False; [done|].
      all: intros [-> Hr]; apply Hne; f_equal; unfold PGSIZE in *; lia.
  - rewrite decide_False; [done|]. intros [-> Hr].
    assert (vpn a = v) as Ev by (unfold PGSIZE in *; lia). unfold e in Hrd'. rewrite Ev in Hrd'. congruence.
Qed.

(** ** [copyout] *)

Lemma write_range_nil U r a r' a' : write_range U r a [] r' a' = U r' a'.
Proof. unfold write_range. rewrite decide_False; [done|]. simpl. lia. Qed.

Lemma write_range_app U r a bs bs' r' a' :
  write_range (write_range U r a bs) r (a + Z.of_nat (length bs)) bs' r' a' = write_range U r a (bs ++ bs') r' a'.
Proof.
  unfold write_range. rewrite length_app. repeat case_decide; try lia; try done.
  - rewrite lookup_app_r by lia. f_equal. lia.
  - by rewrite lookup_app_l by lia.
Qed.

(** The first address where [copyout] fails. *)
Definition blocked (tb : tables) (s : kmem) (r a : Z) : Prop :=
  MAXVA <= a \/ writable (leaf tb (km_mem s) r (vpn a)) = false.

Lemma vpn_down a : vpn (PGROUNDDOWN a) = vpn a /\ a - PGROUNDDOWN a = a mod PGSIZE /\ PGROUNDDOWN a = vpn a * PGSIZE.
Proof.
  rewrite PGROUNDDOWN_eq. fold (vpn a). destruct (vpn_mul (vpn a)) as [-> _]. destruct (va_split a). lia.
Qed.

(** The entry of a page, found without allocating. *)
Lemma find_entry tb own l s r va {A} (bad : M kmem A) (K : Z -> M kmem A) :
  vm_ok tb own l s -> is_Some (tb !! (r, 2%nat, 0)) -> 0 <= va < MAXVA -> K 0 s = bad s ->
  (let* pte := walk r va false in
   if pte =? 0 then bad else let* v := load_pte pte in K v) s = K (leaf tb (km_mem s) r (vpn va)) s.
Proof.
  intros Hok Hr Hva Hbad. pose proof (vm_pt _ _ _ _ _ Hok) as Hpt.
  rewrite (bind_Done _ _ _ _ _ _ (walk_find kend Hend tb l s r va Hpt Hr Hva)), prepend_nil. unfold leaf.
  destruct (slot tb r (vpn va)) as [a|] eqn:Ha; [|done].
  pose proof (slot_pos kend Hend _ _ _ _ _ _ Hpt Ha). cbn [default]. unfold id.
  change (from_option (fun x => x) 0 (Some a)) with a.
  rewrite (proj2 (Z.eqb_neq a 0)) by lia. unfold load_pte, kmem_get, gets. rewrite bind_assoc.
  erewrite bind_Done by done. rewrite prepend_nil. erewrite bind_Done by done. by rewrite prepend_nil.
Qed.

(** What [copyout] promises: it wrote the first [k] bytes. *)
Definition copyout_post (tb : tables) (own : owners) (l : list Z) (s : kmem) (r dst : Z) (src : list Z)
    (rt : Z) (s' : kmem) (k : nat) : Prop :=
  vm_ok tb own l s' /\ same_leaves tb s tb s' /\ (k <= length src)%nat /\ (k = 0%nat \/ dst + Z.of_nat k <= MAXVA) /\
  (rt = 0 /\ k = length src \/ rt = -1 /\ (k < length src)%nat /\ blocked tb s r (dst + Z.of_nat k)) /\
  forall r' a, ubyte tb s' r' a = write_range (ubyte tb s) r dst (take k src) r' a.

Lemma copyout_none tb own l s r dst src rt :
  vm_ok tb own l s -> rt = 0 /\ length src = 0%nat \/ rt = -1 /\ (0 < length src)%nat /\ blocked tb s r dst ->
  copyout_post tb own l s r dst src rt s 0.
Proof.
  intros Hok Hr. split_and!; [done|done|lia|by left| |].
  - rewrite Z.add_0_r. destruct Hr as [[-> ->]|Hr]; auto.
  - intros r' a. by rewrite take_0, write_range_nil.
Qed.

(** Writing the bytes of one page first. *)
Lemma copyout_more tb own l s r dst src n s1 rt s' k :
  same_leaves tb s tb s1 -> (0 < n <= length src)%nat -> dst + Z.of_nat n <= MAXVA ->
  (forall r' a, ubyte tb s1 r' a = write_range (ubyte tb s) r dst (take n src) r' a) ->
  copyout_post tb own l s1 r (dst + Z.of_nat n) (drop n src) rt s' k ->
  copyout_post tb own l s r dst src rt s' (n + k).
Proof.
  intros Hsl1 Hn Hm1 Hu1 (Hok & Hsl & Hk & Hm & Hrt & Hu). rewrite length_drop in *.
  split_and!; [done|intros r' v; by rewrite Hsl|lia|right; lia| |].
  - destruct Hrt as [[-> ->]|(-> & Hk' & Hb)]; [left; lia|right]. split_and!; [done|lia|].
    unfold blocked in *. rewrite Hsl1 in Hb. by rewrite Nat2Z.inj_add, Z.add_assoc.
  - intros r' a. rewrite Hu, <- take_take_drop, <- write_range_app, length_take, (Nat.min_l n) by lia.
    unfold write_range at 1 2. case_decide; [done|]. apply Hu1.
Qed.

Lemma copyout_loop_run fuel tb own l s r dst src :
  vm_ok tb own l s -> is_Some (tb !! (r, 2%nat, 0)) -> 0 <= dst -> Forall (fun b => 0 <= b < 256) src ->
  (length src < fuel)%nat ->
  exists rt s' k, copyout_loop fuel r dst src s = Done rt s' [] /\ copyout_post tb own l s r dst src rt s' k.
Proof.
  revert s dst src. induction fuel as [|fuel IH]; intros s dst src Hok Hr Hdst Hsrc Hfuel; [lia|].
  cbn [copyout_loop]. destruct (Nat.ltb_spec 0 (length src)) as [Hpos|Hz].
  2: { exists 0, s, 0%nat. split; [done|]. apply copyout_none; [done|]. left. lia. }
  destruct (vpn_down dst) as (Ev & Eo & Ed). destruct (va_split dst) as [Es Ho].
  assert (Hfail : blocked tb s r dst -> exists rt s' k, Done (-1) s [] = Done rt s' [] /\
    copyout_post tb own l s r dst src rt s' k).
  { intros Hb. exists (-1), s, 0%nat. split; [done|]. apply copyout_none; [done|]. by right. }
  destruct (Z.leb_spec MAXVA (PGROUNDDOWN dst)) as [Hm|Hm]; [apply Hfail; left; unfold PGSIZE in *; lia|].
  cbv zeta. rewrite (find_entry tb own l s r (PGROUNDDOWN dst) (ret (-1)) (fun v =>
    if negb (has v PTE_V) || negb (has v PTE_U) || negb (has v PTE_W) then ret (-1)
    else
      kmem_put (fun m => store_bytes m (PTE2PA v + (dst - PGROUNDDOWN dst))
        (take (Z.to_nat (Z.min (PGSIZE - (dst - PGROUNDDOWN dst)) (Z.of_nat (length src)))) src)) ;;;
      copyout_loop fuel r (PGROUNDDOWN dst + PGSIZE)
        (drop (Z.to_nat (Z.min (PGSIZE - (dst - PGROUNDDOWN dst)) (Z.of_nat (length src)))) src)) Hok Hr)
    by (done || unfold PGSIZE in *; lia).
  rewrite Ev. set (e := leaf tb (km_mem s) r (vpn dst)) in *.
  replace (negb (has e PTE_V) || negb (has e PTE_U) || negb (has e PTE_W)) with (negb (writable e))
    by (unfold writable; by rewrite !negb_andb).
  destruct (writable e) eqn:Hw; cbn [negb]; [|apply Hfail; by right].
  assert (Hrd : readable e = true).
  { unfold writable, readable in *. by apply andb_true_iff in Hw as [? _]. }
  rewrite Eo. set (n := Z.to_nat (Z.min (PGSIZE - dst mod PGSIZE) (Z.of_nat (length src)))) in *.
  assert (Hn : (0 < n <= length src)%nat) by lia.
  destruct (write_user tb own l s r (vpn dst) (dst mod PGSIZE) (take n src) Hok Hrd) as (Hok1 & Hsl1 & Hu1);
    [lia|rewrite length_take; lia|by apply Forall_take|]. fold e in Hok1, Hsl1, Hu1.
  unfold kmem_put, modify. erewrite bind_Done by done. rewrite prepend_nil. rewrite Es in Hu1.
  set (s1 := Kmem (store_bytes (km_mem s) (PTE2PA e + dst mod PGSIZE) (take n src)) (km_freelist s)) in *.
  assert (Hend1 : dst + Z.of_nat n <= MAXVA) by va_lia.
  destruct (decide (n = length src)) as [En|Hne].
  - rewrite drop_ge by lia. exists 0, s1, n. split; [by destruct fuel; [lia|]|].
    split_and!; [done|done|lia|by right|left; lia|done].
  - replace (PGROUNDDOWN dst + PGSIZE) with (dst + Z.of_nat n) by lia.
    destruct (IH s1 (dst + Z.of_nat n) (drop n src) Hok1 Hr) as (rt & s' & k & E & Hpost);
      [lia|by apply Forall_drop|rewrite length_drop; lia|].
    exists rt, s', (n + k)%nat. split; [done|]. by apply (copyout_more _ _ _ _ _ _ _ _ s1).
Qed.

(** ** [copyin] *)

Definition unreadable (tb : tables) (s : kmem) (r a : Z) : Prop :=
  MAXVA <= a \/ readable (leaf tb (km_mem s) r (vpn a)) = false.

Lemma walkaddr_run tb own l s r va :
  vm_ok tb own l s -> is_Some (tb !! (r, 2%nat, 0)) -> 0 <= va ->
  let e := leaf tb (km_mem s) r (vpn va) in
  walkaddr r va s = Done (if (va <? MAXVA) && readable e then PTE2PA e else 0) s [].
Proof.
  intros Hok Hr Hva e. unfold walkaddr. destruct (Z.leb_spec MAXVA va) as [Hm|Hm].
  { rewrite (proj2 (Z.ltb_ge _ _)) by done. done. }
  rewrite (proj2 (Z.ltb_lt _ _)) by done.
  rewrite (find_entry tb own l s r va (ret 0) (fun pte =>
    if negb (has pte PTE_V) then ret 0 else if negb (has pte PTE_U) then ret 0 else ret (PTE2PA pte)) Hok Hr)
    by (done || lia).
  fold e. unfold readable. destruct (has e PTE_V), (has e PTE_U); done.
Qed.

Lemma copyin_loop_run fuel tb own l s r src len :
  vm_ok tb own l s -> is_Some (tb !! (r, 2%nat, 0)) -> 0 <= src -> (Z.to_nat len < fuel)%nat ->
  exists ret bs, copyin_loop fuel r src len s = Done (ret, bs) s [] /\
    (ret = 0 /\ Z.of_nat (length bs) = Z.max 0 len \/
     ret = -1 /\ Z.of_nat (length bs) < len /\ unreadable tb s r (src + Z.of_nat (length bs))) /\
    forall i b, bs !! i = Some b -> ubyte tb s r (src + Z.of_nat i) = Some b.
Proof.
  revert src len. induction fuel as [|fuel IH]; intros src len Hok Hr Hsrc Hfuel; [lia|].
  cbn [copyin_loop]. destruct (Z.ltb_spec 0 len) as [Hpos|Hz].
  2: { exists 0, []. simpl. split_and!; [done|left; lia|done]. }
  destruct (vpn_down src) as (Ev & Eo & Ed). destruct (va_split src) as [Es Ho].
  rewrite (bind_Done _ _ _ _ _ _ (walkaddr_run tb own l s r (PGROUNDDOWN src) Hok Hr ltac:(unfold PGSIZE in *; lia))),
    prepend_nil, Ev. set (e := leaf tb (km_mem s) r (vpn src)).
  destruct (_ && _) eqn:Ha.
  2: { exists (-1), []. simpl. rewrite Z.add_0_r. split_and!; [done| |done]. right. split_and!; [done|lia|].
       apply andb_false_iff in Ha as [Ha%Z.ltb_ge|Ha]; [left; unfold PGSIZE in *; lia|by right]. }
  apply andb_true_iff in Ha as [Hm%Z.ltb_lt Hrd].
  pose proof (readable_own tb own l s r (vpn src) Hok Hrd) as Hpa. fold e in Hpa.
  destruct (vm_page _ _ _ _ _ Hok _ _ Hpa) as [[Hp0 _]%(page_small kend Hend) _].
  rewrite (proj2 (Z.eqb_neq _ 0)) by lia. rewrite Eo.
  set (n := Z.min (PGSIZE - src mod PGSIZE) len). assert (0 < n <= len) by lia.
  unfold kmem_get, gets. erewrite bind_Done by done. rewrite prepend_nil.
  destruct (IH (PGROUNDDOWN src + PGSIZE) (len - n) Hok Hr) as (ret & bs & E & Hret & Hb);
    [unfold PGSIZE in *; lia|lia|].
  set (bs0 := load_bytes (Z.to_nat n) (km_mem s) (PTE2PA e + src mod PGSIZE)).
  assert (Hl0 : Z.of_nat (length bs0) = n) by (unfold bs0; rewrite length_load_bytes; lia).
  exists ret, (bs0 ++ bs). rewrite (bind_Done _ _ _ _ _ _ E), prepend_nil. split; [done|].
  assert (Hnext : len = n \/ PGROUNDDOWN src + PGSIZE = src + n) by lia.
  rewrite length_app, Nat2Z.inj_add, Hl0. split.
  - destruct Hret as [[-> Hl]|(-> & Hl & Hu)]; [left; lia|right]. split_and!; [done|lia|].
    replace (src + (n + Z.of_nat (length bs))) with (PGROUNDDOWN src + PGSIZE + Z.of_nat (length bs)) by lia. done.
  - intros i b Hi. destruct (decide (i < length bs0)%nat) as [Hlt|Hge].
    + rewrite lookup_app_l in Hi by done. unfold bs0 in Hi. rewrite lookup_load_bytes in Hi by lia.
      injection Hi as <-. destruct (va_of (vpn src) (src mod PGSIZE + Z.of_nat i) ltac:(lia)) as [E1 E2].
      rewrite Z.add_assoc, Es in E1, E2. unfold ubyte. rewrite E1, E2. fold e. rewrite Hrd. do 2 f_equal. lia.
    + rewrite lookup_app_r in Hi by lia. pose proof (lookup_lt_Some _ _ _ Hi).
      destruct Hnext as [Hn|Hn]; [exfalso; destruct Hret as [[_ ?]|[_ [? _]]]; lia|].
      rewrite <- (Hb _ _ Hi). f_equal. lia.
Qed.

(** C9: The kernel's access to user memory: [copyout] makes user code of that
    address space find the bytes at the destination and leaves every other byte
    of every address space as it was; it fails with -1 exactly when it meets an
    address that is out of range or not writable by the user, after writing
    the bytes before its page.  After a success [copyin] of the same range returns
    the bytes. *)
Theorem copyout_copyin_roundtrip tb own l s r dst src :
  vm_ok tb own l s -> is_Some (tb !! (r, 2%nat, 0)) -> 0 <= dst -> Forall (fun b => 0 <= b < 256) src ->
  exists rt s' k, copyout r dst src s = Done rt s' [] /\ copyout_post tb own l s r dst src rt s' k /\
    (rt = 0 -> copyin r dst (Z.of_nat (length src)) s' = Done (0, src) s' []).
Proof.
  intros Hok Hr Hdst Hsrc.
  destruct (copyout_loop_run (S (length src)) tb own l s r dst src Hok Hr Hdst Hsrc ltac:(lia))
    as (rt & s' & k & E & Hpost).
  exists rt, s', k. split_and!; [done..|]. intros ->. destruct Hpost as (Hok' & Hsl & _ & Hm & [[_ ->]|[? _]] & Hu); [|done].
  rewrite take_ge in Hu by lia.
  destruct (copyin_loop_run (S (Z.to_nat (Z.of_nat (length src)))) tb own l s' r dst (Z.of_nat (length src)) Hok' Hr
    Hdst ltac:(lia)) as (ret & bs & E' & Hret & Hb).
  assert (Hin : forall i b, src !! i = Some b -> ubyte tb s' r (dst + Z.of_nat i) = Some b).
  { intros i b Hi. pose proof (lookup_lt_Some _ _ _ Hi). rewrite Hu. unfold write_range.
    rewrite decide_True by lia. by replace (Z.to_nat (dst + Z.of_nat i - dst)) with i by lia. }
  destruct Hret as [[-> Hl]|(-> & Hl & [Hbad|Hbad])].
  - unfold copyin. rewrite E'. do 2 f_equal. apply list_eq_same_length with (length src); [done|lia|].
    intros i x y _ Hx Hy. apply Hb in Hx. apply Hin in Hy. congruence.
  - exfalso. lia.
  - exfalso. destruct (lookup_lt_is_Some_2 src (length bs) ltac:(lia)) as [b Hi].
    apply Hin in Hi. unfold ubyte in Hi. by rewrite Hbad in Hi.
Qed.
End proofs.

Lemma copyout_copyin_roundtrip_witness :
  exists r s s', copyout r 10 [104; 105] s = Done 0 s' [] /\ copyin r 10 2 s' = Done (0, [104; 105]) s' [].
Proof.
  destruct boot_spaces as (tb & own & l & s & old & new & Hok & Hro & _ & _ & [pa Ho] & HU & HW & _).
  assert (He : 0 < PHYSTOP - 20 * PGSIZE <= PHYSTOP) by (unfold PHYSTOP, KERNBASE, PGSIZE; lia).
  destruct (copyout_copyin_roundtrip (PHYSTOP - 20 * PGSIZE) He tb own l s old 10 [104; 105] Hok Hro)
    as (rt & s' & k & E & (_ & _ & _ & _ & Hrt & _) & Hin).
  - lia.
  - repeat constructor; lia.
  - destruct Hrt as [[-> _]|(_ & Hk & Hb)]; [exists old, s, s'; split; [exact E|exact (Hin eq_refl)]|].
    exfalso. destruct (vm_leaf _ _ _ _ _ Hok _ _ _ Ho) as (HV & _). simpl in Hk. unfold blocked in Hb.
    assert (vpn (10 + Z.of_nat k) = 0) as Ev by (apply Z.div_small; unfold PGSIZE; lia).
    rewrite Ev in Hb. unfold writable in Hb. rewrite HV, HU, HW in Hb.
    destruct Hb as [Hb|Hb]; [change MAXVA with (2 ^ 38) in Hb; lia|discriminate].
Defined.
