(* ===== verification/Fs.v ===== *)
(** * kernel/fs.c: blocks, inodes, directories and path names

    The file system above the log.  Its state is the log with the block cache,
    the superblock, the table of in-memory inodes, the pid of the running process
    (for the sleep locks) and that process's user memory, which [readi] and
    [writei] copy to and from: [ucopyout] and [ucopyin] are [copyout] and [copyin]
    of kernel/vm.c on it.  A [struct inode *] is an index in the table. *)

From Stdlib Require Import ZArith Lia.
From stdpp Require Import base list strings numbers.
From S2P Require Import Prelude Sleeplock Blocks BlockCache Log.

Definition ROOTINO : Z := 1.
Definition FSMAGIC : Z := 270544960.
Definition NDIRECT : Z := 12.
Definition NINDIRECT : Z := BSIZE / 4.
Definition MAXFILE : Z := NDIRECT + NINDIRECT.
(** [sizeof(struct dinode)] *)
Definition DINODE : Z := 64.
Definition IPB : Z := BSIZE / DINODE.
Definition BPB : Z := BSIZE * 8.
Definition DIRSIZ : Z := 14.
(** [sizeof(struct dirent)] *)
Definition DIRENT : Z := 16.
Definition NINODE : Z := 50.
Definition T_DIR : Z := 1.
Definition T_FILE : Z := 2.
Definition T_DEVICE : Z := 3.

Record superblock := Superblock {
  sb_magic : Z; sb_size : Z; sb_nblocks : Z; sb_ninodes : Z;
  sb_nlog : Z; sb_logstart : Z; sb_inodestart : Z; sb_bmapstart : Z
}.

Definition IBLOCK (i : Z) (sb : superblock) : Z := u32 (i / IPB + sb_inodestart sb).
Definition BBLOCK (b : Z) (sb : superblock) : Z := u32 (b / BPB + sb_bmapstart sb).

(** The part of an inode that lives on disk. *)
Record dinode := Dinode {
  di_type : Z; di_major : Z; di_minor : Z; di_nlink : Z; di_size : Z; di_addrs : list Z
}.

Record inode := Inode {
  ip_dev : Z; ip_inum : Z; ip_ref : Z; ip_lock : sleeplock; ip_valid : Z;
  ip_di : dinode
}.

Definition zero_dinode : dinode := Dinode 0 0 0 0 0 (replicate 13 0).

(** Fields of the dinode at byte [o] of a block. *)
Definition get_addrs (n : nat) (d : block) (o : Z) : list Z :=
  (fun i => get32 d (o + 4 * Z.of_nat i)) <$> seq 0 n.
Definition get_dinode (d : block) (o : Z) : dinode :=
  Dinode (swrap 16 (get16 d o)) (swrap 16 (get16 d (o + 2))) (swrap 16 (get16 d (o + 4)))
    (swrap 16 (get16 d (o + 6))) (get32 d (o + 8)) (get_addrs 13 d (o + 12)).

Fixpoint set_addrs (d : block) (o : Z) (l : list Z) : block :=
  match l with
  | [] => d
  | a :: l' => set_addrs (set32 d o a) (o + 4) l'
  end.
Definition set_dinode (d : block) (o : Z) (di : dinode) : block :=
  set_addrs
    (set32 (set16 (set16 (set16 (set16 d o (di_type di)) (o + 2) (di_major di))
       (o + 4) (di_minor di)) (o + 6) (di_nlink di)) (o + 8) (di_size di))
    (o + 12) (di_addrs di).

Definition with_type (t : Z) (di : dinode) : dinode :=
  Dinode t (di_major di) (di_minor di) (di_nlink di) (di_size di) (di_addrs di).
Definition with_size (n : Z) (di : dinode) : dinode :=
  Dinode (di_type di) (di_major di) (di_minor di) (di_nlink di) n (di_addrs di).
Definition with_nlink (n : Z) (di : dinode) : dinode :=
  Dinode (di_type di) (di_major di) (di_minor di) n (di_size di) (di_addrs di).
Definition with_dev (ma mi : Z) (di : dinode) : dinode :=
  Dinode (di_type di) ma mi (di_nlink di) (di_size di) (di_addrs di).
Definition with_addrs (l : list Z) (di : dinode) : dinode :=
  Dinode (di_type di) (di_major di) (di_minor di) (di_nlink di) (di_size di) l.

(** ** Names *)

(** [strncmp] on strings held as lists, a missing character being the NUL. *)
Fixpoint strncmp_list (n : nat) (s t : list Z) : Z :=
  match n with
  | O => 0
  | S n' =>
    let a := str_at s 0 in
    let b := str_at t 0 in
    if negb (a =? 0) && (a =? b) then strncmp_list n' (tail s) (tail t) else a - b
  end.

Definition namecmp (s t : list Z) : Z := strncmp_list (Z.to_nat DIRSIZ) s t.

(** The bytes of a name field after [strncpy(de.name, name, DIRSIZ)]. *)
Definition name_field (name : list Z) : list Z :=
  take (Z.to_nat DIRSIZ) (name ++ replicate (Z.to_nat DIRSIZ) 0).

Fixpoint drop_slashes (p : list Z) : list Z :=
  match p with
  | c :: p' => if c =? 47 then drop_slashes p' else p
  | [] => []
  end.

(** The characters up to the next slash or the end, and the rest. *)
Fixpoint span_elem (p : list Z) : list Z * list Z :=
  match p with
  | [] => ([], [])
  | c :: p' => if c =? 47 then ([], p) else let '(e, r) := span_elem p' in (c :: e, r)
  end.

(** The rest of the path and the name, or [None] for a null pointer. *)
Definition skipelem (path : list Z) : option (list Z * list Z) :=
  let path := drop_slashes path in
  match path with
  | [] => None
  | _ =>
    let '(s, path) := span_elem path in
    Some (drop_slashes path, take (Z.to_nat DIRSIZ) s)
  end.

(** ** The state *)

Record fs (C U : Type) := Fs {
  fs_log : logstate C;
  fs_sb : superblock;
  fs_itable : list inode;
  fs_pid : Z;
  fs_user : U
}.
Arguments Fs {C U} _ _ _ _ _.
Arguments fs_log {C U} _.
Arguments fs_sb {C U} _.
Arguments fs_itable {C U} _.
Arguments fs_pid {C U} _.
Arguments fs_user {C U} _.

(** Where [readi] puts and [writei] takes the data: a user address, or a kernel
    buffer, given by the bytes in it. *)
Inductive rdst := DUser (va : Z) | DKernel.
Inductive wsrc := SUser (va : Z) | SKernel (bs : list Z).

Section code.
Context {C U : Type} `{BlockCache C}.
Context (ucopyout : U -> Z -> list Z -> Z * U) (ucopyin : U -> Z -> Z -> Z * list Z).

Definition on_log {A} (m : M (logstate C) A) : M (fs C U) A :=
  lift (Lens fs_log (fun l s => Fs l (fs_sb s) (fs_itable s) (fs_pid s) (fs_user s))) m.

Definition f_bread (n : Z) : M (fs C U) Z := on_log (on_cache (c_bread n)).
Definition f_data (h : Z) : M (fs C U) block := on_log (on_cache (c_data h)).
Definition f_store (h : Z) (d : block) : M (fs C U) unit := on_log (on_cache (c_store h d)).
Definition f_brelse (h : Z) : M (fs C U) unit := on_log (on_cache (c_brelse h)).
Definition f_log_write (h : Z) : M (fs C U) unit := on_log (log_write h).

Definition the_sb : M (fs C U) superblock := gets fs_sb.

Definition ip_get (ip : Z) : M (fs C U) inode :=
  let* s := get in of_option "bad struct inode pointer" (zget (fs_itable s) ip).
Definition ip_upd (ip : Z) (f : inode -> inode) : M (fs C U) unit :=
  let* x := ip_get ip in
  modify (fun s => Fs (fs_log s) (fs_sb s) (zset (fs_itable s) ip (f x)) (fs_pid s) (fs_user s)).
Definition di_upd (ip : Z) (f : dinode -> dinode) : M (fs C U) unit :=
  ip_upd ip (fun x => Inode (ip_dev x) (ip_inum x) (ip_ref x) (ip_lock x) (ip_valid x) (f (ip_di x))).
Definition set_ref (r : Z) (x : inode) : inode :=
  Inode (ip_dev x) (ip_inum x) r (ip_lock x) (ip_valid x) (ip_di x).
Definition set_ivalid (v : Z) (x : inode) : inode :=
  Inode (ip_dev x) (ip_inum x) (ip_ref x) (ip_lock x) v (ip_di x).

(** The sleep lock of an inode. *)
Definition ip_lens (ip : Z) (x : inode) : lens (fs C U) sleeplock :=
  Lens (fun _ => ip_lock x)
    (fun l s => Fs (fs_log s) (fs_sb s)
       (zset (fs_itable s) ip (Inode (ip_dev x) (ip_inum x) (ip_ref x) l (ip_valid x) (ip_di x)))
       (fs_pid s) (fs_user s)).
Definition ip_acquiresleep (ip : Z) : M (fs C U) unit :=
  let* x := ip_get ip in
  let* me := gets fs_pid in
  lift (ip_lens ip x) (acquiresleep me (ChSleeplock "inode" ip)).
Definition ip_releasesleep (ip : Z) : M (fs C U) unit :=
  let* x := ip_get ip in
  lift (ip_lens ip x) (releasesleep (ChSleeplock "inode" ip)).
Definition ip_holdingsleep (ip : Z) : M (fs C U) bool :=
  let* x := ip_get ip in
  let* me := gets fs_pid in
  lift (ip_lens ip x) (holdingsleep me).

(** ** Superblock *)

Definition readsb : M (fs C U) unit :=
  let* bp := f_bread 1 in
  let* d := f_data bp in
  modify (fun s => Fs (fs_log s)
    (Superblock (get32 d 0) (get32 d 4) (get32 d 8) (get32 d 12) (get32 d 16) (get32 d 20)
       (get32 d 24) (get32 d 28)) (fs_itable s) (fs_pid s) (fs_user s)) ;;;
  f_brelse bp.

Definition fsinit : M (fs C U) unit :=
  readsb ;;;
  let* sb := the_sb in
  if negb (sb_magic sb =? FSMAGIC) then panic "invalid file system"
  else on_log (initlog (sb_logstart sb) (sb_nlog sb)).

(** ** Blocks *)

Definition bzero (bno : Z) : M (fs C U) unit :=
  let* bp := f_bread (u32 bno) in
  f_store bp zero_block ;;;
  f_log_write bp ;;;
  f_brelse bp.

(** The inner loop of [balloc]: the first [bi] whose bit is clear. *)
Fixpoint find_clear (fuel : nat) (d : block) (b bi size : Z) : option Z :=
  match fuel with
  | O => None
  | S fuel' =>
    if (bi <? BPB) && (b + bi <? size) then
      if Z.land (byte_at d (bi / 8)) (Z.shiftl 1 (bi mod 8)) =? 0 then Some bi
      else find_clear fuel' d b (bi + 1) size
    else None
  end.

Fixpoint balloc_loop (fuel : nat) (b : Z) : M (fs C U) Z :=
  match fuel with
  | O => undef "balloc: out of fuel"
  | S fuel' =>
    let* sb := the_sb in
    if b <? sb_size sb then
      let* bp := f_bread (BBLOCK b sb) in
      let* d := f_data bp in
      match find_clear (Z.to_nat BPB) d b 0 (sb_size sb) with
      | Some bi =>
        f_store bp (zset d (bi / 8) (Z.lor (byte_at d (bi / 8)) (Z.shiftl 1 (bi mod 8)))) ;;;
        f_log_write bp ;;;
        f_brelse bp ;;;
        bzero (b + bi) ;;;
        ret (b + bi)
      | None =>
        f_brelse bp ;;;
        balloc_loop fuel' (b + BPB)
      end
    else
      prints (bytes "balloc: out of blocks" ++ [10]) ;;;
      ret 0
  end.

Definition balloc : M (fs C U) Z :=
  let* sb := the_sb in balloc_loop (S (Z.to_nat (sb_size sb / BPB + 1))) 0.

Definition bfree (b : Z) : M (fs C U) unit :=
  let* sb := the_sb in
  let* bp := f_bread (BBLOCK b sb) in
  let* d := f_data bp in
  let bi := b mod BPB in
  let m := Z.shiftl 1 (bi mod 8) in
  if Z.land (byte_at d (bi / 8)) m =? 0 then panic "freeing free block"
  else
    f_store bp (zset d (bi / 8) (Z.land (byte_at d (bi / 8)) (Z.lnot m))) ;;;
    f_log_write bp ;;;
    f_brelse bp.

(** ** Inodes *)

Definition iinit : M (fs C U) unit :=
  for_loop (Z.to_nat NINODE) 0 (fun i =>
    ip_upd i (fun x => Inode (ip_dev x) (ip_inum x) (ip_ref x) initsleeplock (ip_valid x) (ip_di x))).

(** The scan of [iget]: an entry that matches, or else the first free one. *)
Fixpoint iget_scan (t : list inode) (i : Z) (dev inum : Z) (empty : option Z) : option Z * option Z :=
  match t with
  | [] => (None, empty)
  | x :: t' =>
    if (0 <? ip_ref x) && (ip_dev x =? dev) && (ip_inum x =? inum) then (Some i, empty)
    else iget_scan t' (i + 1) dev inum
           (match empty with
            | None => if ip_ref x =? 0 then Some i else None
            | Some e => Some e
            end)
  end.

Definition iget (dev inum : Z) : M (fs C U) Z :=
  let* s := get in
  match iget_scan (fs_itable s) 0 dev inum None with
  | (Some ip, _) => ip_upd ip (fun x => set_ref (ip_ref x + 1) x) ;;; ret ip
  | (None, None) => panic "iget: no inodes"
  | (None, Some ip) =>
    ip_upd ip (fun x => Inode dev inum 1 (ip_lock x) 0 (ip_di x)) ;;;
    ret ip
  end.

Definition idup (ip : Z) : M (fs C U) Z :=
  ip_upd ip (fun x => set_ref (ip_ref x + 1) x) ;;; ret ip.

Fixpoint ialloc_loop (fuel : nat) (dev inum type : Z) : M (fs C U) (option Z) :=
  match fuel with
  | O => undef "ialloc: out of fuel"
  | S fuel' =>
    let* sb := the_sb in
    if inum <? sb_ninodes sb then
      let* bp := f_bread (IBLOCK inum sb) in
      let* d := f_data bp in
      let o := inum mod IPB * DINODE in
      if di_type (get_dinode d o) =? 0 then
        f_store bp (set_dinode d o (with_type type zero_dinode)) ;;;
        f_log_write bp ;;;
        f_brelse bp ;;;
        let* ip := iget dev inum in
        ret (Some ip)
      else
        f_brelse bp ;;;
        ialloc_loop fuel' dev (inum + 1) type
    else
      prints (bytes "ialloc: no inodes" ++ [10]) ;;;
      ret None
  end.

Definition ialloc (dev type : Z) : M (fs C U) (option Z) :=
  let* sb := the_sb in ialloc_loop (S (Z.to_nat (sb_ninodes sb))) dev 1 type.

Definition iupdate (ip : Z) : M (fs C U) unit :=
  let* sb := the_sb in
  let* x := ip_get ip in
  let* bp := f_bread (IBLOCK (ip_inum x) sb) in
  let* d := f_data bp in
  f_store bp (set_dinode d (ip_inum x mod IPB * DINODE) (ip_di x)) ;;;
  f_log_write bp ;;;
  f_brelse bp.

Definition ilock (ip : Z) : M (fs C U) unit :=
  let* x := ip_get ip in
  if ip_ref x <? 1 then panic "ilock"
  else
    ip_acquiresleep ip ;;;
    let* x := ip_get ip in
    if ip_valid x =? 0 then
      let* sb := the_sb in
      let* bp := f_bread (IBLOCK (ip_inum x) sb) in
      let* d := f_data bp in
      di_upd ip (fun _ => get_dinode d (ip_inum x mod IPB * DINODE)) ;;;
      f_brelse bp ;;;
      ip_upd ip (set_ivalid 1) ;;;
      let* x := ip_get ip in
      if di_type (ip_di x) =? 0 then panic "ilock: no type" else ret tt
    else ret tt.

Definition iunlock (ip : Z) : M (fs C U) unit :=
  let* h := ip_holdingsleep ip in
  let* x := ip_get ip in
  if negb h || (ip_ref x <? 1) then panic "iunlock" else ip_releasesleep ip.

(** ** Inode content *)

(** [ip->addrs[i]] *)
Definition addr_at (x : inode) (i : Z) : Z := default 0 (zget (di_addrs (ip_di x)) i).
Definition set_addr (ip i a : Z) : M (fs C U) unit :=
  di_upd ip (fun di => with_addrs (zset (di_addrs di) i a) di).

Definition bmap (ip bn : Z) : M (fs C U) Z :=
  if bn <? NDIRECT then
    let* x := ip_get ip in
    if addr_at x bn =? 0 then
      let* addr := balloc in
      if addr =? 0 then ret 0
      else set_addr ip bn addr ;;; ret addr
    else ret (addr_at x bn)
  else
    let bn := bn - NDIRECT in
    if bn <? NINDIRECT then
      let* x := ip_get ip in
      let* addr :=
        (if addr_at x NDIRECT =? 0 then
           let* addr := balloc in
           (if addr =? 0 then ret tt else set_addr ip NDIRECT addr) ;;; ret addr
         else ret (addr_at x NDIRECT)) in
      if addr =? 0 then ret 0
      else
        let* bp := f_bread addr in
        let* d := f_data bp in
        let a := get32 d (4 * bn) in
        let* addr :=
          (if a =? 0 then
             let* addr := balloc in
             (if negb (addr =? 0) then
                let* d := f_data bp in
                f_store bp (set32 d (4 * bn) addr) ;;;
                f_log_write bp
              else ret tt) ;;;
             ret addr
           else ret a) in
        f_brelse bp ;;;
        ret addr
    else panic "bmap: out of range".

Definition itrunc (ip : Z) : M (fs C U) unit :=
  for_loop (Z.to_nat NDIRECT) 0 (fun i =>
    let* x := ip_get ip in
    if negb (addr_at x i =? 0) then bfree (addr_at x i) ;;; set_addr ip i 0 else ret tt) ;;;
  let* x := ip_get ip in
  let ind := addr_at x NDIRECT in
  (if negb (ind =? 0) then
     let* bp := f_bread ind in
     for_loop (Z.to_nat NINDIRECT) 0 (fun j =>
       let* d := f_data bp in
       let a := get32 d (4 * j) in
       if negb (a =? 0) then bfree a else ret tt) ;;;
     f_brelse bp ;;;
     bfree ind ;;;
     set_addr ip NDIRECT 0
   else ret tt) ;;;
  di_upd ip (with_size 0) ;;;
  iupdate ip.

Definition iput (ip : Z) : M (fs C U) unit :=
  let* x := ip_get ip in
  (if (ip_ref x =? 1) && negb (ip_valid x =? 0) && (di_nlink (ip_di x) =? 0) then
     ip_acquiresleep ip ;;;
     itrunc ip ;;;
     di_upd ip (with_type 0) ;;;
     iupdate ip ;;;
     ip_upd ip (set_ivalid 0) ;;;
     ip_releasesleep ip
   else ret tt) ;;;
  ip_upd ip (fun x => set_ref (ip_ref x - 1) x).

Definition iunlockput (ip : Z) : M (fs C U) unit := iunlock ip ;;; iput ip.

(** The fields of [struct stat]. *)
Record stat := Stat { st_dev : Z; st_ino : Z; st_type : Z; st_nlink : Z; st_size : Z }.

Definition stati (ip : Z) : M (fs C U) stat :=
  let* x := ip_get ip in
  ret (Stat (i32 (ip_dev x)) (ip_inum x) (di_type (ip_di x)) (di_nlink (ip_di x)) (di_size (ip_di x))).

(** The loop of [readi]: the final [tot] and the bytes given to a kernel buffer.
    An iteration ends at a block boundary or at the end of the data. *)
Fixpoint readi_loop (fuel : nat) (ip : Z) (dst : rdst) (off tot n : Z) (acc : list Z)
    : M (fs C U) (Z * list Z) :=
  match fuel with
  | O => undef "readi: out of fuel"
  | S fuel' =>
    if tot <? n then
      let* addr := bmap ip (off / BSIZE) in
      if addr =? 0 then ret (tot, acc)
      else
        let* bp := f_bread addr in
        let m := Z.min (n - tot) (BSIZE - off mod BSIZE) in
        let* d := f_data bp in
        let bs := sub_bytes d (off mod BSIZE) m in
        match dst with
        | DKernel =>
          f_brelse bp ;;;
          readi_loop fuel' ip dst (off + m) (tot + m) n (acc ++ bs)
        | DUser va =>
          let* s := get in
          let '(r, u) := ucopyout (fs_user s) va bs in
          modify (fun s => Fs (fs_log s) (fs_sb s) (fs_itable s) (fs_pid s) u) ;;;
          f_brelse bp ;;;
          if r =? -1 then ret (-1, acc)
          else readi_loop fuel' ip (DUser (u64 (va + m))) (off + m) (tot + m) n acc
        end
    else ret (tot, acc)
  end.

Definition readi (ip : Z) (dst : rdst) (off n : Z) : M (fs C U) (Z * list Z) :=
  let* x := ip_get ip in
  let size := di_size (ip_di x) in
  if (size <? off) || (u32 (off + n) <? off) then ret (0, [])
  else
    let n := if size <? off + n then size - off else n in
    readi_loop (S (S (Z.to_nat (n / BSIZE + 1)))) ip dst off 0 n [].

Fixpoint writei_loop (fuel : nat) (ip : Z) (src : wsrc) (off tot n : Z) : M (fs C U) (Z * Z) :=
  match fuel with
  | O => undef "writei: out of fuel"
  | S fuel' =>
    if tot <? n then
      let* addr := bmap ip (off / BSIZE) in
      if addr =? 0 then ret (tot, off)
      else
        let* bp := f_bread addr in
        let m := Z.min (n - tot) (BSIZE - off mod BSIZE) in
        let* s := get in
        let '(r, bs) :=
          match src with
          | SKernel l => (0, take (Z.to_nat m) l)
          | SUser va => ucopyin (fs_user s) va m
          end in
        let* d := f_data bp in
        f_store bp (put_bytes d (off mod BSIZE) bs) ;;;
        if r =? -1 then f_brelse bp ;;; ret (tot, off)
        else
          f_log_write bp ;;;
          f_brelse bp ;;;
          let src' := match src with
                      | SKernel l => SKernel (drop (Z.to_nat m) l)
                      | SUser va => SUser (u64 (va + m))
                      end in
          writei_loop fuel' ip src' (off + m) (tot + m) n
    else ret (tot, off)
  end.

Definition writei (ip : Z) (src : wsrc) (off n : Z) : M (fs C U) Z :=
  let* x := ip_get ip in
  let size := di_size (ip_di x) in
  if (size <? off) || (u32 (off + n) <? off) then ret (-1)
  else if MAXFILE * BSIZE <? off + n then ret (-1)
  else
    let* r := writei_loop (S (S (Z.to_nat (n / BSIZE + 1)))) ip src off 0 n in
    let '(tot, off) := r in
    (if size <? off then di_upd ip (with_size off) else ret tt) ;;;
    iupdate ip ;;;
    ret tot.

(** ** Directories *)

(** [struct dirent] as the 16 bytes it is stored in. *)
Definition de_inum (de : list Z) : Z := get16 de 0.
Definition de_name (de : list Z) : list Z := sub_bytes de 2 DIRSIZ.
Definition dirent_bytes (inum : Z) (name : list Z) : list Z :=
  [inum mod 256; inum / 256 mod 256] ++ name_field name.

Fixpoint dirlookup_loop (fuel : nat) (dp : Z) (name : list Z) (off : Z) : M (fs C U) (option (Z * Z)) :=
  match fuel with
  | O => undef "dirlookup: out of fuel"
  | S fuel' =>
    let* x := ip_get dp in
    if off <? di_size (ip_di x) then
      let* r := readi dp DKernel off DIRENT in
      if negb (r.1 =? DIRENT) then panic "dirlookup read"
      else if de_inum r.2 =? 0 then dirlookup_loop fuel' dp name (off + DIRENT)
      else if namecmp name (de_name r.2) =? 0 then
        let* ip := iget (ip_dev x) (de_inum r.2) in
        ret (Some (ip, off))
      else dirlookup_loop fuel' dp name (off + DIRENT)
    else ret None
  end.

(** The inode found and the offset of its entry. *)
Definition dirlookup (dp : Z) (name : list Z) : M (fs C U) (option (Z * Z)) :=
  let* x := ip_get dp in
  if negb (di_type (ip_di x) =? T_DIR) then panic "dirlookup not DIR"
  else dirlookup_loop (S (S (Z.to_nat (di_size (ip_di x) / DIRENT)))) dp name 0.

(** The offset of the first empty entry, or the end of the directory. *)
Fixpoint find_dirent (fuel : nat) (dp off : Z) : M (fs C U) Z :=
  match fuel with
  | O => undef "dirlink: out of fuel"
  | S fuel' =>
    let* x := ip_get dp in
    if off <? di_size (ip_di x) then
      let* r := readi dp DKernel off DIRENT in
      if negb (r.1 =? DIRENT) then panic "dirlink read"
      else if de_inum r.2 =? 0 then ret off
      else find_dirent fuel' dp (off + DIRENT)
    else ret off
  end.

Definition dirlink (dp : Z) (name : list Z) (inum : Z) : M (fs C U) Z :=
  let* r := dirlookup dp name in
  match r with
  | Some (ip, _) => iput ip ;;; ret (-1)
  | None =>
    let* x := ip_get dp in
    let* off := find_dirent (S (S (Z.to_nat (di_size (ip_di x) / DIRENT)))) dp 0 in
    let* w := writei dp (SKernel (dirent_bytes inum name)) off DIRENT in
    if negb (w =? DIRENT) then ret (-1) else ret 0
  end.

(** ** Paths *)

(** The loop of [namex]: each iteration removes an element of the path. *)
Fixpoint namex_loop (fuel : nat) (ip : Z) (path : list Z) (nameiparent : bool) (name : list Z)
    : M (fs C U) (option (Z * list Z)) :=
  match fuel with
  | O => undef "namex: out of fuel"
  | S fuel' =>
    match skipelem path with
    | None =>
      if nameiparent then iput ip ;;; ret None else ret (Some (ip, name))
    | Some (path, name) =>
      ilock ip ;;;
      let* x := ip_get ip in
      if negb (di_type (ip_di x) =? T_DIR) then iunlockput ip ;;; ret None
      else if nameiparent && bool_decide (path = []) then
        iunlock ip ;;; ret (Some (ip, name))
      else
        let* r := dirlookup ip name in
        match r with
        | None => iunlockput ip ;;; ret None
        | Some (next, _) => iunlockput ip ;;; namex_loop fuel' next path nameiparent name
        end
    end
  end.

(** [cwd] is [myproc()->cwd]. *)
Definition namex (cwd : Z) (path : list Z) (nameiparent : bool) : M (fs C U) (option (Z * list Z)) :=
  let* ip := (if str_at path 0 =? 47 then iget 1 ROOTINO else idup cwd) in
  namex_loop (S (length path)) ip path nameiparent [].

Definition namei (cwd : Z) (path : list Z) : M (fs C U) (option Z) :=
  let* r := namex cwd path false in
  ret (match r with Some (ip, _) => Some ip | None => None end).

Definition nameiparent (cwd : Z) (path : list Z) : M (fs C U) (option (Z * list Z)) :=
  namex cwd path true.
End code.
