(* ===== verification/FsBase.v ===== *)
(** * The file system over the cache and the log

    How the code of kernel/fs.c uses a block: [bread] it, look at its data, change
    it and record the change with [log_write], [brelse] it.  [ready held s] is the
    condition between these steps: [held] are the buffers the operation holds
    locked, each with its block, and the references to a block are those of
    other operations ([base]), the pin of the log if the block is in the transaction, and
    ours.  The rules below are proved from the laws of the cache and of the log. *)

From Stdlib Require Import ZArith Lia.
From stdpp Require Import base list sets strings numbers.
From S2P Require Import Prelude Blocks BlockCache Log LogProofs LogOps Fs.

(** [wp] for postconditions that do not mention the events. *)
Definition wpn {S A} (m : M S A) (s : S) (Q : A -> S -> Prop) : Prop := wp m s (fun a s' _ => Q a s').

Lemma wpn_bind {S A B} (m : M S A) (k : A -> M S B) s Q :
  wpn m s (fun a s' => wpn (k a) s' Q) -> wpn (bind m k) s Q.
Proof. intros H. by apply wp_bind. Qed.

Lemma wpn_ret {S A} (a : A) (s : S) (Q : A -> S -> Prop) : Q a s -> wpn (ret a) s Q.
Proof. done. Qed.

Lemma wpn_mono {S A} (m : M S A) s (Q Q' : A -> S -> Prop) :
  wpn m s Q -> (forall a s', Q a s' -> Q' a s') -> wpn m s Q'.
Proof. intros H HQ. eapply wp_mono; [exact H|]. intros a s' t. apply HQ. Qed.

Lemma wpn_done {S A} (m : M S A) s Q : wpn m s Q -> exists a s' t, m s = Done a s' t /\ Q a s'.
Proof. apply wp_done. Qed.

Lemma wpn_run {S A} (m : M S A) s a s' t (Q : A -> S -> Prop) : m s = Done a s' t -> Q a s' -> wpn m s Q.
Proof. intros E H. unfold wpn, wp. by rewrite E. Qed.

Lemma wpn_assoc {S A B D} (m : M S A) (f : A -> M S B) (g : B -> M S D) s Q :
  wpn (bind (bind m f) g) s Q -> wpn (bind m (fun a => bind (f a) g)) s Q.
Proof. unfold wpn, wp. by rewrite bind_assoc. Qed.

Definition ind (P : Prop) `{Decision P} : Z := if decide P then 1 else 0.

Section base.
Context {C U : Type} `{HL : BlockCacheLaws C}.
Context (base : Z -> Z) (Hbase : forall n, 0 <= base n < 2 ^ 31).

Definition cache_of (s : fs C U) : C := ls_cache (fs_log s).
Definition lg (s : fs C U) : log := ls_log (fs_log s).
Definition fview (s : fs C U) : view := bc_view (cache_of s).
Definition content (s : fs C U) (n : Z) : block := v_content (fview s) n.
Definition nfree (s : fs C U) : Z := v_free (fview s).

Record ready (held : list (Z * Z)) (s : fs C U) : Prop := {
  rd_inv : bc_inv (cache_of s);
  rd_log : log_ok (lg s);
  rd_held n : v_held (fview s) n = bool_decide (n ∈ held.*2);
  rd_handle h n : (h, n) ∈ held -> bc_handle (cache_of s) h n;
  rd_nodup : NoDup held.*2;
  rd_refs n : v_refs (fview s) n = base n + ind (n ∈ logged (lg s)) + ind (n ∈ held.*2);
  rd_clean n : base n = 0 -> n ∉ logged (lg s) -> v_content (fview s) n = v_disk (fview s) n
}.

(** What is not the cache and not the log. *)
Definition rest (s : fs C U) : superblock * list inode * Z * U := (fs_sb s, fs_itable s, fs_pid s, fs_user s).

(** Only the cache's own state may have changed. *)
Definition reads (s s' : fs C U) : Prop := rest s' = rest s /\ lg s' = lg s /\ forall n, content s' n = content s n.

#[global] Instance reads_preorder : PreOrder reads.
Proof.
  split; [done|]. intros s1 s2 s3 (R1 & L1 & C1) (R2 & L2 & C2). split_and!; [congruence|congruence|].
  intros n. by rewrite C2.
Qed.

Lemma ind_range P `{Decision P} : 0 <= ind P <= 1.
Proof. unfold ind. case_decide; lia. Qed.
Lemma ind_true (P : Prop) `{Decision P} : P -> ind P = 1.
Proof. unfold ind. by case_decide. Qed.
Lemma ind_ext (P Q : Prop) `{Decision P, Decision Q} : (P <-> Q) -> ind P = ind Q.
Proof. intros E. unfold ind. repeat case_decide; naive_solver. Qed.
Lemma ind_false (P : Prop) `{Decision P} : ~ P -> ind P = 0.
Proof. unfold ind. by case_decide. Qed.

Lemma wpn_cache {A} (m : M C A) (s : fs C U) (Q : A -> fs C U -> Prop) :
  wp m (cache_of s) (fun a c _ =>
    Q a (Fs (Logstate (lg s) c) (fs_sb s) (fs_itable s) (fs_pid s) (fs_user s))) ->
  wpn (on_log (on_cache m)) s Q.
Proof.
  intros Hm. unfold wpn, on_log, on_cache. apply wp_lift, wp_lift. done.
Qed.

(** A block can be had: it is referenced already, or there is a free buffer. *)
Definition available (s : fs C U) (n : Z) : Prop := 0 < nfree s \/ 0 < v_refs (fview s) n.

Lemma wpn_bread held s n (Q : Z -> fs C U -> Prop) :
  ready held s -> n ∉ held.*2 -> available s n ->
  (forall h s', ready ((h, n) :: held) s' -> reads s s' -> nfree s - 1 <= nfree s' <= nfree s ->
     nfree s' = nfree s - (if v_refs (fview s) n =? 0 then 1 else 0) -> Q h s') ->
  wpn (f_bread n) s Q.
Proof.
  intros Hr Hn Hav HQ. apply wpn_cache.
  pose proof (rd_refs _ _ Hr n) as Hrf. pose proof (ind_range (n ∈ logged (lg s))). pose proof (Hbase n).
  rewrite (ind_false (n ∈ held.*2)) in Hrf by done.
  eapply wp_mono; [apply (bread_ok (cache_of s) n)|].
  - apply Hr.
  - rewrite (rd_held _ _ Hr). by rewrite bool_decide_eq_false.
  - fold (fview s). lia.
  - destruct Hav; auto.
  - intros h c t (I & _ & Vw & Hh & Hk). fold (fview s) in Vw.
    set (s' := Fs (Logstate (lg s) c) (fs_sb s) (fs_itable s) (fs_pid s) (fs_user s)).
    assert (Ev : fview s' = view_bread n (fview s)) by done.
    apply HQ; unfold nfree; rewrite ?Ev; [|split_and!; try done|simpl; case_bool; lia|done].
    + split; rewrite ?Ev; cbn [view_bread v_held v_refs v_content v_disk].
      * done.
      * apply Hr.
      * intros m. destruct (decide (m = n)) as [->|Hne].
        -- rewrite fset_eq, bool_decide_eq_true_2; [done|left].
        -- rewrite fset_ne, (rd_held _ _ Hr) by done. apply bool_decide_ext. simpl. rewrite elem_of_cons. naive_solver.
      * intros h' m [[= -> ->]|Hin]%elem_of_cons; [done|]. by apply Hk, Hr.
      * apply list.NoDup_cons. split; [done|apply Hr].
      * intros m. destruct (decide (m = n)) as [->|Hne].
        -- rewrite fset_eq, Hrf, (ind_true (n ∈ ((h, n) :: held).*2)) by left. unfold s', lg. simpl. lia.
        -- rewrite fset_ne, (rd_refs _ _ Hr) by done. f_equal.
           apply ind_ext. simpl. rewrite elem_of_cons. naive_solver.
      * apply Hr.
    + intros m. unfold content. by rewrite Ev.
Qed.

Lemma f_data_run held s h n : ready held s -> (h, n) ∈ held -> f_data h s = Done (content s n) s [].
Proof.
  intros Hr Hin. unfold f_data, on_log, on_cache, lift. simpl.
  change (ls_cache (fs_log s)) with (cache_of s).
  rewrite (data_ok (cache_of s) h n); [|apply Hr|by apply Hr]. simpl. by destruct s as [[]].
Qed.

Lemma wpn_data held s h n (Q : block -> fs C U -> Prop) :
  ready held s -> (h, n) ∈ held -> Q (content s n) s -> wpn (f_data h) s Q.
Proof. intros Hr Hin HQ. eapply wpn_run; [by eapply f_data_run|done]. Qed.

Lemma wpn_brelse held s h n (Q : unit -> fs C U -> Prop) :
  ready ((h, n) :: held) s ->
  (forall s', ready held s' -> reads s s' ->
     nfree s' = nfree s + (if v_refs (fview s) n =? 1 then 1 else 0) -> Q tt s') ->
  wpn (f_brelse h) s Q.
Proof.
  intros Hr HQ. apply wpn_cache. pose proof (rd_nodup _ _ Hr) as Hd. apply list.NoDup_cons in Hd as [Hn Hd].
  pose proof (rd_refs _ _ Hr n) as Hrf. rewrite (ind_true (n ∈ ((h, n) :: held).*2)) in Hrf by left. pose proof (Hbase n).
  pose proof (ind_range (n ∈ logged (lg s))).
  eapply wp_mono; [apply (brelse_ok (cache_of s) h n)|].
  - apply Hr.
  - apply Hr. left.
  - intros E1. fold (fview s) in *. apply (rd_clean _ _ Hr); [lia|].
    intros Hin. rewrite (ind_true _ Hin) in Hrf. lia.
  - intros [] c t (I & _ & Vw & Hk). fold (fview s) in Vw.
    set (s' := Fs (Logstate (lg s) c) (fs_sb s) (fs_itable s) (fs_pid s) (fs_user s)).
    assert (Ev : fview s' = view_brelse n (fview s)) by done.
    apply HQ; unfold nfree; rewrite ?Ev; [|split_and!; try done|done].
    + split; rewrite ?Ev; cbn [view_brelse v_held v_refs v_content v_disk].
      * done.
      * apply Hr.
      * intros m. destruct (decide (m = n)) as [->|Hne].
        -- by rewrite fset_eq, bool_decide_eq_false_2.
        -- rewrite fset_ne, (rd_held _ _ Hr) by done. apply bool_decide_ext. simpl. rewrite elem_of_cons. naive_solver.
      * intros h' m Hin. apply Hk; [|apply Hr; by right]. intros ->. apply Hn. by apply (list_elem_of_fmap_2 snd) in Hin.
      * done.
      * intros m. destruct (decide (m = n)) as [->|Hne].
        -- rewrite fset_eq, Hrf, (ind_false (n ∈ held.*2)) by done. unfold s', lg. simpl. lia.
        -- rewrite fset_ne, (rd_refs _ _ Hr) by done. f_equal.
           apply ind_ext. simpl. rewrite elem_of_cons. naive_solver.
      * apply Hr.
    + intros m. unfold content. by rewrite Ev.
Qed.

(** A block is read, and releasing it leaves everything as before. *)
Lemma wpn_bread_rel held s n (Q : Z -> fs C U -> Prop) :
  ready held s -> n ∉ held.*2 -> available s n ->
  (forall h s1, ready ((h, n) :: held) s1 -> reads s s1 -> nfree s - 1 <= nfree s1 ->
     f_data h s1 = Done (content s n) s1 [] ->
     (forall (Q' : unit -> fs C U -> Prop),
        (forall s2, ready held s2 -> reads s s2 -> nfree s2 = nfree s -> Q' tt s2) -> wpn (f_brelse h) s1 Q') ->
     Q h s1) ->
  wpn (f_bread n) s Q.
Proof.
  intros Hr Hn Hav HQ. eapply wpn_bread; [done|done|done|].
  intros h s1 Hr1 Hrd1 Hf Hf1. pose proof Hrd1 as (_ & El & Ec). apply HQ; [done|done|lia| |].
  - rewrite (f_data_run ((h, n) :: held) s1 h n) by (done || left). by rewrite Ec.
  - intros Q' HQ'. eapply (wpn_brelse held); [done|]. intros s2 Hr2 Hrd2 Hf2. apply HQ'; [done|by etrans|].
    pose proof (rd_refs _ _ Hr n) as E0. pose proof (rd_refs _ _ Hr1 n) as E1.
    rewrite (ind_false (n ∈ held.*2)) in E0 by done.
    rewrite (ind_true (n ∈ ((h, n) :: held).*2)) in E1 by left. rewrite El in E1. rewrite Hf2, Hf1. repeat case_bool; lia.
Qed.

(** ** Changing a block *)

(** Room for [k] more blocks in the transaction. *)
Definition room (l : log) (k : Z) : Prop :=
  0 < lg_outstanding l /\ lh_n (lg_lh l) + k <= LOGSIZE /\ lh_n (lg_lh l) + k <= lg_size l - 1.

Lemma room_absorb l n k : room l k -> room (absorb n l) (k - 1).
Proof. unfold room, absorb. simpl. case_bool; lia. Qed.

Lemma room_le l k k' : room l k -> k' <= k -> room l k'.
Proof. unfold room. lia. Qed.

Lemma absorb_same l n : lg_start (absorb n l) = lg_start l /\ lg_size (absorb n l) = lg_size l.
Proof. done. Qed.

Lemma elem_of_absorb l n m :
  log_ok l -> 0 <= n < 2 ^ 31 -> room l 1 -> m ∈ logged (absorb n l) <-> m = n \/ m ∈ logged l.
Proof using Type.
  intros Hl Hn (_ & Hr & _). clear base Hbase. rewrite logged_absorb by (done || lia). case_bool_decide as D.
  - split; [tauto|]. by intros [->|].
  - rewrite elem_of_app, list_elem_of_singleton. tauto.
Qed.

(** A store and the [log_write] that follows it. *)
Lemma wpn_store_log held s h n d (Q : unit -> fs C U -> Prop) :
  ready held s -> (h, n) ∈ held -> block_ok d -> 0 <= n < 2 ^ 31 -> ~ in_log (lg s) n -> room (lg s) 1 ->
  (forall s', ready held s' -> rest s' = rest s -> lg s' = absorb n (lg s) -> nfree s' = nfree s ->
     (forall m, content s' m = if decide (m = n) then d else content s m) -> Q tt s') ->
  wpn (f_store h d ;;; f_log_write h) s Q.
Proof.
  intros Hr Hin Hd Hn Hout Hroom HK. pose proof Hroom as (Ho & Hrm & Hsz).
  assert (Hn2 : n ∈ held.*2) by (apply (list_elem_of_fmap_2 snd) in Hin; done).
  pose proof (rd_refs _ _ Hr n) as Hrf. rewrite (ind_true _ Hn2) in Hrf.
  pose proof (ind_range (n ∈ logged (lg s))). pose proof (Hbase n).
  apply wpn_bind, wpn_cache. eapply wp_mono; [apply (store_ok (cache_of s) h n d); [apply Hr|by apply Hr|done]|].
  intros [] c t (I & _ & Vw & Hk). fold (fview s) in Vw. unfold wpn, f_log_write, on_log.
  apply wp_lift. eapply wp_mono; [apply (log_write_run (lg s) c h n)|].
  - apply Hr.
  - done.
  - by apply Hk, Hr.
  - done.
  - rewrite Vw. simpl. lia.
  - lia.
  - lia.
  - done.
  - intros [] [l2 c2] t2 (_ & El & I2 & V2 & Hk2). simpl in El, I2, V2, Hk2. subst l2.
    set (s' := Fs (Logstate (absorb n (lg s)) c2) (fs_sb s) (fs_itable s) (fs_pid s) (fs_user s)).
    change (Q tt s').
    assert (Ec : forall m, content s' m = if decide (m = n) then d else content s m).
    { intros m. unfold content, fview, cache_of, s'. simpl. rewrite V2, Vw.
      destruct (decide (m = n)) as [->|Hne]; case_bool_decide; simpl; by rewrite ?fset_eq, ?fset_ne. }
    assert (Er : forall m, v_refs (fview s') m = v_refs (fview s) m + if decide (m = n /\ n ∉ logged (lg s)) then 1 else 0).
    { intros m. unfold fview at 1, cache_of, s'. simpl. rewrite V2, Vw.
      destruct (decide (m = n)) as [->|Hne]; case_bool_decide; simpl; rewrite ?fset_eq, ?fset_ne by done;
        repeat case_decide; first [lia | exfalso; tauto]. }
    pose proof (elem_of_absorb (lg s) n) as Hab.
    apply HK; [|done|done| |exact Ec].
    + split.
      * done.
      * apply log_ok_absorb; [apply Hr|done|done|lia|lia].
      * intros m. rewrite <- (rd_held _ _ Hr). unfold fview at 1, cache_of, s'. simpl. rewrite V2, Vw.
        by case_bool_decide.
      * intros h' m Hm. by apply Hk2, Hk, Hr.
      * apply Hr.
      * intros m. rewrite Er, (rd_refs _ _ Hr). change (lg s') with (absorb n (lg s)).
        pose proof (Hab m (rd_log _ _ Hr) Hn Hroom) as Hm.
        destruct (decide (m = n /\ n ∉ logged (lg s))) as [[-> D]|D].
        -- rewrite (ind_true (n ∈ logged (absorb n (lg s)))), (ind_false (n ∈ logged (lg s))) by tauto. lia.
        -- rewrite (ind_ext (m ∈ logged (absorb n (lg s))) (m ∈ logged (lg s))); [lia|].
           destruct (decide (m = n)) as [->|]; [|tauto]. destruct (decide (n ∈ logged (lg s))); tauto.
      * intros m Hb Hm. change (lg s') with (absorb n (lg s)) in Hm.
        rewrite (Hab m (rd_log _ _ Hr) Hn Hroom) in Hm.
        pose proof (rd_clean _ _ Hr m Hb ltac:(tauto)) as Hcl.
        specialize (Ec m). rewrite decide_False in Ec by tauto. unfold content in Ec. rewrite Ec, Hcl.
        unfold fview at 2, cache_of, s'. simpl. rewrite V2, Vw. by case_bool_decide.
    + unfold nfree, fview, cache_of, s'. simpl. rewrite V2, Vw. by case_bool_decide.
Qed.
End base.

(** After boot, with an empty log, nothing is held and nothing pinned. *)
Lemma ready_boot {C U} `{HL : BlockCacheLaws C} (D : Z -> block) (l : log) sb it pid (u : U) :
  (forall n, block_ok (D n)) -> log_ok l -> lh_n (lg_lh l) = 0 ->
  let s := Fs (Logstate l (c_boot D)) sb it pid u in
  ready (fun _ => 0) [] s /\ nfree s = c_nbuf /\ forall n, content s n = D n.
Proof.
  intros HD Hl Hn s. destruct (boot_ok D HD) as [I V].
  assert (Ev : fview s = view_boot D c_nbuf) by done.
  assert (Hlg : logged (lg s) = []) by (unfold logged, lg, s; simpl; by rewrite Hn).
  split_and!.
  - split; rewrite ?Ev, ?Hlg; try done.
    + intros h n Hin. by apply not_elem_of_nil in Hin.
    + constructor.
  - unfold nfree. by rewrite Ev.
  - intros n. unfold content. by rewrite Ev.
Qed.

Definition empty_log : log := Log 2 31 1 0 (Logheader 0 (replicate 30 0)).

Lemma empty_log_ok : log_ok empty_log.
Proof.
  split; try done; try (simpl; lia); [constructor|]. intros n Hb. by apply elem_of_nil in Hb.
Qed.
