(* ===== verification/FsRead.v ===== *)
(** * kernel/fs.c: reading files and directories

    The content of a file is the sequence of bytes its block numbers, direct and
    through the indirect block, lead to.  [readi] returns a range of it, and
    [dirlookup] finds the first entry of a directory with the given name. *)

From Stdlib Require Import ZArith Lia.
From stdpp Require Import base list sets strings numbers.
From S2P Require Import Prelude Blocks BlockCache Log LogProofs LogOps Fs FsBase.

Section read.
Context {C U : Type} `{HL : BlockCacheLaws C}.
Implicit Type s : fs C U.

(** The block number of block [bn] of a file, 0 if it has none. *)
Definition file_addr (s : fs C U) (x : inode) (bn : Z) : Z :=
  if bn <? NDIRECT then addr_at x bn
  else if addr_at x NDIRECT =? 0 then 0
  else get32 (content s (addr_at x NDIRECT)) (4 * (bn - NDIRECT)).

Definition file_byte (s : fs C U) (x : inode) (i : Z) : Z :=
  byte_at (content s (file_addr s x (i / BSIZE))) (i mod BSIZE).

Definition file_bytes (s : fs C U) (x : inode) (off n : Z) : list Z := file_byte s x <$> seqZ off n.

(** Every block of the file is there. *)
Definition file_whole (s : fs C U) (x : inode) : Prop :=
  0 <= di_size (ip_di x) <= MAXFILE * BSIZE /\
  forall bn, 0 <= bn -> bn * BSIZE < di_size (ip_di x) -> file_addr s x bn <> 0.

Lemma file_addr_reads s s' x bn : reads s s' -> file_addr s' x bn = file_addr s x bn.
Proof. intros (_ & _ & E). unfold file_addr. by rewrite E. Qed.

Lemma file_byte_reads s s' x i : reads s s' -> file_byte s' x i = file_byte s x i.
Proof. intros Hs. pose proof Hs as (_ & _ & E). unfold file_byte. by rewrite E, (file_addr_reads s). Qed.

Lemma file_bytes_reads s s' x off n : reads s s' -> file_bytes s' x off n = file_bytes s x off n.
Proof. intros Hs. apply list_fmap_ext. intros i y _. by apply file_byte_reads. Qed.

Lemma file_whole_reads s s' x : reads s s' -> file_whole s x -> file_whole s' x.
Proof. intros Hs [H1 H2]. split; [done|]. intros bn. rewrite (file_addr_reads s) by done. apply H2. Qed.

Lemma wpn_ip_get s ip x (Q : inode -> fs C U -> Prop) :
  zget (fs_itable s) ip = Some x -> Q x s -> wpn (ip_get ip) s Q.
Proof. intros E HQ. unfold wpn, wp, ip_get, bind, get, of_option. simpl. by rewrite E. Qed.

Lemma itable_reads s s' : reads s s' -> fs_itable s' = fs_itable s /\ fs_sb s' = fs_sb s.
Proof. intros (E & _). unfold rest in E. naive_solver. Qed.

Context (base : Z -> Z) (Hbase : forall n, 0 <= base n < 2 ^ 31).
Abbreviation ready := (ready base).

(** ** [bmap] on a block that is there *)

Lemma bmap_read s ip x bn (Q : Z -> fs C U -> Prop) :
  ready [] s -> zget (fs_itable s) ip = Some x -> 0 < nfree s -> 0 <= bn < MAXFILE -> file_addr s x bn <> 0 ->
  (forall s', ready [] s' -> reads s s' -> nfree s' = nfree s -> Q (file_addr s x bn) s') ->
  wpn (bmap ip bn) s Q.
Proof.
  intros Hr Hx Hf Hbn Ha HQ. unfold bmap. unfold file_addr in *.
  destruct (Z.ltb_spec bn NDIRECT) as [Hd|Hd].
  - apply wpn_bind, (wpn_ip_get _ _ x); [done|]. rewrite (proj2 (Z.eqb_neq _ _) Ha). apply wpn_ret.
    by apply HQ.
  - rewrite (proj2 (Z.ltb_lt (bn - NDIRECT) NINDIRECT)) by (unfold MAXFILE in *; lia).
    apply wpn_bind, (wpn_ip_get _ _ x); [done|]. destruct (Z.eqb_spec (addr_at x NDIRECT) 0) as [|Hi]; [done|].
    apply wpn_bind, wpn_ret. rewrite (proj2 (Z.eqb_neq _ _) Hi).
    apply wpn_bind, (wpn_bread_rel base Hbase []); [done|apply not_elem_of_nil|by left|].
    intros h s1 _ _ _ Ed Hrel.
    apply wpn_bind. eapply wpn_run; [exact Ed|]. cbv zeta. rewrite (proj2 (Z.eqb_neq _ _) Ha).
    apply wpn_bind, wpn_ret, wpn_bind, Hrel. intros s2 Hr2 Hrd2 Hf2. apply wpn_ret. by apply HQ.
Qed.

(** ** [readi] *)

Context (ucopyout : U -> Z -> list Z -> Z * U).

Lemma sub_bytes_file s x off m :
  block_ok (content s (file_addr s x (off / BSIZE))) -> 0 <= off -> 0 <= m -> off mod BSIZE + m <= BSIZE ->
  sub_bytes (content s (file_addr s x (off / BSIZE))) (off mod BSIZE) m = file_bytes s x off m.
Proof.
  intros Hb Hoff Hm Hend. unfold sub_bytes, file_bytes. unfold block_ok in Hb.
  pose proof (Z.mod_pos_bound off BSIZE ltac:(unfold BSIZE; lia)).
  set (d := content s (file_addr s x (off / BSIZE))) in *.
  apply list_eq_same_length with (Z.to_nat m).
  - by rewrite length_fmap, length_seqZ.
  - rewrite length_take, length_drop, Hb. unfold BSIZE in *. lia.
  - intros i a b Hi Ea Eb. rewrite lookup_take_lt, lookup_drop in Ea by lia.
    rewrite list_lookup_fmap, lookup_seqZ_lt in Eb by lia. injection Eb as <-.
    assert (E : (off + Z.of_nat i) / BSIZE = off / BSIZE /\ (off + Z.of_nat i) mod BSIZE = off mod BSIZE + Z.of_nat i).
    { pose proof (Z.div_mod off BSIZE ltac:(unfold BSIZE; lia)). split; symmetry.
      - apply Z.div_unique with (off mod BSIZE + Z.of_nat i); lia.
      - apply Z.mod_unique with (off / BSIZE); lia. }
    unfold file_byte. destruct E as [-> ->]. fold d. unfold byte_at, zget.
    rewrite (proj2 (Z.leb_le 0 _)), Z2Nat.inj_add, Nat2Z.id by lia. by rewrite Ea.
Qed.

Lemma file_bytes_app s x off n m : 0 <= n -> 0 <= m ->
  file_bytes s x off n ++ file_bytes s x (off + n) m = file_bytes s x off (n + m).
Proof. intros Hn Hm. unfold file_bytes. by rewrite <- fmap_app, <- seqZ_app by lia. Qed.

Lemma readi_loop_run fuel s ip x off tot n acc (Q : Z * list Z -> fs C U -> Prop) :
  ready [] s -> zget (fs_itable s) ip = Some x -> 0 < nfree s -> file_whole s x ->
  0 <= off -> tot <= n -> off + (n - tot) <= di_size (ip_di x) ->
  (0 < fuel)%nat -> (tot < n -> off mod BSIZE + (n - tot) <= (Z.of_nat fuel - 1) * BSIZE) ->
  (forall s', ready [] s' -> reads s s' -> nfree s' = nfree s -> Q (n, acc ++ file_bytes s x off (n - tot)) s') ->
  wpn (readi_loop ucopyout fuel ip DKernel off tot n acc) s Q.
Proof.
  revert s off tot acc. induction fuel as [|fuel IH]; intros s off tot acc Hr Hx Hf Hw Hoff Htot Hsz Hfu Hfuel HQ; [lia|].
  cbn [readi_loop]. destruct (Z.ltb_spec tot n) as [Hlt|Hge].
  2: { apply wpn_ret. replace (n - tot) with 0 in HQ by lia. replace tot with n by lia.
       unfold file_bytes in HQ. simpl in HQ. rewrite app_nil_r in HQ. by apply HQ. }
  specialize (Hfuel Hlt). pose proof Hw as [[Hs0 Hs1] Hwa].
  pose proof (Z.mod_pos_bound off BSIZE ltac:(unfold BSIZE; lia)) as Hmod.
  pose proof (Z.div_mod off BSIZE ltac:(unfold BSIZE; lia)) as Hdm.
  assert (Hbn : 0 <= off / BSIZE) by (apply Z.div_pos; unfold BSIZE; lia).
  assert (Ha : file_addr s x (off / BSIZE) <> 0) by (apply Hwa; lia).
  apply wpn_bind, (bmap_read s ip x); [done|done|done|unfold MAXFILE, BSIZE in *; lia|done|].
  intros s1 Hr1 Hrd1 Hf1. rewrite (proj2 (Z.eqb_neq _ _) Ha).
  apply wpn_bind, (wpn_bread_rel base Hbase []); [done|apply not_elem_of_nil|left; lia|].
  intros h s2 _ Hrd2 _ Ed Hrel.
  set (m := Z.min (n - tot) (BSIZE - off mod BSIZE)). assert (Hm : 0 < m <= n - tot) by lia.
  apply wpn_bind. eapply wpn_run; [exact Ed|]. pose proof Hrd1 as (_ & _ & Ec). rewrite Ec.
  rewrite sub_bytes_file by (lia || apply content_ok, Hr).
  apply wpn_bind, Hrel. intros s3 Hr3 Hrd3 Hf3. assert (Hrd : reads s s3) by (by etrans).
  destruct (itable_reads s s3 Hrd) as [Et _].
  apply IH; [done|by rewrite Et|lia|by eapply file_whole_reads|lia|lia|lia| | |].
  - destruct (Z.eqb_spec (Z.of_nat fuel) 0); [|lia]. exfalso. rewrite Nat2Z.inj_succ in Hfuel. lia.
  - intros Hlt'. assert (m = BSIZE - off mod BSIZE) as Em by lia.
    assert ((off + m) mod BSIZE = 0) as ->; [|rewrite Nat2Z.inj_succ in Hfuel; lia].
    replace (off + m) with ((off / BSIZE + 1) * BSIZE) by lia. apply Z.mod_mul. unfold BSIZE. lia.
  - intros s4 Hr4 Hrd4 Hf4. rewrite <- app_assoc, (file_bytes_reads s s3) by done.
    rewrite file_bytes_app by lia. replace (m + (n - (tot + m))) with (n - tot) by lia.
    apply HQ; [done|by etrans|lia].
Qed.

(** The number of bytes [readi] returns. *)
Definition readi_len (size off n : Z) : Z :=
  if (size <? off) || (2 ^ 32 <=? off + n) then 0 else Z.min n (size - off).

Lemma readi_run s ip x off n (Q : Z * list Z -> fs C U -> Prop) :
  ready [] s -> zget (fs_itable s) ip = Some x -> 0 < nfree s -> file_whole s x ->
  0 <= off < 2 ^ 32 -> 0 <= n < 2 ^ 32 ->
  let len := readi_len (di_size (ip_di x)) off n in
  (forall s', ready [] s' -> reads s s' -> nfree s' = nfree s -> Q (len, file_bytes s x off len) s') ->
  wpn (readi ucopyout ip DKernel off n) s Q.
Proof.
  intros Hr Hx Hf Hw Hoff Hn len HQ. unfold readi. apply wpn_bind, (wpn_ip_get _ _ x); [done|].
  assert (Ew : (u32 (off + n) <? off) = (2 ^ 32 <=? off + n)).
  { destruct (Z.leb_spec (2 ^ 32) (off + n)).
    - replace (off + n) with (off + n - 2 ^ 32 + 1 * 2 ^ 32) by lia. unfold u32, wrap.
      rewrite Z.mod_add, Z.mod_small by lia. apply Z.ltb_lt. lia.
    - rewrite wrap_small by lia. apply Z.ltb_ge. lia. }
  rewrite Ew. unfold len, readi_len in *.
  destruct ((di_size (ip_di x) <? off) || (2 ^ 32 <=? off + n)) eqn:E; [apply wpn_ret, HQ; done|].
  apply orb_false_iff in E as [E1%Z.ltb_ge E2%Z.leb_gt].
  assert (En : (if di_size (ip_di x) <? off + n then di_size (ip_di x) - off else n) = Z.min n (di_size (ip_di x) - off))
    by (case_bool; lia).
  rewrite En. set (k := Z.min n (di_size (ip_di x) - off)) in *.
  apply (readi_loop_run _ s ip x off 0 k); [done|done|done|done|lia|lia|lia|lia| |].
  - intros _. pose proof (Z.mod_pos_bound off BSIZE ltac:(unfold BSIZE; lia)).
    pose proof (Z.div_mod k BSIZE ltac:(unfold BSIZE; lia)). pose proof (Z.mod_pos_bound k BSIZE ltac:(unfold BSIZE; lia)).
    assert (0 <= k / BSIZE) by (apply Z.div_pos; unfold BSIZE; lia).
    rewrite !Nat2Z.inj_succ, Z2Nat.id by lia. unfold BSIZE in *. lia.
  - rewrite Z.sub_0_r. apply HQ.
Qed.

(** [readi] into a kernel buffer reads the file: for a file all of whose blocks
    are allocated it returns exactly the bytes of the range that lie before the end of the
    file, through direct blocks and the indirect block alike, nothing if the range starts
    after the end or its end overflows, and leaves the file system as it was. *)
Theorem readi_correct s ip x off n :
  ready [] s -> zget (fs_itable s) ip = Some x -> 0 < nfree s -> file_whole s x ->
  0 <= off < 2 ^ 32 -> 0 <= n < 2 ^ 32 ->
  let len := readi_len (di_size (ip_di x)) off n in
  exists s' t, readi ucopyout ip DKernel off n s = Done (len, file_bytes s x off len) s' t /\
    ready [] s' /\ reads s s'.
Proof.
  intros Hr Hx Hf Hw Hoff Hn len.
  assert (G : wpn (readi ucopyout ip DKernel off n) s (fun r s' =>
    r = (len, file_bytes s x off len) /\ ready [] s' /\ reads s s')).
  { apply (readi_run s ip x); [done..|]. intros s' Hr' Hrd' _. done. }
  apply wpn_done in G as (a & s' & t & E & -> & ? & ?). eauto.
Qed.
End read.

(** ** Names *)

(** The string in a field of [n] bytes: the characters before the NUL. *)
Fixpoint cname (n : nat) (s : list Z) : list Z :=
  match n with
  | O => []
  | S n' => if str_at s 0 =? 0 then [] else str_at s 0 :: cname n' (tail s)
  end.

Lemma strncmp_list_eq n s t : strncmp_list n s t = 0 <-> cname n s = cname n t.
Proof.
  revert s t. induction n as [|n IH]; intros s t; cbn [strncmp_list cname]; [done|]. cbv zeta.
  destruct (Z.eqb_spec (str_at s 0) 0) as [Es|Hs]; cbn [negb andb].
  - destruct (Z.eqb_spec (str_at t 0) 0); split; intros; (done || lia).
  - destruct (Z.eqb_spec (str_at s 0) (str_at t 0)) as [E|Hne].
    + rewrite IH, <- E, (proj2 (Z.eqb_neq _ _) Hs). split; [intros ->; done|congruence].
    + split; [lia|]. destruct (str_at t 0 =? 0); congruence.
Qed.
