(* ===== verification/FsDir.v ===== *)
(** * kernel/fs.c: the inode table and directories *)

From Stdlib Require Import ZArith Lia.
From stdpp Require Import base list sets strings numbers.
From S2P Require Import Prelude Sleeplock Blocks BlockCache Log LogProofs LogOps Bio BioProofs Fs FsBase FsRead.

(** ** Directory entries *)

Lemma de_inum_bytes n name : 0 <= n < 2 ^ 16 -> de_inum (dirent_bytes n name) = n.
Proof.
  intros Hn. change (de_inum (dirent_bytes n name)) with (n mod 256 + 256 * (n / 256 mod 256 + 256 * 0)).
  pose proof (Z.div_mod n 256 ltac:(lia)). rewrite (Z.mod_small (n / 256)) by (split; [apply Z.div_pos; lia|apply Z.div_lt_upper_bound; lia]). lia.
Qed.

Lemma de_name_bytes n name : de_name (dirent_bytes n name) = name_field name.
Proof.
  unfold de_name, sub_bytes, dirent_bytes. change (Z.to_nat 2) with 2%nat. cbn [app drop].
  apply take_ge. unfold name_field. rewrite length_take. lia.
Qed.

Lemma cname_ext n s t : (forall k, (k < n)%nat -> nth k s 0 = nth k t 0) -> cname n s = cname n t.
Proof.
  revert s t. induction n as [|n IH]; intros s t H; cbn [cname]; [done|].
  assert (E : str_at s 0 = str_at t 0) by (pose proof (H 0%nat ltac:(lia)); by destruct s, t). rewrite E. case_match; [done|]. f_equal.
  apply IH. intros k Hk. pose proof (H (S k) ltac:(lia)). by destruct s, t; cbn in *; destruct k.
Qed.

Lemma cname_take n s : cname n (take n s) = cname n s.
Proof. apply cname_ext. intros k Hk. rewrite !nth_lookup. by rewrite lookup_take_lt by lia. Qed.

Lemma cname_field name : cname (Z.to_nat DIRSIZ) (name_field name) = cname (Z.to_nat DIRSIZ) name.
Proof.
  unfold name_field. rewrite cname_take. apply cname_ext. intros k Hk. rewrite !nth_lookup.
  destruct (decide (k < length name)%nat) as [Hl|Hl]; [by rewrite lookup_app_l by lia|].
  rewrite lookup_app_r, lookup_replicate_2, (lookup_ge_None_2 name) by lia. done.
Qed.

Lemma length_dirent_bytes n name : length (dirent_bytes n name) = 16%nat.
Proof. unfold dirent_bytes, name_field. rewrite length_app, length_take, length_app, length_replicate. unfold DIRSIZ. simpl length. lia. Qed.

(** ** [iget] *)

(** An entry in use for this inode. *)
Definition entry_for (dev inum : Z) (x : inode) : Prop := 0 < ip_ref x /\ ip_dev x = dev /\ ip_inum x = inum.

Lemma iget_scan_spec t i dev inum empty :
  match iget_scan t i dev inum empty with
  | (Some k, _) => exists x, zget t (k - i) = Some x /\ entry_for dev inum x
  | (None, e) => (forall x, x ∈ t -> ~ entry_for dev inum x) /\
      match empty with
      | Some k => e = Some k
      | None => match e with
                | Some k => exists x, zget t (k - i) = Some x /\ ip_ref x = 0
                | None => forall x, x ∈ t -> ip_ref x <> 0
                end
      end
  end.
Proof.
  revert i empty. induction t as [|x t IH]; intros i empty; cbn [iget_scan].
  { split; [intros x Hx; by apply not_elem_of_nil in Hx|]. destruct empty; [done|].
    intros x Hx. by apply not_elem_of_nil in Hx. }
  destruct ((0 <? ip_ref x) && (ip_dev x =? dev) && (ip_inum x =? inum)) eqn:E.
  { exists x. rewrite Z.sub_diag. split; [done|].
    apply andb_true_iff in E as [[E1%Z.ltb_lt E2%Z.eqb_eq]%andb_true_iff E3%Z.eqb_eq]. done. }
  assert (Hx : ~ entry_for dev inum x).
  { intros (H1%Z.ltb_lt & H2%Z.eqb_eq & H3%Z.eqb_eq). by rewrite H1, H2, H3 in E. }
  assert (Hnext : forall k y, zget t (k - (i + 1)) = Some y -> zget (x :: t) (k - i) = Some y).
  { intros k y Hk. pose proof (zget_Some _ _ _ Hk). unfold zget in *.
    rewrite (proj2 (Z.leb_le 0 (k - (i + 1)))) in Hk by lia. rewrite (proj2 (Z.leb_le 0 (k - i))) by lia.
    replace (Z.to_nat (k - i)) with (S (Z.to_nat (k - (i + 1)))) by lia. done. }
  specialize (IH (i + 1) (match empty with
    | None => if ip_ref x =? 0 then Some i else None | Some e => Some e end)).
  destruct (iget_scan t (i + 1) dev inum _) as [[k|] e].
  - destruct IH as (y & Hk & Hy). exists y. auto.
  - destruct IH as [Hno He]. split; [intros y [->|Hy]%elem_of_cons; auto|].
    destruct empty as [k|]; [done|]. destruct (Z.eqb_spec (ip_ref x) 0) as [Hz|Hnz].
    + subst e. exists x. by rewrite Z.sub_diag.
    + destruct e as [k|]; [destruct He as (y & Hk & Hy); exists y; auto|].
      intros y [->|Hy]%elem_of_cons; auto.
Qed.

Section dir.
Context {C U : Type} `{HL : BlockCacheLaws C}.
Context (ucopyout : U -> Z -> list Z -> Z * U).
Context (base : Z -> Z) (Hbase : forall n, 0 <= base n < 2 ^ 31).
Abbreviation ready := (ready base).
Implicit Type s : fs C U.

(** What [iget] does to the table. *)
Definition iget_post (t t' : list inode) (dev inum ip : Z) : Prop :=
  exists x, zget t ip = Some x /\
    (entry_for dev inum x /\ t' = zset t ip (set_ref (ip_ref x + 1) x) \/
     ip_ref x = 0 /\ (forall y, y ∈ t -> ~ entry_for dev inum y) /\
     t' = zset t ip (Inode dev inum 1 (ip_lock x) 0 (ip_di x))).

(** There is an entry for the inode, or a free one. *)
Definition iget_room (t : list inode) (dev inum : Z) : Prop :=
  exists x, x ∈ t /\ (entry_for dev inum x \/ ip_ref x = 0).

Definition with_itable (t : list inode) (s : fs C U) : fs C U := Fs (fs_log s) (fs_sb s) t (fs_pid s) (fs_user s).

Lemma ip_upd_run s ip x f : zget (fs_itable s) ip = Some x ->
  ip_upd ip f s = Done tt (with_itable (zset (fs_itable s) ip (f x)) s) [].
Proof. intros E. unfold ip_upd, ip_get, bind, get, of_option. simpl. by rewrite E. Qed.

Lemma iget_run s dev inum : iget_room (fs_itable s) dev inum ->
  exists ip t', iget dev inum s = Done ip (with_itable t' s) [] /\ iget_post (fs_itable s) t' dev inum ip.
Proof.
  intros (y & Hy & Hor). unfold iget, bind at 1, get. cbn beta iota.
  pose proof (iget_scan_spec (fs_itable s) 0 dev inum None) as Hsc.
  destruct (iget_scan (fs_itable s) 0 dev inum None) as [[k|] [e|]].
  1, 2: destruct Hsc as (x & Hk & Hx); rewrite Z.sub_0_r in Hk; eexists k, _;
    (split; [erewrite prepend_nil, bind_Done by (by apply ip_upd_run); done|]); exists x; auto.
  - destruct Hsc as (Hno & x & He & Hx). rewrite Z.sub_0_r in He. eexists e, _.
    split; [erewrite prepend_nil, bind_Done by (by apply ip_upd_run); done|]. exists x. split; [done|]. right. done.
  - exfalso. destruct Hsc as [Hno Hnz]. destruct Hor as [Hor|Hor]; [by apply (Hno y)|by apply (Hnz y)].
Qed.

(** ** [dirlookup] *)

(** Entry [i] of a directory, and whether it has the name. *)
Definition dirent_at (s : fs C U) (x : inode) (i : Z) : list Z := file_bytes s x (i * DIRENT) DIRENT.
Definition named (s : fs C U) (x : inode) (name : list Z) (i : Z) : Prop :=
  de_inum (dirent_at s x i) <> 0 /\
  cname (Z.to_nat DIRSIZ) name = cname (Z.to_nat DIRSIZ) (de_name (dirent_at s x i)).

(** The result of [dirlookup] on a directory of [cnt] entries. *)
Definition dirlookup_post (s : fs C U) (x : inode) (name : list Z) (cnt : Z) (r : option (Z * Z)) (s' : fs C U) : Prop :=
  match r with
  | None => (forall i, 0 <= i < cnt -> ~ named s x name i) /\ ready [] s' /\ reads s s' /\ nfree s' = nfree s
  | Some (ip, off) => exists i t' s1, 0 <= i < cnt /\ off = i * DIRENT /\ named s x name i /\
      (forall j, 0 <= j < i -> ~ named s x name j) /\
      iget_post (fs_itable s) t' (ip_dev x) (de_inum (dirent_at s x i)) ip /\
      s' = with_itable t' s1 /\ ready [] s1 /\ reads s s1 /\ nfree s1 = nfree s
  end.

Lemma dirlookup_loop_run fuel s0 s dp x name i cnt :
  ready [] s -> reads s0 s -> nfree s = nfree s0 -> zget (fs_itable s0) dp = Some x -> 0 < nfree s0 -> file_whole s0 x ->
  di_size (ip_di x) = cnt * DIRENT -> 0 <= i <= cnt -> (Z.to_nat (cnt - i) < fuel)%nat ->
  (forall j, 0 <= j < cnt -> iget_room (fs_itable s0) (ip_dev x) (de_inum (dirent_at s0 x j))) ->
  (forall j, 0 <= j < i -> ~ named s0 x name j) ->
  wpn (dirlookup_loop ucopyout fuel dp name (i * DIRENT)) s (dirlookup_post s0 x name cnt).
Proof.
  revert s i. induction fuel as [|fuel IH]; intros s i Hr Hrd Hnf Hx Hf Hw Hsz Hi Hfuel Hroom Hno; [lia|].
  destruct (itable_reads s0 s Hrd) as [Et _]. pose proof (file_whole_reads s0 s x Hrd Hw) as Hw'.
  pose proof Hw as [[_ Hmax] _]. change (MAXFILE * BSIZE) with 274432 in Hmax.
  cbn [dirlookup_loop]. apply wpn_bind, (wpn_ip_get _ _ x); [by rewrite Et|].
  rewrite Hsz. destruct (Z.ltb_spec (i * DIRENT) (cnt * DIRENT)) as [Hlt|Hge].
  2: { apply wpn_ret. split_and!; [|done|done|done]. intros j Hj. apply Hno. unfold DIRENT in *. lia. }
  assert (Hic : i < cnt) by (unfold DIRENT in *; lia).
  apply wpn_bind, (readi_run base Hbase ucopyout s dp x);
    [done|by rewrite Et|lia|done|unfold DIRENT in *; lia|unfold DIRENT; lia|].
  rewrite Hsz. assert (readi_len (cnt * DIRENT) (i * DIRENT) DIRENT = DIRENT) as ->.
  { unfold readi_len. rewrite (proj2 (Z.ltb_ge _ _)) by lia.
    rewrite (proj2 (Z.leb_gt _ _)) by (unfold DIRENT in *; lia).
    simpl. unfold DIRENT. lia. }
  intros s1 Hr1 Hrd1 Hf1. cbn [fst snd]. rewrite Z.eqb_refl. cbn [negb].
  rewrite (file_bytes_reads s0 s) by done. fold (dirent_at s0 x i).
  assert (Hrd2 : reads s0 s1) by (by etrans).
  assert (Hnext : ~ named s0 x name i ->
    wpn (dirlookup_loop ucopyout fuel dp name (i * DIRENT + DIRENT)) s1 (dirlookup_post s0 x name cnt)).
  { intros Hn. replace (i * DIRENT + DIRENT) with ((i + 1) * DIRENT) by lia.
    apply IH; try done; [lia|lia|lia|]. intros j Hj. destruct (decide (j = i)) as [->|]; [done|]. apply Hno. lia. }
  destruct (Z.eqb_spec (de_inum (dirent_at s0 x i)) 0) as [Hz|Hnz]; [apply Hnext; intros [? _]; done|].
  destruct (Z.eqb_spec (namecmp name (de_name (dirent_at s0 x i))) 0) as [Hc|Hc].
  2: { apply Hnext. intros [_ Hc']. by apply Hc, strncmp_list_eq. }
  destruct (itable_reads s0 s1 Hrd2) as [Et1 _].
  destruct (iget_run s1 (ip_dev x) (de_inum (dirent_at s0 x i))) as (ip & t' & E & Hp); [rewrite Et1; apply Hroom; lia|].
  apply wpn_bind. eapply wpn_run; [exact E|]. apply wpn_ret. exists i, t', s1. rewrite Et1 in Hp.
  split; [lia|]. split; [done|]. split; [split; [done|by apply strncmp_list_eq]|]. split_and!; try done. lia.
Qed.

Lemma dirlookup_run s dp x name cnt :
  ready [] s -> zget (fs_itable s) dp = Some x -> 0 < nfree s -> file_whole s x ->
  di_type (ip_di x) = T_DIR -> di_size (ip_di x) = cnt * DIRENT ->
  (forall j, 0 <= j < cnt -> iget_room (fs_itable s) (ip_dev x) (de_inum (dirent_at s x j))) ->
  wpn (dirlookup ucopyout dp name) s (dirlookup_post s x name cnt).
Proof.
  intros Hr Hx Hf Hw Hty Hsz Hroom. unfold dirlookup. apply wpn_bind, (wpn_ip_get _ _ x); [done|].
  rewrite Hty, Z.eqb_refl. cbn [negb]. pose proof Hw as [[Hs0 _] _].
  pose proof (dirlookup_loop_run (S (S (Z.to_nat (di_size (ip_di x) / DIRENT)))) s s dp x name 0 cnt) as G.
  simpl in G. apply G; try done; [unfold DIRENT in *; lia| |lia].
  rewrite Hsz, Z.div_mul by (unfold DIRENT; lia). lia.
Qed.

(** [dirlookup] finds names: in a directory whose blocks are all allocated it
    returns the first entry in use with the name, compared as strings of at
    most [DIRSIZ] characters, with its offset and a new reference to its inode in the table
    (the entry that was in use for that inode, or a free one), and null exactly when there is
    no such entry.  The blocks and the log are not changed. *)
Theorem dirlookup_correct s dp x name cnt :
  ready [] s -> zget (fs_itable s) dp = Some x -> 0 < nfree s -> file_whole s x ->
  di_type (ip_di x) = T_DIR -> di_size (ip_di x) = cnt * DIRENT ->
  (forall j, 0 <= j < cnt -> iget_room (fs_itable s) (ip_dev x) (de_inum (dirent_at s x j))) ->
  exists r s' t, dirlookup ucopyout dp name s = Done r s' t /\ dirlookup_post s x name cnt r s'.
Proof. intros Hr Hx Hf Hw Hty Hsz Hroom. apply wpn_done. by apply dirlookup_run. Qed.
End dir.

#[local] Instance demo_cache : BlockCache bcache := bio_cache 1.
#[local] Instance demo_laws : BlockCacheLaws bcache := bio_laws 1.

(** A directory in block 40 with the single entry [.], and a free inode. *)
Definition demo_dir_disk (n : Z) : block :=
  if n =? 40 then put_bytes zero_block 0 (dirent_bytes 1 (bytes ".")) else zero_block.
Definition demo_dir : inode := Inode 1 1 1 (Sleeplock 0 0) 1 (Dinode T_DIR 0 0 1 16 (40 :: replicate 12 0)).
Definition demo_itable : list inode := [demo_dir; Inode 0 0 0 (Sleeplock 0 0) 0 zero_dinode].
Definition demo_sb : superblock := Superblock FSMAGIC 1000 900 200 30 2 32 45.

Lemma demo_dir_ready :
  let s := Fs (Logstate empty_log (c_boot demo_dir_disk)) demo_sb demo_itable 1 tt in
  ready (fun _ => 0) [] s /\ 0 < nfree s /\ file_whole s demo_dir /\
  file_bytes s demo_dir 0 16 = dirent_bytes 1 (bytes ".").
Proof.
  intros s. destruct (ready_boot demo_dir_disk empty_log demo_sb demo_itable 1 tt) as (Hr & Hf & Hc).
  - intros n. unfold demo_dir_disk. destruct (n =? 40); [by vm_compute|apply block_ok_zero].
  - apply empty_log_ok.
  - done.
  - split_and!; [exact Hr|unfold s; by rewrite Hf| |].
    + split; [change (0 <= 16 <= 274432); lia|]. intros bn H0 Hbn.
      assert (bn = 0) as ->; [|discriminate]. unfold BSIZE in Hbn. change (bn * 1024 < 16) in Hbn. lia.
    + rewrite <- sub_bytes_file; [|apply content_ok, Hr|lia|lia|done].
      change (file_addr s demo_dir (0 / BSIZE)) with 40. unfold s. rewrite Hc. reflexivity.
Qed.

Lemma readi_correct_witness :
  exists s s' t, readi (fun (u : unit) _ _ => (0, u)) 0 DKernel 0 100 s = Done (16, dirent_bytes 1 (bytes ".")) s' t.
Proof.
  destruct demo_dir_ready as (Hr & Hf & Hw & Hb).
  set (s := Fs (Logstate empty_log (c_boot demo_dir_disk)) demo_sb demo_itable 1 tt) in *.
  destruct (readi_correct (fun _ => 0) ltac:(intros; lia) (fun u _ _ => (0, u)) s 0 demo_dir 0 100 Hr eq_refl Hf Hw)
    as (s' & t & E & _).
  - lia.
  - lia.
  - exists s, s', t. rewrite E. change (readi_len (di_size (ip_di demo_dir)) 0 100) with 16.
    rewrite Hb. reflexivity.
Defined.

Lemma dirlookup_correct_witness :
  exists s ip s' t, dirlookup (fun (u : unit) _ _ => (0, u)) 0 (bytes ".") s = Done (Some (ip, 0)) s' t.
Proof.
  destruct demo_dir_ready as (Hr & Hf & Hw & Hb).
  set (s := Fs (Logstate empty_log (c_boot demo_dir_disk)) demo_sb demo_itable 1 tt) in *.
  destruct (dirlookup_correct (fun u _ _ => (0, u)) (fun _ => 0) ltac:(intros; lia) s 0 demo_dir (bytes ".") 1
    Hr eq_refl Hf Hw eq_refl eq_refl) as (r & s' & t & E & Hp).
  - intros j Hj. exists (Inode 0 0 0 (Sleeplock 0 0) 0 zero_dinode). split; [right; left|right; reflexivity].
  - destruct r as [[ip off]|].
    + exists s, ip, s', t. rewrite E. destruct Hp as (i & _ & _ & Hi & -> & _). replace i with 0 by lia. reflexivity.
    + exfalso. destruct Hp as [Hno _]. apply (Hno 0); [lia|].
      unfold named, dirent_at. change (0 * DIRENT) with 0. change DIRENT with 16. rewrite Hb.
      split; [discriminate|reflexivity].
Defined.
