(* ===== verification/FsAlloc.v ===== *)
(** * kernel/fs.c: allocating blocks, and inodes on disk

    [balloc] finds a free block in the bitmap, marks it and clears it; [bfree] marks it
    free again.  An operation has a budget of log slots and buffers ([res]); every
    block it changes takes at most one of each.  A dinode is a record of 64 bytes in a block: writing
    one and reading it back gives the same record, the records next to it are not touched, and
    [iupdate] copies an in-memory inode to its place. *)

From Stdlib Require Import ZArith Lia.
From stdpp Require Import base list sets gmap strings numbers.
From S2P Require Import Prelude Blocks BlockCache Log LogProofs LogOps Fs FsBase FsRead.

Lemma size_list_to_set_le (l : list Z) : (size (list_to_set l : gset Z) <= length l)%nat.
Proof.
  induction l as [|x l IH]; cbn [list_to_set length]; [by rewrite size_empty|].
  rewrite size_union_alt, size_singleton. assert (size (list_to_set l ∖ {[x]} : gset Z) <= size (list_to_set l : gset Z))%nat; [|lia].
  apply subseteq_size. set_solver.
Qed.

(** Bit [k] of a bitmap block. *)
Definition bit_of (d : block) (k : Z) : bool := Z.testbit (byte_at d (k / 8)) (k mod 8).
Definition set_bit (d : block) (k : Z) : block :=
  zset d (k / 8) (Z.lor (byte_at d (k / 8)) (Z.shiftl 1 (k mod 8))).
Definition clear_bit (d : block) (k : Z) : block :=
  zset d (k / 8) (Z.land (byte_at d (k / 8)) (Z.lnot (Z.shiftl 1 (k mod 8)))).

Lemma land_shiftl_testbit x k : 0 <= k -> (Z.land x (Z.shiftl 1 k) =? 0) = negb (Z.testbit x k).
Proof.
  intros Hk. destruct (Z.testbit x k) eqn:E; cbn [negb].
  - apply Z.eqb_neq. intros H0. apply (f_equal (fun z => Z.testbit z k)) in H0.
    rewrite Z.land_spec, Z.shiftl_spec, Z.sub_diag, E, Z.bits_0 in H0 by done. done.
  - apply Z.eqb_eq, Z.bits_inj'. intros i Hi. rewrite Z.land_spec, Z.shiftl_spec, Z.bits_0 by done.
    destruct (decide (i = k)) as [->|Hne]; [by rewrite E|].
    replace (Z.testbit 1 (i - k)) with false; [apply andb_false_r|]. symmetry.
    destruct (Z.lt_ge_cases (i - k) 0); [by apply Z.testbit_neg_r|]. apply Z.bits_above_log2; simpl; lia.
Qed.

Lemma byte_split k k' : 0 <= k -> 0 <= k' -> k / 8 = k' / 8 -> k mod 8 = k' mod 8 -> k = k'.
Proof. intros. rewrite (Z.div_mod k 8), (Z.div_mod k' 8) by lia. lia. Qed.

Lemma testbit_one i : 0 <= i -> Z.testbit 1 i = (i =? 0).
Proof.
  intros Hi. destruct (Z.eqb_spec i 0) as [->|]; [done|]. apply Z.bits_above_log2; simpl; lia.
Qed.

Lemma bit_of_set d k k' : block_ok d -> 0 <= k < BPB -> 0 <= k' ->
  bit_of (set_bit d k) k' = (k' =? k) || bit_of d k'.
Proof.
  intros Hd Hk Hk'. unfold bit_of, set_bit. pose proof (Z.mod_pos_bound k 8). pose proof (Z.mod_pos_bound k' 8).
  assert (Hr : 0 <= k / 8 < Z.of_nat (length d)).
  { unfold block_ok in Hd. rewrite Hd. unfold BPB, BSIZE in *.
    split; [apply Z.div_pos; lia|]. rewrite Z2Nat.id by lia. apply Z.div_lt_upper_bound; lia. }
  destruct (decide (k' / 8 = k / 8)) as [E|Hne].
  - rewrite E, byte_at_zset_eq, Z.lor_spec by done. rewrite Z.shiftl_spec by lia.
    destruct (Z.eqb_spec k' k) as [->|Hkk].
    + rewrite Z.sub_diag. cbn [orb]. apply orb_true_r.
    + replace (Z.testbit 1 (k' mod 8 - k mod 8)) with false; [by rewrite orb_false_r|]. symmetry.
      destruct (Z.lt_ge_cases (k' mod 8 - k mod 8) 0); [by apply Z.testbit_neg_r|].
      rewrite testbit_one by lia. apply Z.eqb_neq. intros E2. apply Hkk, byte_split; lia.
  - rewrite byte_at_zset_ne by done. destruct (Z.eqb_spec k' k) as [->|]; done.
Qed.

(** The inner loop of [balloc] finds the first clear bit. *)
Lemma find_clear_spec fuel d b bi size :
  0 <= bi -> (BPB - bi <= Z.of_nat fuel) ->
  match find_clear fuel d b bi size with
  | Some k => bi <= k < BPB /\ b + k < size /\ bit_of d k = false
  | None => forall k, bi <= k < BPB -> b + k < size -> bit_of d k = true
  end.
Proof.
  revert bi. induction fuel as [|fuel IH]; intros bi Hbi Hfuel; cbn [find_clear]; [intros k Hk; lia|].
  destruct (Z.ltb_spec bi BPB) as [H1|H1]; cbn [andb]; [|intros k Hk; lia].
  destruct (Z.ltb_spec (b + bi) size) as [H2|H2]; [|intros k Hk; lia].
  pose proof (Z.mod_pos_bound bi 8). rewrite land_shiftl_testbit by lia. fold (bit_of d bi).
  destruct (bit_of d bi) eqn:E; cbn [negb].
  - specialize (IH (bi + 1) ltac:(lia) ltac:(lia)). destruct (find_clear _ _ _ _ _) as [k|].
    + naive_solver lia.
    + intros k Hk Hs. destruct (decide (k = bi)) as [->|]; [done|]. apply IH; lia.
  - split_and!; (done || lia).
Qed.

(** Where things are on the disk: the log, the inodes and the bitmap lie before
    the data blocks, apart from each other. *)
Definition nmeta (sb : superblock) : Z := sb_size sb - sb_nblocks sb.

Record layout (sb : superblock) (start size : Z) : Prop := {
  ly_size : 0 < sb_size sb < 2 ^ 31;
  ly_meta : 0 < nmeta sb <= sb_size sb;
  ly_log : start + size <= nmeta sb;
  ly_bmap b : 0 <= b < sb_size sb ->
    0 <= b / BPB + sb_bmapstart sb < nmeta sb /\
    ~ (start <= b / BPB + sb_bmapstart sb < start + size);
  ly_inode i : 0 <= i < sb_ninodes sb ->
    0 <= i / IPB + sb_inodestart sb < nmeta sb /\
    ~ (start <= i / IPB + sb_inodestart sb < start + size) /\
    forall b, 0 <= b < sb_size sb -> i / IPB + sb_inodestart sb <> b / BPB + sb_bmapstart sb
}.

Section alloc.
Context {C U : Type} `{HL : BlockCacheLaws C}.
Context (base : Z -> Z).
Abbreviation ready := (ready base).
Implicit Type s : fs C U.

(** The buffers in use for this operation and the log: a block that another
    operation refers to as well takes no buffer of its own. *)
Definition pinned (held : list (Z * Z)) (s : fs C U) : gset Z :=
  filter (fun n => base n = 0) (list_to_set (logged (lg s) ++ held.*2)).
Definition bufs (held : list (Z * Z)) (s : fs C U) : Z := nfree s + Z.of_nat (size (pinned held s)).

Lemma elem_of_pinned held s n : n ∈ pinned held s <-> base n = 0 /\ (n ∈ logged (lg s) \/ n ∈ held.*2).
Proof using Type. unfold pinned. by rewrite elem_of_filter, elem_of_list_to_set, elem_of_app. Qed.

Lemma pinned_add held s h n s' : lg s' = lg s -> n ∉ held.*2 ->
  Z.of_nat (size (pinned ((h, n) :: held) s')) =
  Z.of_nat (size (pinned held s)) + if decide (base n = 0 /\ n ∉ logged (lg s)) then 1 else 0.
Proof using Type.
  intros El Hn. case_decide as D.
  - replace (pinned ((h, n) :: held) s') with ({[n]} ∪ pinned held s).
    + rewrite size_union, size_singleton; [lia|]. apply disjoint_singleton_l. rewrite elem_of_pinned. tauto.
    + apply set_eq. intros m. rewrite elem_of_union, elem_of_singleton, !elem_of_pinned, El. simpl.
      rewrite elem_of_cons. destruct D. naive_solver.
  - rewrite Z.add_0_r. do 2 f_equal. apply set_eq. intros m. rewrite !elem_of_pinned, El. simpl. rewrite elem_of_cons.
    destruct (decide (m = n)) as [->|]; [|tauto]. destruct (decide (n ∈ logged (lg s))); tauto.
Qed.

(** The budget of an operation: the transaction stays within the blocks [W], [k] more
    may be added to them, and there are buffers for all of them and for the few
    blocks held at a time. *)
Record res (held : list (Z * Z)) (s : fs C U) (W : list Z) (k : Z) : Prop := {
  rs_open : 0 < lg_outstanding (lg s);
  rs_in n : n ∈ logged (lg s) -> n ∈ W;
  rs_log : Z.of_nat (length W) + k < LOGSIZE;
  rs_size : Z.of_nat (length W) + k < lg_size (lg s) - 1;
  rs_bufs : Z.of_nat (length W) + k + 3 <= bufs held s
}.

Definition same_log (s s' : fs C U) : Prop :=
  lg_start (lg s') = lg_start (lg s) /\ lg_size (lg s') = lg_size (lg s).

(** After an operation with [k] of the budget left. *)
Definition after (held : list (Z * Z)) (W : list Z) (k : Z) (s s' : fs C U) : Prop :=
  ready held s' /\ same_log s s' /\ res held s' W k.

Definition geometry (s : fs C U) : Prop := layout (fs_sb s) (lg_start (lg s)) (lg_size (lg s)).

Lemma res_le held s W k k' : res held s W k -> k' <= k -> res held s W k'.
Proof using Type. intros [] Hk. split; (done || lia). Qed.

Lemma res_add held s W k n : res held s W k -> res held s (n :: W) (k - 1).
Proof using Type.
  intros [H1 H2 H3 H4 H5]. split; [done|intros m Hm; right; by apply H2|cbn [length]; lia..].
Qed.

Lemma res_reads held held' s s' W k : lg s' = lg s -> bufs held' s' = bufs held s -> res held s W k -> res held' s' W k.
Proof using Type. intros El Eb []. split; rewrite ?El, ?Eb; done. Qed.

Lemma logged_length held s W k : ready held s -> res held s W k ->
  lh_n (lg_lh (lg s)) = Z.of_nat (length (logged (lg s))) /\ (length (logged (lg s)) <= length W)%nat.
Proof using Type.
  intros Hr Hres. split; [symmetry; eapply length_logged, rd_log, Hr|].
  apply NoDup_incl_length; [apply NoDup_ListNoDup, (rd_log _ _ _ Hr)|]. intros n Hn.
  apply list_elem_of_In. apply (rs_in _ _ _ _ Hres). by apply list_elem_of_In.
Qed.

Lemma res_free held s W k : ready held s -> res held s W k -> 0 <= k -> (length held <= 2)%nat -> 0 < nfree s.
Proof using Type.
  intros Hr Hres Hk Hh. pose proof (rs_bufs _ _ _ _ Hres) as Hb. unfold bufs in Hb.
  pose proof (logged_length held s W k Hr Hres) as [_ Hl].
  assert (size (pinned held s) <= length (logged (lg s) ++ held.*2))%nat; [|rewrite length_app, length_fmap in *; lia].
  etrans; [|apply size_list_to_set_le]. apply subseteq_size. unfold pinned. intros n Hn. by apply elem_of_filter in Hn as [_ Hn].
Qed.

Context (Hbase : forall n, 0 <= base n < 2 ^ 31).

(** Reading a block. *)
Lemma wpn_read held s n W k (Q : Z -> fs C U -> Prop) :
  ready held s -> n ∉ held.*2 -> res held s W k -> 0 <= k -> (length held <= 2)%nat ->
  (forall h s', ready ((h, n) :: held) s' -> reads s s' -> res ((h, n) :: held) s' W k ->
     f_data h s' = Done (content s n) s' [] -> Q h s') ->
  wpn (f_bread n) s Q.
Proof.
  intros Hr Hn Hres Hk Hh HQ. eapply (wpn_bread base Hbase held); [done|done|left; by eapply res_free|].
  intros h s' Hr' Hrd' _ Hf'. pose proof Hrd' as (_ & El & Ec). apply HQ; [done|done| |].
  - eapply res_reads; [exact El| |done]. unfold bufs. rewrite Hf', (pinned_add held s) by done.
    rewrite (rd_refs _ _ _ Hr), (ind_false (n ∈ held.*2)) by done. unfold ind. pose proof (Hbase n).
    destruct (decide (base n = 0)), (decide (n ∈ logged (lg s)));
      [rewrite decide_False by tauto|rewrite decide_True by tauto|rewrite decide_False by tauto..]; case_bool; lia.
  - rewrite (f_data_run base ((h, n) :: held) s' h n) by (done || left). by rewrite Ec.
Qed.

(** Releasing it. *)
Lemma wpn_release held s h n W k (Q : unit -> fs C U -> Prop) :
  ready ((h, n) :: held) s -> res ((h, n) :: held) s W k ->
  (forall s', ready held s' -> reads s s' -> res held s' W k -> Q tt s') ->
  wpn (f_brelse h) s Q.
Proof.
  intros Hr Hres HQ. eapply (wpn_brelse base Hbase held); [done|].
  intros s' Hr' Hrd' Hf'. pose proof Hrd' as (_ & El & Ec). apply HQ; [done|done|].
  pose proof (rd_nodup _ _ _ Hr) as Hd. apply list.NoDup_cons in Hd as [Hn _].
  eapply res_reads; [exact El| |done]. unfold bufs. rewrite Hf', (pinned_add held s' h n s) by done.
  rewrite (rd_refs _ _ _ Hr), (ind_true (n ∈ ((h, n) :: held).*2)) by left. unfold ind. pose proof (Hbase n). rewrite El.
  destruct (decide (base n = 0)), (decide (n ∈ logged (lg s)));
      [rewrite decide_False by tauto|rewrite decide_True by tauto|rewrite decide_False by tauto..]; case_bool; lia.
Qed.

(** A held block is changed and recorded. *)
Lemma wpn_record held s h n d W k (Q : unit -> fs C U -> Prop) :
  ready held s -> (h, n) ∈ held -> res held s W k -> 0 <= k -> n ∈ W -> 0 <= n < 2 ^ 31 -> ~ in_log (lg s) n -> block_ok d ->
  (forall s', after held W k s s' -> rest s' = rest s ->
     (forall m, content s' m = if decide (m = n) then d else content s m) -> Q tt s') ->
  wpn (f_store h d ;;; f_log_write h) s Q.
Proof.
  intros Hr Hin Hres Hk Hn Hn0 Hlog Hok HQ. pose proof (logged_length held s W k Hr Hres) as [Hl1 Hl2].
  destruct Hres as [H1 H2 H3 H4 H5].
  assert (Hroom : room (lg s) 1) by (unfold room; lia).
  eapply (wpn_store_log base Hbase held s h n); [done..|].
  intros s' Hr' R' L' F' C'. apply HQ; [|done|done]. split_and!; [done|unfold same_log; by rewrite L'|].
  pose proof (elem_of_absorb (lg s) n) as Hab.
  split; rewrite ?L'; [done| |done|done|].
  - intros m. rewrite Hab by (done || apply Hr). intros [->|]; auto.
  - unfold bufs. rewrite F'. replace (pinned held s') with (pinned held s); [done|].
    apply set_eq. intros m. rewrite !elem_of_pinned, L', Hab by (done || apply Hr).
    apply (list_elem_of_fmap_2 snd) in Hin. simpl in Hin. naive_solver.
Qed.

(** ** [bzero] and the bitmap *)

Lemma bzero_run held s b W k (Q : unit -> fs C U -> Prop) :
  ready held s -> b ∉ held.*2 -> res held s W k -> 0 <= k -> (length held <= 2)%nat ->
  b ∈ W -> 0 <= b < 2 ^ 31 -> ~ in_log (lg s) b ->
  (forall s', after held W k s s' -> rest s' = rest s ->
     (forall m, content s' m = if decide (m = b) then zero_block else content s m) -> Q tt s') ->
  wpn (bzero b) s Q.
Proof.
  intros Hr Hb Hres Hk Hh HW Hb0 Hlog HQ. unfold bzero. rewrite wrap_small by lia. apply wpn_bind.
  eapply wpn_read; [done..|]. intros h s1 Hr1 Hrd1 Hres1 _. pose proof Hrd1 as (R1 & L1 & C1).
  apply wpn_assoc, wpn_bind. eapply (wpn_record ((h, b) :: held) s1); [done|left|done|done|done|done|by rewrite L1|apply block_ok_zero|].
  intros s2 (Hr2 & Hl2 & Hres2) R2 C2. eapply wpn_release; [done|done|].
  intros s3 Hr3 (R3 & L3 & C3) Hres3. apply HQ.
  - split_and!; [done| |done]. unfold same_log in *. rewrite L3, <- L1. done.
  - congruence.
  - intros m. rewrite C3, C2. case_decide; [done|apply C1].
Qed.

(** Whether block [b] is marked in use. *)
Definition bmap_block (s : fs C U) (b : Z) : Z := b / BPB + sb_bmapstart (fs_sb s).
Definition used (s : fs C U) (b : Z) : bool := bit_of (content s (bmap_block s b)) (b mod BPB).

Lemma BBLOCK_eq s b : geometry s -> 0 <= b < sb_size (fs_sb s) ->
  BBLOCK b (fs_sb s) = bmap_block s b /\ 0 <= bmap_block s b < nmeta (fs_sb s) /\
  bmap_block s b < 2 ^ 31 /\ ~ in_log (lg s) (bmap_block s b).
Proof using Type.
  intros Hg Hb. destruct (ly_bmap _ _ _ Hg b Hb) as [H1 H2]. pose proof (ly_meta _ _ _ Hg). pose proof (ly_size _ _ _ Hg).
  unfold BBLOCK, bmap_block. rewrite wrap_small by lia. split_and!; (done || lia).
Qed.

Lemma wpn_prints l s (Q : unit -> fs C U -> Prop) : Q tt s -> wpn (prints l) s Q.
Proof using Type. intros HQ. unfold prints. induction l as [|c l IH]; simpl; [done|]. done. Qed.

(** The buffers held while a block is allocated: not bitmap blocks, and blocks in use. *)
Definition held_ok (held : list (Z * Z)) (s : fs C U) : Prop :=
  forall n, n ∈ held.*2 -> used s n = true /\ forall b, 0 <= b < sb_size (fs_sb s) -> n <> bmap_block s b.

(** The blocks of the log, the inodes and the bitmap are marked in use. *)
Definition meta_used (s : fs C U) : Prop := forall b, 0 <= b < nmeta (fs_sb s) -> used s b = true.

(** Block [b] is taken: marked and cleared. *)
Definition taken (s s' : fs C U) (b : Z) : Prop :=
  nmeta (fs_sb s) <= b < sb_size (fs_sb s) /\ used s b = false /\
  forall m, content s' m =
    if decide (m = b) then zero_block
    else if decide (m = bmap_block s b) then set_bit (content s m) (b mod BPB) else content s m.

Lemma after_trans held held' W W' k k' s s1 s2 :
  after held W k s s1 -> after held' W' k' s1 s2 -> after held' W' k' s s2.
Proof using Type. intros (_ & [L1 L2] & _) (R & [L3 L4] & Hres). split_and!; [done| |done]. split; congruence. Qed.

Lemma geometry_same s s' : geometry s -> same_log s s' -> fs_sb s' = fs_sb s -> geometry s'.
Proof using Type. intros Hg [L1 L2] E. unfold geometry. by rewrite E, L1, L2. Qed.

(** The bitmap blocks are among [W]. *)
Definition bmap_in (s : fs C U) (W : list Z) : Prop := forall b, 0 <= b < sb_size (fs_sb s) -> bmap_block s b ∈ W.

Lemma rest_sb s s' : rest s' = rest s -> fs_sb s' = fs_sb s /\ fs_itable s' = fs_itable s /\
  fs_pid s' = fs_pid s /\ fs_user s' = fs_user s.
Proof using Type. unfold rest. intros E. split_and!; congruence. Qed.

Lemma reads_used s s' b : reads s s' -> used s' b = used s b.
Proof using Type.
  intros (E & _ & Ec). apply rest_sb in E as [E _]. unfold used, bmap_block. by rewrite E, Ec.
Qed.

(** The block found by the inner loop is marked and cleared. *)
Lemma balloc_take held s s1 h b0 bi W k (Q : Z -> fs C U -> Prop) :
  let b := b0 + bi in
  ready ((h, bmap_block s b0) :: held) s1 -> reads s s1 -> res ((h, bmap_block s b0) :: held) s1 W k ->
  held_ok held s -> (length held <= 1)%nat ->
  geometry s -> meta_used s -> bmap_in s W -> 1 <= k -> 0 <= b0 -> b0 mod BPB = 0 -> 0 <= bi < BPB -> b < sb_size (fs_sb s) ->
  bit_of (content s (bmap_block s b0)) bi = false ->
  (forall s', after held (b :: W) (k - 1) s s' -> rest s' = rest s -> taken s s' b -> Q b s') ->
  wpn (f_store h (zset (content s (bmap_block s b0)) (bi / 8)
         (Z.lor (byte_at (content s (bmap_block s b0)) (bi / 8)) (Z.shiftl 1 (bi mod 8)))) ;;;
       f_log_write h ;;; f_brelse h ;;; bzero b ;;; ret b) s1 Q.
Proof.
  intros b Hr1 Hrd1 Hres1 Hheld Hlen Hg Hmeta HW Hk Hb0 Hal Hbi Hb Hbit HQ.
  assert (Hb0' : 0 <= b0 < sb_size (fs_sb s)) by (unfold b in *; lia).
  destruct (BBLOCK_eq s b0 Hg Hb0') as (_ & Hbm & Hbm' & Hblog).
  assert (Hq : b / BPB = b0 / BPB /\ b mod BPB = bi).
  { unfold b. pose proof (Z.div_mod b0 BPB ltac:(done)). split; symmetry.
    - apply Z.div_unique with bi; lia.
    - apply Z.mod_unique with (b0 / BPB); lia. }
  destruct Hq as [Hq1 Hq2]. assert (Ebm : bmap_block s b = bmap_block s b0) by (unfold bmap_block; by rewrite Hq1).
  assert (Hfree : used s b = false) by (unfold used; by rewrite Ebm, Hq2).
  assert (Hdata : nmeta (fs_sb s) <= b).
  { destruct (Z.lt_ge_cases b (nmeta (fs_sb s))); [|done]. rewrite Hmeta in Hfree by (unfold b in *; lia). done. }
  assert (Hbh : b ∉ held.*2) by (intros Hin; apply Hheld in Hin as [Hu _]; congruence).
  assert (Hin : ~ in_log (lg s) b) by (pose proof (ly_log _ _ _ Hg); unfold in_log; lia).
  pose proof (ly_size _ _ _ Hg) as Hsz. pose proof Hrd1 as (R1 & L1 & C1).
  apply wpn_assoc, wpn_bind.
  eapply (wpn_record ((h, bmap_block s b0) :: held) s1 h (bmap_block s b0) (set_bit (content s (bmap_block s b0)) bi) (b :: W));
    [done|left|by apply res_add|lia|right; by apply HW|lia|by rewrite L1| |].
  { apply block_ok_zset. rewrite <- C1. apply content_ok, Hr1. }
  intros s2 (Hr2 & Hl2 & Hres2) R2 C2. apply wpn_bind. eapply wpn_release; [done|done|].
  intros s3 Hr3 (R3 & L3 & C3) Hres3. apply wpn_bind.
  assert (Hl3 : same_log s s3) by (unfold same_log in *; by rewrite L3, <- L1).
  eapply (bzero_run held s3 b (b :: W) (k - 1)); [done|done|done|lia|lia|left|lia| |].
  { unfold in_log in *. destruct Hl3 as [-> ->]. done. }
  intros s4 Ha4 R4 C4. apply wpn_ret, HQ.
  - eapply after_trans; [|exact Ha4]. done.
  - congruence.
  - split_and!; [done|done|done|]. intros m. rewrite C4, C3, C2, C1, Ebm, Hq2. case_decide; [done|].
    destruct (decide (m = bmap_block s b0)) as [->|]; done.
Qed.

Lemma balloc_loop_run fuel held s s0 j W k (Q : Z -> fs C U -> Prop) :
  ready held s -> reads s0 s -> res held s W k -> held_ok held s0 -> (length held <= 1)%nat ->
  geometry s0 -> meta_used s0 -> bmap_in s0 W -> 1 <= k ->
  0 <= j -> (0 < fuel)%nat -> sb_size (fs_sb s0) - j * BPB <= (Z.of_nat fuel - 1) * BPB ->
  (forall b, 0 <= b < j * BPB -> b < sb_size (fs_sb s0) -> used s0 b = true) ->
  (forall s', after held W k s0 s' -> reads s0 s' ->
     (forall b, 0 <= b < sb_size (fs_sb s0) -> used s0 b = true) -> Q 0 s') ->
  (forall b s', after held (b :: W) (k - 1) s0 s' -> rest s' = rest s0 -> taken s0 s' b -> Q b s') ->
  wpn (balloc_loop fuel (j * BPB)) s Q.
Proof.
  revert s j. induction fuel as [|fuel IH]; intros s j Hr Hrd Hres Hheld Hlen Hg Hmeta HW Hk Hj Hf0 Hfuel Hprev HQ0 HQ; [lia|].
  pose proof Hrd as (Er & El & Ec). apply rest_sb in Er as (Esb & _ & _).
  cbn [balloc_loop]. apply wpn_bind. unfold the_sb. eapply wpn_run; [done|]. rewrite Esb.
  destruct (Z.ltb_spec (j * BPB) (sb_size (fs_sb s0))) as [Hlt|Hge].
  2: { apply wpn_bind, wpn_prints, wpn_ret, HQ0; [|done|intros b Hb; apply Hprev; lia].
       split_and!; [done|unfold same_log; by rewrite El|done]. }
  assert (Hb0 : 0 <= j * BPB < sb_size (fs_sb s0)) by (unfold BPB, BSIZE in *; lia).
  destruct (BBLOCK_eq s0 _ Hg Hb0) as (-> & Hbm & Hbm' & Hblog).
  assert (Hnh : bmap_block s0 (j * BPB) ∉ held.*2) by (intros Hin; apply Hheld in Hin as [_ Hin]; by apply (Hin (j * BPB))).
  apply wpn_bind. eapply wpn_read; [done|done|done|lia|lia|]. intros h s1 Hr1 Hrd1 Hres1 Ed.
  assert (Hrd01 : reads s0 s1) by (by etrans).
  apply wpn_bind. eapply wpn_run; [exact Ed|]. rewrite Ec.
  pose proof (find_clear_spec (Z.to_nat BPB) (content s0 (bmap_block s0 (j * BPB))) (j * BPB) 0 (sb_size (fs_sb s0))
    ltac:(lia) ltac:(rewrite Z2Nat.id; unfold BPB, BSIZE; lia)) as Hfc.
  destruct (find_clear _ _ _ _ _) as [bi|].
  - destruct Hfc as (Hbi & Hsz & Hbit).
    eapply (balloc_take held s0 s1 h (j * BPB) bi W k); try done; [lia|by apply Z.mod_mul|].
    intros s' Ha Hre Ht. by apply HQ.
  - apply wpn_bind. eapply wpn_release; [done|done|]. intros s2 Hr2 Hrd2 Hres2.
    assert (Hrd02 : reads s0 s2) by (by etrans; [exact Hrd01|]).
    replace (j * BPB + BPB) with ((j + 1) * BPB) by lia. apply (IH s2 (j + 1)); try done; try lia.
    + unfold BPB, BSIZE in *. lia.
    + intros b Hb Hbs. destruct (Z.lt_ge_cases b (j * BPB)); [apply Hprev; lia|].
      assert (Hq : b / BPB = j /\ b mod BPB = b - j * BPB).
      { split; symmetry; [apply Z.div_unique with (b - j * BPB)|apply Z.mod_unique with j]; lia. }
      unfold used, bmap_block. destruct Hq as [-> ->].
      unfold bmap_block in Hfc. rewrite Z.div_mul in Hfc by done. apply Hfc; lia.
Qed.

(** [balloc]: a free data block, marked and cleared, or 0 when every block is
    in use. *)
Lemma balloc_run held s W k (Q : Z -> fs C U -> Prop) :
  ready held s -> held_ok held s -> (length held <= 1)%nat -> geometry s -> meta_used s -> bmap_in s W -> res held s W k -> 1 <= k ->
  (forall s', after held W k s s' -> reads s s' ->
     (forall b, 0 <= b < sb_size (fs_sb s) -> used s b = true) -> Q 0 s') ->
  (forall b s', after held (b :: W) (k - 1) s s' -> rest s' = rest s -> taken s s' b -> Q b s') ->
  wpn balloc s Q.
Proof.
  intros Hr Hh Hlen Hg Hm HW Hres Hk HQ0 HQ. unfold balloc. apply wpn_bind. unfold the_sb. eapply wpn_run; [done|].
  pose proof (ly_size _ _ _ Hg). pose proof (Z.div_mod (sb_size (fs_sb s)) BPB ltac:(done)).
  pose proof (Z.mod_pos_bound (sb_size (fs_sb s)) BPB ltac:(done)).
  assert (0 <= sb_size (fs_sb s) / BPB) by (apply Z.div_pos; unfold BPB, BSIZE; lia).
  apply (balloc_loop_run (S (Z.to_nat (sb_size (fs_sb s) / BPB + 1))) held s s 0 W k); try done; try lia.
Qed.
End alloc.

(** ** Inodes on disk *)

(** The fields fit their C types. *)
Record dinode_ok (di : dinode) : Prop := {
  dk_type : - 2 ^ 15 <= di_type di < 2 ^ 15;
  dk_major : - 2 ^ 15 <= di_major di < 2 ^ 15;
  dk_minor : - 2 ^ 15 <= di_minor di < 2 ^ 15;
  dk_nlink : - 2 ^ 15 <= di_nlink di < 2 ^ 15;
  dk_size : 0 <= di_size di < 2 ^ 32;
  dk_len : length (di_addrs di) = 13%nat;
  dk_addrs a : a ∈ di_addrs di -> 0 <= a < 2 ^ 32
}.

Lemma byte_at_set_addrs d o l i :
  i < o \/ o + 4 * Z.of_nat (length l) <= i -> byte_at (set_addrs d o l) i = byte_at d i.
Proof.
  revert d o. induction l as [|a l IH]; intros d o Hi; cbn [set_addrs]; [done|]. cbn [length] in Hi.
  rewrite IH by lia. apply byte_at_set_le_outside. lia.
Qed.

Lemma length_set_addrs d o l : length (set_addrs d o l) = length d.
Proof. revert d o. induction l as [|a l IH]; intros d o; cbn [set_addrs]; [done|]. by rewrite IH, length_set_le. Qed.

Lemma get_addrs_set_addrs d o l :
  block_ok d -> 0 <= o -> o + 4 * Z.of_nat (length l) <= BSIZE -> (forall a, a ∈ l -> 0 <= a < 2 ^ 32) ->
  get_addrs (length l) (set_addrs d o l) o = l.
Proof.
  intros Hd Ho Hend Hl. unfold get_addrs. apply list_eq. intros i. rewrite list_lookup_fmap.
  destruct (l !! i) as [a|] eqn:E.
  2: { apply lookup_ge_None in E. by rewrite lookup_seq_ge by lia. }
  pose proof (lookup_lt_Some _ _ _ E). rewrite lookup_seq_lt by lia. simpl. f_equal.
  revert d o Hd Ho Hend i E H. induction l as [|b l IH]; intros d o Hd Ho Hend i E Hi; [done|].
  cbn [set_addrs]. cbn [length] in *. destruct i as [|i].
  - injection E as ->. rewrite Z.mul_0_r, Z.add_0_r.
    rewrite (get_le_ext 4 _ (set32 d o a)) by (intros j Hj; apply byte_at_set_addrs; lia).
    apply get32_set32_eq; [done|lia|apply Hl; left].
  - replace (o + 4 * Z.of_nat (S i)) with (o + 4 + 4 * Z.of_nat i) by lia. apply IH; try done; try lia.
    + intros c Hc. apply Hl. by right.
    + by apply block_ok_set_le.
Qed.

Lemma byte_at_set_dinode d o di i : length (di_addrs di) = 13%nat ->
  i < o \/ o + DINODE <= i -> byte_at (set_dinode d o di) i = byte_at d i.
Proof.
  intros Hl Hi. unfold set_dinode, DINODE in *. rewrite byte_at_set_addrs by (rewrite Hl; lia).
  by rewrite !byte_at_set_le_outside by lia.
Qed.

Lemma block_ok_set_dinode d o di : block_ok d -> block_ok (set_dinode d o di).
Proof. unfold block_ok, set_dinode. by rewrite length_set_addrs, !length_set_le. Qed.

Lemma swrap16_mod v : - 2 ^ 15 <= v < 2 ^ 15 -> swrap 16 (v mod 256 ^ Z.of_nat 2) = v.
Proof.
  intros Hv. change (256 ^ Z.of_nat 2) with (2 ^ 16). unfold swrap.
  rewrite Zplus_mod_idemp_l. fold (swrap 16 v). by apply swrap_small.
Qed.

Lemma get_dinode_ext d d' o :
  (forall i, o <= i < o + DINODE -> byte_at d i = byte_at d' i) -> get_dinode d o = get_dinode d' o.
Proof.
  intros Hb. unfold DINODE in Hb.
  assert (G : forall n p, o <= p -> p + Z.of_nat n <= o + 64 -> get_le n d p = get_le n d' p).
  { intros n p H1 H2. apply get_le_ext. intros. apply Hb. lia. }
  unfold get_dinode. rewrite !G by lia. f_equal.
  apply list_fmap_ext. intros j y Hj. apply lookup_seq in Hj as [-> Hj]. apply G; lia.
Qed.

(** The other dinodes of the block. *)
Lemma get_dinode_other d i j di : length (di_addrs di) = 13%nat -> i <> j ->
  get_dinode (set_dinode d (j * DINODE) di) (i * DINODE) = get_dinode d (i * DINODE).
Proof.
  intros Hl Hij. apply get_dinode_ext. intros p Hp. apply byte_at_set_dinode; [done|]. unfold DINODE in *. lia.
Qed.

Lemma get_set_dinode d o di :
  block_ok d -> dinode_ok di -> 0 <= o -> o + DINODE <= BSIZE -> get_dinode (set_dinode d o di) o = di.
Proof.
  intros Hd [Ht Hma Hmi Hnl Hsz Hlen Ha] Ho Hend. unfold DINODE in Hend.
  assert (Hlend : Z.of_nat (length d) = BSIZE) by (unfold block_ok in Hd; rewrite Hd; done).
  unfold get_dinode, set_dinode. set (d5 := set32 _ (o + 8) _).
  assert (Hd5 : block_ok d5) by (unfold d5; repeat apply block_ok_set_le; done).
  assert (G : forall n p, o <= p -> p + Z.of_nat n <= o + 12 ->
    get_le n (set_addrs d5 (o + 12) (di_addrs di)) p = get_le n d5 p).
  { intros n p H1 H2. apply get_le_ext. intros. apply byte_at_set_addrs. lia. }
  rewrite !G by lia.
  replace (get_addrs 13 _ (o + 12)) with (di_addrs di)
    by (rewrite <- Hlen; symmetry; apply get_addrs_set_addrs; try done; rewrite ?Hlen; lia).
  unfold d5.
  rewrite (get_le_set_le_eq 4) by (rewrite ?length_set_le, ?Hlend; lia).
  rewrite (Z.mod_small (di_size di)) by done.
  repeat first [rewrite (get_le_set_le_eq 2) by (rewrite ?length_set_le, ?Hlend; lia)
               |rewrite (get_le_set_le_ne 2) by lia].
  rewrite !swrap16_mod by done. by destruct di.
Qed.

(** ** [iupdate] *)

Section iupdate.
Context {C U : Type} `{HL : BlockCacheLaws C}.
Implicit Type s : fs C U.

(** The block of inode [i], and the dinode in it. *)
Definition inode_block (s : fs C U) (i : Z) : Z := i / IPB + sb_inodestart (fs_sb s).
Definition disk_inode (s : fs C U) (i : Z) : dinode := get_dinode (content s (inode_block s i)) (i mod IPB * DINODE).

Lemma IBLOCK_eq s i : geometry s -> 0 <= i < sb_ninodes (fs_sb s) ->
  IBLOCK i (fs_sb s) = inode_block s i /\ 0 <= inode_block s i < nmeta (fs_sb s) /\ inode_block s i < 2 ^ 31 /\
  ~ in_log (lg s) (inode_block s i) /\ forall b, 0 <= b < sb_size (fs_sb s) -> inode_block s i <> bmap_block s b.
Proof.
  intros Hg Hi. destruct (ly_inode _ _ _ Hg i Hi) as (H1 & H2 & H3).
  pose proof (ly_meta _ _ _ Hg). pose proof (ly_size _ _ _ Hg). unfold IBLOCK, inode_block.
  rewrite wrap_small by lia. split_and!; (done || lia).
Qed.

Context (base : Z -> Z) (Hbase : forall n, 0 <= base n < 2 ^ 31).
Abbreviation ready := (ready base).
Abbreviation res := (res base).
Abbreviation after := (after base).

Lemma iupdate_run s ip x W k (Q : unit -> fs C U -> Prop) :
  ready [] s -> zget (fs_itable s) ip = Some x -> geometry s -> 0 <= ip_inum x < sb_ninodes (fs_sb s) ->
  res [] s W k -> 0 <= k -> inode_block s (ip_inum x) ∈ W ->
  (forall s', after [] W k s s' -> rest s' = rest s ->
     (forall m, content s' m = if decide (m = inode_block s (ip_inum x))
        then set_dinode (content s m) (ip_inum x mod IPB * DINODE) (ip_di x) else content s m) -> Q tt s') ->
  wpn (iupdate ip) s Q.
Proof.
  intros Hr Hx Hg Hi Hres Hk HW HQ. destruct (IBLOCK_eq s _ Hg Hi) as (Eb & Hb & Hb' & Hlog & _).
  unfold iupdate. apply wpn_bind. unfold the_sb. eapply wpn_run; [done|].
  apply wpn_bind, (wpn_ip_get _ _ x); [done|]. rewrite Eb. apply wpn_bind.
  eapply (wpn_read base Hbase []); [done|apply not_elem_of_nil|done|done|simpl; lia|].
  intros h s1 Hr1 (R1 & L1 & C1) Hres1 Ed. apply wpn_bind. eapply wpn_run; [exact Ed|].
  apply wpn_assoc, wpn_bind. eapply (wpn_record base Hbase _ s1); [done|left|done|done|done|lia|by rewrite L1| |].
  { apply block_ok_set_dinode, content_ok, Hr. }
  intros s2 (Hr2 & Hl2 & Hres2) R2 C2. eapply (wpn_release base Hbase []); [done|done|].
  intros s3 Hr3 (R3 & L3 & C3) Hres3. apply HQ.
  - split_and!; [done| |done]. unfold same_log in *. rewrite L3, <- L1. done.
  - congruence.
  - intros m. rewrite C3, C2. case_decide; [by subst|apply C1].
Qed.
End iupdate.
