(* ===== verification/FsWrite.v ===== *)
(** * kernel/fs.c: writing files

    The blocks of a file are data blocks of its own ([file_ok]); [bmap] gives a
    file a block where it has none, and [writei] changes exactly the bytes it is told
    to. *)

From Stdlib Require Import ZArith Lia.
From stdpp Require Import base list sets strings numbers.
From S2P Require Import Prelude Blocks BlockCache Log LogProofs LogOps Fs FsBase FsRead FsAlloc FsDir.

Section write.
Context {C U : Type} `{HL : BlockCacheLaws C}.
Implicit Type s : fs C U.

Definition in_data (s : fs C U) (a : Z) : Prop := nmeta (fs_sb s) <= a < sb_size (fs_sb s).

(** The blocks of a file are marked in use, and no block is used twice. *)
Record file_ok (s : fs C U) (x : inode) : Prop := {
  fo_len : length (di_addrs (ip_di x)) = 13%nat;
  fo_ind : addr_at x NDIRECT <> 0 -> in_data s (addr_at x NDIRECT) /\ used s (addr_at x NDIRECT) = true;
  fo_data bn : 0 <= bn < MAXFILE -> file_addr s x bn <> 0 ->
    in_data s (file_addr s x bn) /\ used s (file_addr s x bn) = true /\ file_addr s x bn <> addr_at x NDIRECT;
  fo_inj bn bn' : 0 <= bn < MAXFILE -> 0 <= bn' < MAXFILE -> file_addr s x bn = file_addr s x bn' ->
    file_addr s x bn <> 0 -> bn = bn'
}.

Definition more_used (s s' : fs C U) : Prop := forall b, 0 <= b < sb_size (fs_sb s) -> used s b = true -> used s' b = true.

(** Nothing the file depends on has changed. *)
Lemma file_ok_same s s' x :
  fs_sb s' = fs_sb s -> 0 < nmeta (fs_sb s) ->
  (forall b, 0 <= b < sb_size (fs_sb s) -> used s' b = used s b) -> (forall bn, file_addr s' x bn = file_addr s x bn) ->
  file_ok s x -> file_ok s' x.
Proof.
  intros Esb Hm Hu Hfa [H1 H2 H3 H4].
  assert (Hd : forall b, in_data s b -> in_data s' b /\ used s' b = used s b).
  { intros b Hb. unfold in_data in *. rewrite Esb, Hu by lia. done. }
  split; [done| | |].
  - intros Hi. destruct (H2 Hi) as [H5 H6]. destruct (Hd _ H5) as [? ->]. done.
  - intros bn Hbn. rewrite Hfa. intros Hi. destruct (H3 bn Hbn Hi) as (H5 & H6 & H7). destruct (Hd _ H5) as [? ->]. done.
  - intros b b'. rewrite !Hfa. apply H4.
Qed.

(** A new data block. *)
Lemma file_ok_add s x s' x' bn b :
  file_ok s x -> 0 < nmeta (fs_sb s) -> 0 <= bn < MAXFILE ->
  length (di_addrs (ip_di x')) = 13%nat -> fs_sb s' = fs_sb s -> more_used s s' ->
  in_data s b -> used s b = false -> used s' b = true -> addr_at x' NDIRECT = addr_at x NDIRECT ->
  (forall bn', 0 <= bn' < MAXFILE -> file_addr s' x' bn' = if decide (bn' = bn) then b else file_addr s x bn') ->
  file_ok s' x'.
Proof.
  intros [Hl Hi Hd Hj] Hm Hbn Hl' Esb Hmu Hb Hub Hub' Eind Hfa.
  assert (Hin : forall a, in_data s' a <-> in_data s a) by (intros a; unfold in_data; by rewrite Esb).
  assert (Hfresh : forall bn', 0 <= bn' < MAXFILE -> file_addr s x bn' <> b).
  { intros bn' H' E. destruct (Hd bn' H') as (_ & Hu & _); [unfold in_data in *; lia|]. congruence. }
  split; [done| | |].
  - rewrite Eind. intros Hne. destruct (Hi Hne) as [H1 H2]. rewrite Hin. split; [done|]. apply Hmu; [|done].
    unfold in_data in H1. lia.
  - intros bn' H'. rewrite Hfa, Eind, Hin by done. case_decide as D.
    + intros _. split_and!; [done|done|]. intros E. destruct (Z.eq_dec (addr_at x NDIRECT) 0) as [E0|Hne].
      * unfold in_data in Hb. lia.
      * destruct (Hi Hne). congruence.
    + intros Hne. destruct (Hd bn' H' Hne) as (H1 & H2 & H3). split_and!; [done| |done]. apply Hmu; [|done].
      unfold in_data in H1. lia.
  - intros b1 b2 H1 H2. rewrite !Hfa by done. repeat case_decide; subst; try done.
    + intros E. by apply Hfresh in H2.
    + intros E. by apply Hfresh in H1.
    + by apply Hj.
Qed.

(** A new indirect block. *)
Lemma file_ok_add_ind s x s' x' b :
  file_ok s x -> 0 < nmeta (fs_sb s) ->
  length (di_addrs (ip_di x')) = 13%nat -> fs_sb s' = fs_sb s -> more_used s s' ->
  in_data s b -> used s b = false -> used s' b = true -> addr_at x' NDIRECT = b ->
  (forall bn', 0 <= bn' < MAXFILE -> file_addr s' x' bn' = file_addr s x bn') ->
  file_ok s' x'.
Proof.
  intros [Hl Hi Hd Hj] Hm Hl' Esb Hmu Hb Hub Hub' Eind Hfa.
  assert (Hin : forall a, in_data s' a <-> in_data s a) by (intros a; unfold in_data; by rewrite Esb).
  split; [done| | |].
  - rewrite Eind, Hin. done.
  - intros bn' H'. rewrite Hfa, Eind, Hin by done. intros Hne. destruct (Hd bn' H' Hne) as (H1 & H2 & H3).
    split_and!; [done| |congruence]. apply Hmu; [|done]. unfold in_data in H1. lia.
  - intros b1 b2 H1 H2. rewrite !Hfa by done. by apply Hj.
Qed.

(** ** After a block is taken *)

Lemma bmap_block_sb s s' b : fs_sb s' = fs_sb s -> bmap_block s' b = bmap_block s b.
Proof. unfold bmap_block. by intros ->. Qed.

Lemma used_ext s s' b : fs_sb s' = fs_sb s -> content s' (bmap_block s b) = content s (bmap_block s b) -> used s' b = used s b.
Proof. intros E Ec. unfold used. rewrite (bmap_block_sb s) by done. by rewrite Ec. Qed.

Lemma taken_used s s' b b' :
  geometry s -> bc_inv (cache_of s) -> fs_sb s' = fs_sb s -> taken s s' b -> 0 <= b' < sb_size (fs_sb s) ->
  used s' b' = (b' =? b) || used s b'.
Proof.
  intros Hg I E (Hb & Hub & Hc) Hb'. unfold used. rewrite (bmap_block_sb s) by done. rewrite Hc.
  destruct (BBLOCK_eq s b' Hg Hb') as (_ & Hm & _). rewrite decide_False by lia.
  pose proof (Z.mod_pos_bound b BPB ltac:(done)). pose proof (Z.mod_pos_bound b' BPB ltac:(done)).
  pose proof (Z.div_mod b BPB ltac:(done)). pose proof (Z.div_mod b' BPB ltac:(done)).
  case_decide as D.
  - unfold bmap_block in D. rewrite bit_of_set by (done || lia || apply content_ok, I).
    f_equal. destruct (Z.eqb_spec (b' mod BPB) (b mod BPB)), (Z.eqb_spec b' b); try done; [exfalso; nia|subst; done].
  - destruct (Z.eqb_spec b' b) as [->|]; done.
Qed.

Lemma taken_more s s' b : geometry s -> bc_inv (cache_of s) -> fs_sb s' = fs_sb s -> taken s s' b ->
  more_used s s' /\ used s' b = true /\ (meta_used s -> meta_used s').
Proof.
  intros Hg I E Ht. pose proof Ht as (Hb & _ & _). pose proof (ly_meta _ _ _ Hg). split_and!.
  - intros b' Hb' Hu. rewrite (taken_used s) with (b := b) by done. rewrite Hu. apply orb_true_r.
  - rewrite (taken_used s) with (b := b) by (done || lia). by rewrite Z.eqb_refl.
  - intros Hm b' Hb'. rewrite E in Hb'. rewrite (taken_used s) with (b := b) by (done || lia).
    rewrite Hm by done. apply orb_true_r.
Qed.

(** Blocks in use that are not bitmap blocks keep their content. *)
Lemma taken_content s s' b m :
  geometry s -> taken s s' b -> in_data s m -> used s m = true -> content s' m = content s m.
Proof.
  intros Hg (Hb & Hub & Hc) Hm Hum. rewrite Hc.
  destruct (BBLOCK_eq s b Hg) as (_ & Hbm & _); [pose proof (ly_meta _ _ _ Hg); lia|].
  unfold in_data in Hm. rewrite decide_False by congruence. rewrite decide_False by lia. done.
Qed.

(** ** Giving a file a block *)

Definition upd_addrs (l : list Z) (x : inode) : inode :=
  Inode (ip_dev x) (ip_inum x) (ip_ref x) (ip_lock x) (ip_valid x) (with_addrs l (ip_di x)).

(** [bmap] of block [bn] of the file of inode [ip] gives [a]: the other blocks of the
    file are as before, a block that was there is not changed, one that
    was not is a free block, cleared. *)
Record grown (ip : Z) (s : fs C U) (x : inode) (s' : fs C U) (x' : inode) (bn a : Z) : Prop := {
  gw_rest : rest s' = (fs_sb s, zset (fs_itable s) ip x', fs_pid s, fs_user s);
  gw_x : exists l, x' = upd_addrs l x;
  gw_ok : file_ok s' x';
  gw_meta : meta_used s';
  gw_more : more_used s s';
  gw_addr bn' : 0 <= bn' < MAXFILE -> bn' <> bn -> file_addr s' x' bn' = file_addr s x bn';
  gw_at : file_addr s' x' bn = a;
  gw_old : file_addr s x bn <> 0 -> a = file_addr s x bn;
  gw_new : file_addr s x bn = 0 -> a <> 0 -> content s' a = zero_block /\ used s a = false;
  gw_frame m : in_data s m -> used s m = true -> m <> addr_at x NDIRECT -> content s' m = content s m;
  gw_inodes m : 0 <= m < nmeta (fs_sb s) -> (forall b, 0 <= b < sb_size (fs_sb s) -> m <> bmap_block s b) ->
    content s' m = content s m;
  gw_ind : if decide (addr_at x NDIRECT = 0) then addr_at x' NDIRECT <> 0 -> used s (addr_at x' NDIRECT) = false
           else addr_at x' NDIRECT = addr_at x NDIRECT
}.

Lemma grown_same ip s x s' bn :
  0 < nmeta (fs_sb s) -> zget (fs_itable s) ip = Some x -> file_ok s x -> meta_used s -> reads s s' ->
  grown ip s x s' x bn (file_addr s x bn).
Proof.
  intros Hm0 Hx Hok Hm Hrd. pose proof Hrd as (Er & _ & Ec). pose proof (rest_sb _ _ Er) as (Esb & _).
  assert (Hu : forall b, used s' b = used s b) by (intros b; by apply reads_used).
  assert (Hfa : forall b, file_addr s' x b = file_addr s x b) by (intros b; by apply file_addr_reads).
  split.
  - rewrite Er. unfold rest. rewrite zset_id by done. done.
  - exists (di_addrs (ip_di x)). by destruct x as [? ? ? ? ? []].
  - by apply (file_ok_same s).
  - intros b. rewrite Esb, Hu. apply Hm.
  - intros b _. by rewrite Hu.
  - intros b _ _. apply Hfa.
  - apply Hfa.
  - done.
  - done.
  - intros m _ _ _. apply Ec.
  - intros m _ _. apply Ec.
  - case_decide; congruence.
Qed.

Lemma addr_at_upd x i j a :
  0 <= i < Z.of_nat (length (di_addrs (ip_di x))) ->
  addr_at (upd_addrs (zset (di_addrs (ip_di x)) i a) x) j = if decide (j = i) then a else addr_at x j.
Proof.
  intros Hi. unfold addr_at, upd_addrs, with_addrs. simpl. case_decide as D; [subst; by rewrite zget_zset_eq|].
  by rewrite zget_zset_ne.
Qed.

(** A direct block. *)
Lemma grown_direct ip s x s1 bn b :
  geometry s -> bc_inv (cache_of s) -> file_ok s x -> meta_used s -> 0 <= bn < NDIRECT -> addr_at x bn = 0 ->
  taken s s1 b -> rest s1 = rest s ->
  let x' := upd_addrs (zset (di_addrs (ip_di x)) bn b) x in
  grown ip s x (with_itable (zset (fs_itable s1) ip x') s1) x' bn b.
Proof.
  intros Hg I Hok Hm Hbn Hz Ht Er x'. pose proof (rest_sb _ _ Er) as (Esb & Eit & Epid & Eu).
  set (s' := with_itable (zset (fs_itable s1) ip x') s1).
  assert (Ht' : taken s s' b) by done. assert (Esb' : fs_sb s' = fs_sb s) by done.
  destruct (taken_more s s' b Hg I Esb' Ht') as (Hmu & Hub & Hmeta). pose proof Ht as (Hb & Hfree & Hc).
  pose proof (ly_meta _ _ _ Hg) as Hlm. pose proof (fo_len _ _ Hok) as Hlen.
  assert (Hlen' : 0 <= bn < Z.of_nat (length (di_addrs (ip_di x)))) by (rewrite Hlen; unfold NDIRECT in *; lia).
  assert (Hind : addr_at x' NDIRECT = addr_at x NDIRECT).
  { unfold x'. rewrite addr_at_upd by done. by rewrite decide_False by lia. }
  assert (Hfa : forall bn', 0 <= bn' < MAXFILE -> file_addr s' x' bn' = if decide (bn' = bn) then b else file_addr s x bn').
  { intros bn' H'. unfold file_addr. rewrite Hind. unfold x'. rewrite addr_at_upd by done.
    destruct (Z.ltb_spec bn' NDIRECT); [done|]. rewrite decide_False by lia.
    destruct (Z.eqb_spec (addr_at x NDIRECT) 0) as [|Hne]; [done|]. destruct (fo_ind _ _ Hok Hne).
    by rewrite (taken_content s s' b) by done. }
  assert (Hf0 : file_addr s x bn = 0) by (unfold file_addr; rewrite (proj2 (Z.ltb_lt _ _)) by lia; done).
  assert (HMF : MAXFILE = 268) by done. assert (HND : NDIRECT = 12) by done.
  split.
  - unfold rest, s'. simpl. by rewrite Esb, Eit, Epid, Eu.
  - by exists (zset (di_addrs (ip_di x)) bn b).
  - apply (file_ok_add s x s' x' bn b); try done; [lia|lia|]. unfold x'. simpl. by rewrite length_zset.
  - by apply Hmeta.
  - done.
  - intros bn' H' Hne. rewrite Hfa by done. by rewrite decide_False.
  - rewrite Hfa by lia. by rewrite decide_True.
  - intros Hne. congruence.
  - intros _ _. split; [|done]. rewrite (Hc b : content s' b = _). by rewrite decide_True.
  - intros m H1 H2 _. by apply (taken_content s s' b).
  - intros m H1 H2. change (content s' m) with (content s1 m). rewrite Hc, decide_False by lia.
    rewrite decide_False; [done|]. apply H2. lia.
  - rewrite Hind. case_decide as D; [|done]. intros Hne. congruence.
Qed.

Lemma get_le_zero n o : get_le n zero_block o = 0.
Proof.
  revert o. induction n as [|n IH]; intros o; cbn [get_le]; [done|]. change (get_le (S n) zero_block o)
    with (byte_at zero_block o + 256 * get_le n zero_block (o + 1)). rewrite IH. unfold byte_at, zget, zero_block.
  destruct (0 <=? o); [|done]. destruct (replicate (Z.to_nat BSIZE) 0 !! Z.to_nat o) as [v|] eqn:E; [|done].
  apply lookup_replicate in E as [-> _]. done.
Qed.

(** A new indirect block, empty. *)
Lemma grown_new_ind ip s x s1 bn b :
  geometry s -> bc_inv (cache_of s) -> file_ok s x -> meta_used s -> NDIRECT <= bn < MAXFILE -> addr_at x NDIRECT = 0 ->
  taken s s1 b -> rest s1 = rest s ->
  let x' := upd_addrs (zset (di_addrs (ip_di x)) NDIRECT b) x in
  grown ip s x (with_itable (zset (fs_itable s1) ip x') s1) x' bn 0 /\ addr_at x' NDIRECT = b.
Proof.
  intros Hg I Hok Hm Hbn Hz Ht Er x'. pose proof (rest_sb _ _ Er) as (Esb & Eit & Epid & Eu).
  set (s' := with_itable (zset (fs_itable s1) ip x') s1).
  assert (Ht' : taken s s' b) by done. assert (Esb' : fs_sb s' = fs_sb s) by done.
  destruct (taken_more s s' b Hg I Esb' Ht') as (Hmu & Hub & Hmeta). pose proof Ht as (Hb & Hfree & Hc).
  pose proof (ly_meta _ _ _ Hg) as Hlm. pose proof (fo_len _ _ Hok) as Hlen.
  assert (HMF : MAXFILE = 268) by done. assert (HND : NDIRECT = 12) by done.
  assert (Hlen' : 0 <= NDIRECT < Z.of_nat (length (di_addrs (ip_di x)))) by (rewrite Hlen; lia).
  assert (Hind : addr_at x' NDIRECT = b) by (unfold x'; rewrite addr_at_upd by done; by rewrite decide_True).
  assert (Hfa : forall bn', 0 <= bn' < MAXFILE -> file_addr s' x' bn' = file_addr s x bn').
  { intros bn' H'. unfold file_addr. rewrite Hind, Hz. unfold x'. rewrite addr_at_upd by done.
    destruct (Z.ltb_spec bn' NDIRECT); [by rewrite decide_False by lia|].
    rewrite (proj2 (Z.eqb_neq b 0)) by lia. change (content s' b) with (content s1 b).
    rewrite Hc, decide_True by done. apply get_le_zero. }
  assert (Hf0 : file_addr s x bn = 0) by (unfold file_addr; rewrite (proj2 (Z.ltb_ge _ _)) by lia; by rewrite Hz).
  split; [|done]. split.
  - unfold rest, s'. simpl. by rewrite Esb, Eit, Epid, Eu.
  - by exists (zset (di_addrs (ip_di x)) NDIRECT b).
  - apply (file_ok_add_ind s x s' x' b); try done; [lia|]. unfold x'. simpl. by rewrite length_zset.
  - by apply Hmeta.
  - done.
  - intros bn' H' Hne. by rewrite Hfa by done.
  - by rewrite Hfa by lia.
  - intros Hne. congruence.
  - done.
  - intros m H1 H2 _. by apply (taken_content s s' b).
  - intros m H1 H2. change (content s' m) with (content s1 m). rewrite Hc, decide_False by lia.
    rewrite decide_False; [done|]. apply H2. lia.
  - by rewrite Hind, decide_True.
Qed.

(** A data block recorded in the indirect block. *)
Lemma grown_indirect ip s x s1 s2 bn b :
  zget (fs_itable s) ip = Some x ->
  geometry s -> bc_inv (cache_of s) -> file_ok s x -> meta_used s -> NDIRECT <= bn < MAXFILE -> addr_at x NDIRECT <> 0 ->
  file_addr s x bn = 0 -> taken s s1 b -> rest s2 = rest s ->
  (forall m, content s2 m = if decide (m = addr_at x NDIRECT)
                            then set32 (content s1 (addr_at x NDIRECT)) (4 * (bn - NDIRECT)) b else content s1 m) ->
  grown ip s x s2 x bn b.
Proof.
  intros Hx Hg I Hok Hm Hbn Hne Hf0 Ht Er Hc2. pose proof (rest_sb _ _ Er) as (Esb & Eit & Epid & Eu).
  set (ind := addr_at x NDIRECT) in *. destruct (fo_ind _ _ Hok Hne) as [Hid Hiu]. fold ind in Hid, Hiu.
  pose proof (ly_meta _ _ _ Hg) as Hlm. pose proof (ly_size _ _ _ Hg) as Hls. pose proof Ht as (Hb & Hfree & Hc).
  assert (HMF : MAXFILE = 268) by done. assert (HND : NDIRECT = 12) by done.
  set (s1' := Fs (fs_log s1) (fs_sb s) (fs_itable s) (fs_pid s) (fs_user s)).
  destruct (taken_more s s1' b Hg I eq_refl Ht) as (Hmu & Hub & Hmeta).
  assert (Hu : forall a, 0 <= a < sb_size (fs_sb s) -> used s2 a = used s1' a).
  { intros a Ha. apply used_ext; [done|]. rewrite Hc2, decide_False; [done|].
    destruct (BBLOCK_eq s a Hg Ha) as (_ & Hr & _). unfold in_data in Hid.
    change (bmap_block s1' a) with (bmap_block s a). lia. }
  assert (Hci : content s1 ind = content s ind) by (by apply (taken_content s s1 b)).
  assert (Hfa : forall bn', 0 <= bn' < MAXFILE -> file_addr s2 x bn' = if decide (bn' = bn) then b else file_addr s x bn').
  { intros bn' H'. unfold file_addr. fold ind. destruct (Z.ltb_spec bn' NDIRECT); [by rewrite decide_False by lia|].
    rewrite (proj2 (Z.eqb_neq _ _) Hne), Hc2, decide_True, Hci by done. case_decide as D.
    - subst bn'. apply get32_set32_eq; [apply content_ok, I|unfold BSIZE; lia|lia].
    - apply get_le_set_le_ne. lia. }
  assert (Hmu2 : more_used s s2) by (intros a Ha Hua; rewrite Hu by done; by apply Hmu).
  split.
  - rewrite Er. unfold rest. by rewrite zset_id.
  - exists (di_addrs (ip_di x)). by destruct x as [? ? ? ? ? []].
  - apply (file_ok_add s x s2 x bn b); try done; [lia|lia|apply Hok|]. rewrite Hu by lia. done.
  - intros a Ha. rewrite Esb in Ha. rewrite Hu by lia. by apply Hmeta.
  - done.
  - intros bn' H' Hn'. rewrite Hfa by done. by rewrite decide_False.
  - rewrite Hfa by lia. by rewrite decide_True.
  - intros Hn'. congruence.
  - intros _ _. split; [|done]. rewrite Hc2, decide_False by congruence. rewrite Hc. by rewrite decide_True.
  - intros m H1 H2 H3. rewrite Hc2, decide_False by done. by apply (taken_content s s1 b).
  - intros m H1 H2. unfold in_data in Hid. rewrite Hc2, decide_False, Hc by lia. rewrite decide_False by lia.
    rewrite decide_False; [done|]. apply H2. lia.
  - by rewrite decide_False.
Qed.

Lemma grown_trans ip s x s1 x1 s2 x2 bn a :
  0 < nmeta (fs_sb s) -> 0 <= bn < MAXFILE ->
  grown ip s x s1 x1 bn (file_addr s x bn) -> grown ip s1 x1 s2 x2 bn a -> grown ip s x s2 x2 bn a.
Proof.
  intros Hm0 Hbn [R1 [l1 X1] K1 M1 U1 A1 T1 O1 N1 F1 I1 D1] [R2 [l2 X2] K2 M2 U2 A2 T2 O2 N2 F2 I2 D2].
  unfold rest in R1, R2. injection R1 as Esb1 Eit1 Ep1 Eu1. injection R2 as Esb2 Eit2 Ep2 Eu2.
  assert (Hsb : fs_sb s2 = fs_sb s) by congruence.
  split.
  - unfold rest. rewrite Esb2, Esb1, Ep2, Ep1, Eu2, Eu1, Eit2, Eit1, zset_zset. done.
  - exists l2. rewrite X2, X1. done.
  - done.
  - done.
  - intros b Hb Hu. apply U2; [by rewrite Esb1|]. by apply U1.
  - intros bn' H' Hne. rewrite A2, A1 by done. done.
  - done.
  - rewrite <- T1. done.
  - rewrite <- T1. intros Hz Ha. destruct (N2 Hz Ha) as [H1 H2]. split; [done|].
    destruct (fo_data _ _ K2 bn Hbn) as (Hd & _); [congruence|]. unfold in_data in Hd. rewrite T2, Hsb in Hd.
    destruct (used s a) eqn:E; [|done]. apply U1 in E; [|lia]. congruence.
  - intros m H1 H2 H3. rewrite F2, F1; [done|done|done|done|unfold in_data in *; by rewrite Esb1|apply U1; [unfold in_data in *; lia|done]|].
    intros E. destruct (decide (addr_at x NDIRECT = 0)) as [Hz|]; [|congruence].
    unfold in_data in H1. rewrite E, D1 in H2; [done|lia].
  - intros m H1 H2. rewrite I2, I1; [done|done|done|by rewrite Esb1|].
    intros b Hb. rewrite (bmap_block_sb s s1) by done. apply H2. by rewrite <- Esb1.
  - destruct (decide (addr_at x NDIRECT = 0)) as [Hz|Hnz].
    + destruct (decide (addr_at x1 NDIRECT = 0)) as [Hz1|Hnz1]; [|by rewrite D2].
      intros Hne. specialize (D2 Hne). destruct (used s (addr_at x2 NDIRECT)) eqn:E; [|done].
      destruct (fo_ind _ _ K2 Hne) as [Hd _]. unfold in_data in Hd. rewrite Hsb in Hd. apply U1 in E; [congruence|lia].
    + rewrite decide_False in D2 by congruence. congruence.
Qed.

(** ** [bmap] *)

Context (base : Z -> Z) (Hbase : forall n, 0 <= base n < 2 ^ 31).
Abbreviation ready := (ready base).
Abbreviation res := (res base).
Abbreviation after := (after base).

Lemma after_itable held W k s s' t : after held W k s s' -> after held W k s (with_itable t s').
Proof using Type. intros ([] & ? & []). split_and!; [|done|]; split; done. Qed.

(** No block is free. *)
Definition full (s : fs C U) : Prop := forall b, 0 <= b < sb_size (fs_sb s) -> used s b = true.

Lemma full_reads s s' : reads s s' -> full s -> full s'.
Proof using Type.
  intros Hrd Hfl b. destruct (itable_reads s s' Hrd) as [_ E]. rewrite E, (reads_used s s') by done. apply Hfl.
Qed.

(** What may still have to be added to the transaction for the indirect block. *)
Definition ind_cost (x : inode) : Z := if decide (addr_at x NDIRECT = 0) then 1 else 0.

(** The blocks that [bmap] may change: the bitmap and the indirect block. *)
Record bmap_dom (s : fs C U) (x : inode) (W : list Z) : Prop := {
  bd_bmap : bmap_in s W;
  bd_ind : addr_at x NDIRECT <> 0 -> addr_at x NDIRECT ∈ W
}.

Definition bmap_post (ip : Z) s (x : inode) (bn : Z) (W : list Z) (k a : Z) (s' : fs C U) : Prop :=
  exists x' W', after [] W' (k - 1 - (ind_cost x - ind_cost x')) s s' /\ W ⊆ W' /\ bmap_dom s' x' W' /\
    grown ip s x s' x' bn a /\ (a <> 0 -> a ∈ W') /\ (a = 0 -> full s').

Lemma bmap_in_sb s s' W W' : fs_sb s' = fs_sb s -> W ⊆ W' -> bmap_in s W -> bmap_in s' W'.
Proof using Type. intros E Hs HW b Hb. rewrite (bmap_block_sb s) by done. rewrite E in Hb. by apply Hs, HW. Qed.

(** The file is as before. *)
Lemma bmap_post_same s ip x bn W k s' W' k' :
  0 < nmeta (fs_sb s) -> zget (fs_itable s) ip = Some x -> file_ok s x -> meta_used s -> bmap_dom s x W ->
  reads s s' -> ready [] s' -> res [] s' W' k' -> k - 1 <= k' -> W ⊆ W' ->
  (file_addr s x bn <> 0 -> file_addr s x bn ∈ W') -> (file_addr s x bn = 0 -> full s') ->
  bmap_post ip s x bn W k (file_addr s x bn) s'.
Proof using Type.
  intros Hm0 Hx Hok Hm [Hbd Hid] Hrd Hr' Hres' Hk' HWW Ha0 Ha1.
  pose proof Hrd as (R & L & _). pose proof (rest_sb _ _ R) as (E & _).
  exists x, W'. split_and!; [|done| |by apply grown_same|done|done].
  - split_and!; [done|unfold same_log; by rewrite L|]. eapply res_le; [done|]. clear -Hk'. lia.
  - split; [by eapply bmap_in_sb|]. intros Hi. apply HWW. by apply Hid.
Qed.

(** The data block of an indirect block. *)
Lemma bmap_indirect s ip x bn W k (Q : Z -> fs C U -> Prop) :
  ready [] s -> zget (fs_itable s) ip = Some x -> geometry s -> file_ok s x -> meta_used s -> bmap_dom s x W ->
  res [] s W k -> 1 <= k -> NDIRECT <= bn < MAXFILE -> addr_at x NDIRECT <> 0 ->
  (forall a s', bmap_post ip s x bn W k a s' -> Q a s') ->
  wpn (let* bp := f_bread (addr_at x NDIRECT) in
       let* d := f_data bp in
       let a := get32 d (4 * (bn - NDIRECT)) in
       let* addr :=
         (if a =? 0 then
            let* addr := balloc in
            (if negb (addr =? 0) then
               let* d := f_data bp in
               f_store bp (set32 d (4 * (bn - NDIRECT)) addr) ;;;
               f_log_write bp
             else ret tt) ;;;
            ret addr
          else ret a) in
       f_brelse bp ;;;
       ret addr) s Q.
Proof.
  intros Hr Hx Hg Hok Hm Hdom Hres Hk Hbn Hne HQ. pose proof Hdom as [Hbd Hid]. set (ind := addr_at x NDIRECT) in *.
  destruct (fo_ind _ _ Hok Hne) as [Hin Hiu]. fold ind in Hin, Hiu. unfold in_data in Hin.
  pose proof (ly_size _ _ _ Hg) as Hls. pose proof (ly_meta _ _ _ Hg) as Hlm. pose proof (ly_log _ _ _ Hg) as Hll.
  assert (Hfa : file_addr s x bn = get32 (content s ind) (4 * (bn - NDIRECT))).
  { unfold file_addr. rewrite (proj2 (Z.ltb_ge _ _)) by lia. fold ind. by rewrite (proj2 (Z.eqb_neq _ _) Hne). }
  apply wpn_bind. eapply (wpn_read base Hbase []); [done|apply not_elem_of_nil|done|lia|simpl; lia|].
  intros h s1 Hr1 Hrd1 Hres1 Ed. pose proof Hrd1 as (R1 & L1 & C1). pose proof (rest_sb _ _ R1) as (Esb1 & _).
  apply wpn_bind. eapply wpn_run; [exact Ed|]. cbv zeta. rewrite <- Hfa.
  pose proof (fun s' W' k' => bmap_post_same s ip x bn W k s' W' k' (proj1 Hlm)) as Hsame.
  destruct (Z.eqb_spec (file_addr s x bn) 0) as [Hz|Hnz].
  2: { apply wpn_bind, wpn_ret, wpn_bind. eapply (wpn_release base Hbase []); [done|done|].
       intros s2 Hr2 Hrd2 Hres2. apply wpn_ret, HQ. eapply (Hsame s2 (file_addr s x bn :: W) (k - 1)); [done|done|done|done| | | | | | |].
       - by etrans.
       - done.
       - by apply res_add.
       - lia.
       - intros y Hy. by right.
       - left.
       - done. }
  assert (Hg1 : geometry s1) by (unfold geometry; by rewrite Esb1, L1).
  assert (Hm1 : meta_used s1) by (intros b; rewrite Esb1, (reads_used s s1) by done; apply Hm).
  apply wpn_bind, wpn_bind. eapply (balloc_run base Hbase [(h, ind)] s1 W k); try done; [|by eapply bmap_in_sb|..].
  - intros n Hn. simpl in Hn. apply list_elem_of_singleton in Hn as ->. rewrite (reads_used s s1) by done. split; [done|].
    intros b Hb. rewrite (bmap_block_sb s s1) by done. rewrite Esb1 in Hb. destruct (BBLOCK_eq s b Hg Hb) as (_ & ? & _). lia.
  - intros s2 (Hr2 & Hl2 & Hres2) Hrd2 Hfull. cbn [Z.eqb negb]. apply wpn_bind, wpn_ret, wpn_ret, wpn_bind.
    eapply (wpn_release base Hbase []); [done|done|]. intros s3 Hr3 Hrd3 Hres3. apply wpn_ret, HQ. rewrite <- Hz.
    eapply (Hsame s3 W k); try done; [by etrans; [exact Hrd1|]; etrans; [exact Hrd2|]|lia|].
    intros _. eapply full_reads; [|exact Hfull]. by etrans.
  - intros b s2 (Hr2 & Hl2 & Hres2) R2 Ht2. pose proof Ht2 as (Hb & _).
    rewrite Esb1 in Hb. rewrite (proj2 (Z.eqb_neq b 0)) by lia. cbn [negb].
    apply wpn_bind, wpn_bind. eapply wpn_data; [done|left|].
    eapply (wpn_record base Hbase [(h, ind)] s2 h ind _ (b :: W) (k - 1)); [done|left|done|lia|right; by apply Hid|lia| |
      apply block_ok_set_le, content_ok, Hr2|].
    { unfold in_log. destruct Hl2 as [-> ->]. rewrite L1. lia. }
    intros s3 (Hr3 & Hl3 & Hres3) R3 C3. apply wpn_ret, wpn_bind. eapply (wpn_release base Hbase []); [done|done|].
    intros s4 Hr4 (R4 & L4 & C4) Hres4. apply wpn_ret, HQ. exists x, (b :: W).
    pose proof (rest_sb _ _ R4) as (E4 & _). pose proof (rest_sb _ _ R3) as (E3 & _). pose proof (rest_sb _ _ R2) as (E2 & _).
    split_and!; [split_and!; [done| |]|intros y Hy; by right| | |left|lia].
    + unfold same_log in *. rewrite L4. destruct Hl3 as [-> ->], Hl2 as [-> ->]. by rewrite L1.
    + eapply res_le; [done|lia].
    + split; [eapply (bmap_in_sb s); [congruence| |done]; intros y Hy; by right|]. intros _. right. by apply Hid.
    + apply (grown_indirect ip s x s2 s4 bn b); try done; [apply Hr| |congruence|intros m; by rewrite C4, C3].
      destruct Ht2 as (T1 & T2 & T3). split_and!; [lia|lia|by rewrite <- (reads_used s s1)|].
      intros m. rewrite T3, C1. by rewrite (bmap_block_sb s s1) by done.
Qed.

(** A block of the file that is not there yet: allocated and put in the inode. *)
Lemma bmap_take s ip x i W k s1 b :
  zget (fs_itable s) ip = Some x -> bmap_dom s x W -> 0 <= i < Z.of_nat (length (di_addrs (ip_di x))) ->
  after [] (b :: W) (k - 1) s s1 -> rest s1 = rest s ->
  let x' := upd_addrs (zset (di_addrs (ip_di x)) i b) x in
  let s' := with_itable (zset (fs_itable s1) ip x') s1 in
  set_addr ip i b s1 = Done tt s' [] /\ after [] (b :: W) (k - 1) s s' /\ bmap_dom s' x' (b :: W) /\
  zget (fs_itable s') ip = Some x' /\ fs_sb s' = fs_sb s.
Proof using Type.
  intros Hx [Hbd Hid] Hi Ha Er x' s'. pose proof (rest_sb _ _ Er) as (Esb & Eit & _). split_and!.
  - unfold set_addr, di_upd. apply (ip_upd_run s1 ip x). by rewrite Eit.
  - by apply after_itable.
  - split; [eapply (bmap_in_sb s); [done| |done]; intros y Hy; by right|].
    unfold x'. rewrite addr_at_upd by done. case_decide; [left|]. intros Hne. right. by apply Hid.
  - apply zget_zset_eq. rewrite Eit. by apply zget_Some in Hx.
  - done.
Qed.

Section bmap.
Context (s : fs C U) (ip : Z) (x : inode) (bn : Z) (W : list Z) (k : Z).
Hypothesis (Hr : ready [] s) (Hx : zget (fs_itable s) ip = Some x) (Hg : geometry s) (Hok : file_ok s x).
Hypothesis (Hm : meta_used s) (Hdom : bmap_dom s x W) (Hres : res [] s W k) (Hk : 1 + ind_cost x <= k).

Lemma ind_cost_nonneg : 0 <= ind_cost x.
Proof using Type. unfold ind_cost. case_decide; lia. Qed.

Lemma held_nil : held_ok [] s.
Proof using Type. intros n Hn. by apply not_elem_of_nil in Hn. Qed.

(** No block could be allocated. *)
Lemma bmap_no_block s' : reads s s' -> after [] W k s s' -> (forall b, 0 <= b < sb_size (fs_sb s) -> used s b = true) ->
  file_addr s x bn = 0 -> bmap_post ip s x bn W k 0 s'.
Proof using Hx Hg Hok Hm Hdom.
  intros Hrd (Hr' & _ & Hres') Hfl Hz. pose proof (ly_meta _ _ _ Hg) as Hlm. rewrite <- Hz.
  eapply (bmap_post_same _ _ _ _ _ _ _ W k (proj1 Hlm)); try done; [clear; lia|]. intros _. apply (full_reads s s' Hrd). exact Hfl.
Qed.

Lemma bmap_direct (Q : Z -> fs C U -> Prop) :
  0 <= bn < NDIRECT -> (forall a s', bmap_post ip s x bn W k a s' -> Q a s') -> wpn (bmap ip bn) s Q.
Proof using All.
  intros Hbn HQ. pose proof (fo_len _ _ Hok) as Hlen. pose proof ind_cost_nonneg. assert (HND : NDIRECT = 12) by done.
  pose proof (ly_meta _ _ _ Hg) as Hlm. unfold bmap. rewrite (proj2 (Z.ltb_lt _ _)) by lia.
  assert (Hfa : file_addr s x bn = addr_at x bn) by (unfold file_addr; by rewrite (proj2 (Z.ltb_lt _ _)) by lia).
  apply wpn_bind, (wpn_ip_get _ _ x); [done|]. destruct (Z.eqb_spec (addr_at x bn) 0) as [Hz|Hnz].
  2: { apply wpn_ret, HQ. rewrite <- Hfa in *. eapply (bmap_post_same _ _ _ _ _ _ _ (file_addr s x bn :: W) (k - 1) (proj1 Hlm)); try done.
       - by apply res_add.
       - intros y Hy. by right.
       - left. }
  apply wpn_bind. eapply (balloc_run base Hbase [] s W k); try done; [apply held_nil|simpl; lia|apply Hdom|lia| |].
  - intros s1 Ha1 Hrd1 Hfl. cbn [Z.eqb]. apply wpn_ret, HQ, bmap_no_block; try done. congruence.
  - intros b s1 Ha1 R1 Ht1. pose proof Ht1 as (Hb & _). rewrite (proj2 (Z.eqb_neq b 0)) by lia.
    destruct (bmap_take s ip x bn W k s1 b) as (Es & Ha & Hdom' & _); [done|done|lia|done|done|].
    apply wpn_bind. eapply wpn_run; [exact Es|]. apply wpn_ret, HQ. eexists _, (b :: W).
    split_and!; [|intros y Hy; by right|exact Hdom'|apply grown_direct; try done; apply Hr|left|lia].
    destruct Ha as (H1 & H2 & H3). split_and!; [done|done|].
    eapply res_le; [done|]. unfold ind_cost. rewrite addr_at_upd, (decide_False (P := NDIRECT = bn)) by lia. lia.
Qed.

Lemma bmap_run (Q : Z -> fs C U -> Prop) :
  0 <= bn < MAXFILE -> (forall a s', bmap_post ip s x bn W k a s' -> Q a s') -> wpn (bmap ip bn) s Q.
Proof using All.
  intros Hbn HQ. pose proof (fo_len _ _ Hok) as Hlen. pose proof ind_cost_nonneg as Hc0.
  assert (HND : NDIRECT = 12) by done. assert (HMF : MAXFILE = NDIRECT + NINDIRECT) by done.
  pose proof (ly_meta _ _ _ Hg) as Hlm. destruct (Z.lt_ge_cases bn NDIRECT) as [Hd|Hd]; [apply bmap_direct; [lia|done]|].
  unfold bmap. rewrite (proj2 (Z.ltb_ge _ _) Hd), (proj2 (Z.ltb_lt (bn - NDIRECT) NINDIRECT)) by lia.
  apply wpn_bind, (wpn_ip_get _ _ x); [done|].
  destruct (Z.eqb_spec (addr_at x NDIRECT) 0) as [Hz|Hnz].
  2: { apply wpn_bind, wpn_ret. rewrite (proj2 (Z.eqb_neq _ _) Hnz). apply (bmap_indirect s ip x bn W k); try done; lia. }
  assert (Hcx : ind_cost x = 1) by (unfold ind_cost; by rewrite decide_True).
  assert (Hfa : file_addr s x bn = 0) by (unfold file_addr; rewrite (proj2 (Z.ltb_ge _ _) Hd), Hz; done).
  apply wpn_bind, wpn_bind. eapply (balloc_run base Hbase [] s W k); try done; [apply held_nil|simpl; lia|apply Hdom|lia| |].
  - intros s1 Ha1 Hrd1 Hfl. cbn [Z.eqb]. apply wpn_bind, wpn_ret, wpn_ret, wpn_ret, HQ. by apply bmap_no_block.
  - intros b s1 Ha1 R1 Ht1. pose proof Ht1 as (Hb & _). rewrite (proj2 (Z.eqb_neq b 0)) by lia.
    destruct (bmap_take s ip x NDIRECT W k s1 b) as (Es & Ha & Hdom' & Hx' & Esb'); [done|done|lia|done|done|].
    apply wpn_bind. eapply wpn_run; [exact Es|]. apply wpn_ret. rewrite (proj2 (Z.eqb_neq b 0)) by lia.
    destruct (grown_new_ind ip s x s1 bn b) as [Gr Ei]; try done; [apply Hr|lia|].
    set (x' := upd_addrs _ x) in *. set (s' := with_itable _ s1) in *. pose proof Ha as (Hr' & Hl' & Hres'). rewrite <- Ei.
    apply (bmap_indirect s' ip x' bn (b :: W) (k - 1)); try done; [by eapply geometry_same|apply Gr|apply Gr|lia|lia|lia|].
    intros a s2 (x2 & W2 & Ha2 & HW2 & Hd2 & Gr2 & Hin2 & Hf2). apply HQ. exists x2, W2.
    split_and!; [|intros y Hy; apply HW2; by right|done| |done|done].
    + eapply (after_trans base); [exact Ha|]. replace (k - 1 - _) with (k - 1 - 1 - (ind_cost x' - ind_cost x2)); [done|].
      rewrite Hcx. unfold ind_cost at 1. rewrite decide_False by lia. lia.
    + eapply (grown_trans ip s x s' x'); [lia|lia| |done]. by rewrite Hfa.
Qed.
End bmap.
End write.
