(* ===== verification/FsWritei.v ===== *)
(** * kernel/fs.c: writei

    [writei] changes exactly the bytes it is told to: [wrote] is the effect on the
    content of the file and on the rest of the disk of writing some bytes at
    an offset, first for one block, then for the whole loop. *)

From Stdlib Require Import ZArith Lia.
From stdpp Require Import base list sets gmap strings numbers.
From S2P Require Import Prelude Sleeplock Blocks BlockCache Log LogProofs LogOps Bio BioProofs Fs FsBase FsRead FsAlloc FsDir FsWrite.

Section writei.
Context {C U : Type} `{HL : BlockCacheLaws C}.
Implicit Type s : fs C U.

(** Byte [i] of a file, 0 where it has no block. *)
Definition fbyte (s : fs C U) (x : inode) (i : Z) : Z :=
  if file_addr s x (i / BSIZE) =? 0 then 0 else file_byte s x i.

(** Block [m] is not a block of the file. *)
Definition not_of (s : fs C U) (x : inode) (m : Z) : Prop :=
  m <> addr_at x NDIRECT /\ forall bn, 0 <= bn < MAXFILE -> m <> file_addr s x bn.

Record wrote (ip : Z) (s : fs C U) (x : inode) (s' : fs C U) (x' : inode) (off : Z) (bs : list Z) : Prop := {
  wr_rest : rest s' = (fs_sb s, zset (fs_itable s) ip x', fs_pid s, fs_user s);
  wr_x : exists l, x' = upd_addrs l x;
  wr_ok : file_ok s' x';
  wr_meta : meta_used s';
  wr_more : more_used s s';
  wr_addr bn : 0 <= bn < MAXFILE -> file_addr s x bn <> 0 -> file_addr s' x' bn = file_addr s x bn;
  wr_new bn : 0 <= bn < MAXFILE -> file_addr s x bn = 0 -> file_addr s' x' bn <> 0 -> used s (file_addr s' x' bn) = false;
  wr_there i : off <= i < off + Z.of_nat (length bs) -> file_addr s' x' (i / BSIZE) <> 0;
  wr_byte i : 0 <= i < MAXFILE * BSIZE -> fbyte s' x' i =
    if decide (off <= i < off + Z.of_nat (length bs)) then byte_at bs (i - off) else fbyte s x i;
  wr_frame m : in_data s m -> used s m = true -> not_of s x m -> content s' m = content s m;
  wr_inodes m : 0 <= m < nmeta (fs_sb s) -> (forall b, 0 <= b < sb_size (fs_sb s) -> m <> bmap_block s b) ->
    content s' m = content s m;
  wr_ind : if decide (addr_at x NDIRECT = 0) then addr_at x' NDIRECT <> 0 -> used s (addr_at x' NDIRECT) = false
           else addr_at x' NDIRECT = addr_at x NDIRECT
}.

(** What [bmap] does, before any byte is written. *)
Lemma wrote_grown ip s x s' x' bn a off :
  geometry s -> file_ok s x -> 0 <= bn < MAXFILE -> grown ip s x s' x' bn a -> wrote ip s x s' x' off [].
Proof.
  intros Hg Hok Hbn [R X K M Mu A T O N F I D]. pose proof (ly_meta _ _ _ Hg) as Hlm.
  assert (Hkeep : forall bn', 0 <= bn' < MAXFILE -> file_addr s x bn' <> 0 -> file_addr s' x' bn' = file_addr s x bn').
  { intros bn' H' Hne. destruct (decide (bn' = bn)) as [->|]; [rewrite T; auto|auto]. }
  split; try done.
  - intros bn' H' Hz Hne. destruct (decide (bn' = bn)) as [->|Hn]; [rewrite T in *; by apply N|].
    rewrite A in Hne by done. done.
  - intros i Hi. simpl in Hi. lia.
  - intros i Hi. rewrite decide_False by (simpl; lia).
    assert (Hb : 0 <= i / BSIZE < MAXFILE) by (split; [apply Z.div_pos; unfold BSIZE; lia|apply Z.div_lt_upper_bound; unfold BSIZE in *; lia]).
    unfold fbyte, file_byte. destruct (Z.eqb_spec (file_addr s x (i / BSIZE)) 0) as [Hz|Hne].
    + destruct (Z.eqb_spec (file_addr s' x' (i / BSIZE)) 0) as [|Hne']; [done|].
      destruct (decide (i / BSIZE = bn)) as [E|Hn]; [|rewrite A in Hne' by done; done].
      rewrite E in *. rewrite T in *. destruct (N Hz Hne') as [-> _]. unfold byte_at, zget, zero_block.
      destruct (0 <=? i mod BSIZE); [|done].
      destruct (replicate (Z.to_nat BSIZE) 0 !! Z.to_nat (i mod BSIZE)) as [v|] eqn:Ev; [|done].
      apply lookup_replicate in Ev as [-> _]. done.
    + rewrite Hkeep, (proj2 (Z.eqb_neq _ _) Hne) by done. destruct (fo_data _ _ Hok _ Hb Hne) as (H1 & H2 & H3).
      by rewrite F.
  - intros m H1 H2 [H3 _]. by apply F.
Qed.

(** One block of the file is changed. *)
Lemma wrote_store ip s x s1 o bs a :
  zget (fs_itable s) ip = Some x -> bc_inv (cache_of s) ->
  geometry s -> file_ok s x -> meta_used s -> 0 <= o < MAXFILE * BSIZE -> a = file_addr s x (o / BSIZE) -> a <> 0 ->
  o mod BSIZE + Z.of_nat (length bs) <= BSIZE -> rest s1 = rest s ->
  (forall m, content s1 m = if decide (m = a) then put_bytes (content s a) (o mod BSIZE) bs else content s m) ->
  wrote ip s x s1 x o bs.
Proof.
  intros Hx I Hg Hok Hm Ho Ea Hne Hend Er Hc. pose proof (rest_sb _ _ Er) as (Esb & Eit & Epid & Eu).
  assert (HB : BSIZE = 1024) by done.
  pose proof (ly_meta _ _ _ Hg) as Hlm. pose proof (Z.mod_pos_bound o BSIZE ltac:(lia)) as Hmod.
  pose proof (Z.div_mod o BSIZE ltac:(lia)) as Hdm.
  assert (Hbo : 0 <= o / BSIZE < MAXFILE) by (split; [apply Z.div_pos; lia|apply Z.div_lt_upper_bound; lia]).
  destruct (fo_data _ _ Hok _ Hbo ltac:(congruence)) as (Ha1 & Ha2 & Ha3). rewrite <- Ea in Ha1, Ha2, Ha3.
  unfold in_data in Ha1.
  assert (Hu : forall b, 0 <= b < sb_size (fs_sb s) -> used s1 b = used s b).
  { intros b Hb. apply used_ext; [done|]. rewrite Hc, decide_False; [done|].
    destruct (BBLOCK_eq s b Hg Hb) as (_ & ? & _). lia. }
  assert (Hfa : forall bn, file_addr s1 x bn = file_addr s x bn).
  { intros bn. unfold file_addr. by rewrite Hc, decide_False. }
  split.
  - rewrite Er. unfold rest. by rewrite zset_id.
  - exists (di_addrs (ip_di x)). by destruct x as [? ? ? ? ? []].
  - apply (file_ok_same s); try done. lia.
  - intros b. rewrite Esb. intros Hb. rewrite Hu by lia. by apply Hm.
  - intros b Hb. by rewrite Hu.
  - intros bn _ _. apply Hfa.
  - intros bn _ Hz. rewrite Hfa. done.
  - intros i Hi. assert (i / BSIZE = o / BSIZE) as ->; [|by rewrite Hfa, <- Ea].
    symmetry. apply Z.div_unique with (o mod BSIZE + (i - o)); lia.
  - intros i Hi. unfold fbyte, file_byte. rewrite Hfa.
    assert (Hb : 0 <= i / BSIZE < MAXFILE) by (split; [apply Z.div_pos; lia|apply Z.div_lt_upper_bound; lia]).
    pose proof (Z.mod_pos_bound i BSIZE ltac:(lia)). pose proof (Z.div_mod i BSIZE ltac:(lia)).
    destruct (decide (i / BSIZE = o / BSIZE)) as [E|Hn].
    + rewrite E, <- Ea, (proj2 (Z.eqb_neq _ _) Hne), Hc, decide_True by done. pose proof (content_ok (cache_of s) a I) as Hk.
      change (v_content (bc_view (cache_of s)) a) with (content s a) in Hk.
      unfold block_ok in Hk. rewrite byte_at_put_bytes by lia. rewrite E in *.
      case_decide; [|destruct (Z.leb_spec (o mod BSIZE) (i mod BSIZE)), (Z.ltb_spec (i mod BSIZE) (o mod BSIZE + Z.of_nat (length bs))); try done; lia].
      rewrite (proj2 (Z.leb_le _ _)), (proj2 (Z.ltb_lt _ _)) by lia. cbn [andb]. f_equal. lia.
    + rewrite decide_False.
      2: { intros Hr. apply Hn. symmetry. apply Z.div_unique with (o mod BSIZE + (i - o)); lia. }
      destruct (Z.eqb_spec (file_addr s x (i / BSIZE)) 0) as [|Hnz]; [done|].
      rewrite Hc, decide_False; [done|]. intros E. apply Hn. apply (fo_inj _ _ Hok); congruence.
  - intros m H1 H2 [_ H3]. rewrite Hc, decide_False; [done|]. rewrite Ea. by apply H3.
  - intros m H1 H2. rewrite Hc, decide_False by lia. done.
  - case_decide; congruence.
Qed.

Lemma wrote_trans ip s x s1 x1 s2 x2 off bs1 bs2 :
  0 < nmeta (fs_sb s) -> 0 <= off -> off + Z.of_nat (length bs1) <= MAXFILE * BSIZE ->
  wrote ip s x s1 x1 off bs1 -> wrote ip s1 x1 s2 x2 (off + Z.of_nat (length bs1)) bs2 ->
  wrote ip s x s2 x2 off (bs1 ++ bs2).
Proof.
  intros Hm0 Hoff Hend [R1 [l1 X1] K1 M1 U1 A1 N1 T1 B1 F1 I1 D1] [R2 [l2 X2] K2 M2 U2 A2 N2 T2 B2 F2 I2 D2].
  unfold rest in R1, R2. injection R1 as Esb1 Eit1 Ep1 Eu1. injection R2 as Esb2 Eit2 Ep2 Eu2.
  assert (Hsb : fs_sb s2 = fs_sb s) by congruence.
  assert (Hunused : forall b, in_data s2 b -> used s1 b = false -> used s b = false).
  { intros b Hb Hu. unfold in_data in Hb. rewrite Hsb in Hb. destruct (used s b) eqn:E; [|done].
    apply U1 in E; [congruence|lia]. }
  assert (Hblk : forall i, 0 <= i < MAXFILE * BSIZE -> 0 <= i / BSIZE < MAXFILE).
  { intros i Hi. split; [apply Z.div_pos; unfold BSIZE; lia|apply Z.div_lt_upper_bound; unfold BSIZE in *; lia]. }
  split.
  - unfold rest. rewrite Esb2, Esb1, Ep2, Ep1, Eu2, Eu1, Eit2, Eit1, zset_zset. done.
  - exists l2. rewrite X2, X1. done.
  - done.
  - done.
  - intros b Hb Hu. apply U2; [by rewrite Esb1|]. by apply U1.
  - intros bn Hbn Hne. rewrite A2, A1; rewrite ?A1; done.
  - intros bn Hbn Hz Hne. destruct (decide (file_addr s1 x1 bn = 0)) as [Hz1|Hne1].
    + apply Hunused; [by apply (fo_data _ _ K2)|by apply N2].
    + rewrite A2 by done. by apply N1.
  - intros i Hi. rewrite length_app in Hi. destruct (Z.lt_ge_cases i (off + Z.of_nat (length bs1))).
    + rewrite A2; [|apply Hblk; lia|]; apply T1; lia.
    + apply T2. lia.
  - intros i Hi. rewrite B2, B1 by done. rewrite length_app.
    destruct (Z.lt_ge_cases i off) as [Hl|Hl]; [by rewrite !decide_False by lia|].
    destruct (Z.lt_ge_cases i (off + Z.of_nat (length bs1))) as [Hl1|Hl1].
    + rewrite (decide_False (P := off + Z.of_nat (length bs1) <= i < _)), !decide_True by lia.
      unfold byte_at, zget. destruct (Z.leb_spec 0 (i - off)); [|done].
      by rewrite lookup_app_l by lia.
    + rewrite (decide_False (P := off <= i < off + Z.of_nat (length bs1))) by lia.
      destruct (Z.lt_ge_cases i (off + Z.of_nat (length bs1) + Z.of_nat (length bs2)));
        [rewrite !decide_True by lia|by rewrite !decide_False by lia].
      unfold byte_at, zget. rewrite !(proj2 (Z.leb_le 0 _)) by lia. rewrite lookup_app_r by lia.
      do 2 f_equal. lia.
  - intros m H1 H2 [H3 H4]. assert (Hm : 0 < m) by (unfold in_data in H1; lia).
    rewrite F2; [by apply F1|unfold in_data in *; by rewrite Esb1|apply U1; [unfold in_data in *; lia|done]|]. split.
    + intros E. destruct (decide (addr_at x NDIRECT = 0)); [|congruence]. rewrite E, D1 in H2; [done|lia].
    + intros bn Hbn E. destruct (decide (file_addr s x bn = 0)) as [Hz|Hne].
      * rewrite E, N1 in H2; [done|done|done|lia].
      * rewrite A1 in E by done. by apply (H4 bn).
  - intros m H1 H2. rewrite I2, I1; [done|done|done|by rewrite Esb1|].
    intros b Hb. rewrite (bmap_block_sb s s1) by done. apply H2. by rewrite <- Esb1.
  - destruct (decide (addr_at x NDIRECT = 0)) as [Hz|Hnz].
    + destruct (decide (addr_at x1 NDIRECT = 0)) as [Hz1|Hnz1]; [|by rewrite D2].
      intros Hne. apply Hunused; [by apply (fo_ind _ _ K2)|by apply D2].
    + rewrite decide_False in D2 by congruence. congruence.
Qed.

Lemma wrote_itable ip s x s' x' off bs :
  zget (fs_itable s) ip = Some x -> wrote ip s x s' x' off bs -> zget (fs_itable s') ip = Some x' /\ fs_sb s' = fs_sb s.
Proof.
  intros Hx [R _ _ _ _ _ _ _ _ _ _ _]. unfold rest in R. injection R as -> -> _ _. split; [|done].
  apply zget_zset_eq. by apply zget_Some in Hx.
Qed.

(** ** The loop *)

Context (ucopyin : U -> Z -> Z -> Z * list Z).
Context (base : Z -> Z) (Hbase : forall n, 0 <= base n < 2 ^ 31).
Abbreviation ready := (ready base).
Abbreviation res := (res base).
Abbreviation after := (after base).

(** The block that [bmap] gave is written. *)
Lemma write_block {A} s ip x off bs a W k (K : M (fs C U) A) (Q : A -> fs C U -> Prop) :
  ready [] s -> zget (fs_itable s) ip = Some x -> geometry s -> file_ok s x -> meta_used s ->
  res [] s W k -> 0 <= k -> 0 <= off < MAXFILE * BSIZE -> a = file_addr s x (off / BSIZE) -> a <> 0 -> a ∈ W ->
  off mod BSIZE + Z.of_nat (length bs) <= BSIZE ->
  (forall s', after [] W k s s' -> wrote ip s x s' x off bs -> wpn K s' Q) ->
  wpn (let* bp := f_bread a in
       let* _ := get in
       let* d := f_data bp in
       f_store bp (put_bytes d (off mod BSIZE) bs) ;;;
       f_log_write bp ;;; f_brelse bp ;;; K) s Q.
Proof.
  intros Hr Hx Hg Hok Hm Hres Hk Hoff Ea Hne HW Hend HQ.
  assert (Hbo : 0 <= off / BSIZE < MAXFILE)
    by (split; [apply Z.div_pos; unfold BSIZE; lia|apply Z.div_lt_upper_bound; unfold BSIZE in *; lia]).
  destruct (fo_data _ _ Hok _ Hbo ltac:(congruence)) as (Ha & _ & _). rewrite <- Ea in Ha. unfold in_data in Ha.
  pose proof (ly_size _ _ _ Hg). pose proof (ly_meta _ _ _ Hg). pose proof (ly_log _ _ _ Hg).
  pose proof (Z.mod_pos_bound off BSIZE ltac:(done)).
  apply wpn_bind. eapply (wpn_read base Hbase []); [done|apply not_elem_of_nil|done|lia|simpl; lia|].
  intros h s1 Hr1 (R1 & L1 & C1) Hres1 Ed. apply wpn_bind. eapply wpn_run; [done|].
  apply wpn_bind. eapply wpn_run; [exact Ed|].
  apply wpn_assoc, wpn_bind. eapply (wpn_record base Hbase _ s1); [done|left|done|done|done|lia| | |].
  { rewrite L1. unfold in_log. lia. }
  { unfold block_ok. pose proof (content_ok (cache_of s) a (rd_inv _ _ _ Hr)) as Hb. unfold block_ok in Hb.
    change (v_content (bc_view (cache_of s)) a) with (content s a) in Hb.
    rewrite length_put_bytes; [done|lia|rewrite Hb; unfold BSIZE in *; lia]. }
  intros s2 (Hr2 & Hl2 & Hres2) R2 C2. apply wpn_bind. eapply (wpn_release base Hbase []); [done|done|].
  intros s3 Hr3 (R3 & L3 & C3) Hres3. apply HQ.
  - split_and!; [done| |done]. unfold same_log in *. rewrite L3, <- L1. done.
  - apply (wrote_store ip s x s3 off bs a); try done; [apply Hr|congruence|].
    intros m. rewrite C3, C2. case_decide; [done|apply C1].
Qed.

(** After the loop has written the first [tot' - tot] bytes of [bs]. *)
Definition wloop_post (ip : Z) s (x : inode) (W : list Z) (off tot n : Z) (bs : list Z) (r : Z * Z) (s' : fs C U) : Prop :=
  exists x' W' k', tot <= r.1 <= n /\ r.2 = off + (r.1 - tot) /\ after [] W' k' s s' /\ 0 <= k' /\ W ⊆ W' /\
    wrote ip s x s' x' off (take (Z.to_nat (r.1 - tot)) bs) /\ (r.1 < n -> full s').

Lemma writei_loop_run fuel ip s x off tot n bs W k (Q : Z * Z -> fs C U -> Prop) :
  ready [] s -> zget (fs_itable s) ip = Some x -> geometry s -> file_ok s x -> meta_used s -> bmap_dom s x W ->
  res [] s W k -> 0 <= k -> 0 <= off -> tot <= n -> off + (n - tot) <= MAXFILE * BSIZE ->
  Z.of_nat (length bs) = n - tot -> (0 < fuel)%nat ->
  (tot < n -> off mod BSIZE + (n - tot) <= (Z.of_nat fuel - 1) * BSIZE) ->
  (tot < n -> off mod BSIZE + (n - tot) <= (k - ind_cost x) * BSIZE) ->
  (forall r s', wloop_post ip s x W off tot n bs r s' -> Q r s') ->
  wpn (writei_loop ucopyin fuel ip (SKernel bs) off tot n) s Q.
Proof.
  revert s x off tot bs W k. induction fuel as [|fuel IH];
    intros s x off tot bs W k Hr Hx Hg Hok Hm Hdom Hres Hk Hoff Htot Hend Hlen Hf0 Hfuel Hbud HQ; [lia|].
  pose proof (ly_meta _ _ _ Hg) as Hlm.
  cbn [writei_loop]. destruct (Z.ltb_spec tot n) as [Hlt|Hge].
  2: { apply wpn_ret, HQ. exists x, W, k. replace tot with n by lia. rewrite Z.sub_diag. simpl.
       split_and!; try done; try lia.
       apply (wrote_grown ip s x s x 0 (file_addr s x 0)); try done. apply grown_same; [lia|done..]. }
  specialize (Hfuel Hlt). specialize (Hbud Hlt). assert (HB : BSIZE = 1024) by done.
  pose proof (Z.mod_pos_bound off BSIZE ltac:(done)) as Hmod. pose proof (Z.div_mod off BSIZE ltac:(done)) as Hdm.
  assert (Hbn : 0 <= off / BSIZE < MAXFILE) by (split; [apply Z.div_pos; lia|apply Z.div_lt_upper_bound; lia]).
  apply wpn_bind, (bmap_run base Hbase s ip x (off / BSIZE) W k); try done; [lia|].
  intros a s1 (x1 & W1 & Ha1 & HW1 & Hd1 & Gr & Hain & Hafull).
  assert (Hk1 : 0 <= ind_cost x1) by (unfold ind_cost; case_decide; lia).
  pose proof Ha1 as (Hr1 & Hl1 & Hres1). set (k1 := k - 1 - _) in *.
  pose proof (wrote_grown ip s x s1 x1 _ a off Hg Hok Hbn Gr) as Hw1.
  destruct (wrote_itable _ _ _ _ _ _ _ Hx Hw1) as [Hx1 Esb1].
  destruct (Z.eqb_spec a 0) as [Ha0|Hane].
  { apply wpn_ret, HQ. exists x1, W1, k1. simpl. rewrite Z.sub_diag. split_and!; try done; try lia. intros _. by apply Hafull. }
  set (m := Z.min (n - tot) (BSIZE - off mod BSIZE)). assert (Hmr : 0 < m <= n - tot) by lia.
  assert (Hlm' : Z.of_nat (length (take (Z.to_nat m) bs)) = m) by (rewrite length_take; lia).
  apply (write_block s1 ip x1 off (take (Z.to_nat m) bs) a W1 k1); try done;
    [by eapply geometry_same|exact (gw_ok _ _ _ _ _ _ _ Gr)|exact (gw_meta _ _ _ _ _ _ _ Gr)|lia|lia
    |symmetry; exact (gw_at _ _ _ _ _ _ _ Gr)|by apply Hain|lia|].
  intros s2 Ha2 Hw2. destruct (wrote_itable _ _ _ _ _ _ _ Hx1 Hw2) as [Hx2 Esb2]. pose proof Ha2 as (Hr2 & Hl2 & Hres2).
  assert (Hw : wrote ip s x s2 x1 off (take (Z.to_nat m) bs)).
  { apply (wrote_trans ip s x s1 x1 s2 x1 off []); [lia|lia|simpl; lia|done|]. simpl. by rewrite Z.add_0_r. }
  assert (Hnext : tot + m < n -> (off + m) mod BSIZE = 0).
  { intros Hlt'. replace (off + m) with ((off / BSIZE + 1) * BSIZE) by lia. by apply Z.mod_mul. }
  apply (IH s2 x1 (off + m) (tot + m) (drop (Z.to_nat m) bs) W1 k1); try done; try lia.
  - eapply geometry_same; [by eapply geometry_same|done|congruence].
  - apply Hw.
  - apply Hw.
  - destruct Hd1 as [Hb1 Hi1]. split; [eapply (bmap_in_sb s1); [done|reflexivity|done]|done].
  - rewrite length_drop. lia.
  - intros r s3 (x3 & W3 & k3 & Hr3 & Er & Ha3 & Hk3 & HW3 & Hw3 & Hfull). apply HQ. exists x3, W3, k3.
    split_and!; try done; try lia.
    + eapply (after_trans base); [exact Ha1|]. by eapply (after_trans base).
    + by etrans.
    + replace (take (Z.to_nat (r.1 - tot)) bs)
        with (take (Z.to_nat m) bs ++ take (Z.to_nat (r.1 - (tot + m))) (drop (Z.to_nat m) bs)).
      * eapply wrote_trans; [lia|lia|lia|exact Hw|]. by rewrite Hlm'.
      * rewrite take_take_drop. f_equal. lia.
Qed.

(** ** The whole of [writei] *)

(** [x] with the block numbers [l] and at least the size [n]. *)
Definition grow_inode (l : list Z) (n : Z) (x : inode) : inode :=
  Inode (ip_dev x) (ip_inum x) (ip_ref x) (ip_lock x) (ip_valid x)
    (with_size (Z.max (di_size (ip_di x)) n) (with_addrs l (ip_di x))).

(** [tot] bytes of [bs] were written at [off] to the file of inode [ip]. *)
Record writei_post (ip : Z) (s : fs C U) (x : inode) (off : Z) (bs : list Z) (tot : Z) (s' : fs C U) (x' : inode) : Prop := {
  wi_len : 0 <= tot <= Z.of_nat (length bs);
  wi_short : tot < Z.of_nat (length bs) -> full s';
  wi_rest : rest s' = (fs_sb s, zset (fs_itable s) ip x', fs_pid s, fs_user s);
  wi_inode : exists l, x' = grow_inode l (off + tot) x;
  wi_byte i : 0 <= i < MAXFILE * BSIZE ->
    fbyte s' x' i = if decide (off <= i < off + tot) then byte_at bs (i - off) else fbyte s x i;
  wi_whole : file_whole s x -> file_whole s' x';
  wi_disk : disk_inode s' (ip_inum x) = ip_di x';
  wi_others i : 0 <= i < sb_ninodes (fs_sb s) -> i <> ip_inum x -> disk_inode s' i = disk_inode s i;
  wi_frame m : in_data s m -> used s m = true -> not_of s x m -> content s' m = content s m;
  wi_used m : 0 <= m < sb_size (fs_sb s) -> used s m = true -> used s' m = true;
  wi_ok : file_ok s' x' /\ meta_used s';
  wi_geo : geometry s'
}.

(** The file after its inode has been copied to the disk: only the block of the inode
    changes, and no file has that block. *)
Lemma file_iupdate s s' x m0 d :
  geometry s -> file_ok s x -> meta_used s -> 0 <= m0 < nmeta (fs_sb s) ->
  (forall b, 0 <= b < sb_size (fs_sb s) -> m0 <> bmap_block s b) -> rest s' = rest s ->
  (forall m, content s' m = if decide (m = m0) then d else content s m) ->
  (forall bn, file_addr s' x bn = file_addr s x bn) /\
  (forall b, 0 <= b < sb_size (fs_sb s) -> used s' b = used s b) /\
  file_ok s' x /\ meta_used s' /\ forall i, 0 <= i < MAXFILE * BSIZE -> fbyte s' x i = fbyte s x i.
Proof using Type.
  clear Hbase. intros Hg Hok Hm Hm0 Hnb Er Hc. pose proof (rest_sb _ _ Er) as (Esb & _). pose proof (ly_meta _ _ _ Hg) as Hlm.
  assert (Hfa : forall bn, file_addr s' x bn = file_addr s x bn).
  { intros bn. unfold file_addr. case_bool; [done|]. destruct (Z.eqb_spec (addr_at x NDIRECT) 0) as [|Hne]; [done|].
    destruct (fo_ind _ _ Hok Hne) as [Hd _]. unfold in_data in Hd. by rewrite Hc, decide_False by lia. }
  assert (Hu : forall b, 0 <= b < sb_size (fs_sb s) -> used s' b = used s b).
  { intros b Hb. apply used_ext; [done|]. rewrite Hc, decide_False; [done|]. intros E. by apply (Hnb b Hb). }
  split_and!; [done|done| | |].
  - apply (file_ok_same s); try done. lia.
  - intros b. rewrite Esb. intros Hb. rewrite Hu by lia. by apply Hm.
  - intros i Hi. unfold fbyte, file_byte. rewrite Hfa. destruct (Z.eqb_spec (file_addr s x (i / BSIZE)) 0) as [|Hne]; [done|].
    destruct (fo_data _ _ Hok (i / BSIZE)) as (Hd & _).
    + split; [apply Z.div_pos; unfold BSIZE; lia|apply Z.div_lt_upper_bound; unfold BSIZE in *; lia].
    + done.
    + unfold in_data in Hd. by rewrite Hc, decide_False by lia.
Qed.

Lemma file_ok_addrs s x : geometry s -> file_ok s x -> forall a, a ∈ di_addrs (ip_di x) -> 0 <= a < 2 ^ 31.
Proof using Type.
  clear Hbase. intros Hg Hok a Ha. pose proof (ly_meta _ _ _ Hg). pose proof (ly_size _ _ _ Hg). pose proof (fo_len _ _ Hok) as Hl.
  apply list_elem_of_lookup in Ha as [i Hi]. pose proof (lookup_lt_Some _ _ _ Hi) as Hlt. rewrite Hl in Hlt.
  assert (Ea : addr_at x (Z.of_nat i) = a).
  { unfold addr_at, zget. rewrite (proj2 (Z.leb_le _ _)) by lia. by rewrite Nat2Z.id, Hi. }
  destruct (decide (a = 0)) as [->|Hne]; [lia|]. assert (HND : NDIRECT = 12) by done.
  destruct (decide (i = 12%nat)) as [->|Hi'].
  - change (Z.of_nat 12) with NDIRECT in Ea. destruct (fo_ind _ _ Hok) as [Hd _]; [by rewrite Ea|].
    unfold in_data in Hd. rewrite Ea in Hd. lia.
  - assert (Ef : file_addr s x (Z.of_nat i) = a) by (unfold file_addr; by rewrite (proj2 (Z.ltb_lt (Z.of_nat i) NDIRECT)) by lia).
    destruct (fo_data _ _ Hok (Z.of_nat i)) as (Hd & _); [change MAXFILE with 268; lia|by rewrite Ef|].
    rewrite Ef in Hd. unfold in_data in Hd. lia.
Qed.

Lemma set_size_run s ip x l n :
  zget (fs_itable s) ip = Some (upd_addrs l x) ->
  (if di_size (ip_di x) <? n then di_upd ip (with_size n) else ret tt) s =
  Done tt (with_itable (zset (fs_itable s) ip (grow_inode l n x)) s) [].
Proof using Type.
  clear Hbase. intros Hx. unfold grow_inode. destruct (Z.ltb_spec (di_size (ip_di x)) n) as [Hlt|Hge].
  - unfold di_upd. rewrite (ip_upd_run s ip (upd_addrs l x)) by done. by rewrite Z.max_r by lia.
  - rewrite Z.max_l by lia. rewrite zset_id; [by destruct s|]. rewrite Hx. unfold upd_addrs. by destruct x as [? ? ? ? ? []].
Qed.

(** The dinode that [iupdate] writes has the new size and the new block numbers. *)
Lemma grow_inode_ok s ip x off bs s1 l n :
  geometry s1 -> dinode_ok (ip_di x) -> wrote ip s x s1 (upd_addrs l x) off bs -> n <= MAXFILE * BSIZE ->
  dinode_ok (ip_di (grow_inode l n x)).
Proof using Type.
  clear Hbase. intros Hg [H1 H2 H3 H4 H5 H6 H7] Hw Hn. pose proof (wr_ok _ _ _ _ _ _ _ Hw) as Hok. split; try done.
  - simpl. change (MAXFILE * BSIZE) with 274432 in Hn. lia.
  - apply (fo_len _ _ Hok).
  - intros a Ha. pose proof (file_ok_addrs s1 _ Hg Hok a Ha). lia.
Qed.

(** The size grows over blocks that were written. *)
Lemma wrote_whole ip s x s1 l off bs :
  0 <= off <= di_size (ip_di x) -> off + Z.of_nat (length bs) <= MAXFILE * BSIZE ->
  wrote ip s x s1 (upd_addrs l x) off bs -> file_whole s x ->
  file_whole s1 (grow_inode l (off + Z.of_nat (length bs)) x).
Proof using Type.
  clear Hbase. intros Hoff Hend Hw [Hsz Hall]. split; [simpl; lia|]. intros bn Hbn Hlt. simpl in Hlt.
  change (file_addr s1 (upd_addrs l x) bn <> 0). assert (HB : BSIZE = 1024) by done.
  destruct (Z.lt_ge_cases (bn * BSIZE) (di_size (ip_di x))) as [Hl|Hl].
  - rewrite (wr_addr _ _ _ _ _ _ _ Hw); [by apply Hall|lia|by apply Hall].
  - pose proof (wr_there _ _ _ _ _ _ _ Hw (bn * BSIZE)) as Ht. rewrite Z.div_mul in Ht by lia. apply Ht. lia.
Qed.

Lemma inode_slot i j : 0 <= i -> 0 <= j -> i <> j -> i / IPB = j / IPB -> i mod IPB <> j mod IPB.
Proof using Type.
  clear Hbase. intros Hi Hj Hne E1 E2. apply Hne. rewrite (Z.div_mod i IPB), (Z.div_mod j IPB) by done. by rewrite E1, E2.
Qed.

Lemma writei_post_intro s ip x off bs tot s1 l s3 :
  geometry s -> dinode_ok (ip_di x) -> 0 <= ip_inum x < sb_ninodes (fs_sb s) ->
  0 <= off <= di_size (ip_di x) -> off + tot <= MAXFILE * BSIZE -> 0 <= tot <= Z.of_nat (length bs) ->
  bc_inv (cache_of s1) -> geometry s1 -> geometry s3 ->
  wrote ip s x s1 (upd_addrs l x) off (take (Z.to_nat tot) bs) -> (tot < Z.of_nat (length bs) -> full s1) ->
  let x2 := grow_inode l (off + tot) x in
  rest s3 = (fs_sb s, zset (fs_itable s) ip x2, fs_pid s, fs_user s) ->
  (forall m, content s3 m = if decide (m = inode_block s (ip_inum x))
     then set_dinode (content s1 (inode_block s (ip_inum x))) (ip_inum x mod IPB * DINODE) (ip_di x2) else content s1 m) ->
  writei_post ip s x off bs tot s3 x2.
Proof using HL.
  clear Hbase. intros Hg Hdk Hinum Hoff Hend Htot I1 Hg1 Hg3 Hw Hfull x2 R3 C3.
  pose proof (wr_rest _ _ _ _ _ _ _ Hw) as Rw. unfold rest in Rw. injection Rw as Esb1 Eit1 Ep1 Eu1.
  assert (Htk : Z.of_nat (length (take (Z.to_nat tot) bs)) = tot) by (rewrite length_take; lia).
  set (s2 := with_itable (zset (fs_itable s) ip x2) s1).
  assert (R32 : rest s3 = rest s2) by (rewrite R3; unfold rest, s2; simpl; by rewrite Esb1, Ep1, Eu1).
  destruct (IBLOCK_eq s _ Hg Hinum) as (_ & Hib & _ & _ & Hnb).
  assert (Hok2 : file_ok s2 x2) by (destruct (wr_ok _ _ _ _ _ _ _ Hw); split; done).
  set (d := set_dinode _ _ _) in C3.
  destruct (file_iupdate s2 s3 x2 (inode_block s (ip_inum x)) d Hg1 Hok2 (wr_meta _ _ _ _ _ _ _ Hw)) as (Hfa & Hu & Hok3 & Hm3 & Hfb);
    [simpl; by rewrite Esb1|intros b; simpl; rewrite Esb1, (bmap_block_sb s) by done; apply Hnb|done|exact C3|].
  assert (Esb3 : fs_sb s3 = fs_sb s) by (unfold rest in R3; congruence).
  split; [done| |done|by exists l| | | | | | |done|done].
  - intros Hsh b. rewrite Esb3. intros Hb. rewrite Hu by (simpl; by rewrite Esb1). apply (Hfull Hsh). by rewrite Esb1.
  - intros i Hi. rewrite Hfb by done. change (fbyte s2 x2 i) with (fbyte s1 (upd_addrs l x) i).
    rewrite (wr_byte _ _ _ _ _ _ _ Hw) by done. rewrite Htk. case_decide; [|done].
    unfold byte_at, zget. rewrite (proj2 (Z.leb_le 0 _)) by lia. by rewrite lookup_take_lt by lia.
  - intros Hwh. pose proof (wrote_whole _ _ _ _ _ _ _ (conj (proj1 Hoff) (proj2 Hoff)) ltac:(rewrite Htk; done) Hw Hwh) as [H1 H2].
    rewrite Htk in H1, H2. split; [done|]. intros bn. rewrite Hfa. apply H2.
  - unfold disk_inode, inode_block. rewrite Esb3. fold (inode_block s (ip_inum x)). rewrite C3, decide_True by done.
    pose proof (Z.mod_pos_bound (ip_inum x) IPB ltac:(done)). apply get_set_dinode.
    + apply content_ok, I1.
    + by eapply (grow_inode_ok s ip x _ _ s1).
    + unfold DINODE. lia.
    + change IPB with 16 in *. unfold DINODE, BSIZE. lia.
  - intros i Hi Hne. destruct (IBLOCK_eq s i Hg Hi) as (_ & Hibi & _ & _ & Hnbi).
    pose proof (wr_inodes _ _ _ _ _ _ _ Hw _ Hibi Hnbi) as Hci.
    unfold disk_inode. rewrite (eq_refl : inode_block s3 i = i / IPB + sb_inodestart (fs_sb s3)), Esb3.
    fold (inode_block s i). rewrite C3. case_decide as D; [|by rewrite Hci].
    unfold d. rewrite get_dinode_other; [by rewrite <- D, Hci|apply (fo_len _ _ Hok2)|].
    apply inode_slot; [lia|lia|done|]. unfold inode_block in D. lia.
  - intros m H1 H2 H3. rewrite C3, decide_False by (unfold in_data in H1; lia). by apply (wr_frame _ _ _ _ _ _ _ Hw).
  - intros m H1 H2. rewrite Hu by (simpl; by rewrite Esb1). by apply (wr_more _ _ _ _ _ _ _ Hw).
Qed.

Lemma writei_finish s ip x off bs tot s1 x1 W k (Q : Z -> fs C U -> Prop) :
  zget (fs_itable s) ip = Some x -> geometry s -> dinode_ok (ip_di x) -> 0 <= ip_inum x < sb_ninodes (fs_sb s) ->
  0 <= off <= di_size (ip_di x) -> off + tot <= MAXFILE * BSIZE -> 0 <= tot <= Z.of_nat (length bs) ->
  after [] W k s s1 -> 0 <= k -> inode_block s (ip_inum x) ∈ W ->
  wrote ip s x s1 x1 off (take (Z.to_nat tot) bs) -> (tot < Z.of_nat (length bs) -> full s1) ->
  (forall s' x', ready [] s' -> 0 < nfree s' -> writei_post ip s x off bs tot s' x' -> Q tot s') ->
  wpn ((if di_size (ip_di x) <? off + tot then di_upd ip (with_size (off + tot)) else ret tt) ;;; iupdate ip ;;; ret tot) s1 Q.
Proof.
  intros Hx Hg Hdk Hinum Hoff Hend Htot Ha1 Hk HW Hw Hfull HQ.
  destruct (wrote_itable _ _ _ _ _ _ _ Hx Hw) as [Hx1 Esb1]. destruct (wr_x _ _ _ _ _ _ _ Hw) as [l ->].
  apply wpn_bind. eapply wpn_run; [by apply set_size_run|]. set (x2 := grow_inode l (off + tot) x).
  set (s2 := with_itable (zset (fs_itable s1) ip x2) s1).
  assert (Hx2 : zget (fs_itable s2) ip = Some x2) by (apply zget_zset_eq; by apply zget_Some in Hx1).
  assert (Ha2 : after [] W k s s2) by (by apply (after_itable base)). pose proof Ha2 as (Hr2 & Hl2 & Hres2).
  assert (Eib : inode_block s2 (ip_inum x2) = inode_block s (ip_inum x))
    by (unfold inode_block; change (fs_sb s2) with (fs_sb s1); by rewrite Esb1).
  apply wpn_bind, (iupdate_run base Hbase s2 ip x2 W k); try done;
    [by eapply geometry_same|change (fs_sb s2) with (fs_sb s1); by rewrite Esb1|by rewrite Eib|].
  intros s3 (Hr3 & Hl3 & Hres3) R3 C3. apply wpn_ret, (HQ s3 x2); [done|eapply (res_free base); [done|done|done|simpl; lia]|].
  apply (writei_post_intro s ip x off bs tot s1 l s3); try done.
  - apply Ha1.
  - by eapply geometry_same.
  - eapply geometry_same; [eapply (geometry_same s s2); done|done|]. by apply rest_sb in R3 as [-> _].
  - rewrite R3. pose proof (wr_rest _ _ _ _ _ _ _ Hw) as Rw. unfold rest in *. injection Rw as E1 E2 E3 E4.
    simpl. by rewrite E1, E2, E3, E4, zset_zset.
  - intros m. rewrite C3, Eib. case_decide as D; [by rewrite D|done].
Qed.

(** Room for one operation, as [begin_op] reserves it: [MAXOPBLOCKS] more blocks in the log, and
    buffers for them. *)
Record op_room (s : fs C U) : Prop := {
  or_open : 0 < lg_outstanding (lg s);
  or_log : lh_n (lg_lh (lg s)) + MAXOPBLOCKS <= LOGSIZE;
  or_size : lh_n (lg_lh (lg s)) + MAXOPBLOCKS <= lg_size (lg s);
  or_bufs : lh_n (lg_lh (lg s)) + MAXOPBLOCKS <= bufs base [] s
}.

(** The blocks of the transaction when a file of a one-block bitmap is written. *)
Definition write_set (s : fs C U) (x : inode) : list Z :=
  logged (lg s) ++ bmap_block s 0 :: inode_block s (ip_inum x) ::
    (if decide (addr_at x NDIRECT = 0) then [] else [addr_at x NDIRECT]).

Lemma write_set_ok s x : ready [] s -> op_room s -> sb_size (fs_sb s) <= BPB ->
  res [] s (write_set s x) (4 + ind_cost x) /\ bmap_dom s x (write_set s x) /\
  inode_block s (ip_inum x) ∈ write_set s x.
Proof using Type.
  clear Hbase. intros Hr [H1 H2 H3 H4] Hsz. pose proof (length_logged _ (rd_log _ _ _ Hr)) as Hl.
  change MAXOPBLOCKS with 10 in *. change LOGSIZE with 30 in *.
  assert (Hlen : Z.of_nat (length (write_set s x)) + (4 + ind_cost x) = lh_n (lg_lh (lg s)) + 7).
  { unfold write_set, ind_cost. rewrite length_app. destruct (decide (addr_at x NDIRECT = 0)); simpl; lia. }
  split_and!.
  - split; [done| |change LOGSIZE with 30; lia|lia|lia]. intros n Hn. apply elem_of_app. by left.
  - split.
    + intros b Hb. apply elem_of_app. right. assert (bmap_block s b = bmap_block s 0) as ->; [|left].
      unfold bmap_block. by rewrite !Z.div_small by lia.
    + intros Hne. apply elem_of_app. right. right. right. rewrite decide_False by done. left.
  - apply elem_of_app. right. right. left.
Qed.

Lemma writei_run s ip x off bs (Q : Z -> fs C U -> Prop) :
  ready [] s -> zget (fs_itable s) ip = Some x -> geometry s -> file_ok s x -> meta_used s ->
  dinode_ok (ip_di x) -> 0 <= ip_inum x < sb_ninodes (fs_sb s) -> sb_size (fs_sb s) <= BPB -> op_room s ->
  let n := Z.of_nat (length bs) in
  n <= 3 * BSIZE -> 0 <= off <= di_size (ip_di x) -> off + n <= MAXFILE * BSIZE ->
  (forall tot s' x', ready [] s' -> 0 < nfree s' -> writei_post ip s x off bs tot s' x' -> Q tot s') ->
  wpn (writei ucopyin ip (SKernel bs) off n) s Q.
Proof.
  intros Hr Hx Hg Hok Hm Hdk Hinum Hsb Hroom n Hn Hoff Hend HQ. unfold writei. assert (HB : BSIZE = 1024) by done.
  apply wpn_bind, (wpn_ip_get _ _ x); [done|]. change (MAXFILE * BSIZE) with 274432 in Hend.
  rewrite wrap_small by lia. rewrite (proj2 (Z.ltb_ge _ off)), (proj2 (Z.ltb_ge (off + n) off)) by lia. cbn [orb].
  change (MAXFILE * BSIZE) with 274432. rewrite (proj2 (Z.ltb_ge _ _)) by lia.
  destruct (write_set_ok s x Hr Hroom Hsb) as (Hres & Hdom & Hin).
  assert (Hc : 0 <= ind_cost x) by (unfold ind_cost; case_decide; lia).
  pose proof (Z.mod_pos_bound off BSIZE ltac:(done)). pose proof (Z.div_mod n BSIZE ltac:(done)).
  pose proof (Z.mod_pos_bound n BSIZE ltac:(done)). assert (0 <= n / BSIZE) by (apply Z.div_pos; lia).
  apply wpn_bind, (writei_loop_run _ ip s x off 0 n bs (write_set s x) (4 + ind_cost x)); try done;
    [lia|lia|lia|change (MAXFILE * BSIZE) with 274432; lia|lia|lia|lia|lia|].
  intros [tot off'] s1 (x1 & W1 & k1 & Htot & E2 & Ha1 & Hk1 & HW1 & Hw & Hfull). simpl in *.
  rewrite Z.sub_0_r in *. rewrite E2.
  apply (writei_finish s ip x off bs tot s1 x1 W1 k1); try done.
  - change (MAXFILE * BSIZE) with 274432. lia.
  - by apply HW1.
  - intros s' x'. apply HQ.
Qed.


(** The bytes just written, as [readi] sees them. *)
Lemma file_bytes_written ip s x off bs tot s' x' :
  0 <= off -> off + tot <= MAXFILE * BSIZE -> writei_post ip s x off bs tot s' x' -> file_whole s' x' ->
  file_bytes s' x' off tot = take (Z.to_nat tot) bs.
Proof using Type.
  clear Hbase. intros Hoff Hend Hp [Hsz Hall]. pose proof (wi_len _ _ _ _ _ _ _ _ Hp) as Hl. assert (HB : BSIZE = 1024) by done.
  assert (Hx : off + tot <= di_size (ip_di x')) by (destruct (wi_inode _ _ _ _ _ _ _ _ Hp) as [l ->]; simpl; lia).
  unfold file_bytes. apply list_eq_same_length with (Z.to_nat tot).
  - rewrite length_take. lia.
  - by rewrite length_fmap, length_seqZ.
  - intros i a b Hi Ea Eb. rewrite list_lookup_fmap, lookup_seqZ_lt in Ea by lia. injection Ea as <-.
    rewrite lookup_take_lt in Eb by lia. pose proof (wi_byte _ _ _ _ _ _ _ _ Hp (off + Z.of_nat i) ltac:(lia)) as Hb.
    rewrite decide_True in Hb by lia. unfold fbyte in Hb.
    assert (file_addr s' x' ((off + Z.of_nat i) / BSIZE) <> 0) as Hne.
    { pose proof (Z.div_mod (off + Z.of_nat i) BSIZE ltac:(done)). pose proof (Z.mod_pos_bound (off + Z.of_nat i) BSIZE ltac:(done)).
      apply Hall; [apply Z.div_pos; lia|lia]. }
    rewrite (proj2 (Z.eqb_neq _ _) Hne) in Hb. rewrite Hb. replace (off + Z.of_nat i - off) with (Z.of_nat i) by lia.
    unfold byte_at, zget. rewrite (proj2 (Z.leb_le 0 _)), Nat2Z.id by lia. by rewrite Eb.
Qed.

(** what [writei] writes, [readi] reads back: on a file without holes, reading as many
    bytes as were written at the same offset gives exactly these bytes. *)
Theorem writei_readi_roundtrip ucopyout s ip x off bs :
  ready [] s -> zget (fs_itable s) ip = Some x -> geometry s -> file_ok s x -> meta_used s -> file_whole s x ->
  dinode_ok (ip_di x) -> 0 <= ip_inum x < sb_ninodes (fs_sb s) -> sb_size (fs_sb s) <= BPB -> op_room s ->
  let n := Z.of_nat (length bs) in
  n <= 3 * BSIZE -> 0 <= off <= di_size (ip_di x) -> off + n <= MAXFILE * BSIZE ->
  exists tot s1 s2 t1 t2, writei ucopyin ip (SKernel bs) off n s = Done tot s1 t1 /\
    (tot < n -> full s1) /\
    readi ucopyout ip DKernel off tot s1 = Done (tot, take (Z.to_nat tot) bs) s2 t2.
Proof.
  intros Hr Hx Hg Hok Hm Hwh Hdk Hinum Hsb Hroom n Hn Hoff Hend.
  destruct (wpn_done (writei ucopyin ip (SKernel bs) off n) s (fun tot s1 => tot <= n /\ (tot < n -> full s1) /\
    exists s2 t2, readi ucopyout ip DKernel off tot s1 = Done (tot, take (Z.to_nat tot) bs) s2 t2))
    as (tot & s1 & t1 & E & _ & Hfl & s2 & t2 & E2); [|by eauto 10].
  apply (writei_run s ip x off bs); try done. intros tot s1 x1 Hr1 Hf1 Hp.
  pose proof (wi_len _ _ _ _ _ _ _ _ Hp) as Hl. split_and!; [lia|apply (wi_short _ _ _ _ _ _ _ _ Hp)|].
  pose proof (wi_whole _ _ _ _ _ _ _ _ Hp Hwh) as Hwh1. change (MAXFILE * BSIZE) with 274432 in Hend.
  assert (Hx1 : zget (fs_itable s1) ip = Some x1).
  { pose proof (wi_rest _ _ _ _ _ _ _ _ Hp) as R. unfold rest in R. injection R as _ -> _ _.
    apply zget_zset_eq. by apply zget_Some in Hx. }
  assert (Hlen : readi_len (di_size (ip_di x1)) off tot = tot).
  { destruct (wi_inode _ _ _ _ _ _ _ _ Hp) as [l ->]. unfold readi_len. simpl.
    rewrite (proj2 (Z.ltb_ge _ _)), (proj2 (Z.leb_gt _ _)) by lia. simpl. lia. }
  destruct (wpn_done (readi ucopyout ip DKernel off tot) s1 (fun r _ => r = (tot, take (Z.to_nat tot) bs)))
    as (r & s2 & t2 & E & ->); [|by eauto].
  apply (readi_run base Hbase ucopyout s1 ip x1); try done; [lia|lia|]. rewrite Hlen. intros s' _ _ _. f_equal.
  eapply file_bytes_written; try done; [lia|change (MAXFILE * BSIZE) with 274432; lia].
Qed.
End writei.

(** ** A disk with one empty file *)

#[local] Instance demo_cache : BlockCache bcache := bio_cache 1.
#[local] Instance demo_laws : BlockCacheLaws bcache := bio_laws 1.

(** 1000 blocks: the log in 2..32, 13 inode blocks from 33, the bitmap in 46; the first 100
    blocks are in use. *)
Definition demo_wsb : superblock := Superblock FSMAGIC 1000 900 200 30 2 33 46.
Definition demo_bmap : block := put_bytes zero_block 0 (replicate 12 255 ++ [15]).
Definition demo_wdisk (n : Z) : block := if n =? 46 then demo_bmap else zero_block.
Definition demo_file : inode := Inode 1 1 1 (Sleeplock 0 0) 1 (Dinode T_FILE 0 0 1 0 (replicate 13 0)).
Definition demo_wfs : fs bcache unit := Fs (Logstate empty_log (c_boot demo_wdisk)) demo_wsb [demo_file] 1 tt.

Lemma demo_wfs_ready : ready (fun _ => 0) [] demo_wfs /\ nfree demo_wfs = c_nbuf /\ forall n, content demo_wfs n = demo_wdisk n.
Proof.
  apply (ready_boot demo_wdisk empty_log demo_wsb [demo_file] 1 tt); [|apply empty_log_ok|done].
  intros n. unfold demo_wdisk. destruct (n =? 46); [by vm_compute|apply block_ok_zero].
Qed.

Lemma demo_geometry : geometry demo_wfs.
Proof.
  assert (HB : BPB = 8192) by done. assert (HI : IPB = 16) by done.
  split; change (lg_start (lg demo_wfs)) with 2; change (lg_size (lg demo_wfs)) with 31; simpl.
  - lia.
  - unfold nmeta. simpl. lia.
  - unfold nmeta. simpl. lia.
  - intros b Hb. rewrite Z.div_small by lia. unfold nmeta. simpl. lia.
  - intros i Hi. assert (0 <= i / IPB < 13) by (split; [apply Z.div_pos; lia|apply Z.div_lt_upper_bound; lia]).
    unfold nmeta. simpl. split_and!; [lia|lia|lia|]. intros b Hb. rewrite (Z.div_small b) by lia. lia.
Qed.

Lemma demo_file_addr bn : file_addr demo_wfs demo_file bn = 0.
Proof.
  assert (Ha : forall i, addr_at demo_file i = 0).
  { intros i. unfold addr_at, zget. destruct (0 <=? i); [|done].
    destruct (di_addrs (ip_di demo_file) !! Z.to_nat i) as [a|] eqn:E; [|done].
    apply (lookup_replicate 13 0) in E as [-> _]. done. }
  unfold file_addr. rewrite !Ha. by destruct (bn <? NDIRECT).
Qed.

Lemma demo_file_ok : file_ok demo_wfs demo_file /\ file_whole demo_wfs demo_file /\ dinode_ok (ip_di demo_file).
Proof.
  split_and!.
  - split; [done|done| |]; intros bn; rewrite ?demo_file_addr; done.
  - split; [change (0 <= 0 <= 274432); lia|]. intros bn H0 H1. change (bn * 1024 < 0) in H1. lia.
  - split; try (simpl; lia); [done|]. intros a Ha. apply elem_of_replicate in Ha as [-> _]. lia.
Qed.

Lemma demo_meta_used : meta_used demo_wfs.
Proof.
  destruct demo_wfs_ready as (_ & _ & Hc). intros b Hb. change (0 <= b < 100) in Hb.
  unfold used, bmap_block. rewrite Hc. assert (HB : BPB = 8192) by done. rewrite Z.div_small, Z.mod_small by lia.
  change (demo_wdisk (0 + sb_bmapstart (fs_sb demo_wfs))) with demo_bmap.
  assert (Hall : forallb (bit_of demo_bmap) (seqZ 0 100) = true) by (vm_compute; reflexivity).
  rewrite forallb_forall in Hall. apply Hall, list_elem_of_In, elem_of_seqZ. lia.
Qed.

Lemma demo_op_room : op_room (fun _ => 0) demo_wfs.
Proof.
  destruct demo_wfs_ready as (_ & Hn & _). change MAXOPBLOCKS with 10.
  split; change MAXOPBLOCKS with 10; change (lh_n (lg_lh (lg demo_wfs))) with 0.
  - change (0 < 1). lia.
  - change (10 <= 30). lia.
  - change (10 <= 31). lia.
  - unfold bufs. rewrite Hn. change c_nbuf with 30. lia.
Qed.

Definition no_ucopyin (u : unit) (va n : Z) : Z * list Z := (-1, []).

Lemma demo_bounds : 0 <= ip_inum demo_file < sb_ninodes (fs_sb demo_wfs) /\ sb_size (fs_sb demo_wfs) <= BPB.
Proof. change (0 <= 1 < 200 /\ 1000 <= 8192). lia. Qed.


Lemma writei_readi_roundtrip_witness :
  exists tot s1 s2 t1 t2, writei no_ucopyin 0 (SKernel (bytes "hello")) 0 5 demo_wfs = Done tot s1 t1 /\
    readi (fun u _ _ => (-1, u)) 0 DKernel 0 tot s1 = Done (tot, take (Z.to_nat tot) (bytes "hello")) s2 t2.
Proof.
  destruct demo_wfs_ready as (Hr & _ & _). destruct demo_file_ok as (Hok & Hwh & Hdk). destruct demo_bounds as [H1 H2].
  destruct (writei_readi_roundtrip no_ucopyin (fun _ => 0) ltac:(intros; lia) (fun u _ _ => (-1, u)) demo_wfs 0 demo_file 0
    (bytes "hello") Hr eq_refl demo_geometry Hok demo_meta_used Hwh Hdk H1 H2 demo_op_room) as (tot & s1 & s2 & t1 & t2 & E1 & _ & E2).
  - change (5 <= 3072). lia.
  - change (0 <= 0 <= 0). lia.
  - change (5 <= 274432). lia.
  - exists tot, s1, s2, t1, t2. exact (conj E1 E2).
Defined.
