(* ===== verification/FsPath.v ===== *)
(** * kernel/fs.c: path names

    [namex] against the directory tree on the disk: a path is a list of names, a directory maps
    names to inode numbers, and a path resolves by looking up one name after the other.  The
    inode table is seen through [iview], which says for each entry in use which inode it is for
    and how many references there are. *)

From Stdlib Require Import ZArith Lia.
From stdpp Require Import base list sets strings numbers.
From S2P Require Import Prelude Sleeplock Blocks BlockCache Log LogProofs LogOps Bio BioProofs Fs FsBase FsRead FsAlloc FsDir.

(** ** The elements of a path *)

(** The parts between slashes. *)
Fixpoint parts (p : list Z) : list (list Z) :=
  match p with
  | [] => [[]]
  | c :: p' =>
    if c =? 47 then [] :: parts p'
    else match parts p' with [] => [[c]] | q :: qs => (c :: q) :: qs end
  end.

(** The names: empty parts do not count, and long ones are cut. *)
Definition elements (p : list Z) : list (list Z) := take (Z.to_nat DIRSIZ) <$> filter (fun q => q <> []) (parts p).

Lemma parts_cons p : exists q qs, parts p = q :: qs.
Proof. destruct p as [|c p]; cbn [parts]; [eauto|]. destruct (c =? 47); [eauto|]. destruct (parts p); eauto. Qed.

Lemma elements_drop p : elements (drop_slashes p) = elements p.
Proof.
  induction p as [|c p IH]; [done|]. cbn [drop_slashes]. destruct (c =? 47) eqn:E; [|done].
  rewrite IH. unfold elements. cbn [parts]. rewrite E, filter_cons, decide_False by (by intros H; apply H). done.
Qed.

Lemma parts_span p : let '(e, r) := span_elem p in
  exists qs, parts p = e :: qs /\ match r with [] => qs = [] | c :: r' => c = 47 /\ qs = parts r' end.
Proof.
  induction p as [|c p IH]; cbn [span_elem parts]; [by exists []|]. destruct (Z.eqb_spec c 47) as [->|Hc]; [by exists (parts p)|].
  destruct (span_elem p) as [e r]. destruct IH as (qs & -> & Hr). by exists qs.
Qed.

Lemma drop_slashes_head p c p' : drop_slashes p = c :: p' -> c <> 47.
Proof. induction p as [|d p IH]; [done|]. cbn [drop_slashes]. destruct (Z.eqb_spec d 47); [done|congruence]. Qed.

Lemma drop_slashes_nil p : drop_slashes p = [] <-> elements p = [].
Proof.
  rewrite <- (elements_drop p). destruct (drop_slashes p) as [|c p'] eqn:E; [done|]. apply drop_slashes_head in E.
  split; [done|]. unfold elements. cbn [parts]. rewrite (proj2 (Z.eqb_neq _ _) E). destruct (parts_cons p') as (q & qs & ->).
  by rewrite filter_cons, decide_True.
Qed.

Lemma length_drop_slashes p : (length (drop_slashes p) <= length p)%nat.
Proof. induction p as [|d p IH]; [done|]. cbn [drop_slashes length]. destruct (d =? 47); cbn [length]; lia. Qed.

Lemma length_span p : length p = (length (span_elem p).1 + length (span_elem p).2)%nat.
Proof. induction p as [|d p IH]; [done|]. cbn [span_elem length]. destruct (d =? 47); [done|]. destruct (span_elem p). cbn [fst snd length] in *. lia. Qed.

(** [skipelem] takes the first element off the path. *)
Lemma skipelem_elements p :
  match skipelem p with
  | None => elements p = []
  | Some (p', e) => elements p = e :: elements p' /\ (p' = [] <-> elements p' = []) /\ (length p' < length p)%nat
  end.
Proof.
  unfold skipelem. destruct (drop_slashes p) as [|c q] eqn:E; [by apply drop_slashes_nil|].
  pose proof (drop_slashes_head _ _ _ E) as Hc. pose proof (parts_span (c :: q)) as Hs.
  rewrite <- (elements_drop p), E. destruct (span_elem (c :: q)) as [e r] eqn:Es.
  assert (He : e <> []) by (cbn [span_elem] in Es; rewrite (proj2 (Z.eqb_neq _ _) Hc) in Es; destruct (span_elem q); by injection Es as <- _).
  split_and!.
  - rewrite elements_drop. destruct Hs as (qs & Ep & Hr). unfold elements at 1. rewrite Ep, filter_cons, decide_True by done. cbn [fmap list_fmap]. f_equal.
    destruct r as [|d r]; [by subst qs|]. destruct Hr as [-> ->]. unfold elements. cbn [parts].
    by rewrite Z.eqb_refl, filter_cons, decide_False by (by intros H; apply H).
  - rewrite elements_drop. apply drop_slashes_nil.
  - pose proof (length_span (c :: q)) as Hl. rewrite Es in Hl. pose proof (length_drop_slashes r). pose proof (length_drop_slashes p) as Hp.
    rewrite E in Hp. destruct e; [done|]. cbn [fst snd length] in *. lia.
Qed.

(** ** The directory tree *)

Lemma first_of (P : Z -> Prop) `{!forall i, Decision (P i)} n i :
  0 <= i < n -> P i -> (forall j, 0 <= j < i -> ~ P j) -> head (filter P (seqZ 0 n)) = Some i.
Proof.
  intros Hi HP Hno. replace n with (i + (1 + (n - i - 1))) by lia. rewrite (seqZ_app 0 i), (seqZ_app (0 + i) 1), !list.filter_app by lia.
  assert (E : filter P (seqZ 0 i) = []).
  { destruct (filter P (seqZ 0 i)) as [|j l] eqn:E; [done|exfalso].
    assert (Hj : j ∈ filter P (seqZ 0 i)) by (rewrite E; left). apply list_elem_of_filter in Hj as [Hj Hin].
    apply elem_of_seqZ in Hin. by apply (Hno j); [lia|]. }
  rewrite E. change (seqZ (0 + i) 1) with [0 + i]. rewrite Z.add_0_l, filter_cons, decide_True by done. done.
Qed.

Lemma none_of (P : Z -> Prop) `{!forall i, Decision (P i)} n : (forall j, 0 <= j < n -> ~ P j) -> head (filter P (seqZ 0 n)) = None.
Proof.
  intros Hno. destruct (filter P (seqZ 0 n)) as [|j l] eqn:E; [done|exfalso].
  assert (Hj : j ∈ filter P (seqZ 0 n)) by (rewrite E; left). apply list_elem_of_filter in Hj as [Hj Hin].
  apply elem_of_seqZ in Hin. by apply (Hno j); [lia|].
Qed.

Section tree.
Context {C U : Type} `{HL : BlockCacheLaws C}.
Implicit Type s : fs C U.

(** Inode [i] as it is on the disk. *)
Definition onode (s : fs C U) (i : Z) : inode := Inode ROOTDEV i 1 (Sleeplock 0 0) 1 (disk_inode s i).

#[global] Instance named_dec s x name k : Decision (named s x name k).
Proof. unfold named. apply _. Defined.

Definition is_dir (s : fs C U) (i : Z) : bool := di_type (disk_inode s i) =? T_DIR.

(** The inode number of the first entry with the name, in the directory of an inode in memory
    and in one on the disk. *)
Definition dir_lookup (s : fs C U) (x : inode) (name : list Z) : option Z :=
  (fun k => de_inum (dirent_at s x k)) <$> head (filter (named s x name) (seqZ 0 (di_size (ip_di x) / DIRENT))).
Definition dir_find (s : fs C U) (i : Z) (name : list Z) : option Z := dir_lookup s (onode s i) name.

(** The inode a list of names leads to from inode [i]. *)
Fixpoint resolve (s : fs C U) (i : Z) (names : list (list Z)) : option Z :=
  match names with
  | [] => Some i
  | name :: names' => if is_dir s i then dir_find s i name ≫= fun j => resolve s j names' else None
  end.

(** The result of [namex]: the inode and the last name; with [nameiparent] the directory
    that is to hold the last name. *)
Fixpoint resolve_path (s : fs C U) (i : Z) (names : list (list Z)) (parent : bool) (name : list Z) : option (Z * list Z) :=
  match names with
  | [] => if parent then None else Some (i, name)
  | name :: names' =>
    if is_dir s i then
      if parent && bool_decide (names' = []) then Some (i, name)
      else dir_find s i name ≫= fun j => resolve_path s j names' parent name
    else None
  end.

Lemma resolve_path_all s i names name :
  resolve_path s i names false name = (fun j => (j, default name (list.last names))) <$> resolve s i names.
Proof.
  revert i name. induction names as [|n names IH]; intros i name; [done|]. cbn [resolve_path resolve andb].
  destruct (is_dir s i); [|done]. destruct (dir_find s i n) as [j|]; [|done]. cbn [mbind option_bind]. rewrite IH.
  destruct (resolve s j names); [|done]. cbn [fmap option_fmap option_map]. do 2 f_equal. rewrite list.last_cons. by destruct (list.last names).
Qed.

Lemma resolve_path_parent s i names last name :
  resolve_path s i (names ++ [last]) true name = resolve s i names ≫= fun j => if is_dir s j then Some (j, last) else None.
Proof.
  revert i name. induction names as [|n names IH]; intros i name; cbn [app resolve_path resolve].
  - rewrite bool_decide_eq_true_2 by done. done.
  - rewrite bool_decide_eq_false_2 by (by destruct names). cbn [andb]. destruct (is_dir s i); [|done].
    destruct (dir_find s i n) as [j|]; [|done]. cbn [mbind option_bind]. apply IH.
Qed.

(** The inode a path is for, and the last name in it: with [parent] the directory that is to
    hold the last name, without looking for the name in it. *)
Definition path_target (s : fs C U) (i : Z) (names : list (list Z)) (parent : bool) : option (Z * list Z) :=
  let name := default [] (list.last names) in
  if parent then
    if decide (names = []) then None
    else resolve s i (removelast names) ≫= fun j => if is_dir s j then Some (j, name) else None
  else (fun j => (j, name)) <$> resolve s i names.

Lemma resolve_path_target s i names parent : resolve_path s i names parent [] = path_target s i names parent.
Proof.
  unfold path_target. destruct parent; [|apply resolve_path_all]. destruct (decide (names = [])) as [->|Hne]; [done|].
  pose proof (app_removelast_last [] Hne) as E. rewrite E at 1. rewrite resolve_path_parent.
  enough (default [] (list.last names) = List.last names []) as -> by done. rewrite E at 1. by rewrite list.last_snoc.
Qed.

(** The inodes [G] form a tree in order: each is linked and in use, and the directories among
    them are whole and lead to inodes of [G] only. *)
Record tree_ok (s : fs C U) (G : Z -> Prop) : Prop := {
  tr_range i : G i -> 0 <= i < sb_ninodes (fs_sb s);
  tr_type i : G i -> di_type (disk_inode s i) <> 0;
  tr_link i : G i -> di_nlink (disk_inode s i) <> 0;
  tr_whole i : G i -> is_dir s i = true -> file_whole s (onode s i) /\ di_size (disk_inode s i) mod DIRENT = 0;
  tr_next i k : G i -> is_dir s i = true -> 0 <= k < di_size (disk_inode s i) / DIRENT ->
    de_inum (dirent_at s (onode s i) k) <> 0 -> G (de_inum (dirent_at s (onode s i) k))
}.

(** Files are seen through the dinode. *)
Lemma file_bytes_di s x y off n : ip_di x = ip_di y -> file_bytes s x off n = file_bytes s y off n.
Proof. intros E. apply list_fmap_ext. intros k b _. unfold file_byte, file_addr, addr_at. by rewrite E. Qed.

Lemma file_whole_di s x y : ip_di x = ip_di y -> file_whole s x -> file_whole s y.
Proof. intros E [H1 H2]. split; [by rewrite <- E|]. intros bn Hb. rewrite <- E. intros Hlt. specialize (H2 bn Hb Hlt). unfold file_addr, addr_at in *. by rewrite <- E. Qed.

Lemma dirent_at_di s x y k : ip_di x = ip_di y -> dirent_at s x k = dirent_at s y k.
Proof. intros E. by apply file_bytes_di. Qed.
End tree.

(** ** The inode table *)

Section table.
Context {C U : Type} `{HL : BlockCacheLaws C}.
Context (ucopyout : U -> Z -> list Z -> Z * U).
Context (base : Z -> Z) (Hbase : forall n, 0 <= base n < 2 ^ 31).
Abbreviation ready := (ready base).
Implicit Type s : fs C U.

Definition islot (x : inode) : option (Z * Z * Z) := if ip_ref x =? 0 then None else Some (ip_dev x, ip_inum x, ip_ref x).
Definition iview (s : fs C U) : list (option (Z * Z * Z)) := islot <$> fs_itable s.

(** Everything but the inode table is as it was. *)
Definition quiet s s' : Prop := ready [] s' /\ nfree s' = nfree s /\ reads (with_itable [] s) (with_itable [] s').

Lemma quiet_trans s1 s2 s3 : quiet s1 s2 -> quiet s2 s3 -> quiet s1 s3.
Proof using Type. intros (_ & F1 & R1) (H2 & F2 & R2). split_and!; [done|congruence|by etrans]. Qed.

Lemma quiet_refl s : ready [] s -> quiet s s.
Proof using Type. intros Hr. by split_and!. Qed.

Lemma quiet_itable s t : ready [] s -> quiet s (with_itable t s).
Proof using Type. intros Hr. split_and!; [|done|done]. destruct Hr. by split. Qed.

Lemma quiet_reads s s' : ready [] s' -> nfree s' = nfree s -> reads s s' -> quiet s s'.
Proof using Type. intros Hr Hn (R & L & Hc). split_and!; [done|done|]. split_and!; [|done|done]. unfold rest in *. cbn. congruence. Qed.

Lemma quiet_content s s' n : quiet s s' -> content s' n = content s n.
Proof using Type. intros (_ & _ & _ & _ & Hc). apply Hc. Qed.

Lemma quiet_sb s s' : quiet s s' -> fs_sb s' = fs_sb s /\ fs_pid s' = fs_pid s /\ lg s' = lg s.
Proof using Type. intros (_ & _ & R & L & _). unfold rest in R. cbn in R. split_and!; [congruence|congruence|done]. Qed.

Lemma quiet_inode s s' i : quiet s s' -> disk_inode s' i = disk_inode s i.
Proof using Type. intros Hq. destruct (quiet_sb _ _ Hq) as (E & _). unfold disk_inode, inode_block. by rewrite E, (quiet_content s). Qed.

Lemma zget_iview s ip x : zget (fs_itable s) ip = Some x -> zget (iview s) ip = Some (islot x).
Proof using Type. unfold iview, zget. destruct (0 <=? ip); [|done]. intros E. by rewrite list_lookup_fmap, E. Qed.

Lemma iview_zset s t ip x : t = zset (fs_itable s) ip x -> islot <$> t = zset (iview s) ip (islot x).
Proof using Type. intros ->. unfold iview, zset. destruct (0 <=? ip); [|done]. by rewrite list_fmap_insert. Qed.

(** What works on the cache and the log does not see the table. *)
Lemma wpn_under_itable {A} (m : M (logstate C) A) s t (Q : A -> fs C U -> Prop) :
  wpn (on_log m) s (fun a s' => Q a (with_itable t s')) -> wpn (on_log m) (with_itable t s) Q.
Proof using Type. unfold wpn, wp, on_log, lift. cbn. by destruct (m (fs_log s)). Qed.

(** An entry of the table that no one has locked: valid contents are those of the disk. *)
Definition ientry_ok s (x : inode) : Prop :=
  0 <= ip_ref x /\ sl_locked (ip_lock x) = 0 /\
  (0 < ip_ref x -> ip_dev x = ROOTDEV /\ (ip_valid x <> 0 -> ip_di x = disk_inode s (ip_inum x))).
Definition icache s : Prop := forall ip x, zget (fs_itable s) ip = Some x -> ientry_ok s x.

Lemma entry_quiet s s' x : quiet s s' -> ientry_ok s x -> ientry_ok s' x.
Proof using Type. intros Hq (H1 & H2 & H3). split_and!; [done|done|]. intros Hr. rewrite (quiet_inode s s') by done. by apply H3. Qed.

(** The whole table, when one entry has changed. *)
Lemma icache_zset s s' ip y : quiet s s' -> icache s -> fs_itable s' = zset (fs_itable s) ip y -> ientry_ok s' y -> icache s'.
Proof using Type.
  intros Hq Hc E Hy k x Hk. rewrite E in Hk. destruct (decide (k = ip)) as [->|Hne].
  - rewrite zget_zset_eq in Hk by (apply zget_Some in Hk; by rewrite length_zset in Hk). by injection Hk as <-.
  - rewrite zget_zset_ne in Hk by done. eapply entry_quiet; [done|by eapply Hc].
Qed.

(** ** [ilock], [iunlock] and [iput] *)

Definition with_lock (l : sleeplock) (x : inode) : inode := Inode (ip_dev x) (ip_inum x) (ip_ref x) l (ip_valid x) (ip_di x).

Lemma ip_acquiresleep_run s ip x : zget (fs_itable s) ip = Some x -> sl_locked (ip_lock x) = 0 ->
  ip_acquiresleep ip s = Done tt (with_itable (zset (fs_itable s) ip (with_lock (Sleeplock 1 (fs_pid s)) x)) s) [].
Proof using Type.
  intros Hx Hl. unfold ip_acquiresleep, ip_get, of_option, acquiresleep, bind, get, gets, lift. cbn. rewrite Hx. cbn. rewrite Hl. done.
Qed.

Lemma ip_holding_run s ip x : zget (fs_itable s) ip = Some x ->
  exists s', ip_holdingsleep ip s = Done (negb (sl_locked (ip_lock x) =? 0) && (sl_pid (ip_lock x) =? fs_pid s)) s' [] /\ s' = s.
Proof using Type.
  intros Hx. eexists. unfold ip_holdingsleep, ip_get, of_option, holdingsleep, bind, get, gets, lift. cbn. rewrite Hx. cbn. split; [done|].
  destruct s. cbn in *. f_equal. apply zset_id. rewrite Hx. by destruct x.
Qed.

Lemma ip_releasesleep_run s ip x : zget (fs_itable s) ip = Some x ->
  exists t, ip_releasesleep ip s = Done tt (with_itable (zset (fs_itable s) ip (with_lock (Sleeplock 0 0) x)) s) t.
Proof using Type.
  intros Hx. eexists. unfold ip_releasesleep, ip_get, of_option, releasesleep, bind, get, gets, lift. cbn. rewrite Hx. cbn. done.
Qed.

Definition locked_by s (x : inode) : inode :=
  Inode (ip_dev x) (ip_inum x) (ip_ref x) (Sleeplock 1 (fs_pid s)) (if ip_valid x =? 0 then 1 else ip_valid x) (disk_inode s (ip_inum x)).

Lemma zset_comm {A} (l : list A) i j x y : i <> j -> zset (zset l i x) j y = zset (zset l j y) i x.
Proof using Type.
  intros Hne. unfold zset. destruct (Z.leb_spec 0 i), (Z.leb_spec 0 j); try done. apply list_insert_insert_ne. lia.
Qed.

Lemma zget_zset_same {A} (l : list A) i x y : zget l i = Some x -> zget (zset l i y) i = Some y.
Proof using Type. intros E. apply zget_zset_eq. by apply zget_Some in E. Qed.

Lemma ilock_run s ip x (Q : unit -> fs C U -> Prop) :
  ready [] s -> 0 < nfree s -> geometry s -> zget (fs_itable s) ip = Some x -> 0 < ip_ref x -> ientry_ok s x ->
  0 <= ip_inum x < sb_ninodes (fs_sb s) -> di_type (disk_inode s (ip_inum x)) <> 0 ->
  (forall s', quiet s s' -> fs_itable s' = zset (fs_itable s) ip (locked_by s x) -> Q tt s') ->
  wpn (ilock ip) s Q.
Proof using HL Hbase.
  intros Hr Hf Hg Hx Href (_ & Hl & Hv) Hi Hty HQ. destruct (Hv Href) as [_ Hdi]. clear Hv.
  destruct (IBLOCK_eq s _ Hg Hi) as (Eb & _). unfold ilock. apply wpn_bind, (wpn_ip_get _ _ x); [done|].
  rewrite (proj2 (Z.ltb_ge _ _)) by lia. set (x1 := with_lock (Sleeplock 1 (fs_pid s)) x).
  apply wpn_bind. eapply wpn_run; [by apply ip_acquiresleep_run|]. fold x1. set (s1 := with_itable (zset (fs_itable s) ip x1) s).
  pose proof (zget_zset_same _ _ _ x1 Hx : zget (fs_itable s1) ip = Some x1) as Hx1.
  pose proof (quiet_itable s (zset (fs_itable s) ip x1) Hr : quiet s s1) as Q1.
  apply wpn_bind, (wpn_ip_get _ _ x1); [done|]. unfold locked_by in HQ. change (ip_valid x1) with (ip_valid x).
  destruct (Z.eqb_spec (ip_valid x) 0) as [Hv0|Hv0].
  2: { apply wpn_ret, HQ; [done|]. rewrite <- Hdi by done. done. }
  apply wpn_bind. unfold the_sb. eapply wpn_run; [done|]. change (fs_sb s1) with (fs_sb s). change (ip_inum x1) with (ip_inum x). rewrite Eb.
  apply wpn_bind, (wpn_bread_rel base Hbase []); [apply Q1|apply not_elem_of_nil|by left|].
  intros h s2 _ Hrd2 _ Ed Hrel. destruct (itable_reads _ _ Hrd2) as [Et2 _].
  apply wpn_bind. eapply wpn_run; [exact Ed|]. change (content s1 (inode_block s (ip_inum x))) with (content s (inode_block s (ip_inum x))). fold (disk_inode s (ip_inum x)).
  set (x2 := Inode (ip_dev x) (ip_inum x) (ip_ref x) (Sleeplock 1 (fs_pid s)) (ip_valid x) (disk_inode s (ip_inum x))).
  apply wpn_bind. eapply wpn_run; [apply (ip_upd_run s2 ip x1); by rewrite Et2|]. fold x2.
  apply wpn_bind, wpn_under_itable, Hrel. intros s3 Hr3 Hrd3 Hf3. rewrite Et2.
  set (t3 := zset (fs_itable s1) ip x2). assert (Hx2 : zget t3 ip = Some x2) by (by eapply zget_zset_same).
  apply wpn_bind. eapply wpn_run; [by apply (ip_upd_run _ ip x2)|]. cbn [fs_itable with_itable].
  apply wpn_bind. eapply wpn_ip_get; [by eapply zget_zset_same|]. change (di_type (ip_di (set_ivalid 1 x2))) with (di_type (disk_inode s (ip_inum x))).
  rewrite (proj2 (Z.eqb_neq _ _) Hty). apply wpn_ret, HQ.
  - eapply quiet_trans; [exact Q1|]. eapply quiet_trans; [by apply (quiet_reads s1 s3)|exact (quiet_itable s3 _ Hr3)].
  - cbn. unfold t3. cbn. by rewrite !zset_zset.
Qed.

Lemma iunlock_run s ip x (Q : unit -> fs C U -> Prop) :
  ready [] s -> zget (fs_itable s) ip = Some x -> 0 < ip_ref x -> sl_locked (ip_lock x) <> 0 -> sl_pid (ip_lock x) = fs_pid s ->
  (forall s', quiet s s' -> fs_itable s' = zset (fs_itable s) ip (with_lock (Sleeplock 0 0) x) -> Q tt s') ->
  wpn (iunlock ip) s Q.
Proof using Type.
  intros Hr Hx Href Hl Hp HQ. unfold iunlock. destruct (ip_holding_run s ip x Hx) as (s' & E & ->).
  apply wpn_bind. eapply wpn_run; [exact E|]. apply wpn_bind, (wpn_ip_get _ _ x); [done|].
  rewrite (proj2 (Z.eqb_neq _ _) Hl), (proj2 (Z.eqb_eq _ _) Hp), (proj2 (Z.ltb_ge _ _)) by lia. cbn [negb andb orb].
  destruct (ip_releasesleep_run s ip x Hx) as (t & E'). eapply wpn_run; [exact E'|]. apply HQ; [by apply quiet_itable|done].
Qed.

Lemma iput_run s ip x (Q : unit -> fs C U -> Prop) :
  ready [] s -> zget (fs_itable s) ip = Some x -> di_nlink (ip_di x) <> 0 \/ ip_valid x = 0 \/ ip_ref x <> 1 ->
  (forall s', quiet s s' -> fs_itable s' = zset (fs_itable s) ip (set_ref (ip_ref x - 1) x) -> Q tt s') ->
  wpn (iput ip) s Q.
Proof using Type.
  intros Hr Hx Hn HQ. unfold iput. apply wpn_bind, (wpn_ip_get _ _ x); [done|].
  assert (E : (ip_ref x =? 1) && negb (ip_valid x =? 0) && (di_nlink (ip_di x) =? 0) = false).
  { destruct (Z.eqb_spec (ip_ref x) 1), (Z.eqb_spec (ip_valid x) 0), (Z.eqb_spec (di_nlink (ip_di x)) 0); try done. exfalso. tauto. }
  rewrite E. apply wpn_bind, wpn_ret. eapply wpn_run; [by apply ip_upd_run|]. apply HQ; [by apply quiet_itable|done].
Qed.

Lemma iunlockput_run s ip x (Q : unit -> fs C U -> Prop) :
  ready [] s -> zget (fs_itable s) ip = Some x -> 0 < ip_ref x -> sl_locked (ip_lock x) <> 0 -> sl_pid (ip_lock x) = fs_pid s ->
  di_nlink (ip_di x) <> 0 ->
  (forall s', quiet s s' -> fs_itable s' = zset (fs_itable s) ip (set_ref (ip_ref x - 1) (with_lock (Sleeplock 0 0) x)) -> Q tt s') ->
  wpn (iunlockput ip) s Q.
Proof using Type.
  intros Hr Hx Href Hl Hp Hn HQ. unfold iunlockput. apply wpn_bind, (iunlock_run s ip x); [done..|]. intros s1 Q1 E1.
  eapply (iput_run s1 ip (with_lock (Sleeplock 0 0) x)); [apply Q1|rewrite E1; by eapply zget_zset_same|by left|].
  intros s2 Q2 E2. apply HQ; [by eapply quiet_trans|]. by rewrite E2, E1, zset_zset.
Qed.

(** ** References *)

(** One reference more to inode [i], in entry [ip]. *)
Definition got (v v' : list (option (Z * Z * Z))) (ip i : Z) : Prop :=
  exists o, zget v ip = Some o /\ match o with Some (d, j, _) => d = ROOTDEV /\ j = i | None => True end /\
    v' = zset v ip (Some (ROOTDEV, i, match o with Some (_, _, r) => r + 1 | None => 1 end)).
(** One less. *)
Definition dropped (o : option (Z * Z * Z)) : option (Z * Z * Z) :=
  match o with Some (d, i, r) => if r =? 1 then None else Some (d, i, r - 1) | None => None end.
Definition refs_ok (v : list (option (Z * Z * Z))) : Prop := forall k d i r, zget v k = Some (Some (d, i, r)) -> 0 < r.

Lemma got_back v v' ip i o : refs_ok v -> got v v' ip i -> zget v' ip = Some o -> zset v' ip (dropped o) = v.
Proof using Type.
  intros Hv (o0 & E & Hm & ->) Ho. rewrite (zget_zset_same _ _ _ _ E) in Ho. injection Ho as <-. rewrite zset_zset. apply zset_id. rewrite E. f_equal.
  destruct o0 as [[[d j] r]|]; [|done]. destruct Hm as [-> ->]. cbn [dropped]. pose proof (Hv _ _ _ _ E).
  rewrite (proj2 (Z.eqb_neq _ _)) by lia. do 3 f_equal. lia.
Qed.

Lemma got_move v v1 v2 ip i next j o : refs_ok v -> got v v1 ip i -> got v1 v2 next j -> zget v2 ip = Some o ->
  got v (zset v2 ip (dropped o)) next j.
Proof using Type.
  intros Hv G1 G2 Ho. destruct (decide (next = ip)) as [->|Hne].
  - pose proof G1 as (o0 & E0 & Hm0 & E1). pose proof G2 as (o1 & Eo1 & Hm1 & E2). subst v1.
    assert (Eo : o1 = Some (ROOTDEV, i, match o0 with Some (_, _, r) => r + 1 | None => 1 end)) by (rewrite (zget_zset_same _ _ _ _ E0) in Eo1; by injection Eo1).
    subst o1. destruct Hm1 as [_ <-]. rewrite E2, (zget_zset_same _ _ _ _ Eo1) in Ho. injection Ho as <-.
    exists o0. split_and!; [done|done|]. rewrite E2, !zset_zset. f_equal. cbn [dropped].
    assert (0 <= match o0 with Some (_, _, r) => r | None => 0 end) by (destruct o0 as [[[? ?] r]|]; [|lia]; pose proof (Hv _ _ _ _ E0); lia).
    destruct o0 as [[[? ?] r]|]; rewrite (proj2 (Z.eqb_neq _ _)) by lia; do 3 f_equal; lia.
  - destruct G2 as (o2 & Eo2 & Hm2 & ->). rewrite zget_zset_ne in Ho by done.
    pose proof G1 as (o0 & E0 & _ & E1). assert (Eo2' : zget v next = Some o2) by (rewrite E1, zget_zset_ne in Eo2 by done; done).
    exists o2. split_and!; [done|done|]. rewrite zset_comm by done. f_equal. by apply (got_back _ _ _ i).
Qed.

Lemma islot_put x : 0 < ip_ref x -> islot (set_ref (ip_ref x - 1) x) = dropped (islot x).
Proof using Type.
  intros Hr. unfold islot. cbn [ip_ref ip_dev ip_inum set_ref]. rewrite (proj2 (Z.eqb_neq (ip_ref x) 0)) by lia. cbn [dropped].
  destruct (Z.eqb_spec (ip_ref x) 1) as [->|]; [done|]. by rewrite (proj2 (Z.eqb_neq _ _)) by lia.
Qed.

Lemma islot_lock l x : islot (with_lock l x) = islot x.
Proof using Type. done. Qed.

Lemma refs_ok_icache s : icache s -> refs_ok (iview s).
Proof using Type.
  intros Hc k d i r E. unfold iview, zget in E. destruct (0 <=? k) eqn:Ek; [|done]. rewrite list_lookup_fmap in E.
  destruct (fs_itable s !! Z.to_nat k) as [x|] eqn:Ex; [|done]. injection E as E. unfold islot in E.
  destruct (Z.eqb_spec (ip_ref x) 0); [done|]. injection E as <- <- <-.
  destruct (Hc k x) as (H0 & _); [unfold zget; by rewrite Ek|lia].
Qed.

(** The entry that [got] is about. *)
Lemma got_entry s s' ip i : icache s -> icache s' -> got (iview s) (iview s') ip i ->
  exists x, zget (fs_itable s') ip = Some x /\ 0 < ip_ref x /\ ip_inum x = i /\ ientry_ok s' x.
Proof using Type.
  intros Hc0 Hc (o & E & _ & Hv). pose proof (refs_ok_icache s Hc0) as Hr.
  assert (E' : zget (iview s') ip = Some (Some (ROOTDEV, i, match o with Some (_, _, r) => r + 1 | None => 1 end))) by (rewrite Hv; by eapply zget_zset_same).
  unfold iview in E'. unfold zget in *. destruct (0 <=? ip) eqn:Ek; [|done]. rewrite list_lookup_fmap in E'.
  destruct (fs_itable s' !! Z.to_nat ip) as [x|] eqn:Ex; [|done]. injection E' as E'. exists x. unfold islot in E'.
  destruct (Z.eqb_spec (ip_ref x) 0); [done|]. injection E' as _ Hi _.
  assert (Hx : ientry_ok s' x) by (apply (Hc ip); unfold zget; by rewrite Ek). split_and!; [done| |done|done]. destruct Hx as (H0 & _). lia.
Qed.

(** ** [namex] *)

Section namex.
Context (s0 : fs C U) (G : Z -> Prop) (k1 k2 : Z).
Hypothesis Hfree : 0 < nfree s0.
Hypothesis Hgeo : geometry s0.
Hypothesis Htree : tree_ok s0 G.
Hypothesis Hcache : icache s0.
Hypothesis Hk : k1 <> k2 /\ zget (iview s0) k1 = Some None /\ zget (iview s0) k2 = Some None.

(** Where a path starts: at the root, or at the inode of the current directory. *)
Definition starts (cwd : Z) (path : list Z) (i : Z) : Prop :=
  if str_at path 0 =? 47 then i = ROOTINO
  else exists x, zget (fs_itable s0) cwd = Some x /\ 0 < ip_ref x /\ ip_inum x = i.

(** Between two steps: one reference to inode [i]. *)
Record at_inode (s : fs C U) (ip i : Z) : Prop := {
  ai_quiet : quiet s0 s;
  ai_cache : icache s;
  ai_got : got (iview s0) (iview s) ip i;
  ai_in : G i
}.

(** What [namex] gives, for an abstract result. *)
Definition namex_post (o : option (Z * list Z)) (r : option (Z * list Z)) (s' : fs C U) : Prop :=
  quiet s0 s' /\ icache s' /\
  match o with
  | Some (j, name) => exists ip, r = Some (ip, name) /\ got (iview s0) (iview s') ip j /\ G j
  | None => r = None /\ iview s' = iview s0
  end.

(** The reference is given up. *)
Lemma put_back s ip i s' x y : at_inode s ip i -> zget (fs_itable s) ip = Some x -> 0 < ip_ref x ->
  quiet s s' -> fs_itable s' = zset (fs_itable s) ip y -> islot y = dropped (islot x) -> ientry_ok s' y ->
  quiet s0 s' /\ icache s' /\ iview s' = iview s0.
Proof using Hcache.
  intros [Aq Ac Ag _] Hx Href Hq Et Hy Hok. split_and!; [by eapply quiet_trans|by eapply icache_zset|].
  unfold iview at 1. rewrite (iview_zset s _ ip y Et), Hy. eapply got_back; [by apply refs_ok_icache|exact Ag|by apply zget_iview].
Qed.

Lemma quiet_file s s' x y : quiet s s' -> ip_di x = ip_di y ->
  (forall off n, file_bytes s' x off n = file_bytes s y off n) /\ (file_whole s y -> file_whole s' x).
Proof using Type.
  intros Hq E. assert (Ha : forall bn, file_addr s' x bn = file_addr s y bn) by (intros bn; unfold file_addr, addr_at; by rewrite E, (quiet_content s)).
  split.
  - intros off n. apply list_fmap_ext. intros k b _. unfold file_byte. by rewrite Ha, (quiet_content s).
  - intros [Hs Hw]. split; [by rewrite E|]. intros bn. rewrite E, Ha. apply Hw.
Qed.

Lemma at_lock s ip i (Q : unit -> fs C U -> Prop) : at_inode s ip i ->
  (forall s1 x, zget (fs_itable s) ip = Some x -> 0 < ip_ref x -> ip_inum x = i -> ientry_ok s x -> quiet s s1 ->
     fs_itable s1 = zset (fs_itable s) ip (locked_by s x) -> Q tt s1) -> wpn (ilock ip) s Q.
Proof using HL Hbase Hcache Hfree Hgeo Htree.
  intros [Aq Ac Ag Ai] HQ. destruct (got_entry s0 s ip i Hcache Ac Ag) as (x & Hx & Href & Hi & Hok).
  destruct (quiet_sb _ _ Aq) as (Esb & _ & El). pose proof Aq as (Hr & Hf & _).
  apply (ilock_run s ip x); [done|lia|unfold geometry; by rewrite Esb, El|done|done|done| | |].
  - rewrite Hi, Esb. by eapply tr_range.
  - rewrite Hi, (quiet_inode s0 s) by done. by eapply tr_type.
  - intros s1 Q1 E1. by apply (HQ s1 x).
Qed.

(** A free entry is left while one reference is held. *)
Lemma room_left s ip i dev j : got (iview s0) (iview s) ip i -> iget_room (fs_itable s) dev j.
Proof using Hk.
  intros (o & _ & _ & Ev). destruct Hk as (Hne & E1 & E2).
  assert (Hex : exists k, zget (iview s) k = Some None).
  { rewrite Ev. destruct (decide (k1 = ip)) as [->|]; [exists k2|exists k1]; by rewrite zget_zset_ne. }
  destruct Hex as (k & E). unfold iview, zget in E. destruct (0 <=? k); [|done]. rewrite list_lookup_fmap in E.
  destruct (fs_itable s !! Z.to_nat k) as [y|] eqn:Ey; [|done]. injection E as E. exists y. split; [by eapply list_elem_of_lookup_2|]. right.
  unfold islot in E. by destruct (Z.eqb_spec (ip_ref y) 0).
Qed.

Lemma view_lock s s1 ip x : zget (fs_itable s) ip = Some x -> fs_itable s1 = zset (fs_itable s) ip (locked_by s x) -> iview s1 = iview s.
Proof using Type. intros Hx E. unfold iview at 1. rewrite (iview_zset s _ _ _ E). apply zset_id. exact (zget_iview s ip x Hx). Qed.

Lemma at_lookup s s1 ip i x name (Q : option (Z * Z) -> fs C U -> Prop) :
  at_inode s ip i -> zget (fs_itable s) ip = Some x -> 0 < ip_ref x -> ip_inum x = i -> ientry_ok s x -> quiet s s1 ->
  fs_itable s1 = zset (fs_itable s) ip (locked_by s x) -> is_dir s0 i = true ->
  (dir_find s0 i name = None -> forall s2, quiet s1 s2 -> fs_itable s2 = fs_itable s1 -> Q None s2) ->
  (forall next off j s2, dir_find s0 i name = Some j -> G j -> quiet s1 s2 ->
     iget_post (fs_itable s1) (fs_itable s2) ROOTDEV j next -> Q (Some (next, off)) s2) ->
  wpn (dirlookup ucopyout ip name) s1 Q.
Proof using HL Hbase Hfree Hk Htree.
  intros A Hx Href Hi Hok Q1 E1 Hdir Hnone Hsome. pose proof A as [Aq Ac Ag Ai]. set (x' := locked_by s x) in *.
  pose proof (quiet_trans _ _ _ Aq Q1) as Q01. pose proof Q01 as (Hr1 & Hf1 & _).
  assert (Edi : ip_di x' = ip_di (onode s0 i)) by (change (disk_inode s (ip_inum x) = disk_inode s0 i); rewrite Hi; by apply quiet_inode).
  destruct (quiet_file s0 s1 x' (onode s0 i) Q01 Edi) as [Ebs Hw]. assert (Ede : forall k, dirent_at s1 x' k = dirent_at s0 (onode s0 i) k) by (intros k; apply Ebs). destruct (tr_whole _ _ Htree i Ai Hdir) as [Hwh Hmod].
  set (cnt := di_size (disk_inode s0 i) / DIRENT).
  assert (Hsz : di_size (ip_di x') = cnt * DIRENT) by (rewrite Edi; change (ip_di (onode s0 i)) with (disk_inode s0 i); unfold cnt; pose proof (Z.div_mod (di_size (disk_inode s0 i)) DIRENT ltac:(done)); lia).
  assert (Hnm : forall k, named s1 x' name k <-> named s0 (onode s0 i) name k) by (intros k; unfold named; by rewrite Ede).
  assert (Hd : ip_dev x' = ROOTDEV) by (destruct Hok as (_ & _ & Hok); by apply Hok).
  eapply wpn_mono; [apply (dirlookup_run ucopyout base Hbase s1 ip x' name cnt)|].
  - done.
  - rewrite E1. by eapply zget_zset_same.
  - lia.
  - by apply Hw.
  - rewrite Edi. by apply Z.eqb_eq.
  - done.
  - intros j _. apply (room_left s1 ip i). by rewrite (view_lock s s1 ip x).
  - intros [[next off]|] s2; cbn [dirlookup_post].
    + intros (k & t' & s3 & Hkc & _ & Hn & Hno & Hp & -> & Hr3 & Hrd3 & Hf3). rewrite Hd, Ede in Hp.
      apply (Hsome next off (de_inum (dirent_at s0 (onode s0 i) k))).
      * unfold dir_find, dir_lookup. cbn [ip_di onode]. fold cnt. rewrite (first_of _ cnt k); [done|done|exact (proj1 (Hnm k) Hn)|]. intros j Hj Hjn. apply (Hno j Hj). exact (proj2 (Hnm j) Hjn).
      * destruct (proj1 (Hnm k) Hn) as [Hn' _]. by apply (tr_next _ _ Htree i k).
      * eapply quiet_trans; [by apply quiet_reads|by apply quiet_itable].
      * exact Hp.
    + intros (Hno & Hr2 & Hrd2 & Hf2). apply Hnone.
      * unfold dir_find, dir_lookup. cbn [ip_di onode]. fold cnt. rewrite none_of; [done|]. intros j Hj Hjn. apply (Hno j Hj). exact (proj2 (Hnm j) Hjn).
      * by apply quiet_reads.
      * by apply itable_reads.
Qed.

(** The ends of an iteration: the inode is unlocked and kept, or also given up. *)
Lemma at_unlock s s1 ip i x (Q : unit -> fs C U -> Prop) :
  at_inode s ip i -> zget (fs_itable s) ip = Some x -> 0 < ip_ref x -> ientry_ok s x -> quiet s s1 ->
  fs_itable s1 = zset (fs_itable s) ip (locked_by s x) ->
  (forall s2, at_inode s2 ip i -> Q tt s2) -> wpn (iunlock ip) s1 Q.
Proof using Type.
  intros [Aq Ac Ag Ai] Hx Href Hok Q1 E1 HQ. apply (iunlock_run s1 ip (locked_by s x)); [apply Q1|rewrite E1; by eapply zget_zset_same|done|done| |].
  { cbn. symmetry. by apply quiet_sb. }
  intros s2 Q2 E2. rewrite E1, zset_zset in E2. pose proof (quiet_trans _ _ _ Q1 Q2) as Q12. apply HQ. split; [by eapply quiet_trans| | |done].
  - eapply icache_zset; [exact Q12|done|exact E2|]. destruct Hok as (H0 & _ & H2). split_and!; [done|done|]. intros _. split; [by apply H2|]. intros _. symmetry. by apply quiet_inode.
  - replace (iview s2) with (iview s); [done|]. unfold iview at 2. rewrite (iview_zset s _ _ _ E2). symmetry. apply zset_id. exact (zget_iview s ip x Hx).
Qed.

Lemma at_unlockput s s1 s2 ip i x (Q : unit -> fs C U -> Prop) :
  at_inode s ip i -> zget (fs_itable s) ip = Some x -> 0 < ip_ref x -> ip_inum x = i -> ientry_ok s x -> quiet s s1 ->
  fs_itable s1 = zset (fs_itable s) ip (locked_by s x) -> quiet s1 s2 -> fs_itable s2 = fs_itable s1 ->
  (forall s3, quiet s0 s3 -> icache s3 -> iview s3 = iview s0 -> Q tt s3) -> wpn (iunlockput ip) s2 Q.
Proof using Hcache Htree.
  intros A Hx Href Hi Hok Q1 E1 Q2 E2 HQ. pose proof A as [Aq Ac Ag Ai]. pose proof (quiet_trans _ _ _ Q1 Q2) as Q12. rewrite E1 in E2.
  apply (iunlockput_run s2 ip (locked_by s x)); [apply Q2|rewrite E2; by eapply zget_zset_same|done|done| | |].
  { cbn. symmetry. by apply quiet_sb. }
  { change (ip_di (locked_by s x)) with (disk_inode s (ip_inum x)). rewrite Hi, (quiet_inode s0 s) by done. by eapply tr_link. }
  intros s3 Q3 E3. rewrite E2, zset_zset in E3. pose proof (quiet_trans _ _ _ Q12 Q3) as Q13.
  destruct (put_back s ip i s3 x _ A Hx Href Q13 E3) as (H1 & H2 & H3); [| |by apply HQ].
  - by rewrite <- islot_put.
  - destruct Hok as (H0 & _ & H2). split_and!; cbn; [lia|done|]. intros _. split; [by apply H2|]. intros _. symmetry. by apply quiet_inode.
Qed.

Lemma iget_got s s' j next : iget_post (fs_itable s) (fs_itable s') ROOTDEV j next -> got (iview s) (iview s') next j.
Proof using Type.
  intros (x & Hx & Hor). exists (islot x). split; [by apply zget_iview|]. destruct Hor as [[(Hr & Hd & Hj) Et]|(Hr & _ & Et)].
  - unfold islot. rewrite (proj2 (Z.eqb_neq (ip_ref x) 0)) by lia. split; [done|]. unfold iview at 1. rewrite (iview_zset s _ _ _ Et). f_equal.
    unfold islot. cbn [ip_ref set_ref ip_dev ip_inum]. rewrite (proj2 (Z.eqb_neq _ _)) by lia. by rewrite Hd, Hj.
  - unfold islot. rewrite Hr. cbn [Z.eqb]. split; [done|]. unfold iview at 1. by rewrite (iview_zset s _ _ _ Et).
Qed.

(** The entry of the current inode after [iget] of the next one. *)
Lemma iget_current s s1 s2 ip x j next : zget (fs_itable s) ip = Some x -> 0 < ip_ref x ->
  fs_itable s1 = zset (fs_itable s) ip (locked_by s x) -> iget_post (fs_itable s1) (fs_itable s2) ROOTDEV j next ->
  exists r, 0 < r /\ zget (fs_itable s2) ip = Some (set_ref r (locked_by s x)).
Proof using Type.
  intros Hx Href E1 (y & Hy & Hor). assert (Hx1 : zget (fs_itable s1) ip = Some (locked_by s x)) by (rewrite E1; by eapply zget_zset_same).
  destruct (decide (next = ip)) as [->|Hne].
  - rewrite Hx1 in Hy. injection Hy as <-. destruct Hor as [[_ ->]|(Hr & _)]; [|cbn in Hr; lia].
    exists (ip_ref x + 1). split; [lia|]. by eapply zget_zset_same.
  - exists (ip_ref x). split; [done|]. destruct Hor as [[_ ->]|(_ & _ & ->)]; rewrite zget_zset_ne by done; exact Hx1.
Qed.

(** The other entries are in order after [iget]. *)
Lemma iget_cache s s1 s2 ip x j next k y : icache s -> quiet s s2 ->
  fs_itable s1 = zset (fs_itable s) ip (locked_by s x) -> iget_post (fs_itable s1) (fs_itable s2) ROOTDEV j next ->
  k <> ip -> zget (fs_itable s2) k = Some y -> ientry_ok s2 y.
Proof using Type.
  intros Hc Hq E1 (z & Hz & Hor) Hk' Hy. rewrite E1 in *. destruct (decide (k = next)) as [->|Hkn].
  - rewrite zget_zset_ne in Hz by done. destruct (entry_quiet s s2 z Hq (Hc _ _ Hz)) as (H0 & H1 & H2).
    destruct Hor as [[(Hr & Hd & _) Et]|(Hr & _ & Et)]; rewrite Et in Hy;
      (erewrite zget_zset_same in Hy by (by rewrite zget_zset_ne)); injection Hy as <-.
    + split_and!; cbn; [lia|done|]. intros _. by apply H2.
    + split_and!; cbn; [lia|done|]. by intros _.
  - destruct Hor as [[_ Et]|(_ & _ & Et)]; rewrite Et, !zget_zset_ne in Hy by done; by apply (entry_quiet s s2), (Hc k).
Qed.

Lemma at_move s s1 s2 ip i x j next (Q : unit -> fs C U -> Prop) :
  at_inode s ip i -> zget (fs_itable s) ip = Some x -> 0 < ip_ref x -> ip_inum x = i -> ientry_ok s x -> quiet s s1 ->
  fs_itable s1 = zset (fs_itable s) ip (locked_by s x) -> quiet s1 s2 -> iget_post (fs_itable s1) (fs_itable s2) ROOTDEV j next -> G j ->
  (forall s3, at_inode s3 next j -> Q tt s3) -> wpn (iunlockput ip) s2 Q.
Proof using Hcache Htree.
  intros A Hx Href Hi Hok Q1 E1 Q2 Hp Hj HQ. pose proof A as [Aq Ac Ag Ai]. pose proof (quiet_trans _ _ _ Q1 Q2) as Q12.
  destruct (iget_current s s1 s2 ip x j next Hx Href E1 Hp) as (r & Hr & Hx2). set (x2 := set_ref r (locked_by s x)) in *.
  apply (iunlockput_run s2 ip x2); [apply Q2|done|done|done| | |].
  { cbn. symmetry. by apply quiet_sb. }
  { change (ip_di x2) with (disk_inode s (ip_inum x)). rewrite Hi, (quiet_inode s0 s) by done. by eapply tr_link. }
  intros s3 Q3 E3. apply HQ. pose proof (quiet_trans _ _ _ Q12 Q3) as Q13. split; [by eapply quiet_trans| | |done].
  - intros k y Hy. rewrite E3 in Hy. destruct (decide (k = ip)) as [->|Hne].
    + rewrite (zget_zset_same _ _ _ _ Hx2) in Hy. injection Hy as <-. destruct Hok as (_ & _ & H2).
      split_and!; cbn -[disk_inode]; [lia|done|]. intros _. split; [by apply H2|]. intros _. symmetry. by apply quiet_inode.
    + rewrite zget_zset_ne in Hy by done. eapply entry_quiet; [exact Q3|]. by eapply (iget_cache s s1 s2).
  - unfold iview at 2. rewrite (iview_zset s2 _ _ _ E3).
    rewrite (islot_put (with_lock (Sleeplock 0 0) x2) Hr : islot (set_ref (ip_ref x2 - 1) (with_lock (Sleeplock 0 0) x2)) = _), islot_lock.
    eapply (got_move _ (iview s1)); [by apply refs_ok_icache| |by apply iget_got|by apply zget_iview].
    rewrite (view_lock s s1 ip x) by done. exact Ag.
Qed.

Lemma namex_loop_run fuel s ip i path parent name : at_inode s ip i -> (length path < fuel)%nat ->
  wpn (namex_loop ucopyout fuel ip path parent name) s (namex_post (resolve_path s0 i (elements path) parent name)).
Proof using HL Hbase Hcache Hfree Hgeo Hk Htree.
  revert s ip i path name. induction fuel as [|fuel IH]; intros s ip i path name A Hf; [lia|]. cbn [namex_loop].
  pose proof A as [Aq Ac Ag Ai]. pose proof (skipelem_elements path) as Hs. destruct (skipelem path) as [[path' e]|].
  2: { rewrite Hs. cbn [resolve_path]. destruct parent; [|by apply wpn_ret; split_and!; [done|done|exists ip]].
    destruct (got_entry s0 s ip i Hcache Ac Ag) as (x & Hx & Href & Hi & Hok). apply wpn_bind, (iput_run s ip x); [apply Aq|done| |].
    - destruct (decide (ip_valid x = 0)) as [|Hv]; [auto|left]. destruct Hok as (_ & _ & Hok). rewrite (proj2 (Hok Href) Hv), Hi, (quiet_inode s0 s) by done. by eapply tr_link.
    - intros s1 Q1 E1. apply wpn_ret. destruct (put_back s ip i s1 x _ A Hx Href Q1 E1) as (H1 & H2 & H3); [by apply islot_put| |by split_and!].
      apply (entry_quiet s s1) in Hok; [|done]. destruct Hok as (H0 & H1 & H2). split_and!; cbn -[disk_inode]; [lia|done|]. intros _. by apply H2. }
  destruct Hs as (He & Hp' & Hlen). rewrite He. cbn [resolve_path].
  apply wpn_bind, (at_lock s ip i); [done|]. intros s1 x Hx Href Hi Hok Q1 E1.
  apply wpn_bind, (wpn_ip_get _ _ (locked_by s x)); [rewrite E1; by eapply zget_zset_same|].
  assert (Edir : (di_type (ip_di (locked_by s x)) =? T_DIR) = is_dir s0 i).
  { change (ip_di (locked_by s x)) with (disk_inode s (ip_inum x)). unfold is_dir. by rewrite Hi, (quiet_inode s0 s). }
  rewrite Edir. destruct (is_dir s0 i) eqn:Hdir; cbn [negb].
  2: { apply wpn_bind, (at_unlockput s s1 s1 ip i x); [done..|apply quiet_refl, Q1|done|].
    intros s2 H1 H2 H3. by apply wpn_ret. }
  rewrite (bool_decide_ext _ _ Hp'). destruct (parent && bool_decide (elements path' = [])).
  { apply wpn_bind, (at_unlock s s1 ip i x); [done..|]. intros s2 [H1 H2 H3 H4]. apply wpn_ret. split_and!; [done|done|]. by exists ip. }
  apply wpn_bind, (at_lookup s s1 ip i x); [done..| |].
  - intros -> s2 Q2 E2. cbn [mbind option_bind]. apply wpn_bind, (at_unlockput s s1 s2 ip i x); [done..|]. intros s3 H1 H2 H3. by apply wpn_ret.
  - intros next off j s2 -> Hj Q2 Hp. cbn [mbind option_bind]. apply wpn_bind, (at_move s s1 s2 ip i x j next); [done..|].
    intros s3 A3. apply IH; [done|lia].
Qed.

(** [namex] before the loop: a reference to the root, or one more to the current directory. *)
Lemma start_root (Q : Z -> fs C U -> Prop) : ready [] s0 -> G ROOTINO ->
  (forall ip s, at_inode s ip ROOTINO -> Q ip s) -> wpn (iget 1 ROOTINO) s0 Q.
Proof using Hcache Hk.
  intros Hr Hg HQ. assert (Hroom : iget_room (fs_itable s0) 1 ROOTINO).
  { destruct Hk as (_ & E & _). unfold iview, zget in E. destruct (0 <=? k1); [|done]. rewrite list_lookup_fmap in E.
    destruct (fs_itable s0 !! Z.to_nat k1) as [y|] eqn:Ey; [|done]. injection E as E. exists y. split; [by eapply list_elem_of_lookup_2|]. right.
    unfold islot in E. by destruct (Z.eqb_spec (ip_ref y) 0). }
  destruct (iget_run s0 1 ROOTINO Hroom) as (ip & t' & E & Hp). eapply wpn_run; [exact E|]. apply HQ.
  pose proof (quiet_itable s0 t' Hr) as Q1. split; [done| |by apply iget_got|done].
  destruct Hp as (z & Hz & Hor). destruct (Hcache _ _ Hz) as (H0 & H1 & H2). destruct Hor as [[(Hrf & Hd & _) Et]|(Hrf & _ & Et)].
  - eapply icache_zset; [exact Q1|done|exact Et|]. split_and!; cbn -[disk_inode]; [lia|done|]. intros _. by apply H2.
  - eapply icache_zset; [exact Q1|done|exact Et|]. split_and!; cbn -[disk_inode]; [lia|done|]. by intros _.
Qed.

Lemma start_cwd cwd x (Q : Z -> fs C U -> Prop) : ready [] s0 -> zget (fs_itable s0) cwd = Some x -> 0 < ip_ref x -> G (ip_inum x) ->
  (forall s, at_inode s cwd (ip_inum x) -> Q cwd s) -> wpn (idup cwd) s0 Q.
Proof using Hcache.
  intros Hr Hx Href Hg HQ. unfold idup. apply wpn_bind. eapply wpn_run; [by apply ip_upd_run|]. apply wpn_ret, HQ.
  destruct (Hcache _ _ Hx) as (H0 & H1 & H2). pose proof (quiet_itable s0 (zset (fs_itable s0) cwd (set_ref (ip_ref x + 1) x)) Hr) as Q1.
  split; [done| | |done].
  - eapply icache_zset; [exact Q1|done|done|]. split_and!; cbn -[disk_inode]; [lia|done|]. intros _. by apply H2.
  - apply iget_got. exists x. split; [done|]. left. split; [|done]. split_and!; [done|by apply H2|done].
Qed.

Lemma namex_run cwd path i parent : ready [] s0 -> starts cwd path i -> G i ->
  wpn (namex ucopyout cwd path parent) s0 (namex_post (path_target s0 i (elements path) parent)).
Proof using HL Hbase Hcache Hfree Hgeo Hk Htree.
  intros Hr Hst Hi. unfold namex. apply wpn_bind. rewrite <- resolve_path_target. unfold starts in Hst. destruct (str_at path 0 =? 47).
  - rewrite Hst in *. apply start_root; [done|done|]. intros ip s A. apply namex_loop_run; [done|lia].
  - destruct Hst as (x & Hx & Href & <-). apply (start_cwd cwd x); [done..|]. intros s A. apply namex_loop_run; [done|lia].
Qed.
End namex.

(** C5: [namex] resolves paths.  On a directory tree in order, with the inode table
    consistent with the disk and two free entries in it, [namex] follows the names between the
    slashes (empty ones ignored, long ones cut to [DIRSIZ]) from the root or the current
    directory and returns a reference to exactly the inode they lead to (with
    [nameiparent], to the directory that is to hold the last one, with that name), and null
    exactly when a name is missing or a file is used as a directory.  It does not get
    stuck, panic or change a block, all locks are free again, and the references held are as
    before except for the one returned. *)
Theorem namex_resolves s G k1 k2 cwd path start parent
    (Hr : ready [] s) (Hfree : 0 < nfree s) (Hgeo : geometry s) (Htree : tree_ok s G) (Hcache : icache s)
    (Hk : k1 <> k2 /\ zget (iview s) k1 = Some None /\ zget (iview s) k2 = Some None)
    (Hstart : starts s cwd path start) (Hin : G start) :
  exists r s' t, namex ucopyout cwd path parent s = Done r s' t /\ quiet s s' /\ icache s' /\
    match path_target s start (elements path) parent with
    | Some (j, name) => exists ip, r = Some (ip, name) /\ got (iview s) (iview s') ip j
    | None => r = None /\ iview s' = iview s
    end.
Proof using HL Hbase.
  destruct (wpn_done _ _ _ (namex_run s G k1 k2 Hfree Hgeo Htree Hcache Hk cwd path start parent Hr Hstart Hin)) as (r & s' & t & E & H1 & H2 & H3).
  exists r, s', t. split_and!; [done|done|done|]. destruct (path_target s start (elements path) parent) as [[j name]|]; [|done].
  destruct H3 as (ip & -> & Hg & _). eauto.
Qed.
End table.
