(* ===== verification/FsLink.v ===== *)
(** * kernel/fs.c: a directory as a map

    [dirlink] adds a name to a directory: a directory is the map [dir_lookup] from names to
    inode numbers that path resolution uses (FsPath.v), and [dirlink] inserts into it. *)

From Stdlib Require Import ZArith Lia.
From stdpp Require Import base list sets strings numbers.
From S2P Require Import Prelude Sleeplock Blocks BlockCache Log LogProofs LogOps Bio BioProofs Fs FsBase FsRead FsAlloc FsDir FsWrite FsWritei FsPath.

Lemma first_or_none (P : Z -> Prop) `{!forall i, Decision (P i)} n : 0 <= n ->
  (exists i, 0 <= i < n /\ P i /\ forall j, 0 <= j < i -> ~ P j) \/ (forall j, 0 <= j < n -> ~ P j).
Proof.
  intros Hn. pattern n. apply natlike_ind; [right; intros j Hj; lia| |done].
  clear n Hn. intros n Hn [(i & Hi & HP & Hno)|Hno]; [left; exists i; split; [lia|done]|].
  destruct (decide (P n)) as [HP|HP]; [left; exists n; split; [lia|done]|]. right. intros j Hj.
  destruct (decide (j = n)) as [->|]; [done|]. apply Hno. lia.
Qed.

Section link.
Context {C U : Type} `{HL : BlockCacheLaws C}.
Context (ucopyout : U -> Z -> list Z -> Z * U) (ucopyin : U -> Z -> Z -> Z * list Z).
Context (base : Z -> Z) (Hbase : forall n, 0 <= base n < 2 ^ 31).
Abbreviation ready := (ready base).
Implicit Type s : fs C U.

Abbreviation key := (cname (Z.to_nat DIRSIZ)).

(** ** The map of a directory *)

Definition dir_size (x : inode) : Z := di_size (ip_di x) / DIRENT.

Lemma dir_lookup_first s x name i : 0 <= i < dir_size x -> named s x name i -> (forall j, 0 <= j < i -> ~ named s x name j) ->
  dir_lookup s x name = Some (de_inum (dirent_at s x i)).
Proof using Type. intros Hi Hn Hno. unfold dir_lookup. by rewrite (first_of _ _ i). Qed.

Lemma dir_lookup_none s x name : (forall j, 0 <= j < dir_size x -> ~ named s x name j) -> dir_lookup s x name = None.
Proof using Type. intros Hno. unfold dir_lookup. by rewrite none_of. Qed.

Lemma dir_lookup_None s x name : 0 <= dir_size x -> dir_lookup s x name = None -> forall j, 0 <= j < dir_size x -> ~ named s x name j.
Proof using Type.
  intros Hs E. destruct (first_or_none (named s x name) (dir_size x) Hs) as [(i & Hi & Hn & Hno)|Hno]; [|done].
  by rewrite (dir_lookup_first s x name i) in E.
Qed.

(** Directories with the same entries up to free ones are the same map. *)
Lemma dir_lookup_ext s s' x x' name : 0 <= dir_size x <= dir_size x' ->
  (forall j, 0 <= j < dir_size x -> (named s' x' name j <-> named s x name j)) ->
  (forall j, 0 <= j < dir_size x -> named s x name j -> dirent_at s' x' j = dirent_at s x j) ->
  (forall j, dir_size x <= j < dir_size x' -> ~ named s' x' name j) ->
  dir_lookup s' x' name = dir_lookup s x name.
Proof using Type.
  intros Hs Hnm He Hnew. destruct (first_or_none (named s x name) (dir_size x)) as [(i & Hi & Hn & Hno)|Hno]; [lia| |].
  - rewrite (dir_lookup_first s x name i), (dir_lookup_first s' x' name i); [by rewrite He|lia|by apply Hnm| |done|done|done].
    intros j Hj Hjn. apply (Hno j Hj). exact (proj1 (Hnm j ltac:(lia)) Hjn).
  - rewrite (dir_lookup_none s x name), (dir_lookup_none s' x' name); [done| |done]. intros j Hj Hjn.
    destruct (decide (j < dir_size x)); [apply (Hno j); [lia|exact (proj1 (Hnm j ltac:(lia)) Hjn)]|]. apply (Hnew j); [lia|done].
Qed.

(** A name goes into a slot that is free or new. *)
Lemma dir_lookup_insert s s' x x' name inum i : 0 < inum < 2 ^ 16 -> dir_lookup s x name = None ->
  0 <= i <= dir_size x -> (i < dir_size x -> de_inum (dirent_at s x i) = 0) -> dir_size x' = Z.max (dir_size x) (i + 1) ->
  dirent_at s' x' i = dirent_bytes inum name ->
  (forall j, 0 <= j < dir_size x -> j <> i -> dirent_at s' x' j = dirent_at s x j) ->
  forall name', dir_lookup s' x' name' = if decide (key name' = key name) then Some inum else dir_lookup s x name'.
Proof using Type.
  intros Hin Hnone Hi Hfree Hsz Hnew Hold name'.
  assert (Hnm : forall j, 0 <= j < dir_size x -> j <> i -> (named s' x' name' j <-> named s x name' j)).
  { intros j Hj Hne. unfold named. by rewrite Hold. }
  assert (Hnew' : named s' x' name' i <-> key name' = key name).
  { unfold named. rewrite Hnew, de_inum_bytes, de_name_bytes, cname_field by lia. split; [by intros [_ ?]|]. split; [lia|done]. }
  case_decide as D.
  - rewrite (dir_lookup_first s' x' name' i); [by rewrite Hnew, de_inum_bytes by lia|lia|by apply Hnew'|].
    intros j Hj Hjn. apply (proj1 (Hnm j ltac:(lia) ltac:(lia))) in Hjn. apply (dir_lookup_None s x name) with j; [lia|done|lia|].
    destruct Hjn as [H1 H2]. split; [done|congruence].
  - assert (Hi' : i < dir_size x -> ~ named s x name' i) by (intros Hlt [Hne _]; by apply Hne, Hfree).
    apply dir_lookup_ext; [lia| | |].
    + intros j Hj. destruct (decide (j = i)) as [->|]; [|by apply Hnm]. split; intros Hjn; [by apply Hnew' in Hjn|by apply Hi' in Hjn; [|lia]].
    + intros j Hj Hjn. apply Hold; [done|]. intros ->. apply Hi' in Hjn; [done|lia].
    + intros j Hj Hjn. assert (j = i) as -> by lia. apply Hnew' in Hjn. done.
Qed.

(** ** What a write does to the other bytes *)

Lemma fbyte_whole s x i : file_whole s x -> 0 <= i < di_size (ip_di x) -> fbyte s x i = file_byte s x i.
Proof using Type.
  intros [_ Hw] Hi. assert (HB : BSIZE = 1024) by done. unfold fbyte. rewrite (proj2 (Z.eqb_neq _ _)); [done|].
  apply Hw; [apply Z.div_pos; lia|]. pose proof (Z.div_mod i BSIZE ltac:(done)). pose proof (Z.mod_pos_bound i BSIZE ltac:(done)). lia.
Qed.

Lemma file_bytes_kept ip s x off bs tot s' x' o n : writei_post ip s x off bs tot s' x' -> file_whole s x ->
  0 <= o -> o + n <= di_size (ip_di x) -> o + n <= off \/ off + tot <= o -> file_bytes s' x' o n = file_bytes s x o n.
Proof using Type.
  intros Hp Hw Ho Hn Hd. pose proof (wi_whole _ _ _ _ _ _ _ _ Hp Hw) as Hw'. pose proof Hw as [[_ Hmax] _].
  assert (Hsz : di_size (ip_di x) <= di_size (ip_di x')) by (destruct (wi_inode _ _ _ _ _ _ _ _ Hp) as [l ->]; simpl; lia).
  apply list_fmap_ext. intros k b Hb. apply lookup_seqZ in Hb as [-> Hk].
  rewrite <- !fbyte_whole by (done || lia). rewrite (wi_byte _ _ _ _ _ _ _ _ Hp) by lia. by rewrite decide_False by lia.
Qed.

(** A write within one block is all or nothing. *)
Lemma writei_loop_block fuel ip bs off r s s' t : (0 < length bs)%nat -> off mod BSIZE + Z.of_nat (length bs) <= BSIZE ->
  writei_loop ucopyin (S (S fuel)) ip (SKernel bs) off 0 (Z.of_nat (length bs)) s = Done r s' t ->
  r.1 = 0 \/ r.1 = Z.of_nat (length bs).
Proof using Type.
  intros Hb Hoff E. set (n := Z.of_nat (length bs)) in *. cbn [writei_loop] in E. rewrite (proj2 (Z.ltb_lt 0 n)) in E by lia.
  rewrite Z.sub_0_r, Z.min_l in E by lia.
  apply bind_Done_inv in E as (addr & s1 & t1 & t2 & _ & E & _). destruct (addr =? 0); [injection E as <- _ _; by left|].
  do 4 (apply bind_Done_inv in E as (? & ? & ? & ? & _ & E & _)). cbn in E.
  do 2 (apply bind_Done_inv in E as (? & ? & ? & ? & _ & E & _)). rewrite Z.ltb_irrefl in E. injection E as <- _ _. by right.
Qed.

Lemma writei_block ip bs off tot s s' t : (0 < length bs)%nat -> off mod BSIZE + Z.of_nat (length bs) <= BSIZE ->
  writei ucopyin ip (SKernel bs) off (Z.of_nat (length bs)) s = Done tot s' t -> tot = -1 \/ tot = 0 \/ tot = Z.of_nat (length bs).
Proof using Type.
  intros Hb Hoff E. unfold writei in E. apply bind_Done_inv in E as (x & s1 & t1 & t2 & _ & E & _).
  destruct (_ || _); [injection E as <- _ _; by left|]. destruct (_ <? _); [injection E as <- _ _; by left|].
  apply bind_Done_inv in E as ([tot' off'] & s2 & t3 & t4 & E1 & E & _). right.
  do 2 (apply bind_Done_inv in E as (? & ? & ? & ? & _ & E & _)). injection E as <- _ _. by apply writei_loop_block in E1.
Qed.

(** ** The search for a free entry *)

Definition free_slot (s : fs C U) (x : inode) (i : Z) : Prop :=
  0 <= i <= dir_size x /\ (i < dir_size x -> de_inum (dirent_at s x i) = 0) /\ forall j, 0 <= j < i -> de_inum (dirent_at s x j) <> 0.

Lemma find_dirent_run fuel s0 s dp x i :
  ready [] s -> reads s0 s -> nfree s = nfree s0 -> zget (fs_itable s0) dp = Some x -> 0 < nfree s0 -> file_whole s0 x ->
  di_size (ip_di x) = dir_size x * DIRENT -> 0 <= i <= dir_size x -> (Z.to_nat (dir_size x - i) < fuel)%nat ->
  (forall j, 0 <= j < i -> de_inum (dirent_at s0 x j) <> 0) ->
  wpn (find_dirent ucopyout fuel dp (i * DIRENT)) s (fun off s' => exists k, off = k * DIRENT /\ free_slot s0 x k /\
    ready [] s' /\ reads s0 s' /\ nfree s' = nfree s0).
Proof using HL Hbase.
  revert s i. induction fuel as [|fuel IH]; intros s i Hr Hrd Hnf Hx Hf Hw Hsz Hi Hfuel Hno; [lia|].
  destruct (itable_reads s0 s Hrd) as [Et _]. pose proof (file_whole_reads s0 s x Hrd Hw) as Hw'.
  pose proof Hw as [[_ Hmax] _]. change (MAXFILE * BSIZE) with 274432 in Hmax. assert (HD : DIRENT = 16) by done.
  cbn [find_dirent]. apply wpn_bind, (wpn_ip_get _ _ x); [by rewrite Et|].
  destruct (Z.ltb_spec (i * DIRENT) (di_size (ip_di x))) as [Hlt|Hge].
  2: { apply wpn_ret. exists i. split; [done|]. split; [|done]. split_and!; [lia|lia|lia|done]. }
  apply wpn_bind, (readi_run base Hbase ucopyout s dp x); [done|by rewrite Et|lia|done|lia|lia|].
  assert (readi_len (di_size (ip_di x)) (i * DIRENT) DIRENT = DIRENT) as ->.
  { unfold readi_len. rewrite (proj2 (Z.ltb_ge _ _)), (proj2 (Z.leb_gt _ _)) by lia. simpl. lia. }
  intros s1 Hr1 Hrd1 Hf1. cbn [fst snd]. rewrite Z.eqb_refl. cbn [negb].
  rewrite (file_bytes_reads s0 s) by done. fold (dirent_at s0 x i). assert (Hrd2 : reads s0 s1) by (by etrans).
  destruct (Z.eqb_spec (de_inum (dirent_at s0 x i)) 0) as [Hz|Hnz].
  - apply wpn_ret. exists i. split; [done|]. split; [|split_and!; [done|done|lia]]. split_and!; [lia|lia|done|done].
  - replace (i * DIRENT + DIRENT) with ((i + 1) * DIRENT) by lia. apply IH; try done; [lia|lia|lia|].
    intros j Hj. destruct (decide (j = i)) as [->|]; [done|]. apply Hno. lia.
Qed.

(** ** [dirlink] *)

Lemma dir_lookup_reads s s' x name : reads s s' -> dir_lookup s' x name = dir_lookup s x name.
Proof using Type.
  intros Hrd. assert (He : forall j, dirent_at s' x j = dirent_at s x j) by (intros j; by apply file_bytes_reads).
  unfold dir_lookup. rewrite (list_filter_iff (named s' x name) (named s x name)) by (intros j; unfold named; by rewrite He).
  destruct (head _); cbn; by rewrite ?He.
Qed.

(** The directory and the state it is in: what a locked directory is inside a transaction. *)
Record dir_ok (s : fs C U) (dp : Z) (x : inode) : Prop := {
  do_ready : ready [] s;
  do_entry : zget (fs_itable s) dp = Some x;
  do_ref : 0 < ip_ref x;
  do_type : di_type (ip_di x) = T_DIR;
  do_size : di_size (ip_di x) = dir_size x * DIRENT;
  do_whole : file_whole s x;
  do_file : file_ok s x;
  do_dinode : dinode_ok (ip_di x);
  do_inum : 0 <= ip_inum x < sb_ninodes (fs_sb s);
  do_geo : geometry s;
  do_meta : meta_used s;
  do_bitmap : sb_size (fs_sb s) <= BPB
}.

Lemma dir_ok_quiet s s' dp x : dir_ok s dp x -> quiet base s s' -> zget (fs_itable s') dp = Some x -> dir_ok s' dp x.
Proof using Type.
  intros [_ _ Href Hty Hsz Hw Hok Hdk Hin Hg Hm Hbm] Hq Hx. destruct (quiet_sb base _ _ Hq) as (Es & _ & El).
  pose proof (fun n => quiet_content base s s' n Hq) as Hc.
  assert (Hu : forall b, used s' b = used s b) by (intros b; unfold used, bmap_block; by rewrite Es, Hc).
  assert (Ha : forall bn, file_addr s' x bn = file_addr s x bn) by (intros bn; unfold file_addr; by rewrite Hc).
  split; rewrite ?Es; try done.
  - apply Hq.
  - destruct Hw as [H1 H2]. split; [done|]. intros bn. rewrite Ha. apply H2.
  - apply (file_ok_same s); [done|apply Hg|intros; apply Hu|done|done].
  - unfold geometry. by rewrite El, Es.
  - intros b. rewrite Es, Hu. apply Hm.
Qed.

Lemma op_room_reads s s' : reads s s' -> nfree s' = nfree s -> op_room base s -> op_room base s'.
Proof using Type.
  intros (_ & El & _) Hf [H1 H2 H3 H4]. split; rewrite ?El; try done. unfold bufs, pinned in *. by rewrite El, Hf.
Qed.

Lemma op_room_itable s t : op_room base s -> op_room base (with_itable t s).
Proof using Type. intros [H1 H2 H3 H4]. by split. Qed.

Lemma op_room_free s (x : inode) : ready [] s -> op_room base s -> sb_size (fs_sb s) <= BPB -> 0 < nfree s.
Proof using Type.
  intros Hr Ho Hs. destruct (write_set_ok base s x Hr Ho Hs) as (Hres & _). eapply res_free; [done|exact Hres| |simpl; lia].
  unfold ind_cost. case_decide; lia.
Qed.

(** The name is there: the reference that [dirlookup] took is given back. *)
Lemma dirlink_present s dp x t1 s1 k ip (Q : Z -> fs C U -> Prop) : zget (fs_itable s) dp = Some x -> 0 < ip_ref x ->
  iget_post (fs_itable s) t1 (ip_dev x) k ip -> ready [] s1 -> reads s s1 -> nfree s1 = nfree s ->
  (forall s', quiet base s s' -> iview s' = iview s -> zget (fs_itable s') dp = Some x -> Q (-1) s') ->
  wpn (iput ip ;;; ret (-1)) (with_itable t1 s1) Q.
Proof using Type.
  intros Hx Href (y & Hy & Hp) Hr Hrd Hf HQ.
  pose proof (quiet_trans base _ _ _ (quiet_reads base s s1 Hr Hf Hrd) (quiet_itable base s1 t1 Hr)) as Hq.
  destruct Hp as [[[Hpos _] ->]|(Hz & _ & ->)]; (apply wpn_bind; eapply (iput_run base);
    [apply Hq|by eapply zget_zset_same|cbn; lia|]; intros s' Hq' Et; apply wpn_ret, HQ; [by eapply quiet_trans| |]);
    unfold iview; rewrite Et; cbn [fs_itable with_itable]; rewrite zset_zset.
  - rewrite zset_id; [done|]. rewrite Hy. f_equal. destruct y. unfold set_ref. cbn. f_equal. lia.
  - rewrite zset_id; [done|]. rewrite Hy. f_equal. destruct y. unfold set_ref. cbn. f_equal. lia.
  - etransitivity; [by eapply iview_zset|]. fold (iview s). apply zset_id. rewrite (zget_iview _ _ y) by done. f_equal. unfold islot. by rewrite Hz.
  - rewrite zget_zset_ne; [done|]. intros <-. rewrite Hx in Hy. injection Hy as <-. lia.
Qed.

(** The other inodes, and the blocks of other files, are as they were. *)
Definition others_kept (s : fs C U) (x : inode) (s' : fs C U) : Prop :=
  (forall i, 0 <= i < sb_ninodes (fs_sb s) -> i <> ip_inum x -> disk_inode s' i = disk_inode s i) /\
  forall m, in_data s m -> used s m = true -> not_of s x m -> content s' m = content s m.

Lemma others_quiet s x s' : quiet base s s' -> others_kept s x s'.
Proof using Type. intros Hq. split; intros; [by apply (quiet_inode base)|by apply (quiet_content base)]. Qed.

Lemma others_write s s1 x ip off bs tot s' x' : quiet base s s1 -> writei_post ip s1 x off bs tot s' x' -> others_kept s x s'.
Proof using Type.
  intros Hq Hp. destruct (quiet_sb base _ _ Hq) as (Esb & _). split.
  - intros i Hi Hne. rewrite (wi_others _ _ _ _ _ _ _ _ Hp) by (by rewrite ?Esb). by apply (quiet_inode base).
  - intros m Hm Hu [H1 H2]. rewrite (wi_frame _ _ _ _ _ _ _ _ Hp); [by apply (quiet_content base)| | |].
    + unfold in_data in *. by rewrite Esb.
    + rewrite <- Hu. unfold used, bmap_block. by rewrite Esb, (quiet_content base s).
    + split; [done|]. intros bn Hbn. specialize (H2 bn Hbn). unfold file_addr in *. by rewrite (quiet_content base s).
Qed.

(** What [dirlink] has done to the directory [x], which is now [x']. *)
Definition dirlink_post (s : fs C U) (dp : Z) (x : inode) (name : list Z) (inum r : Z) (s' : fs C U) (x' : inode) : Prop :=
  others_kept s x s' /\
  match dir_lookup s x name with
  | Some _ => r = -1 /\ quiet base s s' /\ iview s' = iview s /\ x' = x
  | None =>
    r = 0 /\ disk_inode s' (ip_inum x) = ip_di x' /\
      (forall name', dir_lookup s' x' name' = if decide (key name' = key name) then Some inum else dir_lookup s x name') \/
    r = -1 /\ (full s' \/ di_size (ip_di x) = MAXFILE * BSIZE) /\ forall name', dir_lookup s' x' name' = dir_lookup s x name'
  end.

(** The invariant of the directory after a write of whole entries. *)
Lemma dir_ok_write s s' dp x x' i bs k : dir_ok s dp x -> ready [] s' -> 0 <= k -> 0 <= i <= dir_size x -> (i + k) * DIRENT <= MAXFILE * BSIZE ->
  writei_post dp s x (i * DIRENT) bs (k * DIRENT) s' x' -> dir_ok s' dp x' /\ dir_size x' = Z.max (dir_size x) (i + k).
Proof using Type.
  intros Hd Hr Hk Hi Hend Hp. pose proof (do_size _ _ _ Hd) as Hsz. assert (HD : DIRENT = 16) by done.
  destruct (wi_inode _ _ _ _ _ _ _ _ Hp) as [l Hl]. pose proof (wi_rest _ _ _ _ _ _ _ _ Hp) as R.
  unfold rest in R. injection R as Esb Eit _ _.
  assert (Hs' : di_size (ip_di x') = Z.max (dir_size x) (i + k) * DIRENT) by (rewrite Hl; cbn [ip_di grow_inode with_size di_size]; lia).
  assert (Hz : dir_size x' = Z.max (dir_size x) (i + k)) by (unfold dir_size at 1; rewrite Hs'; by rewrite Z.div_mul).
  split; [|done]. pose proof (wi_geo _ _ _ _ _ _ _ _ Hp) as Hg. destruct (wi_ok _ _ _ _ _ _ _ _ Hp) as [Hok Hm].
  pose proof (wi_whole _ _ _ _ _ _ _ _ Hp (do_whole _ _ _ Hd)) as Hw. pose proof (file_ok_addrs s' x' Hg Hok) as Ha.
  destruct Hd as [_ He Href Hty _ _ _ Hdk Hin _ _ Hbm]. split; rewrite ?Esb; try done.
  - rewrite Eit. by eapply zget_zset_same.
  - by rewrite Hl.
  - by rewrite Hl.
  - by rewrite Hz.
  - destruct Hdk. rewrite Hl in *. split; try done; [|by apply (fo_len _ _ Hok)|intros a Hin'; specialize (Ha a Hin'); lia].
    destruct Hw as [Hw _]. change (MAXFILE * BSIZE) with 274432 in Hw. lia.
  - by rewrite Hl.
Qed.

Lemma slot_in_block i : 0 <= i -> (i * DIRENT) mod BSIZE + DIRENT <= BSIZE.
Proof using Type.
  clear. intros Hi. change BSIZE with (64 * DIRENT). rewrite Zmult_mod_distr_r. pose proof (Z.mod_pos_bound i 64 ltac:(done)).
  unfold DIRENT in *. lia.
Qed.

(** The write of the entry. *)
Lemma dirlink_write s s1 dp x name inum i : dir_ok s dp x -> op_room base s -> 0 < inum < 2 ^ 16 -> dir_lookup s x name = None ->
  free_slot s x i -> ready [] s1 -> reads s s1 -> nfree s1 = nfree s ->
  wpn (let* w := writei ucopyin dp (SKernel (dirent_bytes inum name)) (i * DIRENT) DIRENT in
       if negb (w =? DIRENT) then ret (-1) else ret 0) s1
    (fun r s' => exists x', dir_ok s' dp x' /\ dirlink_post s dp x name inum r s' x').
Proof using HL Hbase.
  intros Hd Hroom Hin Hnone (Hi & Hfree & _) Hr Hrd Hf. destruct (itable_reads s s1 Hrd) as [Et _].
  assert (Hd1 : dir_ok s1 dp x) by (apply (dir_ok_quiet s); [done|by apply quiet_reads|rewrite Et; apply Hd]).
  pose proof (op_room_reads s s1 Hrd Hf Hroom) as Hroom1. pose proof (do_size _ _ _ Hd) as Hsz.
  assert (HD : DIRENT = 16) by done. assert (HB : BSIZE = 1024) by done. assert (HM : MAXFILE * BSIZE = 274432) by done.
  pose proof (do_whole _ _ _ Hd) as [Hmax _]. pose proof (length_dirent_bytes inum name) as Hlen.
  destruct (Z.leb_spec (i * DIRENT + DIRENT) (MAXFILE * BSIZE)) as [Hfit|Hbig].
  2: { apply wpn_bind. eapply wpn_run with (a := -1) (s' := s1).
       - unfold writei. erewrite bind_Done by (unfold ip_get, bind, get, of_option; by rewrite (do_entry _ _ _ Hd1)).
         rewrite (proj2 (Z.ltb_lt _ _) Hbig). by destruct (_ || _).
       - apply wpn_ret. exists x. split; [done|]. split; [by apply others_quiet, quiet_reads|]. rewrite Hnone. right. split; [done|]. split; [right; lia|].
         intros name'. by apply dir_lookup_reads. }
  set (bs := dirent_bytes inum name) in *.
  destruct (wpn_done (writei ucopyin dp (SKernel bs) (i * DIRENT) (Z.of_nat (length bs))) s1
    (fun tot s' => exists x', ready [] s' /\ writei_post dp s1 x (i * DIRENT) bs tot s' x')) as (tot & s' & t & E & x' & Hr' & Hp).
  { destruct Hd1. apply (writei_run ucopyin base Hbase s1 dp x); try done; [lia|lia|lia|]. eauto. }
  assert (Ht : tot = 0 * DIRENT \/ tot = 1 * DIRENT).
  { pose proof (wi_len _ _ _ _ _ _ _ _ Hp). apply writei_block in E; [lia|lia|]. rewrite Hlen. apply slot_in_block. lia. }
  apply wpn_bind. rewrite Hlen in E. eapply wpn_run; [exact E|].
  assert (Hk : forall j, 0 <= j < dir_size x -> tot = 0 \/ j <> i -> dirent_at s' x' j = dirent_at s x j).
  { intros j Hj Hne. unfold dirent_at. rewrite <- (file_bytes_reads s s1 x (j * DIRENT)) by done. eapply file_bytes_kept; [exact Hp|apply Hd1|lia|lia|].
    destruct Ht; lia. }
  destruct Ht as [->| ->]; (edestruct (dir_ok_write s1 s' dp x x') as [Hd' Hs']; [done|done| | | |exact Hp|]; [lia|lia|lia|]);
    apply wpn_ret; exists x'; (split; [done|]);
    (split; [eapply others_write; [apply (quiet_reads base s s1 Hr Hf Hrd)|exact Hp]|]); rewrite Hnone.
  - right. split; [done|]. split; [left; apply (wi_short _ _ _ _ _ _ _ _ Hp); lia|]. intros name'.
    assert (Hk' : forall j, 0 <= j < dir_size x -> dirent_at s' x' j = dirent_at s x j) by (intros j Hj; apply Hk; [done|by left]).
    apply dir_lookup_ext; [lia|intros j Hj; unfold named; by rewrite Hk'|auto|lia].
  - left. split; [done|]. split; [apply (wi_disk _ _ _ _ _ _ _ _ Hp)|].
    apply (dir_lookup_insert s s' x x' name inum i); try done.
    2: { intros j Hj Hne. apply Hk; [done|by right]. }
    unfold dirent_at. rewrite (file_bytes_written dp s1 x (i * DIRENT) bs DIRENT s' x'); [by rewrite take_ge by lia|lia|lia|done|apply Hd'].
Qed.

(** C17: [dirlink] inserts into the map of the directory.  In a transaction, on a locked directory:
    when the name is there already it fails, with nothing changed and no reference kept;
    otherwise, unless the disk or the directory is full, afterwards a lookup of the name
    gives the new inode number and lookups of other names are as before, in memory and on the disk; when
    it fails, all lookups are as before.  In each case the directory is in order again and other inodes and
    the blocks of other files have not changed. *)
Theorem dirlink_correct s dp x name inum (Hd : dir_ok s dp x) (Hop : op_room base s) (Hin : 0 < inum < 2 ^ 16)
  (Hroom : forall j, 0 <= j < dir_size x -> iget_room (fs_itable s) (ip_dev x) (de_inum (dirent_at s x j))) :
  exists r s' x' t, dirlink ucopyout ucopyin dp name inum s = Done r s' t /\ dir_ok s' dp x' /\
    dirlink_post s dp x name inum r s' x'.
Proof using HL Hbase.
  enough (wpn (dirlink ucopyout ucopyin dp name inum) s (fun r s' => exists x', dir_ok s' dp x' /\ dirlink_post s dp x name inum r s' x')) as Hw
    by (apply wpn_done in Hw as (r & s' & t & E & x' & Hd' & Hp); by exists r, s', x', t).
  pose proof Hd as [Hr He Href Hty Hsz Hwh _ _ _ _ _ Hbm]. pose proof (op_room_free s x Hr Hop Hbm) as Hf.
  assert (Hs0 : 0 <= dir_size x) by (destruct Hwh as [[? _] _]; by apply Z.div_pos).
  unfold dirlink. apply wpn_bind. eapply wpn_mono; [by apply (dirlookup_run ucopyout base Hbase s dp x name (dir_size x))|].
  intros [[ip off]|] s1.
  - intros (i & t1 & s2 & Hi & _ & Hn & Hno & Hg & -> & Hr2 & Hrd2 & Hf2). eapply dirlink_present; [done..|].
    intros s' Hq Hv Hx'. exists x. split; [by eapply dir_ok_quiet|]. split; [by apply others_quiet|].
    by rewrite (dir_lookup_first s x name i).
  - intros (Hno & Hr1 & Hrd1 & Hf1). destruct (itable_reads s s1 Hrd1) as [Et _]. apply wpn_bind, (wpn_ip_get _ _ x); [by rewrite Et|].
    apply wpn_bind. eapply wpn_mono; [apply (find_dirent_run _ s s1 dp x 0); try done; [change (di_size (ip_di x) / DIRENT) with (dir_size x); lia|intros; lia]|].
    intros off s2 (i & -> & Hslot & Hr2 & Hrd2 & Hf2). apply dirlink_write; try done. by apply dir_lookup_none.
Qed.
End link.

(** ** An empty directory on the disk of FsWritei.v *)

#[local] Instance link_cache : BlockCache bcache := bio_cache 1.
#[local] Instance link_laws : BlockCacheLaws bcache := bio_laws 1.

Definition demo_dirnode : inode := Inode 1 1 1 (Sleeplock 0 0) 1 (Dinode T_DIR 0 0 1 0 (replicate 13 0)).
Definition demo_lfs : fs bcache unit := with_itable [demo_dirnode] demo_wfs.

Lemma demo_dir_ok : dir_ok (fun _ => 0) demo_lfs 0 demo_dirnode.
Proof.
  destruct demo_wfs_ready as (Hr & _). destruct demo_file_ok as (Hok & Hw & Hdk).
  split; [by apply (quiet_itable (fun _ => 0))|done|done|done|done| | | |done|exact demo_geometry|exact demo_meta_used|done].
  - destruct Hw. by split.
  - destruct Hok. by split.
  - destruct Hdk. by split.
Qed.

Lemma demo_link_room : op_room (fun _ => 0) demo_lfs.
Proof. apply op_room_itable, demo_op_room. Qed.

Lemma dirlink_correct_witness :
  exists r s' x' t, dirlink (fun (u : unit) (_ : Z) (_ : list Z) => (0, u)) (fun (_ : unit) (_ _ : Z) => (0, [])) 0 (bytes "a") 7 demo_lfs = Done r s' t /\
    dir_ok (fun _ => 0) s' 0 x' /\ dirlink_post (fun _ => 0) demo_lfs 0 demo_dirnode (bytes "a") 7 r s' x'.
Proof.
  apply (dirlink_correct (fun (u : unit) (_ : Z) (_ : list Z) => (0, u)) (fun (_ : unit) (_ _ : Z) => (0, [])) (fun _ => 0) ltac:(intros; lia)
    demo_lfs 0 demo_dirnode (bytes "a") 7 demo_dir_ok demo_link_room).
  - lia.
  - intros j Hj. change (dir_size demo_dirnode) with 0 in Hj. lia.
Defined.
