(* ===== verification/Mkfs.v ===== *)
(** * mkfs/mkfs.c: the program that builds the file system image

    The state is the image, as the blocks of the file [fsfd] and their number, and the two
    counters.  The files to store are arguments: the path, and [None] when [open] fails or
    the pieces successive calls of [read] return.  [None] as a result is a failed [assert]
    or [die].  Fields of structures are stored in little-endian order, which is what
    [xshort] and [xint] arrange; a structure in memory is the tuple of its fields. *)

From Stdlib Require Import ZArith Lia.
From stdpp Require Import base list strings numbers option.
From S2P Require Import Prelude Blocks Log Fs.

Definition NINODES : Z := 200.
Definition FSSIZE : Z := 2000.

(** The value with the four (two) low bytes of [x], byte by byte. *)
Definition xshort (x : Z) : Z := x mod 256 + 256 * (Z.shiftr x 8 mod 256).
Definition xint (x : Z) : Z :=
  x mod 256 + 256 * (Z.shiftr x 8 mod 256) + 65536 * (Z.shiftr x 16 mod 256) + 16777216 * (Z.shiftr x 24 mod 256).

Definition nbitmap : Z := FSSIZE / BPB + 1.
Definition ninodeblocks : Z := NINODES / IPB + 1.
Definition nlog : Z := LOGSIZE.
Definition mk_nmeta : Z := 2 + nlog + ninodeblocks + nbitmap.
Definition nblocks : Z := FSSIZE - mk_nmeta.

(** The global [sb] that [main] fills. *)
Definition mk_sb : superblock :=
  Superblock FSMAGIC (xint FSSIZE) (xint nblocks) (xint NINODES) (xint nlog) (xint 2) (xint (2 + nlog))
    (xint (2 + nlog + ninodeblocks)).

Record mkfs := Mkfs {
  img : Z -> block;
  img_size : Z;
  freeinode : Z;
  freeblock : Z
}.

(** ** Sectors and inodes *)

Definition img_put (f : Z -> block) (sec : Z) (d : block) : Z -> block := fun n => if n =? sec then d else f n.

Definition wsect (sec : Z) (buf : block) (s : mkfs) : mkfs :=
  Mkfs (img_put (img s) sec buf) (Z.max (img_size s) (sec + 1)) (freeinode s) (freeblock s).
(** A read past the end of the file is short. *)
Definition rsect (sec : Z) (s : mkfs) : option block :=
  if (0 <=? sec) && (sec <? img_size s) then Some (img s sec) else None.

Definition winode (inum : Z) (di : dinode) (s : mkfs) : option mkfs :=
  let bn := IBLOCK inum mk_sb in
  buf ← rsect bn s;
  Some (wsect bn (set_dinode buf (inum mod IPB * DINODE) di) s).
Definition rinode (inum : Z) (s : mkfs) : option dinode :=
  let bn := IBLOCK inum mk_sb in
  buf ← rsect bn s;
  Some (get_dinode buf (inum mod IPB * DINODE)).

Definition mk_ialloc (type : Z) (s : mkfs) : option (Z * mkfs) :=
  let inum := freeinode s in
  let s := Mkfs (img s) (img_size s) (u32 (freeinode s + 1)) (freeblock s) in
  let din := Dinode (xshort type) 0 0 (xshort 1) (xint 0) (replicate 13 0) in
  s ← winode inum din s;
  Some (inum, s).

(** [freeblock++]. *)
Definition take_block (s : mkfs) : Z * mkfs :=
  (xint (freeblock s), Mkfs (img s) (img_size s) (freeinode s) (u32 (freeblock s + 1))).

(** The bitmap with the first [used] bits set. *)
Definition mk_balloc (used : Z) (s : mkfs) : option mkfs :=
  if used <? BPB then
    let buf := foldl (fun buf i => zset buf (i / 8) (Z.lor (byte_at buf (i / 8)) (Z.shiftl 1 (i mod 8)))) zero_block (seqZ 0 used) in
    Some (wsect (sb_bmapstart mk_sb) buf s)
  else None.

(** ** Appending to a file *)

(** The block for block [fbn] of the file, allocated when there is none yet: the new [din],
    the block number [x] and the state. *)
Definition iappend_block (fbn : Z) (din : dinode) (s : mkfs) : option (dinode * Z * mkfs) :=
  if fbn <? NDIRECT then
    a ← zget (di_addrs din) fbn;
    let '(din, s) :=
      if xint a =? 0 then
        let '(b, s) := take_block s in (with_addrs (zset (di_addrs din) fbn b) din, s)
      else (din, s) in
    a ← zget (di_addrs din) fbn;
    Some (din, xint a, s)
  else
    a ← zget (di_addrs din) NDIRECT;
    let '(din, s) :=
      if xint a =? 0 then
        let '(b, s) := take_block s in (with_addrs (zset (di_addrs din) NDIRECT b) din, s)
      else (din, s) in
    ind ← zget (di_addrs din) NDIRECT;
    indirect ← rsect (xint ind) s;
    let '(indirect, s) :=
      if get32 indirect (4 * (fbn - NDIRECT)) =? 0 then
        let '(b, s) := take_block s in
        let indirect := set32 indirect (4 * (fbn - NDIRECT)) b in
        (indirect, wsect (xint ind) indirect s)
      else (indirect, s) in
    Some (din, xint (get32 indirect (4 * (fbn - NDIRECT))), s).

(** The loop; [p] is the rest of the bytes. *)
Fixpoint iappend_loop (fuel : nat) (p : list Z) (off : Z) (din : dinode) (s : mkfs) : option (Z * dinode * mkfs) :=
  match fuel with
  | O => None
  | S fuel' =>
    let n := Z.of_nat (length p) in
    if 0 <? n then
      let fbn := off / BSIZE in
      if fbn <? MAXFILE then
        '(din, x, s) ← iappend_block fbn din s;
        let n1 := Z.min n ((fbn + 1) * BSIZE - off) in
        buf ← rsect x s;
        let buf := put_bytes buf (off - fbn * BSIZE) (take (Z.to_nat n1) p) in
        let s := wsect x buf s in
        iappend_loop fuel' (drop (Z.to_nat n1) p) (u32 (off + n1)) din s
      else None
    else Some (off, din, s)
  end.

Definition iappend (inum : Z) (p : list Z) (s : mkfs) : option mkfs :=
  din ← rinode inum s;
  '(off, din, s) ← iappend_loop (S (length p)) p (xint (di_size din)) din s;
  winode inum (with_size (xint off) din) s.

(** ** [main] *)

(** The image of zeroes and the superblock. *)
Definition sb_block (sb : superblock) : block :=
  set32 (set32 (set32 (set32 (set32 (set32 (set32 (set32 zero_block 0 (sb_magic sb)) 4 (sb_size sb)) 8 (sb_nblocks sb))
    12 (sb_ninodes sb)) 16 (sb_nlog sb)) 20 (sb_logstart sb)) 24 (sb_inodestart sb)) 28 (sb_bmapstart sb).
Definition zero_image : mkfs := foldl (fun s i => wsect i zero_block s) (Mkfs (fun _ => []) 0 1 mk_nmeta) (seqZ 0 FSSIZE).
Definition mk_start : mkfs := wsect 1 (sb_block mk_sb) zero_image.

(** [strncmp(argv[i], "user/", 5) == 0], the slash test and the leading underscore. *)
Definition shortname (path : list Z) : option (list Z) :=
  let name := if strncmp_list 5 path [117; 115; 101; 114; 47] =? 0 then drop 5 path else path in
  if decide (47 ∈ name) then None
  else
    let name := if str_at name 0 =? 95 then drop 1 name else name in
    if Z.of_nat (length name) <=? DIRSIZ then Some name else None.

Fixpoint append_pieces (inum : Z) (pieces : list (list Z)) (s : mkfs) : option mkfs :=
  match pieces with
  | [] => Some s
  | p :: pieces' => s ← iappend inum p s; append_pieces inum pieces' s
  end.

Definition add_file (rootino : Z) (s : mkfs) (f : list Z * option (list (list Z))) : option mkfs :=
  let '(path, contents) := f in
  pieces ← contents;
  name ← shortname path;
  '(inum, s) ← mk_ialloc T_FILE s;
  s ← iappend rootino (dirent_bytes (xshort inum) name) s;
  append_pieces inum pieces s.
Fixpoint add_files (rootino : Z) (fs : list (list Z * option (list (list Z)))) (s : mkfs) : option mkfs :=
  match fs with
  | [] => Some s
  | f :: fs' => s ← add_file rootino s f; add_files rootino fs' s
  end.

(** The end of [main]: the size of the root directory is rounded up. *)
Definition fix_root (rootino : Z) (s : mkfs) : option mkfs :=
  din ← rinode rootino s;
  let off := xint (di_size din) in
  let off := u32 ((off / BSIZE + 1) * BSIZE) in
  winode rootino (with_size (xint off) din) s.

Definition mkfs_main (fs : list (list Z * option (list (list Z)))) : option mkfs :=
  '(rootino, s) ← mk_ialloc T_DIR mk_start;
  if rootino =? ROOTINO then
    s ← iappend rootino (dirent_bytes (xshort rootino) [46]) s;
    s ← iappend rootino (dirent_bytes (xshort rootino) [46; 46]) s;
    s ← add_files rootino fs s;
    s ← fix_root rootino s;
    mk_balloc (freeblock s) s
  else None.
