(* ===== verification/MkfsProofs.v ===== *)
(** * mkfs/mkfs.c: the image it builds

    The abstract state of the program is a function from inode numbers to byte sequences:
    [mk_ialloc] adds an empty one and [iappend] appends to one ([iappend_refines]).  The
    relation between it and the image says that every block of every file, and every
    indirect block, is used once, lies between the metadata and [freeblock], and that the
    blocks from [freeblock] on are zero.  [mkfs_image] is about the finished image, as the
    kernel finds it. *)

From Stdlib Require Import ZArith Lia.
From stdpp Require Import base list strings numbers option.
From S2P Require Import Prelude Blocks BlockCache Log LogProofs Fs FsBase FsRead FsAlloc FsWrite Bio BioProofs Mkfs.

Lemma u8_shift x k : 0 <= k -> Z.shiftr x k mod 256 = (x / 2 ^ k) mod 256.
Proof. intros. by rewrite Z.shiftr_div_pow2. Qed.

Lemma xint_id x : 0 <= x < 2 ^ 32 -> xint x = x.
Proof.
  intros Hx. unfold xint. rewrite !u8_shift by lia.
  change (2 ^ 8) with 256. change (2 ^ 16) with (256 * 256). change (2 ^ 24) with (256 * 256 * 256). rewrite <- !Z.div_div by lia.
  set (a := x / 256). set (b := a / 256). set (c := b / 256).
  pose proof (Z.div_mod x 256 ltac:(lia)). pose proof (Z.div_mod a 256 ltac:(lia)). pose proof (Z.div_mod b 256 ltac:(lia)).
  assert (0 <= c < 256).
  { unfold c, b, a. rewrite !Z.div_div by lia. split; [apply Z.div_pos; lia|apply Z.div_lt_upper_bound; lia]. }
  rewrite (Z.mod_small c) by done. lia.
Qed.

Lemma xshort_id x : 0 <= x < 2 ^ 16 -> xshort x = x.
Proof.
  intros Hx. unfold xshort. rewrite u8_shift by lia. change (2 ^ 8) with 256. pose proof (Z.div_mod x 256 ltac:(lia)).
  rewrite (Z.mod_small (x / 256)); [lia|]. split; [apply Z.div_pos; lia|apply Z.div_lt_upper_bound; lia].
Qed.

(** ** The blocks of the files *)

Definition addr (di : dinode) (i : Z) : Z := default 0 (zget (di_addrs di) i).

(** Slot [k] of an inode: a block of the file, or for [k = MAXFILE] the indirect block. *)
Definition slot (f : Z -> block) (di : dinode) (k : Z) : Z :=
  if k <? NDIRECT then addr di k
  else if k =? MAXFILE then addr di NDIRECT
  else if addr di NDIRECT =? 0 then 0
  else get32 (f (addr di NDIRECT)) (4 * (k - NDIRECT)).

Definition has (nb : Z -> Z) (hi : Z -> bool) (i k : Z) : Prop := if k =? MAXFILE then hi i = true else k < nb i.

#[export] Instance has_dec nb hi i k : Decision (has nb hi i k).
Proof. unfold has. destruct (k =? MAXFILE); apply _. Defined.

Definition nmeta0 : Z := 46.

(** The files of the inodes below [ni] are [A]; inode [i] has [nb i] blocks, and an indirect
    block when [hi i]; the rest of the last block is zero. *)
Record data (ni fb : Z) (f : Z -> block) (dn : Z -> dinode) (nb : Z -> Z) (hi : Z -> bool) (A : Z -> list Z) : Prop := {
  d_block n : 0 <= n < FSSIZE -> block_ok (f n);
  d_fb : nmeta0 <= fb <= FSSIZE;
  d_zero n : fb <= n < FSSIZE -> f n = zero_block;
  d_len i : 1 <= i < ni -> length (di_addrs (dn i)) = 13%nat;
  d_slot i k : 1 <= i < ni -> 0 <= k <= MAXFILE ->
    if decide (has nb hi i k) then nmeta0 <= slot f (dn i) k < fb else slot f (dn i) k = 0;
  d_inj i j k k' : 1 <= i < ni -> 1 <= j < ni -> 0 <= k <= MAXFILE -> 0 <= k' <= MAXFILE ->
    slot f (dn i) k = slot f (dn j) k' -> slot f (dn i) k <> 0 -> i = j /\ k = k';
  d_nb i : 1 <= i < ni -> 0 <= nb i <= MAXFILE /\ Z.of_nat (length (A i)) <= nb i * BSIZE /\ (NDIRECT < nb i -> hi i = true);
  d_byte i p : 1 <= i < ni -> 0 <= p < nb i * BSIZE ->
    byte_at (f (slot f (dn i) (p / BSIZE))) (p mod BSIZE) = byte_at (A i) p
}.

Definition fupd {A} (g : Z -> A) (i : Z) (x : A) : Z -> A := fun j => if j =? i then x else g j.

Lemma fupd_eq {A} (g : Z -> A) i x : fupd g i x i = x.
Proof. unfold fupd. by rewrite Z.eqb_refl. Qed.
Lemma fupd_ne {A} (g : Z -> A) i j x : j <> i -> fupd g i x j = g j.
Proof. intros. unfold fupd. by rewrite (proj2 (Z.eqb_neq _ _)). Qed.

Lemma byte_at_zero_block off : byte_at zero_block off = 0.
Proof.
  unfold byte_at, zget, zero_block. case_match; [|done].
  destruct (replicate _ 0 !! _) as [x|] eqn:E; [|done]. apply lookup_replicate in E as [-> _]. done.
Qed.

Lemma byte_at_ge (l : list Z) p : Z.of_nat (length l) <= p -> byte_at l p = 0.
Proof. intros Hp. unfold byte_at, zget. case_match; [|done]. by rewrite lookup_ge_None_2 by lia. Qed.

Lemma has_data nb hi i k : 0 <= k < MAXFILE -> has nb hi i k <-> k < nb i.
Proof. intros Hk. unfold has. rewrite (proj2 (Z.eqb_neq _ _)) by lia. done. Qed.

Section data.
Context (ni fb : Z) (f : Z -> block) (dn : Z -> dinode) (nb : Z -> Z) (hi : Z -> bool) (A : Z -> list Z).
Context (H : data ni fb f dn nb hi A).

Lemma d_has i k : 1 <= i < ni -> 0 <= k <= MAXFILE -> has nb hi i k -> nmeta0 <= slot f (dn i) k < fb.
Proof using H. intros Hi Hk Hh. pose proof (d_slot _ _ _ _ _ _ _ H i k Hi Hk) as E. by rewrite decide_True in E. Qed.

Lemma d_hasnt i k : 1 <= i < ni -> 0 <= k <= MAXFILE -> ~ has nb hi i k -> slot f (dn i) k = 0.
Proof using H. intros Hi Hk Hh. pose proof (d_slot _ _ _ _ _ _ _ H i k Hi Hk) as E. by rewrite decide_False in E. Qed.

Lemma d_has_iff i k : 1 <= i < ni -> 0 <= k <= MAXFILE -> slot f (dn i) k <> 0 <-> has nb hi i k.
Proof using H.
  intros Hi Hk. destruct (decide (has nb hi i k)) as [Hh|Hh].
  - pose proof (d_has i k Hi Hk Hh). unfold nmeta0 in *. split; [done|lia].
  - pose proof (d_hasnt i k Hi Hk Hh). split; [done|]. by intros ?.
Qed.

(** A slot is given block [fb]; besides the inode, at most its indirect block changes. *)
Lemma data_alloc f' dn' nb' hi' i0 k0 :
  1 <= i0 < ni -> 0 <= k0 <= MAXFILE -> ~ has nb hi i0 k0 -> fb < FSSIZE ->
  (forall n, 0 <= n < FSSIZE -> f' n = f n \/ hi i0 = true /\ n = slot f (dn i0) MAXFILE /\ block_ok (f' n)) ->
  (forall i, 1 <= i < ni -> length (di_addrs (dn' i)) = 13%nat) ->
  (forall i k, 1 <= i < ni -> 0 <= k <= MAXFILE ->
     slot f' (dn' i) k = if decide (i = i0 /\ k = k0) then fb else slot f (dn i) k) ->
  (forall i k, 1 <= i < ni -> 0 <= k <= MAXFILE -> has nb' hi' i k <-> has nb hi i k \/ (i = i0 /\ k = k0)) ->
  (forall i, 1 <= i < ni -> nb i <= nb' i <= MAXFILE /\ (NDIRECT < nb' i -> hi' i = true)) ->
  data ni (fb + 1) f' dn' nb' hi' A.
Proof using H.
  intros Hi0 Hk0 Hnh Hfb Hf Hlen Hs Hh Hnb.
  pose proof (d_fb _ _ _ _ _ _ _ H) as Hfb'. unfold nmeta0 in *.
  assert (Hother : forall n, 0 <= n < FSSIZE -> (hi i0 = true -> n <> slot f (dn i0) MAXFILE) -> f' n = f n).
  { intros n Hn Hne. destruct (Hf n Hn) as [?|(? & ? & _)]; [done|]. by exfalso; apply Hne. }
  assert (Hind : hi i0 = true -> nmeta0 <= slot f (dn i0) MAXFILE < fb).
  { intros E. apply d_has; [done|unfold MAXFILE; split; [done|lia]|]. unfold has. by rewrite Z.eqb_refl. }
  split.
  - intros n Hn. destruct (Hf n Hn) as [->|(_ & _ & ?)]; [by apply (d_block _ _ _ _ _ _ _ H)|done].
  - unfold nmeta0. lia.
  - intros n Hn. rewrite Hother; [apply (d_zero _ _ _ _ _ _ _ H); lia|lia|]. intros E. specialize (Hind E). lia.
  - done.
  - intros i k Hi Hk. rewrite Hs by done. pose proof (Hh i k Hi Hk) as Hhk.
    destruct (decide (i = i0 /\ k = k0)) as [He|He].
    + rewrite decide_True by tauto. unfold nmeta0. lia.
    + pose proof (d_slot _ _ _ _ _ _ _ H i k Hi Hk) as Hd. destruct (decide (has nb hi i k)).
      * rewrite decide_True by tauto. lia.
      * rewrite decide_False by tauto. done.
  - intros i j k k' Hi Hj Hk Hk'. rewrite !Hs by done.
    assert (Hlt : forall i k, 1 <= i < ni -> 0 <= k <= MAXFILE -> slot f (dn i) k <> fb).
    { intros i' k1 Hi' Hk1. pose proof (d_slot _ _ _ _ _ _ _ H i' k1 Hi' Hk1) as Hd. case_decide; unfold nmeta0 in *; lia. }
    repeat case_decide; intros E Hne; [lia| | |by apply (d_inj _ _ _ _ _ _ _ H)].
    + by exfalso; apply (Hlt j k').
    + by exfalso; apply (Hlt i k).
  - intros i Hi. destruct (Hnb i Hi) as [H1 H2]. destruct (d_nb _ _ _ _ _ _ _ H i Hi) as (H3 & H4 & _).
    unfold BSIZE in *. split_and!; (done || lia).
  - intros i p Hi Hp. destruct (d_nb _ _ _ _ _ _ _ H i Hi) as (H3 & H4 & _). destruct (Hnb i Hi) as [H5 _].
    assert (Hk : 0 <= p / BSIZE < nb' i) by (unfold BSIZE in *; split; [apply Z.div_pos; lia|apply Z.div_lt_upper_bound; lia]).
    assert (Hhas : has nb' hi' i (p / BSIZE)) by (apply has_data; lia). apply Hh in Hhas; [|done|lia]. rewrite Hs by lia.
    destruct (decide (i = i0 /\ p / BSIZE = k0)) as [[-> Ek]|Hne].
    { rewrite Hother; [|lia|intros E; specialize (Hind E); lia]. rewrite (d_zero _ _ _ _ _ _ _ H) by lia.
      rewrite byte_at_zero_block, byte_at_ge; [done|]. rewrite <- Ek, has_data in Hnh by lia.
      pose proof (Z.div_mod p BSIZE ltac:(done)). pose proof (Z.mod_pos_bound p BSIZE ltac:(done)). unfold BSIZE in *. lia. }
    assert (Hhas' : has nb hi i (p / BSIZE)) by tauto. rewrite has_data in Hhas' by lia.
    pose proof (d_has i (p / BSIZE) Hi ltac:(lia) ltac:(apply has_data; lia)) as Hr. unfold nmeta0 in *.
    pose proof (Z.div_mod p BSIZE ltac:(done)). pose proof (Z.mod_pos_bound p BSIZE ltac:(done)).
    rewrite Hother; [apply (d_byte _ _ _ _ _ _ _ H); [done|unfold BSIZE in *; lia]|lia|]. intros E Heq.
    destruct (d_inj _ _ _ _ _ _ _ H i i0 (p / BSIZE) MAXFILE) as [_ ?]; try done; try lia.
Qed.

Lemma slot_direct k : k < NDIRECT -> forall g di, slot g di k = addr di k.
Proof using Type. clear H. intros Hk g di. unfold slot. by rewrite (proj2 (Z.ltb_lt _ _)). Qed.
Lemma slot_ind g di : slot g di MAXFILE = addr di NDIRECT.
Proof using Type. done. Qed.
Lemma slot_entry k : NDIRECT <= k < MAXFILE -> forall g di,
  slot g di k = if addr di NDIRECT =? 0 then 0 else get32 (g (addr di NDIRECT)) (4 * (k - NDIRECT)).
Proof using Type.
  clear H. intros Hk g di. unfold slot. rewrite (proj2 (Z.ltb_ge _ _)) by lia. by rewrite (proj2 (Z.eqb_neq k _)) by lia.
Qed.

Lemma addr_set di k b i : length (di_addrs di) = 13%nat -> 0 <= k < 13 ->
  addr (with_addrs (zset (di_addrs di) k b) di) i = if decide (i = k) then b else addr di i.
Proof using Type.
  clear H. intros Hl Hk. unfold addr. cbn [di_addrs with_addrs]. case_decide as E.
  - subst i. rewrite zget_zset_eq by lia. done.
  - by rewrite zget_zset_ne by done.
Qed.

Definition set_slot (i0 k b : Z) : Z -> dinode := fupd dn i0 (with_addrs (zset (di_addrs (dn i0)) k b) (dn i0)).

Lemma set_slot_len i0 k b i : 1 <= i0 < ni -> 1 <= i < ni -> length (di_addrs (set_slot i0 k b i)) = 13%nat.
Proof using H.
  intros Hi0 Hi. unfold set_slot, fupd. destruct (i =? i0); cbn [di_addrs with_addrs]; rewrite ?length_zset; by apply (d_len _ _ _ _ _ _ _ H).
Qed.

Lemma addr_set_slot i0 k b i j : 1 <= i0 < ni -> 0 <= k < 13 ->
  addr (set_slot i0 k b i) j = if decide (i = i0 /\ j = k) then b else addr (dn i) j.
Proof using H.
  intros Hi0 Hk. unfold set_slot. destruct (decide (i = i0)) as [->|Hne].
  - rewrite fupd_eq, addr_set by (done || by apply (d_len _ _ _ _ _ _ _ H)). repeat case_decide; tauto.
  - rewrite fupd_ne by done. rewrite decide_False by tauto. done.
Qed.

Lemma has_more i0 k0 i k : nb i0 = k0 -> k0 < MAXFILE -> 0 <= k <= MAXFILE ->
  has (fupd nb i0 (k0 + 1)) hi i k <-> has nb hi i k \/ (i = i0 /\ k = k0).
Proof using Type.
  clear H A dn f fb ni. intros Hn Hk0 Hk. unfold has, fupd. destruct (Z.eqb_spec k MAXFILE) as [->|].
  - split; [tauto|]. intros [?|[_ ?]]; [done|lia].
  - destruct (Z.eqb_spec i i0) as [->|]; lia.
Qed.

Lemma nb_more i0 k0 : nb i0 = k0 -> k0 < MAXFILE -> (NDIRECT <= k0 -> hi i0 = true) -> forall i, 1 <= i < ni ->
  nb i <= fupd nb i0 (k0 + 1) i <= MAXFILE /\ (NDIRECT < fupd nb i0 (k0 + 1) i -> hi i = true).
Proof using H.
  intros Hn Hk Hh i Hi. destruct (d_nb _ _ _ _ _ _ _ H i Hi) as (H1 & _ & H3). unfold fupd.
  destruct (Z.eqb_spec i i0) as [->|]; split; (done || lia || (intros; apply Hh; lia)).
Qed.

(** [din.addrs[fbn] = xint(freeblock++)]. *)
Lemma alloc_direct i0 k0 : 1 <= i0 < ni -> nb i0 = k0 -> k0 < NDIRECT -> fb < FSSIZE ->
  data ni (fb + 1) f (set_slot i0 k0 fb) (fupd nb i0 (k0 + 1)) hi A.
Proof using H.
  intros Hi0 Hn Hk Hfb. destruct (d_nb _ _ _ _ _ _ _ H i0 Hi0) as (H1 & _ & H3). assert (HN : NDIRECT = 12) by done. assert (HM : MAXFILE = 268) by done.
  apply (data_alloc f (set_slot i0 k0 fb) _ hi i0 k0); try done; try lia.
  - rewrite has_data by lia. lia.
  - by left.
  - intros i Hi. by apply set_slot_len.
  - intros i k Hi Hki. destruct (Z_lt_le_dec k NDIRECT).
    + rewrite !slot_direct by lia. apply addr_set_slot; [done|lia].
    + rewrite decide_False by lia. unfold slot. rewrite (proj2 (Z.ltb_ge _ _)) by lia.
      rewrite !addr_set_slot, decide_False by (done || lia). done.
  - intros i k Hi Hki. apply has_more; (done || lia).
  - apply nb_more; [done|lia|lia].
Qed.

(** [din.addrs[NDIRECT] = xint(freeblock++)]. *)
Lemma alloc_indirect i0 : 1 <= i0 < ni -> hi i0 = false -> fb < FSSIZE ->
  data ni (fb + 1) f (set_slot i0 NDIRECT fb) nb (fupd hi i0 true) A.
Proof using H.
  intros Hi0 Hh Hfb. assert (HN : NDIRECT = 12) by done. assert (HM : MAXFILE = 268) by done.
  pose proof (d_fb _ _ _ _ _ _ _ H) as Hr. unfold nmeta0 in Hr.
  assert (Hnh : ~ has nb hi i0 MAXFILE) by (unfold has; rewrite Z.eqb_refl; congruence).
  assert (Ha : addr (dn i0) NDIRECT = 0) by (rewrite <- (slot_ind f); apply d_hasnt; (done || lia)).
  apply (data_alloc f (set_slot i0 NDIRECT fb) nb (fupd hi i0 true) i0 MAXFILE); try done; try lia.
  - by left.
  - intros i Hi. by apply set_slot_len.
  - intros i k Hi Hki. destruct (Z_lt_le_dec k NDIRECT); [|destruct (decide (k = MAXFILE)) as [->|]].
    + rewrite !slot_direct by lia. rewrite addr_set_slot, !decide_False by (done || lia). done.
    + rewrite !slot_ind, addr_set_slot by (done || lia). repeat case_decide; tauto.
    + rewrite decide_False by lia. rewrite !slot_entry by lia. rewrite addr_set_slot by (done || lia). case_decide as E; [|done].
      destruct E as [-> _]. rewrite Ha, (proj2 (Z.eqb_neq fb 0)) by lia. cbn [Z.eqb].
      rewrite (d_zero _ _ _ _ _ _ _ H) by lia. apply get_le_zero.
  - intros i k Hi Hki. unfold has, fupd. destruct (Z.eqb_spec k MAXFILE) as [->|]; destruct (Z.eqb_spec i i0) as [->|]; try tauto; split; intros; try tauto; lia.
  - intros i Hi. destruct (d_nb _ _ _ _ _ _ _ H i Hi) as (H1 & _ & H3). split; [lia|]. intros. unfold fupd. destruct (i =? i0); [done|by apply H3].
Qed.

(** [indirect[fbn - NDIRECT] = xint(freeblock++)]. *)
Lemma alloc_entry i0 k0 : 1 <= i0 < ni -> nb i0 = k0 -> NDIRECT <= k0 < MAXFILE -> hi i0 = true -> fb < FSSIZE ->
  let ind := addr (dn i0) NDIRECT in
  data ni (fb + 1) (img_put f ind (set32 (f ind) (4 * (k0 - NDIRECT)) fb)) dn (fupd nb i0 (k0 + 1)) hi A.
Proof using H.
  intros Hi0 Hn Hk Hh Hfb ind. assert (HN : NDIRECT = 12) by done. assert (HM : MAXFILE = 268) by done.
  pose proof (d_fb _ _ _ _ _ _ _ H) as Hr. unfold nmeta0 in Hr. assert (Hmh : has nb hi i0 MAXFILE) by (unfold has; by rewrite Z.eqb_refl).
  assert (Hind : 46 <= ind < fb) by (unfold ind; rewrite <- (slot_ind f); apply d_has; (done || lia)).
  assert (Hbk : block_ok (f ind)) by (apply (d_block _ _ _ _ _ _ _ H); lia).
  apply (data_alloc _ dn (fupd nb i0 (k0 + 1)) hi i0 k0); try done; try lia.
  - rewrite has_data by lia. lia.
  - intros n Hnr. unfold img_put. destruct (Z.eqb_spec n ind) as [->|]; [right|by left]. split_and!; [done|done|by apply block_ok_set_le].
  - apply (d_len _ _ _ _ _ _ _ H).
  - intros i k Hi Hki. destruct (Z_lt_le_dec k NDIRECT); [|destruct (decide (k = MAXFILE)) as [->|]].
    + rewrite !slot_direct by lia. by rewrite decide_False by lia.
    + rewrite !slot_ind. by rewrite decide_False by lia.
    + rewrite !slot_entry by lia. destruct (Z.eqb_spec (addr (dn i) NDIRECT) 0) as [E|E].
      { rewrite decide_False; [done|]. intros [-> _]. fold ind in E. lia. }
      unfold img_put. destruct (Z.eqb_spec (addr (dn i) NDIRECT) ind) as [Eq|Hne].
      * destruct (d_inj _ _ _ _ _ _ _ H i i0 MAXFILE MAXFILE) as [-> _]; try done; try lia. fold ind.
        destruct (decide (k = k0)) as [->|].
        -- rewrite decide_True by done. apply get32_set32_eq; [done|unfold BSIZE; lia|unfold FSSIZE in *; lia].
        -- rewrite decide_False by tauto. apply get_le_set_le_ne. lia.
      * rewrite decide_False; [done|]. intros [-> _]. done.
  - intros i k Hi Hki. apply has_more; (done || lia).
  - apply nb_more; [done|lia|done].
Qed.

Lemma byte_at_app (a l : list Z) p : 0 <= p ->
  byte_at (a ++ l) p = if p <? Z.of_nat (length a) then byte_at a p else byte_at l (p - Z.of_nat (length a)).
Proof using Type.
  clear H. intros Hp. unfold byte_at, zget. rewrite (proj2 (Z.leb_le 0 p)) by lia. destruct (Z.ltb_spec p (Z.of_nat (length a))).
  - by rewrite lookup_app_l by lia.
  - rewrite (proj2 (Z.leb_le 0 (p - _))) by lia. rewrite lookup_app_r by lia. do 2 f_equal. lia.
Qed.

(** The bytes [l] are stored after the end of file [i0], within one block. *)
Lemma data_write i0 l : let off := Z.of_nat (length (A i0)) in let x := slot f (dn i0) (off / BSIZE) in
  1 <= i0 < ni -> off / BSIZE < nb i0 -> off mod BSIZE + Z.of_nat (length l) <= BSIZE ->
  data ni fb (img_put f x (put_bytes (f x) (off mod BSIZE) l)) dn nb hi (fupd A i0 (A i0 ++ l)).
Proof using H.
  intros off x Hi0 Hnb Hl. assert (HM : MAXFILE = 268) by done. assert (HB : BSIZE = 1024) by done.
  destruct (d_nb _ _ _ _ _ _ _ H i0 Hi0) as (Hn & _ & _). pose proof (d_fb _ _ _ _ _ _ _ H) as Hr. unfold nmeta0 in Hr.
  pose proof (Z.mod_pos_bound off BSIZE ltac:(lia)) as Hm. pose proof (Z.div_mod off BSIZE ltac:(lia)) as Hdm.
  assert (Hq : 0 <= off / BSIZE) by (apply Z.div_pos; unfold off; lia).
  assert (Hx : 46 <= x < fb) by (unfold x; apply d_has; [done|lia|apply has_data; lia]).
  assert (Hbk : block_ok (f x)) by (apply (d_block _ _ _ _ _ _ _ H); lia). assert (Hlx : Z.of_nat (length (f x)) = 1024) by (rewrite Hbk; done).
  set (g := img_put f x _). assert (Hg : forall n, n <> x -> g n = f n) by (intros n Hne; unfold g, img_put; by rewrite (proj2 (Z.eqb_neq _ _))).
  assert (Hs : forall i k, 1 <= i < ni -> 0 <= k <= MAXFILE -> slot g (dn i) k = slot f (dn i) k).
  { intros i k Hi Hk. destruct (Z_lt_le_dec k NDIRECT); [by rewrite !slot_direct by lia|].
    destruct (decide (k = MAXFILE)) as [->|]; [done|]. rewrite !slot_entry by lia.
    destruct (Z.eqb_spec (addr (dn i) NDIRECT) 0); [done|]. rewrite Hg; [done|]. intros E.
    destruct (d_inj _ _ _ _ _ _ _ H i i0 MAXFILE (off / BSIZE)) as [_ ?]; try done; lia. }
  assert (Hlen : forall i, 1 <= i < ni -> Z.of_nat (length (fupd A i0 (A i0 ++ l) i)) <= nb i * BSIZE).
  { intros i Hi. destruct (d_nb _ _ _ _ _ _ _ H i Hi) as (_ & Ha & _). unfold fupd. destruct (Z.eqb_spec i i0) as [->|]; [|done].
    rewrite length_app. fold off in Ha. lia. }
  split; try apply H.
  - intros n Hnr. destruct (decide (n = x)) as [->|]; [|rewrite Hg by done; by apply (d_block _ _ _ _ _ _ _ H)].
    unfold g, img_put, block_ok. rewrite Z.eqb_refl, length_put_bytes by lia. done.
  - intros n Hnr. rewrite Hg by lia. by apply (d_zero _ _ _ _ _ _ _ H).
  - intros i k Hi Hk. rewrite Hs by done. by apply (d_slot _ _ _ _ _ _ _ H).
  - intros i j k k' Hi Hj Hk Hk'. rewrite !Hs by done. by apply (d_inj _ _ _ _ _ _ _ H).
  - intros i Hi. destruct (d_nb _ _ _ _ _ _ _ H i Hi) as (? & _ & ?). split_and!; [lia|lia|by apply Hlen|done].
  - intros i p Hi Hp. destruct (d_nb _ _ _ _ _ _ _ H i Hi) as (Hni & _ & _).
    pose proof (Z.mod_pos_bound p BSIZE ltac:(lia)) as Hpm. pose proof (Z.div_mod p BSIZE ltac:(lia)) as Hpd.
    assert (Hk : 0 <= p / BSIZE < nb i) by (split; [apply Z.div_pos|apply Z.div_lt_upper_bound]; lia).
    assert (Hh : has nb hi i (p / BSIZE)) by (apply has_data; lia). rewrite Hs by lia.
    pose proof (d_byte _ _ _ _ _ _ _ H i p Hi Hp) as Hold.
    destruct (decide (slot f (dn i) (p / BSIZE) = x)) as [Ex|Hne].
    + destruct (d_inj _ _ _ _ _ _ _ H i i0 (p / BSIZE) (off / BSIZE)) as [-> Eq]; try done; try lia.
      rewrite Ex in *. unfold g, img_put. rewrite Z.eqb_refl, fupd_eq.
      rewrite byte_at_put_bytes, byte_at_app by lia. fold off. destruct (Z.ltb_spec p off).
      * rewrite (proj2 (Z.leb_gt _ _)) by lia. done.
      * rewrite (proj2 (Z.leb_le _ _)) by lia. cbn [andb]. destruct (Z.ltb_spec (p mod BSIZE) (off mod BSIZE + Z.of_nat (length l))); [f_equal; lia|].
        rewrite Hold, !byte_at_ge by (fold off; lia). done.
    + rewrite Hg by done. rewrite Hold. destruct (decide (i = i0)) as [->|Hi']; [|by rewrite fupd_ne].
      rewrite fupd_eq, byte_at_app by lia. fold off. destruct (Z.ltb_spec p off); [done|].
      assert (p / BSIZE <> off / BSIZE) by (intros Eq; apply Hne; unfold x; by rewrite Eq).
      assert (off / BSIZE <= p / BSIZE) by (apply Z.div_le_mono; lia). rewrite !byte_at_ge by (fold off; lia). done.
Qed.
End data.

Lemma data_ext ni fb f dn nb hi A dn' nb' hi' A' : data ni fb f dn nb hi A ->
  (forall i, 1 <= i < ni -> dn' i = dn i /\ nb' i = nb i /\ hi' i = hi i /\ A' i = A i) -> data ni fb f dn' nb' hi' A'.
Proof.
  intros H E. assert (Hh : forall i k, 1 <= i < ni -> has nb' hi' i k <-> has nb hi i k).
  { intros i k Hi. destruct (E i Hi) as (_ & E1 & E2 & _). unfold has. by rewrite E1, E2. }
  split; try apply H.
  - intros i Hi. destruct (E i Hi) as (-> & _). by apply (d_len _ _ _ _ _ _ _ H).
  - intros i k Hi Hk. destruct (E i Hi) as (-> & _). pose proof (d_slot _ _ _ _ _ _ _ H i k Hi Hk) as Hd.
    case_decide as Ha; case_decide as Hb; try done; exfalso; apply Hh in Ha || apply Hh in Hb; tauto.
  - intros i j k k' Hi Hj. destruct (E i Hi) as (-> & _), (E j Hj) as (-> & _). by apply (d_inj _ _ _ _ _ _ _ H).
  - intros i Hi. destruct (E i Hi) as (_ & -> & -> & ->). by apply (d_nb _ _ _ _ _ _ _ H).
  - intros i p Hi. destruct (E i Hi) as (-> & -> & _ & ->). by apply (d_byte _ _ _ _ _ _ _ H).
Qed.

(** Block numbers are small. *)
Lemma d_addr ni fb f dn nb hi A i k : data ni fb f dn nb hi A -> 1 <= i < ni -> 0 <= k < 13 ->
  zget (di_addrs (dn i)) k = Some (addr (dn i) k) /\ 0 <= addr (dn i) k < FSSIZE.
Proof.
  intros H Hi Hk. split.
  - destruct (zget_is_Some (di_addrs (dn i)) k) as [a Ea]; [rewrite (d_len _ _ _ _ _ _ _ H i Hi); lia|]. unfold addr. by rewrite Ea.
  - set (j := if k <? NDIRECT then k else MAXFILE). assert (Hj : 0 <= j <= MAXFILE).
    { assert (HM : MAXFILE = 268) by done. unfold j. destruct (Z.ltb_spec k NDIRECT); lia. }
    replace (addr (dn i) k) with (slot f (dn i) j).
    + pose proof (d_slot _ _ _ _ _ _ _ H i j Hi Hj) as Hd. pose proof (d_fb _ _ _ _ _ _ _ H). unfold nmeta0, FSSIZE in *.
      case_decide; lia.
    + unfold j. destruct (Z.ltb_spec k NDIRECT); [by apply slot_direct|]. replace k with NDIRECT by (unfold NDIRECT in *; lia). done.
Qed.

(** Blocks a file of [n] blocks takes, the indirect block included. *)
Definition need (n : Z) : Z := n + (if NDIRECT <? n then 1 else 0).

(** What the operations on blocks leave alone. *)
Definition keeps (s s' : mkfs) : Prop :=
  freeinode s' = freeinode s /\ img_size s' = img_size s /\ forall n, 0 <= n < nmeta0 -> img s' n = img s n.

Lemma mk_keeps_trans s1 s2 s3 : keeps s1 s2 -> keeps s2 s3 -> keeps s1 s3.
Proof. intros (? & ? & H1) (? & ? & H2). split_and!; [congruence|congruence|]. intros n Hn. rewrite H2, H1 by done. done. Qed.

Definition sdata (s : mkfs) (dn : Z -> dinode) (nb : Z -> Z) (hi : Z -> bool) (A : Z -> list Z) : Prop :=
  data (freeinode s) (freeblock s) (img s) dn nb hi A /\ img_size s = FSSIZE.

Definition taken1 (s : mkfs) : mkfs := Mkfs (img s) (img_size s) (freeinode s) (freeblock s + 1).

Lemma take_block_eq s dn nb hi A : sdata s dn nb hi A -> take_block s = (freeblock s, taken1 s).
Proof.
  intros [H _]. pose proof (d_fb _ _ _ _ _ _ _ H). unfold nmeta0, FSSIZE in *. unfold take_block, taken1.
  rewrite xint_id, wrap_small by lia. done.
Qed.

Section block.
Context (i0 fbn : Z) (A : Z -> list Z).

Lemma block_direct s dn nb hi : sdata s dn nb hi A -> 1 <= i0 < freeinode s -> 0 <= fbn < NDIRECT ->
  nb i0 = fbn \/ nb i0 = fbn + 1 -> freeblock s + (fbn + 1 - nb i0) <= FSSIZE ->
  exists din' s', iappend_block fbn (dn i0) s = Some (din', slot (img s') din' fbn, s') /\
    sdata s' (fupd dn i0 din') (fupd nb i0 (fbn + 1)) hi A /\ keeps s s' /\ with_addrs (di_addrs din') (dn i0) = din' /\
    freeblock s' = freeblock s + (fbn + 1 - nb i0).
Proof.
  intros HS Hi Hf Hnb Hfb. pose proof HS as [H Hsz]. assert (HN : NDIRECT = 12) by done. assert (HM : MAXFILE = 268) by done.
  unfold iappend_block. rewrite (proj2 (Z.ltb_lt _ _)) by lia.
  destruct (d_addr _ _ _ _ _ _ _ i0 fbn H Hi ltac:(lia)) as [Ea Ha]. rewrite Ea. cbn [mbind option_bind].
  unfold FSSIZE in *. rewrite xint_id by lia.
  pose proof (d_has_iff _ _ _ _ _ _ _ H i0 fbn Hi ltac:(lia)) as Hiff. rewrite has_data, slot_direct in Hiff by lia.
  destruct (Z.eqb_spec (addr (dn i0) fbn) 0) as [E|E].
  - assert (En : nb i0 = fbn) by lia. rewrite (take_block_eq s dn nb hi A HS).
    pose proof (alloc_direct _ _ _ _ _ _ _ H i0 fbn Hi En ltac:(lia) ltac:(unfold FSSIZE; lia)) as H'.
    set (din' := with_addrs (zset (di_addrs (dn i0)) fbn (freeblock s)) (dn i0)).
    destruct (d_addr _ _ _ _ _ _ _ i0 fbn H' Hi ltac:(lia)) as [Ea' Ha']. unfold set_slot in Ea', Ha'. rewrite fupd_eq in Ea', Ha'.
    fold din' in Ea', Ha'. rewrite Ea'. cbn [mbind option_bind]. unfold FSSIZE in *. rewrite xint_id by lia.
    exists din', (taken1 s). split_and!; [by rewrite slot_direct by lia|by split|done|done|unfold taken1; simpl; lia].
  - assert (En : nb i0 = fbn + 1) by lia. rewrite Ea. cbn [mbind option_bind]. rewrite xint_id by lia.
    exists (dn i0), s. split_and!; [by rewrite slot_direct by lia| |done|by destruct (dn i0)|lia]. split; [|done].
    eapply data_ext; [exact H|]. intros i _. unfold fupd. destruct (Z.eqb_spec i i0) as [->|]; split_and!; (done || lia).
Qed.

(** The indirect block, allocated if need be. *)
Definition ensure_ind (din : dinode) (s : mkfs) : dinode * mkfs :=
  if xint (addr din NDIRECT) =? 0 then
    let '(b, s) := take_block s in (with_addrs (zset (di_addrs din) NDIRECT b) din, s)
  else (din, s).

Lemma ensure_ind_run s dn nb hi : sdata s dn nb hi A -> 1 <= i0 < freeinode s ->
  freeblock s + (if hi i0 then 0 else 1) <= FSSIZE ->
  exists din' s', ensure_ind (dn i0) s = (din', s') /\
    sdata s' (fupd dn i0 din') nb (fupd hi i0 true) A /\ keeps s s' /\ with_addrs (di_addrs din') (dn i0) = din' /\
    freeblock s' = freeblock s + (if hi i0 then 0 else 1).
Proof.
  intros HS Hi Hfb. pose proof HS as [H Hsz]. assert (HN : NDIRECT = 12) by done. assert (HM : MAXFILE = 268) by done.
  destruct (d_addr _ _ _ _ _ _ _ i0 NDIRECT H Hi ltac:(lia)) as [Ea Ha]. unfold ensure_ind.
  unfold FSSIZE in *. rewrite xint_id by lia. pose proof (d_has_iff _ _ _ _ _ _ _ H i0 MAXFILE Hi ltac:(lia)) as Hiff.
  rewrite slot_ind in Hiff. unfold has in Hiff. rewrite Z.eqb_refl in Hiff. destruct (Z.eqb_spec (addr (dn i0) NDIRECT) 0) as [E|E].
  - assert (En : hi i0 = false) by (destruct (hi i0); [|done]; tauto). rewrite En in *. rewrite (take_block_eq s dn nb hi A HS).
    pose proof (alloc_indirect _ _ _ _ _ _ _ H i0 Hi En ltac:(unfold FSSIZE; lia)) as H'.
    eexists _, (taken1 s). split_and!; [done|by split|done|done|done].
  - assert (En : hi i0 = true) by tauto. rewrite En in *. exists (dn i0), s. split_and!; [done| |done|by destruct (dn i0)|lia].
    split; [|done]. eapply data_ext; [exact H|]. intros i _. unfold fupd. destruct (Z.eqb_spec i i0) as [->|]; split_and!; (done || lia).
Qed.

Lemma block_indirect s dn nb hi : sdata s dn nb hi A -> 1 <= i0 < freeinode s -> NDIRECT <= fbn < MAXFILE ->
  nb i0 = fbn \/ nb i0 = fbn + 1 -> freeblock s + (if hi i0 then 0 else 1) + (fbn + 1 - nb i0) <= FSSIZE ->
  exists din' s', iappend_block fbn (dn i0) s = Some (din', slot (img s') din' fbn, s') /\
    sdata s' (fupd dn i0 din') (fupd nb i0 (fbn + 1)) (fupd hi i0 true) A /\ keeps s s' /\ with_addrs (di_addrs din') (dn i0) = din' /\
    freeblock s' = freeblock s + (if hi i0 then 0 else 1) + (fbn + 1 - nb i0).
Proof.
  intros HS Hi Hf Hnb Hfb. assert (HN : NDIRECT = 12) by done. assert (HM : MAXFILE = 268) by done.
  destruct (ensure_ind_run s dn nb hi HS Hi ltac:(lia)) as (din' & s1 & E1 & HS1 & K1 & W1 & F1).
  pose proof HS1 as [H1 Hsz1]. pose proof HS as [H _]. pose proof K1 as (Kn & _ & _). rewrite <- Kn in Hi.
  unfold iappend_block. rewrite (proj2 (Z.ltb_ge _ _)) by lia.
  destruct (d_addr _ _ _ _ _ _ _ i0 NDIRECT H ltac:(by rewrite <- Kn) ltac:(lia)) as [Ea _]. rewrite Ea. cbn [mbind option_bind].
  fold (ensure_ind (dn i0) s). rewrite E1.
  destruct (d_addr _ _ _ _ _ _ _ i0 NDIRECT H1 Hi ltac:(lia)) as [Ea1 Ha1]. rewrite fupd_eq in Ea1, Ha1. rewrite Ea1. cbn [mbind option_bind].
  assert (Hhas : has nb (fupd hi i0 true) i0 MAXFILE) by (unfold has; by rewrite Z.eqb_refl, fupd_eq).
  pose proof (d_has _ _ _ _ _ _ _ H1 i0 MAXFILE Hi ltac:(lia) Hhas) as Hind. rewrite slot_ind, fupd_eq in Hind.
  set (ind := addr din' NDIRECT) in *. pose proof (d_fb _ _ _ _ _ _ _ H1) as Hfb1. unfold nmeta0, FSSIZE in *. rewrite xint_id by lia.
  unfold rsect. rewrite Hsz1, (proj2 (Z.leb_le 0 ind)), (proj2 (Z.ltb_lt ind 2000)) by lia. cbn [andb mbind option_bind].
  assert (Hent : get32 (img s1 ind) (4 * (fbn - NDIRECT)) = slot (img s1) din' fbn).
  { rewrite slot_entry by lia. fold ind. by rewrite (proj2 (Z.eqb_neq _ _)) by lia. }
  pose proof (d_has_iff _ _ _ _ _ _ _ H1 i0 fbn Hi ltac:(lia)) as Hiff. rewrite has_data, fupd_eq in Hiff by lia.
  destruct (Z.eqb_spec (get32 (img s1 ind) (4 * (fbn - NDIRECT))) 0) as [E|E].
  - assert (En : nb i0 = fbn) by lia. rewrite (take_block_eq s1 _ _ _ A HS1).
    pose proof (alloc_entry _ _ _ _ _ _ _ H1 i0 fbn Hi En Hf ltac:(by rewrite fupd_eq) ltac:(unfold FSSIZE; lia)) as H2.
    cbv zeta in H2. rewrite fupd_eq in H2. fold ind in H2.
    rewrite get32_set32_eq; [|apply (d_block _ _ _ _ _ _ _ H1); unfold FSSIZE; lia|unfold BSIZE; lia|lia].
    set (s2 := wsect ind (set32 (img s1 ind) (4 * (fbn - NDIRECT)) (freeblock s1)) (taken1 s1)).
    assert (Hsl : slot (img s2) din' fbn = freeblock s1).
    { rewrite slot_entry by lia. fold ind. rewrite (proj2 (Z.eqb_neq _ _)) by lia. unfold s2, wsect, img_put. cbn [img taken1].
      rewrite Z.eqb_refl. apply get32_set32_eq; [apply (d_block _ _ _ _ _ _ _ H1); unfold FSSIZE; lia|unfold BSIZE; lia|lia]. }
    rewrite xint_id by lia. exists din', s2. rewrite Hsl. split_and!; [done| | |done|unfold s2; simpl; lia].
    + split; [exact H2|unfold s2; simpl; rewrite Hsz1; unfold FSSIZE; lia].
    + eapply mk_keeps_trans; [exact K1|]. unfold s2. split_and!; [done|simpl; lia|]. intros n Hn. unfold wsect, img_put. cbn [img taken1].
      unfold nmeta0 in Hn. by rewrite (proj2 (Z.eqb_neq _ _)) by lia.
  - assert (En : nb i0 = fbn + 1) by (rewrite Hent in E; apply Hiff in E; lia).
    assert (Hb : 0 <= get32 (img s1 ind) (4 * (fbn - NDIRECT)) < 2 ^ 32).
    { rewrite Hent. pose proof (d_has _ _ _ _ _ _ _ H1 i0 fbn Hi ltac:(lia) ltac:(apply has_data; lia)) as Hr. rewrite fupd_eq in Hr. unfold nmeta0 in Hr. lia. }
    rewrite xint_id by done. rewrite Hent. exists din', s1. split_and!; [done| |done|done|lia].
    split; [|done]. eapply data_ext; [exact H1|]. intros i _. unfold fupd. destruct (Z.eqb_spec i i0) as [->|]; split_and!; (done || lia).
Qed.
End block.

(** ** Appending *)

Definition ceil (n : Z) : Z := (n + (BSIZE - 1)) / BSIZE.
Definition cnt (A : Z -> list Z) (i : Z) : Z := ceil (Z.of_nat (length (A i))).
Definition big (A : Z -> list Z) (i : Z) : bool := NDIRECT <? cnt A i.

Lemma ceil_spec n k : (k - 1) * BSIZE < n <= k * BSIZE -> ceil n = k.
Proof.
  unfold ceil, BSIZE. intros Hn. symmetry. apply (Z.div_unique _ _ _ (n + 1023 - 1024 * k)); lia.
Qed.

Lemma ceil_bounds n : (ceil n - 1) * BSIZE < n <= ceil n * BSIZE.
Proof. unfold ceil, BSIZE. pose proof (Z.div_mod (n + (1024 - 1)) 1024 ltac:(lia)). pose proof (Z.mod_pos_bound (n + (1024 - 1)) 1024 ltac:(lia)). lia. Qed.

Lemma ceil_mono n m : n <= m -> ceil n <= ceil m.
Proof. intros. apply Z.div_le_mono; unfold BSIZE; lia. Qed.

Lemma need_mono n m : n <= m -> need n <= need m.
Proof. intros. unfold need. destruct (Z.ltb_spec NDIRECT n), (Z.ltb_spec NDIRECT m); lia. Qed.

Lemma iappend_block_run i0 A s dn off : sdata s dn (cnt A) (big A) A -> 1 <= i0 < freeinode s -> off = Z.of_nat (length (A i0)) ->
  let fbn := off / BSIZE in fbn < MAXFILE -> freeblock s + need (fbn + 1) - need (cnt A i0) <= FSSIZE ->
  exists din' s', iappend_block fbn (dn i0) s = Some (din', slot (img s') din' fbn, s') /\
    sdata s' (fupd dn i0 din') (fupd (cnt A) i0 (fbn + 1)) (fupd (big A) i0 (NDIRECT <? fbn + 1)) A /\ keeps s s' /\
    with_addrs (di_addrs din') (dn i0) = din' /\ freeblock s' = freeblock s + need (fbn + 1) - need (cnt A i0).
Proof.
  intros HS Hi Eoff fbn Hf Hfb. assert (HN : NDIRECT = 12) by done. assert (HB : BSIZE = 1024) by done.
  assert (Hf0 : 0 <= fbn) by (apply Z.div_pos; lia).
  assert (Hc : cnt A i0 = fbn \/ cnt A i0 = fbn + 1).
  { unfold cnt. rewrite <- Eoff. pose proof (ceil_bounds off). unfold fbn. pose proof (Z.div_mod off BSIZE ltac:(lia)). pose proof (Z.mod_pos_bound off BSIZE ltac:(lia)). lia. }
  destruct (Z_lt_le_dec fbn NDIRECT) as [Hd|Hd].
  - assert (Hneed : need (fbn + 1) - need (cnt A i0) = fbn + 1 - cnt A i0) by (unfold need; destruct (Z.ltb_spec NDIRECT (fbn + 1)), (Z.ltb_spec NDIRECT (cnt A i0)); lia).
    destruct (block_direct i0 fbn A s dn _ _ HS Hi ltac:(lia) Hc ltac:(lia)) as (din' & s' & E & [H' Hsz'] & K & W & F).
    exists din', s'. split_and!; [done| |done|done|lia]. split; [|done]. eapply data_ext; [exact H'|]. intros i _. split_and!; [done|done| |done].
    unfold fupd. destruct (Z.eqb_spec i i0) as [->|]; [|done]. unfold big. destruct (Z.ltb_spec NDIRECT (fbn + 1)), (Z.ltb_spec NDIRECT (cnt A i0)); (done || lia).
  - assert (Hneed : need (fbn + 1) - need (cnt A i0) = (if big A i0 then 0 else 1) + (fbn + 1 - cnt A i0)).
    { unfold need, big. rewrite (proj2 (Z.ltb_lt NDIRECT (fbn + 1))) by lia. destruct (NDIRECT <? cnt A i0); lia. }
    destruct (block_indirect i0 fbn A s dn _ _ HS Hi ltac:(lia) Hc ltac:(lia)) as (din' & s' & E & [H' Hsz'] & K & W & F).
    exists din', s'. split_and!; [done| |done|done|lia]. split; [|done]. by rewrite (proj2 (Z.ltb_lt NDIRECT (fbn + 1))) by lia.
Qed.

(** One round of the loop. *)
Lemma iappend_round i0 A s dn l : let off := Z.of_nat (length (A i0)) in let fbn := off / BSIZE in
  let A' := fupd A i0 (A i0 ++ l) in
  sdata s dn (cnt A) (big A) A -> 1 <= i0 < freeinode s -> fbn < MAXFILE -> (0 < length l)%nat ->
  off mod BSIZE + Z.of_nat (length l) <= BSIZE -> freeblock s + need (cnt A' i0) - need (cnt A i0) <= FSSIZE ->
  exists din' x s' s'', iappend_block fbn (dn i0) s = Some (din', x, s') /\ rsect x s' = Some (img s' x) /\
    s'' = wsect x (put_bytes (img s' x) (off - fbn * BSIZE) l) s' /\
    sdata s'' (fupd dn i0 din') (cnt A') (big A') A' /\ keeps s s'' /\ with_addrs (di_addrs din') (dn i0) = din' /\
    freeblock s'' = freeblock s + need (cnt A' i0) - need (cnt A i0).
Proof.
  intros off fbn A' HS Hi Hf Hl Hend Hfb. assert (HM : MAXFILE = 268) by done. assert (HB : BSIZE = 1024) by done.
  pose proof (Z.div_mod off BSIZE ltac:(lia)) as Hdm. pose proof (Z.mod_pos_bound off BSIZE ltac:(lia)). fold fbn in Hdm.
  assert (Hf0 : 0 <= fbn) by (apply Z.div_pos; lia).
  assert (Hc' : cnt A' i0 = fbn + 1) by (unfold cnt, A'; rewrite fupd_eq, length_app; apply ceil_spec; lia). rewrite Hc' in *.
  destruct (iappend_block_run i0 A s dn off HS Hi eq_refl Hf Hfb) as (din' & s' & E & [H' Hsz'] & K & W & F).
  fold fbn in E, H', F. pose proof K as (Kn & _ & _). rewrite <- Kn in Hi.
  assert (Hhas : fbn < fupd (cnt A) i0 (fbn + 1) i0) by (rewrite fupd_eq; lia).
  pose proof (d_has _ _ _ _ _ _ _ H' i0 fbn Hi ltac:(lia) ltac:(apply has_data; lia)) as Hx. rewrite fupd_eq in Hx.
  set (x := slot (img s') din' fbn) in *. pose proof (d_fb _ _ _ _ _ _ _ H') as Hfb'. unfold nmeta0 in *.
  exists din', x, s', (wsect x (put_bytes (img s' x) (off - fbn * BSIZE) l) s'). split_and!; [exact E| |done| | |done|exact F].
  - unfold rsect. by rewrite Hsz', (proj2 (Z.leb_le 0 x)), (proj2 (Z.ltb_lt x FSSIZE)) by lia.
  - split; [|simpl; rewrite Hsz'; lia]. pose proof (data_write _ _ _ _ _ _ _ H' i0 l Hi Hhas Hend) as H2. cbv zeta in H2.
    fold off in H2. fold fbn in H2. rewrite fupd_eq in H2. fold x in H2. replace (off - fbn * BSIZE) with (off mod BSIZE) by lia.
    eapply data_ext; [exact H2|]. intros i _. unfold big. destruct (decide (i = i0)) as [->|Hne].
    + rewrite !(fupd_eq _ i0), Hc'. split_and!; try done. unfold A'. by rewrite fupd_eq.
    + rewrite !(fupd_ne _ i0 i) by done. unfold cnt, A'. rewrite !(fupd_ne _ i0 i) by done. done.
  - eapply mk_keeps_trans; [exact K|]. split_and!; [done|simpl; lia|]. intros n Hn. unfold wsect, img_put. cbn [img].
    unfold nmeta0 in Hn. by rewrite (proj2 (Z.eqb_neq _ _)) by lia.
Qed.

Lemma fupd_fupd {B} (g : Z -> B) i x y j : fupd (fupd g i x) i y j = fupd g i y j.
Proof. unfold fupd. by destruct (j =? i). Qed.

Lemma iappend_loop_run i0 fuel p A s dn : let off := Z.of_nat (length (A i0)) in let A' := fupd A i0 (A i0 ++ p) in
  sdata s dn (cnt A) (big A) A -> 1 <= i0 < freeinode s -> (length p < fuel)%nat ->
  off + Z.of_nat (length p) <= MAXFILE * BSIZE -> freeblock s + need (cnt A' i0) - need (cnt A i0) <= FSSIZE ->
  exists din' s', iappend_loop fuel p off (dn i0) s = Some (off + Z.of_nat (length p), din', s') /\
    sdata s' (fupd dn i0 din') (cnt A') (big A') A' /\ keeps s s' /\ with_addrs (di_addrs din') (dn i0) = din' /\
    freeblock s' = freeblock s + need (cnt A' i0) - need (cnt A i0).
Proof.
  revert p A s dn. induction fuel as [|fuel IH]; intros p A s dn off A' HS Hi Hp Hlen Hfb; [lia|].
  assert (HM : MAXFILE = 268) by done. assert (HB : BSIZE = 1024) by done. cbn [iappend_loop].
  destruct (Z.ltb_spec 0 (Z.of_nat (length p))) as [Hpos|Hz].
  2: { destruct p as [|c p]; [|simpl in Hz; lia]. rewrite Z.add_0_r. exists (dn i0), s.
       assert (EA : forall i, A' i = A i) by (intros i; unfold A', fupd; destruct (Z.eqb_spec i i0) as [->|]; [apply app_nil_r|done]).
       split_and!; [done| |done|by destruct (dn i0)|unfold cnt; rewrite EA; lia]. destruct HS as [H Hsz]. split; [|done].
       eapply data_ext; [exact H|]. intros i _. unfold big, cnt. rewrite EA. unfold fupd. destruct (Z.eqb_spec i i0) as [->|]; done. }
  set (fbn := off / BSIZE). pose proof (Z.div_mod off BSIZE ltac:(lia)) as Hdm. pose proof (Z.mod_pos_bound off BSIZE ltac:(lia)) as Hmod. fold fbn in Hdm.
  rewrite (proj2 (Z.ltb_lt fbn MAXFILE)) by (unfold off in *; lia).
  set (n1 := Z.min (Z.of_nat (length p)) ((fbn + 1) * BSIZE - off)). assert (Hn1 : 0 < n1 <= Z.of_nat (length p)) by lia.
  set (l := take (Z.to_nat n1) p). assert (Hl : Z.of_nat (length l) = n1) by (unfold l; rewrite length_take; lia).
  set (A1 := fupd A i0 (A i0 ++ l)). assert (HA1 : A1 i0 = A i0 ++ l) by apply fupd_eq.
  assert (Hmono : need (cnt A1 i0) <= need (cnt A' i0)).
  { apply need_mono, ceil_mono. unfold A'. rewrite fupd_eq, HA1, !length_app. lia. }
  destruct (iappend_round i0 A s dn l HS Hi) as (din1 & x & s1 & s2 & E1 & E2 & E3 & HS2 & K2 & W2 & F2).
  { fold off fbn. lia. }
  { lia. }
  { fold off. lia. }
  { fold A1. lia. }
  fold off fbn in E1, E3. fold A1 in HS2, F2. rewrite E1. cbn [mbind option_bind]. rewrite E2. cbn [mbind option_bind]. rewrite <- E3.
  assert (Hoff1 : u32 (off + n1) = Z.of_nat (length (A1 i0))) by (rewrite HA1, length_app, wrap_small by (unfold off in *; lia); lia).
  rewrite Hoff1. set (q := drop (Z.to_nat n1) p).
  assert (Hq : Z.of_nat (length q) = Z.of_nat (length p) - n1) by (unfold q; rewrite length_drop; lia).
  assert (Hlq : l ++ q = p) by apply take_drop. pose proof K2 as (Kn & _ & _).
  assert (EA' : forall i, fupd A1 i0 (A1 i0 ++ q) i = A' i) by (intros i; unfold A1; rewrite fupd_fupd, fupd_eq, <- app_assoc, Hlq; done).
  assert (Ec : cnt (fupd A1 i0 (A1 i0 ++ q)) i0 = cnt A' i0) by (unfold cnt; by rewrite EA').
  assert (Edn : fupd dn i0 din1 i0 = din1) by apply fupd_eq.
  destruct (IH q A1 s2 (fupd dn i0 din1) HS2) as (din2 & s3 & E4 & [H3 Hsz3] & K3 & W3 & F3).
  { by rewrite Kn. }
  { lia. }
  { rewrite HA1, length_app. unfold off in *. lia. }
  { rewrite Ec. lia. }
  rewrite Edn in E4, W3. exists din2, s3. rewrite E4. split_and!; [|split; [|done]|by eapply mk_keeps_trans|by rewrite <- W3, <- W2|rewrite F3, Ec, F2; lia].
  - do 3 f_equal. rewrite HA1, length_app. unfold off. lia.
  - eapply data_ext; [exact H3|]. intros i _. rewrite fupd_fupd, EA'. unfold big, cnt. rewrite EA'. done.
Qed.

(** ** The state between operations *)

Definition inode_of (s : mkfs) (i : Z) : dinode := get_dinode (img s (i / IPB + 32)) (i mod IPB * DINODE).

Record built (s : mkfs) (A : Z -> list Z) (T : Z -> Z) : Prop := {
  bu_data : sdata s (inode_of s) (cnt A) (big A) A;
  bu_ni : 1 <= freeinode s <= NINODES;
  bu_ino i : 1 <= i < freeinode s -> T_DIR <= T i <= T_FILE /\
    inode_of s i = Dinode (T i) 0 0 1 (Z.of_nat (length (A i))) (di_addrs (inode_of s i));
  bu_sb : img s 1 = sb_block mk_sb;
  bu_log n : 2 <= n < 32 -> img s n = zero_block
}.

Lemma slot_meta f f' di k : (forall n, nmeta0 <= n < FSSIZE -> f' n = f n) -> (addr di NDIRECT <> 0 -> nmeta0 <= addr di NDIRECT < FSSIZE) ->
  slot f' di k = slot f di k.
Proof.
  intros Hf Ha. unfold slot. destruct (k <? NDIRECT); [done|]. destruct (k =? MAXFILE); [done|].
  destruct (Z.eqb_spec (addr di NDIRECT) 0); [done|]. rewrite Hf by auto. done.
Qed.

Lemma d_ind ni fb f dn nb hi A i : data ni fb f dn nb hi A -> 1 <= i < ni -> addr (dn i) NDIRECT <> 0 ->
  nmeta0 <= addr (dn i) NDIRECT < FSSIZE.
Proof.
  intros H Hi Hne. assert (HM : MAXFILE = 268) by done. pose proof (d_slot _ _ _ _ _ _ _ H i MAXFILE Hi ltac:(lia)) as Hs. rewrite slot_ind in Hs.
  pose proof (d_fb _ _ _ _ _ _ _ H). case_decide; [lia|done].
Qed.

(** Writing the metadata does not touch the files. *)
Lemma data_meta ni fb f f' dn nb hi A : data ni fb f dn nb hi A ->
  (forall n, nmeta0 <= n < FSSIZE -> f' n = f n) -> (forall n, 0 <= n < FSSIZE -> block_ok (f' n)) -> data ni fb f' dn nb hi A.
Proof.
  intros H Hf Hb. assert (Hs : forall i k, 1 <= i < ni -> slot f' (dn i) k = slot f (dn i) k).
  { intros i k Hi. apply slot_meta; [done|]. intros Hne. by eapply d_ind. }
  pose proof (d_fb _ _ _ _ _ _ _ H) as Hr. split; try apply H; try done.
  - intros n Hn. rewrite Hf by lia. by apply (d_zero _ _ _ _ _ _ _ H).
  - intros i k Hi Hk. rewrite Hs by done. by apply (d_slot _ _ _ _ _ _ _ H).
  - intros i j k k' Hi Hj. rewrite !Hs by done. by apply (d_inj _ _ _ _ _ _ _ H).
  - intros i p Hi Hp. rewrite Hs by done. destruct (d_nb _ _ _ _ _ _ _ H i Hi) as (H1 & H2 & _).
    assert (Hk : 0 <= p / BSIZE < nb i) by (unfold BSIZE in *; split; [apply Z.div_pos; lia|apply Z.div_lt_upper_bound; lia]).
    pose proof (d_has _ _ _ _ _ _ _ H i (p / BSIZE) Hi ltac:(lia) ltac:(apply has_data; lia)). rewrite Hf by lia. by apply (d_byte _ _ _ _ _ _ _ H).
Qed.

Lemma IBLOCK_mk i : 0 <= i < NINODES -> IBLOCK i mk_sb = i / IPB + 32 /\ 32 <= i / IPB + 32 < 45.
Proof.
  unfold NINODES. intros Hi. assert (HI : IPB = 16) by done. assert (0 <= i / IPB < 13) by (rewrite HI; split; [apply Z.div_pos; lia|apply Z.div_lt_upper_bound; lia]).
  unfold IBLOCK. change (sb_inodestart mk_sb) with 32. rewrite wrap_small by lia. lia.
Qed.

(** [winode] stores the inode and nothing else. *)
Lemma winode_run s i di : img_size s = FSSIZE -> 0 <= i < NINODES -> (forall n, 0 <= n < FSSIZE -> block_ok (img s n)) -> dinode_ok di ->
  exists s', winode i di s = Some s' /\ inode_of s' i = di /\ (forall j, 0 <= j -> j <> i -> inode_of s' j = inode_of s j) /\
    (forall n, n < 32 \/ 45 <= n -> img s' n = img s n) /\ (forall n, 0 <= n < FSSIZE -> block_ok (img s' n)) /\
    img_size s' = FSSIZE /\ freeinode s' = freeinode s /\ freeblock s' = freeblock s.
Proof.
  intros Hsz Hi Hb Hdi. destruct (IBLOCK_mk i Hi) as [Ei Hr]. unfold winode. rewrite Ei. unfold rsect. rewrite Hsz. unfold FSSIZE in *.
  rewrite (proj2 (Z.leb_le 0 _)), (proj2 (Z.ltb_lt _ 2000)) by lia. cbn [andb mbind option_bind].
  assert (HI : IPB = 16) by done. assert (HD : DINODE = 64) by done. pose proof (Z.mod_pos_bound i IPB ltac:(lia)) as Hm. pose proof (Z.div_mod i IPB ltac:(lia)) as Hdm.
  eexists. split; [done|]. unfold wsect, inode_of, img_put. cbn [img img_size freeinode freeblock].
  assert (Hbk : block_ok (img s (i / IPB + 32))) by (apply Hb; lia). split_and!; try done.
  - rewrite Z.eqb_refl. apply get_set_dinode; [done|done|lia|unfold BSIZE; lia].
  - intros j Hj Hne. destruct (Z.eqb_spec (j / IPB + 32) (i / IPB + 32)) as [E|]; [|done]. rewrite E. apply get_dinode_other; [apply Hdi|].
    pose proof (Z.div_mod j IPB ltac:(lia)). intros Em. apply Hne. assert (j / IPB = i / IPB) by lia. lia.
  - intros n Hn. rewrite (proj2 (Z.eqb_neq _ _)) by lia. done.
  - intros n Hn. destruct (n =? i / IPB + 32); [by apply block_ok_set_dinode|by apply Hb].
  - lia.
Qed.

Lemma rinode_run s i : img_size s = FSSIZE -> 0 <= i < NINODES -> rinode i s = Some (inode_of s i).
Proof.
  intros Hsz Hi. destruct (IBLOCK_mk i Hi) as [Ei Hr]. unfold rinode. rewrite Ei. unfold rsect. rewrite Hsz. unfold FSSIZE in *.
  rewrite (proj2 (Z.leb_le 0 _)), (proj2 (Z.ltb_lt _ 2000)) by lia. done.
Qed.

(** An inode of the files, with any size, is well formed. *)
Lemma dinode_ok_data ni fb f dn nb hi A i t sz : data ni fb f dn nb hi A -> 1 <= i < ni -> T_DIR <= t <= T_FILE -> 0 <= sz < 2 ^ 32 ->
  dinode_ok (Dinode t 0 0 1 sz (di_addrs (dn i))).
Proof.
  intros H Hi Ht Hsz. unfold T_DIR, T_FILE in Ht. split; cbn [di_type di_major di_minor di_nlink di_size di_addrs]; try lia.
  - by apply (d_len _ _ _ _ _ _ _ H).
  - intros a [k Hk]%list_elem_of_lookup_1. pose proof (lookup_lt_Some _ _ _ Hk) as Hlt. rewrite (d_len _ _ _ _ _ _ _ H i Hi) in Hlt.
    destruct (d_addr _ _ _ _ _ _ _ i (Z.of_nat k) H Hi ltac:(lia)) as [E Hr]. unfold zget in E. rewrite (proj2 (Z.leb_le _ _)), Nat2Z.id in E by lia.
    rewrite Hk in E. injection E as ->. unfold FSSIZE in Hr. lia.
Qed.

(** Only the block numbers of the inodes matter. *)
Lemma data_addrs ni fb f dn dn' nb hi A : data ni fb f dn nb hi A ->
  (forall i, 1 <= i < ni -> di_addrs (dn' i) = di_addrs (dn i)) -> data ni fb f dn' nb hi A.
Proof.
  intros H E. assert (Hs : forall i k, 1 <= i < ni -> slot f (dn' i) k = slot f (dn i) k) by (intros i k Hi; unfold slot, addr; by rewrite E).
  split; try apply H.
  - intros i Hi. rewrite E by done. by apply (d_len _ _ _ _ _ _ _ H).
  - intros i k Hi Hk. rewrite Hs by done. by apply (d_slot _ _ _ _ _ _ _ H).
  - intros i j k k' Hi Hj. rewrite !Hs by done. by apply (d_inj _ _ _ _ _ _ _ H).
  - intros i p Hi Hp. rewrite Hs by done. by apply (d_byte _ _ _ _ _ _ _ H).
Qed.

(** One more inode, without blocks. *)
Lemma data_new ni fb f dn nb hi A : data ni fb f dn nb hi A -> di_addrs (dn ni) = replicate 13 0 -> nb ni = 0 -> hi ni = false -> A ni = [] ->
  data (ni + 1) fb f dn nb hi A.
Proof.
  intros H Ed En Eh EA. assert (HM : MAXFILE = 268) by done.
  assert (Hnew : forall k, slot f (dn ni) k = 0).
  { assert (Ha : forall k, addr (dn ni) k = 0).
    { intros k. unfold addr, zget. rewrite Ed. destruct (0 <=? k); [|done]. destruct (replicate 13 0 !! Z.to_nat k) as [a|] eqn:E; [|done].
      apply lookup_replicate in E as [-> _]. done. }
    intros k. unfold slot. rewrite !Ha. by destruct (k <? NDIRECT), (k =? MAXFILE). }
  assert (Hno : forall k, 0 <= k -> ~ has nb hi ni k) by (intros k Hk; unfold has; rewrite Eh, En; destruct (k =? MAXFILE); [done|lia]).
  assert (Hcase : forall j, 1 <= j < ni + 1 -> j = ni \/ 1 <= j < ni) by lia.
  split; try apply H.
  - intros j Hj. destruct (Hcase j Hj) as [->|Hj']; [by rewrite Ed|by apply (d_len _ _ _ _ _ _ _ H)].
  - intros j k Hj Hk. destruct (Hcase j Hj) as [->|Hj']; [|by apply (d_slot _ _ _ _ _ _ _ H)].
    rewrite decide_False by (apply Hno; lia). apply Hnew.
  - intros j j' k k' Hj Hj' Hk Hk'. destruct (Hcase j Hj) as [->|Hj1], (Hcase j' Hj') as [->|Hj1']; rewrite ?Hnew; try done.
    by apply (d_inj _ _ _ _ _ _ _ H).
  - intros j Hj. destruct (Hcase j Hj) as [->|Hj']; [|by apply (d_nb _ _ _ _ _ _ _ H)]. rewrite En, EA, Eh. done.
  - intros j q Hj Hq. destruct (Hcase j Hj) as [->|Hj']; [rewrite En in Hq; unfold BSIZE in Hq; lia|by apply (d_byte _ _ _ _ _ _ _ H)].
Qed.

(** [iappend] appends to the file of the inode. *)
Lemma iappend_built s A T i0 p : let A' := fupd A i0 (A i0 ++ p) in
  built s A T -> 1 <= i0 < freeinode s -> Z.of_nat (length (A' i0)) <= MAXFILE * BSIZE ->
  freeblock s + need (cnt A' i0) - need (cnt A i0) <= FSSIZE ->
  exists s', iappend i0 p s = Some s' /\ built s' A' T /\ freeinode s' = freeinode s /\
    freeblock s' = freeblock s + need (cnt A' i0) - need (cnt A i0).
Proof.
  intros A' B Hi Hlen Hfb. destruct B as [HS Hni Hino Hsb Hlog]. pose proof HS as [H Hsz]. assert (HM : MAXFILE * BSIZE = 274432) by done.
  assert (HA' : A' i0 = A i0 ++ p) by apply fupd_eq. rewrite HA', length_app in Hlen.
  unfold iappend. rewrite rinode_run by (done || lia). cbn [mbind option_bind].
  destruct (Hino i0 Hi) as [Ht Edn]. assert (Es : di_size (inode_of s i0) = Z.of_nat (length (A i0))) by (by rewrite Edn).
  rewrite Es, xint_id by lia.
  destruct (iappend_loop_run i0 (S (length p)) p A s (inode_of s) HS Hi ltac:(lia) ltac:(lia) Hfb) as (din & s1 & E & [H1 Hsz1] & (K1 & K2 & K3) & W & F).
  fold A' in H1, F. rewrite E. cbn [mbind option_bind]. rewrite xint_id by lia.
  assert (Edin : with_size (Z.of_nat (length (A i0)) + Z.of_nat (length p)) din = Dinode (T i0) 0 0 1 (Z.of_nat (length (A' i0))) (di_addrs (fupd (inode_of s) i0 din i0))).
  { rewrite <- W, Edn, HA', length_app, fupd_eq. unfold with_size, with_addrs. cbn. f_equal. lia. }
  assert (Hi1 : 1 <= i0 < freeinode s1) by (by rewrite K1).
  destruct (winode_run s1 i0 (with_size (Z.of_nat (length (A i0)) + Z.of_nat (length p)) din)) as (s2 & E2 & Eo & Eoth & Eimg & Hbk & Hsz2 & Fi & Fb);
    [done|lia|apply H1|rewrite Edin; eapply dinode_ok_data; [exact H1|done|done|rewrite HA', length_app; lia]|].
  assert (Hsame : forall j, 1 <= j < freeinode s -> j <> i0 -> inode_of s2 j = inode_of s j).
  { intros j Hj Hne. rewrite Eoth by (done || lia). unfold inode_of. rewrite K3; [done|]. pose proof (IBLOCK_mk j ltac:(lia)). unfold nmeta0. lia. }
  exists s2. split_and!; [exact E2| |by rewrite Fi|by rewrite Fb]. split.
  - split; [|done]. rewrite Fi, Fb. eapply data_meta; [|intros n Hn; apply Eimg; unfold nmeta0 in Hn; lia|done].
    eapply data_addrs; [exact H1|]. intros j Hj. rewrite K1 in Hj. destruct (decide (j = i0)) as [->|Hne]; [by rewrite Eo, Edin|].
    rewrite fupd_ne, Hsame by done. done.
  - by rewrite Fi, K1.
  - intros j Hj. rewrite Fi, K1 in Hj. destruct (decide (j = i0)) as [->|Hne].
    + split; [done|]. by rewrite Eo, Edin.
    + destruct (Hino j Hj) as [Ht' Ej]. split; [done|]. rewrite Hsame by done. unfold A'. by rewrite fupd_ne.
  - rewrite Eimg by lia. rewrite K3 by (unfold nmeta0; lia). done.
  - intros n Hn. rewrite Eimg by lia. rewrite K3 by (unfold nmeta0; lia). by apply Hlog.
Qed.

(** [ialloc] adds an empty file. *)
Lemma ialloc_built s A T type : built s A T -> freeinode s < NINODES -> T_DIR <= type <= T_FILE ->
  exists s', mk_ialloc type s = Some (freeinode s, s') /\ built s' (fupd A (freeinode s) []) (fupd T (freeinode s) type) /\
    freeinode s' = freeinode s + 1 /\ freeblock s' = freeblock s.
Proof.
  intros [HS Hni Hino Hsb Hlog] Hn Ht. pose proof HS as [H Hsz]. unfold NINODES in *. assert (Ht' : 1 <= type <= 2) by done.
  unfold mk_ialloc. rewrite wrap_small, !xshort_id, xint_id by lia. set (s0 := Mkfs (img s) (img_size s) (freeinode s + 1) (freeblock s)).
  set (di := Dinode type 0 0 1 0 (replicate 13 0)).
  assert (Hdi : dinode_ok di).
  { unfold di. split; cbn [di_type di_major di_minor di_nlink di_size di_addrs]; try lia; [done|]. intros a [-> _]%elem_of_replicate. lia. }
  destruct (winode_run s0 (freeinode s) di) as (s2 & E2 & Eo & Eoth & Eimg & Hbk & Hsz2 & Fi & Fb); [done|unfold NINODES; lia|apply H|done|].
  rewrite E2. cbn [mbind option_bind]. exists s2. cbn [s0 freeinode freeblock] in Fi, Fb.
  assert (Hsame : forall j, 1 <= j < freeinode s -> inode_of s2 j = inode_of s j) by (intros j Hj; rewrite Eoth by lia; done).
  assert (Hcase : forall j, 1 <= j < freeinode s + 1 -> j = freeinode s \/ 1 <= j < freeinode s /\ j <> freeinode s) by lia.
  split_and!; [done| |done|done]. split.
  - split; [|done]. rewrite Fi, Fb. set (A' := fupd A (freeinode s) []).
    assert (HA : forall j, 1 <= j < freeinode s -> A' j = A j) by (intros j Hj; apply fupd_ne; lia).
    assert (HA0 : A' (freeinode s) = []) by apply fupd_eq.
    eapply data_meta; [|intros n Hn'; apply Eimg; unfold nmeta0 in Hn'; lia|done].
    apply data_new; [|by rewrite Eo|unfold cnt; by rewrite HA0|unfold big, cnt; by rewrite HA0|done].
    eapply data_ext; [exact H|]. intros j Hj. unfold big, cnt. rewrite HA, Hsame by done. done.
  - rewrite Fi. unfold NINODES. lia.
  - intros j Hj. rewrite Fi in Hj. destruct (Hcase j Hj) as [->|[Hj' Hne]].
    + rewrite !fupd_eq, Eo. done.
    + rewrite !fupd_ne, Hsame by done. by apply Hino.
  - rewrite Eimg by lia. done.
  - intros n Hn'. rewrite Eimg by lia. by apply Hlog.
Qed.
