(* ===== verification/MkfsImage.v ===== *)
(** * mkfs/mkfs.c: the finished image

    [main] as a whole: the files given are stored, one inode each, with an entry in the root
    directory; the superblock and the bitmap describe the result; and the kernel that boots
    on the image reads the files back. *)

From Stdlib Require Import ZArith Lia.
From stdpp Require Import base list strings numbers option.
From S2P Require Import Prelude Blocks BlockCache Bio BioProofs Log LogProofs Fs FsBase FsRead FsAlloc FsDir FsWrite Mkfs MkfsProofs.

(** ** The start *)

Definition zeroed (l : list Z) (s s' : mkfs) : Prop :=
  freeinode s' = freeinode s /\ freeblock s' = freeblock s /\ img_size s' = foldl (fun m i => Z.max m (i + 1)) (img_size s) l /\
  forall n, n ∈ l -> img s' n = zero_block.

Lemma zeroed_run l s : zeroed l s (foldl (fun s i => wsect i zero_block s) s l).
Proof.
  induction l as [|i l IH] using rev_ind; [split_and!; (done || by intros n ?%elem_of_nil)|].
  unfold zeroed. rewrite !foldl_app. cbn [foldl]. destruct IH as (H1 & H2 & H3 & H4). split_and!; try done.
  - cbn [wsect img_size]. by rewrite H3.
  - intros n Hn. unfold wsect, img_put. cbn [img]. destruct (Z.eqb_spec n i) as [->|Hne]; [done|]. apply H4.
    apply elem_of_app in Hn as [?|?%list_elem_of_singleton]; done.
Qed.

Lemma max_seqZ n : foldl (fun m i => Z.max m (i + 1)) 0 (seqZ 0 (Z.of_nat n)) = Z.of_nat n.
Proof.
  induction n as [|n IH]; [done|]. replace (Z.of_nat (S n)) with (Z.of_nat n + 1) by lia.
  rewrite seqZ_app by lia. rewrite foldl_app, IH. change (seqZ (0 + Z.of_nat n) 1) with [0 + Z.of_nat n]. cbn [foldl]. lia.
Qed.

Lemma zero_image_spec : freeinode zero_image = 1 /\ freeblock zero_image = nmeta0 /\ img_size zero_image = FSSIZE /\
  forall n, 0 <= n < FSSIZE -> img zero_image n = zero_block.
Proof.
  assert (H : zeroed (seqZ 0 FSSIZE) (Mkfs (fun _ => []) 0 1 mk_nmeta) zero_image) by exact (zeroed_run _ _). destruct H as (H1 & H2 & H3 & H4).
  split; [exact H1|]. split; [exact H2|]. split.
  - rewrite H3. pose proof (max_seqZ (Z.to_nat FSSIZE)) as Hm. rewrite Z2Nat.id in Hm by (unfold FSSIZE; lia). exact Hm.
  - intros n Hn. apply H4. apply elem_of_seqZ. lia.
Qed.

Lemma mk_start_built : built mk_start (fun _ => []) (fun _ => 0) /\ freeinode mk_start = 1 /\ freeblock mk_start = nmeta0.
Proof.
  unfold mk_start. destruct zero_image_spec as (H1 & H2 & H3 & H4). revert H1 H2 H3 H4. generalize zero_image as s0. intros s0 H1 H2 H3 H4.
  assert (Hz : forall n, 0 <= n < FSSIZE -> n <> 1 -> img (wsect 1 (sb_block mk_sb) s0) n = zero_block).
  { intros n Hn Hne. unfold wsect, img_put. cbn [img]. rewrite (proj2 (Z.eqb_neq _ _)) by done. apply H4. lia. }
  assert (Hsb : block_ok (sb_block mk_sb)) by (unfold sb_block; repeat apply block_ok_set_le; apply block_ok_zero).
  unfold nmeta0, FSSIZE in *. split_and!; [|done|done]. split; cbn [freeinode wsect].
  - split; [|cbn [img_size wsect]; rewrite H3; unfold FSSIZE; lia]. split; cbn [freeinode freeblock wsect]; rewrite ?H1, ?H2; try lia.
    + intros n Hn. destruct (decide (n = 1)) as [->|]; [done|]. unfold FSSIZE in Hn. fold (wsect 1 (sb_block mk_sb) s0). rewrite Hz by done. apply block_ok_zero.
    + unfold nmeta0, FSSIZE. lia.
    + intros n Hn. unfold FSSIZE in Hn. apply Hz; lia.
  - rewrite H1. unfold NINODES. lia.
  - rewrite H1. lia.
  - done.
  - intros n Hn. apply Hz; lia.
Qed.

(** ** The files *)

(** Each argument is a file that can be read, with the name and the bytes given. *)
Definition entry_ok (f : list Z * option (list (list Z))) (e : list Z * list Z) : Prop :=
  shortname f.1 = Some e.1 /\ exists pieces, f.2 = Some pieces /\ concat pieces = e.2.

(** The entries of the root directory for files from inode [n] on. *)
Fixpoint root_entries (n : Z) (es : list (list Z * list Z)) : list Z :=
  match es with
  | [] => []
  | e :: es' => dirent_bytes n e.1 ++ root_entries (n + 1) es'
  end.

Definition file_need (e : list Z * list Z) : Z := need (ceil (Z.of_nat (length e.2))).
Definition files_need (es : list (list Z * list Z)) : Z := foldr (fun e n => file_need e + n) 0 es.


Lemma length_root_entries n es : length (root_entries n es) = (16 * length es)%nat.
Proof. revert n. induction es as [|e es IH]; intros n; cbn [root_entries]; [done|]. rewrite length_app, length_dirent_bytes, IH. simpl. lia. Qed.

Lemma need_pos n : 0 <= n -> 0 <= need n.
Proof. intros. unfold need. destruct (NDIRECT <? n); lia. Qed.
Lemma ceil_pos n : 0 <= n -> 0 <= ceil n.
Proof. intros. apply Z.div_pos; unfold BSIZE; lia. Qed.
Lemma files_need_pos es : 0 <= files_need es.
Proof. induction es as [|e es IH]; [done|]. cbn [files_need foldr]. fold (files_need es). pose proof (need_pos _ (ceil_pos (Z.of_nat (length e.2)) ltac:(lia))). unfold file_need. lia. Qed.

Lemma append_pieces_built i0 pieces s A T : let A' := fupd A i0 (A i0 ++ concat pieces) in
  built s A T -> 1 <= i0 < freeinode s -> Z.of_nat (length (A' i0)) <= MAXFILE * BSIZE ->
  freeblock s + need (cnt A' i0) - need (cnt A i0) <= FSSIZE ->
  exists s' A1, append_pieces i0 pieces s = Some s' /\ built s' A1 T /\ (forall i, A1 i = A' i) /\ freeinode s' = freeinode s /\
    freeblock s' = freeblock s + need (cnt A' i0) - need (cnt A i0).
Proof.
  revert s A. induction pieces as [|p pieces IH]; intros s A A' B Hi Hlen Hfb.
  - assert (EA : forall i, A' i = A i) by (intros i; unfold A', fupd; destruct (Z.eqb_spec i i0) as [->|]; [apply app_nil_r|done]).
    exists s, A. split_and!; try done. unfold cnt. rewrite EA. lia.
  - set (A1 := fupd A i0 (A i0 ++ p)). assert (HA1 : A1 i0 = A i0 ++ p) by apply fupd_eq.
    assert (HA' : A' i0 = (A i0 ++ p) ++ concat pieces) by (unfold A'; rewrite fupd_eq; simpl; by rewrite app_assoc).
    assert (Hmono : need (cnt A1 i0) <= need (cnt A' i0)) by (apply need_mono, ceil_mono; rewrite HA1, HA', (length_app (A i0 ++ p)); lia).
    destruct (iappend_built s A T i0 p B Hi) as (s1 & E1 & B1 & Fi & Fb);
      [fold A1; rewrite HA1; rewrite HA', length_app in Hlen; lia|fold A1; lia|]. fold A1 in B1, Fb.
    assert (EA' : forall i, fupd A1 i0 (A1 i0 ++ concat pieces) i = A' i) by (intros i; unfold A1; rewrite fupd_fupd, fupd_eq; unfold A'; simpl; by rewrite app_assoc).
    assert (Ec : cnt (fupd A1 i0 (A1 i0 ++ concat pieces)) i0 = cnt A' i0) by (unfold cnt; by rewrite EA').
    destruct (IH s1 A1 B1) as (s2 & A2 & E2 & B2 & EA2 & Fi2 & Fb2); [by rewrite Fi|by rewrite EA'|rewrite Ec; lia|].
    exists s2, A2. cbn [append_pieces]. rewrite E1. cbn [mbind option_bind]. split_and!; [done|done|intros i; by rewrite EA2, EA'|congruence|rewrite Fb2, Ec, Fb; lia].
Qed.

(** One file: a new inode after the others, and its entry at the end of the root. *)
Lemma add_file_built f e s A T : entry_ok f e -> built s A T -> 2 <= freeinode s < NINODES ->
  let r := Z.of_nat (length (A 1)) in
  Z.of_nat (length e.2) <= MAXFILE * BSIZE -> r + 16 <= MAXFILE * BSIZE ->
  freeblock s + need (ceil (r + 16)) - need (ceil r) + file_need e <= FSSIZE ->
  exists s' A' T', add_file 1 s f = Some s' /\ built s' A' T' /\ freeinode s' = freeinode s + 1 /\
    A' 1 = A 1 ++ dirent_bytes (freeinode s) e.1 /\ A' (freeinode s) = e.2 /\ T' (freeinode s) = T_FILE /\
    (forall i, 1 <= i < freeinode s -> T' i = T i /\ (i <> 1 -> A' i = A i)) /\
    freeblock s' = freeblock s + need (ceil (r + 16)) - need (ceil r) + file_need e.
Proof.
  intros (En & pieces & Ep & Ec) B Hn r Hsz Hroot Hfb. destruct f as [path contents], e as [name bs]. cbn [fst snd] in *. subst contents bs.
  assert (HN : NINODES = 200) by done.
  destruct (ialloc_built s A T T_FILE B ltac:(lia)) as (s1 & E1 & B1 & Fi1 & Fb1); [unfold T_DIR, T_FILE; lia|].
  set (n := freeinode s) in *. set (A1 := fupd A n []) in *. set (T1 := fupd T n T_FILE) in *.
  assert (H11 : A1 1 = A 1) by (apply fupd_ne; lia). set (d := dirent_bytes n name). set (A2 := fupd A1 1 (A1 1 ++ d)).
  assert (H21 : A2 1 = A 1 ++ d) by (unfold A2; by rewrite fupd_eq, H11). assert (Hd : length d = 16%nat) by apply length_dirent_bytes.
  assert (Hc2 : cnt A2 1 = ceil (r + 16)) by (unfold cnt; rewrite H21, length_app, Hd; unfold r; f_equal; lia).
  assert (Hc1 : cnt A1 1 = ceil r) by (unfold cnt; by rewrite H11).
  assert (Hf0 : 0 <= file_need (name, concat pieces)) by (unfold file_need; apply need_pos, ceil_pos; lia).
  destruct (iappend_built s1 A1 T1 1 d B1) as (s2 & E2 & B2 & Fi2 & Fb2);
    [lia|fold A2; rewrite H21, length_app, Hd; unfold r in *; lia|fold A2; rewrite Hc2, Hc1, Fb1; lia|]. fold A2 in B2, Fb2.
  assert (H2n : A2 n = []) by (unfold A2; rewrite fupd_ne by lia; apply fupd_eq).
  assert (Hc3 : cnt (fupd A2 n (A2 n ++ concat pieces)) n = ceil (Z.of_nat (length (concat pieces)))) by (unfold cnt; rewrite fupd_eq, H2n; done).
  assert (Hc2n : cnt A2 n = 0) by (unfold cnt; by rewrite H2n).
  destruct (append_pieces_built n pieces s2 A2 T1 B2) as (s3 & A3 & E3 & B3 & EA3 & Fi3 & Fb3);
    [lia|rewrite fupd_eq, H2n; exact Hsz|rewrite Hc3, Hc2n, Fb2, Hc2, Hc1, Fb1; change (need 0) with 0; unfold file_need in *; cbn [snd] in *; lia|].
  exists s3, A3, T1. split_and!; [|done|lia| | |apply fupd_eq| |].
  - unfold add_file. cbn [mbind option_bind]. rewrite En. cbn [mbind option_bind]. rewrite E1. cbn [mbind option_bind].
    rewrite xshort_id by lia. fold d. rewrite E2. cbn [mbind option_bind]. exact E3.
  - rewrite EA3, fupd_ne by lia. done.
  - rewrite EA3, fupd_eq, H2n. done.
  - intros i Hi. split; [apply fupd_ne; lia|]. intros Hi1. rewrite EA3, fupd_ne by lia. unfold A2. rewrite fupd_ne by lia. apply fupd_ne. lia.
  - rewrite Fb3, Hc3, Hc2n, Fb2, Hc2, Hc1, Fb1. change (need 0) with 0. unfold file_need. cbn [snd]. lia.
Qed.

Lemma files_built fs es s A T : Forall2 entry_ok fs es -> built s A T -> 2 <= freeinode s ->
  freeinode s + Z.of_nat (length es) <= NINODES ->
  let r := Z.of_nat (length (A 1)) in let r' := r + 16 * Z.of_nat (length es) in
  (forall e, e ∈ es -> Z.of_nat (length e.2) <= MAXFILE * BSIZE) -> r' <= MAXFILE * BSIZE ->
  freeblock s + need (ceil r') - need (ceil r) + files_need es <= FSSIZE ->
  exists s' A' T', add_files 1 fs s = Some s' /\ built s' A' T' /\ freeinode s' = freeinode s + Z.of_nat (length es) /\
    A' 1 = A 1 ++ root_entries (freeinode s) es /\ T' 1 = T 1 /\
    (forall j e, es !! j = Some e -> A' (freeinode s + Z.of_nat j) = e.2 /\ T' (freeinode s + Z.of_nat j) = T_FILE) /\
    (forall i, 2 <= i < freeinode s -> A' i = A i /\ T' i = T i).
Proof.
  intros Hfs. revert s A T. induction Hfs as [|f e fs es Hfe Hfs IH]; intros s A T B Hn Hni r r' Hsz Hr Hfb.
  { exists s, A, T. cbn [length root_entries add_files]. rewrite app_nil_r. split_and!; (done || lia). }
  cbn [length] in *. cbn [files_need foldr] in Hfb. fold (files_need es) in Hfb. pose proof (files_need_pos es).
  assert (Hmono : need (ceil (r + 16)) <= need (ceil r')) by (apply need_mono, ceil_mono; lia).
  destruct (add_file_built f e s A T Hfe B ltac:(lia)) as (s1 & A1 & T1 & E1 & B1 & Fi & H1 & Hn1 & Ht1 & Hold & Fb).
  { apply Hsz. left. }
  { fold r. lia. }
  { fold r. lia. }
  fold r in Fb. assert (Hr1 : Z.of_nat (length (A1 1)) = r + 16) by (rewrite H1, length_app, length_dirent_bytes; unfold r; lia).
  assert (Er' : r + 16 + 16 * Z.of_nat (length es) = r') by lia.
  destruct (IH s1 A1 T1 B1) as (s2 & A2 & T2 & E2 & B2 & Fi2 & HA & HT & Hnew & Hkeep).
  { lia. }
  { lia. }
  { intros e' He'. apply Hsz. by right. }
  { rewrite Hr1. lia. }
  { rewrite Hr1, Er', Fb. lia. }
  exists s2, A2, T2. cbn [add_files]. rewrite E1. cbn [mbind option_bind]. rewrite Fi in *. split_and!; [done|done|lia| | | |].
  - rewrite HA, H1. cbn [root_entries]. by rewrite <- app_assoc.
  - rewrite HT. apply Hold. lia.
  - intros [|j] e' He'.
    + injection He' as <-. rewrite Z.add_0_r. destruct (Hkeep (freeinode s) ltac:(lia)) as [-> ->]. done.
    + destruct (Hnew j e' He') as [HA' HT']. replace (freeinode s + Z.of_nat (S j)) with (freeinode s + 1 + Z.of_nat j) by lia. done.
  - intros i Hi. destruct (Hkeep i ltac:(lia)) as [-> ->]. destruct (Hold i ltac:(lia)) as [H2 H3]. split; [apply H3; lia|done].
Qed.

(** ** The end of [main] *)

Definition bitmap (n : Z) : block := foldl set_bit zero_block (seqZ 0 n).

Lemma bitmap_spec n : 0 <= n <= BPB -> block_ok (bitmap n) /\ forall k, 0 <= k -> bit_of (bitmap n) k = (k <? n).
Proof.
  intros Hn. rewrite <- (Z2Nat.id n) by lia. assert (Hm : (Z.to_nat n <= Z.to_nat BPB)%nat) by lia. revert Hm. generalize (Z.to_nat n) as m. clear n Hn.
  unfold bitmap. induction m as [|m IH]; intros Hm.
  - split; [apply block_ok_zero|]. intros k Hk. change (bit_of zero_block k = (k <? 0)). unfold bit_of. rewrite byte_at_zero_block, Z.testbit_0_l.
    symmetry. apply Z.ltb_ge. lia.
  - replace (Z.of_nat (S m)) with (Z.of_nat m + 1) by lia. rewrite seqZ_app by lia. rewrite foldl_app.
    change (seqZ (0 + Z.of_nat m) 1) with [0 + Z.of_nat m]. cbn [foldl]. destruct IH as [Hb Hk]; [lia|]. split; [by apply block_ok_zset|].
    intros k Hk0. rewrite bit_of_set by (done || lia). rewrite Hk by done. rewrite Z.add_0_l.
    destruct (Z.eqb_spec k (Z.of_nat m)), (Z.ltb_spec k (Z.of_nat m)), (Z.ltb_spec k (Z.of_nat m + 1)); (done || lia).
Qed.

(** The root directory's size at the end. *)
Definition root_size (n : Z) : Z := (n / BSIZE + 1) * BSIZE.

Record finished (st : mkfs) (ni : Z) (A : Z -> list Z) (T : Z -> Z) : Prop := {
  f_data : data ni (freeblock st) (img st) (inode_of st) (cnt A) (big A) A;
  f_ni : 1 < ni <= NINODES;
  f_ino i : 1 <= i < ni -> T_DIR <= T i <= T_FILE /\
    let n := Z.of_nat (length (A i)) in
    inode_of st i = Dinode (T i) 0 0 1 (if i =? 1 then root_size n else n) (di_addrs (inode_of st i));
  f_sb : img st 1 = sb_block mk_sb;
  f_log n : 2 <= n < 32 -> img st n = zero_block;
  f_bmap : img st 45 = bitmap (freeblock st)
}.

Lemma end_finished s A T : built s A T -> 1 < freeinode s -> Z.of_nat (length (A 1)) <= MAXFILE * BSIZE ->
  exists st, (s1 ← fix_root 1 s; mk_balloc (freeblock s1) s1) = Some st /\ finished st (freeinode s) A T.
Proof.
  intros [[H Hsz] Hni Hino Hsb Hlog] Hn Hlen. assert (HN : NINODES = 200) by done. assert (HB : BSIZE = 1024) by done.
  assert (HM : MAXFILE * BSIZE = 274432) by done. unfold fix_root. rewrite rinode_run by (done || lia). cbn [mbind option_bind].
  destruct (Hino 1 ltac:(lia)) as [Ht Edn]. set (n := Z.of_nat (length (A 1))) in *.
  assert (Es : di_size (inode_of s 1) = n) by (by rewrite Edn). assert (Hd : 0 <= n / BSIZE <= 268) by (split; [apply Z.div_pos; lia|apply Z.lt_succ_r, Z.div_lt_upper_bound; lia]).
  rewrite Es, (xint_id n), wrap_small, xint_id by lia. fold (root_size n).
  assert (Edi : with_size (root_size n) (inode_of s 1) = Dinode (T 1) 0 0 1 (root_size n) (di_addrs (inode_of s 1))) by (by rewrite Edn).
  destruct (winode_run s 1 (with_size (root_size n) (inode_of s 1))) as (s1 & E1 & Eo & Eoth & Eimg & Hbk & Hsz1 & Fi & Fb);
    [done|lia|apply H|rewrite Edi; eapply dinode_ok_data; [exact H|lia|done|unfold root_size; lia]|].
  rewrite E1. cbn [mbind option_bind]. pose proof (d_fb _ _ _ _ _ _ _ H) as Hfb. unfold nmeta0, FSSIZE in Hfb. assert (HP : BPB = 8192) by done.
  unfold mk_balloc. rewrite (proj2 (Z.ltb_lt _ _)) by lia. change (sb_bmapstart mk_sb) with 45.
  change (foldl _ zero_block (seqZ 0 (freeblock s1))) with (bitmap (freeblock s1)). destruct (bitmap_spec (freeblock s1) ltac:(lia)) as [Hbm _].
  set (st := wsect 45 (bitmap (freeblock s1)) s1). exists st. split; [done|].
  assert (Ein : forall j, 1 <= j < freeinode s -> inode_of st j = inode_of s1 j).
  { intros j Hj. unfold inode_of, st, wsect, img_put. cbn [img]. pose proof (IBLOCK_mk j ltac:(lia)). by rewrite (proj2 (Z.eqb_neq _ _)) by lia. }
  assert (Eimg' : forall m, m <> 45 -> img st m = img s1 m) by (intros m Hm; unfold st, wsect, img_put; cbn [img]; by rewrite (proj2 (Z.eqb_neq _ _))).
  split.
  - change (freeblock st) with (freeblock s1). rewrite Fb. eapply data_meta.
    + eapply data_addrs; [exact H|]. intros j Hj. rewrite Ein by done. destruct (decide (j = 1)) as [->|]; [by rewrite Eo|by rewrite Eoth by lia].
    + intros m Hm. unfold nmeta0 in Hm. rewrite Eimg', Eimg by lia. done.
    + intros m Hm. destruct (decide (m = 45)) as [->|]; [done|]. rewrite Eimg' by done. by apply Hbk.
  - lia.
  - intros j Hj. destruct (Hino j Hj) as [Htj Ej]. split; [done|]. cbv zeta. rewrite Ein by done. destruct (Z.eqb_spec j 1) as [->|Hne].
    + by rewrite Eo, Edi.
    + by rewrite Eoth by lia.
  - rewrite Eimg', Eimg by lia. done.
  - intros m Hm. rewrite Eimg', Eimg by lia. by apply Hlog.
  - done.
Qed.

Definition dots : list Z := dirent_bytes 1 [46] ++ dirent_bytes 1 [46; 46].

(** The blocks the whole image takes. *)
Definition fits (es : list (list Z * list Z)) : Prop :=
  Z.of_nat (length es) <= 198 /\ (forall e, e ∈ es -> Z.of_nat (length e.2) <= MAXFILE * BSIZE) /\
  nmeta0 + need (ceil (32 + 16 * Z.of_nat (length es))) + files_need es <= FSSIZE.

Lemma mkfs_main_finished fs es : Forall2 entry_ok fs es -> fits es ->
  exists st A T, mkfs_main fs = Some st /\ finished st (2 + Z.of_nat (length es)) A T /\ A 1 = dots ++ root_entries 2 es /\ T 1 = T_DIR /\
    forall j e, es !! j = Some e -> A (2 + Z.of_nat j) = e.2 /\ T (2 + Z.of_nat j) = T_FILE.
Proof.
  intros Hfs (Hn & Hsz & Hfit). destruct mk_start_built as (B0 & Hi0 & Hb0). assert (HN : NINODES = 200) by done. assert (HM : MAXFILE * BSIZE = 274432) by done.
  assert (HF : FSSIZE = 2000) by done. assert (H46 : nmeta0 = 46) by done. assert (H16 : ceil 16 = 1) by done. assert (H32 : ceil 32 = 1) by done.
  destruct (ialloc_built mk_start _ _ T_DIR B0 ltac:(lia)) as (s1 & E1 & B1 & Fi1 & Fb1); [unfold T_DIR, T_FILE; lia|]. rewrite Hi0 in *.
  set (A1 := fupd (fun _ => []) 1 []) in *. set (T1 := fupd (fun _ => 0) 1 T_DIR) in *.
  assert (HA1 : A1 1 = []) by apply fupd_eq. set (d1 := dirent_bytes 1 [46]). set (d2 := dirent_bytes 1 [46; 46]).
  assert (L1 : length d1 = 16%nat) by apply length_dirent_bytes. assert (L2 : length d2 = 16%nat) by apply length_dirent_bytes.
  set (A2 := fupd A1 1 (A1 1 ++ d1)). assert (HA2 : A2 1 = d1) by (unfold A2; by rewrite fupd_eq, HA1).
  set (A3 := fupd A2 1 (A2 1 ++ d2)). assert (HA3 : A3 1 = d1 ++ d2) by (unfold A3; by rewrite fupd_eq, HA2).
  assert (C1 : cnt A1 1 = 0) by (unfold cnt; by rewrite HA1). assert (C2 : cnt A2 1 = 1) by (unfold cnt; by rewrite HA2, L1).
  assert (C3 : cnt A3 1 = 1) by (unfold cnt; by rewrite HA3, length_app, L1, L2). change (need 0) with 0 in *.
  destruct (iappend_built s1 A1 T1 1 d1 B1) as (s2 & E2 & B2 & Fi2 & Fb2);
    [lia|fold A2; rewrite HA2, L1; lia|fold A2; rewrite C2, C1; change (need 1) with 1; change (need 0) with 0; lia|]. fold A2 in B2, Fb2.
  rewrite C2, C1 in Fb2. change (need 1) with 1 in Fb2. change (need 0) with 0 in Fb2.
  destruct (iappend_built s2 A2 T1 1 d2 B2) as (s3 & E3 & B3 & Fi3 & Fb3);
    [lia|fold A3; rewrite HA3, length_app, L1, L2; lia|fold A3; rewrite C3, C2; lia|]. fold A3 in B3, Fb3. rewrite C3, C2 in Fb3.
  assert (Hr : Z.of_nat (length (A3 1)) = 32) by (by rewrite HA3, length_app, L1, L2).
  destruct (files_built fs es s3 A3 T1 Hfs B3) as (s4 & A4 & T4 & E4 & B4 & Fi4 & HA4 & HT4 & Hnew & _).
  { lia. }
  { lia. }
  { done. }
  { rewrite Hr. lia. }
  { rewrite Hr, H32. change (need 1) with 1. lia. }
  assert (Hlen4 : Z.of_nat (length (A4 1)) <= MAXFILE * BSIZE) by (rewrite HA4, length_app, length_root_entries; lia).
  destruct (end_finished s4 A4 T4 B4 ltac:(lia) Hlen4) as (st & E5 & Hfin).
  assert (Ni : freeinode s3 = 2) by lia. rewrite Ni in *. exists st, A4, T4. split_and!.
  - unfold mkfs_main. rewrite E1. cbn [mbind option_bind]. change (1 =? ROOTINO) with true. cbv iota. change (xshort 1) with 1.
    fold d1 d2. rewrite E2. cbn [mbind option_bind]. rewrite E3. cbn [mbind option_bind]. rewrite E4. cbn [mbind option_bind]. exact E5.
  - by rewrite Fi4 in Hfin.
  - by rewrite HA4, HA3.
  - rewrite HT4. apply fupd_eq.
  - done.
Qed.

(** ** The image as the kernel sees it *)

Definition decode_sb (d : block) : superblock :=
  Superblock (get32 d 0) (get32 d 4) (get32 d 8) (get32 d 12) (get32 d 16) (get32 d 20) (get32 d 24) (get32 d 28).

Lemma bytes_of_list (l : list Z) n : Z.of_nat (length l) <= n ->
  (byte_at l <$> seqZ 0 n) = l ++ replicate (Z.to_nat n - length l) 0.
Proof.
  intros Hn. apply list_eq. intros i. rewrite list_lookup_fmap. destruct (decide (Z.of_nat i < n)) as [Hi|Hi].
  - rewrite lookup_seqZ_lt by lia. cbn [fmap option_fmap option_map]. rewrite Z.add_0_l. destruct (decide (i < length l)%nat) as [Hl|Hl].
    + rewrite lookup_app_l by done. rewrite <- (zget_byte_at l) by lia. unfold zget. by rewrite (proj2 (Z.leb_le _ _)), Nat2Z.id by lia.
    + rewrite byte_at_ge by lia. rewrite lookup_app_r by lia. symmetry. apply lookup_replicate_2. lia.
  - rewrite lookup_seqZ_ge by lia. symmetry. apply lookup_ge_None_2. rewrite length_app, length_replicate. lia.
Qed.

Section kernel.
Context {C U : Type} `{HL : BlockCacheLaws C}.
Implicit Type s : fs C U.

(** The kernel's state after [fsinit] on the image: its blocks, the superblock read from
    block 1, and the log where the superblock says. *)
Record boots (s : fs C U) (st : mkfs) : Prop := {
  bt_sb : fs_sb s = decode_sb (img st 1);
  bt_start : lg_start (lg s) = sb_logstart (fs_sb s);
  bt_size : lg_size (lg s) = sb_nlog (fs_sb s);
  bt_content n : 0 <= n < FSSIZE -> content s n = img st n
}.

Context (s : fs C U) (st : mkfs) (ni : Z) (A : Z -> list Z) (T : Z -> Z).
Context (B : boots s st) (F : finished st ni A T).

Lemma boot_sb : fs_sb s = Superblock FSMAGIC 2000 1954 200 30 2 32 45.
Proof using B F. rewrite (bt_sb _ _ B), (f_sb _ _ _ _ F). vm_compute. reflexivity. Qed.

Lemma boot_geometry : geometry s.
Proof using B F.
  assert (HB : BPB = 8192) by done. assert (HI : IPB = 16) by done. unfold geometry.
  rewrite (bt_start _ _ B), (bt_size _ _ B), boot_sb. cbn [sb_logstart sb_nlog]. split; unfold nmeta; cbn [sb_size sb_nblocks sb_bmapstart sb_inodestart sb_ninodes].
  - lia.
  - lia.
  - lia.
  - intros b Hb. rewrite Z.div_small by lia. lia.
  - intros i Hi. assert (0 <= i / IPB < 13) by (split; [apply Z.div_pos; lia|apply Z.div_lt_upper_bound; lia]).
    split_and!; [lia|lia|lia|]. intros b Hb. rewrite (Z.div_small b) by lia. lia.
Qed.

Lemma boot_used b : 0 <= b < FSSIZE -> used s b = (b <? freeblock st).
Proof using B F.
  intros Hb. assert (HP : BPB = 8192) by done. unfold FSSIZE in Hb. unfold used, bmap_block. rewrite boot_sb. cbn [sb_bmapstart].
  rewrite Z.div_small, Z.mod_small, Z.add_0_l by lia. rewrite (bt_content _ _ B) by (unfold FSSIZE; lia). rewrite (f_bmap _ _ _ _ F).
  pose proof (d_fb _ _ _ _ _ _ _ (f_data _ _ _ _ F)) as Hfb. unfold nmeta0, FSSIZE in Hfb. apply bitmap_spec; lia.
Qed.

Lemma boot_inode i : 0 <= i < NINODES -> disk_inode s i = inode_of st i.
Proof using B F.
  intros Hi. destruct (IBLOCK_mk i Hi) as [_ Hr]. unfold disk_inode, inode_block, inode_of. rewrite boot_sb. cbn [sb_inodestart].
  rewrite (bt_content _ _ B) by (unfold FSSIZE; lia). done.
Qed.

Context (i : Z) (x : inode) (Hi : 1 <= i < ni) (Hx : ip_di x = disk_inode s i).

Lemma boot_di : ip_di x = inode_of st i.
Proof using B F Hi Hx. rewrite Hx. pose proof (f_ni _ _ _ _ F). apply boot_inode. lia. Qed.

Lemma boot_addr bn : 0 <= bn < MAXFILE -> file_addr s x bn = slot (img st) (inode_of st i) bn.
Proof using B F Hi Hx.
  intros Hbn. unfold file_addr, slot, addr_at. rewrite boot_di. fold (addr (inode_of st i) bn). fold (addr (inode_of st i) NDIRECT).
  destruct (bn <? NDIRECT); [done|]. rewrite (proj2 (Z.eqb_neq bn _)) by lia. destruct (Z.eqb_spec (addr (inode_of st i) NDIRECT) 0) as [|Hne]; [done|].
  pose proof (d_ind _ _ _ _ _ _ _ _ (f_data _ _ _ _ F) Hi Hne) as Hr. unfold nmeta0 in Hr. by rewrite (bt_content _ _ B) by lia.
Qed.

Lemma boot_file_ok : file_ok s x.
Proof using B F Hi Hx.
  pose proof (f_data _ _ _ _ F) as HD. assert (HM : MAXFILE = 268) by done. pose proof (d_fb _ _ _ _ _ _ _ HD) as Hfb. unfold nmeta0 in Hfb.
  assert (Hind : addr_at x NDIRECT = slot (img st) (inode_of st i) MAXFILE) by (unfold addr_at; by rewrite boot_di).
  assert (Hgood : forall k, 0 <= k <= MAXFILE -> slot (img st) (inode_of st i) k <> 0 ->
    in_data s (slot (img st) (inode_of st i) k) /\ used s (slot (img st) (inode_of st i) k) = true).
  { intros k Hk Hne. pose proof (d_slot _ _ _ _ _ _ _ HD i k Hi Hk) as Hs. case_decide; [|done]. unfold nmeta0 in Hs.
    split; [unfold in_data, nmeta; rewrite boot_sb; cbn [sb_size sb_nblocks]; unfold FSSIZE in *; lia|].
    rewrite boot_used by lia. apply Z.ltb_lt. lia. }
  split.
  - rewrite boot_di. by apply (d_len _ _ _ _ _ _ _ HD).
  - rewrite Hind. apply Hgood. lia.
  - intros bn Hbn. rewrite boot_addr by done. intros Hne. destruct (Hgood bn ltac:(lia) Hne). split_and!; [done|done|]. rewrite Hind. intros E.
    destruct (d_inj _ _ _ _ _ _ _ HD i i bn MAXFILE) as [_ ?]; try done; lia.
  - intros bn bn' Hbn Hbn'. rewrite !boot_addr by done. intros E Hne. apply (d_inj _ _ _ _ _ _ _ HD i i bn bn'); try done; lia.
Qed.

(** The bytes of the file, zeroes after its end. *)
Lemma boot_bytes n : n <= cnt A i * BSIZE -> (forall bn, 0 <= bn -> bn * BSIZE < n -> file_addr s x bn <> 0) /\
  file_bytes s x 0 n = (byte_at (A i) <$> seqZ 0 n).
Proof using B F Hi Hx.
  intros Hn. pose proof (f_data _ _ _ _ F) as HD. assert (HM : MAXFILE = 268) by done. assert (HB : BSIZE = 1024) by done.
  destruct (d_nb _ _ _ _ _ _ _ HD i Hi) as (Hc & _ & _). pose proof (d_fb _ _ _ _ _ _ _ HD) as Hfb. unfold nmeta0 in Hfb.
  assert (Hs : forall bn, 0 <= bn < cnt A i -> 46 <= slot (img st) (inode_of st i) bn < freeblock st).
  { intros bn Hbn. apply (d_has _ _ _ _ _ _ _ HD); [done|lia|apply has_data; lia]. }
  split.
  - intros bn H0 Hbn. assert (bn < cnt A i) by lia. rewrite boot_addr by lia. specialize (Hs bn ltac:(lia)). lia.
  - apply list_fmap_ext. intros j p Hp. apply lookup_seqZ in Hp as [-> Hj]. unfold file_byte. set (p := 0 + Z.of_nat j) in *.
    assert (Hp : 0 <= p / BSIZE < cnt A i) by (split; [apply Z.div_pos; lia|apply Z.div_lt_upper_bound; lia]).
    rewrite boot_addr by lia. specialize (Hs _ Hp). rewrite (bt_content _ _ B) by lia. apply (d_byte _ _ _ _ _ _ _ HD); [done|lia].
Qed.

Lemma boot_size : di_size (ip_di x) = if i =? 1 then root_size (Z.of_nat (length (A i))) else Z.of_nat (length (A i)).
Proof using B F Hi Hx. rewrite boot_di. destruct (f_ino _ _ _ _ F i Hi) as [_ E]. by rewrite E. Qed.

Lemma boot_type : di_type (ip_di x) = T i.
Proof using B F Hi Hx. rewrite boot_di. destruct (f_ino _ _ _ _ F i Hi) as [_ E]. by rewrite E. Qed.

Lemma file_len : Z.of_nat (length (A i)) <= cnt A i * BSIZE <= MAXFILE * BSIZE.
Proof using F Hi. destruct (d_nb _ _ _ _ _ _ _ (f_data _ _ _ _ F) i Hi) as (Hc & Hl & _). unfold BSIZE in *. lia. Qed.

Lemma boot_dinode_ok : dinode_ok (ip_di x).
Proof using B F Hi Hx.
  rewrite boot_di. destruct (f_ino _ _ _ _ F i Hi) as [Ht ->]. eapply dinode_ok_data; [apply (f_data _ _ _ _ F)|done|done|].
  pose proof file_len as Hl. assert (HM : MAXFILE * BSIZE = 274432) by done. assert (HB : BSIZE = 1024) by done. destruct (i =? 1); [|lia]. unfold root_size.
  set (n := Z.of_nat (length (A i))) in *. assert (0 <= n / BSIZE <= 268) by (split; [apply Z.div_pos; lia|apply Z.lt_succ_r, Z.div_lt_upper_bound; lia]). lia.
Qed.

Lemma boot_file : i <> 1 -> di_type (ip_di x) = T i /\ file_whole s x /\ file_bytes s x 0 (di_size (ip_di x)) = A i.
Proof using B F Hi Hx.
  intros Hne. pose proof file_len as Hl. pose proof boot_size as Hs. rewrite (proj2 (Z.eqb_neq _ _) Hne) in Hs.
  destruct (boot_bytes (di_size (ip_di x))) as [Ha Hb]; [lia|]. split_and!; [apply boot_type|split; [lia|done]|].
  rewrite Hb, bytes_of_list by lia. rewrite Hs, Nat2Z.id, Nat.sub_diag. apply app_nil_r.
Qed.

Lemma boot_root : i = 1 -> let n := root_size (Z.of_nat (length (A 1))) in
  di_type (ip_di x) = T 1 /\ di_size (ip_di x) = n /\
  (Z.of_nat (length (A 1)) mod BSIZE <> 0 -> file_whole s x /\ file_bytes s x 0 n = A 1 ++ replicate (Z.to_nat n - length (A 1)) 0).
Proof using B F Hi Hx.
  intros E n. pose proof file_len as Hl. pose proof boot_size as Hs. pose proof boot_type as Ht. pose proof boot_bytes as Hb. rewrite E in *. cbn [Z.eqb Pos.eqb] in Hs. fold n in Hs.
  split_and!; [done|done|]. intros Hm. assert (HB : BSIZE = 1024) by done. set (m := Z.of_nat (length (A 1))) in *.
  pose proof (Z.div_mod m BSIZE ltac:(lia)). pose proof (Z.mod_pos_bound m BSIZE ltac:(lia)).
  assert (Hn : n = cnt A 1 * BSIZE) by (unfold n, root_size, cnt; fold m; rewrite (ceil_spec m (m / BSIZE + 1)) by lia; done).
  destruct (Hb n ltac:(lia)) as [Ha Hbs]. split; [split; [rewrite Hs, Hn; assert (0 <= m) by apply Nat2Z.is_nonneg; lia|by rewrite Hs]|].
  rewrite Hbs. apply bytes_of_list. fold m. lia.
Qed.

(** When the entries fill their blocks exactly, the rounded size covers a block that the
    root directory does not have. *)
Lemma boot_root_hole : i = 1 -> Z.of_nat (length (A 1)) mod BSIZE = 0 -> Z.of_nat (length (A 1)) < MAXFILE * BSIZE ->
  let bn := Z.of_nat (length (A 1)) / BSIZE in bn * BSIZE < di_size (ip_di x) /\ file_addr s x bn = 0.
Proof using B F Hi Hx.
  intros E Hm Hlt bn. assert (HB : BSIZE = 1024) by done. assert (HM : MAXFILE = 268) by done. pose proof boot_size as Hs. pose proof boot_addr as Ha. rewrite E in *. cbn [Z.eqb Pos.eqb] in Hs.
  pose proof (Z.div_mod (Z.of_nat (length (A 1))) BSIZE ltac:(lia)) as Hdm. fold bn in Hdm. assert (0 <= bn) by (apply Z.div_pos; lia).
  split; [rewrite Hs; unfold root_size; fold bn; lia|]. rewrite Ha by lia. apply (d_hasnt _ _ _ _ _ _ _ (f_data _ _ _ _ F)); [done|lia|].
  rewrite has_data by lia. unfold cnt. rewrite (ceil_spec _ bn) by lia. lia.
Qed.
End kernel.

Definition root_bytes (es : list (list Z * list Z)) : list Z := dots ++ root_entries 2 es.


(** ** Booting on the image *)

Definition disk_of (st : mkfs) : Z -> block := fun n => if (0 <=? n) && (n <? FSSIZE) then img st n else zero_block.

Section boot.
Context {C U : Type} `{HL : BlockCacheLaws C}.

(** The kernel after [fsinit], with an empty log, inode table [it] and user memory [u]. *)
Definition boot_fs (st : mkfs) (it : list inode) (pid : Z) (u : U) : Fs.fs C U :=
  Fs (Logstate (Log 2 30 0 0 (Logheader 0 (replicate 30 0))) (c_boot (disk_of st))) (decode_sb (img st 1)) it pid u.

Lemma boot_fs_ok st ni A T it pid u : finished st ni A T -> let s := boot_fs st it pid u in
  ready (fun _ => 0) [] s /\ nfree s = c_nbuf /\ boots s st.
Proof.
  intros F s. destruct (ready_boot (disk_of st) (Log 2 30 0 0 (Logheader 0 (replicate 30 0))) (decode_sb (img st 1)) it pid u) as (Hr & Hf & Hc).
  - intros n. unfold disk_of. destruct ((0 <=? n) && (n <? FSSIZE)) eqn:E; [|apply block_ok_zero].
    apply andb_true_iff in E as [E1%Z.leb_le E2%Z.ltb_lt]. apply (d_block _ _ _ _ _ _ _ (f_data _ _ _ _ F)). lia.
  - split; try done; try (simpl; lia); [constructor|]. intros n Hb. by apply elem_of_nil in Hb.
  - done.
  - assert (Hsb : decode_sb (img st 1) = Superblock FSMAGIC 2000 1954 200 30 2 32 45) by (rewrite (f_sb _ _ _ _ F); vm_compute; reflexivity).
    split_and!; [exact Hr|exact Hf|]. split; [done| | |]; cbn [boot_fs s fs_sb lg fs_log lg_start lg_size]; rewrite ?Hsb; try done.
    intros n Hn. rewrite Hc. unfold disk_of. by rewrite (proj2 (Z.leb_le _ _)), (proj2 (Z.ltb_lt _ _)) by lia.
Qed.

(** What mkfs stores, the kernel reads.  When mkfs succeeds on the given files and the
    kernel boots on the image, [readi] on the inode of the [j]-th file, asked for at least
    the whole file, returns exactly the bytes the file had, whatever the sizes of the pieces
    in which mkfs read it and whether its blocks are direct or indirect. *)
Theorem mkfs_readi fs es (Hfs : Forall2 entry_ok fs es) (Hfit : fits es) (Hbuf : 0 < c_nbuf)
    (ucopyout : U -> Z -> list Z -> Z * U) j e (Hj : es !! j = Some e) :
  exists st, mkfs_main fs = Some st /\
    forall it pid u ip x n, let s := boot_fs st it pid u in
      zget it ip = Some x -> ip_di x = disk_inode s (2 + Z.of_nat j) -> Z.of_nat (length e.2) <= n < 2 ^ 32 ->
      exists s' t, readi ucopyout ip DKernel 0 n s = Done (Z.of_nat (length e.2), e.2) s' t /\ reads s s'.
Proof.
  destruct (mkfs_main_finished fs es Hfs Hfit) as (st & A & T & E & F & _ & _ & Hfile). exists st. split; [exact E|]. clear E.
  intros it pid u ip x n s Hx Hdi Hn. destruct (boot_fs_ok st _ A T it pid u F) as (Hr & Hf & B). fold s in Hr, Hf, B.
  pose proof (lookup_lt_Some _ _ _ Hj) as Hlt. destruct (Hfile j e Hj) as [HA _].
  destruct (boot_file s st _ A T B F (2 + Z.of_nat j) x ltac:(lia) Hdi ltac:(lia)) as (_ & Hw & Hb).
  pose proof (boot_size s st _ A T B F (2 + Z.of_nat j) x ltac:(lia) Hdi) as Hs. rewrite (proj2 (Z.eqb_neq _ _)) in Hs by lia. rewrite HA in Hs, Hb.
  assert (Hlen : readi_len (di_size (ip_di x)) 0 n = Z.of_nat (length e.2)).
  { unfold readi_len. rewrite Hs, (proj2 (Z.ltb_ge _ _)), (proj2 (Z.leb_gt _ _)) by lia. cbn [orb]. lia. }
  assert (G : wpn (readi ucopyout ip DKernel 0 n) s (fun r s' => r = (Z.of_nat (length e.2), e.2) /\ reads s s')).
  { eapply (readi_run (fun _ => 0) ltac:(intros; lia) ucopyout s ip x); [exact Hr|exact Hx|lia|exact Hw|lia|lia|].
    intros s' _ Hrd _. rewrite Hlen. split; [|exact Hrd]. f_equal. rewrite <- Hs. exact Hb. }
  apply wpn_done in G as (a & s' & t & E & -> & Hrd). eauto.
Qed.
End boot.

(** ** An example *)

#[local] Instance demo_cache : BlockCache bcache := bio_cache 1.
#[local] Instance demo_laws : BlockCacheLaws bcache := bio_laws 1.

(** The file user/_cat with three bytes, read in two pieces. *)
Definition demo_args : list (list Z * option (list (list Z))) := [([117; 115; 101; 114; 47; 95; 99; 97; 116], Some [[1; 2]; [3]])].
Definition demo_entries : list (list Z * list Z) := [([99; 97; 116], [1; 2; 3])].

Lemma demo_args_ok : Forall2 entry_ok demo_args demo_entries /\ fits demo_entries.
Proof.
  split.
  - constructor; [|constructor]. split; [reflexivity|]. exists [[1; 2]; [3]]. split; reflexivity.
  - split_and!; [simpl; lia| |vm_compute; discriminate]. intros e ->%list_elem_of_singleton. vm_compute. discriminate.
Qed.


Lemma mkfs_readi_witness :
  exists st, mkfs_main demo_args = Some st /\
    forall x, let s := boot_fs (C := bcache) st [x] 1 tt in ip_di x = disk_inode s 2 ->
      exists s' t, readi (fun (u : unit) _ _ => (0, u)) 0 DKernel 0 100 s = Done (3, [1; 2; 3]) s' t.
Proof.
  destruct demo_args_ok as [H1 H2]. assert (Hbuf : 0 < c_nbuf (S := bcache)) by (change c_nbuf with 30; lia).
  destruct (mkfs_readi (C := bcache) (U := unit) demo_args demo_entries H1 H2 Hbuf (fun u _ _ => (0, u)) 0%nat ([99; 97; 116], [1; 2; 3]) eq_refl)
    as (st & E & G).
  exists st. split; [exact E|]. intros x s Hx. destruct (G [x] 1 tt 0 x 100 eq_refl Hx) as (s' & t & Er & _); [split; [vm_compute; discriminate|reflexivity]|].
  exists s', t. exact Er.
Defined.
