(* ===== verification/MkfsPath.v ===== *)
(** * mkfs/mkfs.c and kernel/fs.c: the files of the image by name

    The root directory that mkfs writes, as the kernel's path lookup sees it: a file given to
    mkfs is found under its name, and what is read from it is what mkfs was given. *)

From Stdlib Require Import ZArith Lia.
From stdpp Require Import base list strings numbers option.
From S2P Require Import Prelude Sleeplock Blocks BlockCache Bio BioProofs Log LogProofs Fs FsBase FsRead FsAlloc FsDir FsPath Mkfs MkfsProofs MkfsImage.

(** Pieces of equal length, one after the other. *)
Lemma slice_concat (w : nat) (ls : list (list Z)) rest k l : Forall (fun l => length l = w) ls -> ls !! k = Some l ->
  take w (drop (w * k) (concat ls ++ rest)) = l.
Proof.
  intros Hl. revert k. induction Hl as [|a ls Ha Hl IH]; intros k Hk; [done|]. destruct k as [|k].
  - injection Hk as ->. rewrite Nat.mul_0_r, drop_0. cbn [concat]. rewrite <- app_assoc, take_app_length'; done.
  - cbn [concat]. rewrite Nat.mul_succ_r, Nat.add_comm, <- app_assoc, <- drop_drop, drop_app_length' by done. by apply IH.
Qed.

Lemma length_concat_all (w : nat) (ls : list (list Z)) : Forall (fun l => length l = w) ls -> length (concat ls) = (w * length ls)%nat.
Proof. induction 1 as [|a ls Ha Hl IH]; cbn [concat length]; [lia|]. rewrite length_app, IH. lia. Qed.

(** The entries of the root directory: inode numbers and names. *)
Definition root_list (es : list (list Z * list Z)) : list (Z * list Z) :=
  (1, [46]) :: (1, [46; 46]) :: imap (fun j e => (2 + Z.of_nat j, e.1)) es.

Lemma root_entries_imap n es :
  root_entries n es = concat ((fun p : Z * list Z => dirent_bytes p.1 p.2) <$> imap (fun j e => (n + Z.of_nat j, e.1)) es).
Proof.
  revert n. induction es as [|e es IH]; intros n; [done|]. cbn [root_entries imap fmap list_fmap concat fst snd]. rewrite Z.add_0_r, IH. do 3 f_equal.
  apply imap_ext. intros j x _. unfold compose. f_equal. lia.
Qed.

Lemma root_bytes_list es : root_bytes es = concat ((fun p : Z * list Z => dirent_bytes p.1 p.2) <$> root_list es).
Proof. unfold root_bytes, dots, root_list. rewrite root_entries_imap, !fmap_cons. cbn [concat fst snd]. by rewrite <- app_assoc. Qed.

Lemma length_root_bytes es : length (root_bytes es) = (16 * (2 + length es))%nat.
Proof. unfold root_bytes, dots. rewrite !length_app, !length_dirent_bytes, length_root_entries. lia. Qed.

Lemma length_root_list es : length (root_list es) = (2 + length es)%nat.
Proof. unfold root_list. cbn [length]. by rewrite length_imap. Qed.

Lemma root_list_file es k : root_list es !! S (S k) = (fun e => (2 + Z.of_nat k, e.1)) <$> es !! k.
Proof. exact (list_lookup_imap _ es k). Qed.

Lemma root_list_inum es k i name : root_list es !! k = Some (i, name) -> 1 <= i < 2 + Z.of_nat (length es).
Proof.
  destruct k as [|[|k]]; [cbn; intros [= <- _]; lia..|]. rewrite root_list_file. destruct (es !! k) as [e|] eqn:E; [|done]. cbn [fmap option_fmap option_map].
  intros [= <- _]. apply lookup_lt_Some in E. lia.
Qed.

(** Entry [k] as it is read. *)
Lemma root_slice es m k : (k * 16 < length (root_bytes es) + m)%nat -> (16 | Z.of_nat m) ->
  take 16 (drop (16 * k) (root_bytes es ++ replicate m 0)) =
  match root_list es !! k with Some (i, name) => dirent_bytes i name | None => replicate 16 0 end.
Proof.
  intros Hk [c Hc]. rewrite root_bytes_list in *. set (ls := (fun p : Z * list Z => dirent_bytes p.1 p.2) <$> root_list es) in *.
  assert (Hl : Forall (fun l => length l = 16%nat) ls) by (apply Forall_fmap, Forall_forall; intros; apply length_dirent_bytes).
  pose proof (length_concat_all 16 ls Hl) as Hn. assert (Hln : length ls = length (root_list es)) by apply length_fmap.
  destruct (root_list es !! k) as [[i name]|] eqn:E.
  - apply slice_concat; [done|]. unfold ls. by rewrite list_lookup_fmap, E.
  - apply lookup_ge_None in E. rewrite drop_app_ge, drop_replicate, take_replicate by lia. f_equal. lia.
Qed.

(** ** The root directory of the image *)

Lemma file_bytes_slice {C U : Type} `{HL : BlockCacheLaws C} (s : Fs.fs C U) x off n m : 0 <= off -> 0 <= n -> off + n <= m ->
  file_bytes s x off n = take (Z.to_nat n) (drop (Z.to_nat off) (file_bytes s x 0 m)).
Proof.
  intros Ho Hn Hle. replace m with (off + (n + (m - off - n))) by lia. rewrite <- (file_bytes_app s x 0 off), <- (file_bytes_app s x (0 + off) n), Z.add_0_l by lia.
  assert (Hl : forall o k, length (file_bytes s x o k) = Z.to_nat k) by (intros; unfold file_bytes; by rewrite length_fmap, length_seqZ).
  rewrite drop_app_length' by (by rewrite Hl). by rewrite take_app_length' by (by rewrite Hl).
Qed.

Section booted.
Context {C U : Type} `{HL : BlockCacheLaws C}.
Context (s : Fs.fs C U) (st : mkfs) (es : list (list Z * list Z)) (A : Z -> list Z) (T : Z -> Z).
Context (B : boots s st) (F : finished st (2 + Z.of_nat (length es)) A T).
Context (HA : A 1 = root_bytes es) (HT : T 1 = T_DIR).
Context (Hfile : forall j e, es !! j = Some e -> A (2 + Z.of_nat j) = e.2 /\ T (2 + Z.of_nat j) = T_FILE).
Context (Hm : Z.of_nat (length (root_bytes es)) mod BSIZE <> 0).

Definition listed (i : Z) : Prop := 1 <= i < 2 + Z.of_nat (length es).

Lemma root_node : di_size (disk_inode s 1) = root_size (Z.of_nat (length (root_bytes es))) /\ is_dir s 1 = true /\ file_whole s (onode s 1) /\
  file_bytes s (onode s 1) 0 (di_size (disk_inode s 1)) = root_bytes es ++ replicate (Z.to_nat (di_size (disk_inode s 1)) - length (root_bytes es)) 0.
Proof using HL B F HA HT Hm.
  destruct (boot_root s st _ A T B F 1 (onode s 1) ltac:(lia) eq_refl eq_refl) as (Ht & Hs & Hr). rewrite HA in *. destruct (Hr Hm) as [Hw Hb].
  change (ip_di (onode s 1)) with (disk_inode s 1) in *. unfold is_dir. rewrite Ht, HT, Hs. done.
Qed.

Lemma root_dirent k : 0 <= k < di_size (disk_inode s 1) / DIRENT ->
  dirent_at s (onode s 1) k = match root_list es !! Z.to_nat k with Some (i, name) => dirent_bytes i name | None => replicate 16 0 end.
Proof using HL B F HA HT Hm.
  intros Hk. destruct root_node as (Hs & _ & _ & Hb). set (n := di_size (disk_inode s 1)) in *. set (r := root_bytes es) in *.
  assert (HB : BSIZE = 1024) by done. assert (HD : DIRENT = 16) by done.
  pose proof (Z.div_mod (Z.of_nat (length r)) BSIZE ltac:(lia)). pose proof (Z.mod_pos_bound (Z.of_nat (length r)) BSIZE ltac:(lia)).
  assert (E16 : length r = (16 * (2 + length es))%nat) by apply length_root_bytes.
  assert (Hn : n = 16 * (n / DIRENT)) by (unfold root_size in Hs; rewrite HD, Hs; rewrite HB; replace ((Z.of_nat (length r) / 1024 + 1) * 1024) with ((Z.of_nat (length r) / 1024 + 1) * 64 * 16) by lia; rewrite Z.div_mul by lia; lia).
  assert (Hle : Z.of_nat (length r) <= n) by (unfold root_size in Hs; lia).
  unfold dirent_at. rewrite (file_bytes_slice _ _ _ _ n) by lia. rewrite Hb, HD. change (Z.to_nat 16) with 16%nat.
  replace (Z.to_nat (k * 16)) with (16 * Z.to_nat k)%nat by lia. apply root_slice; fold r; [lia|].
  exists (n / DIRENT - Z.of_nat (2 + length es)). lia.
Qed.

Lemma file_node j e : es !! j = Some e -> let i := 2 + Z.of_nat j in
  di_type (disk_inode s i) = T_FILE /\ file_whole s (onode s i) /\ file_bytes s (onode s i) 0 (di_size (disk_inode s i)) = e.2 /\
  di_size (disk_inode s i) = Z.of_nat (length e.2).
Proof using B F Hfile.
  intros Hj i. destruct (Hfile j e Hj) as [Ha Ht]. pose proof (lookup_lt_Some _ _ _ Hj).
  destruct (boot_file s st _ A T B F i (onode s i) ltac:(lia) eq_refl ltac:(lia)) as (H1 & H2 & H3). fold i in Ha, Ht. rewrite Ha, Ht in *.
  pose proof (boot_size s st _ A T B F i (onode s i) ltac:(lia) eq_refl) as Hs. rewrite (proj2 (Z.eqb_neq _ _)), Ha in Hs by lia. done.
Qed.

Lemma listed_cases i : listed i -> i = 1 \/ exists j e, es !! j = Some e /\ i = 2 + Z.of_nat j.
Proof using Type.
  intros [H1 H2]. destruct (decide (i = 1)) as [|Hne]; [by left|right]. exists (Z.to_nat (i - 2)).
  destruct (lookup_lt_is_Some_2 es (Z.to_nat (i - 2)) ltac:(lia)) as [e He]. exists e. split; [done|lia].
Qed.

Lemma root_tree : tree_ok s listed.
Proof using HL B F HA HT Hfile Hm.
  pose proof (f_ni _ _ _ _ F) as [_ Hni]. assert (HN : NINODES = 200) by done. destruct root_node as (Hs & Hd & Hw & _).
  assert (Hdir : forall i, listed i -> is_dir s i = true -> i = 1).
  { intros i Hi Hid. destruct (listed_cases i Hi) as [|(j & e & Hj & ->)]; [done|]. unfold is_dir in Hid. by rewrite (proj1 (file_node j e Hj)) in Hid. }
  assert (Hi : forall i, listed i -> disk_inode s i = inode_of st i /\ 0 <= i < 200) by (intros i [? ?]; split; [apply (boot_inode s st _ A T B F); lia|lia]).
  split.
  - intros i Hl. rewrite (boot_sb s st _ A T B F). cbn [sb_ninodes]. by apply Hi.
  - intros i Hl. destruct (listed_cases i Hl) as [->|(j & e & Hj & ->)].
    + unfold is_dir in Hd. by apply Z.eqb_eq in Hd as ->.
    + by rewrite (proj1 (file_node j e Hj)).
  - intros i Hl. rewrite (proj1 (Hi i Hl)). destruct (f_ino _ _ _ _ F i Hl) as [_ ->]. done.
  - intros i Hl Hid. apply Hdir in Hid as ->; [|done]. split; [done|]. rewrite Hs. unfold root_size.
    change BSIZE with (64 * 16). change DIRENT with 16. rewrite Z.mul_assoc. apply Z.mod_mul. lia.
  - intros i k Hl Hid. apply Hdir in Hid as ->; [|done]. intros Hk. rewrite root_dirent by done.
    destruct (root_list es !! Z.to_nat k) as [[i name]|] eqn:E; [|by intros []]. apply root_list_inum in E. intros _. by rewrite de_inum_bytes by lia.
Qed.

(** The names of the entries, as they are compared. *)
Definition root_names : list (list Z) := (fun p : Z * list Z => cname (Z.to_nat DIRSIZ) p.2) <$> root_list es.

Lemma root_named name k : 0 <= k < di_size (disk_inode s 1) / DIRENT ->
  named s (onode s 1) name k <-> root_names !! Z.to_nat k = Some (cname (Z.to_nat DIRSIZ) name).
Proof using HL B F HA HT Hm.
  intros Hk. unfold named. rewrite root_dirent by done. unfold root_names. rewrite list_lookup_fmap. pose proof (f_ni _ _ _ _ F) as [_ Hni]. assert (HN : NINODES = 200) by done.
  destruct (root_list es !! Z.to_nat k) as [[i nm]|] eqn:E; [|by split; [intros [[] _]|]].
  apply root_list_inum in E. rewrite de_inum_bytes, de_name_bytes, cname_field by lia. cbn [fmap option_fmap option_map snd].
  split; [by intros [_ ->]|]. intros [= E']. split; [lia|done].
Qed.

Lemma root_find j e name : NoDup root_names -> es !! j = Some e -> cname (Z.to_nat DIRSIZ) name = cname (Z.to_nat DIRSIZ) e.1 ->
  dir_find s 1 name = Some (2 + Z.of_nat j).
Proof using HL B F HA HT Hm.
  intros Hnd Hj Hname. set (k := 2 + Z.of_nat j). assert (Ek : Z.to_nat k = S (S j)) by lia. pose proof (lookup_lt_Some _ _ _ Hj) as Hlt.
  pose proof (f_ni _ _ _ _ F) as [_ Hni]. assert (HN : NINODES = 200) by done. assert (HB : BSIZE = 1024) by done.
  assert (Hk : 0 <= k < di_size (disk_inode s 1) / DIRENT).
  { split; [lia|]. destruct root_node as (-> & _). unfold root_size. change DIRENT with 16. apply Z.lt_le_trans with (k + 1); [lia|].
    apply Z.div_le_lower_bound; [lia|]. assert (E16 : length (root_bytes es) = (16 * (2 + length es))%nat) by apply length_root_bytes.
    pose proof (Z.div_mod (Z.of_nat (length (root_bytes es))) BSIZE ltac:(lia)). pose proof (Z.mod_pos_bound (Z.of_nat (length (root_bytes es))) BSIZE ltac:(lia)). lia. }
  assert (Hrl : root_list es !! Z.to_nat k = Some (k, e.1)) by (rewrite Ek, root_list_file, Hj; done).
  assert (Hat : root_names !! Z.to_nat k = Some (cname (Z.to_nat DIRSIZ) name)) by (unfold root_names; rewrite list_lookup_fmap, Hrl, Hname; done).
  unfold dir_find, dir_lookup. rewrite (first_of _ _ k); [|done|by apply root_named|].
  - cbn [fmap option_fmap option_map]. rewrite root_dirent, Hrl by done. by rewrite de_inum_bytes by lia.
  - intros k' Hk' Hn. apply root_named in Hn; [|lia]. pose proof (NoDup_lookup _ _ _ _ Hnd Hn Hat). lia.
Qed.

Lemma root_miss name : cname (Z.to_nat DIRSIZ) name ∉ root_names -> dir_find s 1 name = None.
Proof using HL B F HA HT Hm.
  intros Hno. unfold dir_find, dir_lookup. rewrite none_of; [done|]. intros k Hk Hn. apply root_named in Hn; [|done]. by apply Hno, (list_elem_of_lookup_2 _ _ _ Hn).
Qed.
End booted.

(** ** Looking files up *)

Lemma parts_plain p : 47 ∉ p -> parts p = [p].
Proof.
  induction p as [|c p IH]; [done|]. intros [Hc Hp]%not_elem_of_cons. cbn [parts]. rewrite (proj2 (Z.eqb_neq _ _)) by done. by rewrite IH.
Qed.

Lemma elements_plain name : 47 ∉ name -> name <> [] -> elements (47 :: name) = [take (Z.to_nat DIRSIZ) name].
Proof.
  intros Hs Hn. unfold elements. cbn [parts]. change (47 =? 47) with true. cbv iota. rewrite parts_plain by done.
  by rewrite !filter_cons, decide_False, decide_True by (done || by intros H; apply H).
Qed.

Lemma shortname_plain path name : shortname path = Some name -> 47 ∉ name.
Proof.
  unfold shortname. cbv zeta. set (nm := if _ =? 0 then drop 5 path else path). destruct (decide (47 ∈ nm)) as [|Hno]; [done|].
  destruct (str_at nm 0 =? 95); case_match; intros [= <-]; [|done]. intros Hin. apply Hno. rewrite <- (take_drop 1 nm). apply elem_of_app. by right.
Qed.

Definition fresh_inode : inode := Inode 0 0 0 (Sleeplock 0 0) 0 zero_dinode.
Definition fresh_itable : list inode := replicate (Z.to_nat NINODE) fresh_inode.

Section lookup.
Context {C U : Type} `{HL : BlockCacheLaws C} (ucopyout : U -> Z -> list Z -> Z * U).
Context (es : list (list Z * list Z)) (st : mkfs) (A : Z -> list Z) (T : Z -> Z) (pid : Z) (u : U).
Context (F : finished st (2 + Z.of_nat (length es)) A T).
Context (HA : A 1 = root_bytes es) (HT : T 1 = T_DIR).
Context (Hfile : forall j e, es !! j = Some e -> A (2 + Z.of_nat j) = e.2 /\ T (2 + Z.of_nat j) = T_FILE).
Context (Hm : Z.of_nat (length (root_bytes es)) mod BSIZE <> 0) (Hnd : NoDup (root_names es)) (Hbuf : 0 < c_nbuf).
Let s : Fs.fs C U := boot_fs st fresh_itable pid u.

Lemma fresh_icache : icache s.
Proof using Type.
  intros ip x. unfold s, zget. cbn [fs_itable boot_fs]. destruct (0 <=? ip); [|done]. intros [-> _]%lookup_replicate. by split_and!.
Qed.

(** Looking up a plain name in the root directory. *)
Lemma namei_run cwd name (Q : option Z -> Fs.fs C U -> Prop) : 47 ∉ name -> name <> [] ->
  (forall r s', quiet (fun _ => 0) s s' -> icache s' ->
     match dir_find s 1 (take (Z.to_nat DIRSIZ) name) with
     | Some i => exists ip, r = Some ip /\ got (iview s) (iview s') ip i /\ listed es i
     | None => r = None /\ iview s' = iview s
     end -> Q r s') -> wpn (namei ucopyout cwd (47 :: name)) s Q.
Proof using HL F HA HT Hfile Hm Hbuf.
  intros Hs Hne HQ. destruct (boot_fs_ok st _ A T fresh_itable pid u F) as (Hr & Hf & B). fold s in Hr, Hf, B.
  unfold namei. apply wpn_bind. eapply wpn_mono.
  - apply (namex_run ucopyout (fun _ => 0) ltac:(intros; lia) s (listed es) 0 1 ltac:(rewrite Hf; exact Hbuf) (boot_geometry s st _ A T B F) (root_tree s st es A T B F HA HT Hfile Hm) fresh_icache ltac:(by split_and!) cwd (47 :: name) 1 false Hr); [done|unfold listed; lia].
  - intros r s' (Q1 & Hc & Hp). apply wpn_ret. apply HQ; [done|done|]. rewrite elements_plain in Hp by done. unfold path_target in Hp. cbn [resolve] in Hp.
    destruct (root_node s st es A T B F HA HT Hm) as (_ & Hd & _). rewrite Hd in Hp.
    destruct (dir_find s 1 _) as [i|]; cbn in Hp; [|by destruct Hp as [-> ->]]. destruct Hp as (ip & -> & Hg & Hl). eauto.
Qed.

(** Reading a file by its name. *)
Definition read_file (cwd : Z) (path : list Z) (n : Z) : M (Fs.fs C U) (option (Z * list Z)) :=
  let* o := namei ucopyout cwd path in
  match o with
  | None => ret None
  | Some ip => ilock ip ;;; let* r := readi ucopyout ip DKernel 0 n in ret (Some r)
  end.

Lemma read_file_run cwd j e n (Q : option (Z * list Z) -> Fs.fs C U -> Prop) : es !! j = Some e -> 47 ∉ e.1 -> e.1 <> [] ->
  Z.of_nat (length e.2) <= n < 2 ^ 32 -> (forall s', quiet (fun _ => 0) s s' -> Q (Some (Z.of_nat (length e.2), e.2)) s') ->
  wpn (read_file cwd (47 :: e.1) n) s Q.
Proof using HL F HA HT Hfile Hm Hbuf Hnd.
  intros Hj Hs Hne Hn HQ. destruct (boot_fs_ok st _ A T fresh_itable pid u F) as (Hr & Hf & B). fold s in Hr, Hf, B.
  unfold read_file. apply wpn_bind, namei_run; [done..|]. intros r s1 Q1 Hc1.
  rewrite (root_find s st es A T B F HA HT Hm j e) by (done || apply cname_take). set (i := 2 + Z.of_nat j). intros (ip & -> & Hg & Hl).
  destruct (file_node s st es A T B F Hfile j e Hj) as (Hty & Hw & Hb & Hsz). fold i in Hty, Hw, Hb, Hsz.
  destruct (got_entry s s1 ip i fresh_icache Hc1 Hg) as (x & Hx & Href & Hi & Hok). destruct (quiet_sb _ _ _ Q1) as (Esb & _ & El). pose proof Q1 as (Hr1 & Hf1 & _).
  apply wpn_bind, (ilock_run (fun _ => 0) ltac:(intros; lia) s1 ip x);
    [done|rewrite Hf1, Hf; exact Hbuf|unfold geometry; rewrite Esb, El; by eapply boot_geometry|done|done|done| | |].
  { rewrite Hi, Esb. by eapply tr_range; [eapply root_tree|]. }
  { rewrite Hi, (quiet_inode (fun _ => 0) s s1), Hty by done. done. }
  intros s2 Q2 Et2. pose proof (quiet_trans _ _ _ _ Q1 Q2) as Q3. pose proof Q2 as (Hr2 & Hf2 & _).
  assert (Edi : ip_di (locked_by s1 x) = ip_di (onode s i)) by (change (disk_inode s1 (ip_inum x) = disk_inode s i); rewrite Hi; by apply (quiet_inode (fun _ => 0))).
  destruct (quiet_file (fun _ => 0) s s2 _ _ Q3 Edi) as [Ebs Hw2].
  apply wpn_bind, (readi_run (fun _ => 0) ltac:(intros; lia) ucopyout s2 ip (locked_by s1 x));
    [done|rewrite Et2; by eapply zget_zset_same|rewrite Hf2, Hf1, Hf; exact Hbuf|by apply Hw2|lia|lia|].
  assert (Hlen : readi_len (di_size (ip_di (locked_by s1 x))) 0 n = Z.of_nat (length e.2)).
  { rewrite Edi. change (ip_di (onode s i)) with (disk_inode s i). unfold readi_len. rewrite Hsz, (proj2 (Z.ltb_ge _ _)), (proj2 (Z.leb_gt _ _)) by lia. cbn [orb]. lia. }
  rewrite Hlen. intros s3 Hr3 Hrd3 Hf3. apply wpn_ret. rewrite Ebs, <- Hsz, Hb, Hsz. apply HQ. eapply quiet_trans; [exact Q3|by apply quiet_reads].
Qed.
End lookup.


(** ** An example *)

#[local] Instance demo_cache : BlockCache bcache := bio_cache 1.
#[local] Instance demo_laws : BlockCacheLaws bcache := bio_laws 1.


Lemma namex_resolves_witness : exists (s : Fs.fs bcache unit) r s' t,
  namex (fun (u : unit) _ _ => (0, u)) 7 (bytes "//cat") false s = Done r s' t /\ exists ip name, r = Some (ip, name) /\ name = bytes "cat".
Proof.
  destruct demo_args_ok as [H1 H2]. assert (Hbuf : 0 < c_nbuf (S := bcache)) by (change c_nbuf with 30; lia).
  destruct (mkfs_main_finished demo_args demo_entries H1 H2) as (st & A & T & _ & F & HA & HT & Hfile).
  assert (Hm : Z.of_nat (length (root_bytes demo_entries)) mod BSIZE <> 0) by (vm_compute; discriminate).
  assert (Hnd : NoDup (root_names demo_entries)) by (apply (bool_decide_unpack _); by vm_compute).
  destruct (boot_fs_ok (C := bcache) st _ A T fresh_itable 1 tt F) as (Hr & Hf & B). set (s := boot_fs st fresh_itable 1 tt) in *.
  destruct (namex_resolves (fun (u : unit) (_ : Z) (_ : list Z) => (0, u)) (fun _ => 0) ltac:(intros; lia) s (listed demo_entries) 0 1 7 (bytes "//cat") 1 false Hr
    ltac:(rewrite Hf; exact Hbuf) (boot_geometry s st _ A T B F) (root_tree s st _ A T B F HA HT Hfile Hm) (fresh_icache st 1 tt) ltac:(by split_and!) eq_refl
    ltac:(unfold listed; cbn; lia)) as (r & s' & t & E & _ & _ & Hp).
  exists s, r, s', t. split; [exact E|]. change (elements (bytes "//cat")) with [bytes "cat"] in Hp. unfold path_target in Hp. cbn [resolve] in Hp.
  destruct (root_node s st _ A T B F HA HT Hm) as (_ & Hd & _). rewrite Hd in Hp.
  rewrite (root_find s st _ A T B F HA HT Hm 0%nat ([99; 97; 116], [1; 2; 3])) in Hp by (done || reflexivity).
  destruct Hp as (ip & -> & _). eauto.
Defined.
