(* ===== verification/Kernel.v ===== *)
(** * The state of the kernel

    The components put together: the physical memory with its allocator, the
    file system above the log, open files, pipes, the console, and the table of
    processes.  A [struct proc *], [struct file *] or [struct inode *] is an
    index in the table, [None] is null.  Spin locks are held for the length of a
    step here, so they are not part of the state; Spinlock.v has them.

    [on_fs], [on_kmem] and the others run a component's operation inside the
    kernel; the wakeups it asks for take effect on the process table. *)

From Stdlib Require Import ZArith Lia.
From stdpp Require Import base list strings numbers gmap.
From S2P Require Import Prelude Memory Riscv Kalloc Vm Sleeplock Blocks BlockCache Log Fs Pipe Uart Console.

Definition NPROC : Z := 256.
Definition NOFILE : Z := 16.
Definition NFILE : Z := 100.
Definition NDEV : Z := 10.
Definition CONSOLE : Z := 1.

(** [enum procstate] *)
Inductive procstate := UNUSED | USED | SLEEPING | RUNNABLE | RUNNING | ZOMBIE.

#[export] Instance procstate_eq_dec : EqDecision procstate.
Proof. solve_decision. Defined.

(** The type of [struct file]. *)
Inductive ftype := FD_NONE | FD_PIPE | FD_INODE | FD_DEVICE.

#[export] Instance ftype_eq_dec : EqDecision ftype.
Proof. solve_decision. Defined.

(** An entry of [devsw]: null pointers, or the functions of the console. *)
Inductive devsw := NoDev | ConsoleDev.

(** [struct proc] without its lock; the name is the string in the array. *)
Record proc := Proc {
  p_state : procstate;
  p_chan : option chan;
  p_killed : Z;
  p_xstate : Z;
  p_pid : Z;
  p_parent : option Z;
  p_kstack : Z;
  p_sz : Z;
  p_pagetable : Z;
  p_trapframe : Z;
  p_context : list Z;
  p_ofile : list (option Z);
  p_cwd : option Z;
  p_name : list Z;
  p_tempo_total : Z;
  p_overhead : Z;
  p_eficiencia : Z;
  p_type : Z
}.

Definition p_set_state (v : procstate) (p : proc) : proc :=
  Proc v (p_chan p) (p_killed p) (p_xstate p) (p_pid p) (p_parent p) (p_kstack p) (p_sz p)
    (p_pagetable p) (p_trapframe p) (p_context p) (p_ofile p) (p_cwd p) (p_name p)
    (p_tempo_total p) (p_overhead p) (p_eficiencia p) (p_type p).
Definition p_set_chan (v : option chan) (p : proc) : proc :=
  Proc (p_state p) v (p_killed p) (p_xstate p) (p_pid p) (p_parent p) (p_kstack p) (p_sz p)
    (p_pagetable p) (p_trapframe p) (p_context p) (p_ofile p) (p_cwd p) (p_name p)
    (p_tempo_total p) (p_overhead p) (p_eficiencia p) (p_type p).
Definition p_set_killed (v : Z) (p : proc) : proc :=
  Proc (p_state p) (p_chan p) v (p_xstate p) (p_pid p) (p_parent p) (p_kstack p) (p_sz p)
    (p_pagetable p) (p_trapframe p) (p_context p) (p_ofile p) (p_cwd p) (p_name p)
    (p_tempo_total p) (p_overhead p) (p_eficiencia p) (p_type p).
Definition p_set_xstate (v : Z) (p : proc) : proc :=
  Proc (p_state p) (p_chan p) (p_killed p) v (p_pid p) (p_parent p) (p_kstack p) (p_sz p)
    (p_pagetable p) (p_trapframe p) (p_context p) (p_ofile p) (p_cwd p) (p_name p)
    (p_tempo_total p) (p_overhead p) (p_eficiencia p) (p_type p).
Definition p_set_pid (v : Z) (p : proc) : proc :=
  Proc (p_state p) (p_chan p) (p_killed p) (p_xstate p) v (p_parent p) (p_kstack p) (p_sz p)
    (p_pagetable p) (p_trapframe p) (p_context p) (p_ofile p) (p_cwd p) (p_name p)
    (p_tempo_total p) (p_overhead p) (p_eficiencia p) (p_type p).
Definition p_set_parent (v : option Z) (p : proc) : proc :=
  Proc (p_state p) (p_chan p) (p_killed p) (p_xstate p) (p_pid p) v (p_kstack p) (p_sz p)
    (p_pagetable p) (p_trapframe p) (p_context p) (p_ofile p) (p_cwd p) (p_name p)
    (p_tempo_total p) (p_overhead p) (p_eficiencia p) (p_type p).
Definition p_set_kstack (v : Z) (p : proc) : proc :=
  Proc (p_state p) (p_chan p) (p_killed p) (p_xstate p) (p_pid p) (p_parent p) v (p_sz p)
    (p_pagetable p) (p_trapframe p) (p_context p) (p_ofile p) (p_cwd p) (p_name p)
    (p_tempo_total p) (p_overhead p) (p_eficiencia p) (p_type p).
Definition p_set_sz (v : Z) (p : proc) : proc :=
  Proc (p_state p) (p_chan p) (p_killed p) (p_xstate p) (p_pid p) (p_parent p) (p_kstack p) v
    (p_pagetable p) (p_trapframe p) (p_context p) (p_ofile p) (p_cwd p) (p_name p)
    (p_tempo_total p) (p_overhead p) (p_eficiencia p) (p_type p).
Definition p_set_pagetable (v : Z) (p : proc) : proc :=
  Proc (p_state p) (p_chan p) (p_killed p) (p_xstate p) (p_pid p) (p_parent p) (p_kstack p)
    (p_sz p) v (p_trapframe p) (p_context p) (p_ofile p) (p_cwd p) (p_name p) (p_tempo_total p)
    (p_overhead p) (p_eficiencia p) (p_type p).
Definition p_set_trapframe (v : Z) (p : proc) : proc :=
  Proc (p_state p) (p_chan p) (p_killed p) (p_xstate p) (p_pid p) (p_parent p) (p_kstack p)
    (p_sz p) (p_pagetable p) v (p_context p) (p_ofile p) (p_cwd p) (p_name p) (p_tempo_total p)
    (p_overhead p) (p_eficiencia p) (p_type p).
Definition p_set_context (v : list Z) (p : proc) : proc :=
  Proc (p_state p) (p_chan p) (p_killed p) (p_xstate p) (p_pid p) (p_parent p) (p_kstack p)
    (p_sz p) (p_pagetable p) (p_trapframe p) v (p_ofile p) (p_cwd p) (p_name p) (p_tempo_total
    p) (p_overhead p) (p_eficiencia p) (p_type p).
Definition p_set_ofile (v : list (option Z)) (p : proc) : proc :=
  Proc (p_state p) (p_chan p) (p_killed p) (p_xstate p) (p_pid p) (p_parent p) (p_kstack p)
    (p_sz p) (p_pagetable p) (p_trapframe p) (p_context p) v (p_cwd p) (p_name p) (p_tempo_total
    p) (p_overhead p) (p_eficiencia p) (p_type p).
Definition p_set_cwd (v : option Z) (p : proc) : proc :=
  Proc (p_state p) (p_chan p) (p_killed p) (p_xstate p) (p_pid p) (p_parent p) (p_kstack p)
    (p_sz p) (p_pagetable p) (p_trapframe p) (p_context p) (p_ofile p) v (p_name p)
    (p_tempo_total p) (p_overhead p) (p_eficiencia p) (p_type p).
Definition p_set_name (v : list Z) (p : proc) : proc :=
  Proc (p_state p) (p_chan p) (p_killed p) (p_xstate p) (p_pid p) (p_parent p) (p_kstack p)
    (p_sz p) (p_pagetable p) (p_trapframe p) (p_context p) (p_ofile p) (p_cwd p) v
    (p_tempo_total p) (p_overhead p) (p_eficiencia p) (p_type p).
Definition p_set_tempo_total (v : Z) (p : proc) : proc :=
  Proc (p_state p) (p_chan p) (p_killed p) (p_xstate p) (p_pid p) (p_parent p) (p_kstack p)
    (p_sz p) (p_pagetable p) (p_trapframe p) (p_context p) (p_ofile p) (p_cwd p) (p_name p) v
    (p_overhead p) (p_eficiencia p) (p_type p).
Definition p_set_overhead (v : Z) (p : proc) : proc :=
  Proc (p_state p) (p_chan p) (p_killed p) (p_xstate p) (p_pid p) (p_parent p) (p_kstack p)
    (p_sz p) (p_pagetable p) (p_trapframe p) (p_context p) (p_ofile p) (p_cwd p) (p_name p)
    (p_tempo_total p) v (p_eficiencia p) (p_type p).
Definition p_set_eficiencia (v : Z) (p : proc) : proc :=
  Proc (p_state p) (p_chan p) (p_killed p) (p_xstate p) (p_pid p) (p_parent p) (p_kstack p)
    (p_sz p) (p_pagetable p) (p_trapframe p) (p_context p) (p_ofile p) (p_cwd p) (p_name p)
    (p_tempo_total p) (p_overhead p) v (p_type p).
Definition p_set_type (v : Z) (p : proc) : proc :=
  Proc (p_state p) (p_chan p) (p_killed p) (p_xstate p) (p_pid p) (p_parent p) (p_kstack p)
    (p_sz p) (p_pagetable p) (p_trapframe p) (p_context p) (p_ofile p) (p_cwd p) (p_name p)
    (p_tempo_total p) (p_overhead p) (p_eficiencia p) v.

(** [struct file] *)
Record file := File {
  f_type : ftype;
  f_ref : Z;
  f_readable : Z;
  f_writable : Z;
  f_pipe : Z;
  f_ip : Z;
  f_off : Z;
  f_major : Z
}.

Definition f_set_type (v : ftype) (f : file) : file :=
  File v (f_ref f) (f_readable f) (f_writable f) (f_pipe f) (f_ip f) (f_off f) (f_major f).
Definition f_set_ref (v : Z) (f : file) : file :=
  File (f_type f) v (f_readable f) (f_writable f) (f_pipe f) (f_ip f) (f_off f) (f_major f).
Definition f_set_off (v : Z) (f : file) : file :=
  File (f_type f) (f_ref f) (f_readable f) (f_writable f) (f_pipe f) (f_ip f) v (f_major f).

Record kernel (C : Type) := Kernel {
  k_kmem : kmem;
  k_log : logstate C;
  k_sb : superblock;
  k_itable : list inode;
  k_files : list file;
  k_devsw : list devsw;
  k_pipes : gmap Z pipe;
  k_cons : console;
  k_procs : list proc;
  k_initproc : option Z;
  k_nextpid : Z;
  k_cur : option Z;
  k_ticks : Z;
  k_first : bool;
  k_overheads : list Z;
  k_eficiencias : list Z;
  k_justicas : list Z
}.
Arguments Kernel {C} _ _ _ _ _ _ _ _ _ _ _ _ _ _ _ _ _.
Arguments k_kmem {C} _.
Arguments k_log {C} _.
Arguments k_sb {C} _.
Arguments k_itable {C} _.
Arguments k_files {C} _.
Arguments k_devsw {C} _.
Arguments k_pipes {C} _.
Arguments k_cons {C} _.
Arguments k_procs {C} _.
Arguments k_initproc {C} _.
Arguments k_nextpid {C} _.
Arguments k_cur {C} _.
Arguments k_ticks {C} _.
Arguments k_first {C} _.
Arguments k_overheads {C} _.
Arguments k_eficiencias {C} _.
Arguments k_justicas {C} _.

Definition k_set_kmem {C} (v : kmem) (k : kernel C) : kernel C :=
  Kernel v (k_log k) (k_sb k) (k_itable k) (k_files k) (k_devsw k) (k_pipes k) (k_cons k)
    (k_procs k) (k_initproc k) (k_nextpid k) (k_cur k) (k_ticks k) (k_first k) (k_overheads k)
    (k_eficiencias k) (k_justicas k).
Definition k_set_files {C} (v : list file) (k : kernel C) : kernel C :=
  Kernel (k_kmem k) (k_log k) (k_sb k) (k_itable k) v (k_devsw k) (k_pipes k) (k_cons k)
    (k_procs k) (k_initproc k) (k_nextpid k) (k_cur k) (k_ticks k) (k_first k) (k_overheads k)
    (k_eficiencias k) (k_justicas k).
Definition k_set_devsw {C} (v : list devsw) (k : kernel C) : kernel C :=
  Kernel (k_kmem k) (k_log k) (k_sb k) (k_itable k) (k_files k) v (k_pipes k) (k_cons k)
    (k_procs k) (k_initproc k) (k_nextpid k) (k_cur k) (k_ticks k) (k_first k) (k_overheads k)
    (k_eficiencias k) (k_justicas k).
Definition k_set_pipes {C} (v : gmap Z pipe) (k : kernel C) : kernel C :=
  Kernel (k_kmem k) (k_log k) (k_sb k) (k_itable k) (k_files k) (k_devsw k) v (k_cons k)
    (k_procs k) (k_initproc k) (k_nextpid k) (k_cur k) (k_ticks k) (k_first k) (k_overheads k)
    (k_eficiencias k) (k_justicas k).
Definition k_set_cons {C} (v : console) (k : kernel C) : kernel C :=
  Kernel (k_kmem k) (k_log k) (k_sb k) (k_itable k) (k_files k) (k_devsw k) (k_pipes k) v
    (k_procs k) (k_initproc k) (k_nextpid k) (k_cur k) (k_ticks k) (k_first k) (k_overheads k)
    (k_eficiencias k) (k_justicas k).
Definition k_set_procs {C} (v : list proc) (k : kernel C) : kernel C :=
  Kernel (k_kmem k) (k_log k) (k_sb k) (k_itable k) (k_files k) (k_devsw k) (k_pipes k)
    (k_cons k) v (k_initproc k) (k_nextpid k) (k_cur k) (k_ticks k) (k_first k) (k_overheads k)
    (k_eficiencias k) (k_justicas k).
Definition k_set_initproc {C} (v : option Z) (k : kernel C) : kernel C :=
  Kernel (k_kmem k) (k_log k) (k_sb k) (k_itable k) (k_files k) (k_devsw k) (k_pipes k)
    (k_cons k) (k_procs k) v (k_nextpid k) (k_cur k) (k_ticks k) (k_first k) (k_overheads k)
    (k_eficiencias k) (k_justicas k).
Definition k_set_nextpid {C} (v : Z) (k : kernel C) : kernel C :=
  Kernel (k_kmem k) (k_log k) (k_sb k) (k_itable k) (k_files k) (k_devsw k) (k_pipes k)
    (k_cons k) (k_procs k) (k_initproc k) v (k_cur k) (k_ticks k) (k_first k) (k_overheads k)
    (k_eficiencias k) (k_justicas k).
Definition k_set_cur {C} (v : option Z) (k : kernel C) : kernel C :=
  Kernel (k_kmem k) (k_log k) (k_sb k) (k_itable k) (k_files k) (k_devsw k) (k_pipes k)
    (k_cons k) (k_procs k) (k_initproc k) (k_nextpid k) v (k_ticks k) (k_first k) (k_overheads
    k) (k_eficiencias k) (k_justicas k).
Definition k_set_ticks {C} (v : Z) (k : kernel C) : kernel C :=
  Kernel (k_kmem k) (k_log k) (k_sb k) (k_itable k) (k_files k) (k_devsw k) (k_pipes k)
    (k_cons k) (k_procs k) (k_initproc k) (k_nextpid k) (k_cur k) v (k_first k) (k_overheads k)
    (k_eficiencias k) (k_justicas k).
Definition k_set_first {C} (v : bool) (k : kernel C) : kernel C :=
  Kernel (k_kmem k) (k_log k) (k_sb k) (k_itable k) (k_files k) (k_devsw k) (k_pipes k)
    (k_cons k) (k_procs k) (k_initproc k) (k_nextpid k) (k_cur k) (k_ticks k) v (k_overheads k)
    (k_eficiencias k) (k_justicas k).
Definition k_set_overheads {C} (v : list Z) (k : kernel C) : kernel C :=
  Kernel (k_kmem k) (k_log k) (k_sb k) (k_itable k) (k_files k) (k_devsw k) (k_pipes k)
    (k_cons k) (k_procs k) (k_initproc k) (k_nextpid k) (k_cur k) (k_ticks k) (k_first k) v
    (k_eficiencias k) (k_justicas k).
Definition k_set_eficiencias {C} (v : list Z) (k : kernel C) : kernel C :=
  Kernel (k_kmem k) (k_log k) (k_sb k) (k_itable k) (k_files k) (k_devsw k) (k_pipes k)
    (k_cons k) (k_procs k) (k_initproc k) (k_nextpid k) (k_cur k) (k_ticks k) (k_first k)
    (k_overheads k) v (k_justicas k).
Definition k_set_justicas {C} (v : list Z) (k : kernel C) : kernel C :=
  Kernel (k_kmem k) (k_log k) (k_sb k) (k_itable k) (k_files k) (k_devsw k) (k_pipes k)
    (k_cons k) (k_procs k) (k_initproc k) (k_nextpid k) (k_cur k) (k_ticks k) (k_first k)
    (k_overheads k) (k_eficiencias k) v.

(** The tables as the loader leaves them, zeroed; [procinit] and the other
    initialisation functions start from here. *)
Definition proc_bss : proc :=
  Proc UNUSED None 0 0 0 None 0 0 0 0 (replicate 14 0) (replicate (Z.to_nat NOFILE) None) None [] 0 0 0 0.
Definition file_bss : file := File FD_NONE 0 0 0 0 0 0 0.
Definition kernel_bss {C} (m : mem) (c : C) (cons : console) : kernel C :=
  Kernel (Kmem m 0) (Logstate log_bss c) (Superblock 0 0 0 0 0 0 0 0)
    (replicate (Z.to_nat NINODE) (Inode 0 0 0 initsleeplock 0 zero_dinode))
    (replicate (Z.to_nat NFILE) file_bss) (replicate (Z.to_nat NDEV) NoDev) ∅ cons
    (replicate (Z.to_nat NPROC) proc_bss) None 1 None 0 true
    (replicate 20 0) (replicate 20 0) (replicate 20 0).

(** [wakeup]: every process but the running one that sleeps on the channel becomes
    runnable. *)
Definition wake (c : chan) (p : proc) : proc :=
  if bool_decide (p_state p = SLEEPING) && bool_decide (p_chan p = Some c)
  then p_set_state RUNNABLE p else p.
Definition wakeup_procs (cur : option Z) (c : chan) (ps : list proc) : list proc :=
  imap (fun i p => if bool_decide (cur = Some (Z.of_nat i)) then p else wake c p) ps.

(** The wakeups of a trace. *)
Definition wakeups_of (t : list event) : list chan :=
  omap (fun e => match e with EvWakeup c => Some c | _ => None end) t.
Definition apply_wakeups (cur : option Z) (t : list event) (ps : list proc) : list proc :=
  foldl (fun ps c => wakeup_procs cur c ps) ps (wakeups_of t).

(** The memory of the running process, for the components that copy to and from
    it. *)
Record uenv := Uenv { ue_kmem : kmem; ue_pagetable : Z; ue_killed : bool }.

Definition u_copyout (u : uenv) (va : Z) (bs : list Z) : Z * uenv :=
  match copyout (ue_pagetable u) va bs (ue_kmem u) with
  | Done r km _ => (r, Uenv km (ue_pagetable u) (ue_killed u))
  | _ => (-1, u)
  end.
Definition u_copyin (u : uenv) (va n : Z) : Z * list Z :=
  match copyin (ue_pagetable u) va n (ue_kmem u) with
  | Done r _ _ => r
  | _ => (-1, [])
  end.
Definition u_copyout1 (u : uenv) (va ch : Z) : option uenv :=
  let '(r, u') := u_copyout u va [ch] in if r =? -1 then None else Some u'.
Definition u_copyin1 (u : uenv) (va : Z) : option Z :=
  match u_copyin u va 1 with (0, ch :: _) => Some ch | _ => None end.

Section code.
Context {C : Type} `{BlockCache C}.

Definition kproc (k : kernel C) (i : Z) : option proc := zget (k_procs k) i.
Definition kcur (k : kernel C) : option proc :=
  match k_cur k with Some i => kproc k i | None => None end.

(** The running process's view of its memory. *)
Definition k_uenv (k : kernel C) : uenv :=
  match kcur k with
  | Some p => Uenv (k_kmem k) (p_pagetable p) (negb (p_killed p =? 0))
  | None => Uenv (k_kmem k) 0 false
  end.

(** Runs [m] on a part of the kernel. *)
Definition klift {S A} (l : lens (kernel C) S) (m : M S A) : M (kernel C) A :=
  fun k =>
    match m (lget l k) with
    | Done a s t =>
      let k' := lset l s k in Done a (k_set_procs (apply_wakeups (k_cur k') t (k_procs k')) k') t
    | Sleep c s t =>
      let k' := lset l s k in Sleep c (k_set_procs (apply_wakeups (k_cur k') t (k_procs k')) k') t
    | Panic msg => Panic msg
    | Undef why => Undef why
    end.

Definition kmem_lens : lens (kernel C) kmem := Lens k_kmem k_set_kmem.
Definition fs_lens : lens (kernel C) (fs C uenv) :=
  Lens (fun k => Fs (k_log k) (k_sb k) (k_itable k)
                    (match kcur k with Some p => p_pid p | None => 0 end) (k_uenv k))
    (fun f k => Kernel (ue_kmem (fs_user f)) (fs_log f) (fs_sb f) (fs_itable f)
       (k_files k) (k_devsw k) (k_pipes k) (k_cons k) (k_procs k) (k_initproc k) (k_nextpid k)
       (k_cur k) (k_ticks k) (k_first k) (k_overheads k) (k_eficiencias k) (k_justicas k)).
Definition cons_uenv_lens : lens (kernel C) (@cstate uenv) :=
  Lens (fun k => Cstate (k_cons k) (k_uenv k))
    (fun c k => k_set_cons (cs_cons c) (k_set_kmem (ue_kmem (cs_user c)) k)).
Definition pipe_lens (pi : Z) (p : pipe) : lens (kernel C) (@pstate uenv) :=
  Lens (fun k => Pstate p (k_uenv k))
    (fun s k => k_set_pipes (<[pi := ps_pipe s]> (k_pipes k)) (k_set_kmem (ue_kmem (ps_user s)) k)).

Definition on_kmem {A} (m : M kmem A) : M (kernel C) A := klift kmem_lens m.
Definition on_fs {A} (m : M (fs C uenv) A) : M (kernel C) A := klift fs_lens m.
Definition on_console {A} (m : M (@cstate uenv) A) : M (kernel C) A := klift cons_uenv_lens m.
Definition on_pipe {A} (pi : Z) (m : M (@pstate uenv) A) : M (kernel C) A :=
  let* k := get in
  match k_pipes k !! pi with
  | Some p => klift (pipe_lens pi p) m
  | None => undef "bad struct pipe pointer"
  end.

(** [myproc()], which the code uses only when a process runs. *)
Definition myproc : M (kernel C) Z :=
  let* k := get in of_option "myproc() is null" (k_cur k).
Definition proc_get (i : Z) : M (kernel C) proc :=
  let* k := get in of_option "bad struct proc pointer" (kproc k i).
Definition proc_upd (i : Z) (f : proc -> proc) : M (kernel C) unit :=
  let* p := proc_get i in
  modify (fun k => k_set_procs (zset (k_procs k) i (f p)) k).
Definition my_proc : M (kernel C) proc := let* i := myproc in proc_get i.

Definition wakeup (c : chan) : M (kernel C) unit :=
  modify (fun k => k_set_procs (wakeup_procs (k_cur k) c (k_procs k)) k).

Definition killed (i : Z) : M (kernel C) bool :=
  let* p := proc_get i in ret (negb (p_killed p =? 0)).
Definition setkilled (i : Z) : M (kernel C) unit := proc_upd i (p_set_killed 1).

(** [begin_op] and [end_op] inside the kernel. *)
Definition k_begin_op : M (kernel C) unit := on_fs (on_log begin_op).
Definition k_end_op : M (kernel C) unit := on_fs (on_log end_op).

(** A register saved in the trap frame of process [p], at its offset. *)
Definition tf_get (p : proc) (off : Z) : M (kernel C) Z :=
  on_kmem (let* m := kmem_get in ret (load64 m (p_trapframe p + off))).
Definition tf_set (p : proc) (off v : Z) : M (kernel C) unit :=
  on_kmem (kmem_put (fun m => store64 m (p_trapframe p + off) (u64 v))).

(** ** Running the accesses to the process table *)

Lemma proc_get_run (k : kernel C) i p : kproc k i = Some p -> proc_get i k = Done p k [].
Proof. intros E. unfold proc_get, bind, get. simpl. by rewrite E. Qed.

Lemma proc_upd_run (k : kernel C) i f p :
  kproc k i = Some p ->
  proc_upd i f k = Done tt (k_set_procs (zset (k_procs k) i (f p)) k) [].
Proof. intros E. unfold proc_upd. rewrite (bind_Done _ _ _ _ _ _ (proc_get_run k i p E)). done. Qed.

Lemma myproc_run (k : kernel C) i : k_cur k = Some i -> myproc k = Done i k [].
Proof. intros E. unfold myproc, bind, get. simpl. by rewrite E. Qed.

Lemma kproc_set (k : kernel C) i j p q :
  kproc k i = Some p ->
  kproc (k_set_procs (zset (k_procs k) i q) k) j = if j =? i then Some q else kproc k j.
Proof.
  intros E. unfold kproc in *. simpl. destruct (Z.eqb_spec j i) as [->|Hne].
  - apply zget_zset_eq. by apply zget_Some in E.
  - by apply zget_zset_ne.
Qed.
End code.
