(* ===== verification/File.v ===== *)
(** * kernel/file.c: open files, and [pipealloc] of kernel/pipe.c

    The table of open files and what [read], [write], [close] and [fstat] do for
    pipes, devices and inodes.  [kend] is the linker's [end]; [pad] are the four
    bytes of padding in a [struct stat], which the code leaves unset. *)

From Stdlib Require Import ZArith Lia.
From stdpp Require Import base list strings numbers gmap.
From S2P Require Import Prelude Memory Riscv Kalloc Vm Sleeplock Blocks BlockCache Log Fs Pipe Uart Console Kernel.

(** [sizeof(struct stat)] is 24; the fields with the padding before [size]. *)
Definition le_bytes (n : nat) (v : Z) : list Z :=
  (fun i => v / 256 ^ Z.of_nat i mod 256) <$> seq 0 n.
Definition stat_bytes (pad : list Z) (st : stat) : list Z :=
  le_bytes 4 (st_dev st) ++ le_bytes 4 (st_ino st) ++ le_bytes 2 (st_type st) ++
  le_bytes 2 (st_nlink st) ++ pad ++ le_bytes 8 (st_size st).

(** The first entry without references. *)
Fixpoint find_file (fs : list file) (i : Z) : option Z :=
  match fs with
  | [] => None
  | f :: fs' => if f_ref f =? 0 then Some i else find_file fs' (i + 1)
  end.

Section code.
Context {C : Type} `{BlockCache C}.
Context (kend : Z) (pad : list Z).

Definition file_get (f : Z) : M (kernel C) file :=
  let* k := get in of_option "bad struct file pointer" (zget (k_files k) f).
Definition file_upd (f : Z) (g : file -> file) : M (kernel C) unit :=
  let* x := file_get f in
  modify (fun k => k_set_files (zset (k_files k) f (g x)) k).

Definition filealloc : M (kernel C) (option Z) :=
  let* k := get in
  match find_file (k_files k) 0 with
  | Some f => file_upd f (f_set_ref 1) ;;; ret (Some f)
  | None => ret None
  end.

Definition filedup (f : Z) : M (kernel C) Z :=
  let* x := file_get f in
  if f_ref x <? 1 then panic "filedup"
  else file_upd f (f_set_ref (f_ref x + 1)) ;;; ret f.

(** [pipeclose]; the page is freed when both ends are closed. *)
Definition k_pipeclose (pi writable : Z) : M (kernel C) unit :=
  let* freed := on_pipe pi (lift (Lens ps_pipe (fun p s => Pstate p (ps_user s)))
                              (pipeclose pi (negb (writable =? 0)))) in
  if freed then
    modify (fun k => k_set_pipes (delete pi (k_pipes k)) k) ;;;
    on_kmem (kfree kend pi)
  else ret tt.

Definition fileclose (f : Z) : M (kernel C) unit :=
  let* x := file_get f in
  if f_ref x <? 1 then panic "fileclose"
  else
    file_upd f (f_set_ref (f_ref x - 1)) ;;;
    if 0 <? f_ref x - 1 then ret tt
    else
      let* ff := file_get f in
      file_upd f (f_set_ref 0) ;;;
      file_upd f (f_set_type FD_NONE) ;;;
      match f_type ff with
      | FD_PIPE => k_pipeclose (f_pipe ff) (f_writable ff)
      | FD_INODE | FD_DEVICE => k_begin_op ;;; on_fs (iput (f_ip ff)) ;;; k_end_op
      | FD_NONE => ret tt
      end.

Definition filestat (f addr : Z) : M (kernel C) Z :=
  let* p := my_proc in
  let* x := file_get f in
  match f_type x with
  | FD_INODE | FD_DEVICE =>
    on_fs (ilock (f_ip x)) ;;;
    let* st := on_fs (stati (f_ip x)) in
    on_fs (iunlock (f_ip x)) ;;;
    let* r := on_kmem (copyout (p_pagetable p) addr (stat_bytes pad st)) in
    if r <? 0 then ret (-1) else ret 0
  | _ => ret (-1)
  end.

(** [devsw[major]], when [0 <= major < NDEV]. *)
Definition device (major : Z) : M (kernel C) devsw :=
  let* k := get in
  ret (if (major <? 0) || (NDEV <=? major) then NoDev else default NoDev (zget (k_devsw k) major)).

Definition fileread (f addr n : Z) : M (kernel C) Z :=
  let* x := file_get f in
  if f_readable x =? 0 then ret (-1)
  else
    match f_type x with
    | FD_PIPE =>
      let* r := on_pipe (f_pipe x) (piperead u_copyout1 ue_killed (f_pipe x) addr n) in
      match r with RRet i => ret i | RSleep => sleep_on (ChPipeRead (f_pipe x)) end
    | FD_DEVICE =>
      let* d := device (f_major x) in
      match d with
      | NoDev => ret (-1)
      | ConsoleDev =>
        let* r := on_console (consoleread u_copyout1 ue_killed addr n) in
        match r with RdRet i => ret i | RdSleep _ _ => sleep_on ChConsR end
      end
    | FD_INODE =>
      on_fs (ilock (f_ip x)) ;;;
      let* r := on_fs (readi u_copyout (f_ip x) (DUser addr) (f_off x) (u32 n)) in
      (if 0 <? r.1 then file_upd f (f_set_off (u32 (f_off x + r.1))) else ret tt) ;;;
      on_fs (iunlock (f_ip x)) ;;;
      ret r.1
    | FD_NONE => panic "fileread"
    end.

(** [((MAXOPBLOCKS-1-1-2) / 2) * BSIZE] *)
Definition max_write : Z := (MAXOPBLOCKS - 1 - 1 - 2) / 2 * BSIZE.

(** The loop of [filewrite] on an inode; its result is the final [i]. *)
Fixpoint filewrite_loop (fuel : nat) (f ip addr n i : Z) : M (kernel C) Z :=
  match fuel with
  | O => undef "filewrite: out of fuel"
  | S fuel' =>
    if i <? n then
      let n1 := Z.min (n - i) max_write in
      k_begin_op ;;;
      on_fs (ilock ip) ;;;
      let* x := file_get f in
      let* r := on_fs (writei u_copyin ip (SUser (u64 (addr + i))) (f_off x) n1) in
      (if 0 <? r then file_upd f (f_set_off (u32 (f_off x + r))) else ret tt) ;;;
      on_fs (iunlock ip) ;;;
      k_end_op ;;;
      if negb (r =? n1) then ret i else filewrite_loop fuel' f ip addr n (i + r)
    else ret i
  end.

Definition filewrite (f addr n : Z) : M (kernel C) Z :=
  let* x := file_get f in
  if f_writable x =? 0 then ret (-1)
  else
    match f_type x with
    | FD_PIPE =>
      let* r := on_pipe (f_pipe x) (pipewrite u_copyin1 ue_killed (f_pipe x) addr n) in
      match r with WRet i => ret i | WSleep _ => sleep_on (ChPipeWrite (f_pipe x)) end
    | FD_DEVICE =>
      let* d := device (f_major x) in
      match d with
      | NoDev => ret (-1)
      | ConsoleDev =>
        let* r := on_console (consolewrite u_copyin1 addr n) in
        match r with CRet i => ret i | CSleep _ => sleep_on ChUartTxR end
      end
    | FD_INODE =>
      let* i := filewrite_loop (S (Z.to_nat (n / max_write + 1))) f (f_ip x) addr n 0 in
      ret (if i =? n then n else -1)
    | FD_NONE => panic "filewrite"
    end.

(** [fileclose] of a file pointer that may be null. *)
Definition close_opt (f : option Z) : M (kernel C) unit :=
  match f with Some f => fileclose f | None => ret tt end.

Definition pipealloc : M (kernel C) (option (Z * Z)) :=
  let* f0 := filealloc in
  match f0 with
  | None => ret None
  | Some f0 =>
    let* f1 := filealloc in
    match f1 with
    | None => close_opt (Some f0) ;;; ret None
    | Some f1 =>
      let* pi := on_kmem kalloc in
      if pi =? 0 then close_opt (Some f0) ;;; close_opt (Some f1) ;;; ret None
      else
        let* m := on_kmem kmem_get in
        modify (fun k => k_set_pipes (<[pi := pipeinit (load_bytes (Z.to_nat PIPESIZE) m (pi + 24))]> (k_pipes k)) k) ;;;
        file_upd f0 (fun x => File FD_PIPE (f_ref x) 1 0 pi (f_ip x) (f_off x) (f_major x)) ;;;
        file_upd f1 (fun x => File FD_PIPE (f_ref x) 0 1 pi (f_ip x) (f_off x) (f_major x)) ;;;
        ret (Some (f0, f1))
    end
  end.
End code.
