(* ===== verification/Proc.v ===== *)
(** * kernel/proc.c: processes and the scheduler

    The process table: creation, exit and reaping of processes, sleeping and
    waking, killing, and the scheduler with its three classes of processes.
    [kend], [trampoline] and [forkret_addr] are addresses the linker fixes.  A
    function that calls [sched] ends there: [exit]
    leaves a zombie, a call that waits has the outcome [Sleep].  The scheduler
    is a state machine that stops while a process runs and goes on when
    [swtch] comes back to it. *)

From Stdlib Require Import ZArith Lia.
From stdpp Require Import base list strings numbers gmap.
From S2P Require Import Prelude Memory KString KPrintf Riscv Kalloc Vm Sleeplock Blocks BlockCache Log Fs Pipe Uart Console Kernel File.

Definition DEFAULT : Z := 1.
Definition CPU_BOUND : Z := 2.
Definition IO_BOUND : Z := 3.

(** Offsets in [struct trapframe]. *)
Definition TF_kernel_satp : Z := 0.
Definition TF_kernel_sp : Z := 8.
Definition TF_kernel_trap : Z := 16.
Definition TF_epc : Z := 24.
Definition TF_kernel_hartid : Z := 32.
Definition TF_sp : Z := 48.
Definition TF_a0 : Z := 112.
Definition TF_a1 : Z := 120.
Definition TF_a7 : Z := 168.
Definition TF_SIZE : Z := 288.

Definition initcode : list Z :=
  [23; 5; 0; 0; 19; 5; 69; 2;
   151; 5; 0; 0; 147; 133; 53; 2;
   147; 8; 112; 0; 115; 0; 0; 0;
   147; 8; 32; 0; 115; 0; 0; 0;
   239; 240; 159; 255; 47; 105; 110; 105;
   116; 0; 0; 36; 0; 0; 0; 0;
   0; 0; 0; 0].

(** [safestrcpy(dst, s, n)] on strings. *)
Definition safestr (s : list Z) (n : nat) : list Z := take (n - 1) s.

(** The first process in a state that [f] accepts. *)
Fixpoint find_proc (f : proc -> bool) (ps : list proc) (i : Z) : option Z :=
  match ps with
  | [] => None
  | p :: ps' => if f p then Some i else find_proc f ps' (i + 1)
  end.

(** ** The choice of the scheduler *)

Record picks := Picks { pk_cpu : option Z; pk_io : option Z; pk_default : option Z }.

Definition pick_step (pk : picks) (ip : Z * proc) : picks :=
  let '(i, p) := ip in
  if bool_decide (p_state p = RUNNABLE) then
    if (p_type p =? CPU_BOUND) && bool_decide (pk_cpu pk = None) then
      Picks (Some i) (pk_io pk) (pk_default pk)
    else if (p_type p =? IO_BOUND) && bool_decide (pk_io pk = None) then
      Picks (pk_cpu pk) (Some i) (pk_default pk)
    else if (p_type p =? DEFAULT) && bool_decide (pk_default pk = None) then
      Picks (pk_cpu pk) (pk_io pk) (Some i)
    else pk
  else pk.

Definition pick (ps : list proc) : option Z :=
  let pk := foldl pick_step (Picks None None None) (imap (fun i p => (Z.of_nat i, p)) ps) in
  match pk_cpu pk, pk_io pk with
  | None, None => pk_default pk
  | _, _ => match pk_io pk with Some i => Some i | None => pk_cpu pk end
  end.

Section code.
Context {C : Type} `{BlockCache C}.
Context (kend trampoline forkret_addr : Z).

Definition procinit : M (kernel C) unit :=
  for_loop (Z.to_nat NPROC) 0 (fun i =>
    proc_upd i (fun p => p_set_kstack (KSTACK i) (p_set_state UNUSED p))).

Definition allocpid : M (kernel C) Z :=
  let* k := get in
  modify (k_set_nextpid (k_nextpid k + 1)) ;;;
  ret (k_nextpid k).

Definition proc_pagetable (trapframe : Z) : M (kernel C) Z :=
  on_kmem
    (let* pagetable := uvmcreate in
     if pagetable =? 0 then ret 0
     else
       let* r := mappages pagetable TRAMPOLINE PGSIZE trampoline (Z.lor PTE_R PTE_X) in
       if r <? 0 then uvmfree kend pagetable 0 ;;; ret 0
       else
         let* r := mappages pagetable TRAPFRAME PGSIZE trapframe (Z.lor PTE_R PTE_W) in
         if r <? 0 then
           uvmunmap kend pagetable TRAMPOLINE 1 false ;;;
           uvmfree kend pagetable 0 ;;;
           ret 0
         else ret pagetable).

Definition proc_freepagetable (pagetable sz : Z) : M (kernel C) unit :=
  on_kmem
    (uvmunmap kend pagetable TRAMPOLINE 1 false ;;;
     uvmunmap kend pagetable TRAPFRAME 1 false ;;;
     uvmfree kend pagetable sz).

Definition freeproc (i : Z) : M (kernel C) unit :=
  let* p := proc_get i in
  (if negb (p_trapframe p =? 0) then on_kmem (kfree kend (p_trapframe p)) else ret tt) ;;;
  proc_upd i (p_set_trapframe 0) ;;;
  (if negb (p_pagetable p =? 0) then proc_freepagetable (p_pagetable p) (p_sz p) else ret tt) ;;;
  proc_upd i (fun p =>
    p_set_state UNUSED (p_set_xstate 0 (p_set_killed 0 (p_set_chan None (p_set_name []
      (p_set_parent None (p_set_pid 0 (p_set_sz 0 (p_set_pagetable 0 p))))))))).

Definition allocproc : M (kernel C) (option Z) :=
  let* k := get in
  match find_proc (fun p => bool_decide (p_state p = UNUSED)) (k_procs k) 0 with
  | None => ret None
  | Some i =>
    let* pid := allocpid in
    proc_upd i (fun p => p_set_type DEFAULT (p_set_eficiencia 0 (p_set_overhead 0
                  (p_set_tempo_total 0 (p_set_state USED (p_set_pid pid p)))))) ;;;
    let* tf := on_kmem kalloc in
    proc_upd i (p_set_trapframe tf) ;;;
    if tf =? 0 then freeproc i ;;; ret None
    else
      let* pt := proc_pagetable tf in
      proc_upd i (p_set_pagetable pt) ;;;
      if pt =? 0 then freeproc i ;;; ret None
      else
        proc_upd i (fun p =>
          p_set_context ([forkret_addr; u64 (p_kstack p + PGSIZE)] ++ replicate 12 0) p) ;;;
        ret (Some i)
  end.

Definition userinit : M (kernel C) unit :=
  let* p := allocproc in
  modify (k_set_initproc p) ;;;
  match p with
  | None => undef "userinit: null process"
  | Some i =>
    let* p := proc_get i in
    on_kmem (uvmfirst (p_pagetable p) initcode) ;;;
    proc_upd i (p_set_sz PGSIZE) ;;;
    tf_set p TF_epc 0 ;;;
    tf_set p TF_sp PGSIZE ;;;
    proc_upd i (p_set_name (safestr (bytes "initcode") 16)) ;;;
    (* an absolute path does not use the current directory *)
    let* cwd := on_fs (namei u_copyout 0 (bytes "/")) in
    proc_upd i (p_set_cwd cwd) ;;;
    proc_upd i (p_set_state RUNNABLE)
  end.

Definition growproc (n : Z) : M (kernel C) Z :=
  let* i := myproc in
  let* p := proc_get i in
  let sz := p_sz p in
  if 0 <? n then
    let* sz' := on_kmem (uvmalloc kend (p_pagetable p) sz (u64 (sz + n)) PTE_W) in
    if sz' =? 0 then ret (-1) else proc_upd i (p_set_sz sz') ;;; ret 0
  else if n <? 0 then
    let* sz' := on_kmem (uvmdealloc kend (p_pagetable p) sz (u64 (sz + n))) in
    proc_upd i (p_set_sz sz') ;;; ret 0
  else proc_upd i (p_set_sz sz) ;;; ret 0.

(** [np->ofile[i] = filedup(p->ofile[i])] for the descriptors in use. *)
Definition dup_ofile (p np : Z) (fd : Z) : M (kernel C) unit :=
  let* x := proc_get p in
  match zget (p_ofile x) fd with
  | Some (Some f) =>
    let* f := filedup f in
    proc_upd np (fun y => p_set_ofile (zset (p_ofile y) fd (Some f)) y)
  | Some None => ret tt
  | None => undef "ofile"
  end.

Definition fork : M (kernel C) Z :=
  let* i := myproc in
  let* np := allocproc in
  match np with
  | None => ret (-1)
  | Some np =>
    let* p := proc_get i in
    let* c := proc_get np in
    let* r := on_kmem (uvmcopy kend (p_pagetable p) (p_pagetable c) (p_sz p)) in
    if r <? 0 then freeproc np ;;; ret (-1)
    else
      proc_upd np (p_set_sz (p_sz p)) ;;;
      on_kmem (kmem_put (fun m => memmove m (p_trapframe c) (p_trapframe p) TF_SIZE)) ;;;
      tf_set c TF_a0 0 ;;;
      for_loop (Z.to_nat NOFILE) 0 (dup_ofile i np) ;;;
      let* cwd := of_option "fork: null cwd" (p_cwd p) in
      let* cwd := on_fs (idup cwd) in
      proc_upd np (p_set_cwd (Some cwd)) ;;;
      proc_upd np (p_set_name (safestr (p_name p) 16)) ;;;
      let* c := proc_get np in
      proc_upd np (p_set_parent (Some i)) ;;;
      proc_upd np (p_set_state RUNNABLE) ;;;
      ret (p_pid c)
  end.

Definition reparent (p : Z) : M (kernel C) unit :=
  let* k := get in
  for_loop (Z.to_nat NPROC) 0 (fun i =>
    let* pp := proc_get i in
    if bool_decide (p_parent pp = Some p) then
      proc_upd i (p_set_parent (k_initproc k)) ;;;
      match k_initproc k with Some ip => wakeup (ChProc ip) | None => ret tt end
    else ret tt).

Definition close_fd (i fd : Z) : M (kernel C) unit :=
  let* p := proc_get i in
  match zget (p_ofile p) fd with
  | Some (Some f) =>
    fileclose kend f ;;;
    proc_upd i (fun p => p_set_ofile (zset (p_ofile p) fd None) p)
  | Some None => ret tt
  | None => undef "ofile"
  end.

(** Ends with the call of [sched] that does not return. *)
Definition exit (status : Z) : M (kernel C) unit :=
  let* i := myproc in
  let* k := get in
  if bool_decide (k_initproc k = Some i) then panic "init exiting"
  else
    for_loop (Z.to_nat NOFILE) 0 (close_fd i) ;;;
    let* p := proc_get i in
    let* cwd := of_option "exit: null cwd" (p_cwd p) in
    k_begin_op ;;;
    on_fs (iput cwd) ;;;
    k_end_op ;;;
    proc_upd i (p_set_cwd None) ;;;
    reparent i ;;;
    let* p := proc_get i in
    match p_parent p with Some pp => wakeup (ChProc pp) | None => ret tt end ;;;
    proc_upd i (fun p => p_set_state ZOMBIE (p_set_xstate status p)).

(** One scan of the table by [wait]: a zombie child, or whether there are children. *)
Fixpoint wait_scan (ps : list proc) (me i : Z) (havekids : bool) : option Z * bool :=
  match ps with
  | [] => (None, havekids)
  | pp :: ps' =>
    if bool_decide (p_parent pp = Some me) then
      if bool_decide (p_state pp = ZOMBIE) then (Some i, true) else wait_scan ps' me (i + 1) true
    else wait_scan ps' me (i + 1) havekids
  end.

(** Sleeps when there are children and none has exited; the loop starts again
    when it is woken up. *)
Definition wait (addr : Z) : M (kernel C) Z :=
  let* i := myproc in
  let* p := proc_get i in
  let* k := get in
  match wait_scan (k_procs k) i 0 false with
  | (Some c, _) =>
    let* pp := proc_get c in
    let* r := (if negb (addr =? 0)
               then on_kmem (copyout (p_pagetable p) addr (le_bytes 4 (p_xstate pp))) else ret 0) in
    if r <? 0 then ret (-1) else freeproc c ;;; ret (p_pid pp)
  | (None, havekids) =>
    if negb havekids || negb (p_killed p =? 0) then ret (-1) else sleep_on (ChProc i)
  end.

(** ** The scheduler *)

Definition sys_uptime_nolock : M (kernel C) Z := gets k_ticks.

(** Where the scheduler of a processor is: at the top of its loop, or in [swtch]
    running process [i] since tick [t0]. *)
Inductive sched_pc := SPick | SRun (i t0 : Z).

Definition dispatch (i : Z) : M (kernel C) sched_pc :=
  let* tempo_inicio := sys_uptime_nolock in
  proc_upd i (p_set_state RUNNING) ;;;
  modify (k_set_cur (Some i)) ;;;
  ret (SRun i tempo_inicio).

(** From one [swtch] to the next: the accounting for the process that ran, which
    runs again while it is runnable, or else a new choice.  Without a process to
    run the processor waits for an interrupt. *)
Definition scheduler (pc : sched_pc) : M (kernel C) sched_pc :=
  match pc with
  | SRun i tempo_inicio =>
    let* tempo_final := sys_uptime_nolock in
    proc_upd i (fun p =>
      p_set_tempo_total (i32 (p_tempo_total p + u32 (tempo_final - tempo_inicio))) p) ;;;
    modify (k_set_cur None) ;;;
    let* p := proc_get i in
    if bool_decide (p_state p = RUNNABLE) then dispatch i else ret SPick
  | SPick =>
    let* k := get in
    match pick (k_procs k) with
    | Some i =>
      let* p := proc_get i in
      if bool_decide (p_state p = RUNNABLE) then dispatch i else ret SPick
    | None => ret SPick
    end
  end.

Definition yield : M (kernel C) unit :=
  let* i := myproc in proc_upd i (p_set_state RUNNABLE).

(** What [sleep] does to the caller before [sched] and after it. *)
Definition sleep_enter (c : chan) : M (kernel C) unit :=
  let* i := myproc in proc_upd i (fun p => p_set_state SLEEPING (p_set_chan (Some c) p)).
Definition sleep_leave : M (kernel C) unit :=
  let* i := myproc in proc_upd i (p_set_chan None).

(** [forkret] up to [usertrapret]. *)
Definition forkret : M (kernel C) unit :=
  let* k := get in
  if k_first k then on_fs fsinit ;;; modify (k_set_first false) else ret tt.

(** ** Killing and copying *)

Definition kill (pid : Z) : M (kernel C) Z :=
  let* k := get in
  match find_proc (fun p => p_pid p =? pid) (k_procs k) 0 with
  | Some i =>
    proc_upd i (p_set_killed 1) ;;;
    let* p := proc_get i in
    (if bool_decide (p_state p = SLEEPING) then proc_upd i (p_set_state RUNNABLE) else ret tt) ;;;
    ret 0
  | None => ret (-1)
  end.

Definition either_copyout (user_dst : bool) (dst : Z) (src : list Z) : M (kernel C) Z :=
  let* p := my_proc in
  if user_dst then on_kmem (copyout (p_pagetable p) dst src)
  else on_kmem (kmem_put (fun m => store_bytes m dst src)) ;;; ret 0.

Definition either_copyin (user_src : bool) (src len : Z) : M (kernel C) (Z * list Z) :=
  let* p := my_proc in
  if user_src then on_kmem (copyin (p_pagetable p) src len)
  else let* m := on_kmem kmem_get in ret (0, load_bytes (Z.to_nat len) m src).

Definition state_name (s : procstate) : list Z :=
  match s with
  | UNUSED => bytes "unused"
  | USED => bytes "used"
  | SLEEPING => bytes "sleep "
  | RUNNABLE => bytes "runble"
  | RUNNING => bytes "run   "
  | ZOMBIE => bytes "zombie"
  end.

(** The lines of [procdump] for the processes of the table. *)
Fixpoint procdump_lines (ps : list proc) : option (list Z) :=
  match ps with
  | [] => Some []
  | p :: ps' =>
    if bool_decide (p_state p = UNUSED) then procdump_lines ps'
    else
      match KPrintf.printf (bytes "%d %s %s")
              [VInt (p_pid p); VStr (Some (state_name (p_state p))); VStr (Some (p_name p))],
            procdump_lines ps' with
      | Some l, Some rest => Some (l ++ [10] ++ rest)
      | _, _ => None
      end
  end.

(** [procdump], called from the console's interrupt handler. *)
Definition procdump (ps : list proc) : M console unit :=
  match procdump_lines ps with
  | Some l => foldr (fun c m => consputc c ;;; m) (ret tt) (10 :: l)
  | None => undef "printf"
  end.
End code.
