(* ===== verification/Args.v ===== *)
(** * kernel/syscall.c: fetching system call arguments *)

From Stdlib Require Import ZArith Lia.
From stdpp Require Import base list strings numbers gmap.
From S2P Require Import Prelude Memory Riscv Kalloc Vm Sleeplock Blocks BlockCache Log Fs Pipe Console Kernel File Proc.

Definition MAXPATH : Z := 128.

(** The little-endian number in a list of bytes. *)
Definition of_le (l : list Z) : Z := foldr (fun b v => b + 256 * v) 0 l.

Section code.
Context {C : Type} `{BlockCache C}.

(** The word at [addr] of the running process, or [None] for -1. *)
Definition fetchaddr (addr : Z) : M (kernel C) (option Z) :=
  let* p := my_proc in
  if (p_sz p <=? addr) || (p_sz p <? u64 (addr + 8)) then ret None
  else
    let* r := on_kmem (copyin (p_pagetable p) addr 8) in
    ret (if negb (r.1 =? 0) then None else Some (of_le r.2)).

(** The string at [addr]; its length is what the code returns. *)
Definition fetchstr (addr max : Z) : M (kernel C) (option (list Z)) :=
  let* p := my_proc in
  on_kmem (copyinstr (p_pagetable p) addr max).

Definition argraw (n : Z) : M (kernel C) Z :=
  let* p := my_proc in
  if (0 <=? n) && (n <=? 5) then tf_get p (TF_a0 + 8 * n) else panic "argraw".

Definition argint (n : Z) : M (kernel C) Z := let* v := argraw n in ret (i32 v).

Definition argaddr (n : Z) : M (kernel C) Z := argraw n.

Definition argstr (n max : Z) : M (kernel C) (option (list Z)) :=
  let* addr := argaddr n in fetchstr addr max.
End code.
