(* ===== verification/Exec.v ===== *)
(** * kernel/exec.c: replacing the memory image of a process *)

From Stdlib Require Import ZArith Lia.
From stdpp Require Import base list strings numbers gmap.
From S2P Require Import Prelude Memory KString Riscv Kalloc Vm Sleeplock Blocks BlockCache Log Fs Pipe Console Kernel File Proc Args.

Definition ELF_MAGIC : Z := 1179403647.
Definition ELF_PROG_LOAD : Z := 1.
Definition MAXARG : Z := 32.
Definition USERSTACK : Z := 1.

(** The fields of [struct elfhdr] and [struct proghdr] that the code uses. *)
Definition ELFHDR : Z := 64.
Definition elf_magic (b : list Z) : Z := of_le (sub_bytes b 0 4).
Definition elf_entry (b : list Z) : Z := of_le (sub_bytes b 24 8).
Definition elf_phoff (b : list Z) : Z := of_le (sub_bytes b 32 8).
Definition elf_phnum (b : list Z) : Z := of_le (sub_bytes b 56 2).
Definition PROGHDR : Z := 56.
Definition ph_type (b : list Z) : Z := of_le (sub_bytes b 0 4).
Definition ph_flags (b : list Z) : Z := i32 (of_le (sub_bytes b 4 4)).
Definition ph_off (b : list Z) : Z := of_le (sub_bytes b 8 8).
Definition ph_vaddr (b : list Z) : Z := of_le (sub_bytes b 16 8).
Definition ph_filesz (b : list Z) : Z := of_le (sub_bytes b 32 8).
Definition ph_memsz (b : list Z) : Z := of_le (sub_bytes b 40 8).

Definition flags2perm (flags : Z) : Z :=
  let perm := if has flags 1 then PTE_X else 0 in
  if has flags 2 then Z.lor perm PTE_W else perm.

(** The part of a path after its last slash. *)
Fixpoint last_elem (path last : list Z) : list Z :=
  match path with
  | [] => last
  | c :: s => if c =? 47 then last_elem s s else last_elem s last
  end.

Section code.
Context {C : Type} `{BlockCache C}.
Context (kend trampoline : Z).

Fixpoint loadseg_loop (fuel : nat) (pagetable va ip offset sz i : Z) : M (kernel C) Z :=
  match fuel with
  | O => undef "loadseg: out of fuel"
  | S fuel' =>
    if i <? sz then
      let* pa := on_kmem (walkaddr pagetable (u64 (va + i))) in
      if pa =? 0 then panic "loadseg: address should exist"
      else
        let n := if sz - i <? PGSIZE then sz - i else PGSIZE in
        let* r := on_fs (readi u_copyout ip DKernel (u32 (offset + i)) n) in
        on_kmem (kmem_put (fun m => store_bytes m pa r.2)) ;;;
        if negb (r.1 =? n) then ret (-1)
        else loadseg_loop fuel' pagetable va ip offset sz (i + PGSIZE)
    else ret 0
  end.

Definition loadseg (pagetable va ip offset sz : Z) : M (kernel C) Z :=
  loadseg_loop (S (Z.to_nat (sz / PGSIZE + 1))) pagetable va ip offset sz 0.

(** The loop over the program headers: whether it came to its end, and the size of
    the image when it stopped. *)
Fixpoint exec_load (phnum : nat) (pagetable ip off sz : Z) : M (kernel C) (bool * Z) :=
  match phnum with
  | O => ret (true, sz)
  | S phnum' =>
    let* r := on_fs (readi u_copyout ip DKernel (u32 off) PROGHDR) in
    let ph := r.2 in
    if negb (r.1 =? PROGHDR) then ret (false, sz)
    else if negb (ph_type ph =? ELF_PROG_LOAD) then
      exec_load phnum' pagetable ip (i32 (off + PROGHDR)) sz
    else if ph_memsz ph <? ph_filesz ph then ret (false, sz)
    else if u64 (ph_vaddr ph + ph_memsz ph) <? ph_vaddr ph then ret (false, sz)
    else if negb (ph_vaddr ph mod PGSIZE =? 0) then ret (false, sz)
    else
      let* sz1 := on_kmem (uvmalloc kend pagetable sz (u64 (ph_vaddr ph + ph_memsz ph))
                             (flags2perm (ph_flags ph))) in
      if sz1 =? 0 then ret (false, sz)
      else
        let* l := loadseg pagetable (ph_vaddr ph) ip (u32 (ph_off ph)) (u32 (ph_filesz ph)) in
        if l <? 0 then ret (false, sz1)
        else exec_load phnum' pagetable ip (i32 (off + PROGHDR)) sz1
  end.

(** Pushes the argument strings from the pages [argv]: the stack pointer and the
    addresses of the strings, or [None] for a jump to [bad]. *)
Fixpoint push_args (argv : list Z) (pagetable sp stackbase argc : Z) (ustack : list Z)
    : M (kernel C) (option (Z * list Z)) :=
  match argv with
  | [] => ret (Some (sp, ustack))
  | a :: argv' =>
    if MAXARG <=? argc then ret None
    else
      let* m := on_kmem kmem_get in
      let n := Z.of_nat (length (cstrn (Z.to_nat PGSIZE) m a)) + 1 in
      let sp := u64 (sp - n) in
      let sp := sp - sp mod 16 in
      if sp <? stackbase then ret None
      else
        let* r := on_kmem (copyout pagetable sp (load_bytes (Z.to_nat n) m a)) in
        if r <? 0 then ret None
        else push_args argv' pagetable sp stackbase (argc + 1) (ustack ++ [sp])
  end.

(** [bad:] *)
Definition exec_bad (pagetable sz : Z) (ip : option Z) : M (kernel C) Z :=
  (if negb (pagetable =? 0) then proc_freepagetable kend pagetable sz else ret tt) ;;;
  match ip with
  | Some ip => on_fs (iunlockput ip) ;;; k_end_op
  | None => ret tt
  end ;;;
  ret (-1).

(** The new image takes the place of the old one. *)
Definition exec_commit (i pagetable sz entry sp : Z) (path : list Z) : M (kernel C) unit :=
  let* p := proc_get i in
  tf_set p TF_a1 sp ;;;
  proc_upd i (p_set_name (safestr (last_elem path path) 16)) ;;;
  proc_upd i (p_set_pagetable pagetable) ;;;
  proc_upd i (p_set_sz sz) ;;;
  tf_set p TF_epc entry ;;;
  tf_set p TF_sp sp ;;;
  proc_freepagetable kend (p_pagetable p) (p_sz p).

(** From the allocation of the stack on, when the inode is released. *)
Definition exec_stack (i pagetable sz entry : Z) (path : list Z) (argv : list Z) : M (kernel C) Z :=
  let sz := PGROUNDUP sz in
  let* sz1 := on_kmem (uvmalloc kend pagetable sz (u64 (sz + (USERSTACK + 1) * PGSIZE)) PTE_W) in
  if sz1 =? 0 then exec_bad pagetable sz None
  else
    let sz := sz1 in
    on_kmem (uvmclear pagetable (u64 (sz - (USERSTACK + 1) * PGSIZE))) ;;;
    let stackbase := u64 (sz - USERSTACK * PGSIZE) in
    let* r := push_args argv pagetable sz stackbase 0 [] in
    match r with
    | None => exec_bad pagetable sz None
    | Some (sp, ustack) =>
      let argc := Z.of_nat (length ustack) in
      let sp := u64 (sp - (argc + 1) * 8) in
      let sp := sp - sp mod 16 in
      if sp <? stackbase then exec_bad pagetable sz None
      else
        let* r := on_kmem (copyout pagetable sp (concat (le_bytes 8 <$> ustack ++ [0]))) in
        if r <? 0 then exec_bad pagetable sz None
        else exec_commit i pagetable sz entry sp path ;;; ret argc
    end.

(** [argv] are the addresses of the argument strings. *)
Definition exec (path : list Z) (argv : list Z) : M (kernel C) Z :=
  let* i := myproc in
  let* p := proc_get i in
  k_begin_op ;;;
  let* cwd := of_option "exec: null cwd" (p_cwd p) in
  let* ip := on_fs (namei u_copyout cwd path) in
  match ip with
  | None => k_end_op ;;; ret (-1)
  | Some ip =>
    on_fs (ilock ip) ;;;
    let* r := on_fs (readi u_copyout ip DKernel 0 ELFHDR) in
    let elf := r.2 in
    if negb (r.1 =? ELFHDR) then exec_bad 0 0 (Some ip)
    else if negb (elf_magic elf =? ELF_MAGIC) then exec_bad 0 0 (Some ip)
    else
      let* pagetable := proc_pagetable kend trampoline (p_trapframe p) in
      if pagetable =? 0 then exec_bad 0 0 (Some ip)
      else
        let* l := exec_load (Z.to_nat (elf_phnum elf)) pagetable ip (i32 (elf_phoff elf)) 0 in
        let '(ok, sz) := l in
        if negb ok then exec_bad pagetable sz (Some ip)
        else
          on_fs (iunlockput ip) ;;;
          k_end_op ;;;
          exec_stack i pagetable sz (elf_entry elf) path argv
  end.
End code.
