(* ===== verification/Sysfile.v ===== *)
(** * kernel/sysfile.c: the system calls on files *)

From Stdlib Require Import ZArith Lia.
From stdpp Require Import base list strings numbers gmap.
From S2P Require Import Prelude Memory KString Riscv Kalloc Vm Sleeplock Blocks BlockCache Log Fs Pipe Console Kernel File Proc Args Exec.

Definition O_RDONLY : Z := 0.
Definition O_WRONLY : Z := 1.
Definition O_RDWR : Z := 2.
Definition O_CREATE : Z := 512.
Definition O_TRUNC : Z := 1024.

(** The first free descriptor. *)
Fixpoint find_fd (l : list (option Z)) (i : Z) : option Z :=
  match l with
  | [] => None
  | None :: _ => Some i
  | Some _ :: l' => find_fd l' (i + 1)
  end.

Section code.
Context {C : Type} `{BlockCache C}.
Context (kend trampoline : Z) (pad : list Z).

Definition argfd (n : Z) : M (kernel C) (option (Z * Z)) :=
  let* fd := argint n in
  let* p := my_proc in
  ret (if (fd <? 0) || (NOFILE <=? fd) then None
       else match zget (p_ofile p) fd with Some (Some f) => Some (fd, f) | _ => None end).

(** [p->ofile[fd] = f] for the running process. *)
Definition set_fd (fd : Z) (f : option Z) : M (kernel C) unit :=
  let* i := myproc in proc_upd i (fun p => p_set_ofile (zset (p_ofile p) fd f) p).

Definition fdalloc (f : Z) : M (kernel C) Z :=
  let* p := my_proc in
  match find_fd (p_ofile p) 0 with
  | Some fd => set_fd fd (Some f) ;;; ret fd
  | None => ret (-1)
  end.

Definition sys_dup : M (kernel C) Z :=
  let* a := argfd 0 in
  match a with
  | None => ret (-1)
  | Some (_, f) =>
    let* fd := fdalloc f in
    if fd <? 0 then ret (-1) else filedup f ;;; ret fd
  end.

Definition sys_read : M (kernel C) Z :=
  let* p := argaddr 1 in
  let* n := argint 2 in
  let* a := argfd 0 in
  match a with None => ret (-1) | Some (_, f) => fileread f p n end.

Definition sys_write : M (kernel C) Z :=
  let* p := argaddr 1 in
  let* n := argint 2 in
  let* a := argfd 0 in
  match a with None => ret (-1) | Some (_, f) => filewrite f p n end.

Definition sys_close : M (kernel C) Z :=
  let* a := argfd 0 in
  match a with
  | None => ret (-1)
  | Some (fd, f) => set_fd fd None ;;; fileclose kend f ;;; ret 0
  end.

Definition sys_fstat : M (kernel C) Z :=
  let* st := argaddr 1 in
  let* a := argfd 0 in
  match a with None => ret (-1) | Some (_, f) => filestat pad f st end.

(** The current directory of the caller, for path lookups. *)
Definition my_cwd : M (kernel C) Z :=
  let* p := my_proc in of_option "null cwd" (p_cwd p).
Definition k_namei (path : list Z) : M (kernel C) (option Z) :=
  let* cwd := my_cwd in on_fs (namei u_copyout cwd path).
Definition k_nameiparent (path : list Z) : M (kernel C) (option (Z * list Z)) :=
  let* cwd := my_cwd in on_fs (nameiparent u_copyout cwd path).

(** [bad:] of [sys_link] *)
Definition link_bad (ip : Z) : M (kernel C) Z :=
  on_fs (ilock ip ;;;
         di_upd ip (fun d => with_nlink (swrap 16 (di_nlink d - 1)) d) ;;;
         iupdate ip ;;;
         iunlockput ip) ;;;
  k_end_op ;;;
  ret (-1).

(** From the lookup of the new name on. *)
Definition link_new (ip : Z) (new : list Z) : M (kernel C) Z :=
  let* d := k_nameiparent new in
  match d with
  | None => link_bad ip
  | Some (dp, name) =>
    on_fs (ilock dp) ;;;
    let* dx := on_fs (ip_get dp) in
    let* x := on_fs (ip_get ip) in
    let* bad := (if negb (ip_dev dx =? ip_dev x) then ret true
                 else let* r := on_fs (dirlink u_copyout u_copyin dp name (ip_inum x)) in ret (r <? 0)) in
    on_fs (iunlockput dp) ;;;
    if bad then link_bad ip
    else on_fs (iput ip) ;;; k_end_op ;;; ret 0
  end.

Definition sys_link : M (kernel C) Z :=
  let* old := argstr 0 MAXPATH in
  match old with
  | None => ret (-1)
  | Some old =>
    let* new := argstr 1 MAXPATH in
    match new with
    | None => ret (-1)
    | Some new =>
      k_begin_op ;;;
      let* ip := k_namei old in
      match ip with
      | None => k_end_op ;;; ret (-1)
      | Some ip =>
        on_fs (ilock ip) ;;;
        let* x := on_fs (ip_get ip) in
        if di_type (ip_di x) =? T_DIR then on_fs (iunlockput ip) ;;; k_end_op ;;; ret (-1)
        else
          on_fs (di_upd ip (fun d => with_nlink (swrap 16 (di_nlink d + 1)) d) ;;;
                 iupdate ip ;;;
                 iunlock ip) ;;;
          link_new ip new
      end
    end
  end.

Fixpoint isdirempty_loop (fuel : nat) (dp off : Z) : M (kernel C) bool :=
  match fuel with
  | O => undef "isdirempty: out of fuel"
  | S fuel' =>
    let* x := on_fs (ip_get dp) in
    if off <? di_size (ip_di x) then
      let* r := on_fs (readi u_copyout dp DKernel off DIRENT) in
      if negb (r.1 =? DIRENT) then panic "isdirempty: readi"
      else if negb (de_inum r.2 =? 0) then ret false
      else isdirempty_loop fuel' dp (off + DIRENT)
    else ret true
  end.

Definition isdirempty (dp : Z) : M (kernel C) bool :=
  let* x := on_fs (ip_get dp) in
  isdirempty_loop (S (S (Z.to_nat (di_size (ip_di x) / DIRENT)))) dp (2 * DIRENT).

(** [bad:] of [sys_unlink] *)
Definition unlink_bad (dp : Z) : M (kernel C) Z :=
  on_fs (iunlockput dp) ;;; k_end_op ;;; ret (-1).

(** The removal of the entry at [off] of [dp] for the inode [ip]. *)
Definition unlink_entry (dp ip off : Z) : M (kernel C) Z :=
  let* w := on_fs (writei u_copyin dp (SKernel (replicate (Z.to_nat DIRENT) 0)) off DIRENT) in
  if negb (w =? DIRENT) then panic "unlink: writei"
  else
    let* x := on_fs (ip_get ip) in
    (if di_type (ip_di x) =? T_DIR then
       on_fs (di_upd dp (fun d => with_nlink (swrap 16 (di_nlink d - 1)) d) ;;; iupdate dp)
     else ret tt) ;;;
    on_fs (iunlockput dp ;;;
           di_upd ip (fun d => with_nlink (swrap 16 (di_nlink d - 1)) d) ;;;
           iupdate ip ;;;
           iunlockput ip) ;;;
    k_end_op ;;;
    ret 0.

Definition sys_unlink : M (kernel C) Z :=
  let* path := argstr 0 MAXPATH in
  match path with
  | None => ret (-1)
  | Some path =>
    k_begin_op ;;;
    let* d := k_nameiparent path in
    match d with
    | None => k_end_op ;;; ret (-1)
    | Some (dp, name) =>
      on_fs (ilock dp) ;;;
      if (namecmp name (bytes ".") =? 0) || (namecmp name (bytes "..") =? 0) then unlink_bad dp
      else
        let* r := on_fs (dirlookup u_copyout dp name) in
        match r with
        | None => unlink_bad dp
        | Some (ip, off) =>
          on_fs (ilock ip) ;;;
          let* x := on_fs (ip_get ip) in
          if di_nlink (ip_di x) <? 1 then panic "unlink: nlink < 1"
          else
            let* empty := (if di_type (ip_di x) =? T_DIR then isdirempty ip else ret true) in
            if negb empty then on_fs (iunlockput ip) ;;; unlink_bad dp
            else unlink_entry dp ip off
        end
    end
  end.

(** [fail:] of [create] *)
Definition create_fail (ip dp : Z) : M (kernel C) (option Z) :=
  on_fs (di_upd ip (with_nlink 0) ;;; iupdate ip ;;; iunlockput ip ;;; iunlockput dp) ;;;
  ret None.

(** The links of a new inode: ["."] and [".."] of a directory, and its name in
    the parent. *)
Definition create_links (ip dp : Z) (name : list Z) (type : Z) : M (kernel C) (option Z) :=
  let* x := on_fs (ip_get ip) in
  let* dx := on_fs (ip_get dp) in
  let* dots := (if type =? T_DIR then
                  let* a := on_fs (dirlink u_copyout u_copyin ip (bytes ".") (ip_inum x)) in
                  if a <? 0 then ret false
                  else let* b := on_fs (dirlink u_copyout u_copyin ip (bytes "..") (ip_inum dx)) in
                       ret (negb (b <? 0))
                else ret true) in
  if negb dots then create_fail ip dp
  else
    let* l := on_fs (dirlink u_copyout u_copyin dp name (ip_inum x)) in
    if l <? 0 then create_fail ip dp
    else
      (if type =? T_DIR then
         on_fs (di_upd dp (fun d => with_nlink (swrap 16 (di_nlink d + 1)) d) ;;; iupdate dp)
       else ret tt) ;;;
      on_fs (iunlockput dp) ;;;
      ret (Some ip).

Definition create (path : list Z) (type major minor : Z) : M (kernel C) (option Z) :=
  let* d := k_nameiparent path in
  match d with
  | None => ret None
  | Some (dp, name) =>
    on_fs (ilock dp) ;;;
    let* r := on_fs (dirlookup u_copyout dp name) in
    match r with
    | Some (ip, _) =>
      on_fs (iunlockput dp ;;; ilock ip) ;;;
      let* x := on_fs (ip_get ip) in
      let t := di_type (ip_di x) in
      if (type =? T_FILE) && ((t =? T_FILE) || (t =? T_DEVICE)) then ret (Some ip)
      else on_fs (iunlockput ip) ;;; ret None
    | None =>
      let* dx := on_fs (ip_get dp) in
      let* a := on_fs (ialloc (ip_dev dx) type) in
      match a with
      | None => on_fs (iunlockput dp) ;;; ret None
      | Some ip =>
        on_fs (ilock ip ;;;
               di_upd ip (fun d => with_nlink 1 (with_dev (swrap 16 major) (swrap 16 minor) d)) ;;;
               iupdate ip) ;;;
        create_links ip dp name type
      end
    end
  end.

(** The locked inode of the path, or [None] when [sys_open] gives up. *)
Definition open_inode (path : list Z) (omode : Z) : M (kernel C) (option Z) :=
  if has omode O_CREATE then create path T_FILE 0 0
  else
    let* ip := k_namei path in
    match ip with
    | None => ret None
    | Some ip =>
      on_fs (ilock ip) ;;;
      let* x := on_fs (ip_get ip) in
      if (di_type (ip_di x) =? T_DIR) && negb (omode =? O_RDONLY) then
        on_fs (iunlockput ip) ;;; ret None
      else ret (Some ip)
    end.

(** The error exit of [sys_open] once the inode is locked. *)
Definition open_bad (ip : Z) : M (kernel C) Z := on_fs (iunlockput ip) ;;; k_end_op ;;; ret (-1).

(** The assignments to [f], and the truncation. *)
Definition open_file (f fd ip omode : Z) : M (kernel C) Z :=
  let* x := on_fs (ip_get ip) in
  let di := ip_di x in
  file_upd f (fun y =>
    let ro := if has omode O_WRONLY then 0 else 1 in
    let wr := if has omode O_WRONLY || has omode O_RDWR then 1 else 0 in
    if di_type di =? T_DEVICE
    then File FD_DEVICE (f_ref y) ro wr (f_pipe y) ip (f_off y) (di_major di)
    else File FD_INODE (f_ref y) ro wr (f_pipe y) ip 0 (f_major y)) ;;;
  (if has omode O_TRUNC && (di_type di =? T_FILE) then on_fs (itrunc ip) else ret tt) ;;;
  on_fs (iunlock ip) ;;;
  k_end_op ;;;
  ret fd.

Definition sys_open : M (kernel C) Z :=
  let* omode := argint 1 in
  let* path := argstr 0 MAXPATH in
  match path with
  | None => ret (-1)
  | Some path =>
    k_begin_op ;;;
    let* ip := open_inode path omode in
    match ip with
    | None => k_end_op ;;; ret (-1)
    | Some ip =>
      let* x := on_fs (ip_get ip) in
      let di := ip_di x in
      if (di_type di =? T_DEVICE) && ((di_major di <? 0) || (NDEV <=? di_major di)) then open_bad ip
      else
        let* f := filealloc in
        match f with
        | None => open_bad ip
        | Some f =>
          let* fd := fdalloc f in
          if fd <? 0 then fileclose kend f ;;; open_bad ip
          else open_file f fd ip omode
        end
    end
  end.

(** The common end of [sys_mkdir] and [sys_mknod]. *)
Definition made (ip : option Z) : M (kernel C) Z :=
  match ip with
  | None => k_end_op ;;; ret (-1)
  | Some ip => on_fs (iunlockput ip) ;;; k_end_op ;;; ret 0
  end.

Definition sys_mkdir : M (kernel C) Z :=
  k_begin_op ;;;
  let* path := argstr 0 MAXPATH in
  match path with
  | None => made None
  | Some path => let* ip := create path T_DIR 0 0 in made ip
  end.

Definition sys_mknod : M (kernel C) Z :=
  k_begin_op ;;;
  let* major := argint 1 in
  let* minor := argint 2 in
  let* path := argstr 0 MAXPATH in
  match path with
  | None => made None
  | Some path => let* ip := create path T_DEVICE major minor in made ip
  end.

Definition sys_chdir : M (kernel C) Z :=
  let* i := myproc in
  k_begin_op ;;;
  let* path := argstr 0 MAXPATH in
  let* ip := match path with None => ret None | Some path => k_namei path end in
  match ip with
  | None => k_end_op ;;; ret (-1)
  | Some ip =>
    on_fs (ilock ip) ;;;
    let* x := on_fs (ip_get ip) in
    if negb (di_type (ip_di x) =? T_DIR) then on_fs (iunlockput ip) ;;; k_end_op ;;; ret (-1)
    else
      on_fs (iunlock ip) ;;;
      let* cwd := my_cwd in
      on_fs (iput cwd) ;;;
      k_end_op ;;;
      proc_upd i (p_set_cwd (Some ip)) ;;;
      ret 0
  end.

(** The loop of [sys_exec] that copies the arguments into pages: whether it found
    the end of the array, and the pages allocated. *)
Fixpoint exec_args (fuel : nat) (uargv i : Z) (argv : list Z) : M (kernel C) (bool * list Z) :=
  match fuel with
  | O => ret (false, argv)
  | S fuel' =>
    let* uarg := fetchaddr (u64 (uargv + 8 * i)) in
    match uarg with
    | None => ret (false, argv)
    | Some uarg =>
      if uarg =? 0 then ret (true, argv)
      else
        let* page := on_kmem kalloc in
        if page =? 0 then ret (false, argv)
        else
          let* s := fetchstr uarg PGSIZE in
          match s with
          | None => ret (false, argv ++ [page])
          | Some s =>
            on_kmem (kmem_put (fun m => store_bytes m page (s ++ [0]))) ;;;
            exec_args fuel' uargv (i + 1) (argv ++ [page])
          end
    end
  end.

Definition free_args (argv : list Z) : M (kernel C) unit :=
  foldr (fun a m => on_kmem (kfree kend a) ;;; m) (ret tt) argv.

Definition sys_exec : M (kernel C) Z :=
  let* uargv := argaddr 1 in
  let* path := argstr 0 MAXPATH in
  match path with
  | None => ret (-1)
  | Some path =>
    let* a := exec_args (Z.to_nat MAXARG) uargv 0 [] in
    let '(ok, argv) := a in
    if ok then
      let* r := exec kend trampoline path argv in
      free_args argv ;;;
      ret r
    else free_args argv ;;; ret (-1)
  end.

Definition sys_pipe : M (kernel C) Z :=
  let* p := my_proc in
  let* fdarray := argaddr 0 in
  let* pa := pipealloc kend in
  match pa with
  | None => ret (-1)
  | Some (rf, wf) =>
    let* fd0 := fdalloc rf in
    if fd0 <? 0 then fileclose kend rf ;;; fileclose kend wf ;;; ret (-1)
    else
      let* fd1 := fdalloc wf in
      if fd1 <? 0 then
        set_fd fd0 None ;;; fileclose kend rf ;;; fileclose kend wf ;;; ret (-1)
      else
        let* r := on_kmem (copyout (p_pagetable p) fdarray (le_bytes 4 fd0)) in
        let* r := (if r <? 0 then ret r
                   else on_kmem (copyout (p_pagetable p) (u64 (fdarray + 4)) (le_bytes 4 fd1))) in
        if r <? 0 then
          set_fd fd0 None ;;; set_fd fd1 None ;;;
          fileclose kend rf ;;; fileclose kend wf ;;; ret (-1)
        else ret 0
  end.
End code.
