(* ===== verification/Sysproc.v ===== *)
(** * kernel/sysproc.c, and the system calls of kernel/proc.c for the scheduling
    experiment

    The metrics live in three arrays of twenty entries; an index that a system
    call does not check is undefined behaviour outside them. *)

From Stdlib Require Import ZArith Lia.
From stdpp Require Import base list strings numbers gmap.
From S2P Require Import Prelude Memory Riscv Kalloc Vm Sleeplock Blocks BlockCache Log Fs Pipe Console Kernel File Proc Args.

Definition MODE_EFICIENCIA : Z := 10.
Definition MODE_OVERHEAD : Z := 8.
Definition NMETRIC : Z := 20.

(** What a system call comes back with: a value for the caller, or nothing when
    the process has exited. *)
Inductive sysret := SRet (r : Z) | SExited.

Section code.
Context {C : Type} `{BlockCache C}.
Context (kend trampoline forkret_addr : Z).

Definition sys_exit : M (kernel C) sysret :=
  let* n := argint 0 in exit kend n ;;; ret SExited.

Definition sys_getpid : M (kernel C) Z := let* p := my_proc in ret (p_pid p).

Definition sys_fork : M (kernel C) Z := fork kend trampoline forkret_addr.

Definition sys_wait : M (kernel C) Z := let* p := argaddr 0 in wait kend p.

Definition sys_sbrk : M (kernel C) Z :=
  let* n := argint 0 in
  let* p := my_proc in
  let addr := p_sz p in
  let* r := growproc kend n in
  if r <? 0 then ret (-1) else ret addr.

(** The loop of [sys_sleep]: it goes on when [n] ticks have passed since [ticks0],
    and sleeps otherwise. *)
Definition sleep_until (n ticks0 : Z) : M (kernel C) Z :=
  let* k := get in
  if u32 (k_ticks k - ticks0) <? u32 n then
    let* i := myproc in
    let* b := killed i in
    if b then ret (-1) else sleep_on ChTicks
  else ret 0.

Definition sys_sleep : M (kernel C) Z :=
  let* n := argint 0 in
  let n := if n <? 0 then 0 else n in
  let* k := get in
  sleep_until n (k_ticks k).

Definition sys_kill : M (kernel C) Z := let* pid := argint 0 in kill pid.

Definition sys_uptime : M (kernel C) Z := gets k_ticks.

(** ** Metrics *)

Definition sys_tempo_total : M (kernel C) Z :=
  let* pid := argint 0 in
  if pid <? 0 then ret (-1)
  else
    let* k := get in
    match find_proc (fun p => p_pid p =? pid) (k_procs k) 0 with
    | Some i => let* p := proc_get i in ret (p_tempo_total p)
    | None => ret (-1)
    end.

Definition metric (a : list Z) (i : Z) : M (kernel C) Z := of_option "metric index" (zget a i).

Definition sys_get_overhead : M (kernel C) Z :=
  let* i := argint 0 in let* k := get in metric (k_overheads k) i.

Definition sys_get_eficiencia : M (kernel C) Z :=
  let* i := argint 0 in let* k := get in metric (k_eficiencias k) i.

Definition sys_increment_metric : M (kernel C) Z :=
  let* i := argint 0 in
  let* amount := argint 1 in
  let* mode := argint 2 in
  let* k := get in
  if mode =? MODE_OVERHEAD then
    let* v := metric (k_overheads k) i in
    modify (k_set_overheads (zset (k_overheads k) i (i32 (v + amount)))) ;;; ret 0
  else if mode =? MODE_EFICIENCIA then
    let* v := metric (k_eficiencias k) i in
    modify (k_set_eficiencias (zset (k_eficiencias k) i (i32 (v + amount)))) ;;; ret 0
  else ret (-1).

Definition sys_initialize_metrics : M (kernel C) Z :=
  for_loop (Z.to_nat NMETRIC) 0 (fun i =>
    modify (fun k => k_set_justicas (zset (k_justicas k) i 0)
                       (k_set_eficiencias (zset (k_eficiencias k) i 0)
                          (k_set_overheads (zset (k_overheads k) i 0) k)))) ;;;
  ret 0.

Definition sys_get_justica : M (kernel C) Z :=
  let* i := argint 0 in let* k := get in metric (k_justicas k) i.

Definition sys_set_justica : M (kernel C) Z :=
  let* index := argint 0 in
  let* pid := argint 1 in
  let* k := get in
  match find_proc (fun p => p_pid p =? pid) (k_procs k) 0 with
  | Some i =>
    let* p := proc_get i in
    metric (k_justicas k) index ;;;
    modify (k_set_justicas (zset (k_justicas k) index (p_tempo_total p))) ;;;
    ret 0
  | None => ret (-1)
  end.

Definition sys_set_type : M (kernel C) Z :=
  let* type := argint 0 in
  let* pid := argint 1 in
  let* k := get in
  match find_proc (fun p => p_pid p =? pid) (k_procs k) 0 with
  | Some i => proc_upd i (p_set_type type) ;;; ret 0
  | None => ret (-1)
  end.
End code.
