(* ===== verification/Trap.v ===== *)
(** * kernel/syscall.c and kernel/trap.c: dispatch of system calls and traps

    The control registers [scause], [sepc], [stval] and [sstatus] are arguments,
    as is the interrupt [plic_claim] returns; [uservec], [userret] and the
    address of [usertrap] are the linker's. *)

From Stdlib Require Import ZArith Lia.
From stdpp Require Import base list strings numbers gmap.
From S2P Require Import Prelude Memory KPrintf Riscv Kalloc Vm Sleeplock Blocks BlockCache Log Fs Pipe Uart Console Kernel File Proc Args Exec Sysfile Sysproc.

Definition SSTATUS_SPP : Z := 256.
Definition SSTATUS_SPIE : Z := 32.

(** The numbers of kernel/syscall.h. *)
Inductive sysno :=
| SYS_fork | SYS_exit | SYS_wait | SYS_pipe | SYS_read | SYS_kill | SYS_exec | SYS_fstat
| SYS_chdir | SYS_dup | SYS_getpid | SYS_sbrk | SYS_sleep | SYS_uptime | SYS_open | SYS_write
| SYS_mknod | SYS_unlink | SYS_link | SYS_mkdir | SYS_close | SYS_tempo_total
| SYS_get_eficiencia | SYS_get_overhead | SYS_increment_metric | SYS_initialize_metrics
| SYS_get_justica | SYS_set_justica | SYS_uptime_nolock | SYS_set_type.

Definition sysno_of (num : Z) : option sysno :=
  match num with
  | 1 => Some SYS_fork | 2 => Some SYS_exit | 3 => Some SYS_wait | 4 => Some SYS_pipe
  | 5 => Some SYS_read | 6 => Some SYS_kill | 7 => Some SYS_exec | 8 => Some SYS_fstat
  | 9 => Some SYS_chdir | 10 => Some SYS_dup | 11 => Some SYS_getpid | 12 => Some SYS_sbrk
  | 13 => Some SYS_sleep | 14 => Some SYS_uptime | 15 => Some SYS_open | 16 => Some SYS_write
  | 17 => Some SYS_mknod | 18 => Some SYS_unlink | 19 => Some SYS_link | 20 => Some SYS_mkdir
  | 21 => Some SYS_close | 22 => Some SYS_tempo_total | 23 => Some SYS_get_eficiencia
  | 24 => Some SYS_get_overhead | 25 => Some SYS_increment_metric
  | 26 => Some SYS_initialize_metrics | 27 => Some SYS_get_justica | 28 => Some SYS_set_justica
  | 29 => Some SYS_uptime_nolock | 30 => Some SYS_set_type
  | _ => None
  end.

Section code.
Context {C : Type} `{BlockCache C}.
Context (kend trampoline forkret_addr : Z) (pad : list Z).

(** [printf] in the kernel. *)
Definition k_printf (fmt : list Z) (ap : list varg) : M (kernel C) unit :=
  match KPrintf.printf fmt ap with Some l => prints l | None => undef "printf" end.

Definition value (m : M (kernel C) Z) : M (kernel C) sysret := let* r := m in ret (SRet r).

(** The table [syscalls]. *)
Definition syscalls (n : sysno) : M (kernel C) sysret :=
  match n with
  | SYS_fork => value (sys_fork kend trampoline forkret_addr)
  | SYS_exit => sys_exit kend
  | SYS_wait => value (sys_wait kend)
  | SYS_pipe => value (sys_pipe kend)
  | SYS_read => value sys_read
  | SYS_kill => value sys_kill
  | SYS_exec => value (sys_exec kend trampoline)
  | SYS_fstat => value (sys_fstat pad)
  | SYS_chdir => value sys_chdir
  | SYS_dup => value sys_dup
  | SYS_getpid => value sys_getpid
  | SYS_sbrk => value (sys_sbrk kend)
  | SYS_sleep => value sys_sleep
  | SYS_uptime => value sys_uptime
  | SYS_open => value (sys_open kend)
  | SYS_write => value sys_write
  | SYS_mknod => value sys_mknod
  | SYS_unlink => value sys_unlink
  | SYS_link => value sys_link
  | SYS_mkdir => value sys_mkdir
  | SYS_close => value (sys_close kend)
  | SYS_tempo_total => value sys_tempo_total
  | SYS_get_eficiencia => value sys_get_eficiencia
  | SYS_get_overhead => value sys_get_overhead
  | SYS_increment_metric => value sys_increment_metric
  | SYS_initialize_metrics => value sys_initialize_metrics
  | SYS_get_justica => value sys_get_justica
  | SYS_set_justica => value sys_set_justica
  | SYS_uptime_nolock => value sys_uptime_nolock
  | SYS_set_type => value sys_set_type
  end.

(** The result is stored in [a0] of the trap frame; whether the process goes on. *)
Definition syscall : M (kernel C) bool :=
  let* i := myproc in
  let* p := proc_get i in
  let* a7 := tf_get p TF_a7 in
  match sysno_of (i32 a7) with
  | Some n =>
    let* r := syscalls n in
    match r with
    | SExited => ret false
    | SRet v => let* p := proc_get i in tf_set p TF_a0 v ;;; ret true
    end
  | None =>
    k_printf (bytes "%d %s: unknown sys call %d" ++ [10])
      [VInt (p_pid p); VStr (Some (p_name p)); VInt (i32 a7)] ;;;
    tf_set p TF_a0 (-1) ;;;
    ret true
  end.

(** ** Interrupts *)

(** [cpuid] is 0 on one processor, which counts the ticks; the result is the time
    of the next interrupt. *)
Definition clockintr (cpuid time : Z) : M (kernel C) Z :=
  (if cpuid =? 0 then
     let* k := get in
     modify (k_set_ticks (u32 (k_ticks k + 1))) ;;;
     wakeup ChTicks
   else ret tt) ;;;
  ret (u64 (time + 1000000)).

(** [uartintr] with the console's handler; an interrupt of the disk has nothing
    left to do, the transfers of Bio.v are complete. *)
Definition k_uartintr : M (kernel C) unit :=
  let* k := get in
  klift (Lens k_cons k_set_cons) (uartintr (procdump (k_procs k))).

Definition devintr (scause irq cpuid time : Z) : M (kernel C) Z :=
  if scause =? 9223372036854775817 then
    (if irq =? UART0_IRQ then k_uartintr
     else if irq =? VIRTIO0_IRQ then ret tt
     else if negb (irq =? 0) then
       k_printf (bytes "unexpected interrupt irq=%d" ++ [10]) [VInt irq]
     else ret tt) ;;;
    ret 1
  else if scause =? 9223372036854775813 then clockintr cpuid time ;;; ret 2
  else ret 0.

(** ** Traps *)

(** The registers with which [usertrapret] goes to [userret]. *)
Record user_return := UserReturn { ur_stvec : Z; ur_sstatus : Z; ur_sepc : Z; ur_satp : Z }.

Context (uservec userret usertrap_addr : Z).

Definition usertrapret (satp tp sstatus : Z) : M (kernel C) user_return :=
  let* p := my_proc in
  tf_set p TF_kernel_satp satp ;;;
  tf_set p TF_kernel_sp (p_kstack p + PGSIZE) ;;;
  tf_set p TF_kernel_trap usertrap_addr ;;;
  tf_set p TF_kernel_hartid tp ;;;
  let* epc := tf_get p TF_epc in
  ret (UserReturn (u64 (TRAMPOLINE + (uservec - trampoline)))
         (Z.lor (Z.land sstatus (Z.lnot SSTATUS_SPP)) SSTATUS_SPIE) epc (MAKE_SATP (p_pagetable p))).

(** How a trap from user space ends: back to user space, in another process's
    turn after [yield], or with the process gone. *)
Inductive trapres := TReturn (r : user_return) | TYield | TExited.

(** After the cause is handled. *)
Definition usertrap_end (i which_dev satp tp sstatus : Z) : M (kernel C) trapres :=
  let* k := killed i in
  if k then exit kend (-1) ;;; ret TExited
  else if which_dev =? 2 then yield ;;; ret TYield
  else let* r := usertrapret satp tp sstatus in ret (TReturn r).

Definition usertrap (scause sepc stval sstatus satp tp irq time : Z) : M (kernel C) trapres :=
  if has sstatus SSTATUS_SPP then panic "usertrap: not from user mode"
  else
    let* i := myproc in
    let* p := proc_get i in
    tf_set p TF_epc sepc ;;;
    if scause =? 8 then
      let* k := killed i in
      if k then exit kend (-1) ;;; ret TExited
      else
        let* epc := tf_get p TF_epc in
        tf_set p TF_epc (epc + 4) ;;;
        let* alive := syscall in
        if alive then usertrap_end i 0 satp tp sstatus else ret TExited
    else
      let* which_dev := devintr scause irq tp time in
      (if which_dev =? 0 then
         k_printf (bytes "usertrap(): unexpected scause 0x%lx pid=%d" ++ [10])
           [VInt scause; VInt (p_pid p)] ;;;
         k_printf (bytes "            sepc=0x%lx stval=0x%lx" ++ [10]) [VInt sepc; VInt stval] ;;;
         setkilled i
       else ret tt) ;;;
      usertrap_end i which_dev satp tp sstatus.

(** The values written back to [sepc] and [sstatus]. *)
Definition kerneltrap (scause sepc stval sstatus intr irq tp time : Z) : M (kernel C) (Z * Z) :=
  if negb (has sstatus SSTATUS_SPP) then panic "kerneltrap: not from supervisor mode"
  else if negb (intr =? 0) then panic "kerneltrap: interrupts enabled"
  else
    let* which_dev := devintr scause irq tp time in
    if which_dev =? 0 then
      k_printf (bytes "scause=0x%lx sepc=0x%lx stval=0x%lx" ++ [10])
        [VInt scause; VInt sepc; VInt stval] ;;;
      panic "kerneltrap"
    else
      let* k := get in
      (if (which_dev =? 2) && negb (bool_decide (k_cur k = None)) then yield else ret tt) ;;;
      ret (sepc, sstatus).
End code.
