(* ===== verification/Sched.v ===== *)
(** * The scheduler of kernel/proc.c: which process runs

    The choice among runnable processes, and what a process that yields gets. *)

From Stdlib Require Import ZArith Lia.
From stdpp Require Import base list strings numbers gmap.
From S2P Require Import Prelude Memory Riscv Kalloc Vm Sleeplock Blocks BlockCache Log Fs Pipe Uart Console Kernel File Proc Args Sysproc.

(** ** Scans of the process table *)

Lemma find_proc_Some f ps n i :
  find_proc f ps n = Some i <->
  exists j p, i = n + Z.of_nat j /\ ps !! j = Some p /\ f p = true /\
    forall j' p', (j' < j)%nat -> ps !! j' = Some p' -> f p' = false.
Proof.
  revert n. induction ps as [|p ps IH]; intros n; simpl.
  - split; [done|]. intros (j & q & _ & E & _). by rewrite lookup_nil in E.
  - destruct (f p) eqn:Ef.
    + split.
      * intros [= <-]. exists 0%nat, p. split_and!; [lia|done|done|lia].
      * intros ([|j] & q & -> & E & Eq & Hmin); [f_equal; lia|].
        specialize (Hmin 0%nat p ltac:(lia) eq_refl). congruence.
    + rewrite IH. split.
      * intros (j & q & -> & E & Eq & Hmin). exists (S j), q. split_and!; [lia|done|done|].
        intros [|j'] p' Hj E'; [simpl in E'; congruence|]. apply (Hmin j'); [lia|done].
      * intros ([|j] & q & -> & E & Eq & Hmin); [simpl in E; congruence|].
        exists j, q. split_and!; [lia|done|done|]. intros j' p' Hj E'.
        apply (Hmin (S j') p'); [lia|done].
Qed.

Lemma find_proc_None f ps n :
  find_proc f ps n = None <-> forall j p, ps !! j = Some p -> f p = false.
Proof.
  revert n. induction ps as [|p ps IH]; intros n; simpl.
  - split; [|done]. intros _ j p E. by rewrite lookup_nil in E.
  - destruct (f p) eqn:Ef.
    + split; [done|]. intros Hall. specialize (Hall 0%nat p eq_refl). congruence.
    + rewrite IH. split; intros Hall.
      * intros [|j] q E; [simpl in E; congruence|by apply (Hall j)].
      * intros j q E. by apply (Hall (S j)).
Qed.

(** ** The choice *)

Definition runnable_of (t : Z) (p : proc) : bool :=
  bool_decide (p_state p = RUNNABLE) && (p_type p =? t).

Definition first_some (a b : option Z) : option Z := match a with Some i => Some i | None => b end.

Lemma pick_fold ps n pk :
  foldl pick_step pk (imap (fun i p => (n + Z.of_nat i, p)) ps) =
  Picks (first_some (pk_cpu pk) (find_proc (runnable_of CPU_BOUND) ps n))
    (first_some (pk_io pk) (find_proc (runnable_of IO_BOUND) ps n))
    (first_some (pk_default pk) (find_proc (runnable_of DEFAULT) ps n)).
Proof.
  revert n pk. induction ps as [|p ps IH]; intros n pk.
  { destruct pk as [[] [] []]; done. }
  rewrite imap_cons. simpl foldl.
  replace (imap _ ps) with (imap (fun i q => (n + 1 + Z.of_nat i, q)) ps)
    by (apply imap_ext; intros; simpl; f_equal; lia).
  rewrite IH. replace (n + Z.of_nat 0) with n by lia. clear IH.
  unfold pick_step, runnable_of, CPU_BOUND, IO_BOUND, DEFAULT. simpl.
  destruct (bool_decide (p_state p = RUNNABLE)); simpl; [|done].
  destruct (Z.eqb_spec (p_type p) 2) as [E2|_]; [rewrite E2; simpl|];
    [|destruct (Z.eqb_spec (p_type p) 3) as [E3|_]; [rewrite E3; simpl|];
      [|destruct (Z.eqb_spec (p_type p) 1) as [E1|_]; [rewrite ?E1; simpl|simpl; done]]];
    by destruct pk as [[] [] []].
Qed.

Lemma pick_first ps :
  pick ps = first_some (find_proc (runnable_of IO_BOUND) ps 0)
              (first_some (find_proc (runnable_of CPU_BOUND) ps 0)
                 (find_proc (runnable_of DEFAULT) ps 0)).
Proof.
  unfold pick. rewrite (imap_ext _ (fun i p => (0 + Z.of_nat i, p))) by (intros; simpl; f_equal; lia).
  rewrite pick_fold. simpl.
  by destruct (find_proc (runnable_of CPU_BOUND) ps 0), (find_proc (runnable_of IO_BOUND) ps 0).
Qed.

(** The class of a process that can be chosen, smaller is better. *)
Definition rank (p : proc) : option Z :=
  if bool_decide (p_state p = RUNNABLE) then
    if p_type p =? IO_BOUND then Some 0
    else if p_type p =? CPU_BOUND then Some 1
    else if p_type p =? DEFAULT then Some 2 else None
  else None.

(** [i] is the first process of the best class. *)
Definition best (ps : list proc) (i : Z) : Prop :=
  exists p r, zget ps i = Some p /\ rank p = Some r /\
    forall j q r', zget ps j = Some q -> rank q = Some r' -> r < r' \/ (r = r' /\ i <= j).

Lemma rank_of t r p :
  (t, r) ∈ [(IO_BOUND, 0); (CPU_BOUND, 1); (DEFAULT, 2)] -> runnable_of t p = true <-> rank p = Some r.
Proof.
  intros Hin. unfold runnable_of, rank, IO_BOUND, CPU_BOUND, DEFAULT in *.
  destruct (bool_decide (p_state p = RUNNABLE)); simpl; [|done].
  repeat (apply elem_of_cons in Hin as [[= -> ->]|Hin]); [..|by apply not_elem_of_nil in Hin];
  repeat case_match; split; intros; simplify_eq; try done; lia.
Qed.

Lemma first_of_class t r ps :
  (t, r) ∈ [(IO_BOUND, 0); (CPU_BOUND, 1); (DEFAULT, 2)] ->
  match find_proc (runnable_of t) ps 0 with
  | Some i => (exists p, zget ps i = Some p /\ rank p = Some r) /\
      forall j q, zget ps j = Some q -> rank q = Some r -> i <= j
  | None => forall j q, zget ps j = Some q -> rank q <> Some r
  end.
Proof.
  intros Hin. destruct (find_proc _ _ _) as [i|] eqn:E.
  - apply find_proc_Some in E as (n & p & -> & E & Hp & Hmin). split.
    + exists p. unfold zget. rewrite (proj2 (Z.leb_le 0 _)), Z.add_0_l, Nat2Z.id by lia.
      split; [done|]. by apply (rank_of t r).
    + intros j q Ej Hq. pose proof (zget_Some _ _ _ Ej). unfold zget in Ej.
      rewrite (proj2 (Z.leb_le 0 j)) in Ej by lia.
      destruct (decide (n <= Z.to_nat j)%nat); [lia|].
      specialize (Hmin (Z.to_nat j) q ltac:(lia) Ej).
      apply (rank_of t r) in Hq; [|done]. congruence.
  - intros j q Ej Hq. pose proof (zget_Some _ _ _ Ej). unfold zget in Ej.
    rewrite (proj2 (Z.leb_le 0 j)) in Ej by lia.
    rewrite find_proc_None in E. specialize (E _ _ Ej).
    apply (rank_of t r) in Hq; [|done]. congruence.
Qed.

Lemma rank_values p r : rank p = Some r -> r = 0 \/ r = 1 \/ r = 2.
Proof. unfold rank. repeat case_match; naive_solver. Qed.

Lemma pick_best ps :
  match pick ps with
  | Some i => best ps i
  | None => forall j q, zget ps j = Some q -> rank q = None
  end.
Proof.
  rewrite pick_first.
  pose proof (first_of_class IO_BOUND 0 ps ltac:(set_solver)) as H0.
  pose proof (first_of_class CPU_BOUND 1 ps ltac:(set_solver)) as H1.
  pose proof (first_of_class DEFAULT 2 ps ltac:(set_solver)) as H2.
  unfold first_some, best.
  destruct (find_proc (runnable_of IO_BOUND) ps 0) as [i|];
    [destruct H0 as [(p & Ep & Er) Hmin]; exists p, 0; split_and!; [done..|];
     intros j q r' Ej Hq; destruct (rank_values _ _ Hq) as [-> | [-> | ->]]; naive_solver lia|].
  destruct (find_proc (runnable_of CPU_BOUND) ps 0) as [i|];
    [destruct H1 as [(p & Ep & Er) Hmin]; exists p, 1; split_and!; [done..|];
     intros j q r' Ej Hq; destruct (rank_values _ _ Hq) as [-> | [-> | ->]]; naive_solver lia|].
  destruct (find_proc (runnable_of DEFAULT) ps 0) as [i|];
    [destruct H2 as [(p & Ep & Er) Hmin]; exists p, 2; split_and!; [done..|];
     intros j q r' Ej Hq; destruct (rank_values _ _ Hq) as [-> | [-> | ->]]; naive_solver lia|].
  intros j q Ej. destruct (rank q) as [r|] eqn:Er; [|done].
  destruct (rank_values _ _ Er) as [-> | [-> | ->]]; naive_solver.
Qed.

Lemma best_unique ps i j : best ps i -> best ps j -> i = j.
Proof.
  intros (p & r & Ep & Er & Hp) (q & r' & Eq & Er' & Hq).
  specialize (Hp j q r' Eq Er'). specialize (Hq i p r Ep Er). lia.
Qed.

Section props.
Context {C : Type} `{BlockCache C}.

Lemma dispatch_run (k : kernel C) i p :
  kproc k i = Some p ->
  dispatch i k = Done (SRun i (k_ticks k))
    (k_set_cur (Some i) (k_set_procs (zset (k_procs k) i (p_set_state RUNNING p)) k)) [].
Proof.
  intros E. unfold dispatch, sys_uptime_nolock. unfold bind at 1, gets. simpl.
  rewrite (bind_Done _ _ _ _ _ _ (proc_upd_run k i _ p E)). done.
Qed.

(** C32: The scheduler runs the first process in table order of the best class that
    has a runnable process, I/O-bound before CPU-bound before default, and changes
    nothing but that process's state and the processor's current process; it idles
    exactly when no runnable process has one of the three types. *)
Theorem scheduler_choice (k : kernel C) :
  exists pc k', scheduler SPick k = Done pc k' [] /\
    ((exists i p, pc = SRun i (k_ticks k) /\ best (k_procs k) i /\ kproc k i = Some p /\
        p_state p = RUNNABLE /\ k_cur k' = Some i /\
        forall j, kproc k' j = if j =? i then Some (p_set_state RUNNING p) else kproc k j) \/
     (pc = SPick /\ k' = k /\ forall j q, kproc k j = Some q -> rank q = None)).
Proof.
  unfold scheduler. unfold bind at 1, get. cbn [prepend].
  pose proof (pick_best (k_procs k)) as Hb. destruct (pick (k_procs k)) as [i|].
  - pose proof Hb as (p & r & Ep & Er & _).
    assert (Hs : p_state p = RUNNABLE) by (unfold rank in Er; by case_bool_decide).
    rewrite (bind_Done _ _ _ _ _ _ (proc_get_run k i p Ep)), bool_decide_eq_true_2 by done.
    rewrite (dispatch_run k i p Ep). cbn [prepend app]. eexists _, _. split; [done|]. left.
    exists i, p. split_and!; try done. intros j. apply (kproc_set k i j p _ Ep).
  - eexists _, _. split; [done|]. right. split_and!; [done..|]. exact Hb.
Qed.

(** The running process calls [yield] [n] times, the scheduler going on after each. *)
Fixpoint yields (n : nat) (pc : sched_pc) : M (kernel C) sched_pc :=
  match n with
  | O => ret pc
  | S n' => yield ;;; let* pc := scheduler pc in yields n' pc
  end.

Lemma yield_round (k : kernel C) i t0 p :
  k_cur k = Some i -> kproc k i = Some p ->
  exists k' p', (yield ;;; scheduler (SRun i t0)) k = Done (SRun i (k_ticks k)) k' [] /\
    k_cur k' = Some i /\ kproc k' i = Some p' /\ k_ticks k' = k_ticks k /\
    forall j, j <> i -> kproc k' j = kproc k j.
Proof.
  intros Hc Hp. unfold yield. rewrite bind_assoc, (bind_Done _ _ _ _ _ _ (myproc_run k i Hc)).
  set (p1 := p_set_state RUNNABLE p). set (k1 := k_set_procs (zset (k_procs k) i p1) k).
  assert (E1 : kproc k1 i = Some p1) by (unfold k1; rewrite (kproc_set k i i p _ Hp), Z.eqb_refl; done).
  rewrite (bind_Done _ _ _ _ _ _ (proc_upd_run k i _ p Hp)). fold p1 k1.
  unfold scheduler, sys_uptime_nolock. unfold bind at 1, gets. cbn [prepend app].
  rewrite (bind_Done _ _ _ _ _ _ (proc_upd_run k1 i _ p1 E1)).
  set (p2 := p_set_tempo_total _ p1). set (k2 := k_set_procs (zset (k_procs k1) i p2) k1).
  assert (E2 : forall j, kproc k2 j = if j =? i then Some p2 else kproc k1 j)
    by (intros j; unfold k2; apply (kproc_set k1 i j p1 _ E1)).
  unfold bind at 1, modify. cbn [prepend app].
  set (k3 := k_set_cur None k2).
  assert (E3 : kproc k3 i = Some p2) by (change (kproc k2 i = Some p2); rewrite E2, Z.eqb_refl; done).
  rewrite (bind_Done _ _ _ _ _ _ (proc_get_run k3 i p2 E3)), bool_decide_eq_true_2 by done.
  rewrite (dispatch_run k3 i p2 E3). eexists _, (p_set_state RUNNING p2). split; [done|]. split; [done|]. split.
  - change (zget (zset (k_procs k3) i (p_set_state RUNNING p2)) i = Some (p_set_state RUNNING p2)).
    apply zget_zset_eq. by apply zget_Some in E3.
  - split; [done|]. intros j Hj.
    change (zget (zset (k_procs k3) i (p_set_state RUNNING p2)) j = kproc k j).
    rewrite zget_zset_ne by done. change (kproc k2 j = kproc k j).
    rewrite E2. unfold k1. rewrite (kproc_set k i j p _ Hp).
    by rewrite (proj2 (Z.eqb_neq j i)) by done.
Qed.

(** C38: A process that yields is run again at once, however often it yields and
    whatever other processes are runnable: the scheduler repeats the process it
    chose while it is runnable, so no other process runs on that processor until
    this one sleeps or exits. *)
Theorem yield_keeps_processor (n : nat) (k : kernel C) i t0 p :
  k_cur k = Some i -> kproc k i = Some p ->
  exists t1 k', yields n (SRun i t0) k = Done (SRun i t1) k' [] /\ k_cur k' = Some i /\
    forall j, j <> i -> kproc k' j = kproc k j.
Proof.
  revert k t0 p. induction n as [|n IH]; intros k t0 p Hc Hp; [by exists t0, k|].
  destruct (yield_round k i t0 p Hc Hp) as (k1 & p1 & E1 & Hc1 & Hp1 & _ & Ho1).
  destruct (IH k1 (k_ticks k) p1 Hc1 Hp1) as (t1 & k2 & E2 & Hc2 & Ho2).
  exists t1, k2. split_and!; [|done|].
  - change (yields (S n) (SRun i t0) k)
      with ((yield ;;; let* pc := scheduler (SRun i t0) in yields n pc) k).
    rewrite <- (bind_assoc yield (fun _ => scheduler (SRun i t0))).
    rewrite (bind_Done _ _ _ _ _ _ E1), E2. done.
  - intros j Hj. rewrite Ho2, Ho1 by done. done.
Qed.
End props.

(** Two processes: one runs, the other is runnable and of a better class. *)
Definition two_procs : kernel unit :=
  k_set_cur (Some 0)
    (k_set_procs [p_set_type DEFAULT (p_set_state RUNNING proc_bss);
                  p_set_type IO_BOUND (p_set_state RUNNABLE proc_bss)]
       (kernel_bss (fun _ => 0) tt (Console [] 0 0 0 (Uart [] 0 0 [] [])))).

Lemma yield_keeps_processor_witness :
  exists t1 k', yields 1000 (SRun 0 0) two_procs = Done (SRun 0 t1) k' [] /\ k_cur k' = Some 0 /\
    forall j, j <> 0 -> kproc k' j = kproc two_procs j.
Proof.
  apply (yield_keeps_processor 1000 two_procs 0 0 (p_set_type DEFAULT (p_set_state RUNNING proc_bss)));
    reflexivity.
Defined.
