(* ===== verification/Isolation.v ===== *)
(** * Isolation between processes

    What a system call of one process can do to the entries of the others in the
    process table.  The invariant [iso_inv k0 i] relates the table to the one at
    the start of the call; every function the system calls use is shown to keep
    it ([invq], hints in the database [iso]). *)

From Stdlib Require Import ZArith Lia.
From stdpp Require Import base list strings numbers gmap.
From S2P Require Import Prelude Memory KString KPrintf Riscv Kalloc Vm Sleeplock Blocks BlockCache Log Fs Pipe Uart Console Kernel File Proc Args Exec Sysfile Sysproc Trap Sched Bio BioProofs.

(** ** Invariants of computations *)

(** [m] keeps [I], also when it sleeps, and its result satisfies [Q]. *)
Definition invq {S A} (I : S -> Prop) (m : M S A) (Q : A -> Prop) : Prop :=
  forall s, I s ->
    match m s with
    | Done a s' _ => I s' /\ Q a
    | Sleep _ s' _ => I s'
    | _ => True
    end.

Section rules.
Context {S : Type} (I : S -> Prop).

Lemma invq_ret {A} (a : A) (Q : A -> Prop) : Q a -> invq I (ret a) Q.
Proof. by intros HQ s Hs. Qed.

Lemma invq_bind {A B} (m : M S A) (f : A -> M S B) QA QB :
  invq I m QA -> (forall a, QA a -> invq I (f a) QB) -> invq I (bind m f) QB.
Proof.
  intros Hm Hf s Hs. unfold bind. specialize (Hm s Hs). destruct (m s) as [a s' t| | |]; try done.
  destruct Hm as [Hs' Ha]. specialize (Hf a Ha s' Hs'). by destruct (f a s').
Qed.

Lemma invq_assoc {A B D} (m : M S A) (f : A -> M S B) (g : B -> M S D) Q :
  invq I (bind (bind m f) g) Q -> invq I (bind m (fun a => bind (f a) g)) Q.
Proof. intros Hm s Hs. rewrite <- bind_assoc. by apply Hm. Qed.

Lemma invq_mono {A} (m : M S A) (Q Q' : A -> Prop) :
  invq I m Q -> (forall a, Q a -> Q' a) -> invq I m Q'.
Proof. intros Hm HQ s Hs. specialize (Hm s Hs). destruct (m s); naive_solver. Qed.

Lemma invq_get : invq I get (fun _ => True).
Proof. intros s Hs. by split. Qed.
Lemma invq_gets {A} (f : S -> A) : invq I (gets f) (fun _ => True).
Proof. intros s Hs. by split. Qed.
Lemma invq_panic {A} msg (Q : A -> Prop) : invq I (panic msg) Q.
Proof. by intros s Hs. Qed.
Lemma invq_undef {A} why (Q : A -> Prop) : invq I (undef why) Q.
Proof. by intros s Hs. Qed.
Lemma invq_sleep_on {A} c (Q : A -> Prop) : invq I (sleep_on c) Q.
Proof. by intros s Hs. Qed.
Lemma invq_prints l : invq I (prints l) (fun _ => True).
Proof. intros s Hs. by split. Qed.
Lemma invq_of_option {A} why (o : option A) : invq I (of_option why o) (fun a => o = Some a).
Proof. intros s Hs. by destruct o. Qed.
Lemma invq_modify (f : S -> S) : (forall s, I s -> I (f s)) -> invq I (modify f) (fun _ => True).
Proof. intros Hf s Hs. split; [by apply Hf|done]. Qed.

Lemma invq_for_loop n lo (body : Z -> M S unit) :
  (forall j, invq I (body j) (fun _ => True)) -> invq I (for_loop n lo body) (fun _ => True).
Proof.
  intros Hb. revert lo. induction n as [|n IH]; intros lo; simpl; [by apply invq_ret|].
  eapply invq_bind; [apply Hb|]. intros _ _. apply IH.
Qed.
End rules.

Create HintDb iso discriminated.
#[export] Hint Constants Opaque : iso.
#[export] Hint Resolve invq_get invq_gets invq_panic invq_undef invq_sleep_on invq_prints
  invq_of_option : iso.

(** ** What other processes keep *)

(** The slot may be taken over by process [i]: it is free, or holds a child of
    [i] that has exited. *)
Definition loose (i : Z) (p : proc) : Prop :=
  p_state p = UNUSED \/ (p_state p = ZOMBIE /\ p_parent p = Some i).

(** [p] is what a system call of process [i] can make of [p0]: its memory, its open
    files, its identity and its saved registers are untouched, it may have been
    woken up, killed, given to another parent or another class. *)
Record keeps (i : Z) (p0 p : proc) : Prop := {
  kp_state : p_state p = p_state p0 \/ (p_state p0 = SLEEPING /\ p_state p = RUNNABLE);
  kp_parent : p_parent p = p_parent p0 \/ p_parent p0 = Some i;
  kp_mem : p_pagetable p = p_pagetable p0 /\ p_sz p = p_sz p0 /\ p_trapframe p = p_trapframe p0;
  kp_files : p_ofile p = p_ofile p0 /\ p_cwd p = p_cwd p0;
  kp_id : p_pid p = p_pid p0 /\ p_name p = p_name p0 /\ p_xstate p = p_xstate p0;
  kp_kernel : p_kstack p = p_kstack p0 /\ p_context p = p_context p0
}.

Lemma keeps_refl i p : keeps i p p.
Proof. constructor; naive_solver. Qed.

Lemma keeps_trans i p q r : keeps i p q -> keeps i q r -> keeps i p r.
Proof.
  intros [S1 P1 M1 F1 I1 K1] [S2 P2 M2 F2 I2 K2].
  constructor; [|destruct P1, P2; naive_solver congruence|..]; try (split_and!; destruct_and!; congruence).
  destruct S1 as [E1|[E1 E1']], S2 as [E2|[E2 E2']]; rewrite ?E1, ?E1', ?E2 in *; naive_solver congruence.
Qed.

Lemma keeps_loose i p0 p : keeps i p0 p -> loose i p -> loose i p0.
Proof.
  intros [Hs Hp _ _ _ _] [E|[E E']]; unfold loose.
  - destruct Hs as [Hs|[_ Hs]]; [left; congruence|congruence].
  - destruct Hs as [Hs|[_ Hs]]; [|congruence]. right. split; [congruence|].
    destruct Hp; congruence.
Qed.

(** Changes to a slot that keep the rest. *)
Lemma keeps_killed i p : keeps i p (p_set_killed 1 p).
Proof. constructor; naive_solver. Qed.
Lemma keeps_type i p t : keeps i p (p_set_type t p).
Proof. constructor; naive_solver. Qed.
Lemma keeps_chan i p c : keeps i p (p_set_chan c p).
Proof. constructor; naive_solver. Qed.
Lemma keeps_wake i c p : keeps i p (wake c p).
Proof.
  unfold wake. destruct (bool_decide_reflect (p_state p = SLEEPING)); simpl; [|apply keeps_refl].
  destruct (bool_decide_reflect (p_chan p = Some c)); [|apply keeps_refl].
  constructor; naive_solver.
Qed.
Lemma keeps_runnable i p : p_state p = SLEEPING -> keeps i p (p_set_state RUNNABLE p).
Proof. intros Hs. constructor; naive_solver. Qed.
Lemma keeps_parent i p q : p_parent p = Some i -> keeps i p (p_set_parent q p).
Proof. intros Hs. constructor; naive_solver. Qed.

Section iso.
Context {C : Type} `{BlockCache C}.
Context (k0 : kernel C) (i : Z).

(** The table against the one of [k0], process [i] running. *)
Record iso_inv (k : kernel C) : Prop := {
  iso_cur : k_cur k = Some i;
  iso_len : length (k_procs k) = length (k_procs k0);
  iso_keeps j p0 : j <> i -> kproc k0 j = Some p0 ->
    exists p, kproc k j = Some p /\ (loose i p0 \/ keeps i p0 p)
}.

(** Process [j] is the running one or its slot is free to be changed. *)
Definition mine (j : Z) : Prop :=
  j = i \/ forall p0, kproc k0 j = Some p0 -> loose i p0.

Lemma iso_procs k k' : k_procs k' = k_procs k -> k_cur k' = k_cur k -> iso_inv k -> iso_inv k'.
Proof.
  intros Ep Ec [Hc Hl Hk]. constructor; [congruence|congruence|].
  intros j p0 Hj E0. unfold kproc in *. rewrite Ep. by apply Hk.
Qed.

(** A slot changes within what it keeps. *)
Lemma iso_upd k j p q :
  iso_inv k -> kproc k j = Some p -> mine j \/ keeps i p q ->
  iso_inv (k_set_procs (zset (k_procs k) j q) k).
Proof.
  intros [Hc Hl Hk] Ep Hq. constructor; [done|simpl; by rewrite length_zset|].
  intros j' p0 Hj' E0. rewrite (kproc_set k j j' p q Ep).
  destruct (Z.eqb_spec j' j) as [->|Hne]; [|by apply Hk].
  exists q. split; [done|]. destruct (Hk j p0 Hj' E0) as (p' & Ep' & Hp').
  rewrite Ep in Ep'. injection Ep' as <-.
  destruct Hq as [[->|Hm]|Hq]; [done|left; by apply Hm|].
  destruct Hp' as [?|Hp']; [by left|right]. by eapply keeps_trans.
Qed.

Lemma iso_slot k j p : iso_inv k -> kproc k j = Some p -> loose i p -> mine j.
Proof.
  intros [Hc Hl Hk] Ep Hp. destruct (decide (j = i)) as [->|Hj]; [by left|right].
  intros p0 E0. destruct (Hk j p0 Hj E0) as (p' & Ep' & [?|Hp']); [done|].
  rewrite Ep in Ep'. injection Ep' as <-. by eapply keeps_loose.
Qed.

(** ** Wakeups *)

Lemma length_wakeup_procs cur c ps : length (wakeup_procs cur c ps) = length ps.
Proof. apply length_imap. Qed.

Lemma iso_wakeup_procs k c : iso_inv k -> iso_inv (k_set_procs (wakeup_procs (k_cur k) c (k_procs k)) k).
Proof.
  intros [Hc Hl Hk]. constructor; [done|simpl; by rewrite length_wakeup_procs|].
  intros j p0 Hj E0. destruct (Hk j p0 Hj E0) as (p & Ep & Hp).
  exists (wake c p). split.
  - unfold kproc, zget in *. simpl. pose proof (zget_Some (k_procs k) j p Ep).
    rewrite (proj2 (Z.leb_le 0 j)) in * by lia. unfold wakeup_procs. rewrite list_lookup_imap, Ep. simpl.
    rewrite Z2Nat.id by lia. rewrite bool_decide_eq_false_2; [done|]. congruence.
  - destruct Hp as [?|Hp]; [by left|right]. eapply keeps_trans; [done|apply keeps_wake].
Qed.

Lemma iso_apply_wakeups k t :
  iso_inv k -> iso_inv (k_set_procs (apply_wakeups (k_cur k) t (k_procs k)) k).
Proof.
  intros Hk. unfold apply_wakeups. generalize (wakeups_of t) as cs. intros cs.
  induction cs as [|c cs IH] using rev_ind; [by apply (iso_procs k)|].
  rewrite foldl_app. simpl.
  apply (iso_procs (k_set_procs (wakeup_procs (k_cur k) c
    (foldl (fun ps c => wakeup_procs (k_cur k) c ps) (k_procs k) cs)) k)); [done..|].
  apply (iso_wakeup_procs _ c IH).
Qed.

(** Components that do not see the process table. *)
Lemma invq_klift {T A} (l : lens (kernel C) T) (m : M T A) :
  (forall s k, k_procs (lset l s k) = k_procs k) -> (forall s k, k_cur (lset l s k) = k_cur k) ->
  invq iso_inv (klift l m) (fun _ => True).
Proof.
  intros Hp Hc k Hk. unfold klift. destruct (m (lget l k)) as [a s t| |c s t|]; try done;
    [split; [|done]|]; apply iso_apply_wakeups; by apply (iso_procs k).
Qed.

Lemma invq_on_kmem {A} (m : M kmem A) : invq iso_inv (on_kmem m) (fun _ => True).
Proof. by apply invq_klift. Qed.
Lemma invq_on_fs {A} (m : M (fs C uenv) A) : invq iso_inv (on_fs m) (fun _ => True).
Proof. by apply invq_klift. Qed.
Lemma invq_on_console {A} (m : M (@cstate uenv) A) : invq iso_inv (on_console m) (fun _ => True).
Proof. by apply invq_klift. Qed.
Lemma invq_on_pipe {A} pi (m : M (@pstate uenv) A) : invq iso_inv (on_pipe pi m) (fun _ => True).
Proof.
  unfold on_pipe. eapply invq_bind; [apply invq_get|]. intros k _.
  destruct (k_pipes k !! pi); [by apply invq_klift|apply invq_undef].
Qed.

(** ** The process table *)

Lemma invq_myproc : invq iso_inv myproc (fun j => j = i).
Proof.
  intros k Hk. unfold myproc, bind, get. simpl. rewrite (iso_cur k Hk). done.
Qed.

Lemma invq_proc_get j : invq iso_inv (proc_get j) (fun _ => True).
Proof. unfold proc_get. eapply invq_bind; [apply invq_get|]. intros. eapply invq_mono; [apply invq_of_option|done]. Qed.

Lemma invq_my_proc : invq iso_inv my_proc (fun _ => True).
Proof. unfold my_proc. eapply invq_bind; [apply invq_myproc|]. intros ? ->. apply invq_proc_get. Qed.

Lemma invq_proc_upd j f :
  mine j \/ (forall p, keeps i p (f p)) -> invq iso_inv (proc_upd j f) (fun _ => True).
Proof.
  intros Hf k Hk. destruct (kproc k j) as [p|] eqn:Ep.
  - rewrite (proc_upd_run k j f p Ep). split; [|done].
    apply (iso_upd k j p); [done..|]. destruct Hf as [?|Hf]; [by left|right; apply Hf].
  - unfold proc_upd, proc_get, bind, get. simpl. by rewrite Ep.
Qed.

Lemma invq_wakeup c : invq iso_inv (wakeup c) (fun _ => True).
Proof. apply invq_modify. intros k Hk. by apply iso_wakeup_procs. Qed.

(** Changes outside the process table. *)
Lemma invq_modify_same (f : kernel C -> kernel C) :
  (forall k, k_procs (f k) = k_procs k) -> (forall k, k_cur (f k) = k_cur k) ->
  invq iso_inv (modify f) (fun _ => True).
Proof. intros Hp Hc. apply invq_modify. intros k Hk. by apply (iso_procs k). Qed.

Lemma mine_cur : mine i.
Proof. by left. Qed.
End iso.

#[export] Hint Resolve invq_on_kmem invq_on_fs invq_on_console invq_on_pipe invq_myproc
  invq_proc_get invq_my_proc invq_wakeup mine_cur : iso.

(** Walks through a computation: binds, branches and known functions. *)
Ltac iso_step :=
  lazymatch goal with
  | |- invq _ (ret _) _ => apply invq_ret; done
  | |- invq _ (bind _ _) _ =>
    first [ eapply invq_bind; [solve [eauto 2 with iso nocore]|cbn beta; intros ? ?; subst]
          | eapply (invq_bind _ _ _ (fun _ => True)); [|intros ? _] ]
  | |- invq _ (for_loop _ _ _) _ => apply invq_for_loop; intros ?
  | |- invq _ (match ?x with _ => _ end) _ => destruct x eqn:?
  | |- invq _ _ _ => first [ solve [eauto 2 with iso nocore]
                           | eapply invq_mono; [solve [eauto 2 with iso nocore]|done] ]
  end.
Ltac iso := cbv zeta; repeat iso_step; try done.

Section calls.
Context {C : Type} `{BlockCache C}.
Context (k0 : kernel C) (i : Z).
Context (kend trampoline forkret_addr : Z) (pad : list Z).

Lemma invq_bind_get {B} (f : kernel C -> M (kernel C) B) Q :
  (forall k, iso_inv k0 i k -> invq (iso_inv k0 i) (f k) Q) -> invq (iso_inv k0 i) (bind get f) Q.
Proof. intros Hf k Hk. unfold bind, get. rewrite prepend_nil. by apply Hf. Qed.

Lemma invq_upd_mine j f : mine k0 i j -> invq (iso_inv k0 i) (proc_upd j f) (fun _ => True).
Proof. intros Hj. apply invq_proc_upd. by left. Qed.
Hint Resolve invq_upd_mine : iso.

(** ** kernel/file.c *)

Lemma invq_file_get f : invq (iso_inv k0 i) (file_get f) (fun _ => True).
Proof. unfold file_get. iso. Qed.
Hint Resolve invq_file_get : iso.

Lemma invq_file_upd f g : invq (iso_inv k0 i) (file_upd f g) (fun _ => True).
Proof. unfold file_upd. iso. by apply invq_modify_same. Qed.
Hint Resolve invq_file_upd : iso.

Lemma invq_begin_op : invq (iso_inv k0 i) k_begin_op (fun _ => True).
Proof. unfold k_begin_op. iso. Qed.
Lemma invq_end_op : invq (iso_inv k0 i) k_end_op (fun _ => True).
Proof. unfold k_end_op. iso. Qed.
Lemma invq_tf_get p off : invq (iso_inv k0 i) (tf_get p off) (fun _ => True).
Proof. unfold tf_get. iso. Qed.
Lemma invq_tf_set p off v : invq (iso_inv k0 i) (tf_set p off v) (fun _ => True).
Proof. unfold tf_set. iso. Qed.
Lemma invq_killed j : invq (iso_inv k0 i) (killed j) (fun _ => True).
Proof. unfold killed. iso. Qed.
Hint Resolve invq_begin_op invq_end_op invq_tf_get invq_tf_set invq_killed : iso.

Lemma invq_filealloc : invq (iso_inv k0 i) filealloc (fun _ => True).
Proof. unfold filealloc. iso. Qed.
Lemma invq_filedup f : invq (iso_inv k0 i) (filedup f) (fun _ => True).
Proof. unfold filedup. iso. Qed.
Lemma invq_k_pipeclose pi w : invq (iso_inv k0 i) (k_pipeclose kend pi w) (fun _ => True).
Proof. unfold k_pipeclose. iso. by apply invq_modify_same. Qed.
Hint Resolve invq_filealloc invq_filedup invq_k_pipeclose : iso.

Lemma invq_fileclose f : invq (iso_inv k0 i) (fileclose kend f) (fun _ => True).
Proof. unfold fileclose. iso. Qed.
Lemma invq_device d : invq (iso_inv k0 i) (device d) (fun _ => True).
Proof. unfold device. iso. Qed.
Lemma invq_filestat f a : invq (iso_inv k0 i) (filestat pad f a) (fun _ => True).
Proof. unfold filestat. iso. Qed.
Hint Resolve invq_fileclose invq_device invq_filestat : iso.

Lemma invq_fileread f a n : invq (iso_inv k0 i) (fileread f a n) (fun _ => True).
Proof. unfold fileread. iso. Qed.
Lemma invq_filewrite_loop fuel f ip a n j : invq (iso_inv k0 i) (filewrite_loop fuel f ip a n j) (fun _ => True).
Proof. revert j. induction fuel as [|fuel IH]; intros j; cbn [filewrite_loop]; iso. Qed.
Hint Resolve invq_fileread invq_filewrite_loop : iso.
Lemma invq_filewrite f a n : invq (iso_inv k0 i) (filewrite f a n) (fun _ => True).
Proof. unfold filewrite. iso. Qed.
Lemma invq_pipealloc : invq (iso_inv k0 i) (pipealloc kend) (fun _ => True).
Proof. unfold pipealloc, close_opt. iso. by apply invq_modify_same. Qed.
Hint Resolve invq_filewrite invq_pipealloc : iso.

(** ** kernel/proc.c *)

Lemma invq_proc_pagetable tf : invq (iso_inv k0 i) (proc_pagetable kend trampoline tf) (fun _ => True).
Proof. unfold proc_pagetable. iso. Qed.
Lemma invq_proc_freepagetable pt sz : invq (iso_inv k0 i) (proc_freepagetable kend pt sz) (fun _ => True).
Proof. unfold proc_freepagetable. iso. Qed.
Lemma invq_allocpid : invq (iso_inv k0 i) allocpid (fun _ => True).
Proof. unfold allocpid. iso. by apply invq_modify_same. Qed.
Hint Resolve invq_proc_pagetable invq_proc_freepagetable invq_allocpid : iso.

Lemma invq_freeproc j : mine k0 i j -> invq (iso_inv k0 i) (freeproc kend j) (fun _ => True).
Proof. intros Hj. unfold freeproc. iso. Qed.
Hint Resolve invq_freeproc : iso.

(** A free slot is found. *)
Lemma invq_allocproc :
  invq (iso_inv k0 i) (allocproc kend trampoline forkret_addr)
    (fun np => match np with Some j => mine k0 i j | None => True end).
Proof.
  unfold allocproc. apply invq_bind_get. intros k Hk.
  destruct (find_proc _ _ _) as [j|] eqn:E; [|by apply invq_ret].
  assert (Hj : mine k0 i j).
  { apply find_proc_Some in E as (n & p & -> & Ep & Hp & _).
    apply (iso_slot k0 i k _ p Hk).
    - unfold kproc, zget. by rewrite (proj2 (Z.leb_le 0 _)), Z.add_0_l, Nat2Z.id by lia.
    - left. by apply bool_decide_eq_true in Hp. }
  clear E. iso.
Qed.
Hint Resolve invq_allocproc : iso.

Lemma invq_growproc n : invq (iso_inv k0 i) (growproc kend n) (fun _ => True).
Proof. unfold growproc. iso. Qed.
Lemma invq_dup_ofile p np fd : mine k0 i np -> invq (iso_inv k0 i) (dup_ofile p np fd) (fun _ => True).
Proof. intros Hnp. unfold dup_ofile. iso. Qed.
Lemma invq_close_fd fd : invq (iso_inv k0 i) (close_fd kend i fd) (fun _ => True).
Proof. unfold close_fd. iso. Qed.
Hint Resolve invq_growproc invq_dup_ofile invq_close_fd : iso.

Lemma invq_fork : invq (iso_inv k0 i) (fork kend trampoline forkret_addr) (fun _ => True).
Proof. unfold fork. iso. Qed.
Hint Resolve invq_fork : iso.

(** A change of a slot that looks at it first. *)
Lemma invq_get_upd (j : Z) (b : proc -> bool) (f : proc -> proc) :
  (forall p, b p = true -> keeps i p (f p)) ->
  invq (iso_inv k0 i) (let* p := proc_get j in if b p then proc_upd j f else ret tt) (fun _ => True).
Proof.
  intros Hf k Hk. destruct (kproc k j) as [p|] eqn:Ep.
  - rewrite (bind_Done _ _ _ _ _ _ (proc_get_run k j p Ep)), prepend_nil.
    destruct (b p) eqn:Eb; [|done]. rewrite (proc_upd_run k j f p Ep). split; [|done].
    apply (iso_upd k0 i k j p); [done..|]. right. by apply Hf.
  - unfold bind at 1, proc_get, bind, get. simpl. by rewrite Ep.
Qed.

Lemma invq_reparent : invq (iso_inv k0 i) (reparent i) (fun _ => True).
Proof.
  unfold reparent. apply invq_bind_get. intros k _. apply invq_for_loop. intros j k' Hk'.
  destruct (kproc k' j) as [p|] eqn:Ep; [|by unfold bind at 1, proc_get, bind, get; simpl; rewrite Ep].
  rewrite (bind_Done _ _ _ _ _ _ (proc_get_run k' j p Ep)), prepend_nil.
  case_bool_decide as Hp; [|done].
  rewrite (bind_Done _ _ _ _ _ _ (proc_upd_run k' j _ p Ep)), prepend_nil.
  assert (Hk2 : iso_inv k0 i (k_set_procs (zset (k_procs k') j (p_set_parent (k_initproc k) p)) k')).
  { apply (iso_upd k0 i k' j p); [done..|]. right. by apply keeps_parent. }
  destruct (k_initproc k) as [ip|]; [|done]. by apply (invq_wakeup k0 i).
Qed.
Hint Resolve invq_reparent : iso.

Lemma invq_exit status : invq (iso_inv k0 i) (exit kend status) (fun _ => True).
Proof. unfold exit. iso. Qed.
Hint Resolve invq_exit : iso.

Lemma wait_scan_zombie ps me n hk c hk' :
  wait_scan ps me n hk = (Some c, hk') ->
  exists j p, c = n + Z.of_nat j /\ ps !! j = Some p /\ p_state p = ZOMBIE /\ p_parent p = Some me.
Proof.
  revert n hk. induction ps as [|p ps IH]; intros n hk E; simpl in E; [done|].
  case_bool_decide as Hp; [case_bool_decide as Hz|].
  - injection E as <- <-. exists 0%nat, p. split_and!; [lia|done..].
  - destruct (IH _ _ E) as (j & q & -> & Hq). exists (S j), q. split; [lia|done].
  - destruct (IH _ _ E) as (j & q & -> & Hq). exists (S j), q. split; [lia|done].
Qed.

Lemma invq_wait a : invq (iso_inv k0 i) (wait kend a) (fun _ => True).
Proof.
  unfold wait. eapply invq_bind; [apply invq_myproc|]. intros ? ->.
  eapply invq_bind; [apply invq_proc_get|]. intros p _. apply invq_bind_get. intros k Hk.
  destruct (wait_scan _ _ _ _) as [[c|] hk] eqn:E; [|iso].
  assert (Hc : mine k0 i c).
  { apply wait_scan_zombie in E as (n & q & -> & Eq & Hz & Hq).
    apply (iso_slot k0 i k _ q Hk); [|by right].
    unfold kproc, zget. by rewrite (proj2 (Z.leb_le 0 _)), Z.add_0_l, Nat2Z.id by lia. }
  clear E. iso.
Qed.
Hint Resolve invq_wait : iso.

Lemma invq_setkilled j : invq (iso_inv k0 i) (setkilled j) (fun _ => True).
Proof. apply invq_proc_upd. right. intros p. apply keeps_killed. Qed.
Hint Resolve invq_setkilled : iso.

Lemma invq_kill pid : invq (iso_inv k0 i) (kill pid) (fun _ => True).
Proof.
  unfold kill. eapply invq_bind; [apply invq_get|]. intros k _.
  destruct (find_proc _ _ _) as [j|]; [|by apply invq_ret].
  eapply invq_bind; [apply (invq_setkilled j)|]. intros _ _.
  apply invq_assoc.
  eapply invq_bind; [apply invq_get_upd|intros; by apply invq_ret].
  intros p Hp. apply keeps_runnable. by apply bool_decide_eq_true in Hp.
Qed.
Hint Resolve invq_kill : iso.

Lemma invq_yield : invq (iso_inv k0 i) yield (fun _ => True).
Proof. unfold yield. iso. Qed.
Hint Resolve invq_yield : iso.

(** ** kernel/syscall.c and kernel/exec.c *)

Lemma invq_argraw n : invq (iso_inv k0 i) (argraw n) (fun _ => True).
Proof. unfold argraw. iso. Qed.
Hint Resolve invq_argraw : iso.
Lemma invq_argint n : invq (iso_inv k0 i) (argint n) (fun _ => True).
Proof. unfold argint. iso. Qed.
Lemma invq_argaddr n : invq (iso_inv k0 i) (argaddr n) (fun _ => True).
Proof. unfold argaddr. iso. Qed.
Lemma invq_fetchstr a n : invq (iso_inv k0 i) (fetchstr a n) (fun _ => True).
Proof. unfold fetchstr. iso. Qed.
Lemma invq_fetchaddr a : invq (iso_inv k0 i) (fetchaddr a) (fun _ => True).
Proof. unfold fetchaddr. iso. Qed.
Hint Resolve invq_argint invq_argaddr invq_fetchstr invq_fetchaddr : iso.
Lemma invq_argstr n max : invq (iso_inv k0 i) (argstr n max) (fun _ => True).
Proof. unfold argstr. iso. Qed.
Hint Resolve invq_argstr : iso.

Lemma invq_loadseg_loop fuel pt va ip off sz j :
  invq (iso_inv k0 i) (loadseg_loop fuel pt va ip off sz j) (fun _ => True).
Proof. revert j. induction fuel as [|fuel IH]; intros j; cbn [loadseg_loop]; iso. Qed.
Hint Resolve invq_loadseg_loop : iso.
Lemma invq_loadseg pt va ip off sz : invq (iso_inv k0 i) (loadseg pt va ip off sz) (fun _ => True).
Proof. unfold loadseg. iso. Qed.
Hint Resolve invq_loadseg : iso.
Lemma invq_exec_load n pt ip off sz : invq (iso_inv k0 i) (exec_load kend n pt ip off sz) (fun _ => True).
Proof. revert off sz. induction n as [|n IH]; intros off sz; cbn [exec_load]; iso. Qed.
Lemma invq_push_args argv pt sp sb argc us :
  invq (iso_inv k0 i) (push_args argv pt sp sb argc us) (fun _ => True).
Proof. revert sp argc us. induction argv as [|a argv IH]; intros sp argc us; cbn [push_args]; iso. Qed.
Lemma invq_exec_bad pt sz ip : invq (iso_inv k0 i) (exec_bad kend pt sz ip) (fun _ => True).
Proof. unfold exec_bad. iso. Qed.
Lemma invq_exec_commit pt sz e sp path : invq (iso_inv k0 i) (exec_commit kend i pt sz e sp path) (fun _ => True).
Proof. unfold exec_commit. iso. Qed.
Hint Resolve invq_exec_load invq_push_args invq_exec_bad invq_exec_commit : iso.
Lemma invq_exec_stack pt sz e path argv : invq (iso_inv k0 i) (exec_stack kend i pt sz e path argv) (fun _ => True).
Proof. unfold exec_stack. iso. Qed.
Hint Resolve invq_exec_stack : iso.
Lemma invq_exec path argv : invq (iso_inv k0 i) (exec kend trampoline path argv) (fun _ => True).
Proof. unfold exec. iso. Qed.
Hint Resolve invq_exec : iso.

(** ** kernel/sysfile.c *)

Lemma invq_argfd n : invq (iso_inv k0 i) (argfd n) (fun _ => True).
Proof. unfold argfd. iso. Qed.
Lemma invq_set_fd fd f : invq (iso_inv k0 i) (set_fd fd f) (fun _ => True).
Proof. unfold set_fd. iso. Qed.
Hint Resolve invq_argfd invq_set_fd : iso.
Lemma invq_fdalloc f : invq (iso_inv k0 i) (fdalloc f) (fun _ => True).
Proof. unfold fdalloc. iso. Qed.
Lemma invq_my_cwd : invq (iso_inv k0 i) (my_cwd) (fun _ => True).
Proof. unfold my_cwd. iso. Qed.
Hint Resolve invq_fdalloc invq_my_cwd : iso.
Lemma invq_k_namei path : invq (iso_inv k0 i) (k_namei path) (fun _ => True).
Proof. unfold k_namei. iso. Qed.
Lemma invq_k_nameiparent path : invq (iso_inv k0 i) (k_nameiparent path) (fun _ => True).
Proof. unfold k_nameiparent. iso. Qed.
Hint Resolve invq_k_namei invq_k_nameiparent : iso.
Lemma invq_sys_dup : invq (iso_inv k0 i) (sys_dup) (fun _ => True).
Proof. unfold sys_dup. iso. Qed.
Lemma invq_sys_read : invq (iso_inv k0 i) (sys_read) (fun _ => True).
Proof. unfold sys_read. iso. Qed.
Lemma invq_sys_write : invq (iso_inv k0 i) (sys_write) (fun _ => True).
Proof. unfold sys_write. iso. Qed.
Lemma invq_sys_close : invq (iso_inv k0 i) (sys_close kend) (fun _ => True).
Proof. unfold sys_close. iso. Qed.
Lemma invq_sys_fstat : invq (iso_inv k0 i) (sys_fstat pad) (fun _ => True).
Proof. unfold sys_fstat. iso. Qed.
Hint Resolve invq_sys_dup invq_sys_read invq_sys_write invq_sys_close invq_sys_fstat : iso.
Lemma invq_link_bad ip : invq (iso_inv k0 i) (link_bad ip) (fun _ => True).
Proof. unfold link_bad. iso. Qed.
Hint Resolve invq_link_bad : iso.
Lemma invq_link_new ip new : invq (iso_inv k0 i) (link_new ip new) (fun _ => True).
Proof. unfold link_new. iso. Qed.
Hint Resolve invq_link_new : iso.
Lemma invq_sys_link : invq (iso_inv k0 i) (sys_link) (fun _ => True).
Proof. unfold sys_link. iso. Qed.
Lemma invq_isdirempty_loop fuel dp off : invq (iso_inv k0 i) (isdirempty_loop fuel dp off) (fun _ => True).
Proof. revert off. induction fuel as [|fuel IH]; intros off; cbn [isdirempty_loop]; iso. Qed.
Hint Resolve invq_sys_link invq_isdirempty_loop : iso.
Lemma invq_isdirempty dp : invq (iso_inv k0 i) (isdirempty dp) (fun _ => True).
Proof. unfold isdirempty. iso. Qed.
Lemma invq_unlink_bad dp : invq (iso_inv k0 i) (unlink_bad dp) (fun _ => True).
Proof. unfold unlink_bad. iso. Qed.
Lemma invq_unlink_entry dp ip off : invq (iso_inv k0 i) (unlink_entry dp ip off) (fun _ => True).
Proof. unfold unlink_entry. iso. Qed.
Hint Resolve invq_isdirempty invq_unlink_bad invq_unlink_entry : iso.
Lemma invq_sys_unlink : invq (iso_inv k0 i) (sys_unlink) (fun _ => True).
Proof. unfold sys_unlink. iso. Qed.
Lemma invq_create_fail ip dp : invq (iso_inv k0 i) (create_fail ip dp) (fun _ => True).
Proof. unfold create_fail. iso. Qed.
Hint Resolve invq_sys_unlink invq_create_fail : iso.
Lemma invq_create_links ip dp name type : invq (iso_inv k0 i) (create_links ip dp name type) (fun _ => True).
Proof. unfold create_links. iso. Qed.
Hint Resolve invq_create_links : iso.
Lemma invq_create path type ma mi : invq (iso_inv k0 i) (create path type ma mi) (fun _ => True).
Proof. unfold create. iso. Qed.
Hint Resolve invq_create : iso.
Lemma invq_open_inode path om : invq (iso_inv k0 i) (open_inode path om) (fun _ => True).
Proof. unfold open_inode. iso. Qed.
Lemma invq_open_bad ip : invq (iso_inv k0 i) (open_bad ip) (fun _ => True).
Proof. unfold open_bad. iso. Qed.
Lemma invq_open_file f fd ip om : invq (iso_inv k0 i) (open_file f fd ip om) (fun _ => True).
Proof. unfold open_file. iso. Qed.
Hint Resolve invq_open_inode invq_open_bad invq_open_file : iso.
Lemma invq_sys_open : invq (iso_inv k0 i) (sys_open kend) (fun _ => True).
Proof. unfold sys_open. iso. Qed.
Lemma invq_made ip : invq (iso_inv k0 i) (made ip) (fun _ => True).
Proof. unfold made. iso. Qed.
Hint Resolve invq_sys_open invq_made : iso.
Lemma invq_sys_mkdir : invq (iso_inv k0 i) (sys_mkdir) (fun _ => True).
Proof. unfold sys_mkdir. iso. Qed.
Lemma invq_sys_mknod : invq (iso_inv k0 i) (sys_mknod) (fun _ => True).
Proof. unfold sys_mknod. iso. Qed.
Lemma invq_sys_chdir : invq (iso_inv k0 i) (sys_chdir) (fun _ => True).
Proof. unfold sys_chdir. iso. Qed.
Lemma invq_exec_args fuel a j argv : invq (iso_inv k0 i) (exec_args fuel a j argv) (fun _ => True).
Proof. revert j argv. induction fuel as [|fuel IH]; intros j argv; cbn [exec_args]; iso. Qed.
Lemma invq_free_args argv : invq (iso_inv k0 i) (free_args kend argv) (fun _ => True).
Proof. unfold free_args. induction argv as [|a argv IH]; cbn [foldr]; iso. Qed.
Hint Resolve invq_sys_mkdir invq_sys_mknod invq_sys_chdir invq_exec_args invq_free_args : iso.
Lemma invq_sys_exec : invq (iso_inv k0 i) (sys_exec kend trampoline) (fun _ => True).
Proof. unfold sys_exec. iso. Qed.
Lemma invq_sys_pipe : invq (iso_inv k0 i) (sys_pipe kend) (fun _ => True).
Proof. unfold sys_pipe. iso. Qed.
Hint Resolve invq_sys_exec invq_sys_pipe : iso.

(** ** kernel/sysproc.c and the metrics *)

Lemma invq_sys_exit : invq (iso_inv k0 i) (sys_exit kend) (fun _ => True).
Proof. unfold sys_exit. iso. Qed.
Lemma invq_sys_getpid : invq (iso_inv k0 i) (sys_getpid) (fun _ => True).
Proof. unfold sys_getpid. iso. Qed.
Lemma invq_sys_fork : invq (iso_inv k0 i) (sys_fork kend trampoline forkret_addr) (fun _ => True).
Proof. unfold sys_fork. iso. Qed.
Lemma invq_sys_wait : invq (iso_inv k0 i) (sys_wait kend) (fun _ => True).
Proof. unfold sys_wait. iso. Qed.
Lemma invq_sys_sbrk : invq (iso_inv k0 i) (sys_sbrk kend) (fun _ => True).
Proof. unfold sys_sbrk. iso. Qed.
Lemma invq_sleep_until n t : invq (iso_inv k0 i) (sleep_until n t) (fun _ => True).
Proof. unfold sleep_until. iso. Qed.
Hint Resolve invq_sleep_until : iso.
Lemma invq_sys_sleep : invq (iso_inv k0 i) (sys_sleep) (fun _ => True).
Proof. unfold sys_sleep. iso. Qed.
Lemma invq_sys_kill : invq (iso_inv k0 i) (sys_kill) (fun _ => True).
Proof. unfold sys_kill. iso. Qed.
Lemma invq_sys_uptime : invq (iso_inv k0 i) (sys_uptime) (fun _ => True).
Proof. unfold sys_uptime. iso. Qed.
Lemma invq_sys_uptime_nolock : invq (iso_inv k0 i) (sys_uptime_nolock) (fun _ => True).
Proof. unfold sys_uptime_nolock. iso. Qed.
Lemma invq_metric a j : invq (iso_inv k0 i) (metric a j) (fun _ => True).
Proof. unfold metric. iso. Qed.
Hint Resolve invq_sys_exit invq_sys_getpid invq_sys_fork invq_sys_wait invq_sys_sbrk
  invq_sys_sleep invq_sys_kill invq_sys_uptime invq_sys_uptime_nolock invq_metric : iso.
Lemma invq_sys_tempo_total : invq (iso_inv k0 i) (sys_tempo_total) (fun _ => True).
Proof. unfold sys_tempo_total. iso. Qed.
Lemma invq_sys_get_overhead : invq (iso_inv k0 i) (sys_get_overhead) (fun _ => True).
Proof. unfold sys_get_overhead. iso. Qed.
Lemma invq_sys_get_eficiencia : invq (iso_inv k0 i) (sys_get_eficiencia) (fun _ => True).
Proof. unfold sys_get_eficiencia. iso. Qed.
Lemma invq_sys_get_justica : invq (iso_inv k0 i) (sys_get_justica) (fun _ => True).
Proof. unfold sys_get_justica. iso. Qed.
Lemma invq_sys_increment_metric : invq (iso_inv k0 i) (sys_increment_metric) (fun _ => True).
Proof. unfold sys_increment_metric. iso; by apply invq_modify_same. Qed.
Lemma invq_sys_initialize_metrics : invq (iso_inv k0 i) (sys_initialize_metrics) (fun _ => True).
Proof. unfold sys_initialize_metrics. iso; by apply invq_modify_same. Qed.
Lemma invq_sys_set_justica : invq (iso_inv k0 i) (sys_set_justica) (fun _ => True).
Proof. unfold sys_set_justica. iso; by apply invq_modify_same. Qed.
Lemma invq_sys_set_type : invq (iso_inv k0 i) (sys_set_type) (fun _ => True).
Proof. unfold sys_set_type. iso. apply invq_proc_upd. right. intros p. apply keeps_type. Qed.
Hint Resolve invq_sys_tempo_total invq_sys_get_overhead invq_sys_get_eficiencia invq_sys_get_justica
  invq_sys_increment_metric invq_sys_initialize_metrics invq_sys_set_justica invq_sys_set_type : iso.

(** ** kernel/syscall.c and kernel/trap.c *)

Lemma invq_value (m : M (kernel C) Z) :
  invq (iso_inv k0 i) m (fun _ => True) -> invq (iso_inv k0 i) (value m) (fun _ => True).
Proof. intros Hm. unfold value. eapply invq_bind; [done|]. intros. by apply invq_ret. Qed.
Hint Resolve invq_value : iso.
Lemma invq_syscalls n : invq (iso_inv k0 i) (syscalls kend trampoline forkret_addr pad n) (fun _ => True).
Proof. destruct n; cbn [syscalls]; eauto 3 with iso nocore. Qed.
Lemma invq_k_printf fmt ap : invq (iso_inv k0 i) (k_printf fmt ap) (fun _ => True).
Proof. unfold k_printf. iso. Qed.
Hint Resolve invq_syscalls invq_k_printf : iso.
Lemma invq_syscall : invq (iso_inv k0 i) (syscall kend trampoline forkret_addr pad) (fun _ => True).
Proof. unfold syscall. iso. Qed.
Hint Resolve invq_syscall : iso.

Lemma invq_clockintr c t : invq (iso_inv k0 i) (clockintr c t) (fun _ => True).
Proof. unfold clockintr. iso. by apply invq_modify_same. Qed.
Lemma invq_k_uartintr : invq (iso_inv k0 i) k_uartintr (fun _ => True).
Proof. unfold k_uartintr. iso. by apply invq_klift. Qed.
Hint Resolve invq_clockintr invq_k_uartintr : iso.
Lemma invq_devintr sc irq c t : invq (iso_inv k0 i) (devintr sc irq c t) (fun _ => True).
Proof. unfold devintr. iso. Qed.
Hint Resolve invq_devintr : iso.

Context (uservec usertrap_addr : Z).
Lemma invq_usertrapret satp tp st :
  invq (iso_inv k0 i) (usertrapret trampoline uservec usertrap_addr satp tp st) (fun _ => True).
Proof. unfold usertrapret. iso. Qed.
Hint Resolve invq_usertrapret : iso.
Lemma invq_usertrap_end w satp tp st :
  invq (iso_inv k0 i) (usertrap_end kend trampoline uservec usertrap_addr i w satp tp st) (fun _ => True).
Proof. unfold usertrap_end. iso. Qed.
Hint Resolve invq_usertrap_end : iso.
Lemma invq_usertrap sc pc sv st satp tp irq t :
  invq (iso_inv k0 i)
    (usertrap kend trampoline forkret_addr pad uservec usertrap_addr sc pc sv st satp tp irq t)
    (fun _ => True).
Proof. unfold usertrap. iso. Qed.
End calls.

Lemma iso_inv_start {C} (k : kernel C) i : k_cur k = Some i -> iso_inv k i k.
Proof. intros Hc. constructor; [done..|]. intros j p0 _ E. exists p0. split; [done|right]. apply keeps_refl. Qed.

Lemma invq_iso_start {C A} (m : M (kernel C) A) k i j p0 :
  invq (iso_inv k i) m (fun _ => True) -> k_cur k = Some i -> j <> i -> kproc k j = Some p0 ->
  ~ loose i p0 ->
  match m k with
  | Done _ k' _ | Sleep _ k' _ => exists p, kproc k' j = Some p /\ keeps i p0 p
  | _ => True
  end.
Proof.
  intros Hm Hc Hj E0 Hl. specialize (Hm k (iso_inv_start k i Hc)).
  assert (G : forall k', iso_inv k i k' -> exists p, kproc k' j = Some p /\ keeps i p0 p).
  { intros k' [_ _ Hk]. destruct (Hk j p0 Hj E0) as (p & Ep & [?|Hp]); [done|]. by exists p. }
  destruct (m k); try done; [by apply G, Hm|by apply G].
Qed.


(** Process 0 runs; process 1 sleeps until the clock ticks. *)
Definition sleeper : proc := p_set_chan (Some ChTicks) (p_set_pid 2 (p_set_state SLEEPING proc_bss)).
Definition tick_kernel : kernel bcache :=
  k_set_cur (Some 0)
    (k_set_procs [p_set_pid 1 (p_set_trapframe 4096 (p_set_state RUNNING proc_bss)); sleeper]
       (kernel_bss (fun _ => 0) (booted zero_block (fun _ => zero_block) 1)
          (Console [] 0 0 0 (Uart [] 0 0 [] [])))).

#[local] Instance tick_cache : BlockCache bcache := bio_cache 1.

