(* ===== verification/Grep.v ===== *)
(** * user/grep.c: the pattern matcher and the line filter

    Strings are the lists of their characters.  A pattern is interpreted as the
    source does; its meaning as a set of strings is defined separately and the
    matcher is proved to decide it.  The input of [grep] arrives in pieces of any
    size, as [read] returns it. *)

From Stdlib Require Import ZArith Lia.
From stdpp Require Import base list strings numbers.
From S2P Require Import Prelude.

Definition CARET : Z := 94.
Definition DOLLAR : Z := 36.
Definition STAR : Z := 42.
Definition DOT : Z := 46.
Definition NEWLINE : Z := 10.

(** ** The matcher *)

(** [matchstar(c, re, text)], where [here] is [matchhere(re, _)]. *)
Fixpoint matchstar (here : list Z -> bool) (c : Z) (text : list Z) : bool :=
  if here text then true
  else match text with
       | [] => false
       | x :: text' => if (x =? c) || (c =? DOT) then matchstar here c text' else false
       end.

Fixpoint matchhere (re text : list Z) {struct re} : bool :=
  match re with
  | [] => true
  | c :: re' =>
    match re' with
    | s :: re'' =>
      if s =? STAR then matchstar (matchhere re'') c text
      else match text with
           | x :: text' => if (c =? DOT) || (c =? x) then matchhere re' text' else false
           | [] => false
           end
    | [] =>
      if c =? DOLLAR then match text with [] => true | _ => false end
      else match text with
           | x :: text' => if (c =? DOT) || (c =? x) then matchhere re' text' else false
           | [] => false
           end
    end
  end.

(** The loop of [match] over the positions of the text, the last one included. *)
Fixpoint match_loop (re text : list Z) : bool :=
  if matchhere re text then true
  else match text with [] => false | _ :: text' => match_loop re text' end.

Definition grep_match (re text : list Z) : bool :=
  match re with
  | c :: re' => if c =? CARET then matchhere re' text else match_loop re text
  | [] => match_loop re text
  end.

(** ** The filter *)

(** [strchr(s, '\n')]: the characters before the newline and those after it;
    [None] when a terminator comes first. *)
Fixpoint split_line (s : list Z) : option (list Z * list Z) :=
  match s with
  | [] => None
  | x :: s' =>
    if x =? 0 then None
    else if x =? NEWLINE then Some ([], s')
    else match split_line s' with Some (l, r) => Some (x :: l, r) | None => None end
  end.

(** The inner loop of [grep]: what it writes, and what is left of the buffer. *)
Fixpoint grep_lines (fuel : nat) (pattern s : list Z) : list Z * list Z :=
  match fuel with
  | O => ([], s)
  | S fuel' =>
    match split_line s with
    | None => ([], s)
    | Some (p, rest) =>
      let '(out, more) := grep_lines fuel' pattern rest in
      ((if grep_match pattern p then p ++ [NEWLINE] else []) ++ out, more)
    end
  end.

Definition BUFSIZE : nat := 1024.

(** What a file descriptor delivers: the bytes to come, and how many at most each
    call of [read] returns. *)
Record stream := Stream { st_data : list Z; st_cuts : list nat }.

Definition rd_size (want : nat) (s : stream) : nat :=
  Nat.min want (match st_cuts s with [] => want | k :: _ => Nat.max 1 k end).
Definition rd (want : nat) (s : stream) : list Z * stream :=
  (take (rd_size want s) (st_data s), Stream (drop (rd_size want s) (st_data s)) (tail (st_cuts s))).

(** The loop of [grep]; [held] is the part of a line kept in the buffer. *)
Fixpoint grep_loop (fuel : nat) (pattern held : list Z) (s : stream) : option (list Z) :=
  match fuel with
  | O => None
  | S fuel' =>
    let '(got, s') := rd (BUFSIZE - length held - 1) s in
    match got with
    | [] => Some []
    | _ =>
      let buf := held ++ got in
      let '(out, more) := grep_lines (length buf) pattern buf in
      match grep_loop fuel' pattern more s' with
      | Some out' => Some (out ++ out')
      | None => None
      end
    end
  end.

(** Each successful [read] takes at least a byte. *)
Definition grep (pattern : list Z) (s : stream) : option (list Z) :=
  grep_loop (S (length (st_data s))) pattern [] s.

(** ** The meaning of patterns *)

(** One character of the text against one of the pattern. *)
Definition char_ok (c x : Z) : Prop := c = DOT \/ c = x.

(** [denotes re w e]: the pattern [re] stands for the string [w]; [e] says that it
    must be at the end of the text. *)
Inductive denotes : list Z -> list Z -> bool -> Prop :=
| den_nil : denotes [] [] false
| den_end : denotes [DOLLAR] [] true
| den_star c re ws w e :
    Forall (char_ok c) ws -> denotes re w e -> denotes (c :: STAR :: re) (ws ++ w) e
| den_char c x re w e :
    head re <> Some STAR -> (c :: re) <> [DOLLAR] -> char_ok c x -> denotes re w e ->
    denotes (c :: re) (x :: w) e.

(** [re] occurs at the start of the text. *)
Definition occurs_at (re text : list Z) : Prop :=
  exists w rest e, text = w ++ rest /\ denotes re w e /\ (e = true -> rest = []).

Lemma char_ok_b c x : (x =? c) || (c =? DOT) = true <-> char_ok c x.
Proof. unfold char_ok. rewrite orb_true_iff, !Z.eqb_eq. naive_solver. Qed.

Lemma matchstar_spec here c text :
  matchstar here c text = true <->
  exists ws rest, text = ws ++ rest /\ Forall (char_ok c) ws /\ here rest = true.
Proof.
  induction text as [|x text IH]; simpl.
  - destruct (here []) eqn:E; split; try done.
    + intros _. by exists [], [].
    + intros (ws & rest & Et & _ & Hr). symmetry in Et. apply app_eq_nil in Et as [_ ->]. congruence.
  - destruct (here (x :: text)) eqn:E; [split; [intros _; by exists [], (x :: text)|done]|].
    destruct ((x =? c) || (c =? DOT)) eqn:Ex.
    + rewrite IH. split.
      * intros (ws & rest & -> & Hws & Hr). exists (x :: ws), rest.
        split_and!; [done|constructor; [by apply char_ok_b|done]|done].
      * intros ([|y ws] & rest & Et & Hws & Hr); simpl in Et; [subst; congruence|].
        injection Et as <- ->. apply list.Forall_cons in Hws as [_ Hws]. by exists ws, rest.
    + split; [done|]. intros ([|y ws] & rest & Et & Hws & Hr); simpl in Et; [subst; congruence|].
      injection Et as <- ->. apply list.Forall_cons in Hws as [Hy _].
      apply char_ok_b in Hy. congruence.
Qed.

(** One step of the matcher on an ordinary character. *)
Lemma occurs_char c re text :
  head re <> Some STAR -> (c :: re) <> [DOLLAR] ->
  (forall t, matchhere re t = true <-> occurs_at re t) ->
  (match text with
   | x :: text' => if (c =? DOT) || (c =? x) then matchhere re text' else false
   | [] => false
   end = true) <-> occurs_at (c :: re) text.
Proof.
  intros Hs Hd IH. split.
  - destruct text as [|x text]; [done|]. destruct ((c =? DOT) || (c =? x)) eqn:Ex; [|done].
    intros Hm. apply IH in Hm as (w & rest & e & -> & Hw & He). exists (x :: w), rest, e.
    split_and!; [done|constructor; try done|done].
    unfold char_ok. rewrite orb_true_iff, !Z.eqb_eq in Ex. done.
  - intros (w & rest & e & -> & Hw & He). inversion Hw; subst; simpl in *; try done.
    assert ((c =? DOT) || (c =? x) = true) as ->
      by (rewrite orb_true_iff, !Z.eqb_eq; done).
    apply IH. eexists _, _, _. split_and!; [done..|]. done.
Qed.

Lemma matchhere_spec re text : matchhere re text = true <-> occurs_at re text.
Proof.
  remember (length re) as n eqn:Hn. revert re text Hn.
  induction n as [n IH] using lt_wf_ind. intros re text ->.
  destruct re as [|c [|s re]].
  - simpl. split; [|done]. intros _. exists [], text, false. split_and!; [done|constructor|done].
  - simpl matchhere. destruct (Z.eqb_spec c DOLLAR) as [->|Hc].
    + split.
      * destruct text; [|done]. intros _. exists [], [], true. split_and!; [done|constructor|done].
      * intros (w & rest & e & -> & Hw & He). inversion Hw; subst; simpl in *; try done.
        rewrite He by done. done.
    + apply (occurs_char c []); [done|naive_solver|]. intros t. apply (IH 0%nat); [simpl; lia|done].
  - cbn [matchhere]. destruct (Z.eqb_spec s STAR) as [->|Hs].
    + rewrite matchstar_spec. split.
      * intros (ws & rest & -> & Hws & Hm). apply (IH (length re)) in Hm; [|simpl; lia|done].
        destruct Hm as (w & rest' & e & -> & Hw & He). exists (ws ++ w), rest', e.
        split_and!; [by rewrite app_assoc|by constructor|done].
      * intros (w & rest & e & -> & Hw & He). inversion Hw; subst; simpl in *; try done.
        exists ws, (w0 ++ rest). split_and!; [by rewrite app_assoc|done|].
        apply (IH (length re)); [simpl; lia|done|]. by eexists _, _, _.
    + apply (occurs_char c (s :: re)); [naive_solver|done|].
      intros t. apply (IH (length (s :: re))); [simpl; lia|done].
Qed.

Lemma match_loop_spec re text :
  match_loop re text = true <-> exists pre post, text = pre ++ post /\ occurs_at re post.
Proof.
  induction text as [|x text IH]; simpl.
  - destruct (matchhere re []) eqn:E.
    + split; [|done]. intros _. exists [], []. by rewrite matchhere_spec in E.
    + split; [done|]. intros (pre & post & Et & Ho). symmetry in Et. apply app_eq_nil in Et as [_ ->].
      apply matchhere_spec in Ho. congruence.
  - destruct (matchhere re (x :: text)) eqn:E.
    + split; [|done]. intros _. exists [], (x :: text). by rewrite matchhere_spec in E.
    + rewrite IH. split.
      * intros (pre & post & -> & Ho). by exists (x :: pre), post.
      * intros ([|y pre] & post & Et & Ho); simpl in Et.
        -- subst. apply matchhere_spec in Ho. congruence.
        -- injection Et as <- ->. by exists pre, post.
Qed.

(** C34: The recursive matcher decides the meaning of patterns: [match] finds a
    pattern that starts with a caret exactly when the rest of it occurs at the
    start of the text, and any other exactly when it occurs somewhere, where a
    pattern occurs if the text has there a string it denotes (ordinary
    characters, dots, repetitions, and a dollar that needs the end of the text). *)
Theorem grep_match_correct (re text : list Z) :
  grep_match re text = true <->
  if bool_decide (head re = Some CARET) then occurs_at (tail re) text
  else exists pre post, text = pre ++ post /\ occurs_at re post.
Proof.
  unfold grep_match. destruct re as [|c re]; [apply match_loop_spec|].
  destruct (Z.eqb_spec c CARET) as [->|Hc].
  - rewrite bool_decide_eq_true_2 by done. apply matchhere_spec.
  - rewrite bool_decide_eq_false_2 by (simpl; congruence). apply match_loop_spec.
Qed.

(** ** The lines of the input *)

(** The lines that end with a newline, without it, and what follows the last. *)
Fixpoint lines (s : list Z) : list (list Z) * list Z :=
  match s with
  | [] => ([], [])
  | x :: s' =>
    let '(ls, r) := lines s' in
    if x =? NEWLINE then ([] :: ls, r)
    else match ls with [] => ([], x :: r) | l :: ls' => ((x :: l) :: ls', r) end
  end.

Definition select (pattern : list Z) (ls : list (list Z)) : list Z :=
  concat ((fun l => if grep_match pattern l then l ++ [NEWLINE] else []) <$> ls).

Lemma select_app pattern a b : select pattern (a ++ b) = select pattern a ++ select pattern b.
Proof. unfold select. by rewrite fmap_app, concat_app. Qed.

Lemma lines_held held s :
  NEWLINE ∉ held ->
  lines (held ++ s) =
    match lines s with
    | ([], r) => ([], held ++ r)
    | (l :: ls, r) => ((held ++ l) :: ls, r)
    end.
Proof.
  induction held as [|x held IH]; intros Hn; simpl; [by destruct (lines s) as [[] r]|].
  apply not_elem_of_cons in Hn as [Hx Hn]. rewrite IH by done.
  rewrite (proj2 (Z.eqb_neq x NEWLINE)) by done. by destruct (lines s) as [[] r].
Qed.

Lemma lines_rest s : NEWLINE ∉ (lines s).2.
Proof.
  induction s as [|x s IH]; simpl; [apply not_elem_of_nil|].
  destruct (lines s) as [[|l ls] r]; simpl in *; destruct (Z.eqb_spec x NEWLINE); try done.
  simpl. apply not_elem_of_cons. split; [congruence|done].
Qed.

Lemma lines_app a b :
  lines (a ++ b) = ((lines a).1 ++ (lines ((lines a).2 ++ b)).1, (lines ((lines a).2 ++ b)).2).
Proof.
  induction a as [|x a IH]; simpl; [by destruct (lines b)|].
  rewrite IH. destruct (lines a) as [la ra]. simpl in *.
  destruct (x =? NEWLINE) eqn:E; simpl; [done|].
  destruct la as [|l la]; simpl; [|done]. rewrite E.
  by destruct (lines (ra ++ b)) as [[] r].
Qed.

Lemma split_line_lines s :
  Forall (fun x => x <> 0) s ->
  match split_line s with
  | None => lines s = ([], s)
  | Some (l, rest) => lines s = (l :: (lines rest).1, (lines rest).2) /\
      (length rest < length s)%nat /\ Forall (fun x => x <> 0) rest
  end.
Proof.
  induction 1 as [|x s Hx Hs IH]; simpl; [done|]. rewrite (proj2 (Z.eqb_neq x 0)) by done.
  destruct (x =? NEWLINE) eqn:E.
  - destruct (lines s). simpl. split_and!; [done|lia|done].
  - destruct (split_line s) as [[l rest]|].
    + destruct IH as (-> & Hl & Hr). split_and!; [done|lia|done].
    + by rewrite IH.
Qed.

Lemma grep_lines_spec fuel pattern s :
  Forall (fun x => x <> 0) s -> (length s <= fuel)%nat ->
  grep_lines fuel pattern s = (select pattern (lines s).1, (lines s).2).
Proof.
  revert s. induction fuel as [|fuel IH]; intros s Hs Hf.
  { destruct s; [done|simpl in Hf; lia]. }
  simpl. pose proof (split_line_lines s Hs) as E. destruct (split_line s) as [[l rest]|].
  - destruct E as (-> & Hl & Hr). rewrite IH by (done || lia). done.
  - by rewrite E.
Qed.

(** Every line fits in the buffer with its newline. *)
Definition short (l : list Z) : Prop := (length l <= BUFSIZE - 2)%nat.
Definition lines_short (s : list Z) : Prop := Forall short (lines s).1 /\ short (lines s).2.

Lemma held_short held s : NEWLINE ∉ held -> lines_short (held ++ s) -> short held.
Proof.
  unfold lines_short, short. intros Hn. rewrite lines_held by done.
  destruct (lines s) as [[|l ls] r]; simpl; intros [Hl Hr].
  - rewrite length_app in Hr. lia.
  - apply list.Forall_cons in Hl as [Hl _]. rewrite length_app in Hl. lia.
Qed.

Lemma rd_data want s : (1 <= want)%nat ->
  (rd want s).1 ++ st_data (rd want s).2 = st_data s /\
  ((rd want s).1 = [] -> st_data s = []).
Proof.
  intros Hw. unfold rd, rd_size. simpl. split; [apply take_drop|].
  destruct (st_data s); [done|]. destruct (st_cuts s) as [|k cuts]; simpl;
    [destruct (want `min` want)%nat eqn:E|destruct (want `min` _)%nat eqn:E]; simpl; try done; lia.
Qed.

Lemma grep_loop_spec fuel pattern held s :
  NEWLINE ∉ held -> Forall (fun x => x <> 0) (held ++ st_data s) -> lines_short (held ++ st_data s) ->
  (length (st_data s) < fuel)%nat ->
  grep_loop fuel pattern held s = Some (select pattern (lines (held ++ st_data s)).1).
Proof.
  revert held s. induction fuel as [|fuel IH]; intros held s Hn Hz Hs Hf; [lia|].
  pose proof (held_short held _ Hn Hs) as Hh. unfold short in Hh.
  assert (BUFSIZE = 1024%nat) as EB by done. cbn [grep_loop].
  destruct (rd_data (BUFSIZE - length held - 1) s) as [Ed E0]; [lia|].
  destruct (rd _ s) as [got s']. simpl in Ed, E0. destruct got as [|x got].
  - rewrite (E0 eq_refl), app_nil_r. f_equal. symmetry.
    pose proof (lines_held held [] Hn) as E. rewrite app_nil_r in E. by rewrite E.
  - rewrite <- Ed, app_assoc in *. set (buf := held ++ x :: got) in *.
    apply Forall_app in Hz as [Hzb Hzd].
    rewrite grep_lines_spec by done. rewrite lines_app. cbn [fst].
    assert (Hbuf : Forall (fun x => x <> 0) (lines buf).2).
    { clear -Hzb. induction Hzb as [|y l Hy Hl IH]; simpl; [done|].
      destruct (lines l) as [[] r]; case_match; simpl in *; try done. by constructor. }
    rewrite IH; [by rewrite select_app|apply lines_rest|by apply Forall_app| |].
    + unfold lines_short in Hs |- *. rewrite lines_app in Hs. simpl in Hs.
      destruct Hs as [Hs ?]. by apply Forall_app in Hs as [_ Hs].
    + rewrite length_app in Hf. simpl in Hf. lia.
Qed.

Lemma select_filter pattern ls : select pattern ls = concat ((fun l => l ++ [NEWLINE]) <$> filter (fun l => grep_match pattern l = true) ls).
Proof.
  unfold select. induction ls as [|l ls IH]; [done|]. rewrite filter_cons, fmap_cons. simpl. rewrite IH.
  destruct (grep_match pattern l) eqn:E; [rewrite decide_True by done|rewrite decide_False by congruence]; done.
Qed.

(** [grep] prints, in order, exactly the lines of its input that match the
    pattern, however the input is cut into reads: for any input without zero bytes
    whose lines are at most 1022 characters long.  A last line without a newline
    is not printed. *)
Theorem grep_filters (pattern data : list Z) (cuts : list nat) :
  Forall (fun x => x <> 0) data -> lines_short data ->
  grep pattern (Stream data cuts) =
    Some (concat ((fun l => l ++ [NEWLINE]) <$> filter (fun l => grep_match pattern l = true) (lines data).1)).
Proof.
  intros Hz Hs. unfold grep. rewrite grep_loop_spec; simpl; [|apply not_elem_of_nil|done|done|lia].
  f_equal. apply select_filter.
Qed.

Lemma grep_filters_witness :
  grep (bytes "^a.*z$") (Stream (bytes "az" ++ [10] ++ bytes "bz" ++ [10] ++ bytes "abcz" ++ [10] ++ bytes "az") [1; 3; 2]%nat) =
    Some (bytes "az" ++ [10] ++ bytes "abcz" ++ [10]).
Proof.
  rewrite (grep_filters (bytes "^a.*z$")
    (bytes "az" ++ [10] ++ bytes "bz" ++ [10] ++ bytes "abcz" ++ [10] ++ bytes "az") [1; 3; 2]%nat).
  - reflexivity.
  - repeat constructor; discriminate.
  - split; vm_compute; repeat constructor.
Defined.
