(* ===== verification/Ulib.v ===== *)
(** * user/ulib.c: the library of user programs

    String functions are on lists of characters before the terminator, memory
    functions on a byte memory as in KString.v.  The names carry a [u] where the
    kernel has a function of the same name. *)

From Stdlib Require Import ZArith Lia FunctionalExtensionality.
From stdpp Require Import base list strings numbers.
From S2P Require Import Prelude Memory KString Digits UPrintf.

(** [strcpy]: the bytes of the source with its terminator. *)
Definition strcpy (m : mem) (s : Z) (t : list Z) : mem := store_bytes m s (t ++ [0]).

Fixpoint strcmp (p q : list Z) : Z :=
  match p, q with
  | x :: p', y :: q' => if x =? y then strcmp p' q' else u8 x - u8 y
  | x :: _, [] => u8 x
  | [], y :: _ => - u8 y
  | [], [] => 0
  end.

Definition ustrlen (s : list Z) : Z := Z.of_nat (length s).

(** The rest of the string from the first occurrence. *)
Fixpoint strchr (s : list Z) (c : Z) : option (list Z) :=
  match s with
  | [] => None
  | x :: s' => if x =? c then Some s else strchr s' c
  end.

(** The loop of [gets]: what is stored, and the input that is left. *)
Fixpoint gets_loop (k : nat) (input : list Z) : list Z * list Z :=
  match k with
  | O => ([], input)
  | S k' =>
    match input with
    | [] => ([], [])
    | c :: input' =>
      if (c =? 10) || (c =? 13) then ([c], input')
      else let '(l, r) := gets_loop k' input' in (c :: l, r)
    end
  end.

Definition ugets (max : Z) (input : list Z) : list Z * list Z := gets_loop (Z.to_nat (max - 1)) input.

Fixpoint atoi_loop (s : list Z) (n : Z) : Z :=
  match s with
  | [] => n
  | c :: s' => if (48 <=? c) && (c <=? 57) then atoi_loop s' (i32 (n * 10 + c - 48)) else n
  end.

Definition atoi (s : list Z) : Z := atoi_loop s 0.

(** Addresses are below 2^64 and the ranges do not wrap around. *)
Definition umemmove (m : mem) (vdst vsrc n : Z) : mem :=
  if vdst <? vsrc then move_forward (Z.to_nat n) m vdst vsrc
  else move_backward (Z.to_nat n) m (vdst + n) (vsrc + n).

Definition umemset (m : mem) (dst c n : Z) : mem := memset_loop (Z.to_nat n) m dst c 0.
Definition umemcmp (m : mem) (s1 s2 n : Z) : Z := memcmp_loop (Z.to_nat n) m s1 s2.
Definition umemcpy (m : mem) (dst src n : Z) : mem := umemmove m dst src n.

(** ** Comparison and copying *)

Lemma strcmp_eq p q :
  Forall (fun x => 0 < x < 256) p -> Forall (fun x => 0 < x < 256) q -> strcmp p q = 0 <-> p = q.
Proof.
  intros Hp. revert q. induction Hp as [|x p Hx Hp IH]; intros q Hq; destruct Hq as [|y q Hy Hq];
    simpl; rewrite ?(wrap_small 8) by lia; try (split; [lia|done]); [done|].
  destruct (Z.eqb_spec x y) as [->|Hne]; [rewrite IH by done; split; congruence|].
  split; [lia|congruence].
Qed.

(** The user library's [memmove], which chooses its direction only by the order
    of the pointers, leaves the same memory as the kernel's, which looks whether
    the ranges overlap: both copy the source as it was. *)
Theorem user_memmove_equiv (m : mem) (dst src n : Z) :
  umemmove m dst src n = KString.memmove m dst src n.
Proof.
  apply functional_extensionality. intros a.
  destruct (decide (0 <= n)) as [Hn|Hn].
  - rewrite memmove_at by done. unfold umemmove. destruct (Z.ltb_spec dst src).
    + rewrite move_forward_at, Z2Nat.id by lia. done.
    + rewrite move_backward_at, Z2Nat.id by lia.
      replace (dst + n - n) with dst by lia. repeat case_match; try done. f_equal. lia.
  - unfold umemmove, KString.memmove. replace (Z.to_nat n) with 0%nat by lia.
    rewrite (proj2 (Z.eqb_neq n 0)) by lia. by repeat case_match.
Qed.

(** ** Numbers *)

Lemma read_digits_ge base ds v :
  1 <= base -> 0 <= v -> Forall (fun d => 0 <= d < base) ds -> v <= foldl (fun v d => v * base + d) v ds.
Proof.
  intros Hb Hv Hd. revert v Hv. induction Hd as [|d ds Hd _ IH]; intros v Hv; simpl; [lia|].
  etransitivity; [|apply IH; nia]. nia.
Qed.

Lemma atoi_loop_digits ds suffix v :
  0 <= v -> Forall (fun d => 0 <= d < 10) ds ->
  match suffix with [] => True | c :: _ => c < 48 \/ 57 < c end ->
  foldl (fun v d => v * 10 + d) v ds < 2 ^ 31 ->
  atoi_loop ((digit <$> ds) ++ suffix) v = foldl (fun v d => v * 10 + d) v ds.
Proof.
  intros Hv Hd Hs. revert v Hv. induction Hd as [|d ds Hd Hds IH]; intros v Hv Hlt; simpl in *.
  - destruct suffix as [|c suffix]; [done|]. simpl.
    destruct (Z.leb_spec 48 c), (Z.leb_spec c 57); simpl; try done. lia.
  - assert (E : digit d = 48 + d).
    { assert (Hc : d = 0 \/ d = 1 \/ d = 2 \/ d = 3 \/ d = 4 \/ d = 5 \/ d = 6 \/ d = 7 \/ d = 8 \/ d = 9) by lia.
      repeat (destruct Hc as [->|Hc]; [done|]). by subst. }
    rewrite E, (proj2 (Z.leb_le 48 _)), (proj2 (Z.leb_le _ 57)) by lia. simpl.
    replace (v * 10 + (48 + d) - 48) with (v * 10 + d) by lia.
    pose proof (read_digits_ge 10 ds (v * 10 + d) ltac:(lia) ltac:(lia) Hds).
    rewrite (swrap_small 32) by lia. apply IH; lia.
Qed.

(** [atoi] inverts [printf("%d")]: the characters [printint] writes for a
    non-negative [int], followed by anything but a digit, read back as the number,
    without overflow on the way. *)
Theorem atoi_printint (n : Z) (suffix : list Z) :
  0 <= n < 2 ^ 31 -> match suffix with [] => True | c :: _ => c < 48 \/ 57 < c end ->
  exists out, UPrintf.printint n 10 true = Some out /\ atoi (out ++ suffix) = n.
Proof.
  intros Hn Hs. unfold UPrintf.printint. rewrite (proj2 (Z.ltb_ge n 0)) by lia. cbn [andb]. cbv zeta iota.
  rewrite (wrap_small 32) by lia.
  destruct (fill_u32 n 10 ltac:(lia) ltac:(lia)) as (ds & -> & Hv & Hd & Hl).
  eexists. split; [done|]. rewrite <- fmap_reverse. unfold atoi.
  assert (E : foldl (fun v d => v * 10 + d) 0 (reverse ds) = n)
    by (rewrite <- Hv; apply read_digits_reverse).
  rewrite atoi_loop_digits; [done|lia|by apply Forall_reverse|done|lia].
Qed.

Lemma atoi_printint_witness :
  exists out, UPrintf.printint 2147483647 10 true = Some out /\ atoi (out ++ bytes " x") = 2147483647.
Proof. apply (atoi_printint 2147483647 (bytes " x")); [lia|vm_compute; left; reflexivity]. Defined.
