(* ===== verification/UserProgs.v ===== *)
(** * user/wc.c, user/cat.c, user/echo.c and user/ls.c

    The loops of the small programs.  The bytes a program reads are given as the pieces that
    successive calls of [read] return ([wc], [cat]); what it writes is the list of bytes that
    [write] accepts, [wok] saying how many bytes of a piece it takes. *)

From Stdlib Require Import ZArith Lia.
From stdpp Require Import base list numbers option.
From S2P Require Import Prelude Ulib.

(** ** [wc] *)

Record counts := Counts { wc_l : Z; wc_w : Z; wc_c : Z; wc_inword : bool }.

(** Space, return, tab, newline and vertical tab. *)
Definition blanks : list Z := [32; 13; 9; 10; 11].

(** The body of the inner loop, for [buf[i]]. *)
Definition wc_byte (s : counts) (b : Z) : counts :=
  let c := wc_c s + 1 in
  let l := if b =? 10 then wc_l s + 1 else wc_l s in
  match strchr blanks b with
  | Some _ => Counts l (wc_w s) c false
  | None => if wc_inword s then Counts l (wc_w s) c true else Counts l (wc_w s + 1) c true
  end.

Definition wc (pieces : list (list Z)) : Z * Z * Z :=
  let s := foldl (fun s buf => foldl wc_byte s buf) (Counts 0 0 0 false) pieces in
  (wc_l s, wc_w s, wc_c s).

(** ** [cat] *)

(** The bytes written, and whether every write took its whole piece; a short one ends the program. *)
Fixpoint cat_loop (wok : list Z -> Z) (pieces : list (list Z)) (out : list Z) : list Z * bool :=
  match pieces with
  | [] => (out, true)
  | buf :: pieces' =>
    let n := wok buf in
    let out := out ++ take (Z.to_nat n) buf in
    if n =? Z.of_nat (length buf) then cat_loop wok pieces' out else (out, false)
  end.
Definition cat (wok : list Z -> Z) (pieces : list (list Z)) : list Z * bool := cat_loop wok pieces [].

(** ** [echo] *)

Fixpoint echo_loop (args : list (list Z)) : list Z :=
  match args with
  | [] => []
  | [a] => a ++ [10]
  | a :: args' => a ++ [32] ++ echo_loop args'
  end.

(** ** [fmtname] of [ls] *)

(** The index [p] after the first loop: it stops at a slash or one before the string. *)
Fixpoint fmt_scan (fuel : nat) (path : list Z) (p : Z) : Z :=
  match fuel with
  | O => p
  | S fuel' => if (0 <=? p) && negb (str_at path p =? 47) then fmt_scan fuel' path (p - 1) else p
  end.

Definition fmtname (path : list Z) : list Z :=
  let p := fmt_scan (S (length path)) path (Z.of_nat (length path)) + 1 in
  let name := drop (Z.to_nat p) path in
  if 14 <=? Z.of_nat (length name) then name
  else name ++ replicate (14 - length name) 32.

(** ** What [wc] counts *)

Definition blank (b : Z) : bool := (b =? 32) || (b =? 13) || (b =? 9) || (b =? 10) || (b =? 11).

Lemma strchr_blanks b : (if strchr blanks b then true else false) = blank b.
Proof.
  unfold blank, blanks. cbn [strchr]. rewrite (Z.eqb_sym b 32), (Z.eqb_sym b 13), (Z.eqb_sym b 9), (Z.eqb_sym b 10), (Z.eqb_sym b 11).
  by destruct (32 =? b), (13 =? b), (9 =? b), (10 =? b), (11 =? b).
Qed.

(** The number of words: positions that hold a non-blank after a blank or at the start. *)
Fixpoint words (prev : bool) (l : list Z) : Z :=
  match l with
  | [] => 0
  | b :: l' => (if negb prev && negb (blank b) then 1 else 0) + words (negb (blank b)) l'
  end.
Definition newlines (l : list Z) : Z := Z.of_nat (length (filter (fun b => b = 10) l)).


(** Whether the bytes end within a word. *)
Fixpoint in_word (prev : bool) (l : list Z) : bool :=
  match l with
  | [] => prev
  | b :: l' => in_word (negb (blank b)) l'
  end.

Lemma wc_bytes_run l s : foldl wc_byte s l =
  Counts (wc_l s + newlines l) (wc_w s + words (wc_inword s) l) (wc_c s + Z.of_nat (length l)) (in_word (wc_inword s) l).
Proof.
  revert s. induction l as [|b l IH]; intros s.
  - destruct s. cbn. unfold newlines. simpl. by rewrite !Z.add_0_r.
  - cbn [foldl]. rewrite IH. clear IH. unfold wc_byte. pose proof (strchr_blanks b) as Hb.
    assert (Hn : (if b =? 10 then wc_l s + 1 else wc_l s) + newlines l = wc_l s + newlines (b :: l)).
    { unfold newlines. rewrite filter_cons. destruct (Z.eqb_spec b 10); [rewrite decide_True by done|rewrite decide_False by done]; simpl; lia. }
    cbn [words length in_word]. rewrite Nat2Z.inj_succ.
    destruct (strchr blanks b); rewrite <- Hb; destruct (wc_inword s); cbn [wc_l wc_w wc_c wc_inword negb andb]; (f_equal; first [exact Hn|lia|done]).
Qed.

(** [wc] counts right, however the file is read.  For any pieces in which [read] delivers
    the file, the numbers are those of the whole file: its newlines, its words (a word begins
    at a non-blank character that is the first or follows a blank one) and its bytes; a word
    that spans two pieces is counted once. *)
Theorem wc_correct pieces :
  wc pieces = (newlines (concat pieces), words false (concat pieces), Z.of_nat (length (concat pieces))).
Proof.
  assert (E : forall s, foldl (fun s buf => foldl wc_byte s buf) s pieces = foldl wc_byte s (concat pieces)).
  { induction pieces as [|p pieces IH]; intros s; [done|]. cbn [foldl concat]. by rewrite foldl_app, IH. }
  unfold wc. rewrite E, wc_bytes_run. done.
Qed.

(** ** [cat], [echo] and [fmtname] *)

(** When every write is complete the output is the input; a short write stops the program
    with what was written. *)
Lemma cat_copies wok pieces : (forall p, p ∈ pieces -> wok p = Z.of_nat (length p)) -> cat wok pieces = (concat pieces, true).
Proof.
  intros Hw. unfold cat. change (concat pieces) with ([] ++ concat pieces). generalize (@nil Z) as out.
  induction pieces as [|p pieces IH]; intros out; cbn [cat_loop concat]; [by rewrite app_nil_r|].
  rewrite (Hw p) by left. rewrite Z.eqb_refl, Nat2Z.id, take_ge by lia. rewrite IH by (intros q Hq; apply Hw; by right). by rewrite app_assoc.
Qed.

Lemma echo_line args a : echo_loop (args ++ [a]) = concat ((fun x => x ++ [32]) <$> args) ++ a ++ [10].
Proof.
  induction args as [|x args IH]; [done|]. cbn [fmap list_fmap concat]. rewrite <- !app_assoc. rewrite <- IH.
  destruct args as [|y args]; done.
Qed.

Lemma fmt_scan_run dir name fuel k : 47 ∉ name -> (k < fuel)%nat ->
  fmt_scan fuel (dir ++ 47 :: name) (Z.of_nat (length dir + k)) = Z.of_nat (length dir).
Proof.
  intros Hn. revert fuel. induction k as [|k IH]; intros fuel Hf; (destruct fuel as [|fuel]; [lia|]); cbn [fmt_scan].
  - rewrite Nat.add_0_r, (proj2 (Z.leb_le _ _)) by lia. unfold str_at, zget. rewrite (proj2 (Z.leb_le _ _)), Nat2Z.id, lookup_app_r, Nat.sub_diag by lia. done.
  - rewrite (proj2 (Z.leb_le _ _)) by lia. unfold str_at, zget. rewrite (proj2 (Z.leb_le _ _)), Nat2Z.id, lookup_app_r by lia.
    replace (length dir + S k - length dir)%nat with (S k) by lia. change ((47 :: name) !! S k) with (name !! k).
    assert (Hne : (default 0 (name !! k) =? 47) = false).
    { apply Z.eqb_neq. destruct (name !! k) as [b|] eqn:Eb; [|done]. cbn. intros ->. apply Hn. by eapply list_elem_of_lookup_2. }
    rewrite Hne. cbn [andb negb]. replace (Z.of_nat (length dir + S k) - 1) with (Z.of_nat (length dir + k)) by lia. apply IH. lia.
Qed.

(** The last component of a path, padded to fourteen characters. *)
Lemma fmtname_last dir name : 47 ∉ name -> fmtname (dir ++ 47 :: name) = name ++ replicate (14 - length name) 32.
Proof.
  intros Hn. unfold fmtname. replace (Z.of_nat (length (dir ++ 47 :: name))) with (Z.of_nat (length dir + S (length name))) by (rewrite length_app; done).
  rewrite fmt_scan_run by (done || (rewrite length_app; simpl; lia)).
  replace (drop (Z.to_nat (Z.of_nat (length dir) + 1)) (dir ++ 47 :: name)) with name.
  - destruct (Z.leb_spec 14 (Z.of_nat (length name))); [|done]. replace (14 - length name)%nat with 0%nat by lia. by rewrite app_nil_r.
  - change (dir ++ 47 :: name) with (dir ++ [47] ++ name). rewrite app_assoc, drop_app_length'; [done|]. rewrite length_app. simpl. lia.
Qed.
