(* ===== verification/Umalloc.v ===== *)
(** * user/umalloc.c: the memory allocator of user programs

    Addresses are byte addresses; a header is sixteen bytes, and pointer arithmetic on
    headers is in units of sixteen.  The state holds the fields of the headers, by their
    address, the variable [freep] (0 is the null pointer) and the end of the process's
    memory, which [sbrk] moves.  [base] is the address of the static header, below the heap;
    whether the kernel has the memory [sbrk] asks for is the parameter [mem_ok].

    The representation: the free list is a ring through [base], sorted by address, in which
    no two blocks touch; the free and the allocated blocks are disjoint; and together they
    are all the memory obtained from the kernel. *)

From Stdlib Require Import ZArith Lia.
From stdpp Require Import base list numbers option.
From S2P Require Import Prelude.

Definition HDR : Z := 16.

Record heap := Heap {
  hptr : Z -> Z;
  hsize : Z -> Z;
  freep : Z;
  brk : Z
}.

Definition put (f : Z -> Z) (a v : Z) : Z -> Z := fun x => if x =? a then v else f x.
Definition set_ptr (s : heap) (a v : Z) : heap := Heap (put (hptr s) a v) (hsize s) (freep s) (brk s).
Definition set_size (s : heap) (a v : Z) : heap := Heap (hptr s) (put (hsize s) a (u32 v)) (freep s) (brk s).
Definition set_freep (s : heap) (v : Z) : heap := Heap (hptr s) (hsize s) v (brk s).

Section Code.
Context (base : Z) (mem_ok : Z -> Z -> bool).

(** ** [free] *)

(** The [for] loop: where [bp] belongs. *)
Fixpoint free_find (fuel : nat) (s : heap) (bp p : Z) : option Z :=
  match fuel with
  | O => None
  | S fuel' =>
    let q := hptr s p in
    if (p <? bp) && (bp <? q) then Some p
    else if (q <=? p) && ((p <? bp) || (bp <? q)) then Some p
    else free_find fuel' s bp q
  end.

(** After the loop: join with the block above, then with the block below. *)
Definition free_link (s : heap) (bp p : Z) : heap :=
  let q := hptr s p in
  let s :=
    if bp + HDR * hsize s bp =? q then
      let s := set_size s bp (hsize s bp + hsize s q) in
      set_ptr s bp (hptr s q)
    else set_ptr s bp q in
  let s :=
    if p + HDR * hsize s p =? bp then
      let s := set_size s p (hsize s p + hsize s bp) in
      set_ptr s p (hptr s bp)
    else set_ptr s p bp in
  set_freep s p.

Definition free (fuel : nat) (s : heap) (ap : Z) : option heap :=
  let bp := ap - HDR in
  p ← free_find fuel s bp (freep s);
  Some (free_link s bp p).

(** ** [sbrk] and [morecore] *)

(** The previous end of the memory, or -1; the argument is an [int]. *)
Definition sbrk (n : Z) (s : heap) : Z * heap :=
  let n := i32 n in
  if mem_ok (brk s) n then (brk s, Heap (hptr s) (hsize s) (freep s) (brk s + n)) else (-1, s).

Definition morecore (fuel : nat) (nu : Z) (s : heap) : option (Z * heap) :=
  let nu := if nu <? 4096 then 4096 else nu in
  let '(p, s) := sbrk (nu * HDR) s in
  if p =? -1 then Some (0, s)
  else
    let s := set_size s p nu in
    s ← free fuel s (p + HDR);
    Some (freep s, s).

(** ** [malloc] *)

Definition nunits_of (nbytes : Z) : Z := u32 ((nbytes + HDR - 1) / HDR + 1).

(** The block is taken from the tail of a larger free block. *)
Definition malloc_take (s : heap) (prevp p nunits : Z) : Z * heap :=
  let '(p, s) :=
    if hsize s p =? nunits then (p, set_ptr s prevp (hptr s p))
    else
      let s := set_size s p (hsize s p - nunits) in
      let p := p + HDR * hsize s p in
      (p, set_size s p nunits) in
  (p + HDR, set_freep s prevp).

Fixpoint malloc_loop (fuel : nat) (s : heap) (prevp p nunits : Z) : option (Z * heap) :=
  match fuel with
  | O => None
  | S fuel' =>
    if nunits <=? hsize s p then Some (malloc_take s prevp p nunits)
    else if p =? freep s then
      '(p, s) ← morecore fuel' nunits s;
      if p =? 0 then Some (0, s) else malloc_loop fuel' s p (hptr s p) nunits
    else malloc_loop fuel' s p (hptr s p) nunits
  end.

Definition malloc (fuel : nat) (s : heap) (nbytes : Z) : option (Z * heap) :=
  let nunits := nunits_of nbytes in
  let s := if freep s =? 0 then set_size (set_freep (set_ptr s base base) base) base 0 else s in
  let prevp := freep s in
  malloc_loop fuel s prevp (hptr s prevp) nunits.
End Code.
