(* ===== verification/UmallocProofs.v ===== *)
(** * user/umalloc.c: [malloc] and [free] keep the heap in order

    Blocks are pairs of an address and a size in headers.  [heap_ok s F Al] says that [F] are
    the free blocks, linked in a ring through the static header in the order of their
    addresses and never touching, [Al] the allocated blocks, all disjoint, and that together
    they are the memory from [lo] to the end of the process. *)

From Stdlib Require Import ZArith Lia Sorted.
From stdpp Require Import base list numbers option sorting.
From S2P Require Import Prelude Umalloc.

(** ** Disjoint blocks *)

Abbreviation blk := (Z * Z)%type.
Definition ends (b : blk) : Z := b.1 + HDR * b.2.
Definition sep (b c : blk) : Prop := ends b <= c.1 \/ ends c <= b.1.

Fixpoint disjoint_blocks (l : list blk) : Prop :=
  match l with
  | [] => True
  | b :: l' => (forall c, c ∈ l' -> sep b c) /\ disjoint_blocks l'
  end.
Definition total (l : list blk) : Z := foldr (fun b n => b.2 + n) 0 l.

Lemma sep_sym b c : sep b c -> sep c b.
Proof. unfold sep. tauto. Qed.

Lemma disjoint_perm l l' : l ≡ₚ l' -> disjoint_blocks l -> disjoint_blocks l'.
Proof.
  induction 1 as [|x l l' Hp IH|x y l|l1 l2 l3 H1 IH1 H2 IH2]; cbn [disjoint_blocks]; [done| | |tauto].
  - intros [H1 H2]. split; [|by apply IH]. intros c Hc. apply H1. by rewrite Hp.
  - intros (H1 & H2 & H3). split_and!; [|intros c Hc; apply H1; by right|done].
    intros c [->|Hc]%elem_of_cons; [apply sep_sym, H1; left|by apply H2].
Qed.

Lemma total_perm l l' : l ≡ₚ l' -> total l = total l'.
Proof. unfold total. induction 1; simpl; lia. Qed.

Lemma disjoint_join b c l : disjoint_blocks (b :: c :: l) -> ends b = c.1 -> 0 <= b.2 -> 0 <= c.2 ->
  (forall d, d ∈ l -> 1 <= d.2) -> disjoint_blocks ((b.1, b.2 + c.2) :: l).
Proof.
  intros (H1 & H2 & H3) E Hb Hc Hpos. split; [|done]. intros d Hd. specialize (Hpos d Hd). specialize (H1 d ltac:(by right)). specialize (H2 d Hd).
  unfold sep, ends, HDR in *. cbn [fst snd]. lia.
Qed.

Lemma disjoint_split a n m l : disjoint_blocks ((a, n) :: l) -> 0 <= m <= n -> disjoint_blocks ((a, n - m) :: (a + HDR * (n - m), m) :: l).
Proof.
  intros [H1 H2] Hm. cbn [disjoint_blocks]. split_and!; [| |done].
  - intros c [->|Hc]%elem_of_cons; unfold sep, ends, HDR; cbn [fst snd]; [lia|]. specialize (H1 c Hc). unfold sep, ends, HDR in H1. cbn [fst snd] in H1. lia.
  - intros c Hc. specialize (H1 c Hc). unfold sep, ends, HDR in *. cbn [fst snd] in *. lia.
Qed.

(** ** Linked segments *)

(** From [a] through the nodes of [l] to a node whose link is [z]. *)
Fixpoint seg (s : heap) (a : Z) (l : list Z) (z : Z) : Prop :=
  match l with
  | [] => hptr s a = z
  | b :: l' => hptr s a = b /\ seg s b l' z
  end.

Fixpoint lastn (a : Z) (l : list Z) : Z :=
  match l with
  | [] => a
  | b :: l' => lastn b l'
  end.

Lemma seg_app s a l1 b l2 z : seg s a (l1 ++ b :: l2) z <-> seg s a l1 b /\ seg s b l2 z.
Proof. revert a. induction l1 as [|c l1 IH]; intros a; cbn [app seg]; [done|]. rewrite IH. tauto. Qed.

Lemma lastn_in a l : lastn a l ∈ a :: l.
Proof. revert a. induction l as [|b l IH]; intros a; cbn [lastn]; [left|]. right. apply IH. Qed.

Lemma lastn_snoc a l b : lastn a (l ++ [b]) = b.
Proof. revert a. induction l as [|c l IH]; intros a; simpl; [done|apply IH]. Qed.

Lemma seg_last s a l z : seg s a l z -> hptr s (lastn a l) = z.
Proof. revert a. induction l as [|b l IH]; intros a; cbn [seg lastn]; [done|]. intros [_ H]. by apply IH. Qed.

Lemma seg_frame s s' a l z : (forall x, x ∈ a :: l -> hptr s' x = hptr s x) -> seg s a l z -> seg s' a l z.
Proof.
  revert a. induction l as [|b l IH]; intros a Hx; cbn [seg].
  - rewrite (Hx a) by left. done.
  - intros [<- H]. split; [apply Hx; left|]. apply IH; [|done]. intros x Hin. apply Hx. by right.
Qed.

Lemma put_eq f a v : put f a v a = v.
Proof. unfold put. by rewrite Z.eqb_refl. Qed.
Lemma put_ne f a v x : x <> a -> put f a v x = f x.
Proof. intros. unfold put. by rewrite (proj2 (Z.eqb_neq _ _)). Qed.

Lemma seg_set_last s a l z z' : NoDup (a :: l) -> seg s a l z -> seg (set_ptr s (lastn a l) z') a l z'.
Proof.
  revert a. induction l as [|b l IH]; intros a Hnd; cbn [seg lastn].
  - intros _. apply put_eq.
  - intros [E H]. apply list.NoDup_cons in Hnd as [Hni Hnd]. split; [|by apply IH].
    cbn [set_ptr hptr]. rewrite put_ne; [done|]. intros ->. apply Hni, lastn_in.
Qed.

(** The node before [b] in a ring without repetitions is the only one linked to it. *)
Lemma seg_pred s a l x b : NoDup (a :: l) -> seg s a l a -> x ∈ a :: l -> hptr s x = b -> b <> a ->
  exists l1 l2, l = l1 ++ b :: l2 /\ x = lastn a l1.
Proof.
  intros Hnd Hs Hx Hb Hne. apply list_elem_of_split in Hx as (m1 & m2 & E). destruct m1 as [|a' m1].
  - injection E as <- <-. destruct l as [|c l]; cbn [seg] in Hs; [congruence|]. destruct Hs as [<- _]. exists [], l. by rewrite Hb.
  - injection E as <- E. rewrite E in Hs. apply seg_app in Hs as [_ Hs]. destruct m2 as [|c m2]; cbn [seg] in Hs; [congruence|]. destruct Hs as [Ec _].
    exists (m1 ++ [x]), m2. rewrite lastn_snoc, <- app_assoc. simpl. split; [|done]. rewrite E. congruence.
Qed.

(** ** The lists of blocks *)

(** No block ends where the next begins. *)
Fixpoint apart (l : list blk) : Prop :=
  match l with
  | b :: ((c :: _) as l') => ends b <> c.1 /\ apart l'
  | _ => True
  end.

Lemma apart_app l1 b l2 : apart (l1 ++ b :: l2) <-> apart (l1 ++ [b]) /\ apart (b :: l2).
Proof.
  induction l1 as [|c [|d l1] IH].
  - simpl. tauto.
  - cbn [app apart]. destruct l2; simpl; tauto.
  - cbn [app] in *. change (apart (c :: d :: l1 ++ b :: l2)) with (ends c <> d.1 /\ apart (d :: l1 ++ b :: l2)).
    change (apart (c :: d :: l1 ++ [b])) with (ends c <> d.1 /\ apart (d :: l1 ++ [b])). tauto.
Qed.

Lemma apart_split l1 l2 : apart (l1 ++ l2) -> apart l1 /\ apart l2.
Proof.
  destruct l2 as [|b l2]; [rewrite app_nil_r; by intros|]. intros [H1 H2]%apart_app. split; [|done].
  clear H2. induction l1 as [|c [|d l1] IH]; [done|done|]. destruct H1 as [H1 H2]. split; [done|by apply IH].
Qed.

Lemma apart_start l b c : b.1 = c.1 -> apart (l ++ [b]) -> apart (l ++ [c]).
Proof.
  intros E. induction l as [|d [|e l] IH]; [done| |].
  - simpl. by rewrite E.
  - intros [H1 H2]. split; [done|by apply IH].
Qed.

Lemma apart_end b c l : ends b = ends c -> apart (b :: l) -> apart (c :: l).
Proof. intros E. destruct l as [|d l]; [done|]. intros [H1 H2]. split; [congruence|done]. Qed.

(** The blocks of a heap whose memory is [lo, hi). *)
Record shape (lo hi : Z) (F Al : list blk) : Prop := {
  sh_sorted : StronglySorted (fun b c => b.1 < c.1) F;
  sh_disj : disjoint_blocks (F ++ Al);
  sh_blk b : b ∈ F ++ Al -> lo <= b.1 /\ 1 <= b.2 /\ ends b <= hi;
  sh_total : HDR * total (F ++ Al) = hi - lo
}.

Lemma sorted_mid (F1 F2 : list blk) b : StronglySorted (fun b c => b.1 < c.1) (F1 ++ F2) ->
  (forall c, c ∈ F1 -> c.1 < b.1) -> (forall c, c ∈ F2 -> b.1 < c.1) -> StronglySorted (fun b c => b.1 < c.1) (F1 ++ b :: F2).
Proof.
  intros Hs H1 H2. induction F1 as [|c F1 IH]; cbn [app] in *.
  - constructor; [done|]. rewrite list.Forall_forall. done.
  - inversion Hs as [|? ? Hs' Hall]; subst. rewrite list.Forall_forall in Hall. constructor; [apply IH; [done|intros d Hd; apply H1; by right]|].
    rewrite list.Forall_forall. intros d Hd. apply elem_of_app in Hd as [Hd|[->|Hd]%elem_of_cons].
    + apply Hall, elem_of_app. by left.
    + apply H1. left.
    + apply Hall, elem_of_app. by right.
Qed.

Lemma sorted_del (F1 F2 : list blk) b : StronglySorted (fun b c => b.1 < c.1) (F1 ++ b :: F2) ->
  StronglySorted (fun b c => b.1 < c.1) (F1 ++ F2) /\ (forall c, c ∈ F1 -> c.1 < b.1) /\ (forall c, c ∈ F2 -> b.1 < c.1).
Proof.
  intros Hs. induction F1 as [|c F1 IH]; cbn [app] in *; inversion Hs as [|? ? Hs' Hall]; subst; rewrite list.Forall_forall in Hall.
  - split_and!; [done|intros c Hc; by apply elem_of_nil in Hc|done].
  - destruct (IH Hs') as (H1 & H2 & H3). split_and!; [|intros d [->|Hd]%elem_of_cons; [apply Hall, elem_of_app; right; left|by apply H2]|done].
    constructor; [done|]. rewrite list.Forall_forall. intros d [Hd|Hd]%elem_of_app; apply Hall, elem_of_app; [by left|right; by right].
Qed.

Lemma sorted_split (F : list blk) x : StronglySorted (fun b c => b.1 < c.1) F -> (forall b, b ∈ F -> b.1 <> x) ->
  exists F1 F2, F = F1 ++ F2 /\ (forall b, b ∈ F1 -> b.1 < x) /\ (forall b, b ∈ F2 -> x < b.1).
Proof.
  induction 1 as [|b F Hs IH Hall]; intros Hx.
  - exists [], []. split_and!; [done|intros b Hb; by apply elem_of_nil in Hb..].
  - rewrite list.Forall_forall in Hall. destruct (Z_lt_le_dec b.1 x) as [Hlt|Hge].
    + destruct IH as (F1 & F2 & -> & H1 & H2); [intros c Hc; apply Hx; by right|]. exists (b :: F1), F2. split_and!; [done| |done].
      intros c [->|Hc]%elem_of_cons; [done|by apply H1].
    + exists [], (b :: F). assert (Hne : b.1 <> x) by (apply Hx; left).
      split_and!; [done|intros c Hc; by apply elem_of_nil in Hc|]. intros c [->|Hc]%elem_of_cons; [lia|]. specialize (Hall c Hc). simpl in Hall. lia.
Qed.

Lemma shape_perm lo hi F F' Al Al' : shape lo hi F Al -> F' ++ Al' ≡ₚ F ++ Al -> StronglySorted (fun b c => b.1 < c.1) F' -> shape lo hi F' Al'.
Proof.
  intros [H1 H2 H3 H4] Hp Hs. split; [done|by eapply disjoint_perm| |].
  - intros b Hb. apply H3. by rewrite <- Hp.
  - by rewrite (total_perm _ _ Hp).
Qed.

(** A block returns to the free list. *)
Lemma shape_insert lo hi F1 F2 b Al Al' : shape lo hi (F1 ++ F2) Al -> Al ≡ₚ b :: Al' ->
  (forall c, c ∈ F1 -> c.1 < b.1) -> (forall c, c ∈ F2 -> b.1 < c.1) -> shape lo hi (F1 ++ b :: F2) Al'.
Proof.
  intros H Hp H1 H2. eapply shape_perm; [exact H| |apply sorted_mid; [apply (sh_sorted _ _ _ _ H)|done|done]].
  rewrite Hp. rewrite <- !app_assoc. simpl. apply Permutation_app_head, Permutation_middle.
Qed.

(** Two blocks that touch become one. *)
Lemma shape_join lo hi F1 b c F2 Al : shape lo hi (F1 ++ b :: c :: F2) Al -> ends b = c.1 -> shape lo hi (F1 ++ (b.1, b.2 + c.2) :: F2) Al.
Proof.
  intros [Hs Hd Hb Ht] E. set (rest := F1 ++ F2 ++ Al).
  assert (Hp : (F1 ++ b :: c :: F2) ++ Al ≡ₚ b :: c :: rest) by (unfold rest; rewrite <- app_assoc; simpl; by rewrite <- !Permutation_middle).
  assert (Hp' : (F1 ++ (b.1, b.2 + c.2) :: F2) ++ Al ≡ₚ (b.1, b.2 + c.2) :: rest) by (unfold rest; rewrite <- app_assoc; simpl; by rewrite <- !Permutation_middle).
  assert (Hin : forall d, d ∈ b :: c :: rest -> lo <= d.1 /\ 1 <= d.2 /\ ends d <= hi) by (intros d Hd'; apply Hb; by rewrite Hp).
  destruct (Hin b ltac:(left)) as (Hb1 & Hb2 & Hb3). destruct (Hin c ltac:(right; left)) as (Hc1 & Hc2 & Hc3).
  assert (Hsame : ends (b.1, b.2 + c.2) = ends c) by (unfold ends, HDR in *; cbn [fst snd]; lia).
  split.
  - apply sorted_del in Hs as (Hs & H1 & H2). change (c :: F2) with ([c] ++ F2) in Hs. rewrite app_assoc in Hs.
    apply sorted_mid; [|done|intros d Hd'; apply H2; by right]. rewrite <- app_assoc in Hs. by apply sorted_del in Hs as (Hs & _).
  - eapply disjoint_perm; [symmetry; exact Hp'|]. apply disjoint_join; [by eapply disjoint_perm|done|lia|lia|].
    intros d Hd'. apply Hin. by do 2 right.
  - intros d Hd'. rewrite Hp' in Hd'. apply elem_of_cons in Hd' as [->|Hd']; [|apply Hin; by do 2 right]. rewrite Hsame. cbn [fst snd]. lia.
  - rewrite (total_perm _ _ Hp'). rewrite (total_perm _ _ Hp) in Ht. cbn [total foldr fst snd] in *. lia.
Qed.

(** ** The heap *)

Section Heap.
Context (base lo : Z) (Hbase : 0 < base) (Hlo : base + HDR <= lo).

Record heap_ok (s : heap) (F Al : list blk) : Prop := {
  h_ring : seg s base F.*1 base;
  h_shape : shape lo (brk s) F Al;
  h_apart : apart F;
  h_size b : b ∈ F ++ Al -> hsize s b.1 = b.2;
  h_base : hsize s base = 0;
  h_freep : freep s ∈ base :: F.*1;
  h_brk : brk s <= 2 ^ 36
}.

(** The program may write anything that is not a header. *)
Lemma heap_ok_frame s s' F Al : heap_ok s F Al ->
  (forall x, x ∈ base :: (F ++ Al).*1 -> hptr s' x = hptr s x /\ hsize s' x = hsize s x) -> freep s' = freep s -> brk s' = brk s ->
  heap_ok s' F Al.
Proof using Type.
  clear Hbase Hlo. intros H Hx Ef Eb. split; rewrite ?Ef, ?Eb; try apply H.
  - eapply seg_frame; [|apply (h_ring _ _ _ H)]. intros x Hin. apply Hx. rewrite fmap_app. apply elem_of_cons in Hin as [->|Hin]; [left|right; apply elem_of_app; by left].
  - intros b Hb. destruct (Hx b.1) as [_ ->]; [right; by apply list_elem_of_fmap_2|]. by apply (h_size _ _ _ H).
  - destruct (Hx base) as [_ ->]; [left|]. apply (h_base _ _ _ H).
Qed.

Lemma fst_in (l : list blk) x : x ∈ l.*1 -> exists b, b ∈ l /\ b.1 = x.
Proof using Type. clear Hbase Hlo. intros (b & -> & Hb)%list_elem_of_fmap. by exists b. Qed.

Lemma uring_nodup s F Al : heap_ok s F Al -> NoDup (base :: F.*1).
Proof using Hlo.
  intros H. pose proof (h_shape _ _ _ H) as Hsh. apply list.NoDup_cons. split.
  - intros (b & Hb & E)%fst_in. destruct (sh_blk _ _ _ _ Hsh b) as (H1 & _); [apply elem_of_app; by left|]. unfold HDR in *. lia.
  - pose proof (sh_sorted _ _ _ _ Hsh) as Hs. clear H Hsh. induction Hs as [|b F Hs IH Hall]; [constructor|]. cbn [fmap list_fmap]. apply list.NoDup_cons.
    split; [|done]. intros (c & Hc & E)%fst_in. rewrite list.Forall_forall in Hall. specialize (Hall c Hc). simpl in Hall. lia.
Qed.

(** Where the ring goes on before the blocks of the list. *)
Definition nxt (l : list blk) : Z := match l with [] => base | c :: _ => c.1 end.

(** ** Finding the place of a block *)

Section Find.
Context (s : heap) (bp : Z) (F1 F2 : list blk).
Context (Hring : seg s base (F1 ++ F2).*1 base) (Hs : StronglySorted (fun b c => b.1 < c.1) (F1 ++ F2)).
Context (H1 : forall b, b ∈ F1 -> base < b.1 < bp) (H2 : forall b, b ∈ F2 -> bp < b.1) (Hb : base < bp).

Lemma ring_low : seg s base F1.*1 (nxt F2) /\ match F2 with [] => True | c :: r => seg s c.1 r.*1 base end.
Proof using Hring. clear Hbase Hlo Hs H1 H2 Hb. rewrite fmap_app in Hring. destruct F2 as [|c r]; cbn [fmap list_fmap nxt] in *; [by rewrite app_nil_r in Hring|]. by apply seg_app in Hring. Qed.

Lemma below_next m1 x m2 : base :: F1.*1 = m1 ++ x :: m2 -> x < bp /\ base <= x /\ (forall y m, m2 = y :: m -> x < y < bp /\ hptr s x = y).
Proof using Hring Hs H1 Hb.
  intros E. destruct ring_low as [Hseg _].
  assert (Hx : x ∈ base :: F1.*1) by (rewrite E; apply elem_of_app; right; left).
  assert (Hr : base <= x < bp).
  { apply elem_of_cons in Hx as [->|(b & Hin & <-)%fst_in]; [lia|]. specialize (H1 b Hin). lia. }
  split_and!; [lia|lia|]. intros y m ->. assert (Hy : y ∈ F1.*1).
  { destruct m1 as [|a m1]; injection E as <- E; rewrite E; [left|apply elem_of_app; right; right; left]. }
  assert (Hlt : x < y).
  { destruct m1 as [|a m1]; injection E as <- E; [apply fst_in in Hy as (b & Hin & <-); specialize (H1 b Hin); lia|].
    clear -E Hs. revert m1 E. induction F1 as [|b F IH]; intros m1 E; [by destruct m1|]. cbn [app] in Hs. inversion Hs as [|? ? Hs' Hall]; subst.
    destruct m1 as [|a m1]; injection E as E1 E2.
    - rewrite list.Forall_forall in Hall. assert (Hy : y ∈ F.*1) by (change (F.*1 = y :: m) in E2; rewrite E2; left). apply fst_in in Hy as (c & Hc & <-). rewrite <- E1. apply (Hall c). apply elem_of_app. by left.
    - by eapply IH. }
  apply fst_in in Hy as (b & Hin & Eb). specialize (H1 b Hin). split; [lia|].
  destruct m1 as [|a m1]; injection E as <- E; rewrite E in Hseg; [apply Hseg|]. apply seg_app in Hseg as [_ Hseg]. apply Hseg.
Qed.

Lemma find_low m2 : forall m1 x fuel, base :: F1.*1 = m1 ++ x :: m2 -> (length m2 < fuel)%nat -> free_find fuel s bp x = Some (lastn base F1.*1).
Proof using Hring Hs H1 H2 Hb.
  induction m2 as [|y m2 IH]; intros m1 x fuel E Hf; (destruct fuel as [|fuel]; [lia|]); destruct (below_next _ _ _ E) as (Hx & Hbx & Hnext); cbn [free_find].
  - assert (Ex : x = lastn base F1.*1) by (destruct m1 as [|a m1]; injection E as <- ->; [done|by rewrite lastn_snoc]).
    destruct ring_low as [Hseg _]. apply seg_last in Hseg. rewrite <- Ex in Hseg. rewrite Hseg. destruct F2 as [|c r] eqn:E2; cbn [nxt].
    + rewrite (proj2 (Z.ltb_lt x bp)), (proj2 (Z.ltb_ge bp base)), (proj2 (Z.leb_le base x)) by lia. cbn [andb orb]. by rewrite Ex.
    + specialize (H2 c ltac:(left)). rewrite (proj2 (Z.ltb_lt x bp)), (proj2 (Z.ltb_lt bp c.1)) by lia. cbn [andb]. by rewrite Ex.
  - destruct (Hnext y m2 eq_refl) as [Hy ->]. rewrite (proj2 (Z.ltb_ge bp y)), (proj2 (Z.leb_gt y x)) by lia. rewrite andb_false_r. cbn [andb].
    apply (IH (m1 ++ [x])); [by rewrite <- app_assoc|simpl in Hf; lia].
Qed.

Lemma find_high m2 : forall m1 x fuel, F2.*1 = m1 ++ x :: m2 -> (length m2 + length F1 + 1 < fuel)%nat -> free_find fuel s bp x = Some (lastn base F1.*1).
Proof using Hring Hs H1 H2 Hb.
  induction m2 as [|y m2 IH]; intros m1 x fuel E Hf; (destruct fuel as [|fuel]; [lia|]); cbn [free_find].
  - assert (Hx : bp < x) by (assert (Hin : x ∈ F2.*1) by (rewrite E; apply elem_of_app; right; left); apply fst_in in Hin as (b & Hin & <-); by apply H2).
    assert (Ep : hptr s x = base).
    { rewrite fmap_app, E, app_assoc in Hring. by apply seg_app in Hring as [_ Hring]. }
    rewrite Ep, (proj2 (Z.ltb_ge x bp)), (proj2 (Z.ltb_ge bp base)) by lia. cbn [andb orb]. rewrite andb_false_r.
    apply (find_low F1.*1 []); [done|rewrite length_fmap; simpl in Hf; lia].
  - assert (Hin : forall z, z ∈ x :: y :: m2 -> bp < z).
    { intros z Hz. assert (Hz' : z ∈ F2.*1) by (rewrite E; apply elem_of_app; by right). apply fst_in in Hz' as (b & Hb' & <-). by apply H2. }
    assert (Ep : hptr s x = y) by (rewrite fmap_app, E, app_assoc in Hring; apply seg_app in Hring as [_ Hring]; apply Hring).
    assert (Hlt : x < y).
    { assert (Hs2 : StronglySorted (fun b c => b.1 < c.1) F2) by (clear -Hs; induction F1 as [|b F IH]; [done|]; inversion Hs; subst; by apply IH).
      clear -Hs2 E. revert m1 E. induction F2 as [|b F IH]; intros m1 E; [by destruct m1|]. inversion Hs2 as [|? ? Hs' Hall]; subst.
      destruct m1 as [|a m1]; injection E as E1 E2; [|by eapply IH]. rewrite list.Forall_forall in Hall.
      assert (Hy : y ∈ F.*1) by (change (F.*1 = y :: m2) in E2; rewrite E2; left). apply fst_in in Hy as (c & Hc & <-). rewrite <- E1. by apply (Hall c). }
    pose proof (Hin x ltac:(left)). rewrite Ep, (proj2 (Z.ltb_ge x bp)), (proj2 (Z.leb_gt y x)) by lia. cbn [andb].
    apply (IH (m1 ++ [x])); [by rewrite E, <- app_assoc|simpl in Hf; lia].
Qed.

Lemma find_run x fuel : x ∈ base :: (F1 ++ F2).*1 -> (length F1 + length F2 + 1 < fuel)%nat -> free_find fuel s bp x = Some (lastn base F1.*1).
Proof using Hring Hs H1 H2 Hb.
  intros Hx Hf. rewrite fmap_app in Hx. change (base :: F1.*1 ++ F2.*1) with ((base :: F1.*1) ++ F2.*1) in Hx. apply elem_of_app in Hx as [Hx|Hx].
  - apply list_elem_of_split in Hx as (m1 & m2 & E). eapply find_low; [exact E|]. apply (f_equal length) in E. rewrite length_app in E. simpl in E. rewrite length_fmap in E. lia.
  - apply list_elem_of_split in Hx as (m1 & m2 & E). eapply find_high; [exact E|]. apply (f_equal length) in E. rewrite length_app in E. simpl in E. rewrite length_fmap in E. lia.
Qed.
End Find.

(** ** Linking the block *)

Definition tail_ok (s : heap) (l : list blk) : Prop := match l with [] => True | c :: r => seg s c.1 r.*1 base end.

Lemma ring_join s a l G : seg s a l (nxt G) -> tail_ok s G -> seg s a (l ++ G.*1) base.
Proof using Type. clear Hbase Hlo. destruct G as [|c r]; cbn [nxt tail_ok]; intros H1 H2; [by rewrite app_nil_r|]. by apply seg_app. Qed.

Lemma tail_frame s s' l : (forall x, x ∈ l.*1 -> hptr s' x = hptr s x) -> tail_ok s l -> tail_ok s' l.
Proof using Type. clear Hbase Hlo. destruct l as [|c r]; [done|]. cbn [tail_ok]. intros Hx. by apply seg_frame. Qed.

Lemma shape_size hi F Al b : shape lo hi F Al -> hi <= 2 ^ 36 -> b ∈ F ++ Al -> 1 <= b.2 < 2 ^ 32 /\ lo <= b.1.
Proof using Hbase Hlo. intros H Hhi Hb. destruct (sh_blk _ _ _ _ H b Hb) as (H1 & H2 & H3). unfold ends, HDR in *. lia. Qed.

(** The join with the block above. *)
Definition link_up (s : heap) (bp q : Z) : heap :=
  if bp + HDR * hsize s bp =? q then set_ptr (set_size s bp (hsize s bp + hsize s q)) bp (hptr s q) else set_ptr s bp q.

Lemma link_up_run s hi F1 F2 bp n Al : shape lo hi (F1 ++ (bp, n) :: F2) Al -> hi <= 2 ^ 36 -> apart F2 -> tail_ok s F2 ->
  hsize s bp = n -> (forall b, b ∈ F2 -> hsize s b.1 = b.2) ->
  exists n' F2', let s1 := link_up s bp (nxt F2) in
    hsize s1 bp = n' /\ hptr s1 bp = nxt F2' /\ tail_ok s1 F2' /\ (forall x, x <> bp -> hptr s1 x = hptr s x /\ hsize s1 x = hsize s x) /\
    freep s1 = freep s /\ brk s1 = brk s /\ shape lo hi (F1 ++ (bp, n') :: F2') Al /\ apart ((bp, n') :: F2') /\ n <= n' /\
    (forall b, b ∈ F2' -> b ∈ F2) /\ (length F2' <= length F2)%nat.
Proof using Hbase Hlo.
  intros Hsh Hhi Hap Ht Hn Hsz. unfold link_up. rewrite Hn. pose proof (sorted_del _ _ _ (sh_sorted _ _ _ _ Hsh)) as (_ & _ & Hgt).
  assert (Hfr : forall l s0, (forall b, b ∈ l -> b ∈ F2) -> (forall x, x <> bp -> hptr s0 x = hptr s x) -> tail_ok s l -> tail_ok s0 l).
  { intros l s0 Hl Hx. apply tail_frame. intros x (b & Hb & <-)%fst_in. apply Hx. specialize (Hgt b (Hl b Hb)). simpl in Hgt. lia. }
  destruct F2 as [|[q nq] r]; cbn [nxt fst].
  - destruct (sh_blk _ _ _ _ Hsh (bp, n)) as (Hlt1 & Hlt2 & _); [apply elem_of_app; left; apply elem_of_app; right; left|]. cbn [fst snd] in Hlt1, Hlt2.
    rewrite (proj2 (Z.eqb_neq _ _)) by (unfold HDR in *; lia). exists n, []. cbn [nxt set_ptr hptr hsize freep brk].
    split_and!; try done; [apply put_eq|intros x Hx; by rewrite put_ne].
  - destruct (Z.eqb_spec (bp + HDR * n) q) as [E|E].
    + assert (Eq : ends (bp, n) = (q, nq).1) by exact E. pose proof (shape_join _ _ _ _ _ _ _ Hsh Eq) as Hsh'. cbn [fst snd] in Hsh'.
      assert (Hr : 1 <= n + nq < 2 ^ 32) by (apply (shape_size hi _ _ (bp, n + nq) Hsh' Hhi); apply elem_of_app; left; apply elem_of_app; right; left).
      specialize (Hsz (q, nq) ltac:(left)) as Hq. cbn [fst snd] in Hq. exists (n + nq), r. rewrite Hq.
      assert (Hne : q <> bp) by (specialize (Hgt (q, nq) ltac:(left)); simpl in Hgt; lia).
      destruct (sh_blk _ _ _ _ Hsh (q, nq)) as (_ & Hnq & _); [apply elem_of_app; left; apply elem_of_app; right; right; left|]. cbn [snd] in Hnq.
      assert (Hq' : hptr s q = nxt r) by (destruct r as [|c r]; cbn [tail_ok fmap list_fmap seg nxt fst] in Ht |- *; [done|apply Ht]).
      cbn [set_ptr set_size hptr hsize freep brk]. rewrite !put_eq. split_and!; try done.
      * apply wrap_small; lia.
      * apply Hfr; [intros b Hb; by right|intros x Hx; by apply put_ne|]. destruct r as [|c r]; [done|]. apply Ht.
      * intros x Hx. by rewrite !put_ne.
      * eapply (apart_end (q, nq)); [|done]. unfold ends, HDR in *. cbn [fst snd] in *. lia.
      * lia.
      * intros b Hb. by right.
      * simpl. lia.
    + exists n, ((q, nq) :: r). cbn [set_ptr hptr hsize freep brk nxt fst]. rewrite put_eq. split_and!; try done.
      * apply Hfr; [done|intros x Hx; by apply put_ne|done].
      * intros x Hx. by rewrite put_ne.
Qed.

Lemma shape_addr hi F1 c F2 Al b : shape lo hi (F1 ++ c :: F2) Al -> b ∈ F1 ++ F2 ++ Al -> b.1 <> c.1.
Proof using Type.
  clear Hbase Hlo. intros H Hb. assert (Hp : (F1 ++ c :: F2) ++ Al ≡ₚ c :: F1 ++ F2 ++ Al) by (rewrite <- app_assoc; simpl; by rewrite <- Permutation_middle).
  pose proof (disjoint_perm _ _ Hp (sh_disj _ _ _ _ H)) as [Hd _]. specialize (Hd b Hb).
  destruct (sh_blk _ _ _ _ H c) as (_ & Hc & _); [rewrite Hp; left|]. destruct (sh_blk _ _ _ _ H b) as (_ & Hb' & _); [rewrite Hp; by right|].
  unfold sep, ends, HDR in Hd. lia.
Qed.

(** The join with the block below; [s1] is the heap in which the block and the part of the
    ring above it are in order. *)
Definition link_down (s : heap) (bp p : Z) : heap :=
  if p + HDR * hsize s p =? bp then set_ptr (set_size s p (hsize s p + hsize s bp)) p (hptr s bp) else set_ptr s p bp.

Section Down.
Context (s1 : heap) (z : Z) (F2 : list blk) (bp n : Z) (Al : list blk).
Context (Hbrk : brk s1 <= 2 ^ 36) (Ha2 : apart ((bp, n) :: F2)) (Hbp : hptr s1 bp = nxt F2) (Ht : tail_ok s1 F2) (Hb0 : hsize s1 base = 0).

(** The last node before the block is not one of those above it. *)
Lemma last_low F1 : shape lo (brk s1) (F1 ++ (bp, n) :: F2) Al -> let p := lastn base F1.*1 in
  p < bp /\ forall b, b ∈ F2 -> b.1 <> p.
Proof using Hlo.
  intros Hsh p. destruct (sh_blk _ _ _ _ Hsh (bp, n)) as (Hlt & _); [apply elem_of_app; left; apply elem_of_app; right; left|].
  pose proof (sorted_del _ _ _ (sh_sorted _ _ _ _ Hsh)) as (_ & Hblw & Habv). cbn [fst] in *.
  assert (Hp : p < bp).
  { pose proof (lastn_in base F1.*1) as Hp. fold p in Hp. apply elem_of_cons in Hp as [->|(c & Hc & <-)%fst_in]; [unfold HDR in *; lia|]. by apply Hblw. }
  split; [done|]. intros b Hb. specialize (Habv b Hb). lia.
Qed.

Lemma link_plain F1 : let p := lastn base F1.*1 in
  shape lo (brk s1) (F1 ++ (bp, n) :: F2) Al -> apart F1 -> seg s1 base F1.*1 z -> NoDup (base :: F1.*1) ->
  (forall b, b ∈ (F1 ++ (bp, n) :: F2) ++ Al -> hsize s1 b.1 = b.2) -> p + HDR * hsize s1 p <> bp ->
  heap_ok (set_freep (set_ptr s1 p bp) p) (F1 ++ (bp, n) :: F2) Al.
Proof using Hlo Hbrk Ha2 Hbp Ht Hb0.
  intros p Hsh Ha1 Hseg Hnd Hsz Hnj. destruct (last_low F1 Hsh) as [Hp Hab]. fold p in Hp, Hab.
  split; cbn [set_freep set_ptr hptr hsize freep brk]; try done.
  - rewrite fmap_app. cbn [fmap list_fmap fst]. apply seg_app. split; [eapply seg_frame; [|by eapply (seg_set_last s1)]; done|].
    apply (ring_join _ bp []); [cbn [seg set_freep set_ptr hptr]; rewrite put_ne by lia; done|].
    eapply tail_frame; [|exact Ht]. intros x (b & Hb & <-)%fst_in. apply put_ne. by apply Hab.
  - apply apart_app. split; [|done]. destruct F1 as [|c F1' _] using rev_ind; [done|]. rewrite <- app_assoc. apply apart_app. split; [done|]. split; [|done].
    assert (Ep : p = c.1) by (unfold p; rewrite fmap_app; apply lastn_snoc). rewrite Ep, (Hsz c) in Hnj; [done|].
    rewrite <- !app_assoc. apply elem_of_app. right. left.
  - rewrite fmap_app. pose proof (lastn_in base F1.*1) as Hin. fold p in Hin. apply elem_of_cons in Hin as [->|Hin]; [left|right; apply elem_of_app; by left].
Qed.

Lemma link_join F1 p m : shape lo (brk s1) ((F1 ++ [(p, m)]) ++ (bp, n) :: F2) Al -> apart (F1 ++ [(p, m)]) -> seg s1 base (F1 ++ [(p, m)]).*1 z ->
  NoDup (base :: (F1 ++ [(p, m)]).*1) -> (forall b, b ∈ ((F1 ++ [(p, m)]) ++ (bp, n) :: F2) ++ Al -> hsize s1 b.1 = b.2) ->
  p + HDR * m = bp ->
  heap_ok (set_freep (set_ptr (set_size s1 p (m + n)) p (nxt F2)) p) (F1 ++ (p, m + n) :: F2) Al.
Proof using Hbase Hlo Hbrk Ha2 Hbp Ht Hb0.
  intros Hsh Ha1 Hseg Hnd Hsz Hj. pose proof (last_low _ Hsh) as [Hp Hab]. rewrite fmap_app in Hp, Hab. cbn [fmap list_fmap fst] in Hp, Hab. rewrite lastn_snoc in Hp, Hab.
  rewrite <- app_assoc in Hsh. pose proof (shape_join _ _ _ _ _ _ _ Hsh Hj) as Hsh'. cbn [fst snd] in Hsh'.
  assert (Hr : 1 <= m + n < 2 ^ 32) by (apply (shape_size _ _ _ (p, m + n) Hsh' Hbrk); apply elem_of_app; left; apply elem_of_app; right; left).
  assert (Hpl : lo <= p) by (apply (sh_blk _ _ _ _ Hsh' (p, m + n)); apply elem_of_app; left; apply elem_of_app; right; left).
  set (s' := set_freep _ _). assert (Hq : forall x, x <> p -> hptr s' x = hptr s1 x /\ hsize s' x = hsize s1 x) by (intros x Hx; unfold s'; cbn; by rewrite !put_ne).
  split; try done.
  - replace ((F1 ++ (p, m + n) :: F2).*1) with ((F1 ++ [(p, m)]).*1 ++ F2.*1) by (rewrite <- fmap_app, <- app_assoc, !fmap_app; done).
    apply ring_join; [|eapply tail_frame; [|exact Ht]; intros x (b & Hb & <-)%fst_in; apply Hq; by apply Hab].
    pose proof (seg_set_last s1 base (F1 ++ [(p, m)]).*1 z (nxt F2) Hnd Hseg) as G. rewrite fmap_app in G at 1. cbn [fmap list_fmap fst] in G. rewrite lastn_snoc in G.
    eapply seg_frame; [|exact G]. done.
  - apply apart_app. apply apart_app in Ha1 as [Ha1 _]. split; [by eapply (apart_start _ (p, m))|]. eapply apart_end; [|exact Ha2]. unfold ends, HDR in *. cbn [fst snd]. lia.
  - intros b Hb. destruct (decide (b.1 = p)) as [E|Hne].
    + assert (b = (p, m + n)) as ->.
      { rewrite <- app_assoc in Hb. apply elem_of_app in Hb as [Hb|[->|Hb]%elem_of_cons]; [|done|]; exfalso; apply (shape_addr _ _ _ _ _ b Hsh'); try done; apply elem_of_app; [by left|by right]. }
      unfold s'. cbn [fst snd set_freep set_ptr set_size hsize]. rewrite put_eq. apply wrap_small. lia.
    + destruct (Hq b.1 Hne) as [_ ->]. apply Hsz. rewrite <- !app_assoc in *. apply elem_of_app. apply elem_of_app in Hb as [Hb|[->|Hb]%elem_of_cons]; [by left|done|].
      right. right. by right.
  - destruct (Hq base) as [_ ->]; [unfold HDR in *; lia|done].
  - unfold s'. cbn [set_freep freep]. rewrite fmap_app. right. apply elem_of_app. right. left.
Qed.
End Down.

(** [free] returns the block to the free list, joined with its neighbours. *)
Lemma free_run fuel s F Al bp n Al' : heap_ok s F Al -> Al ≡ₚ (bp, n) :: Al' -> (length F + 1 < fuel)%nat ->
  exists s' F', free fuel s (bp + HDR) = Some s' /\ heap_ok s' F' Al' /\ brk s' = brk s /\ (exists b, b ∈ F' /\ n <= b.2) /\
    (length F' <= S (length F))%nat.
Proof using Hbase Hlo.
  intros H Hp Hfuel. pose proof (h_shape _ _ _ H) as Hsh.
  assert (Hpm : F ++ Al ≡ₚ (bp, n) :: F ++ Al') by (rewrite Hp; by rewrite <- Permutation_middle).
  assert (HblkF : forall b, b ∈ (bp, n) :: F ++ Al' -> lo <= b.1 /\ 1 <= b.2 /\ hsize s b.1 = b.2).
  { intros b Hb. rewrite <- Hpm in Hb. destruct (sh_blk _ _ _ _ Hsh b Hb) as (? & ? & _). split_and!; [done|done|by apply (h_size _ _ _ H)]. }
  destruct (HblkF (bp, n) ltac:(left)) as (Hlt & Hn1 & Hn). cbn [fst snd] in *.
  destruct (sorted_split F bp) as (F1 & F2 & -> & Hb1 & Hb2); [apply (sh_sorted _ _ _ _ Hsh)| |].
  { intros b Hb E. pose proof (disjoint_perm _ _ Hpm (sh_disj _ _ _ _ Hsh)) as [Hd _]. specialize (Hd b ltac:(apply elem_of_app; by left)).
    destruct (HblkF b ltac:(right; apply elem_of_app; by left)) as (_ & Hb' & _). unfold sep, ends, HDR in Hd. cbn [fst snd] in Hd. lia. }
  assert (Hb1' : forall b, b ∈ F1 -> base < b.1 < bp).
  { intros b Hb. specialize (Hb1 b Hb). destruct (HblkF b) as (Hl & _); [right; rewrite <- app_assoc; apply elem_of_app; by left|]. unfold HDR in *. lia. }
  assert (Hbb : base < bp) by (unfold HDR in *; lia). rewrite length_app in Hfuel.
  pose proof (find_run s bp F1 F2 (h_ring _ _ _ H) (sh_sorted _ _ _ _ Hsh) Hb1' Hb2 Hbb (freep s) fuel (h_freep _ _ _ H) ltac:(lia)) as Ef.
  destruct (ring_low s F1 F2 (h_ring _ _ _ H)) as [Hseg Htl].
  pose proof (shape_insert _ _ _ _ _ _ _ Hsh Hp Hb1 Hb2) as Hsh1.
  assert (Ha : apart F1 /\ apart F2) by (pose proof (h_apart _ _ _ H) as Ha; by apply apart_split).
  destruct (link_up_run s (brk s) F1 F2 bp n Al' Hsh1 (h_brk _ _ _ H) (proj2 Ha) Htl Hn) as (n' & F2' & U1 & U2 & U3 & U4 & U5 & U6 & U7 & U8 & U9 & U10 & U11).
  { intros b Hb. apply HblkF. right. apply elem_of_app. left. apply elem_of_app. by right. }
  set (s1 := link_up s bp (nxt F2)) in *. set (p := lastn base F1.*1) in *.
  assert (Hseg1 : seg s1 base F1.*1 (nxt F2)).
  { eapply seg_frame; [|exact Hseg]. intros x Hx. apply U4. apply elem_of_cons in Hx as [->|(b & Hb & <-)%fst_in]; [lia|]. specialize (Hb1 b Hb). lia. }
  assert (Hnd : NoDup (base :: F1.*1)).
  { pose proof (uring_nodup _ _ _ H) as Hnd. rewrite fmap_app in Hnd. change (base :: F1.*1 ++ F2.*1) with ((base :: F1.*1) ++ F2.*1) in Hnd. by apply list.NoDup_app in Hnd as (Hnd & _). }
  assert (Hs1 : forall b, b ∈ (F1 ++ (bp, n') :: F2') ++ Al' -> hsize s1 b.1 = b.2).
  { intros b Hb. destruct (decide (b = (bp, n'))) as [->|Hne]; [done|]. assert (Hb' : b ∈ F1 ++ F2' ++ Al').
    { rewrite <- app_assoc in Hb. apply elem_of_app in Hb as [Hb|[->|Hb]%elem_of_cons]; [apply elem_of_app; by left|done|apply elem_of_app; by right]. }
    pose proof (shape_addr _ _ _ _ _ b U7 Hb') as Hd. destruct (U4 b.1 Hd) as [_ ->]. apply HblkF. right. rewrite <- app_assoc.
    apply elem_of_app in Hb' as [?|[?|?]%elem_of_app]; apply elem_of_app; [by left|right; apply elem_of_app; left; by apply U10|right; apply elem_of_app; by right]. }
  assert (Hb0 : hsize s1 base = 0) by (destruct (U4 base ltac:(lia)) as [_ ->]; apply (h_base _ _ _ H)).
  pose proof (seg_last _ _ _ _ Hseg) as Ehp. fold p in Ehp. rewrite <- U6 in U7. pose proof (h_brk _ _ _ H) as Hbrk. rewrite <- U6 in Hbrk.
  assert (Efree : free fuel s (bp + HDR) = Some (set_freep (link_down s1 bp p) p)).
  { unfold free. replace (bp + HDR - HDR) with bp by lia. rewrite Ef. cbn [mbind option_bind]. fold p. unfold free_link. rewrite Ehp. done. }
  rewrite Efree. destruct (Z.eq_dec (p + HDR * hsize s1 p) bp) as [E|E].
  - destruct F1 as [|[a m] F1' _] using rev_ind; [exfalso; change p with base in E; rewrite Hb0 in E; lia|].
    assert (Ep : p = a) by (unfold p; rewrite fmap_app; apply lastn_snoc). assert (Hm : hsize s1 a = m) by (apply (Hs1 (a, m)); rewrite <- !app_assoc; apply elem_of_app; right; left).
    pose proof (link_join s1 (nxt F2) F2' bp n' Al' Hbrk U8 U2 U3 Hb0 F1' a m U7 (proj1 Ha) Hseg1 Hnd Hs1) as Hok.
    eexists _, (F1' ++ (a, m + n') :: F2'). split; [done|]. unfold link_down. rewrite (proj2 (Z.eqb_eq _ _) E), Ep, Hm, U1, U2. rewrite Ep, Hm in E.
    destruct (sh_blk _ _ _ _ U7 (a, m)) as (_ & Hm1 & _); [rewrite <- !app_assoc; apply elem_of_app; right; left|]. cbn [snd] in Hm1.
    split_and!; [by apply Hok|done|exists (a, m + n'); split; [apply elem_of_app; right; left|simpl; lia]|rewrite !length_app; simpl; lia].
  - pose proof (link_plain s1 (nxt F2) F2' bp n' Al' Hbrk U8 U2 U3 Hb0 F1 U7 (proj1 Ha) Hseg1 Hnd Hs1 E) as Hok.
    eexists _, (F1 ++ (bp, n') :: F2'). split; [done|]. unfold link_down. rewrite (proj2 (Z.eqb_neq _ _) E).
    split_and!; [exact Hok|done|exists (bp, n'); split; [apply elem_of_app; right; left|done]|rewrite !length_app; simpl; lia].
Qed.

(** ** Taking a block *)

Lemma shape_before hi F1 b F2 Al : shape lo hi (F1 ++ b :: F2) Al -> (forall d, d ∈ F1 -> ends d <= b.1) /\ (forall c, c ∈ F2 -> ends b <= c.1).
Proof using Type.
  clear Hbase Hlo. intros H. pose proof (sorted_del _ _ _ (sh_sorted _ _ _ _ H)) as (_ & H1 & H2).
  assert (Hp : (F1 ++ b :: F2) ++ Al ≡ₚ b :: F1 ++ F2 ++ Al) by (rewrite <- app_assoc; simpl; by rewrite <- Permutation_middle).
  pose proof (disjoint_perm _ _ Hp (sh_disj _ _ _ _ H)) as [Hd _].
  assert (Hpos : forall d, d ∈ b :: F1 ++ F2 ++ Al -> 1 <= d.2) by (intros d Hin; rewrite <- Hp in Hin; by apply (sh_blk _ _ _ _ H)).
  pose proof (Hpos b ltac:(left)) as Hb. split.
  - intros d Hin. assert (Hin' : d ∈ F1 ++ F2 ++ Al) by (apply elem_of_app; by left). specialize (Hd d Hin'). specialize (H1 d Hin). specialize (Hpos d ltac:(by right)).
    unfold sep, ends, HDR in *. lia.
  - intros d Hin. assert (Hin' : d ∈ F1 ++ F2 ++ Al) by (apply elem_of_app; right; apply elem_of_app; by left). specialize (Hd d Hin'). specialize (H2 d Hin). specialize (Hpos d ltac:(by right)).
    unfold sep, ends, HDR in *. lia.
Qed.

Lemma apart_del hi F1 b F2 Al : shape lo hi (F1 ++ b :: F2) Al -> apart (F1 ++ b :: F2) -> apart (F1 ++ F2).
Proof using Type.
  clear Hbase Hlo. intros H Ha. pose proof (shape_before _ _ _ _ _ H) as [H1 _]. pose proof (sorted_del _ _ _ (sh_sorted _ _ _ _ H)) as (_ & _ & H2).
  apply apart_app in Ha as [Ha1 Ha2]. apply apart_split in Ha1 as [Ha1 _]. destruct F2 as [|c r]; [by rewrite app_nil_r|]. destruct Ha2 as [_ Ha2].
  destruct F1 as [|d F1' _] using rev_ind; [done|]. rewrite <- app_assoc. apply apart_app. split; [done|]. split; [|done].
  specialize (H1 d ltac:(apply elem_of_app; right; left)). specialize (H2 c ltac:(left)). lia.
Qed.

Definition took (s : heap) (F1 F2 Al : list blk) (a n m : Z) (res : Z * heap) : Prop :=
  exists F', heap_ok res.2 F' ((res.1 - HDR, m) :: Al) /\ brk res.2 = brk s /\
    a <= res.1 - HDR /\ res.1 + HDR * (m - 1) <= a + HDR * n /\ (length F' <= length F1 + length F2 + 1)%nat.

(** A block of exactly the size asked for leaves the ring. *)
Lemma take_whole s F1 a n F2 Al : heap_ok s (F1 ++ (a, n) :: F2) Al -> took s F1 F2 Al a n n (malloc_take s (lastn base F1.*1) a n).
Proof using Hbase Hlo.
  intros H. pose proof (h_shape _ _ _ H) as Hsh. assert (Hin : (a, n) ∈ (F1 ++ (a, n) :: F2) ++ Al) by (apply elem_of_app; left; apply elem_of_app; right; left).
  pose proof (h_size _ _ _ H (a, n) Hin) as Hn. cbn [fst snd] in Hn. destruct (shape_size _ _ _ _ Hsh (h_brk _ _ _ H) Hin) as [Hr Hla]. cbn [fst snd] in Hr, Hla.
  pose proof (h_ring _ _ _ H) as Hring. rewrite fmap_app in Hring. cbn [fmap list_fmap fst] in Hring. apply seg_app in Hring as [Hs1 Hs2].
  set (prev := lastn base F1.*1). assert (Hprev : prev ∈ base :: F1.*1) by apply lastn_in.
  pose proof (uring_nodup _ _ _ H) as Hnd. rewrite fmap_app in Hnd. cbn [fmap list_fmap fst] in Hnd.
  unfold malloc_take, took. rewrite Hn, Z.eqb_refl. cbn [fst snd].
  exists (F1 ++ F2). replace (a + HDR - HDR) with a by lia.
  assert (Hnd1 : NoDup (base :: F1.*1)) by (change (base :: F1.*1 ++ a :: F2.*1) with ((base :: F1.*1) ++ a :: F2.*1) in Hnd; by apply list.NoDup_app in Hnd as (Hnd & _)).
  assert (Hout : forall x, x ∈ F2.*1 -> x <> prev).
  { intros x Hx ->. change (base :: F1.*1 ++ a :: F2.*1) with ((base :: F1.*1) ++ a :: F2.*1) in Hnd. apply list.NoDup_app in Hnd as (_ & Hd & _). apply (Hd prev Hprev). by right. }
  assert (Hp : (F1 ++ F2) ++ (a, n) :: Al ≡ₚ (F1 ++ (a, n) :: F2) ++ Al) by (rewrite <- !app_assoc; simpl; apply Permutation_app_head; symmetry; apply Permutation_middle).
  split_and!; [|done|lia|unfold HDR; lia|rewrite length_app; lia]. split; cbn [set_freep set_ptr hptr hsize freep brk].
  - rewrite fmap_app. assert (Hnx : hptr s a = nxt F2 /\ tail_ok s F2) by (destruct F2 as [|c r]; cbn [fmap list_fmap seg nxt tail_ok] in *; tauto).
    destruct Hnx as [-> Htl]. apply ring_join; [eapply seg_frame; [|by eapply (seg_set_last s)]; done|].
    eapply tail_frame; [|exact Htl]. intros x Hx. apply put_ne. by apply Hout.
  - eapply shape_perm; [exact Hsh|exact Hp|]. pose proof (sorted_del _ _ _ (sh_sorted _ _ _ _ Hsh)) as (? & _). done.
  - by eapply apart_del; [|apply (h_apart _ _ _ H)].
  - intros b Hb. apply (h_size _ _ _ H). by rewrite <- Hp.
  - apply (h_base _ _ _ H).
  - rewrite fmap_app. apply elem_of_cons in Hprev as [->|Hp']; [left|right; apply elem_of_app; by left].
  - apply (h_brk _ _ _ H).
Qed.

(** A larger block gives its tail. *)
Lemma take_split s F1 a n F2 Al m : heap_ok s (F1 ++ (a, n) :: F2) Al -> 1 <= m < n -> took s F1 F2 Al a n m (malloc_take s (lastn base F1.*1) a m).
Proof using Hbase Hlo.
  intros H Hm. pose proof (h_shape _ _ _ H) as Hsh. assert (Hin : (a, n) ∈ (F1 ++ (a, n) :: F2) ++ Al) by (apply elem_of_app; left; apply elem_of_app; right; left).
  pose proof (h_size _ _ _ H (a, n) Hin) as Hn. cbn [fst snd] in Hn. destruct (shape_size _ _ _ _ Hsh (h_brk _ _ _ H) Hin) as [Hr Hla]. cbn [fst snd] in Hr, Hla.
  pose proof (h_ring _ _ _ H) as Hring. rewrite fmap_app in Hring. cbn [fmap list_fmap fst] in Hring. apply seg_app in Hring as [Hs1 Hs2].
  set (prev := lastn base F1.*1). assert (Hprev : prev ∈ base :: F1.*1) by apply lastn_in.
  unfold malloc_take, took. rewrite Hn, (proj2 (Z.eqb_neq n m)) by lia.
  cbn [set_size hsize]. rewrite put_eq, wrap_small by lia. cbn [fst snd]. set (k := n - m). set (c := a + HDR * k).
  assert (Hp : (F1 ++ (a, k) :: F2) ++ (c, m) :: Al ≡ₚ (a, k) :: (c, m) :: F1 ++ F2 ++ Al).
  { rewrite <- !app_assoc. simpl. rewrite <- Permutation_middle. apply Permutation_skip. rewrite (app_assoc F1), (app_assoc F1). symmetry. apply Permutation_middle. }
  assert (Hp0 : (F1 ++ (a, n) :: F2) ++ Al ≡ₚ (a, n) :: F1 ++ F2 ++ Al) by (rewrite <- app_assoc; simpl; by rewrite <- Permutation_middle).
  pose proof (disjoint_perm _ _ Hp0 (sh_disj _ _ _ _ Hsh)) as Hd. apply (disjoint_split a n m) in Hd; [|lia]. fold k c in Hd.
  assert (Hold : forall b, b ∈ F1 ++ F2 ++ Al -> lo <= b.1 /\ 1 <= b.2 /\ ends b <= brk s /\ hsize s b.1 = b.2 /\ b.1 <> a /\ b.1 <> c).
  { intros b Hb. assert (Hb' : b ∈ (F1 ++ (a, n) :: F2) ++ Al) by (rewrite Hp0; by right). destruct (sh_blk _ _ _ _ Hsh b Hb') as (? & ? & ?).
    split_and!; [done|done|done|by apply (h_size _ _ _ H)|by apply (shape_addr _ _ _ _ _ _ Hsh)|]. destruct Hd as (_ & Hd & _). specialize (Hd b Hb).
    unfold sep, ends, HDR in Hd. cbn [fst snd] in Hd. lia. }
  pose proof (sh_blk _ _ _ _ Hsh (a, n) Hin) as (_ & _ & Hend). unfold ends in Hend. cbn [fst snd] in Hend.
  fold c. exists (F1 ++ (a, k) :: F2). replace (c + HDR - HDR) with c by lia.
  split_and!; [|done|unfold c, k, HDR; lia|unfold c, k, HDR; lia|rewrite length_app; simpl; lia]. split; cbn [set_freep set_size hptr hsize freep brk].
  - rewrite fmap_app. cbn [fmap list_fmap fst]. apply seg_app. by split; (eapply seg_frame; [|done]).
  - split.
    + pose proof (sorted_del _ _ _ (sh_sorted _ _ _ _ Hsh)) as (Hs & Hs1' & Hs2'). by apply sorted_mid.
    + eapply disjoint_perm; [symmetry; exact Hp|exact Hd].
    + intros b Hb. rewrite Hp in Hb. apply elem_of_cons in Hb as [->|[->|Hb]%elem_of_cons]; [| |destruct (Hold b Hb) as (? & ? & ? & _); by split_and!];
        unfold ends, HDR, c, k in *; cbn [fst snd]; unfold HDR in *; lia.
    + rewrite (total_perm _ _ Hp). pose proof (sh_total _ _ _ _ Hsh) as Ht. rewrite (total_perm _ _ Hp0) in Ht. cbn [total foldr fst snd] in *. unfold k. lia.
  - apply apart_app. pose proof (h_apart _ _ _ H) as Ha. apply apart_app in Ha as [Ha1 Ha2]. split; [by eapply (apart_start _ (a, n))|].
    destruct F2 as [|d r]; [done|]. destruct Ha2 as [_ Ha2]. split; [|done]. pose proof (shape_before _ _ _ _ _ Hsh) as [_ Hb]. specialize (Hb d ltac:(left)).
    unfold ends, HDR, k in *. cbn [fst snd] in *. lia.
  - intros b Hb. rewrite Hp in Hb. assert (Hca : c <> a) by (unfold c, k, HDR; lia). apply elem_of_cons in Hb as [->|[->|Hb]%elem_of_cons]; cbn [fst snd].
    + rewrite put_ne, put_eq by done. apply wrap_small. unfold k. lia.
    + rewrite put_eq. apply wrap_small. lia.
    + destruct (Hold b Hb) as (_ & _ & _ & ? & ? & ?). rewrite !put_ne by done. done.
  - rewrite !put_ne by (unfold c, k, HDR in *; lia). apply (h_base _ _ _ H).
  - rewrite fmap_app. cbn [fmap list_fmap fst]. apply elem_of_cons in Hprev as [->|Hp']; [left|right; apply elem_of_app; by left].
  - apply (h_brk _ _ _ H).
Qed.

Lemma take_run s F1 a n F2 Al m : heap_ok s (F1 ++ (a, n) :: F2) Al -> 1 <= m <= n -> took s F1 F2 Al a n m (malloc_take s (lastn base F1.*1) a m).
Proof using Hbase Hlo. intros H Hm. destruct (Z.eq_dec m n) as [->|]; [by apply take_whole|apply take_split; [done|lia]]. Qed.

(** ** Walking the ring *)

(** The nodes in the order in which the loop of [malloc] visits them, back to [freep]. *)
Lemma ring_from s F Al : heap_ok s F Al -> exists v, seg s (freep s) (v ++ [freep s]) (hptr s (freep s)) /\ freep s ∉ v /\ v ++ [freep s] ≡ₚ base :: F.*1.
Proof using Hlo.
  intros H. pose proof (h_ring _ _ _ H) as Hr. pose proof (uring_nodup _ _ _ H) as Hnd. set (f := freep s).
  pose proof (h_freep _ _ _ H) as Hf. fold f in Hf. apply list_elem_of_split in Hf as (La & Lb & E). destruct La as [|b La].
  - injection E as Eb E. subst Lb. exists (F.*1). rewrite <- Eb. split_and!; [by apply seg_app|by apply list.NoDup_cons in Hnd as [? _]|].
    by rewrite Permutation_app_comm.
  - injection E as <- E. rewrite E in *. apply seg_app in Hr as [Hr1 Hr2]. exists (Lb ++ base :: La). rewrite <- app_assoc. split_and!.
    + apply seg_app. split; [done|]. by apply seg_app.
    + apply list.NoDup_cons in Hnd as [Hni Hnd]. apply list.NoDup_app in Hnd as (_ & Hd & Hnd). apply list.NoDup_cons in Hnd as [Hni' _].
      rewrite not_elem_of_app, not_elem_of_cons. split_and!; [done|intros Ef; apply Hni; rewrite <- Ef; apply elem_of_app; right; left|].
      intros Hin. apply (Hd f Hin). left.
    + simpl. rewrite <- Permutation_middle. apply Permutation_skip. rewrite (Permutation_app_comm Lb). rewrite <- app_assoc. done.
Qed.

Section Walk.
Context (mem_ok : Z -> Z -> bool) (s : heap) (m : Z).

(** What happens at [freep] when nothing was found. *)
Definition get_more (fuel : nat) : option (Z * heap) :=
  '(p, s) ← morecore mem_ok fuel m s;
  if p =? 0 then Some (0, s) else malloc_loop mem_ok fuel s p (hptr s p) m.

Lemma ring_walk v : forall prevp fuel z, seg s prevp (v ++ [freep s]) z -> freep s ∉ v -> (length v < fuel)%nat ->
  (exists w1 a w2, v ++ [freep s] = w1 ++ a :: w2 /\ m <= hsize s a /\
     malloc_loop mem_ok fuel s prevp (hptr s prevp) m = Some (malloc_take s (lastn prevp w1) a m)) \/
  ((forall a, a ∈ v ++ [freep s] -> hsize s a < m) /\
     malloc_loop mem_ok fuel s prevp (hptr s prevp) m = get_more (fuel - S (length v))).
Proof using Type.
  clear Hbase Hlo. induction v as [|a v IH]; intros prevp fuel z Hseg Hni Hf; (destruct fuel as [|fuel]; [lia|]); destruct Hseg as [Ep Hseg]; rewrite Ep; cbn [malloc_loop].
  - destruct (Z.leb_spec m (hsize s (freep s))) as [Hle|Hgt].
    + left. exists [], (freep s), []. done.
    + right. split; [intros a ->%list_elem_of_singleton; done|]. rewrite Z.eqb_refl. simpl length. by replace (S fuel - 1)%nat with fuel by lia.
  - apply not_elem_of_cons in Hni as [Hne Hni]. destruct (Z.leb_spec m (hsize s a)) as [Hle|Hgt].
    + left. exists [], a, (v ++ [freep s]). done.
    + rewrite (proj2 (Z.eqb_neq a (freep s))) by done. destruct (IH a fuel z Hseg Hni ltac:(simpl in Hf; lia)) as [(w1 & c & w2 & E & Hc & ->)|[Hall ->]].
      * left. exists (a :: w1), c, w2. split_and!; [simpl; by rewrite E|done|done].
      * right. split; [|done]. intros c [->|Hc]%elem_of_cons; [done|by apply Hall].
Qed.
End Walk.

(** A block that is found is a free block, and the node before it is the one in the list. *)
Lemma found_block s F Al w1 a w2 v : heap_ok s F Al -> seg s (freep s) (v ++ [freep s]) (hptr s (freep s)) -> v ++ [freep s] ≡ₚ base :: F.*1 ->
  v ++ [freep s] = w1 ++ a :: w2 -> 1 <= hsize s a ->
  exists F1 n F2, F = F1 ++ (a, n) :: F2 /\ lastn (freep s) w1 = lastn base F1.*1 /\ hsize s a = n.
Proof using Hlo.
  intros H Hseg Hp E Ha. assert (Hne : a <> base) by (intros ->; rewrite (h_base _ _ _ H) in Ha; lia).
  rewrite E in Hseg. apply seg_app in Hseg as [Hseg _]. apply seg_last in Hseg.
  destruct (seg_pred s base F.*1 (lastn (freep s) w1) a) as (l1 & l2 & EF & El); [by eapply uring_nodup|apply (h_ring _ _ _ H)| |done|done|].
  - pose proof (lastn_in (freep s) w1) as Hin. apply elem_of_cons in Hin as [->|Hin]; [apply (h_freep _ _ _ H)|].
    rewrite <- Hp, E. apply elem_of_app. by left.
  - apply fmap_app_inv in EF as (F1 & F2' & -> & Er & ->). destruct F2' as [|[a' n] F2]; [done|]. injection Er as <- ->.
    exists F1, n, F2. split_and!; [done|done|]. apply (h_size _ _ _ H (a, n)). apply elem_of_app. left. apply elem_of_app. right. left.
Qed.

(** ** More memory *)

Section Malloc.
Context (mem_ok : Z -> Z -> bool) (Hmem : forall b n, mem_ok b n = true -> b + n <= 2 ^ 36).

Definition core (m : Z) : Z := if m <? 4096 then 4096 else m.

(** Memory from the kernel is an allocated block until it is freed. *)
Lemma grown_ok s F Al nu : heap_ok s F Al -> 1 <= nu < 2 ^ 32 -> brk s + HDR * nu <= 2 ^ 36 ->
  heap_ok (set_size (Heap (hptr s) (hsize s) (freep s) (brk s + HDR * nu)) (brk s) nu) F ((brk s, nu) :: Al).
Proof using Hbase Hlo.
  intros H Hnu Hb. pose proof (h_shape _ _ _ H) as Hsh. unfold HDR in *.
  assert (Hp : F ++ (brk s, nu) :: Al ≡ₚ (brk s, nu) :: F ++ Al) by (by rewrite <- Permutation_middle).
  assert (Hbk : forall b, b ∈ F ++ Al -> lo <= b.1 /\ 1 <= b.2 /\ ends b <= brk s) by apply (sh_blk _ _ _ _ Hsh).
  assert (Htp : 0 <= total (F ++ Al)).
  { clear -Hbk. induction (F ++ Al) as [|b l IH]; [done|]. cbn [total foldr]. fold (total l). destruct (Hbk b ltac:(left)) as (_ & ? & _).
    specialize (IH ltac:(intros c Hc; apply Hbk; by right)). lia. }
  pose proof (sh_total _ _ _ _ Hsh) as Ht. unfold HDR in Ht.
  split; cbn [set_size hptr hsize freep brk]; try apply H; try lia.
  - eapply seg_frame; [|apply (h_ring _ _ _ H)]. done.
  - split; [apply (sh_sorted _ _ _ _ Hsh)| | |].
    + eapply disjoint_perm; [symmetry; exact Hp|]. split; [|apply (sh_disj _ _ _ _ Hsh)]. intros c Hc. right. by apply Hbk.
    + intros b Hb'. rewrite Hp in Hb'. apply elem_of_cons in Hb' as [->|Hb']; [unfold ends, HDR; cbn [fst snd]; lia|]. destruct (Hbk b Hb') as (? & ? & ?). split_and!; lia.
    + rewrite (total_perm _ _ Hp). cbn [total foldr snd]. fold (total (F ++ Al)). unfold HDR. lia.
  - intros b Hb'. rewrite Hp in Hb'. apply elem_of_cons in Hb' as [->|Hb']; cbn [fst snd].
    + rewrite put_eq. apply wrap_small. lia.
    + destruct (Hbk b Hb') as (_ & ? & Hend). unfold ends, HDR in Hend. rewrite put_ne by lia. by apply (h_size _ _ _ H).
  - rewrite put_ne by lia. apply (h_base _ _ _ H).
Qed.

Lemma morecore_run fuel s F Al m : heap_ok s F Al -> 1 <= m < 2 ^ 27 -> (length F + 1 < fuel)%nat ->
  (morecore mem_ok fuel m s = Some (0, s) /\ mem_ok (brk s) (core m * HDR) = false) \/
  (exists s' F', morecore mem_ok fuel m s = Some (freep s', s') /\ heap_ok s' F' Al /\ brk s' = brk s + core m * HDR /\ (exists b, b ∈ F' /\ m <= b.2) /\
     (length F' <= S (length F))%nat).
Proof using Hbase Hlo Hmem.
  intros H Hm Hf. unfold morecore. fold (core m). set (nu := core m).
  assert (Hnu : m <= nu < 2 ^ 27) by (unfold nu, core; destruct (Z.ltb_spec m 4096); lia).
  unfold sbrk. rewrite swrap_small by (unfold HDR; lia). destruct (mem_ok (brk s) (nu * HDR)) eqn:E; [right|left; done].
  specialize (Hmem _ _ E). pose proof (sh_total _ _ _ _ (h_shape _ _ _ H)) as Ht.
  assert (Hbk : lo <= brk s).
  { assert (0 <= total (F ++ Al)); [|unfold HDR in *; lia]. pose proof (sh_blk _ _ _ _ (h_shape _ _ _ H)) as Hbk. clear -Hbk.
    induction (F ++ Al) as [|b l IH]; [done|]. cbn [total foldr]. fold (total l). destruct (Hbk b ltac:(left)) as (_ & ? & _).
    specialize (IH ltac:(intros c Hc; apply Hbk; by right)). lia. }
  rewrite (proj2 (Z.eqb_neq (brk s) (-1))) by (unfold HDR in *; lia).
  pose proof (grown_ok s F Al nu H ltac:(lia) ltac:(lia)) as H1. replace (brk s + HDR * nu) with (brk s + nu * HDR) in H1 by lia.
  destruct (free_run fuel _ F _ (brk s) nu Al H1 ltac:(done) Hf) as (s' & F' & Ef & H' & Eb & (b & Hb & Hnb) & Hl).
  rewrite Ef. cbn [mbind option_bind]. exists s', F'. split_and!; [done|done|done|exists b; split; [done|lia]|done].
Qed.

(** The result of [malloc]: nothing when the kernel has no memory and no free block is large
    enough, or the address after the header of a new block. *)
Definition malloc_post (s s' : heap) (F Al : list blk) (m r : Z) : Prop :=
  (r = 0 /\ s' = s /\ mem_ok (brk s) (core m * HDR) = false /\ forall b, b ∈ F -> b.2 < m) \/
  (lo < r - HDR + 1 /\ exists F', heap_ok s' F' ((r - HDR, m) :: Al)).

Lemma walk_take fuel s F Al m : heap_ok s F Al -> 1 <= m -> (length F + 1 < fuel)%nat ->
  (exists r s' F', malloc_loop mem_ok fuel s (freep s) (hptr s (freep s)) m = Some (r, s') /\ lo < r - HDR + 1 /\ heap_ok s' F' ((r - HDR, m) :: Al)) \/
  ((forall b, b ∈ F -> b.2 < m) /\ malloc_loop mem_ok fuel s (freep s) (hptr s (freep s)) m = get_more mem_ok s m (fuel - S (length F))).
Proof using Hbase Hlo.
  intros H Hm Hf. destruct (ring_from s F Al H) as (v & Hseg & Hni & Hp).
  assert (Hlv : length v = length F) by (apply Permutation_length in Hp; rewrite length_app in Hp; simpl in Hp; rewrite length_fmap in Hp; lia).
  destruct (ring_walk mem_ok s m v (freep s) fuel _ Hseg Hni ltac:(lia)) as [(w1 & a & w2 & E & Ha & Er)|[Hall Er]].
  - left. destruct (found_block s F Al w1 a w2 v H Hseg Hp E ltac:(lia)) as (F1 & n & F2 & -> & El & En). rewrite El in Er.
    assert (Hla : lo <= a) by (apply (sh_blk _ _ _ _ (h_shape _ _ _ H) (a, n)); apply elem_of_app; left; apply elem_of_app; right; left).
    destruct (take_run s F1 a n F2 Al m H ltac:(lia)) as (F' & H' & _ & Hlo' & _). destruct (malloc_take s (lastn base F1.*1) a m) as [r s']. cbn [fst snd] in *.
    exists r, s', F'. split_and!; [done|lia|done].
  - right. rewrite Hlv in Er. split; [|done]. intros b Hb. rewrite <- (h_size _ _ _ H b) by (apply elem_of_app; by left). apply Hall. rewrite Hp. right. by apply list_elem_of_fmap_2.
Qed.

Lemma malloc_loop_run fuel s F Al m : heap_ok s F Al -> 1 <= m < 2 ^ 27 -> (2 * length F + 5 < fuel)%nat ->
  exists r s', malloc_loop mem_ok fuel s (freep s) (hptr s (freep s)) m = Some (r, s') /\ malloc_post s s' F Al m r.
Proof using Hbase Hlo Hmem.
  intros H Hm Hf. destruct (walk_take fuel s F Al m H ltac:(lia) ltac:(lia)) as [(r & s' & F' & Er & Hr & H')|[Hall Er]].
  { exists r, s'. split; [done|]. right. split; [done|]. by exists F'. }
  rewrite Er. unfold get_more. destruct (morecore_run (fuel - S (length F)) s F Al m H Hm ltac:(lia)) as [[-> Hno]|(s1 & F1 & -> & H1 & Hb1 & (b & Hb & Hmb) & Hl)]; cbn [mbind option_bind].
  { exists 0, s. split; [done|]. by left. }
  assert (Hfp : base <= freep s1).
  { pose proof (h_freep _ _ _ H1) as Hin. apply elem_of_cons in Hin as [->|(c & Hc & <-)%fst_in]; [lia|].
    destruct (sh_blk _ _ _ _ (h_shape _ _ _ H1) c) as (? & _); [apply elem_of_app; by left|]. unfold HDR in *. lia. }
  rewrite (proj2 (Z.eqb_neq (freep s1) 0)) by lia.
  destruct (walk_take (fuel - S (length F)) s1 F1 Al m H1 ltac:(lia) ltac:(lia)) as [(r & s' & F' & Er' & Hr & H')|[Hno _]].
  - exists r, s'. split; [done|]. right. split; [done|]. by exists F'.
  - specialize (Hno b Hb). lia.
Qed.

Lemma nunits_ok nbytes : 0 <= nbytes <= 2 ^ 31 - 32 -> 1 <= nunits_of nbytes < 2 ^ 27 /\ nbytes <= HDR * (nunits_of nbytes - 1) < nbytes + HDR.
Proof using Type.
  clear. intros Hn. unfold nunits_of, HDR. pose proof (Z.div_mod (nbytes + 16 - 1) 16 ltac:(lia)). pose proof (Z.mod_pos_bound (nbytes + 16 - 1) 16 ltac:(lia)).
  assert (0 <= (nbytes + 16 - 1) / 16) by (apply Z.div_pos; lia). rewrite wrap_small by lia. lia.
Qed.
End Malloc.
End Heap.

(** A process that has not called [malloc] yet. *)
Definition fresh_heap (lo : Z) (s : heap) (F Al : list blk) : Prop := freep s = 0 /\ brk s = lo /\ lo <= 2 ^ 36 /\ F = [] /\ Al = [].

Lemma fresh_ok base lo s F Al : 0 < base -> base + HDR <= lo -> fresh_heap lo s F Al ->
  heap_ok base lo (set_size (set_freep (set_ptr s base base) base) base 0) F Al.
Proof.
  intros Hb Hlo (Ef & Eb & Hl & -> & ->). split; cbn [set_size set_freep set_ptr hptr hsize freep brk]; try done.
  - apply put_eq.
  - split; cbn [app]; [constructor|done|intros b Hin; by apply elem_of_nil in Hin|]. rewrite Eb. unfold HDR. simpl. lia.
  - intros b Hin. by apply elem_of_nil in Hin.
  - apply put_eq.
  - left.
  - lia.
Qed.


(** C29: [free] releases.  Given the address [malloc] returned for an allocated block, the
    search for its place in the ring terminates, the block and the free blocks that touch it
    become one free block, the heap is again in order with every other allocated block kept,
    and nothing is lost or handed out twice. *)
Theorem free_correct base lo fuel s F Al bp n Al'
    (Hbase : 0 < base) (Hlo : base + HDR <= lo) (H : heap_ok base lo s F Al) (Hbp : Al ≡ₚ (bp, n) :: Al') (Hfuel : (length F + 1 < fuel)%nat) :
  exists s' F', free fuel s (bp + HDR) = Some s' /\ heap_ok base lo s' F' Al' /\ brk s' = brk s /\ exists b, b ∈ F' /\ n <= b.2.
Proof.
  destruct (free_run base lo Hbase Hlo fuel s F Al bp n Al' H Hbp Hfuel) as (s' & F' & E & H' & Eb & Hb & _). by exists s', F'.
Qed.

(** ** Examples *)

Definition demo_heap : heap := Heap (fun _ => 0) (fun _ => 0) 0 8192.
Definition demo_mem (b n : Z) : bool := b + n <=? 2 ^ 27.

Lemma demo_mem_ok b n : demo_mem b n = true -> b + n <= 2 ^ 36.
Proof. intros H%Z.leb_le. lia. Qed.


(** A heap with one allocated block. *)
Definition demo_used : heap := Heap (fun _ => 4096) (fun x => if x =? 8192 then 2 else 0) 4096 8224.

Lemma demo_used_ok : heap_ok 4096 8192 demo_used [] [(8192, 2)].
Proof.
  split; try done.
  - split; cbn [app]; [constructor|split; [intros c Hc; by apply elem_of_nil in Hc|done]| |done].
    intros b ->%list_elem_of_singleton. unfold ends, HDR. simpl. lia.
  - intros b ->%list_elem_of_singleton. done.
  - left.
Qed.

Lemma free_correct_witness : exists s' F', free 2 demo_used (8192 + HDR) = Some s' /\ heap_ok 4096 8192 s' F' [].
Proof.
  destruct (free_correct 4096 8192 2 demo_used [] [(8192, 2)] 8192 2 []) as (s' & F' & E & H & _); [lia|unfold HDR; lia|apply demo_used_ok|done|simpl; lia|].
  exists s', F'. split; [exact E|exact H].
Defined.

(** A request of 2^32 - 16 bytes: the argument of [sbrk] is 2^32, which is 0 as an [int]; the
    end of the memory does not move and yet a block of 2^28 headers is handed out. *)
Lemma malloc_overflow : match malloc 4096 demo_mem 6 demo_heap (2 ^ 32 - 16) with
  | Some (r, s') => r = 8192 + HDR /\ brk s' = brk demo_heap /\ hsize s' 8192 = 2 ^ 28
  | None => False
  end.
Proof. vm_compute. split_and!; reflexivity. Qed.
