(* ===== verification/Sh.v ===== *)
(** * user/sh.c: the command parser of the shell

    A pointer into the command line is the part of the line from there on, so
    [*s] is its head and [s < es] says that it is not empty; [position] is the
    offset in the buffer.  The parser builds the tree of commands with pointers
    into the line, and [nulterminate] then cuts the line up in place. *)

From Stdlib Require Import ZArith Lia.
From stdpp Require Import base list strings numbers.
From S2P Require Import Prelude Sysfile.

Definition MAXARGS : nat := 10.

(** A word of the line: its start and its end. *)
Record word := Word { w_q : list Z; w_eq : list Z }.

(** The five kinds of [struct cmd], over the type of words in it. *)
Inductive tree (W : Type) :=
| EXEC (argv : list W)
| REDIR (c : tree W) (file : W) (mode fd : Z)
| PIPE (l r : tree W)
| LIST (l r : tree W)
| BACK (c : tree W).
Arguments EXEC {W} _.
Arguments REDIR {W} _ _ _ _.
Arguments PIPE {W} _ _.
Arguments LIST {W} _ _.
Arguments BACK {W} _.

Definition cmd : Type := tree word.

(** ** Tokens *)

Definition whitespace : list Z := [32; 9; 13; 10; 11].
Definition symbols : list Z := bytes "<|>&;()".
Definition is_ws (c : Z) : bool := bool_decide (c ∈ whitespace).
Definition is_sym (c : Z) : bool := bool_decide (c ∈ symbols).
Definition is_word (c : Z) : bool := negb (is_ws c) && negb (is_sym c).

Fixpoint drop_while (f : Z -> bool) (s : list Z) : list Z :=
  match s with
  | [] => []
  | c :: s' => if f c then drop_while f s' else s
  end.

Definition skip_ws : list Z -> list Z := drop_while is_ws.
Definition skip_word : list Z -> list Z := drop_while is_word.

Record token := Token { t_ret : Z; t_word : word; t_rest : list Z }.

Definition gettoken (ps : list Z) : token :=
  let s := skip_ws ps in
  match s with
  | [] => Token 0 (Word s s) (skip_ws s)
  | c :: t =>
    if bool_decide (c ∈ bytes "|();&<") then Token c (Word s t) (skip_ws t)
    else if c =? 62 then
      match t with
      | d :: t' => if d =? 62 then Token 43 (Word s t') (skip_ws t') else Token c (Word s t) (skip_ws t)
      | [] => Token c (Word s t) (skip_ws t)
      end
    else Token 97 (Word s (skip_word s)) (skip_ws (skip_word s))
  end.

Definition peek (ps : list Z) (toks : list Z) : list Z * bool :=
  let s := skip_ws ps in
  (s, match s with c :: _ => bool_decide (c ∈ toks) | [] => false end).

(** ** The parser *)

(** What a parsing function comes back with: its value and the rest of the line, or
    the message of [panic]. *)
Inductive presult (A : Type) := POk (a : A) (s : list Z) | PPanic (msg : string) | PFuel.
Arguments POk {A} _ _.
Arguments PPanic {A} _.
Arguments PFuel {A}.

Definition pbind {A B} (m : presult A) (f : A -> list Z -> presult B) : presult B :=
  match m with POk a s => f a s | PPanic msg => PPanic msg | PFuel => PFuel end.

(** A redirection as [parseredirs] puts it around a command. *)
Record redir := Redir { r_file : word; r_mode : Z; r_fd : Z }.

Definition redircmd (c : cmd) (r : redir) : cmd := REDIR c (r_file r) (r_mode r) (r_fd r).
Definition wrap_redirs (c : cmd) (rs : list redir) : cmd := foldl redircmd c rs.

(** The redirection that a token and the file name after it stand for. *)
Definition redir_of (tok : Z) (w : word) : redir :=
  if tok =? 60 then Redir w O_RDONLY 0
  else if tok =? 62 then Redir w (Z.lor (Z.lor O_WRONLY O_CREATE) O_TRUNC) 1
  else Redir w (Z.lor O_WRONLY O_CREATE) 1.

(** [parseredirs]: the redirections it adds, in order. *)
Fixpoint parseredirs (fuel : nat) (ps : list Z) : presult (list redir) :=
  match fuel with
  | O => PFuel
  | S fuel' =>
    let '(s, b) := peek ps (bytes "<>") in
    if b then
      let tok := gettoken s in
      let file := gettoken (t_rest tok) in
      if negb (t_ret file =? 97) then PPanic "missing file for redirection"
      else pbind (parseredirs fuel' (t_rest file)) (fun rs s' =>
             POk (redir_of (t_ret tok) (t_word file) :: rs) s')
    else POk [] s
  end.

(** The loop of [parseexec]: arguments and redirections.  The redirections go
    around the node whose arguments are still being filled in, so they are
    collected on the way. *)
Fixpoint parseargs (fuel : nat) (ps : list Z) (argv : list word) (rs : list redir) : presult cmd :=
  match fuel with
  | O => PFuel
  | S fuel' =>
    let '(s, b) := peek ps (bytes "|)&;") in
    if b then POk (wrap_redirs (EXEC argv) rs) s
    else
      let tok := gettoken s in
      if t_ret tok =? 0 then POk (wrap_redirs (EXEC argv) rs) (t_rest tok)
      else if negb (t_ret tok =? 97) then PPanic "syntax"
      else
        let argv' := argv ++ [t_word tok] in
        if (MAXARGS <=? length argv')%nat then PPanic "too many args"
        else pbind (parseredirs fuel' (t_rest tok)) (fun rs' s' => parseargs fuel' s' argv' (rs ++ rs'))
  end.

(** [while(peek(ps, es, "&"))] of [parseline] *)
Fixpoint parseback (fuel : nat) (c : cmd) (ps : list Z) : presult cmd :=
  match fuel with
  | O => PFuel
  | S fuel' =>
    let '(s, b) := peek ps (bytes "&") in
    if b then parseback fuel' (BACK c) (t_rest (gettoken s)) else POk c s
  end.

Fixpoint parseline (fuel : nat) (ps : list Z) {struct fuel} : presult cmd :=
  match fuel with
  | O => PFuel
  | S fuel' =>
    pbind (parsepipe fuel' ps) (fun c s =>
    pbind (parseback fuel' c s) (fun c s =>
      let '(s, b) := peek s (bytes ";") in
      if b then pbind (parseline fuel' (t_rest (gettoken s))) (fun r s' => POk (LIST c r) s')
      else POk c s))
  end
with parsepipe (fuel : nat) (ps : list Z) {struct fuel} : presult cmd :=
  match fuel with
  | O => PFuel
  | S fuel' =>
    pbind (parseexec fuel' ps) (fun c s =>
      let '(s, b) := peek s (bytes "|") in
      if b then pbind (parsepipe fuel' (t_rest (gettoken s))) (fun r s' => POk (PIPE c r) s')
      else POk c s)
  end
with parseexec (fuel : nat) (ps : list Z) {struct fuel} : presult cmd :=
  match fuel with
  | O => PFuel
  | S fuel' =>
    let '(s, b) := peek ps (bytes "(") in
    if b then parseblock fuel' s
    else pbind (parseredirs fuel' s) (fun rs s' => parseargs fuel' s' [] rs)
  end
with parseblock (fuel : nat) (ps : list Z) {struct fuel} : presult cmd :=
  match fuel with
  | O => PFuel
  | S fuel' =>
    let '(s, b) := peek ps (bytes "(") in
    if negb b then PPanic "parseblock"
    else
      pbind (parseline fuel' (t_rest (gettoken s))) (fun c s =>
        let '(s, b) := peek s (bytes ")") in
        if negb b then PPanic "syntax - missing )"
        else pbind (parseredirs fuel' (t_rest (gettoken s))) (fun rs s' => POk (wrap_redirs c rs) s'))
  end.

(** Four nested calls for each character that is consumed are enough. *)
Definition parse_fuel (line : list Z) : nat := 4 * length line + 4.

(** [parsecmd] before [nulterminate]. *)
Definition parsecmd (line : list Z) : presult cmd :=
  pbind (parseline (parse_fuel line) line) (fun c s =>
    let '(s, _) := peek s [] in
    match s with [] => POk c [] | _ => PPanic "syntax" end).

(** ** Cutting up the line *)

(** The offset of a pointer in a line of [n] characters. *)
Definition position (n : nat) (s : list Z) : Z := Z.of_nat n - Z.of_nat (length s).

(** [*eq = 0] *)
Definition cut (n : nat) (w : word) (buf : list Z) : list Z := zset buf (position n (w_eq w)) 0.

Fixpoint nulterminate (n : nat) (c : cmd) (buf : list Z) : list Z :=
  match c with
  | EXEC argv => foldl (fun b w => cut n w b) buf argv
  | REDIR c file _ _ => cut n file (nulterminate n c buf)
  | PIPE l r | LIST l r => nulterminate n r (nulterminate n l buf)
  | BACK c => nulterminate n c buf
  end.

(** The string that starts at an offset of the buffer. *)
Fixpoint cstr (buf : list Z) : list Z :=
  match buf with
  | [] => []
  | c :: buf' => if c =? 0 then [] else c :: cstr buf'
  end.
Definition string_at (n : nat) (buf : list Z) (w : word) : list Z :=
  cstr (drop (Z.to_nat (position n (w_q w))) buf).
