(* ===== verification/ShProofs.v ===== *)
(** * The shell's parser: termination, and the trees it builds *)

From Stdlib Require Import ZArith Lia.
From stdpp Require Import base list strings numbers.
From S2P Require Import Prelude Sysfile Sh.

(** ** Tokens shorten the line *)

Lemma length_drop_while f s : (length (drop_while f s) <= length s)%nat.
Proof. induction s as [|c s IH]; simpl; [lia|]. destruct (f c); simpl; lia. Qed.

Lemma length_skip_ws s : (length (skip_ws s) <= length s)%nat.
Proof. apply length_drop_while. Qed.

Lemma drop_while_idem f s : drop_while f (drop_while f s) = drop_while f s.
Proof. induction s as [|c s IH]; simpl; [done|]. destruct (f c) eqn:E; simpl; [done|]. by rewrite E. Qed.

Lemma skip_ws_head s c t : skip_ws s = c :: t -> is_ws c = false.
Proof.
  unfold skip_ws. induction s as [|x s IH]; simpl; [done|].
  destruct (is_ws x) eqn:E; [done|]. intros [= -> ->]. done.
Qed.

(** A token that is not the end of the line takes at least a character. *)
Lemma gettoken_rest s :
  (length (t_rest (gettoken s)) <= length s)%nat /\
  (t_ret (gettoken s) <> 0 -> (length (t_rest (gettoken s)) < length s)%nat).
Proof.
  pose proof (length_skip_ws s) as Hs. unfold gettoken.
  destruct (skip_ws s) as [|c t] eqn:E; simpl in *; [split; [lia|done]|].
  pose proof (length_skip_ws t) as Ht. case_bool_decide as Hc; simpl; [lia|].
  destruct (Z.eqb_spec c 62) as [->|Hgt]; simpl.
  - destruct t as [|d t']; simpl in *; [lia|]. pose proof (length_skip_ws t').
    destruct (d =? 62); simpl; lia.
  - assert (Hw : is_word c = true).
    { unfold is_word. rewrite (skip_ws_head _ _ _ E). simpl. unfold is_sym, symbols in *.
      rewrite bool_decide_eq_false_2; [done|]. simpl in Hc |- *. rewrite !elem_of_cons in *. naive_solver. }
    assert (skip_word (c :: t) = skip_word t) as -> by (unfold skip_word; simpl; by rewrite Hw).
    pose proof (length_drop_while is_word t) as H1. pose proof (length_skip_ws (skip_word t)) as H2.
    fold (skip_word t) in H1. lia.
Qed.

Lemma peek_rest s toks : (length (peek s toks).1 <= length s)%nat.
Proof. apply length_skip_ws. Qed.

(** A peeked token is there to be taken. *)
Lemma peek_taken s toks s' :
  Forall (fun c => c <> 0) toks ->
  peek s toks = (s', true) -> (length (t_rest (gettoken s')) < length s)%nat.
Proof.
  intros Hz [= <- Hb]. pose proof (length_skip_ws s). eapply Nat.lt_le_trans; [|done].
  apply gettoken_rest. unfold gettoken. unfold skip_ws at 1. rewrite drop_while_idem. fold (skip_ws s).
  destruct (skip_ws s) as [|c t] eqn:E; [done|]. apply bool_decide_eq_true in Hb.
  rewrite list.Forall_forall in Hz. specialize (Hz c Hb).
  case_bool_decide; [done|]. case_match; [|done]. destruct t as [|d t]; [done|]. by destruct (d =? 62).
Qed.

(** ** Termination *)

(** [m] ends, with at most [n] characters left. *)
Definition ends {A} (n : nat) (m : presult A) : Prop :=
  match m with POk _ s => (length s <= n)%nat | PPanic _ => True | PFuel => False end.

Lemma ends_bind {A B} n n' (m : presult A) (f : A -> list Z -> presult B) :
  ends n m -> (forall a s, (length s <= n)%nat -> ends n' (f a s)) -> ends n' (pbind m f).
Proof. destruct m; simpl; auto. Qed.

Lemma ends_mono {A} n n' (m : presult A) : ends n m -> (n <= n')%nat -> ends n' m.
Proof. destruct m; simpl; auto with lia. Qed.

Ltac no_zero := repeat constructor; discriminate.

Lemma parseredirs_ends fuel s : (length s < fuel)%nat -> ends (length s) (parseredirs fuel s).
Proof.
  revert s. induction fuel as [|fuel IH]; intros s Hf; [lia|]. cbn [parseredirs].
  destruct (peek s (bytes "<>")) as [s' b] eqn:E. pose proof (peek_rest s (bytes "<>")) as Hl.
  rewrite E in Hl. simpl in Hl. destruct b; [|done].
  pose proof (peek_taken s (bytes "<>") s' ltac:(no_zero) E) as Ht.
  destruct (gettoken_rest (t_rest (gettoken s'))) as [Hl2 _].
  destruct (negb _); [done|]. eapply ends_bind; [apply IH; lia|].
  intros rs s2 H2. simpl. lia.
Qed.

Lemma parseargs_ends fuel s argv rs : (length s < fuel)%nat -> ends (length s) (parseargs fuel s argv rs).
Proof.
  revert s argv rs. induction fuel as [|fuel IH]; intros s argv rs Hf; [lia|]. cbn [parseargs].
  destruct (peek s (bytes "|)&;")) as [s' b] eqn:E. pose proof (peek_rest s (bytes "|)&;")) as Hl.
  rewrite E in Hl. simpl in Hl. destruct b; [done|].
  destruct (gettoken_rest s') as [Hl1 Hl2].
  destruct (Z.eqb_spec (t_ret (gettoken s')) 0) as [|Hnz]; [simpl; lia|].
  specialize (Hl2 Hnz). destruct (negb _); [done|]. destruct (_ <=? _)%nat; [done|].
  eapply ends_bind; [apply parseredirs_ends; lia|].
  intros rs' s2 H2. eapply ends_mono; [apply IH; lia|lia].
Qed.

Lemma parseback_ends fuel c s : (length s < fuel)%nat -> ends (length s) (parseback fuel c s).
Proof.
  revert c s. induction fuel as [|fuel IH]; intros c s Hf; [lia|]. cbn [parseback].
  destruct (peek s (bytes "&")) as [s' b] eqn:E. pose proof (peek_rest s (bytes "&")) as Hl.
  rewrite E in Hl. simpl in Hl. destruct b; [|done].
  pose proof (peek_taken s (bytes "&") s' ltac:(no_zero) E) as Ht.
  eapply ends_mono; [apply IH; lia|lia].
Qed.

Lemma parse_ends fuel :
  (forall s, (4 * length s + 4 <= fuel)%nat -> ends (length s) (parseline fuel s)) /\
  (forall s, (4 * length s + 3 <= fuel)%nat -> ends (length s) (parsepipe fuel s)) /\
  (forall s, (4 * length s + 2 <= fuel)%nat -> ends (length s) (parseexec fuel s)) /\
  (forall s, (4 * length s + 1 <= fuel)%nat -> ends (length s) (parseblock fuel s)).
Proof.
  induction fuel as [|fuel (IHl & IHp & IHe & IHb)]; [split_and!; intros; lia|].
  split_and!; intros s Hf; cbn [parseline parsepipe parseexec parseblock].
  - eapply ends_bind; [apply IHp; lia|]. intros c s1 H1.
    eapply ends_bind; [apply parseback_ends; lia|]. intros c' s2 H2.
    destruct (peek s2 (bytes ";")) as [s' b] eqn:E. pose proof (peek_rest s2 (bytes ";")) as Hl.
    rewrite E in Hl. simpl in Hl. destruct b; [|simpl; lia].
    pose proof (peek_taken s2 (bytes ";") s' ltac:(no_zero) E) as Ht.
    eapply ends_bind; [apply IHl; lia|]. intros r s3 H3. simpl. lia.
  - eapply ends_bind; [apply IHe; lia|]. intros c s1 H1.
    destruct (peek s1 (bytes "|")) as [s' b] eqn:E. pose proof (peek_rest s1 (bytes "|")) as Hl.
    rewrite E in Hl. simpl in Hl. destruct b; [|simpl; lia].
    pose proof (peek_taken s1 (bytes "|") s' ltac:(no_zero) E) as Ht.
    eapply ends_bind; [apply IHp; lia|]. intros r s3 H3. simpl. lia.
  - destruct (peek s (bytes "(")) as [s' b] eqn:E. pose proof (peek_rest s (bytes "(")) as Hl.
    rewrite E in Hl. simpl in Hl. destruct b; [eapply ends_mono; [apply IHb; lia|lia]|].
    eapply ends_bind; [apply parseredirs_ends; lia|].
    intros rs s2 H2. eapply ends_mono; [apply parseargs_ends; lia|lia].
  - destruct (peek s (bytes "(")) as [s' b] eqn:E. destruct b; [|done].
    pose proof (peek_taken s (bytes "(") s' ltac:(no_zero) E) as Ht. simpl negb. cbv iota.
    eapply ends_bind; [apply IHl; lia|]. intros c s2 H2.
    destruct (peek s2 (bytes ")")) as [s3 b] eqn:E3. destruct b; [|done].
    pose proof (peek_taken s2 (bytes ")") s3 ltac:(no_zero) E3) as Ht3. simpl negb. cbv iota.
    eapply ends_bind; [apply parseredirs_ends; lia|]. intros rs s4 H4. simpl. lia.
Qed.

(** C37: The parser of the shell terminates on every command line: it builds a tree
    or reports a syntax error, and never runs out of the bound of four nested
    calls per character. *)
Theorem parsecmd_terminates (line : list Z) :
  (exists c, parsecmd line = POk c []) \/ (exists msg, parsecmd line = PPanic msg).
Proof.
  unfold parsecmd. destruct (parse_ends (parse_fuel line)) as (Hl & _ & _ & _).
  specialize (Hl line ltac:(unfold parse_fuel; lia)).
  destruct (parseline (parse_fuel line) line) as [c s|msg|]; simpl in *; [|by right; exists msg|done].
  destruct (skip_ws s); [left|right]; by eexists.
Qed.

(** ** More fuel changes nothing *)

Definition le_res {A} (m m' : presult A) : Prop := m = PFuel \/ m = m'.

Lemma le_bind {A B} (m m' : presult A) (f f' : A -> list Z -> presult B) :
  le_res m m' -> (forall a s, le_res (f a s) (f' a s)) -> le_res (pbind m f) (pbind m' f').
Proof. intros [->| ->] Hf; [by left|]. destruct m' as [a s| |]; [apply Hf|by right|by right]. Qed.

Lemma le_refl {A} (m : presult A) : le_res m m.
Proof. by right. Qed.

Ltac le_tac :=
  repeat first
    [ apply le_refl | apply le_bind; [|intros ? ?] | progress cbv zeta
    | match goal with |- le_res (match ?x with _ => _ end) (match ?x with _ => _ end) => destruct x end
    | solve [auto] ].

Lemma parseredirs_more fuel s : le_res (parseredirs fuel s) (parseredirs (S fuel) s).
Proof.
  revert s. induction fuel as [|fuel IH]; intros s; [by left|].
  change (parseredirs (S (S fuel)) s) with
    (let '(s, b) := peek s (bytes "<>") in
     if b then
       let tok := gettoken s in
       let file := gettoken (t_rest tok) in
       if negb (t_ret file =? 97) then PPanic "missing file for redirection"
       else pbind (parseredirs (S fuel) (t_rest file)) (fun rs s' =>
              POk (redir_of (t_ret tok) (t_word file) :: rs) s')
     else POk [] s).
  cbn [parseredirs]. le_tac.
Qed.

Lemma parseargs_more fuel s argv rs : le_res (parseargs fuel s argv rs) (parseargs (S fuel) s argv rs).
Proof.
  revert s argv rs. induction fuel as [|fuel IH]; intros s argv rs; [by left|].
  remember (S fuel) as fuel1 eqn:E1. cbn [parseargs]. rewrite E1 at 1. cbn [parseargs]. subst fuel1.
  le_tac. apply parseredirs_more.
Qed.

Lemma parseback_more fuel c s : le_res (parseback fuel c s) (parseback (S fuel) c s).
Proof.
  revert c s. induction fuel as [|fuel IH]; intros c s; [by left|].
  remember (S fuel) as fuel1 eqn:E1. cbn [parseback]. rewrite E1 at 1. cbn [parseback]. subst fuel1.
  le_tac.
Qed.

Lemma parse_more fuel :
  (forall s, le_res (parseline fuel s) (parseline (S fuel) s)) /\
  (forall s, le_res (parsepipe fuel s) (parsepipe (S fuel) s)) /\
  (forall s, le_res (parseexec fuel s) (parseexec (S fuel) s)) /\
  (forall s, le_res (parseblock fuel s) (parseblock (S fuel) s)).
Proof.
  pose proof parseback_more. pose proof parseredirs_more. pose proof parseargs_more.
  induction fuel as [|fuel (IHl & IHp & IHe & IHb)]; [by split_and!; left|].
  split_and!; intros s; remember (S fuel) as fuel1 eqn:E1;
    cbn [parseline parsepipe parseexec parseblock]; rewrite E1 at 1;
    cbn [parseline parsepipe parseexec parseblock]; subst fuel1; le_tac.
Qed.

(** [p] gives [a] and leaves [s'], with enough fuel. *)
Definition parses {A} (p : nat -> list Z -> presult A) (s : list Z) (a : A) (s' : list Z) : Prop :=
  exists fuel, p fuel s = POk a s'.

Lemma more_fuel {A} (p : nat -> list Z -> presult A) s a s' fuel fuel' :
  (forall f s, le_res (p f s) (p (S f) s)) -> p fuel s = POk a s' -> (fuel <= fuel')%nat ->
  p fuel' s = POk a s'.
Proof.
  intros Hm E. induction 1 as [|f Hle IH]; [done|]. destruct (Hm f s) as [H0|H0]; congruence.
Qed.
