(* ===== verification/ShRoundtrip.v ===== *)
(** * The shell's parser inverts printing

    Command trees are printed with parentheses where the grammar needs them; the
    parser gives the tree back, and after [nulterminate] each pointer in it is a
    string of the buffer. *)

From Stdlib Require Import ZArith Lia.
From stdpp Require Import base list sets strings numbers.
From S2P Require Import Prelude Sysfile Sh ShProofs.

Fixpoint tree_map {V W} (f : V -> W) (t : tree V) : tree W :=
  match t with
  | EXEC argv => EXEC (f <$> argv)
  | REDIR c file mode fd => REDIR (tree_map f c) (f file) mode fd
  | PIPE l r => PIPE (tree_map f l) (tree_map f r)
  | LIST l r => LIST (tree_map f l) (tree_map f r)
  | BACK c => BACK (tree_map f c)
  end.

Fixpoint tree_words {W} (t : tree W) : list W :=
  match t with
  | EXEC argv => argv
  | REDIR c file _ _ => tree_words c ++ [file]
  | PIPE l r | LIST l r => tree_words l ++ tree_words r
  | BACK c => tree_words c
  end.

(** ** Printing *)

(** How tightly a command binds: simple commands and redirections, pipelines,
    background commands, lists. *)
Definition level {W} (t : tree W) : nat :=
  match t with EXEC _ | REDIR _ _ _ _ => 0 | PIPE _ _ => 1 | BACK _ => 2 | LIST _ _ => 3 end.

Definition pr_sym (c : Z) : list Z := [c; 32].
Definition pr_words (argv : list (list Z)) : list Z := concat ((fun w => w ++ [32]) <$> argv).
Definition pr_op (mode : Z) : list Z :=
  if mode =? O_RDONLY then pr_sym 60
  else if mode =? Z.lor (Z.lor O_WRONLY O_CREATE) O_TRUNC then pr_sym 62 else 62 :: pr_sym 62.

Definition pr_group (s : list Z) : list Z := pr_sym 40 ++ s ++ pr_sym 41.
Definition pr_at (lvl l : nat) (s : list Z) : list Z := if (l <=? lvl)%nat then s else pr_group s.

Fixpoint pr (lvl : nat) (t : tree (list Z)) : list Z :=
  pr_at lvl (level t)
    match t with
    | EXEC argv => pr_words argv
    | REDIR c file mode _ => pr_group (pr 3 c) ++ pr_op mode ++ file ++ [32]
    | PIPE l r => pr 0 l ++ pr_sym 124 ++ pr 1 r
    | BACK c => pr 2 c ++ pr_sym 38
    | LIST l r => pr 2 l ++ pr_sym 59 ++ pr 3 r
    end.

(** ** Commands that can be printed *)

Definition word_ok (w : list Z) : Prop := w <> [] /\ Forall (fun c => is_word c = true /\ c <> 0) w.

Definition redir_ok (mode fd : Z) : Prop :=
  (mode, fd) ∈ [(O_RDONLY, 0); (Z.lor (Z.lor O_WRONLY O_CREATE) O_TRUNC, 1); (Z.lor O_WRONLY O_CREATE, 1)].

Fixpoint tree_ok (t : tree (list Z)) : Prop :=
  match t with
  | EXEC argv => Forall word_ok argv /\ (length argv < MAXARGS)%nat
  | REDIR c file mode fd => tree_ok c /\ word_ok file /\ redir_ok mode fd
  | PIPE l r | LIST l r => tree_ok l /\ tree_ok r
  | BACK c => tree_ok c
  end.

(** ** Tokens of printed text *)

Definition word_text (w : word) : list Z := take (length (w_q w) - length (w_eq w)) (w_q w).

(** The text does not start with a blank. *)
Definition tight (s : list Z) : Prop := skip_ws s = s.

Lemma tight_cons c s : is_ws c = false -> tight (c :: s).
Proof. unfold tight, skip_ws. simpl. by intros ->. Qed.

Lemma peek_tight s toks : tight s ->
  peek s toks = (s, match s with c :: _ => bool_decide (c ∈ toks) | [] => false end).
Proof. unfold peek, tight. by intros ->. Qed.

Lemma is_word_plain c : is_word c = true -> is_ws c = false /\ c ∉ symbols.
Proof.
  unfold is_word, is_sym. rewrite andb_true_iff, !negb_true_iff. intros [H1 H2].
  split; [done|]. by apply bool_decide_eq_false in H2.
Qed.

Lemma tight_word w s : word_ok w -> tight (w ++ s).
Proof.
  intros [Hne Hw]. destruct w as [|c w]; [done|]. apply list.Forall_cons in Hw as [[Hc _] _].
  apply tight_cons. by apply is_word_plain in Hc as [? _].
Qed.

Lemma skip_word_app w s : Forall (fun c => is_word c = true /\ c <> 0) w -> skip_word (w ++ 32 :: s) = 32 :: s.
Proof. induction 1 as [|c w [Hc _] _ IH]; [done|]. unfold skip_word in *. simpl. by rewrite Hc. Qed.

Lemma gettoken_word w s : word_ok w -> tight s ->
  gettoken (w ++ 32 :: s) = Token 97 (Word (w ++ 32 :: s) (32 :: s)) s.
Proof.
  intros Hok Hs. unfold gettoken. rewrite (tight_word w (32 :: s) Hok : skip_ws _ = _).
  destruct Hok as [Hne Hw]. pose proof (skip_word_app w s Hw) as E.
  destruct w as [|c w]; [done|]. simpl app in *. apply list.Forall_cons in Hw as [[Hc _] _].
  apply is_word_plain in Hc as [_ Hc]. cbv zeta.
  rewrite bool_decide_eq_false_2 by (intros Hin; apply Hc; unfold symbols; simpl in *; set_solver).
  rewrite (proj2 (Z.eqb_neq c 62)) by (intros ->; apply Hc; vm_compute; set_solver).
  rewrite E. f_equal. apply Hs.
Qed.

Lemma word_text_app w s : word_text (Word (w ++ s) s) = w.
Proof. unfold word_text. simpl. rewrite length_app. apply take_app_length'. lia. Qed.

Lemma gettoken_sym c s : c ∈ bytes "|();&<" -> tight s ->
  gettoken (c :: 32 :: s) = Token c (Word (c :: 32 :: s) (32 :: s)) s.
Proof.
  intros Hc Hs. unfold gettoken.
  assert (Hw : tight (c :: 32 :: s)).
  { apply tight_cons. simpl in Hc. rewrite !elem_of_cons in Hc.
    repeat (destruct Hc as [->|Hc]; [done|]). by apply not_elem_of_nil in Hc. }
  rewrite (Hw : skip_ws _ = _). cbv zeta. rewrite bool_decide_eq_true_2 by done. f_equal. apply Hs.
Qed.

Lemma gettoken_out s : tight s ->
  gettoken (62 :: 32 :: s) = Token 62 (Word (62 :: 32 :: s) (32 :: s)) s /\
  gettoken (62 :: 62 :: 32 :: s) = Token 43 (Word (62 :: 62 :: 32 :: s) (32 :: s)) s.
Proof. intros Hs. unfold gettoken. simpl. split; f_equal; apply Hs. Qed.

(** ** What may follow a command *)

Definition follows (toks s : list Z) : Prop := s = [] \/ exists c s', s = c :: s' /\ c ∈ toks.

Lemma follows_tight toks s : (forall c, c ∈ toks -> is_ws c = false) -> follows toks s -> tight s.
Proof. intros Ht [->|(c & s' & -> & Hc)]; [done|]. apply tight_cons. by apply Ht. Qed.

Lemma follows_weaken toks toks' s : toks ⊆ toks' -> follows toks s -> follows toks' s.
Proof. intros Hsub [->|(c & s' & -> & Hc)]; [by left|right]. exists c, s'. split; [done|]. by apply Hsub. Qed.

(** A peek for other tokens fails. *)
Lemma follows_peek toks other s :
  (forall c, c ∈ toks -> is_ws c = false /\ c ∉ other) -> follows toks s -> peek s other = (s, false).
Proof.
  intros Ht Hf. rewrite peek_tight by (apply (follows_tight toks); naive_solver). f_equal.
  destruct Hf as [->|(c & s' & -> & Hc)]; [done|]. apply bool_decide_eq_false_2. by apply Ht.
Qed.

Definition after_exec : list Z := bytes "|)&;".
Definition after_pipe : list Z := bytes ")&;".
Definition after_back : list Z := bytes ");".
Definition after_line : list Z := bytes ")".

Ltac each_token :=
  let c := fresh "c" in let H := fresh "H" in
  intros c H; unfold after_exec, after_pipe, after_back, after_line in H; simpl in H;
  rewrite !elem_of_cons in H;
  repeat (destruct H as [->|H]; [try split; try reflexivity; simpl; set_solver|]);
  by apply not_elem_of_nil in H.
Ltac sub_tokens :=
  let c := fresh "c" in let H := fresh "H" in
  intros c H; unfold after_exec, after_pipe, after_back, after_line, symbols in *; simpl in *; set_solver.

(** ** Simple commands *)

Lemma peek_word w s toks : word_ok w -> toks ⊆ symbols -> peek (w ++ s) toks = (w ++ s, false).
Proof.
  intros Hok Hsub. rewrite peek_tight by (by apply tight_word). f_equal.
  destruct Hok as [Hne Hw]. destruct w as [|c w]; [done|]. simpl.
  apply list.Forall_cons in Hw as [[Hc _] _]. apply is_word_plain in Hc as [_ Hc].
  apply bool_decide_eq_false_2. naive_solver.
Qed.

Lemma pr_words_cons w argv s : pr_words (w :: argv) ++ s = w ++ 32 :: (pr_words argv ++ s).
Proof. unfold pr_words. rewrite fmap_cons. simpl. by rewrite <- !app_assoc. Qed.

Lemma words_start argv s :
  Forall word_ok argv -> follows after_exec s ->
  tight (pr_words argv ++ s) /\ peek (pr_words argv ++ s) (bytes "<>") = (pr_words argv ++ s, false) /\
  peek (pr_words argv ++ s) (bytes "(") = (pr_words argv ++ s, false).
Proof.
  intros Hw Hs. destruct Hw as [|w argv Hw _].
  - simpl. split_and!; [apply (follows_tight after_exec); [each_token|done]|..];
      (apply (follows_peek after_exec); [each_token|done]).
  - rewrite pr_words_cons. split_and!; [by apply tight_word|..]; apply peek_word; try done;
      sub_tokens.
Qed.

Lemma parseredirs_none fuel s : peek s (bytes "<>") = (s, false) -> parseredirs (S fuel) s = POk [] s.
Proof. cbn [parseredirs]. by intros ->. Qed.

Lemma parseargs_words argv acc s :
  Forall word_ok argv -> (length acc + length argv < MAXARGS)%nat -> follows after_exec s ->
  exists ws, parses (fun f s => parseargs f s acc []) (pr_words argv ++ s) (EXEC (acc ++ ws)) s /\
    word_text <$> ws = argv.
Proof.
  intros Hw. revert acc. induction Hw as [|w argv Hw Hws IH]; intros acc Hl Hs.
  - exists []. split; [|done]. exists 1%nat. rewrite app_nil_r. simpl app. cbn [parseargs].
    rewrite peek_tight by (apply (follows_tight after_exec); [each_token|done]).
    destruct Hs as [->|(c & s' & -> & Hc)]; [done|]. by rewrite bool_decide_eq_true_2.
  - destruct (words_start argv s Hws Hs) as (Ht & Hr & _).
    destruct (IH (acc ++ [Word (w ++ 32 :: (pr_words argv ++ s)) (32 :: (pr_words argv ++ s))])) as (ws & [f Ef] & Ew);
      [rewrite length_app; simpl in *; lia|done|].
    eexists (_ :: ws). split; [exists (S (S f))|].
    + rewrite pr_words_cons. cbn [parseargs].
      rewrite peek_word by (done || sub_tokens).
      rewrite gettoken_word by done. cbn [t_ret t_word t_rest].
      rewrite (proj2 (Z.eqb_neq 97 0)), Z.eqb_refl by lia. cbn [negb].
      rewrite (proj2 (Nat.leb_gt _ _)) by (rewrite length_app; simpl in *; lia).
      rewrite parseredirs_none by done. cbn [pbind]. change ([] ++ []) with (@nil redir).
      rewrite <- app_assoc in Ef. change ([?x] ++ ws) with (x :: ws) in Ef.
      refine (more_fuel (fun f s => parseargs f s _ []) _ _ _ f (S f) _ Ef _); [|lia].
      intros f' s'. apply parseargs_more.
    + rewrite fmap_cons, Ew. f_equal. apply (word_text_app w (32 :: _)).
Qed.

(** ** The levels of the grammar *)

Definition parsed (t : tree (list Z)) (c : cmd) : Prop := tree_map word_text c = t.

Definition ok_exec (t : tree (list Z)) : Prop := forall s, follows after_exec s ->
  exists c, parses parseexec (pr 0 t ++ s) c s /\ parsed t c.
Definition ok_pipe (t : tree (list Z)) : Prop := forall s, follows after_pipe s ->
  exists c, parses parsepipe (pr 1 t ++ s) c s /\ parsed t c.
Definition ok_back (t : tree (list Z)) : Prop := forall s, follows after_pipe s ->
  exists c0 s0 n c, parses parsepipe (pr 2 t ++ s) c0 s0 /\
    (forall f, parseback (n + f) c0 s0 = parseback f c s) /\ parsed t c.
Definition ok_line (t : tree (list Z)) : Prop := forall s, follows after_line s ->
  exists c, parses parseline (pr 3 t ++ s) c s /\ parsed t c.

(** The text of a command depends only on whether it needs parentheses. *)
Lemma pr_level t lvl lvl' :
  (level t <=? lvl)%nat = (level t <=? lvl')%nat -> pr lvl t = pr lvl' t.
Proof. intros E. destruct t; cbn [pr]; unfold pr_at; by rewrite E. Qed.

Lemma pipe_of_exec t : level t <> 1%nat -> ok_exec t -> ok_pipe t.
Proof.
  intros Hl He s Hs.
  destruct (He s) as (c & [f Ef] & Hc); [by apply (follows_weaken after_pipe); [sub_tokens|]|].
  exists c. split; [|done]. exists (S f). rewrite (pr_level t 1 0) by (by destruct t).
  cbn [parsepipe]. rewrite Ef. cbn [pbind].
  by rewrite (follows_peek after_pipe) by (done || each_token).
Qed.

Lemma back_of_pipe t : level t <> 2%nat -> ok_pipe t -> ok_back t.
Proof.
  intros Hl Hp s Hs. destruct (Hp s Hs) as (c & Hc & Ht).
  exists c, s, 0%nat, c. rewrite (pr_level t 2 1) by (by destruct t). done.
Qed.

Lemma parsepipe_more f s : le_res (parsepipe f s) (parsepipe (S f) s).
Proof. apply parse_more. Qed.
Lemma parseexec_more f s : le_res (parseexec f s) (parseexec (S f) s).
Proof. apply parse_more. Qed.
Lemma parseline_more f s : le_res (parseline f s) (parseline (S f) s).
Proof. apply parse_more. Qed.

(** A background-level command, up to the semicolon or the end. *)
Lemma back_parsed t s : ok_back t -> follows after_back s ->
  exists c0 s0 c f, parsepipe f (pr 2 t ++ s) = POk c0 s0 /\ parseback f c0 s0 = POk c s /\ parsed t c.
Proof.
  intros Hb Hs. destruct (Hb s) as (c0 & s0 & n & c & [f Ef] & Hk & Hc);
    [by apply (follows_weaken after_back); [sub_tokens|]|].
  exists c0, s0, c, (n + S f)%nat. split_and!; [|rewrite Hk|done].
  - eapply more_fuel; [apply parsepipe_more|done|lia].
  - cbn [parseback]. by rewrite (follows_peek after_back) by (done || each_token).
Qed.

Lemma line_of_back t : level t <> 3%nat -> ok_back t -> ok_line t.
Proof.
  intros Hl Hb s Hs.
  destruct (back_parsed t s Hb) as (c0 & s0 & c & f & E1 & E2 & Hc);
    [by apply (follows_weaken after_line); [sub_tokens|]|].
  exists c. split; [|done]. exists (S f). rewrite (pr_level t 3 2) by (by destruct t).
  cbn [parseline]. rewrite E1. cbn [pbind]. rewrite E2. cbn [pbind].
  by rewrite (follows_peek after_line) by (done || each_token).
Qed.

(** ** Parentheses and redirections *)

Lemma pr_group_app x s : pr_group x ++ s = 40 :: 32 :: x ++ 41 :: 32 :: s.
Proof. unfold pr_group, pr_sym. simpl. by rewrite <- !app_assoc. Qed.

Lemma pr_redir_app x op file s : (x ++ op ++ file ++ [32]) ++ s = x ++ op ++ file ++ 32 :: s.
Proof. by rewrite <- !app_assoc. Qed.

Lemma tight_pr t lvl s : tree_ok t -> tight s -> tight (pr lvl t ++ s).
Proof.
  revert lvl s. induction t as [argv|t IH file mode fd|l IHl r IHr|l IHl r IHr|t IH]; intros lvl s Hok Hs;
    cbn [pr]; unfold pr_at; destruct (_ <=? lvl)%nat; rewrite ?pr_group_app; try (by apply tight_cons).
  - destruct Hok as [Hw _]. destruct Hw as [|w argv Hw _]; [done|].
    rewrite pr_words_cons. by apply tight_word.
  - rewrite <- !app_assoc. apply IHl; [apply Hok|]. by apply tight_cons.
  - rewrite <- !app_assoc. apply IHl; [apply Hok|]. by apply tight_cons.
  - rewrite <- !app_assoc. apply IH; [done|]. by apply tight_cons.
Qed.

Lemma exec_of_group x s1 c rs s2 :
  tight (x ++ 41 :: 32 :: s1) -> tight s1 ->
  parses parseline (x ++ 41 :: 32 :: s1) c (41 :: 32 :: s1) -> parses parseredirs s1 rs s2 ->
  parses parseexec (pr_group x ++ s1) (wrap_redirs c rs) s2.
Proof.
  intros Hx Hs1 [f1 E1] [f2 E2]. rewrite pr_group_app. exists (S (S (f1 + f2))).
  assert (Hp : peek (40 :: 32 :: x ++ 41 :: 32 :: s1) (bytes "(") = (40 :: 32 :: x ++ 41 :: 32 :: s1, true)) by done.
  cbn [parseexec]. rewrite Hp. cbn [parseblock]. rewrite Hp. cbn [negb].
  rewrite gettoken_sym by (done || sub_tokens || (simpl; set_solver)). cbn [t_rest].
  rewrite (more_fuel parseline _ _ _ f1 (f1 + f2) parseline_more E1) by lia. cbn [pbind].
  change (peek (41 :: 32 :: s1) (bytes ")")) with (41 :: 32 :: s1, true). cbn [negb].
  rewrite gettoken_sym by (done || (simpl; set_solver)). cbn [t_rest].
  by rewrite (more_fuel parseredirs _ _ _ f2 (f1 + f2) parseredirs_more E2) by lia.
Qed.

Lemma after_exec_redirs s : follows after_exec s -> parses parseredirs s [] s.
Proof.
  intros Hs. exists 1%nat. apply parseredirs_none. by apply (follows_peek after_exec); [each_token|].
Qed.

Lemma parseredirs_op mode fd file s :
  redir_ok mode fd -> word_ok file -> follows after_exec s ->
  exists w, parses parseredirs (pr_op mode ++ file ++ 32 :: s) [Redir w mode fd] s /\ word_text w = file.
Proof.
  intros Hm Hf Hs. exists (Word (file ++ 32 :: s) (32 :: s)). split; [|apply (word_text_app file (32 :: s))].
  assert (Ht : tight s) by (apply (follows_tight after_exec); [each_token|done]).
  pose proof (tight_word file (32 :: s) Hf) as Htf. pose proof (gettoken_word file s Hf Ht) as Hg.
  destruct (gettoken_out _ Htf) as [Ho Ha]. destruct (after_exec_redirs s Hs) as [f Ef].
  exists (S f). unfold redir_ok in Hm. rewrite !elem_of_cons in Hm.
  repeat (destruct Hm as [[= -> ->]|Hm]);
    [change (pr_op _ ++ file ++ 32 :: s) with (60 :: 32 :: file ++ 32 :: s)
    |change (pr_op _ ++ file ++ 32 :: s) with (62 :: 32 :: file ++ 32 :: s)
    |change (pr_op _ ++ file ++ 32 :: s) with (62 :: 62 :: 32 :: file ++ 32 :: s)
    |by apply not_elem_of_nil in Hm];
    cbn [parseredirs]; rewrite peek_tight by (by apply tight_cons);
    rewrite bool_decide_eq_true_2 by (simpl; set_solver);
    rewrite ?gettoken_sym, ?Ho, ?Ha by (done || (simpl; set_solver));
    cbn [t_rest t_ret]; rewrite Hg; cbn [t_rest t_ret t_word]; rewrite Ef; done.
Qed.

Lemma exec_of_line t : tree_ok t -> level t <> 0%nat -> ok_line t -> ok_exec t.
Proof.
  intros Hok Hl Hln s Hs.
  assert (Ht : tight s) by (apply (follows_tight after_exec); [each_token|done]).
  destruct (Hln (41 :: 32 :: s)) as (c & Hc & Hp); [right; by eexists _, _; split; [done|simpl; set_solver]|].
  exists c. split; [|done].
  assert (E : pr 0 t = pr_group (pr 3 t)) by (destruct t; done).
  rewrite E. change c with (wrap_redirs c []). eapply exec_of_group; [|done|done|by apply after_exec_redirs].
  apply tight_pr; [done|]. by apply tight_cons.
Qed.

(** ** All commands *)

Definition all_ok (t : tree (list Z)) : Prop := ok_exec t /\ ok_pipe t /\ ok_back t /\ ok_line t.

Lemma all_of_exec t : level t = 0%nat -> ok_exec t -> all_ok t.
Proof.
  intros Hl He. assert (Hp : ok_pipe t) by (apply pipe_of_exec; [lia|done]).
  assert (Hb : ok_back t) by (apply back_of_pipe; [lia|done]).
  assert (ok_line t) by (apply line_of_back; [lia|done]). done.
Qed.

(** The head of what follows, for the symbols the grammar puts between commands. *)
Lemma follows_sym c s toks : c ∈ toks -> follows toks (c :: s).
Proof. intros Hc. right. by exists c, s. Qed.

Ltac sym := apply follows_sym; simpl; set_solver.
Ltac body := cbn [pr]; unfold pr_at; simpl (_ <=? _)%nat; cbv iota.

Lemma exec_all argv : tree_ok (EXEC argv) -> all_ok (EXEC argv).
Proof.
  intros [Hw Hn]. apply all_of_exec; [done|]. intros s Hs.
  destruct (words_start argv s Hw Hs) as (Ht & Hr & Hb).
  destruct (parseargs_words argv [] s Hw Hn Hs) as (ws & [f Ef] & Ew).
  exists (EXEC ws). split; [|unfold parsed; simpl; by rewrite Ew].
  exists (S (S f)). body. cbn [parseexec]. rewrite Hb, parseredirs_none by done. cbn [pbind].
  refine (more_fuel (fun f s => parseargs f s _ []) _ _ _ f (S f) _ Ef _); [|lia].
  intros f' s'. apply parseargs_more.
Qed.

Lemma redir_all t file mode fd :
  tree_ok (REDIR t file mode fd) -> ok_line t -> all_ok (REDIR t file mode fd).
Proof.
  intros (Hok & Hf & Hm) Hl. apply all_of_exec; [done|]. intros s Hs.
  destruct (parseredirs_op mode fd file s Hm Hf Hs) as (w & Hr & Hw).
  destruct (Hl (41 :: 32 :: (pr_op mode ++ file ++ 32 :: s))) as (c & Hc & Hp); [sym|].
  exists (REDIR c w mode fd). split; [|unfold parsed in *; simpl; by rewrite Hp, Hw].
  body. rewrite pr_redir_app. change (REDIR c w mode fd) with (wrap_redirs c [Redir w mode fd]).
  eapply exec_of_group; [..|done|done].
  - apply tight_pr; [done|]. by apply tight_cons.
  - unfold pr_op. destruct (mode =? _); [by apply tight_cons|]. destruct (mode =? _); by apply tight_cons.
Qed.

Lemma pr_infix_app x c y s : (x ++ pr_sym c ++ y) ++ s = x ++ c :: 32 :: (y ++ s).
Proof. unfold pr_sym. by rewrite <- !app_assoc. Qed.

Lemma pipe_all l r : tree_ok (PIPE l r) -> ok_exec l -> ok_pipe r -> all_ok (PIPE l r).
Proof.
  intros [Hokl Hokr] Hel Hpr.
  assert (Hp : ok_pipe (PIPE l r)).
  { intros s Hs. destruct (Hpr s Hs) as (c2 & [f2 E2] & P2).
    destruct (Hel (124 :: 32 :: (pr 1 r ++ s))) as (c1 & [f1 E1] & P1); [sym|].
    exists (PIPE c1 c2). split; [|unfold parsed in *; simpl; by rewrite P1, P2].
    exists (S (f1 + f2)). body. rewrite pr_infix_app. cbn [parsepipe].
    rewrite (more_fuel parseexec _ _ _ f1 (f1 + f2) parseexec_more E1) by lia. cbn [pbind].
    change (peek (124 :: ?x) (bytes "|")) with (124 :: x, true). cbv beta iota.
    rewrite gettoken_sym; [cbn [t_rest]|simpl; set_solver|apply tight_pr; [done|]].
    - by rewrite (more_fuel parsepipe _ _ _ f2 (f1 + f2) parsepipe_more E2) by lia.
    - apply (follows_tight after_pipe); [each_token|done]. }
  assert (Hb : ok_back (PIPE l r)) by (by apply back_of_pipe).
  assert (Hl : ok_line (PIPE l r)) by (by apply line_of_back).
  assert (ok_exec (PIPE l r)) by (by apply exec_of_line). done.
Qed.

Lemma list_all l r : tree_ok (LIST l r) -> ok_back l -> ok_line r -> all_ok (LIST l r).
Proof.
  intros [Hokl Hokr] Hbl Hlr.
  assert (Hl : ok_line (LIST l r)).
  { intros s Hs. destruct (Hlr s Hs) as (c2 & [f2 E2] & P2).
    destruct (back_parsed l (59 :: 32 :: (pr 3 r ++ s)) Hbl) as (c0 & s0 & c1 & f1 & E0 & E1 & P1); [sym|].
    exists (LIST c1 c2). split; [|unfold parsed in *; simpl; by rewrite P1, P2].
    exists (S (f1 + f2)). body. rewrite pr_infix_app. cbn [parseline].
    rewrite (more_fuel parsepipe _ _ _ f1 (f1 + f2) parsepipe_more E0) by lia. cbn [pbind].
    rewrite (more_fuel (fun f => parseback f c0) _ _ _ f1 (f1 + f2) (fun f => parseback_more f c0) E1) by lia.
    cbn [pbind]. change (peek (59 :: ?x) (bytes ";")) with (59 :: x, true). cbv beta iota.
    rewrite gettoken_sym; [cbn [t_rest]|simpl; set_solver|apply tight_pr; [done|]].
    - by rewrite (more_fuel parseline _ _ _ f2 (f1 + f2) parseline_more E2) by lia.
    - apply (follows_tight after_line); [each_token|done]. }
  assert (He : ok_exec (LIST l r)) by (by apply exec_of_line).
  assert (Hp : ok_pipe (LIST l r)) by (by apply pipe_of_exec).
  assert (ok_back (LIST l r)) by (by apply back_of_pipe). done.
Qed.

Lemma back_all t : tree_ok t -> ok_back t -> all_ok (BACK t).
Proof.
  intros Hok Hb. assert (Hb' : ok_back (BACK t)).
  { intros s Hs. assert (Ht : tight s) by (apply (follows_tight after_pipe); [each_token|done]).
    destruct (Hb (38 :: 32 :: s)) as (c0 & s0 & n & c & E0 & Hk & P); [sym|].
    exists c0, s0, (n + 1)%nat, (BACK c). split_and!; [|intros f|unfold parsed in *; simpl; by rewrite P].
    - body. rewrite <- app_assoc. done.
    - rewrite <- Nat.add_assoc, Hk. simpl Nat.add. cbn [parseback].
      change (peek (38 :: 32 :: s) (bytes "&")) with (38 :: 32 :: s, true). cbv beta iota.
      by rewrite gettoken_sym by (done || (simpl; set_solver)). }
  assert (Hl : ok_line (BACK t)) by (by apply line_of_back).
  assert (He : ok_exec (BACK t)) by (by apply exec_of_line).
  assert (ok_pipe (BACK t)) by (by apply pipe_of_exec). done.
Qed.

Lemma all_levels t : tree_ok t -> all_ok t.
Proof.
  induction t as [argv|t IH file mode fd|l IHl r IHr|l IHl r IHr|t IH]; intros Hok.
  - by apply exec_all.
  - apply redir_all; [done|]. apply IH, Hok.
  - apply pipe_all; [done|apply IHl, Hok|apply IHr, Hok].
  - apply list_all; [done|apply IHl, Hok|apply IHr, Hok].
  - apply back_all; [done|by apply IH].
Qed.

(** ** The words of the tree in the buffer *)

Lemma drop_while_split f s : exists p, s = p ++ drop_while f s /\ Forall (fun c => f c = true) p.
Proof.
  induction s as [|c s (p & E & Hp)]; simpl; [by exists []|].
  destruct (f c) eqn:Ec; [|by exists []]. exists (c :: p). split; [simpl; by f_equal|by constructor].
Qed.

Lemma drop_while_head f s c t : drop_while f s = c :: t -> f c = false.
Proof. induction s as [|x s IH]; simpl; [done|]. destruct (f x) eqn:E; [done|]. by intros [= -> ->]. Qed.

Lemma skip_suffix f s line : s `suffix_of` line -> drop_while f s `suffix_of` line.
Proof.
  intros [p ->]. destruct (drop_while_split f s) as (p' & E & _).
  exists (p ++ p'). by rewrite <- app_assoc, <- E.
Qed.

(** A word of the line: it ends where the word characters end. *)
Definition word_in (line : list Z) (w : word) : Prop :=
  w_q w `suffix_of` line /\ w_eq w = skip_word (w_q w).

Definition sound {A} (P : A -> Prop) (line : list Z) (m : presult A) : Prop :=
  match m with POk a s => P a /\ s `suffix_of` line | _ => True end.

Lemma sound_bind {A B} (P : A -> Prop) (Q : B -> Prop) line m f :
  sound P line m -> (forall a s, P a -> s `suffix_of` line -> sound Q line (f a s)) ->
  sound Q line (pbind m f).
Proof. destruct m; simpl; naive_solver. Qed.

Lemma suffix_tail (c : Z) s line : c :: s `suffix_of` line -> s `suffix_of` line.
Proof. intros [p ->]. exists (p ++ [c]). by rewrite <- app_assoc. Qed.

Lemma gettoken_sound s line : s `suffix_of` line ->
  t_rest (gettoken s) `suffix_of` line /\
  (t_ret (gettoken s) = 97 -> word_in line (t_word (gettoken s))).
Proof.
  intros Hs. apply (skip_suffix is_ws) in Hs. fold (skip_ws s) in Hs. unfold gettoken.
  destruct (skip_ws s) as [|c t]; [split; [done|simpl; lia]|].
  pose proof (suffix_tail _ _ _ Hs) as Ht. case_bool_decide as Hc; simpl.
  { split; [by apply (skip_suffix is_ws)|]. intros ->. simpl in Hc. set_solver. }
  destruct (Z.eqb_spec c 62) as [->|]; simpl.
  - destruct t as [|d t]; simpl; [by split|]. pose proof (suffix_tail _ _ _ Ht).
    destruct (d =? 62); simpl; (split; [by apply (skip_suffix is_ws)|lia]).
  - split; [by do 2 apply skip_suffix|done].
Qed.

Lemma peek_sound s toks line : s `suffix_of` line -> (peek s toks).1 `suffix_of` line.
Proof. apply (skip_suffix is_ws). Qed.

Lemma parseredirs_sound fuel s line : s `suffix_of` line ->
  sound (fun rs => Forall (fun r => word_in line (r_file r)) rs) line (parseredirs fuel s).
Proof.
  revert s. induction fuel as [|fuel IH]; intros s Hs; [done|]. cbn [parseredirs].
  pose proof (peek_sound s (bytes "<>") line Hs) as Hp.
  destruct (peek s (bytes "<>")) as [s' []]; [|by split; [constructor|]].
  destruct (gettoken_sound s' line Hp) as [H1 _]. destruct (gettoken_sound _ line H1) as [H2 Hw].
  cbv zeta. destruct (Z.eqb_spec (t_ret (gettoken (t_rest (gettoken s')))) 97) as [E|]; simpl negb; [|done].
  cbv iota. eapply sound_bind; [by apply IH|]. intros rs s2 Hrs Hs2. split; [|done]. constructor; [|done].
  unfold redir_of. repeat case_match; by apply Hw.
Qed.

Lemma wrap_words (c : cmd) rs : tree_words (wrap_redirs c rs) = tree_words c ++ (r_file <$> rs).
Proof.
  unfold wrap_redirs. revert c. induction rs as [|r rs IH]; intros c; simpl; [by rewrite app_nil_r|].
  rewrite IH. unfold redircmd. simpl. by rewrite <- app_assoc.
Qed.

Definition words_in (line : list Z) (c : cmd) : Prop := Forall (word_in line) (tree_words c).

Lemma words_in_wrap line c rs :
  words_in line c -> Forall (fun r => word_in line (r_file r)) rs -> words_in line (wrap_redirs c rs).
Proof.
  unfold words_in. rewrite wrap_words. intros Hc Hr. apply Forall_app. split; [done|].
  by apply Forall_fmap.
Qed.

Lemma parseargs_sound fuel s argv rs line : s `suffix_of` line ->
  Forall (word_in line) argv -> Forall (fun r => word_in line (r_file r)) rs ->
  sound (words_in line) line (parseargs fuel s argv rs).
Proof.
  revert s argv rs. induction fuel as [|fuel IH]; intros s argv rs Hs Ha Hr; [done|]. cbn [parseargs].
  pose proof (peek_sound s (bytes "|)&;") line Hs) as Hp.
  destruct (peek s (bytes "|)&;")) as [s' []]; [split; [by apply words_in_wrap|done]|].
  destruct (gettoken_sound s' line Hp) as [H1 Hw].
  cbv zeta. destruct (_ =? 0); [split; [by apply words_in_wrap|done]|].
  destruct (Z.eqb_spec (t_ret (gettoken s')) 97) as [E|]; simpl negb; [|done]. cbv iota.
  destruct (_ <=? _)%nat; [done|]. eapply sound_bind; [by apply parseredirs_sound|].
  intros rs' s2 Hr' Hs2. apply IH; [done| |by apply Forall_app].
  apply Forall_app. split; [done|]. constructor; [by apply Hw|done].
Qed.

Lemma parseback_sound fuel c s line : s `suffix_of` line -> words_in line c ->
  sound (words_in line) line (parseback fuel c s).
Proof.
  revert c s. induction fuel as [|fuel IH]; intros c s Hs Hc; [done|]. cbn [parseback].
  pose proof (peek_sound s (bytes "&") line Hs) as Hp.
  destruct (peek s (bytes "&")) as [s' []]; [|done]. apply IH; [|done].
  by apply gettoken_sound.
Qed.

Lemma words_in_node line (l r : cmd) (node : cmd -> cmd -> cmd) :
  (forall l r, tree_words (node l r) = tree_words l ++ tree_words r) ->
  words_in line l -> words_in line r -> words_in line (node l r).
Proof. unfold words_in. intros ->. intros. by apply Forall_app. Qed.

Lemma parse_sound fuel line :
  (forall s, s `suffix_of` line -> sound (words_in line) line (parseline fuel s)) /\
  (forall s, s `suffix_of` line -> sound (words_in line) line (parsepipe fuel s)) /\
  (forall s, s `suffix_of` line -> sound (words_in line) line (parseexec fuel s)) /\
  (forall s, s `suffix_of` line -> sound (words_in line) line (parseblock fuel s)).
Proof.
  induction fuel as [|fuel (IHl & IHp & IHe & IHb)]; [done|].
  split_and!; intros s Hs; cbn [parseline parsepipe parseexec parseblock].
  - eapply sound_bind; [by apply IHp|]. intros c s1 Hc H1.
    eapply sound_bind; [by apply parseback_sound|]. intros c' s2 Hc' H2.
    pose proof (peek_sound s2 (bytes ";") line H2) as Hp. destruct (peek s2 (bytes ";")) as [s' []]; [|done].
    eapply sound_bind; [by apply IHl, gettoken_sound|]. intros r s3 Hr H3. split; [|done].
    by apply (words_in_node line c' r LIST).
  - eapply sound_bind; [by apply IHe|]. intros c s1 Hc H1.
    pose proof (peek_sound s1 (bytes "|") line H1) as Hp. destruct (peek s1 (bytes "|")) as [s' []]; [|done].
    eapply sound_bind; [by apply IHp, gettoken_sound|]. intros r s3 Hr H3. split; [|done].
    by apply (words_in_node line c r PIPE).
  - pose proof (peek_sound s (bytes "(") line Hs) as Hp. destruct (peek s (bytes "(")) as [s' []]; [by apply IHb|].
    eapply sound_bind; [by apply parseredirs_sound|]. intros rs s2 Hr H2. by apply parseargs_sound.
  - pose proof (peek_sound s (bytes "(") line Hs) as Hp.
    destruct (peek s (bytes "(")) as [s' []]; [|done]. simpl negb. cbv iota.
    eapply sound_bind; [by apply IHl, gettoken_sound|]. intros c s2 Hc H2.
    pose proof (peek_sound s2 (bytes ")") line H2) as Hp2.
    destruct (peek s2 (bytes ")")) as [s3 []]; [|done]. simpl negb. cbv iota.
    eapply sound_bind; [by apply parseredirs_sound, gettoken_sound|]. intros rs s4 Hr H4.
    split; [by apply words_in_wrap|done].
Qed.

(** ** Cutting *)

Definition cuts (n : nat) (ws : list word) (buf : list Z) : list Z := foldl (fun b w => cut n w b) buf ws.

Lemma nulterminate_cuts n (c : cmd) buf : nulterminate n c buf = cuts n (tree_words c) buf.
Proof.
  unfold cuts. revert buf. induction c as [argv|c IH file mode fd|l IHl r IHr|l IHl r IHr|c IH]; intros buf;
    simpl; rewrite ?foldl_app; simpl; congruence.
Qed.

Lemma length_cuts n ws buf : length (cuts n ws buf) = length buf.
Proof.
  induction ws as [|w ws IH] using rev_ind; [done|]. unfold cuts. rewrite foldl_app. cbn [foldl].
  unfold cut at 1. by rewrite length_zset.
Qed.

Lemma cuts_zget n ws buf j :
  0 <= j < Z.of_nat (length buf) ->
  zget (cuts n ws buf) j =
    if bool_decide (Exists (fun w => position n (w_eq w) = j) ws) then Some 0 else zget buf j.
Proof.
  intros Hj. induction ws as [|w ws IH] using rev_ind.
  { by rewrite bool_decide_eq_false_2 by (rewrite Exists_nil; tauto). }
  unfold cuts. rewrite foldl_app. cbn [foldl]. fold (cuts n ws buf). unfold cut.
  destruct (decide (position n (w_eq w) = j)) as [<-|Hne].
  - rewrite zget_zset_eq by (rewrite length_cuts; lia).
    rewrite bool_decide_eq_true_2; [done|]. apply Exists_app. right. by apply Exists_cons_hd.
  - rewrite zget_zset_ne, IH by done.
    erewrite (bool_decide_ext (Exists _ ws)); [done|].
    rewrite Exists_app, Exists_cons, Exists_nil. tauto.
Qed.

Lemma cstr_word (l p : list Z) :
  (forall k c, p !! k = Some c -> l !! k = Some c /\ c <> 0) -> l !! length p = Some 0 -> cstr l = p.
Proof.
  revert l. induction p as [|c p IH]; intros l Hp Hz.
  - destruct l as [|x l]; [done|]. injection Hz as ->. done.
  - destruct l as [|x l]; [done|]. destruct (Hp 0%nat c eq_refl) as [[= ->] Hc]. simpl.
    rewrite (proj2 (Z.eqb_neq c 0)) by done. f_equal. apply IH; [|done].
    intros k d Hk. apply (Hp (S k) d Hk).
Qed.

(** Where a word of the line is: what comes before it, its characters, and the
    place its end points to, which is the end of the line or not a word character. *)
Lemma word_in_split line w :
  word_in line w ->
  exists pre, line = pre ++ word_text w ++ w_eq w /\ w_q w = word_text w ++ w_eq w /\
    Forall (fun c => is_word c = true) (word_text w) /\
    (forall c, head (w_eq w) = Some c -> is_word c = false).
Proof.
  intros [[pre Epre] Eeq]. exists pre.
  destruct (drop_while_split is_word (w_q w)) as (p & Ep & Hp). fold (skip_word (w_q w)) in Ep.
  rewrite <- Eeq in Ep.
  assert (Et : word_text w = p).
  { unfold word_text. rewrite Ep at 1 2. rewrite length_app. apply take_app_length'. lia. }
  rewrite Et. split_and!; [by rewrite <- Ep|done|done|].
  intros c Hc. destruct (w_eq w) as [|d t] eqn:Ed; [done|]. injection Hc as ->.
  symmetry in Eeq. by apply drop_while_head in Eeq.
Qed.

Lemma cuts_lookup n ws buf k :
  (k < length buf)%nat ->
  cuts n ws buf !! k =
    if bool_decide (Exists (fun w => position n (w_eq w) = Z.of_nat k) ws) then Some 0 else buf !! k.
Proof.
  intros Hk. pose proof (cuts_zget n ws buf (Z.of_nat k) ltac:(lia)) as E.
  unfold zget in E. by rewrite (proj2 (Z.leb_le 0 _)), Nat2Z.id in E by lia.
Qed.

(** No word of the line ends inside another one. *)
Lemma no_cut_inside line w w' pre k c :
  word_in line w' -> line = pre ++ word_text w ++ w_eq w -> Forall (fun c => is_word c = true) (word_text w) ->
  word_text w !! k = Some c -> position (length line) (w_eq w') <> Z.of_nat (length pre + k).
Proof.
  intros (pre' & Epre' & _ & _ & Hhd)%word_in_split Epre Hp Hk Hpos.
  assert (Hl : line !! (length pre + k)%nat = Some c).
  { rewrite Epre, lookup_app_r by lia. replace (length pre + k - length pre)%nat with k by lia.
    apply lookup_app_l_Some, Hk. }
  pose proof (f_equal length Epre') as Hlen. rewrite !length_app in Hlen. unfold position in Hpos.
  rewrite Epre', lookup_app_r, lookup_app_r in Hl by lia.
  replace (length pre + k - length pre' - length (word_text w'))%nat with 0%nat in Hl by lia.
  rewrite <- head_lookup in Hl. apply Hhd in Hl. by rewrite (Forall_lookup_1 _ _ _ _ Hp Hk) in Hl.
Qed.

(** Cutting at the ends of the words leaves the words. *)
Lemma string_at_word line ws w :
  Forall (word_in line) ws -> w ∈ ws -> Forall (fun c => c <> 0) (word_text w) ->
  string_at (length line) (cuts (length line) ws (line ++ [0])) w = word_text w.
Proof.
  rewrite list.Forall_forall. intros Hall Hin Hnz.
  destruct (word_in_split line w (Hall w Hin)) as (pre & Epre & Eq & Hp & _).
  pose proof (f_equal length Epre) as Hlen. rewrite !length_app in Hlen.
  pose proof (f_equal length Eq) as Hlq. rewrite length_app in Hlq.
  unfold string_at. replace (position (length line) (w_q w)) with (Z.of_nat (length pre)) by (unfold position; lia).
  rewrite Nat2Z.id. apply cstr_word.
  - intros k c Hk. split; [|by eapply Forall_lookup_1 in Hnz]. pose proof (lookup_lt_Some _ _ _ Hk).
    rewrite lookup_drop, cuts_lookup by (rewrite length_app; simpl; lia). rewrite bool_decide_eq_false_2.
    + rewrite lookup_app_l, Epre, lookup_app_r by lia.
      replace (length pre + k - length pre)%nat with k by lia. by apply lookup_app_l_Some.
    + rewrite list.Exists_exists. intros (w' & Hin' & Hpos).
      by apply (no_cut_inside line w w' pre k c (Hall w' Hin') Epre Hp Hk).
  - rewrite lookup_drop, cuts_lookup by (rewrite length_app; simpl; lia).
    rewrite bool_decide_eq_true_2; [done|]. apply list.Exists_exists.
    exists w. split; [done|]. unfold position. lia.
Qed.

(** The fuel of [parsecmd] gives every result some fuel gives. *)
Lemma parse_fuel_enough line c f : parseline f line = POk c [] -> parseline (parse_fuel line) line = POk c [].
Proof.
  intros Ef. destruct (parse_ends (parse_fuel line)) as (He & _).
  specialize (He line ltac:(unfold parse_fuel; lia)).
  assert (G : forall k, parseline (k + parse_fuel line) line = parseline (parse_fuel line) line).
  { induction k as [|k IH]; [done|]. cbn [Nat.add].
    destruct (parseline_more (k + parse_fuel line) line) as [H0|H0]; [|congruence].
    rewrite <- IH, H0 in He. done. }
  rewrite <- (G f). by apply (more_fuel _ _ _ _ f _ parseline_more Ef); lia.
Qed.

Lemma tree_map_ext {V W} (f g : V -> W) (t : tree V) :
  Forall (fun v => f v = g v) (tree_words t) -> tree_map f t = tree_map g t.
Proof.
  induction t as [argv|t IH file mode fd|l IHl r IHr|l IHl r IHr|t IH]; simpl; rewrite ?Forall_app; intros H;
    [|destruct H as [? [? _]%list.Forall_cons]|destruct H..|]; f_equal; auto.
  induction H as [|v vs Hv _ IH]; [done|]. by rewrite !fmap_cons, Hv, IH.
Qed.

Lemma tree_words_map {V W} (f : V -> W) (t : tree V) : tree_words (tree_map f t) = f <$> tree_words t.
Proof.
  induction t as [argv|t IH file mode fd|l IHl r IHr|l IHl r IHr|t IH]; simpl; rewrite ?fmap_app; try done;
    by rewrite ?IH, ?IHl, ?IHr.
Qed.

Lemma tree_ok_words t : tree_ok t -> Forall word_ok (tree_words t).
Proof.
  induction t as [argv|t IH file mode fd|l IHl r IHr|l IHl r IHr|t IH]; simpl; rewrite ?Forall_app; [tauto|..|done].
  - intros (? & ? & _). split; [auto|]. by constructor.
  - intros []; auto.
  - intros []; auto.
Qed.

(** C20: Printing and parsing: for every command (arguments, redirections, pipelines,
    lists, background commands, nested in any way) the parser reads the printed
    text back as the same command, and after [nulterminate] every argument and
    file name in the tree is a pointer to its string in the buffer, cut out of
    the line in place without damaging the others. *)
Theorem parsecmd_roundtrip (t : tree (list Z)) :
  tree_ok t ->
  let line := pr 3 t in
  exists c, parsecmd line = POk c [] /\
    let buf := nulterminate (length line) c (line ++ [0]) in
    tree_map (string_at (length line) buf) c = t.
Proof.
  intros Hok line. destruct (all_levels t Hok) as (_ & _ & _ & Hl).
  destruct (Hl [] ltac:(by left)) as (c & [f Ef] & Hc). rewrite app_nil_r in Ef. fold line in Ef.
  pose proof (parse_fuel_enough line c f Ef) as E.
  exists c. split; [unfold parsecmd; by rewrite E|]. intros buf. unfold parsed in Hc. rewrite <- Hc.
  destruct (parse_sound (parse_fuel line) line) as (Hs & _). specialize (Hs line ltac:(done)). rewrite E in Hs.
  destruct Hs as [Hw _]. apply tree_map_ext. unfold buf. rewrite nulterminate_cuts.
  apply list.Forall_forall. intros w Hin. apply string_at_word; [done|done|].
  apply tree_ok_words in Hok. rewrite <- Hc, tree_words_map, list.Forall_forall in Hok.
  destruct (Hok (word_text w)) as [_ Hz]; [by apply list_elem_of_fmap_2|].
  eapply Forall_impl; [|exact Hz]. naive_solver.
Qed.

(** [( cat < in | grep x ) > out & ; echo] *)
Definition demo_tree : tree (list Z) :=
  LIST (BACK (REDIR (PIPE (REDIR (EXEC [bytes "cat"]) (bytes "in") O_RDONLY 0)
                          (EXEC [bytes "grep"; bytes "x"])) (bytes "out") 1537 1))
       (EXEC [bytes "echo"]).

Lemma parsecmd_roundtrip_witness :
  let line := pr 3 demo_tree in
  exists c, parsecmd line = POk c [] /\
    let buf := nulterminate (length line) c (line ++ [0]) in
    tree_map (string_at (length line) buf) c = demo_tree.
Proof.
  apply (parsecmd_roundtrip demo_tree). unfold demo_tree. simpl. unfold word_ok, redir_ok.
  repeat (split || constructor || discriminate || (simpl; lia) || (vm_compute; reflexivity) || set_solver).
Defined.
