(* ===== verification/ShRun.v ===== *)
(** * user/sh.c: running commands

    [runcmd] as the tree of processes it starts, each with the descriptor table it has when it
    calls [exec].  A descriptor table is the array of open files of a process (NOFILE
    entries); [open], [dup] and [pipe] use the lowest free descriptors, as [fdalloc] of
    kernel/sysfile.c does ([find_fd]); [fork] copies the table.  The parameter [open_ok] says
    whether a file can be opened.

    [wiring] is what the user of the shell expects: which file each program has as its
    standard input, output and error, and no other descriptor. *)

From Stdlib Require Import ZArith Lia.
From stdpp Require Import base list strings numbers option.
From S2P Require Import Prelude Sysfile Ulib Sh.

(** ** Descriptor tables *)

(** An open file: inherited, opened by a redirection, or an end of the [n]-th pipe. *)
Inductive ofile (W : Type) :=
| Inherited (k : Z)
| Opened (file : W) (mode : Z)
| PipeRead (n : Z)
| PipeWrite (n : Z).
Arguments Inherited {W} _.
Arguments Opened {W} _ _.
Arguments PipeRead {W} _.
Arguments PipeWrite {W} _.

Section Run.
Context {W : Type} (open_ok : W -> Z -> bool).
Abbreviation table := (list (option (ofile W))).

(** The lowest free descriptor, as [find_fd]. *)
Fixpoint lowest (l : table) (i : Z) : option Z :=
  match l with
  | [] => None
  | None :: _ => Some i
  | Some _ :: l' => lowest l' (i + 1)
  end.

Definition fd_close (fds : table) (fd : Z) : table := zset fds fd None.
Definition fd_new (fds : table) (f : ofile W) : option (Z * table) :=
  fd ← lowest fds 0; Some (fd, zset fds fd (Some f)).
(** [dup(fd)]: the result is ignored by the shell. *)
Definition fd_dup (fds : table) (fd : Z) : table :=
  match zget fds fd with
  | Some (Some f) => match fd_new fds f with Some (_, fds') => fds' | None => fds end
  | _ => fds
  end.

(** ** [runcmd] *)

(** The processes: a program started with a table, an exit with a status, a command after
    which another is run, the two sides of a pipe, a command in the background. *)
Inductive procs :=
| Run (argv : list W) (fds : table)
| Exit (status : Z)
| Then (p q : procs)
| Both (p q : procs)
| Background (p : procs).

(** The processes and the number of pipes made so far. *)
Fixpoint runcmd (c : tree W) (fds : table) (n : Z) : procs * Z :=
  match c with
  | EXEC argv => (match argv with [] => Exit 1 | _ => Run argv fds end, n)
  | REDIR c file mode fd =>
    let fds := fd_close fds fd in
    if open_ok file mode then
      match fd_new fds (Opened file mode) with
      | Some (_, fds) => runcmd c fds n
      | None => (Exit 1, n)
      end
    else (Exit 1, n)
  | LIST l r =>
    let '(p, n) := runcmd l fds n in
    let '(q, n) := runcmd r fds n in
    (Then p q, n)
  | PIPE l r =>
    match fd_new fds (PipeRead n) with
    | None => (Exit 1, n)
    | Some (p0, fds0) =>
      match fd_new fds0 (PipeWrite n) with
      | None => (Exit 1, n)
      | Some (p1, fds1) =>
        let left := fd_close (fd_close (fd_dup (fd_close fds1 1) p1) p0) p1 in
        let right := fd_close (fd_close (fd_dup (fd_close fds1 0) p0) p0) p1 in
        let '(p, n') := runcmd l left (n + 1) in
        let '(q, n') := runcmd r right n' in
        (Both p q, n')
      end
    end
  | BACK c =>
    let '(p, n) := runcmd c fds n in
    (Background p, n)
  end.

(** ** The loop of [main] *)

(** [while((fd = open("console", O_RDWR)) >= 0)]. *)
Fixpoint open_console (fuel : nat) (console : ofile W) (fds : table) : option table :=
  match fuel with
  | O => None
  | S fuel' =>
    match fd_new fds console with
    | None => Some fds
    | Some (fd, fds') => if 3 <=? fd then Some (fd_close fds' fd) else open_console fuel' console fds'
    end
  end.

(** ** What is expected *)

Definition std (i o e : ofile W) : table := Some i :: Some o :: Some e :: replicate 13 None.

Fixpoint wiring (c : tree W) (i o e : ofile W) (n : Z) : procs * Z :=
  match c with
  | EXEC argv => (match argv with [] => Exit 1 | _ => Run argv (std i o e) end, n)
  | REDIR c file mode fd =>
    let f := Opened file mode in
    if open_ok file mode then
      if fd =? 0 then wiring c f o e n else if fd =? 1 then wiring c i f e n else wiring c i o f n
    else (Exit 1, n)
  | LIST l r =>
    let '(p, n) := wiring l i o e n in
    let '(q, n) := wiring r i o e n in
    (Then p q, n)
  | PIPE l r =>
    let '(p, n') := wiring l i (PipeWrite n) e (n + 1) in
    let '(q, n') := wiring r (PipeRead n) o e n' in
    (Both p q, n')
  | BACK c =>
    let '(p, n) := wiring c i o e n in
    (Background p, n)
  end.

(** Redirections of the standard descriptors only. *)
Fixpoint std_redirs (c : tree W) : Prop :=
  match c with
  | EXEC _ => True
  | REDIR c _ _ fd => 0 <= fd <= 2 /\ std_redirs c
  | PIPE l r | LIST l r => std_redirs l /\ std_redirs r
  | BACK c => std_redirs c
  end.

(** The shell wires its commands as expected.  Starting from a shell with only its three
    standard descriptors, every program that [runcmd] starts has exactly three open
    descriptors: the ones its redirections and pipes call for, and otherwise the shell's.  In
    particular the left side of a pipe writes to the pipe the right side reads, and no
    process keeps another end of a pipe open, so the reader sees the end of the input. *)
Theorem runcmd_wiring c i o e n (Hc : std_redirs c) : runcmd c (std i o e) n = wiring c i o e n.
Proof using Type.
  revert i o e n Hc. induction c as [argv|c IH file mode fd|l IHl r IHr|l IHl r IHr|c IH]; intros i o e n Hc; cbn [runcmd wiring std_redirs] in *.
  - done.
  - destruct Hc as [Hfd Hc]. destruct (open_ok file mode); [|done].
    assert (Hcase : fd = 0 \/ fd = 1 \/ fd = 2) by lia. destruct Hcase as [->|[->| ->]]; apply (IH _ _ _ _ Hc).
  - destruct Hc as [Hl Hr]. change (fd_new (std i o e) (PipeRead n)) with (Some (3, Some i :: Some o :: Some e :: Some (PipeRead n) :: replicate 12 None)).
    cbn iota. change (fd_new (Some i :: Some o :: Some e :: Some (PipeRead n) :: replicate 12 None) (PipeWrite n)) with
      (Some (4, Some i :: Some o :: Some e :: Some (PipeRead n) :: Some (PipeWrite n) :: replicate 11 None)). cbn iota.
    set (fds1 := _ :: _ :: _ :: _ :: _ :: _).
    change (fd_close (fd_close (fd_dup (fd_close fds1 1) 4) 3) 4) with (std i (PipeWrite n) e).
    change (fd_close (fd_close (fd_dup (fd_close fds1 0) 3) 3) 4) with (std (PipeRead n) o e).
    rewrite IHl by done. destruct (wiring l i (PipeWrite n) e (n + 1)) as [p n']. by rewrite IHr.
  - destruct Hc as [Hl Hr]. rewrite IHl by done. destruct (wiring l i o e n) as [p n']. by rewrite IHr.
  - by rewrite IH.
Qed.
End Run.

(** The pipe [a | b] with output to a file. *)
Lemma runcmd_wiring_witness :
  std_redirs (PIPE (EXEC [[97]]) (REDIR (EXEC [[98]]) [102] 513 1)) /\
  fst (runcmd (fun (_ : list Z) _ => true) (PIPE (EXEC [[97]]) (REDIR (EXEC [[98]]) [102] 513 1)) (std (Inherited 0) (Inherited 1) (Inherited 2)) 0) =
    Both (Run [[97]] (std (Inherited 0) (PipeWrite 0) (Inherited 2))) (Run [[98]] (std (PipeRead 0) (Opened [102] 513) (Inherited 2))).
Proof.
  assert (Hc : std_redirs (PIPE (EXEC [[97]]) (REDIR (EXEC [[98]]) [102] 513 1))) by (cbn; split_and!; (done || lia)).
  split; [exact Hc|]. rewrite (runcmd_wiring (fun (_ : list Z) _ => true) _ _ _ _ _ Hc). reflexivity.
Defined.

(** ** The start of the shell and its loop *)

Lemma lowest_spec {W} (l : list (option (ofile W))) i : match lowest l i with
  | Some fd => i <= fd < i + Z.of_nat (length l) /\ zget l (fd - i) = Some None /\ forall k, 0 <= k < fd - i -> exists f, zget l k = Some (Some f)
  | None => forall k, 0 <= k < Z.of_nat (length l) -> exists f, zget l k = Some (Some f)
  end.
Proof.
  revert i. induction l as [|[f|] l IH]; intros i; cbn [lowest length].
  - intros k Hk. lia.
  - specialize (IH (i + 1)). assert (Hs : forall k, 1 <= k -> zget (Some f :: l) k = zget l (k - 1)).
    { intros k Hk. unfold zget. rewrite !(proj2 (Z.leb_le _ _)) by lia. by replace (Z.to_nat k) with (S (Z.to_nat (k - 1))) by lia. }
    destruct (lowest l (i + 1)) as [fd|].
    + destruct IH as (H1 & H2 & H3). split_and!; [lia|lia|rewrite Hs by lia; by replace (fd - i - 1) with (fd - (i + 1)) by lia|].
      intros k Hk. destruct (decide (k = 0)) as [->|]; [by exists f|]. rewrite Hs by lia. apply H3. lia.
    + intros k Hk. destruct (decide (k = 0)) as [->|]; [by exists f|]. rewrite Hs by lia. apply IH. lia.
  - split_and!; [lia|lia|by rewrite Z.sub_diag|intros k Hk; lia].
Qed.

(** The first loop of [main] leaves the three standard descriptors open, and the others as
    they were, whatever the table the shell starts with. *)
Lemma open_console_std {W} (console : ofile W) fuel fds : (4 <= fuel)%nat -> (3 <= length fds)%nat ->
  exists fds', open_console fuel console fds = Some fds' /\ length fds' = length fds /\
    (forall k, 0 <= k < 3 -> exists f, zget fds' k = Some (Some f)) /\
    (forall k f, zget fds k = Some (Some f) -> zget fds' k = Some (Some f)) /\ (forall k, 3 <= k -> zget fds' k = zget fds k).
Proof.
  intros Hf Hl.
  assert (G : forall m fuel fds, (3 - m < fuel)%nat -> (m <= 3)%nat -> (3 <= length fds)%nat -> (forall k, 0 <= k < Z.of_nat m -> exists f, zget fds k = Some (Some f)) ->
    exists fds', open_console fuel console fds = Some fds' /\ length fds' = length fds /\
      (forall k, 0 <= k < 3 -> exists f, zget fds' k = Some (Some f)) /\
      (forall k f, zget fds k = Some (Some f) -> zget fds' k = Some (Some f)) /\ (forall k, 3 <= k -> zget fds' k = zget fds k));
    [|apply (G 0%nat); [lia|lia|done|intros k Hk; lia]].
  clear Hf Hl fuel fds. intros m fuel. revert m. induction fuel as [|fuel IH]; intros m fds Hf Hm Hl Hopen; [lia|].
  cbn [open_console]. unfold fd_new. pose proof (lowest_spec fds 0) as Hlow. destruct (lowest fds 0) as [fd|]; cbn [mbind option_bind].
  - destruct Hlow as (H1 & H2 & H3). rewrite Z.sub_0_r in H2, H3. destruct (Z.leb_spec 3 fd) as [Hge|Hlt].
    + exists fds. assert (E : fd_close (zset fds fd (Some console)) fd = fds) by (unfold fd_close; rewrite zset_zset; by apply zset_id).
      rewrite E. split_and!; [done|done|intros k Hk; apply H3; lia|done|done].
    + assert (Hmf : Z.of_nat m <= fd) by (destruct (Z_lt_le_dec fd (Z.of_nat m)); [destruct (Hopen fd ltac:(lia)); congruence|done]).
      destruct (IH (S (Z.to_nat fd)) (zset fds fd (Some console))) as (fds' & E & Hlen & Ha & Hb & Hc); [lia|lia|by rewrite length_zset| |].
      { intros k Hk. destruct (decide (k = fd)) as [->|]; [exists console; apply zget_zset_eq; lia|]. rewrite zget_zset_ne by done. apply H3. lia. }
      exists fds'. rewrite length_zset in Hlen. split_and!; [done|done|done| |].
      * intros k f Hk. apply Hb. rewrite zget_zset_ne; [done|]. intros ->. congruence.
      * intros k Hk. rewrite Hc by done. apply zget_zset_ne. lia.
  - exists fds. split_and!; [done|done|intros k Hk; apply Hlow; lia|done|done].
Qed.

(** What a line of input does: a change of directory in the shell itself, or a command run in
    a child. *)
Inductive action := Chdir (path : list Z) | Command (line : list Z).

(** The body of the loop of [main], for the contents of [buf] as a string. *)
Definition sh_action (buf : list Z) : action :=
  if (str_at buf 0 =? 99) && (str_at buf 1 =? 100) && (str_at buf 2 =? 32) then Chdir (drop 3 (take (length buf - 1) buf))
  else Command buf.

(** [getcmd] and the loop, over the characters typed; [fuel] bounds the number of lines. *)
Fixpoint sh_loop (fuel : nat) (input : list Z) : list action :=
  match fuel with
  | O => []
  | S fuel' =>
    let '(buf, input) := ugets 100 input in
    let buf := cstr buf in
    if str_at buf 0 =? 0 then [] else sh_action buf :: sh_loop fuel' input
  end.

(** A character of a line: no newline, return or NUL. *)
Definition text_char (c : Z) : Prop := c <> 10 /\ c <> 13 /\ c <> 0.

Lemma gets_line k line rest : (forall c, c ∈ line -> text_char c) -> (length line < k)%nat -> gets_loop k (line ++ 10 :: rest) = (line ++ [10], rest).
Proof.
  revert k. induction line as [|c line IH]; intros k Hc Hk; (destruct k as [|k]; [simpl in Hk; lia|]); cbn [app gets_loop].
  - done.
  - destruct (Hc c ltac:(left)) as (H1 & H2 & _). rewrite (proj2 (Z.eqb_neq c 10)), (proj2 (Z.eqb_neq c 13)) by done. cbn [orb].
    rewrite IH; [done|intros d Hd; apply Hc; by right|simpl in Hk; lia].
Qed.

Lemma cstr_text line : (forall c, c ∈ line -> text_char c) -> cstr (line ++ [10]) = line ++ [10].
Proof.
  induction line as [|c line IH]; intros Hc; [done|]. cbn [app cstr]. destruct (Hc c ltac:(left)) as (_ & _ & H3).
  rewrite (proj2 (Z.eqb_neq c 0)) by done. f_equal. apply IH. intros d Hd. apply Hc. by right.
Qed.

(** Lines of fewer than 99 characters are handled one after another, each whole. *)
Lemma sh_loop_lines lines fuel : (forall l, l ∈ lines -> (length l < 99)%nat /\ forall c, c ∈ l -> text_char c) -> (length lines < fuel)%nat ->
  sh_loop fuel (concat ((fun l => l ++ [10]) <$> lines)) = (fun l => sh_action (l ++ [10])) <$> lines.
Proof.
  revert fuel. induction lines as [|l lines IH]; intros fuel Hl Hf; (destruct fuel as [|fuel]; [simpl in Hf; lia|]); cbn [sh_loop fmap list_fmap concat].
  - done.
  - destruct (Hl l ltac:(left)) as [Hlen Hc]. unfold ugets. rewrite <- app_assoc. cbn [app]. rewrite gets_line by (done || (simpl; lia)).
    rewrite cstr_text by done. assert (Hnz : (str_at (l ++ [10]) 0 =? 0) = false).
    { apply Z.eqb_neq. destruct l as [|c l]; [done|]. destruct (Hc c ltac:(left)) as (_ & _ & H). done. }
    rewrite Hnz. f_equal. apply IH; [|simpl in Hf; lia]. intros l' Hl'. apply Hl. by right.
Qed.
