(* ===== verification/Sys.v ===== *)
(** * User programs as interaction trees

    A user program is a tree of system calls (user/user.h): each call is an event, the answer
    of the kernel selects the branch.  [fork] answers twice in the machine, once in
    each process; a tree is one process, so the child is the branch of answer 0.  Memory that
    a call fills is part of the answer ([read], [fstat], [pipe]).  [exit] has no answer, and
    [Undefined] marks undefined behaviour.  Calls of the memory allocator, which has a model of
    its own, are events too, and so are, for the test programs, accesses to memory by address
    and calls with any pointer.  A program that never ends is an infinite tree.

    [runs] is what a process does with a kernel that answers by a function on its
    state: it holds of a result only when the process reaches it, so it includes termination. *)

From Stdlib Require Import ZArith Lia Program.Equality.
From stdpp Require Import base list strings numbers.
From ITree Require Import ITree.
From S2P Require Import Prelude UPrintf Fs.

Declare Scope prog_scope.
Delimit Scope prog_scope with prog.
Notation "'let!' x := t 'in' k" := (ITree.bind t (fun x => k))
  (at level 10, x name, t at level 200, k at level 200) : prog_scope.
Notation "'let!' ' p := t 'in' k" := (ITree.bind t (fun x => match x with p => k end))
  (at level 10, p pattern, t at level 200, k at level 200) : prog_scope.
Notation "t ;! k" := (ITree.bind t (fun _ => k))
  (at level 100, k at level 200, right associativity) : prog_scope.
Open Scope prog_scope.

(** A string argument: one the program holds, or whatever is at an address. *)
Variant uptr := Str (s : list Z) | At (addr : Z).

Variant sysE : Type -> Type :=
| Sfork : sysE Z
| Swait : sysE Z
| Spipe : sysE (option (Z * Z))
| Swrite (fd : Z) (buf : list Z) : sysE Z
| Sread (fd n : Z) : sysE (Z * list Z)
| Sclose (fd : Z) : sysE Z
| Skill (pid : Z) : sysE Z
| Sexec (path : list Z) (argv : list (list Z)) : sysE Z
| Sopen (path : list Z) (omode : Z) : sysE Z
| Smknod (path : list Z) (major minor : Z) : sysE Z
| Sunlink (path : list Z) : sysE Z
| Sfstat (fd : Z) : sysE (option stat)
| Slink (old new : list Z) : sysE Z
| Smkdir (path : list Z) : sysE Z
| Schdir (path : list Z) : sysE Z
| Sdup (fd : Z) : sysE Z
| Sgetpid : sysE Z
| Ssbrk (n : Z) : sysE Z
| Ssleep (n : Z) : sysE Z
| Suptime : sysE Z
| Suptime_nolock : sysE Z
| Sset_type (type pid : Z) : sysE Z
| Sinitialize_metrics : sysE Z
| Sincrement_metric (index amount mode : Z) : sysE Z
| Sget_eficiencia (index : Z) : sysE Z
| Sget_overhead (index : Z) : sysE Z
| Sset_justica (index pid : Z) : sysE Z
| Sget_justica (index : Z) : sysE Z
| Stempo_total (index : Z) : sysE Z
(* user/umalloc.c, modelled in Umalloc.v: [malloc(n * size)] answers the address and what
   the [n] elements hold, none for the null pointer *)
| Lmalloc (n size : Z) : sysE (Z * list Z)
| Lfree (ap : Z) : sysE unit
(* [wait] with a pointer: the answer has what the variable holds afterwards *)
| Swaits : sysE (Z * Z)
(* calls whose pointers need not point to memory of the process *)
| Pwrite (fd addr n : Z) : sysE Z
| Pread (fd addr n : Z) : sysE Z
| Ppipe (addr : Z) : sysE Z
| Popen (path : uptr) (omode : Z) : sysE Z
| Punlink (path : uptr) : sysE Z
| Plink (old new : uptr) : sysE Z
| Pexec (path : uptr) (argv : list uptr) : sysE Z
(* loads and stores of a number of bytes; one that faults has no value *)
| Mload (addr width : Z) : sysE (option Z)
| Mstore (addr width v : Z) : sysE bool.

(** How a process ends. *)
Variant endE : Type -> Type :=
| Exit (status : Z) : endE void
| Undefined : endE void.

Definition progE : Type -> Type := sum1 sysE endE.
Definition prog (A : Type) : Type := itree progE A.

Definition sys {X} (e : sysE X) : prog X := ITree.trigger (inl1 e : progE X).
Definition exit {A} (status : Z) : prog A := let! v := ITree.trigger (inr1 (Exit status) : progE void) in match v : void with end.
Definition undefined {A} : prog A := let! v := ITree.trigger (inr1 Undefined : progE void) in match v : void with end.

(** ** Output *)

(** [putc] for each character. *)
Fixpoint putcs (fd : Z) (s : list Z) : prog unit :=
  match s with
  | [] => Ret tt
  | c :: s' => sys (Swrite fd [c]) ;! putcs fd s'
  end.

Definition fprintf (fd : Z) (fmt : list Z) (ap : list varg) : prog unit :=
  match vprintf fmt ap with
  | Some out => putcs fd out
  | None => undefined
  end.
Definition printf (fmt : list Z) (ap : list varg) : prog unit := fprintf 1 fmt ap.

(** ** Loops *)

(** [for(i = 0; i < length l; i++) body(l[i])] *)
Fixpoint for_each {A} (l : list A) (body : A -> prog unit) : prog unit :=
  match l with
  | [] => Ret tt
  | a :: l' => body a ;! for_each l' body
  end.

(** The same with a body that answers [false] for [break]. *)
Fixpoint for_while {A} (l : list A) (body : A -> prog bool) : prog unit :=
  match l with
  | [] => Ret tt
  | a :: l' => let! b := body a in if (b : bool) then for_while l' body else Ret tt
  end.

(** The same with a value that the turns pass on. *)
Fixpoint fold_each {A B} (l : list A) (b : B) (body : B -> A -> prog B) : prog B :=
  match l with
  | [] => Ret b
  | a :: l' => let! b' := body b a in fold_each l' b' body
  end.

(** [for(i = lo; i < hi; i += step) body(i)], and [for(;;) body()] that nothing ends but [exit]. *)
Definition for_step (lo hi step : Z) (body : Z -> prog unit) : prog unit :=
  ITree.iter (fun i => if i <? hi then body i ;! Ret (inl (i + step)) else Ret (inr tt)) lo.
Definition forever {A} (body : prog unit) : prog A := ITree.iter (fun _ : unit => body ;! Ret (inl tt)) tt.

(** ** Memory *)

(** The value of an expression that may be undefined, and [l[i] = v]. *)
Definition defined {A} (o : option A) : prog A := match o with Some a => Ret a | None => undefined end.
Definition store {A} (l : list A) (i : Z) (v : A) : prog (list A) := defined (_ ← zget l i; Some (zset l i v)).

(** Memory by address: the kernel kills a process that faults, with status -1. *)
Definition load (addr width : Z) : prog Z :=
  let! o := sys (Mload addr width) in match o with Some v => Ret v | None => exit (-1) end.
Definition store_at (addr width v : Z) : prog unit :=
  let! ok := sys (Mstore addr width v) in if (ok : bool) then Ret tt else exit (-1).

(** ** Runs *)

Lemma observe_bind {E A B} (t : itree E A) (f : A -> itree E B) :
  observe (ITree.bind t f) =
    match observe t with
    | RetF a => observe (f a)
    | TauF t' => TauF (ITree.bind t' f)
    | VisF e c => VisF e (fun x => ITree.bind (c x) f)
    end.
Proof. unfold ITree.bind, ITree.subst, observe at 1. cbn. by destruct (observe t). Qed.

Lemma observe_iter {E A B} (body : A -> itree E (A + B)) (i : A) :
  observe (ITree.iter body i) =
    observe (ITree.bind (body i) (fun r => match r with inl j => Tau (ITree.iter body j) | inr b => Ret b end)).
Proof. rewrite (observe_bind (body i)). cbn. unfold ITree.bind, ITree.subst, observe at 1. cbn. by destruct (observe (body i)) as [[|]| |]. Qed.

Variant fin (A : Type) := Returned (a : A) | Exited (status : Z).
Arguments Returned {A} a.
Arguments Exited {A} status.

Section Runs.
Context {K : Type} (kernel : forall X, sysE X -> K -> X * K).

Inductive runs {A} : itree' progE A -> K -> fin A -> K -> Prop :=
| runs_ret a s : runs (RetF a) s (Returned a) s
| runs_tau t s r s' : runs (observe t) s r s' -> runs (TauF t) s r s'
| runs_vis X (e : sysE X) c s r s' :
    runs (observe (c (kernel X e s).1)) (kernel X e s).2 r s' -> runs (VisF (inl1 e) c) s r s'
| runs_end n c s : runs (VisF (inr1 (Exit n)) c) s (Exited n) s.

(** The process ends, with a result and a state that satisfy [Q]. *)
Definition ends_with {A} (t : prog A) (s : K) (Q : fin A -> K -> Prop) : Prop :=
  exists r s', runs (observe t) s r s' /\ Q r s'.

(** An executable version. *)
Fixpoint run {A} (fuel : nat) (t : prog A) (s : K) : option (fin A * K) :=
  match fuel with
  | O => None
  | S fuel' =>
    match observe t with
    | RetF a => Some (Returned a, s)
    | TauF t' => run fuel' t' s
    | VisF e c =>
      match e with
      | inl1 e' => let '(x, s') := kernel _ e' s in run fuel' (c x) s'
      | inr1 e' => match e' with Exit n => Some (Exited n, s) | Undefined => None end
      end
    end
  end.

Lemma run_runs {A} fuel (t : prog A) s r s' : run fuel t s = Some (r, s') -> runs (observe t) s r s'.
Proof using Type.
  revert t s. induction fuel as [|fuel IH]; intros t s; [done|]. cbn [run].
  destruct (observe t) as [a|t'|X [e|e] c].
  - intros [= <- <-]. constructor.
  - intros E. constructor. by apply IH.
  - destruct (kernel _ e s) as [x s1] eqn:Ek. intros E. constructor. rewrite Ek. by apply IH.
  - destruct e; [|done]. intros [= <- <-]. constructor.
Qed.

(** A process has one result. *)
Lemma runs_det {A} t s (r1 r2 : fin A) s1 s2 : runs t s r1 s1 -> runs t s r2 s2 -> r1 = r2 /\ s1 = s2.
Proof using Type.
  intros H. revert r2 s2. induction H as [a s|t s r s' _ IH|X e c s r s' _ IH|n c s]; intros r2 s2 H2; dependent destruction H2; auto.
Qed.

Lemma runs_bind {A B} (t : prog A) (f : A -> prog B) s a s1 r s2 :
  runs (observe t) s (Returned a) s1 -> runs (observe (f a)) s1 r s2 -> runs (observe (ITree.bind t f)) s r s2.
Proof using Type.
  intros H H2. remember (observe t) as ot eqn:E. remember (Returned a) as ra eqn:Ea.
  revert t E. induction H as [a' s|t' s r' s' H IH|X e c s r' s' H IH|n c s]; intros t E; simplify_eq;
    rewrite observe_bind, <- E.
  - done.
  - constructor. by apply IH.
  - constructor. by apply IH.
Qed.

Lemma runs_bind_exit {A B} (t : prog A) (f : A -> prog B) s n s1 :
  runs (observe t) s (Exited n) s1 -> runs (observe (ITree.bind t f)) s (Exited n) s1.
Proof using Type.
  intros H. remember (observe t) as ot eqn:E. remember (Exited n) as ra eqn:Ea.
  revert t E. induction H as [a' s|t' s r' s' H IH|X e c s r' s' H IH|n' c s]; intros t E; simplify_eq;
    rewrite observe_bind, <- E.
  - constructor. by apply IH.
  - constructor. by apply IH.
  - constructor.
Qed.

(** ** Rules *)

Lemma ew_mono {A} (t : prog A) s (Q Q' : fin A -> K -> Prop) :
  ends_with t s Q -> (forall r s', Q r s' -> Q' r s') -> ends_with t s Q'.
Proof using Type. intros (r & s' & H & HQ) HQ'. exists r, s'. auto. Qed.

Lemma ew_ret {A} (a : A) s (Q : fin A -> K -> Prop) : Q (Returned a) s -> ends_with (Ret a) s Q.
Proof using Type. intros H. exists (Returned a), s. split; [constructor|done]. Qed.

Lemma ew_bind {A B} (t : prog A) (f : A -> prog B) s (Q : fin B -> K -> Prop) :
  ends_with t s (fun r s1 => match r with Returned a => ends_with (f a) s1 Q | Exited n => Q (Exited n) s1 end) ->
  ends_with (ITree.bind t f) s Q.
Proof using Type.
  intros ([a|n] & s1 & H & HQ); [destruct HQ as (r & s2 & H2 & HQ)|].
  - exists r, s2. split; [by eapply runs_bind|done].
  - exists (Exited n), s1. split; [by apply runs_bind_exit|done].
Qed.

Lemma ew_sys {X} (e : sysE X) s (Q : fin X -> K -> Prop) : Q (Returned (kernel X e s).1) (kernel X e s).2 -> ends_with (sys e) s Q.
Proof using Type. intros H. eexists _, _. split; [|exact H]. cbn. constructor. constructor. Qed.

Lemma ew_exit {A} n s (Q : fin A -> K -> Prop) : Q (Exited n) s -> ends_with (exit n) s Q.
Proof using Type. intros H. eexists _, _. split; [|exact H]. cbn. constructor. Qed.

Lemma ew_iter {A B} (body : A -> prog (A + B)) i s (Q : fin B -> K -> Prop) :
  ends_with (body i) s (fun r s1 => match r with
    | Returned (inl j) => ends_with (ITree.iter body j) s1 Q
    | Returned (inr b) => Q (Returned b) s1
    | Exited n => Q (Exited n) s1 end) ->
  ends_with (ITree.iter body i) s Q.
Proof using Type.
  intros H. assert (Hb : ends_with (ITree.bind (body i) (fun r => match r with inl j => Tau (ITree.iter body j) | inr b => Ret b end)) s Q).
  { apply ew_bind. eapply ew_mono; [exact H|]. intros [[j|b]|n] s1; [|apply ew_ret|done].
    intros (r & s2 & Hr & HQ). exists r, s2. split; [by constructor|done]. }
  destruct Hb as (r & s2 & Hr & HQ). exists r, s2. split; [by rewrite observe_iter|done].
Qed.

Lemma ew_for_each {A} (l : list A) (body : A -> prog unit) s (I : list A -> K -> Prop) (Q : fin unit -> K -> Prop) :
  I l s -> (forall s', I [] s' -> Q (Returned tt) s') ->
  (forall a l' s', I (a :: l') s' -> ends_with (body a) s' (fun r s1 => match r with Returned _ => I l' s1 | Exited n => Q (Exited n) s1 end)) ->
  ends_with (for_each l body) s Q.
Proof using Type.
  revert s. induction l as [|a l IH]; intros s HI H0 HS; cbn [for_each]; [apply ew_ret; auto|].
  apply ew_bind. eapply ew_mono; [by apply HS|]. intros [[]|n] s1; [|done]. intros HI1. by apply IH.
Qed.
End Runs.
