(* ===== verification/UserMain.v ===== *)
(** * The small user programs

    user/init.c, cat.c, wc.c, grep.c, echo.c, ls.c, rm.c, mkdir.c, ln.c, kill.c, zombie.c,
    forktest.c and stressfs.c, and [stat] of user/ulib.c, as trees of system calls (Sys.v).
    [argv] is the list of the arguments, the name of the program first. *)

From Stdlib Require Import ZArith Lia.
From stdpp Require Import base list strings numbers.
From ITree Require Import ITree.
From S2P Require Import Prelude Kernel Sysfile UPrintf Digits Fs Ulib Sh Grep UserProgs Sys.

(** A line of text. *)
Definition line (s : string) : list Z := bytes s ++ [10].
Definition str (s : list Z) : varg := VStr (Some s).

(** [start] of user/ulib.c: what runs a [main] that returns. *)
Definition start_main (main : prog Z) : prog void := main ;! exit 0.

(** ** user/init.c *)

Definition console : list Z := bytes "console".

(** The inner [for(;;)]: until the shell [pid] has been waited for. *)
Definition init_wait_body (pid : Z) : prog (unit + unit) :=
  let! wpid := sys Swait in
  if wpid =? pid then Ret (inr tt)
  else if wpid <? 0 then printf (line "init: wait returned an error") [] ;! exit 1
  else Ret (inl tt).
Definition init_wait (pid : Z) : prog unit := ITree.iter (fun _ : unit => init_wait_body pid) tt.

Definition init_body : prog (unit + void) :=
  printf (line "init: starting sh") [] ;!
  let! pid := sys Sfork in
  if pid <? 0 then printf (line "init: fork failed") [] ;! exit 1
  else if pid =? 0 then
    sys (Sexec (bytes "sh") [bytes "sh"]) ;!
    printf (line "init: exec sh failed") [] ;!
    exit 1
  else init_wait pid ;! Ret (inl tt).
Definition init_loop : prog void := ITree.iter (fun _ : unit => init_body) tt.

Definition init_main : prog void :=
  let! fd := sys (Sopen console O_RDWR) in
  (if fd <? 0 then
     sys (Smknod console CONSOLE 0) ;!
     sys (Sopen console O_RDWR) ;!
     Ret tt
   else Ret tt) ;!
  sys (Sdup 0) ;!
  sys (Sdup 0) ;!
  init_loop.

(** ** user/kill.c, ln.c, mkdir.c, rm.c, zombie.c, echo.c *)

Definition kill_main (argv : list (list Z)) : prog void :=
  if Z.of_nat (length argv) <? 2 then fprintf 2 (line "usage: kill pid...") [] ;! exit 1
  else
    for_each (tail argv) (fun a => sys (Skill (atoi a)) ;! Ret tt) ;!
    exit 0.

Definition ln_main (argv : list (list Z)) : prog void :=
  match argv with
  | [_; old; new] =>
    let! r := sys (Slink old new) in
    (if r <? 0 then fprintf 2 (line "link %s %s: failed") [str old; str new] else Ret tt) ;!
    exit 0
  | _ => fprintf 2 (line "Usage: ln old new") [] ;! exit 1
  end.

Definition mkdir_main (argv : list (list Z)) : prog void :=
  if Z.of_nat (length argv) <? 2 then fprintf 2 (line "Usage: mkdir files...") [] ;! exit 1
  else
    for_while (tail argv) (fun a =>
      let! r := sys (Smkdir a) in
      if r <? 0 then fprintf 2 (line "mkdir: %s failed to create") [str a] ;! Ret false else Ret true) ;!
    exit 0.

Definition rm_main (argv : list (list Z)) : prog void :=
  if Z.of_nat (length argv) <? 2 then fprintf 2 (line "Usage: rm files...") [] ;! exit 1
  else
    for_while (tail argv) (fun a =>
      let! r := sys (Sunlink a) in
      if r <? 0 then fprintf 2 (line "rm: %s failed to delete") [str a] ;! Ret false else Ret true) ;!
    exit 0.

Definition zombie_main : prog void :=
  let! pid := sys Sfork in
  (if 0 <? pid then sys (Ssleep 5) ;! Ret tt else Ret tt) ;!
  exit 0.

Fixpoint echo_args (args : list (list Z)) : prog unit :=
  match args with
  | [] => Ret tt
  | a :: args' =>
    sys (Swrite 1 a) ;!
    sys (Swrite 1 (match args' with [] => [10] | _ => [32] end)) ;!
    echo_args args'
  end.
Definition echo_main (argv : list (list Z)) : prog void := echo_args (tail argv) ;! exit 0.

(** ** user/cat.c *)

Definition cat_fd (fd : Z) : prog unit :=
  ITree.iter (fun _ : unit =>
    let! '(n, buf) := sys (Sread fd 512) in
    if 0 <? n then
      let! w := sys (Swrite 1 buf) in
      if negb (w =? n) then fprintf 2 (line "cat: write error") [] ;! exit 1 else Ret (inl tt)
    else if n <? 0 then fprintf 2 (line "cat: read error") [] ;! exit 1
    else Ret (inr tt)) tt.

Definition cat_main (argv : list (list Z)) : prog void :=
  if Z.of_nat (length argv) <=? 1 then cat_fd 0 ;! exit 0
  else
    for_each (tail argv) (fun path =>
      let! fd := sys (Sopen path O_RDONLY) in
      if fd <? 0 then fprintf 2 (line "cat: cannot open %s") [str path] ;! exit 1
      else cat_fd fd ;! sys (Sclose fd) ;! Ret tt) ;!
    exit 0.

(** ** user/wc.c *)

Definition wc_fd (fd : Z) (name : list Z) : prog unit :=
  let! s := ITree.iter (fun s : counts =>
    let! '(n, buf) := sys (Sread fd 512) in
    if 0 <? n then Ret (inl (foldl wc_byte s buf))
    else if n <? 0 then printf (line "wc: read error") [] ;! exit 1
    else Ret (inr s)) (Counts 0 0 0 false) in
  printf (line "%d %d %d %s") [VInt (wc_l s); VInt (wc_w s); VInt (wc_c s); str name].

Definition wc_main (argv : list (list Z)) : prog void :=
  if Z.of_nat (length argv) <=? 1 then wc_fd 0 [] ;! exit 0
  else
    for_each (tail argv) (fun path =>
      let! fd := sys (Sopen path O_RDONLY) in
      if fd <? 0 then printf (line "wc: cannot open %s") [str path] ;! exit 1
      else wc_fd fd path ;! sys (Sclose fd) ;! Ret tt) ;!
    exit 0.

(** ** user/grep.c *)

(** The inner loop: the lines of the buffer; the result is what is left of it. *)
Fixpoint grep_buf (fuel : nat) (pattern s : list Z) : prog (list Z) :=
  match fuel with
  | O => Ret s
  | S fuel' =>
    match split_line s with
    | None => Ret s
    | Some (p, rest) =>
      (if grep_match pattern p then sys (Swrite 1 (p ++ [NEWLINE])) ;! Ret tt else Ret tt) ;!
      grep_buf fuel' pattern rest
    end
  end.

Definition grep_fd (pattern : list Z) (fd : Z) : prog unit :=
  ITree.iter (fun held : list Z =>
    let! '(n, got) := sys (Sread fd (Z.of_nat (BUFSIZE - length held - 1))) in
    if 0 <? n then
      let buf := held ++ got in
      let! more := grep_buf (length buf) pattern buf in
      Ret (inl more)
    else Ret (inr tt)) [].

Definition grep_main (argv : list (list Z)) : prog void :=
  match argv with
  | _ :: pattern :: [] => grep_fd pattern 0 ;! exit 0
  | _ :: pattern :: files =>
    for_each files (fun path =>
      let! fd := sys (Sopen path O_RDONLY) in
      if fd <? 0 then printf (line "grep: cannot open %s") [str path] ;! exit 1
      else grep_fd pattern fd ;! sys (Sclose fd) ;! Ret tt) ;!
    exit 0
  | _ => fprintf 2 (line "usage: grep pattern [file ...]") [] ;! exit 1
  end.

(** ** [stat] of user/ulib.c and user/ls.c *)

Definition ustat (n : list Z) : prog (option stat) :=
  let! fd := sys (Sopen n O_RDONLY) in
  if fd <? 0 then Ret None
  else
    let! r := sys (Sfstat fd) in
    sys (Sclose fd) ;!
    Ret r.

(** One line; [st.size] is cast to [int]. *)
Definition ls_line (name : list Z) (st : stat) : prog unit :=
  printf (line "%s %d %d %d") [str (fmtname name); VInt (st_type st); VInt (st_ino st); VInt (i32 (st_size st))].

(** The loop over the entries of a directory. *)
Definition ls_dir (fd : Z) (path : list Z) : prog unit :=
  ITree.iter (fun _ : unit =>
    let! '(n, de) := sys (Sread fd DIRENT) in
    if n =? DIRENT then
      if de_inum de =? 0 then Ret (inl tt)
      else
        let buf := path ++ [47] ++ cstr (de_name de) in
        let! o := ustat buf in
        match o with
        | None => printf (line "ls: cannot stat %s") [str buf] ;! Ret (inl tt)
        | Some st => ls_line buf st ;! Ret (inl tt)
        end
    else Ret (inr tt)) tt.

Definition ls (path : list Z) : prog unit :=
  let! fd := sys (Sopen path O_RDONLY) in
  if fd <? 0 then fprintf 2 (line "ls: cannot open %s") [str path]
  else
    let! o := sys (Sfstat fd) in
    match o with
    | None => fprintf 2 (line "ls: cannot stat %s") [str path] ;! sys (Sclose fd) ;! Ret tt
    | Some st =>
      (if (st_type st =? T_DEVICE) || (st_type st =? T_FILE) then ls_line path st
       else if st_type st =? T_DIR then
         if 512 <? Z.of_nat (length path) + 1 + DIRSIZ + 1 then printf (line "ls: path too long") []
         else ls_dir fd path
       else Ret tt) ;!
      sys (Sclose fd) ;!
      Ret tt
    end.

Definition ls_main (argv : list (list Z)) : prog void :=
  (if Z.of_nat (length argv) <? 2 then ls (bytes ".") else for_each (tail argv) ls) ;!
  exit 0.

(** ** user/forktest.c *)

Definition print (s : list Z) : prog unit := sys (Swrite 1 s) ;! Ret tt.
Definition FORKTEST_N : nat := 1000.

(** The first loop, from [n] with [k] turns to go: the value of [n] after it. *)
Fixpoint forktest_forks (k : nat) (n : Z) : prog Z :=
  match k with
  | O => Ret n
  | S k' =>
    let! pid := sys Sfork in
    if pid <? 0 then Ret n
    else if pid =? 0 then exit 0
    else forktest_forks k' (n + 1)
  end.

Fixpoint forktest_waits (n : nat) : prog unit :=
  match n with
  | O => Ret tt
  | S n' =>
    let! pid := sys Swait in
    if pid <? 0 then print (line "wait stopped early") ;! exit 1 else forktest_waits n'
  end.

Definition forktest : prog unit :=
  print (line "fork test") ;!
  let! n := forktest_forks FORKTEST_N 0 in
  if n =? Z.of_nat FORKTEST_N then print (line "fork claimed to work N times!") ;! exit 1
  else
    forktest_waits (Z.to_nat n) ;!
    let! pid := sys Swait in
    if negb (pid =? -1) then print (line "wait got too many") ;! exit 1
    else print (line "fork test OK").

Definition forktest_main : prog void := forktest ;! exit 0.

(** ** user/stressfs.c *)

(** The value of [i] after the loop that forks: the parent leaves it, the child goes on. *)
Fixpoint stress_forks (k : nat) (i : Z) : prog Z :=
  match k with
  | O => Ret i
  | S k' =>
    let! pid := sys Sfork in
    if 0 <? pid then Ret i else stress_forks k' (i + 1)
  end.

Definition stressfs_main : prog void :=
  printf (line "stressfs starting") [] ;!
  let data := replicate 512 97 in
  let! i := stress_forks 4 0 in
  printf (line "write %d") [VInt i] ;!
  let path := bytes "stressfs" ++ [48 + i] in
  let! fd := sys (Sopen path (Z.lor O_CREATE O_RDWR)) in
  for_each (seq 0 20) (fun _ => sys (Swrite fd data) ;! Ret tt) ;!
  sys (Sclose fd) ;!
  printf (line "read") [] ;!
  let! fd := sys (Sopen path O_RDONLY) in
  for_each (seq 0 20) (fun _ => sys (Sread fd 512) ;! Ret tt) ;!
  sys (Sclose fd) ;!
  sys Swait ;!
  exit 0.
