(* ===== verification/ShMain.v ===== *)
(** * user/sh.c as a program

    [runcmd], [getcmd] and [main] of the shell as trees of system calls (Sys.v), over the
    command trees of the parser (Sh.v).  [behaves] follows a tree through its forks, with the
    descriptor tables of ShRun.v, and tells which programs are started with which descriptors,
    who waits for whom, and how the processes end. *)

From Stdlib Require Import ZArith Lia.
From stdpp Require Import base list strings numbers option.
From ITree Require Import ITree.
From S2P Require Import Prelude Sysfile UPrintf Ulib Sh ShRun Sys UserMain.

(** ** The program *)

Definition sh_panic {A} (s : list Z) : prog A := fprintf 2 (line "%s") [str s] ;! exit 1.

Definition fork1 : prog Z :=
  let! pid := sys Sfork in
  if pid =? -1 then sh_panic (bytes "fork") else Ret pid.

(** Never returns. *)
Fixpoint sh_runcmd (c : tree (list Z)) : prog void :=
  match c with
  | EXEC argv =>
    match argv with
    | [] => exit 1
    | path :: _ => sys (Sexec path argv) ;! fprintf 2 (line "exec %s failed") [str path] ;! exit 0
    end
  | REDIR c file mode fd =>
    sys (Sclose fd) ;!
    let! r := sys (Sopen file mode) in
    if r <? 0 then fprintf 2 (line "open %s failed") [str file] ;! exit 1 else sh_runcmd c
  | LIST l r =>
    let! pid := fork1 in
    if pid =? 0 then sh_runcmd l else sys Swait ;! sh_runcmd r
  | PIPE l r =>
    let! o := sys Spipe in
    match o with
    | None => sh_panic (bytes "pipe")
    | Some (p0, p1) =>
      let! pid := fork1 in
      if pid =? 0 then sys (Sclose 1) ;! sys (Sdup p1) ;! sys (Sclose p0) ;! sys (Sclose p1) ;! sh_runcmd l
      else
        let! pid := fork1 in
        if pid =? 0 then sys (Sclose 0) ;! sys (Sdup p0) ;! sys (Sclose p0) ;! sys (Sclose p1) ;! sh_runcmd r
        else sys (Sclose p0) ;! sys (Sclose p1) ;! sys Swait ;! sys Swait ;! exit 0
    end
  | BACK c =>
    let! pid := fork1 in
    if pid =? 0 then sh_runcmd c else exit 0
  end.

(** [gets] of user/ulib.c with room for [k] more characters. *)
Fixpoint gets_fd (k : nat) : prog (list Z) :=
  match k with
  | O => Ret []
  | S k' =>
    let! '(cc, b) := sys (Sread 0 1) in
    if cc <? 1 then Ret []
    else
      let! ch := defined (head b) in
      if (ch =? 10) || (ch =? 13) then Ret [ch]
      else let! rest := gets_fd k' in Ret (ch :: rest)
  end.

(** [None] at the end of the input. *)
Definition getcmd : prog (option (list Z)) :=
  sys (Swrite 2 (bytes "$ ")) ;!
  let! buf := gets_fd 99 in
  let buf := cstr buf in
  Ret (if str_at buf 0 =? 0 then None else Some buf).

(** [parsecmd] with the words as strings. *)
Fixpoint tree_map {A B} (f : A -> B) (c : tree A) : tree B :=
  match c with
  | EXEC argv => EXEC (f <$> argv)
  | REDIR c file mode fd => REDIR (tree_map f c) (f file) mode fd
  | PIPE l r => PIPE (tree_map f l) (tree_map f r)
  | LIST l r => LIST (tree_map f l) (tree_map f r)
  | BACK c => BACK (tree_map f c)
  end.
Definition sh_parse (buf : list Z) : prog (tree (list Z)) :=
  match parsecmd buf with
  | POk c _ => Ret (tree_map (string_at (length buf) (nulterminate (length buf) c (buf ++ [0]))) c)
  | PPanic msg => sh_panic (bytes msg)
  | PFuel => undefined
  end.

(** The loop that opens the console until descriptor 3. *)
Definition sh_open : prog unit :=
  ITree.iter (fun _ : unit =>
    let! fd := sys (Sopen console O_RDWR) in
    if 0 <=? fd then
      if 3 <=? fd then sys (Sclose fd) ;! Ret (inr tt) else Ret (inl tt)
    else Ret (inr tt)) tt.

Definition sh_line (buf : list Z) : prog unit :=
  match sh_action buf with
  | Chdir path =>
    let! r := sys (Schdir path) in
    if r <? 0 then fprintf 2 (line "cannot cd %s") [str path] else Ret tt
  | Command buf =>
    let! pid := fork1 in
    if pid =? 0 then
      let! c := sh_parse buf in
      let! v := sh_runcmd c in
      match v : void with end
    else sys Swait ;! Ret tt
  end.

Definition sh_main : prog void :=
  sh_open ;!
  ITree.iter (fun _ : unit =>
    let! o := getcmd in
    match o with
    | None => exit 0
    | Some buf => sh_line buf ;! Ret (inl tt)
    end) tt.

(** ** What the processes do *)

(** A program started with a table, an exit, a child and what its parent does, a wait. *)
Inductive behaviour :=
| BRun (argv : list (list Z)) (fds : list (option (ofile (list Z))))
| BExit (status : Z)
| BFork (child parent : behaviour)
| BWait (b : behaviour).

Section Behaves.
Context (open_ok : list Z -> Z -> bool).
Abbreviation table := (list (option (ofile (list Z)))).

(** [pipe(p)], the [n]-th one. *)
Definition fd_pipe (fds : table) (n : Z) : option (Z * Z * table) :=
  '(p0, fds) ← fd_new fds (PipeRead n);
  '(p1, fds) ← fd_new fds (PipeWrite n);
  Some (p0, p1, fds).

(** From the table and the number of pipes made before to the behaviour and the number after.
    A fork gives 0 to the child and a positive number to the parent. *)
Inductive behaves : itree' progE void -> table -> Z -> behaviour -> Z -> Prop :=
| beh_exec path argv k fds n : argv <> [] -> head argv = Some path -> behaves (VisF (inl1 (Sexec path argv)) k) fds n (BRun argv fds) n
| beh_exit st k fds n : behaves (VisF (inr1 (Exit st)) k) fds n (BExit st) n
| beh_write fd bs k fds n b n' : behaves (observe (k (Z.of_nat (length bs)))) fds n b n' -> behaves (VisF (inl1 (Swrite fd bs)) k) fds n b n'
| beh_close fd r k fds n b n' : behaves (observe (k r)) (fd_close fds fd) n b n' -> behaves (VisF (inl1 (Sclose fd)) k) fds n b n'
| beh_dup fd r k fds n b n' : behaves (observe (k r)) (fd_dup fds fd) n b n' -> behaves (VisF (inl1 (Sdup fd)) k) fds n b n'
| beh_open path mode fd fds' k fds n b n' : open_ok path mode = true -> fd_new fds (Opened path mode) = Some (fd, fds') ->
    behaves (observe (k fd)) fds' n b n' -> behaves (VisF (inl1 (Sopen path mode)) k) fds n b n'
| beh_open_fails path mode k fds n b n' : open_ok path mode = false \/ fd_new fds (Opened path mode) = None ->
    behaves (observe (k (-1))) fds n b n' -> behaves (VisF (inl1 (Sopen path mode)) k) fds n b n'
| beh_pipe p0 p1 fds' k fds n b n' : fd_pipe fds n = Some (p0, p1, fds') ->
    behaves (observe (k (Some (p0, p1)))) fds' (n + 1) b n' -> behaves (VisF (inl1 Spipe) k) fds n b n'
| beh_pipe_fails k fds n b n' : fd_pipe fds n = None -> behaves (observe (k None)) fds n b n' -> behaves (VisF (inl1 Spipe) k) fds n b n'
| beh_fork pid k fds n b n1 b' n2 : 0 < pid -> behaves (observe (k 0)) fds n b n1 -> behaves (observe (k pid)) fds n1 b' n2 ->
    behaves (VisF (inl1 Sfork) k) fds n (BFork b b') n2
| beh_wait pid k fds n b n' : behaves (observe (k pid)) fds n b n' -> behaves (VisF (inl1 Swait) k) fds n (BWait b) n'.

(** What the processes of ShRun.v do. *)
Fixpoint beh_of (p : procs) : behaviour :=
  match p with
  | Run argv fds => BRun argv fds
  | ShRun.Exit st => BExit st
  | Then p q => BFork (beh_of p) (BWait (beh_of q))
  | Both p q => BFork (beh_of p) (BFork (beh_of q) (BWait (BWait (BExit 0))))
  | Background p => BFork (beh_of p) (BExit 0)
  end.

(** ** The steps of [sh_runcmd] *)

Abbreviation bh t := (behaves (observe t)).

Ltac step r := intros; rewrite observe_bind; cbn; eapply r; try done; by rewrite observe_bind.

Lemma bh_exit st fds n : bh (exit st) fds n (BExit st) n.
Proof using Type. unfold exit. rewrite observe_bind. cbn. apply beh_exit. Qed.
Lemma bh_exec path argv f fds n : argv <> [] -> head argv = Some path -> bh (ITree.bind (sys (Sexec path argv)) f) fds n (BRun argv fds) n.
Proof using Type. intros. rewrite observe_bind. cbn. by apply beh_exec. Qed.
Lemma bh_close fd f fds n b n' : bh (f 0) (fd_close fds fd) n b n' -> bh (ITree.bind (sys (Sclose fd)) f) fds n b n'.
Proof using Type. step (beh_close fd 0). Qed.
Lemma bh_dup fd f fds n b n' : bh (f 0) (fd_dup fds fd) n b n' -> bh (ITree.bind (sys (Sdup fd)) f) fds n b n'.
Proof using Type. step (beh_dup fd 0). Qed.
Lemma bh_wait f fds n b n' : bh (f 1) fds n b n' -> bh (ITree.bind (sys Swait) f) fds n (BWait b) n'.
Proof using Type. step (beh_wait 1). Qed.
Lemma bh_write fd bs f fds n b n' : bh (f (Z.of_nat (length bs))) fds n b n' -> bh (ITree.bind (sys (Swrite fd bs)) f) fds n b n'.
Proof using Type. step (beh_write fd bs). Qed.
Lemma bh_fork1 f fds n b n1 b' n2 : bh (f 0) fds n b n1 -> bh (f 1) fds n1 b' n2 -> bh (ITree.bind fork1 f) fds n (BFork b b') n2.
Proof using Type.
  intros H0 H1. unfold fork1. rewrite !observe_bind. cbn. apply (beh_fork 1 _ _ _ _ n1); [done|..]; repeat (rewrite observe_bind; cbn); done.
Qed.

Lemma bh_putcs fd out (t : prog void) fds n b n' : bh t fds n b n' -> bh (putcs fd out ;! t) fds n b n'.
Proof using Type.
  intros H. induction out as [|c out IH]; cbn [putcs]; rewrite observe_bind; [done|]. rewrite observe_bind. cbn. eapply beh_write.
  rewrite observe_bind, observe_bind. cbn. by rewrite <- observe_bind.
Qed.

Lemma bh_fprintf fd fmt pre post s (t : prog void) fds n b n' : line fmt = pre ++ [37; 115] ++ post -> plain pre -> plain post -> bh t fds n b n' ->
  bh (fprintf fd (line fmt) [str s] ;! t) fds n b n'.
Proof using Type. intros E Hpre Hpost H. unfold fprintf, str. rewrite E, vprintf_s by done. by apply bh_putcs. Qed.

Lemma bh_open path mode f fds n b n' :
  bh (f (match fd_new fds (Opened path mode) with Some (fd, _) => if open_ok path mode then fd else -1 | None => -1 end))
     (match fd_new fds (Opened path mode) with Some (_, fds') => if open_ok path mode then fds' else fds | None => fds end) n b n' ->
  bh (ITree.bind (sys (Sopen path mode)) f) fds n b n'.
Proof using Type.
  intros H. rewrite observe_bind. cbn. destruct (fd_new fds (Opened path mode)) as [[fd fds']|] eqn:E; [destruct (open_ok path mode) eqn:Eo|].
  - eapply beh_open; [done|done|]. by rewrite observe_bind.
  - apply beh_open_fails; [by left|]. by rewrite observe_bind.
  - apply beh_open_fails; [by right|]. by rewrite observe_bind.
Qed.

Lemma bh_pipe f fds n b n' :
  match fd_pipe fds n with Some (p0, p1, fds') => bh (f (Some (p0, p1))) fds' (n + 1) b n' | None => bh (f None) fds n b n' end ->
  bh (ITree.bind (sys Spipe) f) fds n b n'.
Proof using Type.
  intros H. rewrite observe_bind. cbn. destruct (fd_pipe fds n) as [[[p0 p1] fds']|] eqn:E; [eapply beh_pipe; [done|]|apply beh_pipe_fails; [done|]]; by rewrite observe_bind.
Qed.

Lemma fd_new_pos fds f fd fds' : fd_new (W := list Z) fds f = Some (fd, fds') -> 0 <= fd.
Proof using Type.
  unfold fd_new. pose proof (lowest_spec fds 0) as L. destruct (lowest fds 0) as [k|]; [|done]. cbn. intros [= <- <-]. lia.
Qed.

Ltac plain_text := apply (bool_decide_unpack _); by vm_compute.

Lemma sh_runcmd_run c fds n : bh (sh_runcmd c) fds n (beh_of (runcmd open_ok c fds n).1) (runcmd open_ok c fds n).2.
Proof using Type.
  revert fds n. induction c as [argv|c IH file mode fd|l IHl r IHr|l IHl r IHr|c IH]; intros fds n; cbn [sh_runcmd runcmd].
  - destruct argv as [|path argv]; [apply bh_exit|by apply bh_exec].
  - apply bh_close, bh_open. destruct (fd_new (fd_close fds fd) (Opened file mode)) as [[k fds']|] eqn:E; [|destruct (open_ok file mode)];
      [destruct (open_ok file mode); [rewrite (proj2 (Z.ltb_ge _ _)) by (by eapply fd_new_pos); apply IH|]|..];
      (eapply (bh_fprintf 2 _ (bytes "open ") (line " failed")); [reflexivity|plain_text|plain_text|apply bh_exit]).
  - apply bh_pipe. unfold fd_pipe. destruct (fd_new fds (PipeRead n)) as [[p0 fds0]|]; cbn [mbind option_bind];
      [destruct (fd_new fds0 (PipeWrite n)) as [[p1 fds1]|]; cbn [mbind option_bind]|].
    2, 3: (eapply (bh_fprintf 2 _ [] [10]); [reflexivity|constructor|plain_text|apply bh_exit]).
    set (left := fd_close (fd_close (fd_dup (fd_close fds1 1) p1) p0) p1). set (right := fd_close (fd_close (fd_dup (fd_close fds1 0) p0) p0) p1).
    pose proof (IHl left (n + 1)) as Hl. destruct (runcmd open_ok l left (n + 1)) as [p n1]. pose proof (IHr right n1) as Hr. destruct (runcmd open_ok r right n1) as [q n2].
    cbn [fst snd beh_of] in *. apply (bh_fork1 _ _ _ _ n1); [|apply (bh_fork1 _ _ _ _ n2)]; cbn [Z.eqb Pos.eqb].
    + by apply bh_close, bh_dup, bh_close, bh_close.
    + by apply bh_close, bh_dup, bh_close, bh_close.
    + apply bh_close, bh_close, bh_wait, bh_wait, bh_exit.
  - pose proof (IHl fds n) as Hl. destruct (runcmd open_ok l fds n) as [p n1]. pose proof (IHr fds n1) as Hr. destruct (runcmd open_ok r fds n1) as [q n2].
    cbn [fst snd beh_of] in *. apply (bh_fork1 _ _ _ _ n1); cbn [Z.eqb Pos.eqb]; [done|]. by apply bh_wait.
  - pose proof (IH fds n) as Hc. destruct (runcmd open_ok c fds n) as [p n1]. cbn [fst snd beh_of] in *.
    apply (bh_fork1 _ _ _ _ n1); cbn [Z.eqb Pos.eqb]; [done|apply bh_exit].
Qed.

End Behaves.

