(* ===== verification/Experiment.v ===== *)
(** * user/run_experiment.c: the scheduling experiment

    The generator [do_rand], which user/grind.c, user/graphs.c, user/rows.c and
    user/run_experiment.c share, and the computations of one round of the experiment: how the
    twenty processes are divided, the throughput from their finishing times, and the four
    normalised measures.  Division by zero is undefined behaviour, [None]. *)

From Stdlib Require Import ZArith Lia Znumtheory.
From stdpp Require Import base list numbers sorting.
From S2P Require Import Prelude.

(** ** Random numbers *)

(** The new [*ctx]; it is also the value returned. *)
Definition do_rand (ctx : Z) : Z :=
  let x := ctx mod 0x7ffffffe + 1 in
  let hi := x / 127773 in
  let lo := x mod 127773 in
  let x := 16807 * lo - 2836 * hi in
  let x := if x <? 0 then x + 0x7fffffff else x in
  x - 1.

(** The Mersenne prime 2^31 - 1. *)
Definition mersenne31 : Z := 2 ^ 31 - 1.

Lemma schrage x : 0 < x < mersenne31 ->
  16807 * (x mod 127773) - 2836 * (x / 127773) = 16807 * x - mersenne31 * (x / 127773).
Proof. intros Hx. pose proof (Z.div_mod x 127773 ltac:(lia)). unfold mersenne31 in *. lia. Qed.

Lemma not_multiple x : 0 < x < mersenne31 -> (16807 * x) mod mersenne31 <> 0.
Proof.
  intros Hx H0. assert (Hd : (mersenne31 | 16807 * x)) by (apply Z.mod_divide; [done|exact H0]).
  apply Z.gauss in Hd; [|by vm_compute]. apply Z.divide_pos_le in Hd; lia.
Qed.

Lemma do_rand_eq ctx :
  do_rand ctx = (16807 * (ctx mod (mersenne31 - 1) + 1)) mod mersenne31 - 1.
Proof.
  unfold do_rand. change 0x7ffffffe with (mersenne31 - 1). change 0x7fffffff with mersenne31.
  pose proof (Z.mod_pos_bound ctx (mersenne31 - 1) ltac:(done)) as Hm. set (x := ctx mod (mersenne31 - 1) + 1) in *.
  assert (Hx : 0 < x < mersenne31) by lia. rewrite schrage by done. f_equal.
  pose proof (Z.div_mod x 127773 ltac:(lia)). pose proof (Z.mod_pos_bound x 127773 ltac:(lia)).
  assert (Hq : 0 <= x / 127773 <= 16807) by (split; [apply Z.div_pos; lia|]; unfold mersenne31 in *; lia).
  set (q := x / 127773) in *. pose proof (not_multiple x Hx) as Hn.
  destruct (Z.ltb_spec (16807 * x - mersenne31 * q) 0).
  - apply Z.mod_unique with (q - 1); unfold mersenne31 in *; lia.
  - apply Z.mod_unique with q; unfold mersenne31 in *; lia.
Qed.

(** [do_rand] is the Park-Miller generator: its division by parts, which keeps every
    product within 32 bits, computes 16807 x modulo the prime 2^31 - 1 exactly; the value is a
    non-negative [int], and the generator never repeats a value before it has come back to the
    first one, since it is injective on its range. *)
Theorem do_rand_correct ctx ctx' :
  do_rand ctx = (16807 * (ctx mod (mersenne31 - 1) + 1)) mod mersenne31 - 1 /\
  0 <= do_rand ctx < mersenne31 - 1 /\
  let x := ctx mod (mersenne31 - 1) + 1 in
  - (2 ^ 31) < 16807 * (x mod 127773) - 2836 * (x / 127773) < 2 ^ 31 /\
  (do_rand ctx = do_rand ctx' -> ctx mod (mersenne31 - 1) = ctx' mod (mersenne31 - 1)).
Proof.
  pose proof (Z.mod_pos_bound ctx (mersenne31 - 1) ltac:(done)). pose proof (Z.mod_pos_bound ctx' (mersenne31 - 1) ltac:(done)).
  cbv zeta. split_and!; rewrite ?do_rand_eq.
  - done.
  - pose proof (Z.mod_pos_bound (16807 * (ctx mod (mersenne31 - 1) + 1)) mersenne31 ltac:(done)).
    pose proof (not_multiple (ctx mod (mersenne31 - 1) + 1) ltac:(lia)). lia.
  - apply Z.sub_lt_mono_r. by apply Z.mod_pos_bound.
  - pose proof (Z.mod_pos_bound (ctx mod (mersenne31 - 1) + 1) 127773 ltac:(lia)).
    pose proof (Z.div_mod (ctx mod (mersenne31 - 1) + 1) 127773 ltac:(lia)). unfold mersenne31 in *. lia.
  - pose proof (Z.mod_pos_bound (ctx mod (mersenne31 - 1) + 1) 127773 ltac:(lia)).
    pose proof (Z.div_pos (ctx mod (mersenne31 - 1) + 1) 127773 ltac:(lia) ltac:(lia)). lia.
  - intros E. assert (Hd : (mersenne31 | 16807 * ((ctx mod (mersenne31 - 1)) - (ctx' mod (mersenne31 - 1))))).
    { apply Z.mod_divide; [done|]. replace (16807 * _) with
        (16807 * (ctx mod (mersenne31 - 1) + 1) - 16807 * (ctx' mod (mersenne31 - 1) + 1)) by lia.
      rewrite Zminus_mod. replace ((16807 * (ctx mod (mersenne31 - 1) + 1)) mod mersenne31)
        with ((16807 * (ctx' mod (mersenne31 - 1) + 1)) mod mersenne31) by lia. by rewrite Z.sub_diag. }
    apply Z.gauss in Hd; [|by vm_compute]. destruct Hd as [k Hk].
    destruct (Z.eq_dec k 0) as [->|]; [lia|]. unfold mersenne31 in *. nia.
Qed.

(** ** A round of the experiment *)

(** The number of CPU-bound processes of a round, from the next random number. *)
Definition cpu_count (r : Z) : Z := r mod 9 + 6.

(** The argument of process [index], two decimal digits, and how graphs.c and rows.c
    read it. *)
Definition index_str (index : Z) : list Z :=
  if index <? 10 then [48; index + 48] else [49; index - 10 + 48].
Definition index_of (s : list Z) : option Z :=
  match s with
  | c0 :: c1 :: _ => Some ((c0 - 48) * 10 + (c1 - 48))
  | _ => None
  end.

(** [if (terminos[k] < terminos[j]) ...]: the exchange as it is written. *)
Definition sort_step (l : list Z) (j k : Z) : list Z :=
  match zget l k, zget l j with
  | Some tk, Some tj =>
    if tk <? tj then
      let temp := tk in
      let l := zset l j tk in
      zset l k temp
    else l
  | _, _ => l
  end.
Definition sort_inner (l : list Z) (j : Z) : list Z :=
  foldl (fun l k => sort_step l j k) l (seqZ (j + 1) (20 - (j + 1))).
Definition sort_terminos (l : list Z) : list Z := foldl sort_inner l (seqZ 0 20).

(** How many processes end in each ten ticks, and the last of them. *)
Fixpoint vazao_loop (fuel : nat) (terminos vazoes : list Z) (index segundo_atual : Z) : option (list Z * Z) :=
  match fuel with
  | O => None
  | S fuel' =>
    if index <? 20 then
      t ← zget terminos index;
      if t <=? 10 * segundo_atual then
        v ← zget vazoes segundo_atual;
        vazao_loop fuel' terminos (zset vazoes segundo_atual (v + 1)) (index + 1) segundo_atual
      else vazao_loop fuel' terminos vazoes index (segundo_atual + 1)
    else Some (vazoes, segundo_atual)
  end.
Definition vazao_fuel (terminos : list Z) : nat := Z.to_nat (22 + Z.max 0 (foldr Z.max 0 terminos)).
Definition vazoes_of (terminos : list Z) : option (list Z * Z) :=
  vazao_loop (vazao_fuel terminos) terminos (replicate 300 0) 0 0.

(** [vazao_max] and [vazao_min]: the loops over seconds [0 .. lim]. *)
Definition vazao_max (vazoes : list Z) : Z := foldl (fun m v => if m <? v then v else m) (-10) vazoes.
Definition vazao_min (vazoes : list Z) : Z := foldl (fun m v => if v <? m then v else m) 10000 vazoes.

(** Division of C: [None] for a zero divisor. *)
Definition cdiv (a b : Z) : option Z := if b =? 0 then None else Some (Z.quot a b).

Definition vazao_norm (terminos : list Z) : option Z :=
  '(vazoes, lim) ← vazoes_of (sort_terminos terminos);
  let vs := take (Z.to_nat (lim + 1)) vazoes in
  vazao_media ← cdiv (20 * 100000) lim;
  let vmax := vazao_max vs * 100000 in
  let vmin := vazao_min vs * 100000 in
  let nominador := vazao_media - vmin in
  let denominador := vmax - vmin in
  q ← cdiv (nominador * 100000) denominador;
  Some (i32 (100000 - q)).

(** The metrics that are not negative; [eficiencias] has room for [y] of them. *)
Definition eficiencia_fim (y : Z) (metrics : list Z) : option Z :=
  let eficiencias := filter (fun e => 0 <= e) metrics in
  if Z.of_nat (length eficiencias) =? y then q ← cdiv 100000 (i32 (foldr Z.add 0 eficiencias)); Some (i32 q)
  else None.

Definition overhead_fim (overheads : list Z) : option Z :=
  q ← cdiv 100000 (i32 (foldr Z.add 0 overheads)); Some (i32 q).

Definition justica_fim (justicas : list Z) : option Z :=
  let soma := foldr Z.add 0 justicas in
  let soma_quadrado := foldr Z.add 0 ((fun j => i32 (j * j)) <$> justicas) in
  q ← cdiv (soma * soma * 100000) (20 * soma_quadrado); Some (i32 q).

Definition desempenho (overhead eficiencia vazao justica : Z) : Z :=
  Z.shiftr (i32 (overhead + eficiencia + vazao + justica)) 2.

(** The numbers printed for a round. *)
Definition rodada (y : Z) (terminos eficiencias overheads justicas : list Z) : option (Z * Z * Z * Z * Z) :=
  vazao ← vazao_norm terminos;
  eficiencia ← eficiencia_fim y eficiencias;
  overhead ← overhead_fim overheads;
  justica ← justica_fim justicas;
  Some (vazao, eficiencia, overhead, justica, desempenho overhead eficiencia vazao justica).

(** ** The sort *)

(** The smallest element from each position on. *)
Fixpoint suffix_min (l : list Z) : list Z :=
  match l with
  | [] => []
  | x :: l' => foldr Z.min x l' :: suffix_min l'
  end.

Lemma sort_step_eq l j k a b : zget l k = Some a -> zget l j = Some b -> j <> k ->
  sort_step l j k = zset l j (Z.min a b).
Proof.
  intros Ha Hb Hne. unfold sort_step. rewrite Ha, Hb. destruct (Z.ltb_spec a b).
  - rewrite Z.min_l by lia. apply zset_id. by rewrite zget_zset_ne.
  - rewrite Z.min_r by lia. symmetry. by apply zset_id.
Qed.

Lemma zset_app_mid {A} (l1 l2 : list A) x y : zset (l1 ++ x :: l2) (Z.of_nat (length l1)) y = l1 ++ y :: l2.
Proof. unfold zset. rewrite (proj2 (Z.leb_le _ _)), Nat2Z.id by lia. by rewrite insert_app_r_alt, Nat.sub_diag by lia. Qed.

Lemma zget_app_mid {A} (l1 l2 : list A) x : zget (l1 ++ x :: l2) (Z.of_nat (length l1)) = Some x.
Proof. unfold zget. rewrite (proj2 (Z.leb_le _ _)), Nat2Z.id by lia. by rewrite lookup_app_r, Nat.sub_diag by lia. Qed.

Lemma foldr_min_out a x r : foldr Z.min (Z.min a x) r = Z.min a (foldr Z.min x r).
Proof. induction r as [|b r IH]; simpl; [done|]. rewrite IH. lia. Qed.

Lemma inner_loop l1 x seen r :
  foldl (fun l k => sort_step l (Z.of_nat (length l1)) k) (l1 ++ x :: seen ++ r)
    (seqZ (Z.of_nat (length l1) + 1 + Z.of_nat (length seen)) (Z.of_nat (length r))) =
  l1 ++ foldr Z.min x r :: seen ++ r.
Proof.
  revert x seen. induction r as [|a r IH]; intros x seen; [done|].
  rewrite seqZ_cons by (simpl; lia). cbn [foldl].
  replace (Z.of_nat (length l1) + 1 + Z.of_nat (length seen)) with (Z.of_nat (length (l1 ++ x :: seen)))
    by (rewrite length_app; simpl; lia).
  rewrite (sort_step_eq _ _ _ a x).
  - rewrite zset_app_mid. specialize (IH (Z.min a x) (seen ++ [a])). rewrite <- app_assoc in IH. simpl in IH.
    rewrite foldr_min_out in IH. simpl. rewrite <- IH. f_equal. f_equal; rewrite ?length_app; simpl; lia.
  - replace (l1 ++ x :: seen ++ a :: r) with ((l1 ++ x :: seen) ++ a :: r) by (by rewrite <- app_assoc).
    apply zget_app_mid.
  - apply zget_app_mid.
  - rewrite length_app. simpl. lia.
Qed.

Lemma sort_loop l1 r : Z.of_nat (length l1) + Z.of_nat (length r) = 20 ->
  foldl sort_inner (l1 ++ r) (seqZ (Z.of_nat (length l1)) (Z.of_nat (length r))) = l1 ++ suffix_min r.
Proof.
  revert l1. induction r as [|x r IH]; intros l1 Hl; [done|]. cbn [length] in Hl.
  rewrite seqZ_cons by (simpl; lia). cbn [foldl suffix_min]. unfold sort_inner at 2.
  replace (20 - (Z.of_nat (length l1) + 1)) with (Z.of_nat (length r)) by lia.
  pose proof (inner_loop l1 x [] r) as E. cbn [length app] in E. rewrite Z.add_0_r in E. rewrite E.
  specialize (IH (l1 ++ [foldr Z.min x r])). rewrite <- !app_assoc in IH. cbn [app] in IH. rewrite <- IH.
  - f_equal. f_equal; rewrite ?length_app; simpl; lia.
  - rewrite length_app. simpl. lia.
Qed.

Lemma sort_terminos_eq l : length l = 20%nat -> sort_terminos l = suffix_min l.
Proof. intros Hl. pose proof (sort_loop [] l) as E. rewrite Hl in E. by apply E. Qed.

Lemma suffix_min_lower l x : x ∈ suffix_min l -> exists y, y ∈ l /\ y <= x /\ x ∈ l.
Proof.
  assert (G : forall r y, foldr Z.min y r ∈ y :: r).
  { induction r as [|a r IH]; intros y; simpl; [left|]. destruct (Z.min_spec a (foldr Z.min y r)) as [[_ ->]|[_ ->]]; [right; left|].
    specialize (IH y). rewrite !elem_of_cons in *. tauto. }
  induction l as [|a l IH]; simpl; [intros Hx; by apply not_elem_of_nil in Hx|]. intros [->|Hx]%elem_of_cons.
  - exists (foldr Z.min a l). split_and!; [apply G|lia|apply G].
  - destruct (IH Hx) as (y & H1 & H2 & H3). exists y. split_and!; [by right|done|by right].
Qed.

Lemma suffix_min_sorted l : Sorted Z.le (suffix_min l).
Proof.
  induction l as [|x l IH]; simpl; [constructor|]. constructor; [done|]. destruct l as [|y l]; simpl; constructor.
  assert (G : forall r a b, foldr Z.min a (b :: r) <= foldr Z.min b r).
  { induction r as [|c r IHr]; intros a b; simpl in *; [lia|]. specialize (IHr a b). lia. }
  apply (G l x y).
Qed.

Lemma length_suffix_min l : length (suffix_min l) = length l.
Proof. induction l; simpl; congruence. Qed.

(** ** Throughput *)

(** The period of ten ticks in which a process ends. *)
Definition period (t : Z) : Z := (t + 9) / 10.

Lemma period_spec t s : 0 <= s -> (t <= 10 * s <-> period t <= s).
Proof.
  intros Hs. unfold period. pose proof (Z.div_mod (t + 9) 10 ltac:(lia)). pose proof (Z.mod_pos_bound (t + 9) 10 ltac:(lia)). lia.
Qed.

Definition ending (s : Z) (l : list Z) : Z := Z.of_nat (length (filter (fun t => period t = s) l)).

Lemma ending_cons s t l : ending s (t :: l) = (if decide (period t = s) then 1 else 0) + ending s l.
Proof. unfold ending. rewrite filter_cons. case_decide; simpl; lia. Qed.

Lemma vazao_loop_run fuel pre r v seg top :
  length (pre ++ r) = 20%nat -> StronglySorted Z.le r -> 0 <= seg <= top -> top < 300 ->
  (forall t, t ∈ r -> seg <= period t <= top) -> length v = 300%nat ->
  Z.of_nat (length r) + (top - seg) < Z.of_nat fuel ->
  exists v', vazao_loop fuel (pre ++ r) v (Z.of_nat (length pre)) seg = Some (v', default seg (period <$> last r)) /\
    length v' = 300%nat /\ forall s x, zget v s = Some x -> zget v' s = Some (x + ending s r).
Proof.
  revert pre r v seg. induction fuel as [|fuel IH]; intros pre r v seg Hl Hs Hseg Htop Hr Hv Hfuel; [lia|].
  cbn [vazao_loop]. rewrite length_app in Hl. destruct r as [|t r].
  { simpl in Hl. rewrite (proj2 (Z.ltb_ge _ _)) by lia. exists v. split_and!; [done|done|]. intros s x Hx. rewrite Hx. f_equal.
    unfold ending. simpl. lia. }
  cbn [length] in *. rewrite (proj2 (Z.ltb_lt _ _)) by lia. rewrite zget_app_mid. cbn [mbind option_bind].
  pose proof (Hr t ltac:(left)) as Ht. inversion Hs as [|? ? Hs' Hall]; subst.
  destruct (Z.leb_spec t (10 * seg)) as [Hle|Hgt].
  - apply period_spec in Hle; [|lia]. assert (Hp : period t = seg) by lia.
    destruct (zget_is_Some v seg) as [x Hx]; [lia|]. rewrite Hx. cbn [mbind option_bind].
    destruct (IH (pre ++ [t]) r (zset v seg (x + 1)) seg) as (v' & E & Hlv & Hv'); try done.
    + rewrite !length_app. simpl. lia.
    + intros u Hu. apply Hr. by right.
    + by rewrite length_zset.
    + lia.
    + rewrite <- app_assoc, length_app in E. simpl in E. exists v'. split_and!; [|done|].
      * replace (Z.of_nat (length pre) + 1) with (Z.of_nat (length pre + 1)) by lia. rewrite E.
        destruct r as [|u r]; [simpl; by rewrite Hp|]. done.
      * intros s y Hy. rewrite ending_cons. destruct (decide (s = seg)) as [->|Hne].
        -- rewrite Hx in Hy. injection Hy as <-. rewrite (Hv' seg (x + 1)) by (apply zget_zset_eq; lia).
           rewrite decide_True by done. f_equal. lia.
        -- rewrite (Hv' s y) by (by rewrite zget_zset_ne). rewrite decide_False by congruence. f_equal; lia.
  - assert (Hall' : forall u, u ∈ t :: r -> seg + 1 <= period u <= top).
    { intros u Hu. destruct (Hr u Hu) as [H1 H2]. split; [|done].
      assert (Htu : t <= u) by (apply elem_of_cons in Hu as [->|Hu]; [lia|]; rewrite list.Forall_forall in Hall; by apply Hall).
      assert (~ period u <= seg) by (rewrite <- period_spec; lia). lia. }
    destruct (IH pre (t :: r) v (seg + 1)) as (v' & E & Hlv & Hv'); try done; [rewrite length_app; simpl; lia| |cbn [length]; lia|].
    + specialize (Hall' t ltac:(left)). lia.
    + exists v'. rewrite E. split_and!; [|done|done]. by destruct (last (t :: r)) eqn:El; [|apply last_None in El].
Qed.

Lemma length_filter_filter (P Q : Z -> Prop) `{!forall t, Decision (P t), !forall t, Decision (Q t)} l :
  (length (filter P (filter Q l)) <= length (filter P l))%nat.
Proof.
  induction l as [|t l IH]; [done|]. rewrite !filter_cons. destruct (decide (Q t)), (decide (P t)); rewrite ?filter_cons;
    rewrite ?decide_True, ?decide_False by done; simpl; lia.
Qed.

Lemma pigeonhole (f : Z -> Z) n l m : (forall t, t ∈ l -> 1 <= f t <= Z.of_nat n) ->
  (forall s, 1 <= s <= Z.of_nat n -> Z.of_nat (length (filter (fun t => f t = s) l)) <= m) ->
  Z.of_nat (length l) <= Z.of_nat n * m.
Proof.
  revert l. induction n as [|n IH]; intros l Hl Hm.
  { destruct l as [|t l]; [simpl; lia|]. specialize (Hl t ltac:(left)). lia. }
  assert (Hsplit : length l = (length (filter (fun t => f t = Z.of_nat (S n)) l) + length (filter (fun t => f t <> Z.of_nat (S n)) l))%nat).
  { clear. induction l as [|t l IH]; [done|]. rewrite !filter_cons. repeat case_decide; simpl; (lia || done). }
  specialize (IH (filter (fun t => f t <> Z.of_nat (S n)) l)).
  assert (Z.of_nat (length (filter (fun t => f t <> Z.of_nat (S n)) l)) <= Z.of_nat n * m).
  { apply IH.
    - intros t [Hne Ht]%list_elem_of_filter. specialize (Hl t Ht). lia.
    - intros s Hs. etrans; [|apply (Hm s); lia]. apply inj_le, length_filter_filter. }
  specialize (Hm (Z.of_nat (S n)) ltac:(lia)). lia.
Qed.

Lemma vazao_max_ge vs m v : v ∈ vs -> v <= foldl (fun m v => if m <? v then v else m) m vs.
Proof.
  assert (Hmono : forall vs m, m <= foldl (fun m v => if m <? v then v else m) m vs).
  { clear. intros vs. induction vs as [|v vs IH]; intros m; simpl; [lia|]. etrans; [|apply IH]. case_match; lia. }
  revert m. induction vs as [|w vs IH]; intros m Hv; [by apply elem_of_nil in Hv|]. simpl.
  apply elem_of_cons in Hv as [->|Hv]; [|by apply IH]. etrans; [|apply Hmono]. destruct (Z.ltb_spec m w); lia.
Qed.

Lemma vazao_min_zero vs : 0 ∈ vs -> (forall v, v ∈ vs -> 0 <= v) -> vazao_min vs = 0.
Proof.
  unfold vazao_min. intros H0 Hp.
  assert (Hge : forall vs m, 0 <= m -> (forall v, v ∈ vs -> 0 <= v) -> 0 <= foldl (fun m v => if v <? m then v else m) m vs).
  { clear. intros vs. induction vs as [|v vs IH]; intros m Hm Hv; simpl; [lia|].
    apply IH; [|intros w Hw; apply Hv; by right]. specialize (Hv v ltac:(left)). case_match; lia. }
  assert (Hle : forall vs m, m <= 0 \/ 0 ∈ vs -> foldl (fun m v => if v <? m then v else m) m vs <= 0).
  { clear. intros vs. induction vs as [|v vs IH]; intros m Hm; simpl; [destruct Hm as [|Hm]; [lia|by apply elem_of_nil in Hm]|].
    apply IH. destruct Hm as [Hm|[<-|Hm]%elem_of_cons]; [left|left|by right]; destruct (Z.ltb_spec v m) || destruct (Z.ltb_spec 0 m); lia. }
  specialize (Hge vs 10000 ltac:(lia) Hp). specialize (Hle vs 10000 (or_intror H0)). lia.
Qed.

Lemma elem_suffix_min l t : t ∈ suffix_min l -> t ∈ l.
Proof.
  induction l as [|x l IH]; [done|]. cbn [suffix_min]. intros [->|Ht]%elem_of_cons; [|right; by apply IH]. clear IH.
  induction l as [|y l IH]; simpl; [left|]. destruct (Z.min_spec y (foldr Z.min x l)) as [[_ ->]|[_ ->]]; [right; left|].
  apply elem_of_cons in IH as [->|IH]; [left|right; by right].
Qed.

Lemma zget_take {A} (l : list A) n s : 0 <= s < n -> zget (take (Z.to_nat n) l) s = zget l s.
Proof. intros Hs. unfold zget. case_match; [|done]. apply lookup_take_lt. lia. Qed.

(** What the throughput loop computes from the sorted end times. *)
Lemma vazoes_of_spec ts : length ts = 20%nat -> StronglySorted Z.le ts -> (forall t, t ∈ ts -> 1 <= t <= 2990) ->
  exists v, vazoes_of ts = Some (v, default 0 (period <$> last ts)) /\ length v = 300%nat /\
    forall s, 0 <= s < 300 -> zget v s = Some (ending s ts).
Proof.
  intros Hl Hs Ht. unfold vazoes_of.
  assert (Hp : forall t, t ∈ ts -> 0 <= period t <= Z.min 299 (foldr Z.max 0 ts)).
  { intros t Hin. specialize (Ht t Hin). assert (t <= foldr Z.max 0 ts).
    { clear -Hin. induction ts as [|u ts IH]; [by apply elem_of_nil in Hin|]. simpl. apply elem_of_cons in Hin as [->|Hin]; [lia|].
      specialize (IH Hin). lia. }
    unfold period. pose proof (Z.div_mod (t + 9) 10 ltac:(lia)). pose proof (Z.mod_pos_bound (t + 9) 10 ltac:(lia)). lia. }
  assert (Hmax : 0 <= foldr Z.max 0 ts) by (clear; induction ts; simpl; lia).
  destruct (vazao_loop_run (vazao_fuel ts) [] ts (replicate 300 0) 0 (Z.min 299 (foldr Z.max 0 ts))) as (v & E & Hlv & Hv);
    try done; try lia.
  - unfold vazao_fuel. lia.
  - exists v. split_and!; [done|done|]. intros s Hr. rewrite (Hv s 0); [done|].
    unfold zget. rewrite (proj2 (Z.leb_le _ _)) by lia. apply lookup_replicate. lia.
Qed.

Lemma quot_range a b c : 0 < b -> 0 <= a <= c * b -> 0 <= Z.quot a b <= c.
Proof.
  intros Hb Ha. split; [apply Z.quot_pos; lia|]. rewrite Z.quot_div_nonneg by lia.
  apply Z.div_le_upper_bound; lia.
Qed.

Lemma last_in (l : list Z) : l <> [] -> exists t, last l = Some t /\ t ∈ l.
Proof.
  intros Hl. destruct (last l) as [t|] eqn:El; [|by apply last_None in El].
  exists t. split; [done|]. apply last_Some_elem_of in El. done.
Qed.

Lemma sorted_last l t u : StronglySorted Z.le l -> last l = Some u -> t ∈ l -> t <= u.
Proof.
  induction 1 as [|x l Hs IH Hall]; intros Hlast Ht; [done|]. rewrite list.Forall_forall in Hall.
  destruct l as [|y l]; [apply list_elem_of_singleton in Ht as ->; injection Hlast; lia|].
  change (last (y :: l) = Some u) in Hlast. destruct (last_in (y :: l)) as (w & Hw & Hin); [done|].
  apply elem_of_cons in Ht as [->|Ht]; [|by apply IH]. rewrite Hlast in Hw. injection Hw as <-. by apply Hall.
Qed.

Lemma vazoes_extremes ss v lim : length ss = 20%nat -> length v = 300%nat -> lim < 300 ->
  (forall t, t ∈ ss -> 1 <= period t <= lim) -> (forall s, 0 <= s < 300 -> zget v s = Some (ending s ss)) ->
  let vs := take (Z.to_nat (lim + 1)) v in vazao_min vs = 0 /\ 20 <= lim * vazao_max vs.
Proof.
  intros Hls Hlv Hlim Hper Hv vs. assert (0 <= lim) by (destruct ss as [|t ss]; [done|]; specialize (Hper t ltac:(left)); lia).
  assert (Hvs : forall s, 0 <= s <= lim -> zget vs s = Some (ending s ss)) by (intros s Hs; unfold vs; rewrite zget_take by lia; apply Hv; lia).
  assert (Hin : forall s, 0 <= s <= lim -> ending s ss ∈ vs).
  { intros s Hs. specialize (Hvs s Hs). unfold zget in Hvs. case_match; [|done]. by eapply list_elem_of_lookup_2. }
  split; [apply vazao_min_zero|].
  - replace 0 with (ending 0 ss); [apply Hin; lia|]. unfold ending. destruct (filter _ ss) as [|t r] eqn:Ef; [done|].
    assert (Hf : t ∈ filter (fun t => period t = 0) ss) by (rewrite Ef; left).
    apply list_elem_of_filter in Hf as [Hp Hti]. specialize (Hper t Hti). lia.
  - intros w [i Hi]%list_elem_of_lookup_1. assert (Hi' : (i < length vs)%nat) by (by eapply lookup_lt_Some).
    unfold vs in Hi'. rewrite length_take in Hi'. specialize (Hvs (Z.of_nat i) ltac:(lia)). unfold zget in Hvs.
    rewrite (proj2 (Z.leb_le _ _)), Nat2Z.id in Hvs by lia. rewrite Hi in Hvs. injection Hvs as ->. unfold ending. lia.
  - pose proof (pigeonhole period (Z.to_nat lim) ss (vazao_max vs)) as Hph. rewrite Hls, Z2Nat.id in Hph by lia.
    apply Hph; [done|]. intros s Hs. apply vazao_max_ge, Hin. lia.
Qed.

Lemma vazao_norm_bounds ts : length ts = 20%nat -> (forall t, t ∈ ts -> 1 <= t <= 2990) ->
  exists n, vazao_norm ts = Some n /\ 0 <= n <= 100000.
Proof.
  intros Hl Ht. unfold vazao_norm. rewrite sort_terminos_eq by done. set (ss := suffix_min ts).
  assert (Hls : length ss = 20%nat) by (unfold ss; by rewrite length_suffix_min).
  assert (Hts : forall t, t ∈ ss -> 1 <= t <= 2990) by (intros t Hin; by apply Ht, elem_suffix_min).
  assert (Hss : StronglySorted Z.le ss) by (apply Sorted_StronglySorted; [intros a b c; lia|apply suffix_min_sorted]).
  destruct (vazoes_of_spec ss Hls Hss Hts) as (v & -> & Hlv & Hv).
  destruct (last_in ss) as (u & Hu & Hin); [by intros E; rewrite E in Hls|].
  replace (default 0 (period <$> last ss)) with (period u) by (by rewrite Hu). cbn [mbind option_bind].
  assert (Hper : forall t, t ∈ ss -> 1 <= period t <= period u).
  { intros t Hti. pose proof (sorted_last ss t u Hss Hu Hti). specialize (Hts t Hti). unfold period.
    pose proof (Z.div_mod (t + 9) 10 ltac:(lia)). pose proof (Z.mod_pos_bound (t + 9) 10 ltac:(lia)).
    split; [lia|]. apply Z.div_le_mono; lia. }
  assert (Hlim : 1 <= period u <= 299).
  { split; [by apply Hper|]. apply period_spec; [lia|]. specialize (Hts u Hin). lia. }
  destruct (vazoes_extremes ss v (period u) Hls Hlv ltac:(lia) Hper Hv) as [Hmin Hmax].
  rewrite Hmin. unfold cdiv at 1. rewrite (proj2 (Z.eqb_neq _ _)) by lia. cbn [mbind option_bind].
  set (vs := take _ v) in *. assert (Hmedia : 0 <= Z.quot (20 * 100000) (period u) <= 100000 * vazao_max vs) by (apply quot_range; nia).
  unfold cdiv. rewrite (proj2 (Z.eqb_neq _ _)) by nia. cbn [mbind option_bind].
  pose proof (quot_range ((Z.quot (20 * 100000) (period u) - 0 * 100000) * 100000) (vazao_max vs * 100000 - 0 * 100000) 100000
    ltac:(nia) ltac:(nia)) as Hq.
  eexists. split; [done|]. rewrite swrap_small by lia. lia.
Qed.

(** ** Fairness: Jain's index *)

Definition soma (l : list Z) : Z := foldr Z.add 0 l.
Definition soma_quadrado (l : list Z) : Z := soma ((fun j => j * j) <$> l).

Lemma jain_upper l : soma l * soma l <= Z.of_nat (length l) * soma_quadrado l.
Proof.
  unfold soma_quadrado. induction l as [|x l IH]; [done|]. cbn [fmap list_fmap length soma foldr]. fold (soma l).
  fold (soma ((fun j => j * j) <$> l)). set (q := soma ((fun j => j * j) <$> l)) in *. set (s := soma l) in *.
  set (n := Z.of_nat (length l)) in *. replace (Z.of_nat (S (length l))) with (n + 1) by lia.
  assert (Hcross : 2 * x * s <= n * (x * x) + q).
  { destruct (Z.eq_dec n 0) as [E|].
    - assert (El : l = []) by (destruct l; [done|unfold n in E; simpl in E; lia]). unfold s, q. rewrite El. simpl. lia.
    - apply (Z.mul_le_mono_pos_l _ _ n); [lia|]. pose proof (Z.square_nonneg (n * x - s)). nia. }
  nia.
Qed.

Lemma jain_lower l : (forall x, x ∈ l -> 0 <= x) -> 0 <= soma l /\ 0 <= soma_quadrado l <= soma l * soma l.
Proof.
  unfold soma_quadrado. induction l as [|x l IH]; intros Hp; [done|]. cbn [fmap list_fmap soma foldr]. fold (soma l).
  fold (soma ((fun j => j * j) <$> l)). specialize (Hp x ltac:(left)) as Hx.
  destruct IH as [H1 H2]; [intros y Hy; apply Hp; by right|]. nia.
Qed.

Lemma soma_le l m : (forall x, x ∈ l -> x <= m) -> soma l <= Z.of_nat (length l) * m.
Proof.
  induction l as [|x l IH]; intros Hp; [done|]. cbn [soma foldr length]. fold (soma l).
  specialize (Hp x ltac:(left)) as Hx. specialize (IH ltac:(intros y Hy; apply Hp; by right)). lia.
Qed.

Lemma justica_fim_bounds js : length js = 20%nat -> (forall j, j ∈ js -> 0 <= j <= 46340) -> 0 < soma js ->
  exists n, justica_fim js = Some n /\ 5000 <= n <= 100000 /\ n = (soma js * soma js * 100000) / (20 * soma_quadrado js).
Proof.
  intros Hl Hj Hs. unfold justica_fim. fold (soma js).
  assert (E : (fun j => i32 (j * j)) <$> js = (fun j => j * j) <$> js).
  { apply list_fmap_ext. intros i j Hi. apply swrap_small; [lia|]. specialize (Hj j ltac:(by eapply list_elem_of_lookup_2)). nia. }
  rewrite E. fold (soma ((fun j => j * j) <$> js)). fold (soma_quadrado js).
  pose proof (jain_upper js) as Hu. destruct (jain_lower js) as [_ Hlo]; [intros x Hx; by apply Hj|]. rewrite Hl in Hu.
  assert (0 < soma_quadrado js) by nia.
  unfold cdiv. rewrite (proj2 (Z.eqb_neq _ _)) by lia. cbn [mbind option_bind].
  assert (Hq : 5000 <= Z.quot (soma js * soma js * 100000) (20 * soma_quadrado js) <= 100000).
  { split; [|apply quot_range; lia]. rewrite Z.quot_div_nonneg by lia. apply Z.div_le_lower_bound; lia. }
  eexists. split; [done|]. rewrite swrap_small by lia. split; [done|]. apply Z.quot_div_nonneg; lia.
Qed.

Lemma inverse_bounds x : 0 < i32 x -> exists n, (q ← cdiv 100000 (i32 x); Some (i32 q)) = Some n /\ 0 <= n <= 100000.
Proof.
  intros Hx. unfold cdiv. rewrite (proj2 (Z.eqb_neq _ _)) by lia. cbn [mbind option_bind].
  pose proof (quot_range 100000 (i32 x) 100000 Hx ltac:(lia)). eexists. split; [done|]. rewrite swrap_small by lia. lia.
Qed.

(** One round of user/run_experiment.c reports meaningful numbers.  When the twenty
    processes all end between tick 1 and tick 2990, exactly [y] of the file-system metrics
    are not negative, the two sums that are inverted are positive and the twenty fairness
    metrics are at most 46340 and not all zero, no division by zero and no out-of-range
    index occurs; throughput, efficiency and overhead are between 0 and 100000, fairness is
    Jain's index, between a twentieth and one, and the performance is the floor of the mean
    of the four. *)
Theorem rodada_bounds y terminos eficiencias overheads justicas
    (Hterm : length terminos = 20%nat /\ forall t, t ∈ terminos -> 1 <= t <= 2990)
    (Hefic : Z.of_nat (length (filter (fun e => 0 <= e) eficiencias)) = y /\
             0 < i32 (soma (filter (fun e => 0 <= e) eficiencias)))
    (Hover : 0 < i32 (soma overheads))
    (Hjust : length justicas = 20%nat /\ (forall j, j ∈ justicas -> 0 <= j <= 46340) /\ 0 < soma justicas) :
  exists vazao eficiencia overhead justica,
    rodada y terminos eficiencias overheads justicas =
      Some (vazao, eficiencia, overhead, justica, (overhead + eficiencia + vazao + justica) / 4) /\
    0 <= vazao <= 100000 /\ 0 <= eficiencia <= 100000 /\ 0 <= overhead <= 100000 /\ 5000 <= justica <= 100000 /\
    justica = (soma justicas * soma justicas * 100000) / (20 * soma_quadrado justicas).
Proof.
  destruct Hterm as [Hlt Ht], Hefic as [Hy He], Hjust as (Hlj & Hj & Hs).
  destruct (vazao_norm_bounds terminos Hlt Ht) as (v & Ev & Hv).
  destruct (inverse_bounds _ He) as (e & Ee & He'). destruct (inverse_bounds _ Hover) as (o & Eo & Ho).
  destruct (justica_fim_bounds justicas Hlj Hj Hs) as (j & Ej & Hj' & Ejj).
  exists v, e, o, j. unfold rodada. rewrite Ev, Ej. cbn [mbind option_bind].
  unfold eficiencia_fim, overhead_fim. rewrite (proj2 (Z.eqb_eq _ _) Hy).
  fold (soma overheads). fold (soma (filter (fun e => 0 <= e) eficiencias)). rewrite Ee. cbn [mbind option_bind]. rewrite Eo.
  cbn [mbind option_bind]. split_and!; try lia. unfold desempenho. rewrite swrap_small by lia. rewrite Z.shiftr_div_pow2 by lia. done.
Qed.

Lemma rodada_bounds_witness :
  exists vazao eficiencia overhead justica,
    rodada 2 (seqZ 11 20) [5; -1; 7] (replicate 20 3) (replicate 20 10) =
      Some (vazao, eficiencia, overhead, justica, (overhead + eficiencia + vazao + justica) / 4) /\
    0 <= vazao <= 100000 /\ 0 <= eficiencia <= 100000 /\ 0 <= overhead <= 100000 /\ 5000 <= justica <= 100000 /\
    justica = (soma (replicate 20 10) * soma (replicate 20 10) * 100000) / (20 * soma_quadrado (replicate 20 10)).
Proof.
  apply (rodada_bounds 2 (seqZ 11 20) [5; -1; 7] (replicate 20 3) (replicate 20 10)).
  - split; [done|]. intros t Ht%elem_of_seqZ. lia.
  - split; reflexivity.
  - reflexivity.
  - split; [done|]. split; [|reflexivity]. intros j [-> _]%elem_of_replicate. lia.
Defined.

(** The exchange in the sort keeps only one of the two values: an end time is lost. *)
Lemma sort_loses_value : sort_terminos (2 :: 1 :: replicate 18 3) = 1 :: 1 :: replicate 18 3.
Proof. reflexivity. Qed.

(** The two digits run_experiment.c passes are the index graphs.c and rows.c read. *)
Lemma index_roundtrip index : 0 <= index < 20 -> index_of (index_str index) = Some index.
Proof.
  intros Hi. unfold index_str. destruct (Z.ltb_spec index 10); cbn [index_of]; f_equal; lia.
Qed.
