(* ===== verification/Graphs.v ===== *)
(** * user/graphs.c: the CPU-bound program of the experiment

    One iteration of the program: a random directed graph as an adjacency matrix, and the
    breadth-first search from a random vertex.  An index outside an array is [None].  The
    memory [malloc] gives for the queue has arbitrary contents, an argument of the search;
    that [malloc] succeeds is not checked by the program and is assumed here.

    The search does not mark its source as visited, so a source that lies on a cycle is
    enqueued again: [bfs_correct] says what [distancia] then holds. *)

From Stdlib Require Import ZArith Lia.
From stdpp Require Import base list numbers option.
From S2P Require Import Prelude Experiment.

Definition INF : Z := 100000.
Definition MAX_VERT : Z := 200.
Definition max_iter : Z := 1000.

(** [matrix[i][j]]. *)
Definition mget (matrix : list (list Z)) (i j : Z) : option Z := row ← zget matrix i; zget row j.
Definition mset (matrix : list (list Z)) (i j a : Z) : option (list (list Z)) :=
  row ← zget matrix i;
  _ ← zget row j;
  Some (zset matrix i (zset row j a)).

(** ** The random graph *)

(** [rand() % n], with the new [rand_next]. *)
Definition rand_mod (rand_next n : Z) : Z * Z := let x := do_rand rand_next in (x mod n, x).

Fixpoint generate_random_edge (fuel : nat) (matrix : list (list Z)) (num_vertices rand_next : Z) : option (Z * Z * Z) :=
  match fuel with
  | O => None
  | S fuel' =>
    let '(vert1, rand_next) := rand_mod rand_next num_vertices in
    let '(vert2, rand_next) := rand_mod rand_next num_vertices in
    if vert1 =? vert2 then generate_random_edge fuel' matrix num_vertices rand_next
    else
      a ← mget matrix vert1 vert2;
      if a =? 0 then Some (vert1, vert2, rand_next)
      else generate_random_edge fuel' matrix num_vertices rand_next
  end.

(** The zeroed matrix and the loop that sets [num_edges] entries. *)
Definition zero_matrix (num_vertices : Z) : list (list Z) :=
  replicate (Z.to_nat num_vertices) (replicate (Z.to_nat num_vertices) 0).
Fixpoint random_edges (fuel : nat) (num_edges : nat) (matrix : list (list Z)) (num_vertices rand_next : Z) :
    option (list (list Z) * Z) :=
  match num_edges with
  | O => Some (matrix, rand_next)
  | S num_edges' =>
    '(u, v, rand_next) ← generate_random_edge fuel matrix num_vertices rand_next;
    matrix ← mset matrix u v 1;
    random_edges fuel num_edges' matrix num_vertices rand_next
  end.

(** [do { u = ...; v = ...; } while (u == v)]. *)
Fixpoint random_pair (fuel : nat) (num_vertices rand_next : Z) : option (Z * Z * Z) :=
  match fuel with
  | O => None
  | S fuel' =>
    let '(u, rand_next) := rand_mod rand_next num_vertices in
    let '(v, rand_next) := rand_mod rand_next num_vertices in
    if u =? v then random_pair fuel' num_vertices rand_next else Some (u, v, rand_next)
  end.

(** ** The breadth-first search *)

Record busca := {
  distancia : list Z;
  visitado : list Z;
  fila : list Z;
  esq : Z;
  dir : Z
}.

(** The body of [for (int j ...)]. *)
Definition visita (matrix : list (list Z)) (atual : Z) (s : busca) (j : Z) : option busca :=
  a ← mget matrix atual j;
  if a =? 0 then Some s
  else
    v ← zget (visitado s) j;
    if v =? 0 then
      d ← zget (distancia s) atual;
      _ ← zget (distancia s) j;
      _ ← zget (fila s) (dir s + 1);
      Some {| distancia := zset (distancia s) j (d + 1); visitado := zset (visitado s) j 1;
              fila := zset (fila s) (dir s + 1) j; esq := esq s; dir := dir s + 1 |}
    else Some s.

Fixpoint visita_todos (matrix : list (list Z)) (atual : Z) (js : list Z) (s : busca) : option busca :=
  match js with
  | [] => Some s
  | j :: js' => s' ← visita matrix atual s j; visita_todos matrix atual js' s'
  end.

Fixpoint busca_loop (fuel : nat) (matrix : list (list Z)) (num_vertices : Z) (s : busca) : option busca :=
  match fuel with
  | O => None
  | S fuel' =>
    if esq s <=? dir s then
      atual ← zget (fila s) (esq s);
      s' ← visita_todos matrix atual (seqZ 0 num_vertices) s;
      busca_loop fuel' matrix num_vertices
        {| distancia := distancia s'; visitado := visitado s'; fila := fila s'; esq := esq s' + 1; dir := dir s' |}
    else Some s
  end.

(** The state before the loop: [malloc]ed queue memory [f0], its first entry [u]. *)
Definition busca_init (f0 : list Z) (u : Z) : busca :=
  {| distancia := zset (replicate (Z.to_nat MAX_VERT) INF) u 0; visitado := replicate (Z.to_nat MAX_VERT) 0;
     fila := zset f0 0 u; esq := 0; dir := 0 |}.
Definition menor_caminho (matrix : list (list Z)) (num_vertices u : Z) (f0 : list Z) : option busca :=
  busca_loop (Z.to_nat (num_vertices + 2)) matrix num_vertices (busca_init f0 u).

(** One iteration of [main]: the graph, the two vertices and the search. *)
Definition iteracao (fuel : nat) (f0 : list Z) (rand_next : Z) : option (list (list Z) * Z * Z * busca * Z) :=
  let '(nv, rand_next) := rand_mod rand_next 101 in
  let num_vertices := nv + 100 in
  let '(ne, rand_next) := rand_mod rand_next 351 in
  let num_edges := ne + 50 in
  '(matrix, rand_next) ← random_edges fuel (Z.to_nat num_edges) (zero_matrix num_vertices) num_vertices rand_next;
  '(u, v, rand_next) ← random_pair fuel num_vertices rand_next;
  s ← menor_caminho matrix num_vertices u f0;
  Some (matrix, u, v, s, rand_next).

(** ** What the search computes *)

Definition edge (matrix : list (list Z)) (i j : Z) : Prop := exists a, mget matrix i j = Some a /\ a <> 0.

(** Non-empty walks from [u], by their length. *)
Inductive gwalk (matrix : list (list Z)) (u : Z) : Z -> Z -> Prop :=
| walk_one j : edge matrix u j -> gwalk matrix u 1 j
| walk_snoc k i j : gwalk matrix u k i -> edge matrix i j -> gwalk matrix u (k + 1) j.

(** A square matrix of the size the program uses, without loops at a vertex. *)
Record graph (matrix : list (list Z)) (n : Z) : Prop := {
  g_size : 1 <= n <= MAX_VERT;
  g_get : forall i j, 0 <= i < n -> 0 <= j < n -> exists a, mget matrix i j = Some a;
  g_in : forall i j a, mget matrix i j = Some a -> 0 <= i < n /\ 0 <= j < n;
  g_loop : forall i, ~ edge matrix i i
}.

Section Search.
Context (matrix : list (list Z)) (n u : Z) (G : graph matrix n) (Hu : 0 <= u < n).

Definition D (s : busca) (j : Z) : Z := default 0 (zget (distancia s) j).

(** The levels of the queue's entries: 0 for the source, then the distance. *)
Definition levels (s : busca) (q : list Z) : list Z := 0 :: (D s <$> q).

(** The state when the vertices [q] have been visited, in that order, and the edges that
    satisfy [seen] (a position of the queue, a vertex) have been looked at; [L] is the level
    of the entry at [esq]. *)
Record binv (s : busca) (q : list Z) (L : Z) (seen : nat -> Z -> Prop) : Prop := {
  b_len : length (distancia s) = Z.to_nat MAX_VERT /\ length (visitado s) = Z.to_nat MAX_VERT /\
    length (fila s) = Z.to_nat (2 * MAX_VERT);
  b_dir : dir s = Z.of_nat (length q);
  b_fila : forall p x, (u :: q) !! p = Some x -> zget (fila s) (Z.of_nat p) = Some x;
  b_nodup : NoDup q;
  b_range : forall j, j ∈ q -> 0 <= j < n;
  b_vis : forall j, 0 <= j < n -> zget (visitado s) j = Some (if decide (j ∈ q) then 1 else 0);
  b_far : forall j, 0 <= j < n -> j ∉ q -> zget (distancia s) j = Some (if decide (j = u) then 0 else INF);
  b_walk : forall j, j ∈ q -> gwalk matrix u (D s j) j;
  b_sorted : forall p p' x x', (p <= p')%nat -> levels s q !! p = Some x -> levels s q !! p' = Some x' -> x <= x';
  b_near : forall x, x ∈ levels s q -> x <= L + 1;
  b_seen : forall p x l j, (u :: q) !! p = Some x -> levels s q !! p = Some l -> seen p j -> edge matrix x j ->
    j ∈ q /\ D s j <= l + 1
}.

Lemma b_room s q L seen : binv s q L seen -> (length q <= Z.to_nat n)%nat.
Proof using Type.
  clear G Hu. intros B. rewrite <- (length_seqZ 0 n). apply submseteq_length, NoDup_submseteq; [apply (b_nodup _ _ _ _ B)|].
  intros j Hj. apply elem_of_seqZ. pose proof (b_range _ _ _ _ B j Hj). lia.
Qed.

Lemma binv_init f0 : length f0 = Z.to_nat (2 * MAX_VERT) -> binv (busca_init f0 u) [] 0 (fun _ _ => False).
Proof using G Hu.
  intros Hf. pose proof (g_size _ _ G) as Hn. unfold MAX_VERT in *.
  split; unfold busca_init, MAX_VERT; cbn [distancia visitado fila dir].
  - rewrite !length_zset, !length_replicate. split_and!; (done || lia).
  - done.
  - intros [|p] x Hx; [|done]. injection Hx as <-. apply zget_zset_eq. lia.
  - apply NoDup_nil_2.
  - intros j Hj. by apply elem_of_nil in Hj.
  - intros j Hj. rewrite decide_False by apply not_elem_of_nil. unfold zget. rewrite (proj2 (Z.leb_le _ _)) by lia.
    apply lookup_replicate. lia.
  - intros j Hj _. case_decide as E.
    + subst j. apply zget_zset_eq. rewrite length_replicate. lia.
    + rewrite zget_zset_ne by done. unfold zget. rewrite (proj2 (Z.leb_le _ _)) by lia. apply lookup_replicate. lia.
  - intros j Hj. by apply elem_of_nil in Hj.
  - intros [|p] [|p'] x x' _ Hx Hx'; simpl in *; simplify_eq; lia.
  - intros x Hx%list_elem_of_singleton. lia.
  - done.
Qed.

Lemma walk_pos k j : gwalk matrix u k j -> 1 <= k.
Proof using Type. clear G Hu. induction 1; lia. Qed.

Lemma zget_D s q L seen j : binv s q L seen -> 0 <= j < n -> zget (distancia s) j = Some (D s j).
Proof using G.
  intros B Hj. pose proof (g_size _ _ G) as Hn. destruct (b_len _ _ _ _ B) as (Hl & _). unfold D.
  destruct (zget_is_Some (distancia s) j) as [d ->]; [unfold MAX_VERT in *; lia|done].
Qed.

(** The distance the program reads for the vertex at the head of the queue, its level. *)
Lemma atual_level s q L seen p atual : binv s q L seen -> (u :: q) !! p = Some atual -> levels s q !! p = Some L ->
  0 <= atual < n /\ zget (distancia s) atual = Some L /\ forall j, edge matrix atual j -> gwalk matrix u (L + 1) j.
Proof using G Hu.
  intros B Hp HL. destruct p as [|p].
  - injection Hp as <-. injection HL as <-.
    assert (Hni : u ∉ q).
    { intros Hin. pose proof (b_walk _ _ _ _ B u Hin) as Hw. pose proof (walk_pos _ _ Hw).
      pose proof (b_near _ _ _ _ B (D s u)) as Hd. unfold levels in Hd. specialize (Hd ltac:(right; by apply list_elem_of_fmap_2)).
      inversion Hw as [j He Ek Ej|k i j Hw' He Ek Ej]; [by apply (g_loop _ _ G u)|]. apply walk_pos in Hw'. lia. }
    split_and!; [apply Hu|apply Hu| |intros j He; by constructor].
    rewrite (b_far _ _ _ _ B u Hu Hni), decide_True by done. done.
  - change (q !! p = Some atual) in Hp. change ((D s <$> q) !! p = Some L) in HL. rewrite list_lookup_fmap in HL.
    rewrite Hp in HL. injection HL as <-. apply list_elem_of_lookup_2 in Hp.
    pose proof (b_range _ _ _ _ B _ Hp) as Hr. split_and!; [lia|lia|by eapply zget_D|].
    intros j He. eapply walk_snoc; [by eapply b_walk|done].
Qed.

Definition push (s : busca) (j L : Z) : busca :=
  {| distancia := zset (distancia s) j (L + 1); visitado := zset (visitado s) j 1;
     fila := zset (fila s) (dir s + 1) j; esq := esq s; dir := dir s + 1 |}.

Lemma D_push s j L x : 0 <= j < Z.of_nat (length (distancia s)) -> D (push s j L) x = if decide (x = j) then L + 1 else D s x.
Proof using Type.
  clear G Hu. intros Hj. unfold D, push. cbn [distancia]. case_decide as E; [subst x; by rewrite zget_zset_eq|by rewrite zget_zset_ne].
Qed.

Lemma levels_push s q j L : 0 <= j < Z.of_nat (length (distancia s)) -> j ∉ q ->
  levels (push s j L) (q ++ [j]) = levels s q ++ [L + 1].
Proof using Type.
  clear G Hu. intros Hj Hq. unfold levels. rewrite fmap_app. simpl. rewrite D_push, decide_True by done. f_equal. f_equal.
  apply list_fmap_ext. intros i x Hx. rewrite D_push by done. rewrite decide_False; [done|]. intros ->.
  apply Hq. by eapply list_elem_of_lookup_2.
Qed.

Lemma lookup_snoc_inv {A} (l : list A) x p y : (l ++ [x]) !! p = Some y -> l !! p = Some y \/ p = length l /\ y = x.
Proof using Type.
  clear G Hu. intros H. apply lookup_app_Some in H as [H|[Hle H]]; [by left|]. right.
  destruct (p - length l)%nat eqn:E; [|done]. injection H as <-. split; [lia|done].
Qed.

(** A vertex seen for the first time. *)
Lemma binv_push s q L seen p atual j :
  binv s q L seen -> (u :: q) !! p = Some atual -> levels s q !! p = Some L -> 0 <= j < n -> j ∉ q -> edge matrix atual j ->
  binv (push s j L) (q ++ [j]) L (fun p' j' => seen p' j' /\ (p' <= length q)%nat \/ p' = p /\ j' = j).
Proof using G Hu.
  intros B Hp HL Hj Hni He. destruct (atual_level _ _ _ _ _ _ B Hp HL) as (Ha & Hda & Hw).
  pose proof (b_room _ _ _ _ B) as Hroom. pose proof (g_size _ _ G) as Hn. destruct (b_len _ _ _ _ B) as (Hl1 & Hl2 & Hl3).
  unfold MAX_VERT in *. assert (Hjd : 0 <= j < Z.of_nat (length (distancia s))) by lia.
  assert (Hlev := levels_push s q j L Hjd Hni).
  assert (HD : forall x, x ∈ q -> D (push s j L) x = D s x).
  { intros x Hx. rewrite D_push by done. rewrite decide_False; [done|]. by intros ->. }
  split.
  - unfold push. cbn [distancia visitado fila]. rewrite !length_zset. done.
  - unfold push. cbn [dir]. rewrite (b_dir _ _ _ _ B), length_app. simpl. lia.
  - intros p' x Hx. unfold push. cbn [fila]. rewrite (b_dir _ _ _ _ B).
    change (u :: q ++ [j]) with ((u :: q) ++ [j]) in Hx. apply lookup_snoc_inv in Hx as [Hx|[-> ->]].
    + pose proof (lookup_lt_Some _ _ _ Hx) as Hlt. simpl in Hlt. rewrite zget_zset_ne by lia. by apply (b_fila _ _ _ _ B).
    + simpl. replace (Z.of_nat (S (length q))) with (Z.of_nat (length q) + 1) by lia. apply zget_zset_eq. lia.
  - apply list.NoDup_app. split_and!; [apply (b_nodup _ _ _ _ B)| |apply NoDup_singleton].
    intros x Hx Hx'%list_elem_of_singleton. by subst x.
  - intros x [Hx| ->%list_elem_of_singleton]%elem_of_app; [by apply (b_range _ _ _ _ B)|done].
  - intros x Hx. unfold push. cbn [visitado]. destruct (decide (x = j)) as [->|Hne].
    + rewrite zget_zset_eq by lia. rewrite decide_True; [done|]. apply elem_of_app. right. by apply list_elem_of_singleton.
    + rewrite zget_zset_ne by done. rewrite (b_vis _ _ _ _ B x Hx). f_equal. apply decide_ext. rewrite elem_of_app, list_elem_of_singleton. tauto.
  - intros x Hx [Hx1 Hx2]%not_elem_of_app. unfold push. cbn [distancia].
    rewrite zget_zset_ne by (intros ->; apply Hx2; by apply list_elem_of_singleton). by apply (b_far _ _ _ _ B).
  - intros x [Hx| ->%list_elem_of_singleton]%elem_of_app.
    + rewrite HD by done. by apply (b_walk _ _ _ _ B).
    + rewrite D_push, decide_True by done. by apply Hw.
  - rewrite Hlev. intros p1 p2 x x' Hle Hx Hx'. apply lookup_snoc_inv in Hx' as [Hx'|[-> ->]].
    + rewrite lookup_app_l in Hx by (pose proof (lookup_lt_Some _ _ _ Hx'); lia). by eapply (b_sorted _ _ _ _ B p1 p2).
    + apply lookup_snoc_inv in Hx as [Hx|[-> ->]]; [|lia]. apply (b_near _ _ _ _ B). by eapply list_elem_of_lookup_2.
  - rewrite Hlev. intros x [Hx| ->%list_elem_of_singleton]%elem_of_app; [by apply (b_near _ _ _ _ B)|lia].
  - rewrite Hlev. intros p' x l j' Hx Hl Hs He'. change (u :: q ++ [j]) with ((u :: q) ++ [j]) in Hx. destruct Hs as [[Hs Hp']|[-> ->]].
    + rewrite lookup_app_l in Hx by (simpl; lia). rewrite lookup_app_l in Hl by (unfold levels; simpl; rewrite length_fmap; lia).
      destruct (b_seen _ _ _ _ B p' x l j' Hx Hl Hs He') as [H1 H2]. rewrite HD by done. split; [by apply elem_of_app; left|done].
    + rewrite (lookup_app_l_Some _ _ _ _ HL) in Hl. injection Hl as <-. rewrite D_push, decide_True by done.
      split; [|lia]. apply elem_of_app. right. by apply list_elem_of_singleton.
Qed.

(** What the inner loop has looked at when it has reached vertex [m] for position [p]. *)
Definition upto (p : nat) (m : Z) (p' : nat) (j : Z) : Prop := (p' < p)%nat \/ p' = p /\ j < m.

Lemma binv_weaken s q L (P Q : nat -> Z -> Prop) : binv s q L P ->
  (forall p x j, (u :: q) !! p = Some x -> edge matrix x j -> Q p j -> P p j) -> binv s q L Q.
Proof using Type. clear G Hu. intros B HQ. destruct B. split; try done. intros p x l j Hx Hl Hq He. eapply b_seen0; eauto. Qed.

Lemma visita_step s q L p atual j :
  binv s q L (upto p j) -> (u :: q) !! p = Some atual -> levels s q !! p = Some L -> 0 <= j < n ->
  exists s' q', visita matrix atual s j = Some s' /\ esq s' = esq s /\ binv s' (q ++ q') L (upto p (j + 1)) /\
    levels s' (q ++ q') !! p = Some L.
Proof using G Hu.
  intros B Hp HL Hj. destruct (atual_level _ _ _ _ _ _ B Hp HL) as (Ha & Hda & _).
  pose proof (g_size _ _ G) as Hn. destruct (g_get _ _ G atual j Ha Hj) as [a Eg].
  unfold visita. rewrite Eg. cbn [mbind option_bind]. destruct (Z.eqb_spec a 0) as [->|Hne].
  { exists s, []. rewrite app_nil_r. split_and!; try done. eapply binv_weaken; [done|].
    intros p' x j' Hx (a' & Ea & Hna) [Hs|[-> Hs]]; [by left|]. right. split; [done|]. destruct (decide (j' = j)) as [->|]; [congruence|lia]. }
  assert (He : edge matrix atual j) by (exists a; by split).
  rewrite (b_vis _ _ _ _ B j Hj). cbn [mbind option_bind]. case_decide as Hin; cbn [Z.eqb].
  { exists s, []. rewrite app_nil_r. split_and!; try done. destruct B. split; try done.
    intros p' x l j' Hx Hl [Hs|[-> Hs]] He'; [apply (b_seen0 p' x l); [done|done|by left|done]|].
    destruct (decide (j' = j)) as [->|]; [|apply (b_seen0 p x l); [done|done|right; split; [done|lia]|done]].
    rewrite HL in Hl. injection Hl as <-. split; [done|]. apply b_near0. right. by apply list_elem_of_fmap_2. }
  rewrite Hda. pose proof (b_room _ _ _ _ B). destruct (b_len _ _ _ _ B) as (Hl1 & Hl2 & Hl3). unfold MAX_VERT in *.
  cbn [mbind option_bind]. rewrite (zget_D _ _ _ _ _ B Hj). cbn [mbind option_bind].
  destruct (zget_is_Some (fila s) (dir s + 1)) as [x0 ->]; [rewrite (b_dir _ _ _ _ B); lia|]. cbn [mbind option_bind].
  exists (push s j L), [j]. split_and!; [done|done| |].
  - eapply binv_weaken; [by eapply binv_push|]. intros p' x j' Hx He' Hs.
    pose proof (lookup_lt_Some _ _ _ Hp) as Hlt. simpl in Hlt. unfold upto in *.
    destruct (decide (p' = p /\ j' = j)) as [?|Hd]; [by right|]. left. split; [|lia].
    destruct Hs as [?|[? ?]]; [by left|]. right. split; [done|]. destruct (decide (j' = j)) as [->|]; [tauto|lia].
  - rewrite levels_push by (done || lia). by apply lookup_app_l_Some.
Qed.

Lemma visita_todos_run m js s q L p atual :
  js = seqZ m (n - m) -> 0 <= m <= n -> binv s q L (upto p m) -> (u :: q) !! p = Some atual -> levels s q !! p = Some L ->
  exists s' q', visita_todos matrix atual js s = Some s' /\ esq s' = esq s /\ binv s' (q ++ q') L (upto p n) /\
    levels s' (q ++ q') !! p = Some L.
Proof using G Hu.
  revert m s q. induction js as [|j js IH]; intros m s q Ejs Hm B Hp HL.
  - assert (Hmn : m = n) by (apply (f_equal length) in Ejs; rewrite length_seqZ in Ejs; simpl in Ejs; lia). subst m.
    exists s, []. by rewrite app_nil_r.
  - assert (Hlt : m < n) by (apply (f_equal length) in Ejs; rewrite length_seqZ in Ejs; simpl in Ejs; lia).
    rewrite seqZ_cons in Ejs by lia. injection Ejs as -> Ejs.
    destruct (visita_step s q L p atual m B Hp HL ltac:(lia)) as (s1 & q1 & E1 & Ee & B1 & HL1).
    destruct (IH (m + 1) s1 (q ++ q1)) as (s2 & q2 & E2 & Ee2 & B2 & HL2); try done.
    + rewrite Ejs. f_equal; lia.
    + lia.
    + change (u :: q ++ q1) with ((u :: q) ++ q1). by apply lookup_app_l_Some.
    + exists s2, (q1 ++ q2). rewrite app_assoc. cbn [visita_todos]. rewrite E1. cbn [mbind option_bind].
      split_and!; [done|by rewrite Ee2|done|done].
Qed.

(** The loop empties the queue: every position has been looked at. *)
Lemma busca_loop_run fuel s q L p :
  binv s q L (fun p' _ => (p' < p)%nat) -> esq s = Z.of_nat p -> (p <= S (length q))%nat ->
  (forall l, levels s q !! p = Some l -> L <= l) -> (n + 1 - Z.of_nat p < Z.of_nat fuel) ->
  exists s' q' L', busca_loop fuel matrix n s = Some s' /\ binv s' q' L' (fun _ _ => True) /\ dir s' < esq s'.
Proof using G Hu.
  revert s q L p. induction fuel as [|fuel IH]; intros s q L p B He Hp HL Hfuel; cbn [busca_loop].
  { pose proof (b_room _ _ _ _ B). pose proof (g_size _ _ G). lia. }
  rewrite He, (b_dir _ _ _ _ B). destruct (Z.leb_spec (Z.of_nat p) (Z.of_nat (length q))) as [Hle|Hgt].
  - destruct (lookup_lt_is_Some_2 (u :: q) p) as [atual Hat]; [simpl; lia|].
    rewrite (b_fila _ _ _ _ B _ _ Hat). cbn [mbind option_bind].
    destruct (lookup_lt_is_Some_2 (levels s q) p) as [l Hl]; [unfold levels; simpl; rewrite length_fmap; lia|].
    assert (B' : binv s q l (upto p 0)).
    { specialize (HL l Hl). assert (Hn : binv s q l (fun p' _ => (p' < p)%nat)).
      { destruct B. split; try done. intros x Hx. specialize (b_near0 x Hx). lia. }
      eapply binv_weaken; [exact Hn|]. intros p' x j Hx (a & Ea & _) [?|[-> ?]]; [done|]. apply (g_in _ _ G) in Ea. lia. }
    destruct (visita_todos_run 0 (seqZ 0 n) s q l p atual) as (s1 & q1 & E1 & Ee & B1 & HL1); try done.
    { f_equal; lia. }
    { pose proof (g_size _ _ G). lia. }
    rewrite E1. cbn [mbind option_bind]. eapply (IH _ (q ++ q1) l (S p)).
    + assert (B2 : binv s1 (q ++ q1) l (fun p' _ => (p' < S p)%nat)).
      { eapply binv_weaken; [exact B1|]. intros p' x j Hx (a & Ea & _) Hlt. unfold upto. apply (g_in _ _ G) in Ea. lia. }
      destruct B2. by split.
    + cbn [esq]. rewrite Ee, He. lia.
    + rewrite length_app. lia.
    + intros l' Hl'. eapply (b_sorted _ _ _ _ B1 p (S p)); [lia|done|done].
    + lia.
  - exists s, q, L. split_and!; [done| |rewrite (b_dir _ _ _ _ B), He; lia].
    eapply binv_weaken; [exact B|]. intros p' x j Hx _ _. apply lookup_lt_Some in Hx. simpl in Hx |- *. lia.
Qed.

Lemma search_run f0 : length f0 = Z.to_nat (2 * MAX_VERT) ->
  exists s q L, menor_caminho matrix n u f0 = Some s /\ binv s q L (fun _ _ => True).
Proof using G Hu.
  intros Hf. pose proof (binv_init f0 Hf) as B0. pose proof (g_size _ _ G) as Hn.
  destruct (busca_loop_run (Z.to_nat (n + 2)) (busca_init f0 u) [] 0 0%nat) as (s & q & L & E & B & _); [| | | | |by exists s, q, L].
  - eapply binv_weaken; [exact B0|]. intros p x j _ _ Hp. by apply Nat.nlt_0_r in Hp.
  - done.
  - simpl. lia.
  - intros l Hl. injection Hl as <-. done.
  - lia.
Qed.

(** Every walk is found, with a distance that is no longer. *)
Lemma walk_found s q L k j : binv s q L (fun _ _ => True) -> gwalk matrix u k j -> j ∈ q /\ D s j <= k.
Proof using Type.
  clear G Hu. intros B. induction 1 as [j He|k i j Hw [Hin IH] He].
  - pose proof (b_seen _ _ _ _ B 0%nat u 0 j eq_refl eq_refl I He) as [H1 H2]. split; [done|lia].
  - apply list_elem_of_lookup_1 in Hin as [p Hp].
    destruct (b_seen _ _ _ _ B (S p) i (D s i) j Hp) as [H1 H2]; [|done|done|split; [done|lia]].
    change (levels s q !! S p) with ((D s <$> q) !! p). rewrite list_lookup_fmap, Hp. done.
Qed.
End Search.

(** C30: The breadth-first search of user/graphs.c terminates without an index out of range,
    the queue never holding more than one entry per vertex after the source, and for every
    vertex [j] it marks [j] and stores the length of a shortest non-empty walk from [u] to
    [j], or, when there is none, leaves [j] unmarked with distance 0 for [u] itself and
    [INF] otherwise.  For [j] other than [u] this is the shortest path; the source is given
    the length of its shortest cycle. *)
Theorem bfs_correct matrix n u f0 (G : graph matrix n) (Hu : 0 <= u < n) (Hf : length f0 = Z.to_nat (2 * MAX_VERT)) :
  exists s, menor_caminho matrix n u f0 = Some s /\ 0 <= dir s <= n /\
    forall j, 0 <= j < n ->
      (zget (visitado s) j = Some 1 /\ exists k, zget (distancia s) j = Some k /\ gwalk matrix u k j /\
         forall k', gwalk matrix u k' j -> k <= k') \/
      (zget (visitado s) j = Some 0 /\ zget (distancia s) j = Some (if decide (j = u) then 0 else INF) /\
         forall k', ~ gwalk matrix u k' j).
Proof.
  destruct (search_run matrix n u G Hu f0 Hf) as (s & q & L & E & B).
  exists s. split; [exact E|]. pose proof (b_room _ _ _ _ _ _ _ B). rewrite (b_dir _ _ _ _ _ _ _ B). split; [lia|].
  intros j Hj. rewrite (b_vis _ _ _ _ _ _ _ B j Hj). case_decide as Hin; [left|right]; (split; [done|]).
  - exists (D s j). split_and!; [by eapply zget_D|by eapply b_walk|]. intros k' Hw. by eapply walk_found.
  - split; [by eapply b_far|]. intros k' Hw. by apply (walk_found _ _ _ _ _ _ _ _ B) in Hw as [? _].
Qed.

(** ** The random graph has the shape the search needs *)

Lemma mget_mset matrix i j a matrix' x y : mset matrix i j a = Some matrix' ->
  mget matrix' x y = if decide (x = i /\ y = j) then Some a else mget matrix x y.
Proof.
  unfold mset, mget. destruct (zget matrix i) as [row|] eqn:Er; [|done]. cbn [mbind option_bind].
  destruct (zget row j) as [b|] eqn:Eb; [|done]. cbn [mbind option_bind]. intros [= <-].
  pose proof (zget_Some _ _ _ Er). pose proof (zget_Some _ _ _ Eb).
  destruct (decide (x = i)) as [->|Hx].
  - rewrite zget_zset_eq by lia. rewrite Er. cbn [mbind option_bind]. destruct (decide (y = j)) as [->|Hy].
    + rewrite zget_zset_eq, decide_True by (done || lia). done.
    + rewrite zget_zset_ne, decide_False by intuition congruence. done.
  - rewrite zget_zset_ne, decide_False by intuition congruence. done.
Qed.

Lemma zget_replicate {A} n (x : A) i : 0 <= i < n -> zget (replicate (Z.to_nat n) x) i = Some x.
Proof. intros Hi. unfold zget. rewrite (proj2 (Z.leb_le _ _)) by lia. apply lookup_replicate_2. lia. Qed.

Lemma zero_graph n : 1 <= n <= MAX_VERT -> graph (zero_matrix n) n.
Proof.
  intros Hn. assert (Hg : forall i j, 0 <= i < n -> 0 <= j < n -> mget (zero_matrix n) i j = Some 0).
  { intros i j Hi Hj. unfold mget, zero_matrix. rewrite zget_replicate by done. cbn [mbind option_bind]. by apply zget_replicate. }
  assert (Hin : forall i j a, mget (zero_matrix n) i j = Some a -> 0 <= i < n /\ 0 <= j < n).
  { intros i j a. unfold mget, zero_matrix. destruct (zget _ i) as [row|] eqn:Er; [|done]. cbn [mbind option_bind]. intros Ea.
    pose proof (zget_Some _ _ _ Er) as H1. rewrite length_replicate in H1. rewrite zget_replicate in Er by (unfold MAX_VERT in *; lia). injection Er as <-.
    pose proof (zget_Some _ _ _ Ea) as H2. rewrite length_replicate in H2. unfold MAX_VERT in *. lia. }
  split; [done| |done|].
  - intros i j Hi Hj. exists 0. by apply Hg.
  - intros i (a & Ea & Hne). destruct (Hin _ _ _ Ea) as [Hi _]. rewrite Hg in Ea by done. congruence.
Qed.

Lemma generate_random_edge_ok fuel matrix n r u v r' :
  generate_random_edge fuel matrix n r = Some (u, v, r') -> u <> v /\ mget matrix u v = Some 0.
Proof.
  revert r. induction fuel as [|fuel IH]; intros r; [done|]. cbn [generate_random_edge rand_mod].
  destruct (Z.eqb_spec (do_rand r mod n) (do_rand (do_rand r) mod n)) as [|Hne]; [by intros ?%IH|].
  destruct (mget _ (_ mod _) _) as [a|] eqn:Ea; [|done]. cbn [mbind option_bind]. destruct (Z.eqb_spec a 0) as [->|]; [|by intros ?%IH].
  by intros [= <- <- <-].
Qed.

Lemma mset_graph matrix n u v matrix' : graph matrix n -> u <> v -> mset matrix u v 1 = Some matrix' -> graph matrix' n.
Proof.
  intros G Hne Hm. assert (Hg := fun x y => mget_mset matrix u v 1 matrix' x y Hm).
  assert (Huv : 0 <= u < n /\ 0 <= v < n).
  { unfold mset in Hm. destruct (zget matrix u) as [row|] eqn:Er; [|done]. cbn [mbind option_bind] in Hm.
    destruct (zget row v) as [b|] eqn:Eb; [|done]. apply (g_in _ _ G u v b). unfold mget. rewrite Er. done. }
  split; [apply (g_size _ _ G)| | |].
  - intros i j Hi Hj. rewrite Hg. case_decide; [by eexists|by apply (g_get _ _ G)].
  - intros i j a. rewrite Hg. case_decide as Hd; [destruct Hd; by subst|by apply (g_in _ _ G)].
  - intros i (a & Ea & Ha). rewrite Hg, decide_False in Ea by (intros [-> ->]; done). apply (g_loop _ _ G i). by exists a.
Qed.

Lemma random_edges_graph fuel ne matrix n r matrix' r' :
  graph matrix n -> random_edges fuel ne matrix n r = Some (matrix', r') -> graph matrix' n.
Proof.
  revert matrix r. induction ne as [|ne IH]; intros matrix r G; cbn [random_edges]; [by intros [= <- <-]|].
  destruct (generate_random_edge _ _ _ _) as [[[u v] r1]|] eqn:Eg; [|done]. cbn [mbind option_bind].
  destruct (mset _ _ _ _) as [m1|] eqn:Em; [|done]. cbn [mbind option_bind]. apply IH.
  apply generate_random_edge_ok in Eg as [Hne _]. by eapply mset_graph.
Qed.

(** Three random edges on four vertices. *)
Definition demo_matrix : list (list Z) := default [] (fst <$> random_edges 10 3 (zero_matrix 4) 4 7).

Lemma demo_graph : graph demo_matrix 4.
Proof.
  apply (random_edges_graph 10 3 (zero_matrix 4) 4 7 demo_matrix 1025516142); [|vm_compute; reflexivity]. apply zero_graph. unfold MAX_VERT. lia.
Qed.

Lemma bfs_correct_witness :
  graph demo_matrix 4 /\ 0 <= 1 < 4 /\ length (replicate 400 5) = Z.to_nat (2 * MAX_VERT) /\
  exists s, menor_caminho demo_matrix 4 1 (replicate 400 5) = Some s /\ 0 <= dir s <= 4 /\
    forall j, 0 <= j < 4 ->
      (zget (visitado s) j = Some 1 /\ exists k, zget (distancia s) j = Some k /\ gwalk demo_matrix 1 k j /\
         forall k', gwalk demo_matrix 1 k' j -> k <= k') \/
      (zget (visitado s) j = Some 0 /\ zget (distancia s) j = Some (if decide (j = 1) then 0 else INF) /\
         forall k', ~ gwalk demo_matrix 1 k' j).
Proof.
  split; [exact demo_graph|]. split; [lia|]. split; [reflexivity|].
  apply (bfs_correct demo_matrix 4 1 (replicate 400 5) demo_graph); [lia|reflexivity].
Defined.

(** An iteration whose random loops end is a search on a graph of the right shape, so it
    ends; its vertices are in range. *)
Lemma iteracao_ends fuel f0 r nv ne matrix r2 u v r3 :
  length f0 = Z.to_nat (2 * MAX_VERT) -> nv = do_rand r mod 101 + 100 -> ne = do_rand (do_rand r) mod 351 + 50 ->
  random_edges fuel (Z.to_nat ne) (zero_matrix nv) nv (do_rand (do_rand r)) = Some (matrix, r2) ->
  random_pair fuel nv r2 = Some (u, v, r3) ->
  exists s, iteracao fuel f0 r = Some (matrix, u, v, s, r3) /\ menor_caminho matrix nv u f0 = Some s /\ graph matrix nv /\ u <> v.
Proof.
  intros Hf Env Ene Em Ep. pose proof (Z.mod_pos_bound (do_rand r) 101 ltac:(lia)) as Hb.
  assert (G : graph matrix nv) by (eapply random_edges_graph; [apply zero_graph; unfold MAX_VERT; lia|exact Em]).
  assert (Huv : 0 <= u < nv /\ u <> v).
  { clear -Ep Hb Env. revert r2 Ep. induction fuel as [|fuel IH]; intros r2; [done|]. cbn [random_pair rand_mod].
    destruct (Z.eqb_spec (do_rand r2 mod nv) (do_rand (do_rand r2) mod nv)) as [|Hne]; [by apply IH|]. intros [= <- <- <-].
    split; [apply Z.mod_pos_bound; lia|done]. }
  destruct (search_run matrix nv u G (proj1 Huv) f0 Hf) as (s & q & L & E & B).
  exists s. split_and!; [|exact E|done|apply Huv]. unfold iteracao. cbn [rand_mod]. rewrite <- Env, <- Ene, Em. cbn [mbind option_bind].
    rewrite Ep. cbn [mbind option_bind]. by rewrite E.
Qed.

(** The distance stored for a source on a cycle is the length of the cycle, not 0. *)
Lemma source_on_cycle : (s ← menor_caminho [[0; 1]; [1; 0]] 2 0 (replicate 400 0); zget (distancia s) 0) = Some 2.
Proof. vm_compute. reflexivity. Qed.
