(* ===== verification/Rows.v ===== *)
(** * user/rows.c: the I/O-bound program of the experiment

    The name of the file a process works on, built from its process identifier; the random
    lines it writes; and the exchange of random rows, in arrays that hold C strings.  An index
    outside an array, and a string that does not end within its array, are [None]. *)

From Stdlib Require Import ZArith Lia.
From stdpp Require Import base list numbers option.
From S2P Require Import Prelude Experiment.

(** ** The file name *)

(** The [do ... while] loop that stores the digits, least significant first. *)
Fixpoint pid_digits (fuel : nat) (pid_str : list Z) (i pid : Z) : option (list Z * Z) :=
  match fuel with
  | O => None
  | S fuel' =>
    _ ← zget pid_str i;
    let pid_str := zset pid_str i (pid mod 10 + 48) in
    let i := i + 1 in
    let pid := pid / 10 in
    if 0 <? pid then pid_digits fuel' pid_str i pid else Some (pid_str, i)
  end.

(** [for (j = 0, i--; j < i; j++, i--)]: the array and the final [j]. *)
Fixpoint reverse_loop (fuel : nat) (pid_str : list Z) (j i : Z) : option (list Z * Z) :=
  match fuel with
  | O => None
  | S fuel' =>
    if j <? i then
      temp ← zget pid_str j;
      x ← zget pid_str i;
      reverse_loop fuel' (zset (zset pid_str j x) i temp) (j + 1) (i - 1)
    else Some (pid_str, j)
  end.

(** [while (src[j] != 0) filename[i++] = src[j++]]. *)
Fixpoint append_loop (fuel : nat) (filename src : list Z) (i j : Z) : option (list Z * Z) :=
  match fuel with
  | O => None
  | S fuel' =>
    c ← zget src j;
    if c =? 0 then Some (filename, i)
    else
      _ ← zget filename i;
      append_loop fuel' (zset filename i c) src (i + 1) (j + 1)
  end.

Definition iobound : list Z := [105; 111; 98; 111; 117; 110; 100].
Definition dot_txt : list Z := [46; 116; 120; 116].

(** The array [filename] of twenty bytes; [junk] is the contents of [pid_str] before. *)
Definition row_filename (junk : list Z) (pid : Z) : option (list Z) :=
  let filename := iobound ++ replicate 13 0 in
  let pid := pid + 1000 in
  '(pid_str, i) ← pid_digits 10 junk 0 pid;
  _ ← zget pid_str i;
  let pid_str := zset pid_str i 0 in
  '(pid_str, j) ← reverse_loop 10 pid_str 0 (i - 1);
  '(filename, i) ← append_loop 20 filename pid_str 7 j;
  '(filename, i) ← append_loop 20 filename (dot_txt ++ [0]) i 0;
  _ ← zget filename i;
  Some (zset filename i 0).

(** The name holds the tens and the units of the process identifier only, since [j] is where
    the reversal stopped and not 0. *)
Lemma row_filename_eq junk pid : length junk = 10%nat -> 0 <= pid < 9000 ->
  row_filename junk pid =
    Some (iobound ++ [pid / 10 mod 10 + 48; pid mod 10 + 48] ++ dot_txt ++ replicate 7 0).
Proof.
  intros Hl Hp. destruct junk as [|a0 [|a1 [|a2 [|a3 [|a4 [|a5 [|a6 [|a7 [|a8 [|a9 [|? ?]]]]]]]]]]]; try done.
  unfold row_filename. set (q := pid + 1000).
  assert (H1 : 0 < q / 10) by (apply Z.div_str_pos; lia).
  assert (H2 : 0 < q / 10 / 10) by (rewrite Z.div_div by lia; apply Z.div_str_pos; lia).
  assert (H3 : 0 < q / 10 / 10 / 10) by (rewrite !Z.div_div by lia; apply Z.div_str_pos; lia).
  assert (H4 : q / 10 / 10 / 10 / 10 = 0) by (rewrite !Z.div_div by lia; apply Z.div_small; lia).
  assert (E1 : q mod 10 = pid mod 10) by (unfold q; rewrite <- (Z_mod_plus_full pid 100 10); f_equal; lia).
  assert (E2 : q / 10 mod 10 = pid / 10 mod 10).
  { unfold q. replace (pid + 1000) with (pid + 100 * 10) by lia. rewrite Z.div_add by lia.
    rewrite <- (Z_mod_plus_full (pid / 10) 10 10). f_equal; lia. }
  clearbody q. set (d2 := q / 10 / 10 mod 10 + 48). set (d3 := q / 10 / 10 / 10 mod 10 + 48).
  assert (Ed : pid_digits 10 [a0; a1; a2; a3; a4; a5; a6; a7; a8; a9] 0 q =
    Some ([pid mod 10 + 48; pid / 10 mod 10 + 48; d2; d3; a4; a5; a6; a7; a8; a9], 4)).
  { cbn [pid_digits]. rewrite (proj2 (Z.ltb_lt _ _) H1), (proj2 (Z.ltb_lt _ _) H2), (proj2 (Z.ltb_lt _ _) H3), H4, E1, E2. reflexivity. }
  rewrite Ed. cbn [mbind option_bind]. pose proof (Z.mod_pos_bound pid 10 ltac:(lia)). pose proof (Z.mod_pos_bound (pid / 10) 10 ltac:(lia)).
  set (d0 := pid mod 10 + 48) in *. set (d1 := pid / 10 mod 10 + 48) in *.
  assert (N0 : (d0 =? 0) = false) by (apply Z.eqb_neq; lia). assert (N1 : (d1 =? 0) = false) by (apply Z.eqb_neq; lia).
  clearbody d0 d1 d2 d3.
  change (('(filename, i) ← append_loop 20 (iobound ++ replicate 13 0) [d3; d2; d1; d0; 0; a5; a6; a7; a8; a9] 7 2;
    '(filename, i) ← append_loop 20 filename (dot_txt ++ [0]) i 0; _ ← zget filename i; Some (zset filename i 0)) =
    Some (iobound ++ [d1; d0] ++ dot_txt ++ replicate 7 0)).
  assert (Ea : append_loop 20 (iobound ++ replicate 13 0) [d3; d2; d1; d0; 0; a5; a6; a7; a8; a9] 7 2 =
    Some (iobound ++ [d1; d0] ++ replicate 11 0, 9)).
  { change (append_loop 20 (iobound ++ replicate 13 0) [d3; d2; d1; d0; 0; a5; a6; a7; a8; a9] 7 2) with
      (if d1 =? 0 then Some (iobound ++ replicate 13 0, 7) else if d0 =? 0 then Some (iobound ++ [d1] ++ replicate 12 0, 8)
       else Some (iobound ++ [d1; d0] ++ replicate 11 0, 9)). by rewrite N1, N0. }
  rewrite Ea. reflexivity.
Qed.

(** ** The lines and the exchange of rows *)

(** [linha[j] = caracteres[rand() % 70]] for a hundred characters, then the newline. *)
Fixpoint random_line (k : nat) (caracteres : list Z) (rand_next : Z) : option (list Z * Z) :=
  match k with
  | O => Some ([10], rand_next)
  | S k' =>
    let r := do_rand rand_next in
    c ← zget caracteres (r mod 70);
    '(l, r') ← random_line k' caracteres r;
    Some (c :: l, r')
  end.

(** The string at the start of an array, and [strcpy] between two arrays. *)
Fixpoint c_string (a : list Z) : option (list Z) :=
  match a with
  | [] => None
  | c :: a' => if c =? 0 then Some [] else s ← c_string a'; Some (c :: s)
  end.
Definition strcpy_to (dst src : list Z) : option (list Z) :=
  s ← c_string src;
  if (length dst <=? length s)%nat then None else Some (s ++ 0 :: drop (S (length s)) dst).

(** The three [strcpy] of one exchange, and the fifty exchanges. *)
Definition swap_rows (tmp : list Z) (linhas : list (list Z)) (row1 row2 : Z) : option (list Z * list (list Z)) :=
  l1 ← zget linhas row1;
  tmp ← strcpy_to tmp l1;
  l2 ← zget linhas row2;
  l1 ← strcpy_to l1 l2;
  let linhas := zset linhas row1 l1 in
  l2 ← zget linhas row2;
  l2 ← strcpy_to l2 tmp;
  Some (tmp, zset linhas row2 l2).
Fixpoint permute_rows (k : nat) (tmp : list Z) (linhas : list (list Z)) (rand_next : Z) : option (list (list Z) * Z) :=
  match k with
  | O => Some (linhas, rand_next)
  | S k' =>
    let r1 := do_rand rand_next in
    let r2 := do_rand r1 in
    '(tmp, linhas) ← swap_rows tmp linhas (r1 mod 100) (r2 mod 100);
    permute_rows k' tmp linhas r2
  end.

Lemma random_line_total k caracteres r : length caracteres = 70%nat ->
  exists cs r', random_line k caracteres r = Some (cs ++ [10], r') /\ length cs = k /\ Forall (fun c => c ∈ caracteres) cs.
Proof.
  intros Hc. revert r. induction k as [|k IH]; intros r; cbn [random_line]; [by exists [], r|].
  destruct (zget_is_Some caracteres (do_rand r mod 70)) as [c Ec]; [pose proof (Z.mod_pos_bound (do_rand r) 70 ltac:(lia)); lia|].
  rewrite Ec. cbn [mbind option_bind]. destruct (IH (do_rand r)) as (cs & r' & -> & Hl & Hcs). cbn [mbind option_bind].
  exists (c :: cs), r'. split_and!; [done|by cbn; rewrite Hl|]. constructor; [|done]. unfold zget in Ec. destruct (0 <=? _); [|done].
  by eapply list_elem_of_lookup_2.
Qed.

Lemma insert_swap {A} (l : list A) i j x y : l !! i = Some x -> l !! j = Some y -> <[j:=x]> (<[i:=y]> l) ≡ₚ l.
Proof.
  intros Hi Hj. destruct (decide (i = j)) as [->|Hne].
  { rewrite list_insert_insert_eq. rewrite Hi in Hj. injection Hj as ->. by rewrite list_insert_id. }
  apply Permutation_inj. split; [by rewrite !length_insert|].
  set (f := fun k => if decide (k = i) then j else if decide (k = j) then i else k).
  exists f. split.
  { intros a b. unfold f. repeat case_decide; congruence. }
  intros k. unfold f. pose proof (lookup_lt_Some _ _ _ Hi). pose proof (lookup_lt_Some _ _ _ Hj).
  destruct (decide (k = i)) as [->|]; [|destruct (decide (k = j)) as [->|]].
  - rewrite list_lookup_insert_ne by done. rewrite list_lookup_insert_eq by done. done.
  - rewrite list_lookup_insert_eq by (by rewrite length_insert). done.
  - rewrite !list_lookup_insert_ne by done. done.
Qed.

Lemma c_string_app s a : 0 ∉ s -> c_string (s ++ 0 :: a) = Some s.
Proof.
  induction s as [|c s IH]; [done|]. intros [Hc Hs]%not_elem_of_cons. cbn [app c_string].
  rewrite (proj2 (Z.eqb_neq _ _)) by done. by rewrite IH.
Qed.

Lemma c_string_ok a s : c_string a = Some s -> 0 ∉ s /\ (length s < length a)%nat.
Proof.
  revert s. induction a as [|c a IH]; intros s; [done|]. cbn [c_string length]. destruct (Z.eqb_spec c 0).
  - intros [= <-]. split; [apply not_elem_of_nil|cbn; lia].
  - destruct (c_string a) as [s'|] eqn:E; [|done]. intros [= <-]. destruct (IH s' eq_refl) as [H1 H2].
    split; [by apply not_elem_of_cons|cbn [length]; lia].
Qed.

Lemma c_string_prefix a s : c_string a = Some s -> exists t, a = s ++ 0 :: t.
Proof.
  revert s. induction a as [|c a IH]; intros s; [done|]. cbn [c_string]. destruct (Z.eqb_spec c 0) as [->|].
  - intros [= <-]. by exists a.
  - destruct (c_string a) as [s'|]; [|done]. intros [= <-]. destruct (IH s' eq_refl) as [t ->]. by exists t.
Qed.

Lemma strcpy_to_ok dst src s : c_string src = Some s -> (length s < length dst)%nat ->
  exists d, strcpy_to dst src = Some d /\ c_string d = Some s /\ length d = length dst.
Proof.
  intros E Hl. unfold strcpy_to. rewrite E. cbn [mbind option_bind]. rewrite (proj2 (Nat.leb_gt _ _)) by done.
  eexists. split_and!; [done|apply c_string_app, (c_string_ok _ _ E)|]. rewrite length_app. cbn [length]. rewrite length_drop. lia.
Qed.

(** Arrays of [n] bytes that hold the given strings. *)
Definition holds (n : nat) (linhas ss : list (list Z)) : Prop := Forall2 (fun a s => length a = n /\ c_string a = Some s) linhas ss.

Lemma holds_get n linhas ss i a : holds n linhas ss -> zget linhas i = Some a ->
  exists s, zget ss i = Some s /\ length a = n /\ c_string a = Some s.
Proof.
  unfold zget. destruct (0 <=? i); [|done]. intros H Hi. destruct (Forall2_lookup_l _ _ _ _ _ H Hi) as (s & Hs & Hl & Hc). eauto.
Qed.

Lemma holds_set n linhas ss i a s : holds n linhas ss -> length a = n -> c_string a = Some s -> holds n (zset linhas i a) (zset ss i s).
Proof. intros H Hl Hc. unfold zset. destruct (0 <=? i); [|done]. by apply Forall2_insert. Qed.

Lemma swap_rows_ok n tmp linhas ss r1 r2 s1 s2 : holds n linhas ss -> length tmp = n -> zget ss r1 = Some s1 -> zget ss r2 = Some s2 ->
  exists tmp' linhas', swap_rows tmp linhas r1 r2 = Some (tmp', linhas') /\ length tmp' = n /\ holds n linhas' (zset (zset ss r1 s2) r2 s1).
Proof.
  intros H Ht E1 E2. pose proof (Forall2_length H) as Hlen. apply zget_Some in E1 as B1, E2 as B2.
  destruct (zget_is_Some linhas r1) as [l1 L1]; [lia|]. destruct (zget_is_Some linhas r2) as [l2 L2]; [lia|].
  destruct (holds_get _ _ _ _ _ H L1) as (s & Es & N1 & C1). assert (s = s1) as -> by congruence.
  destruct (holds_get _ _ _ _ _ H L2) as (s & Es2 & N2 & C2). assert (s = s2) as -> by congruence.
  destruct (c_string_ok _ _ C1) as [_ H1]. destruct (c_string_ok _ _ C2) as [_ H2].
  unfold swap_rows. rewrite L1. cbn [mbind option_bind]. destruct (strcpy_to_ok tmp l1 s1 C1 ltac:(lia)) as (tmp' & -> & Ct & Nt). cbn [mbind option_bind].
  rewrite L2. cbn [mbind option_bind]. destruct (strcpy_to_ok l1 l2 s2 C2 ltac:(lia)) as (l1' & -> & Cl1 & Nl1). cbn [mbind option_bind].
  pose proof (holds_set n linhas ss r1 l1' s2 H ltac:(lia) Cl1) as Hs.
  destruct (zget_is_Some (zset linhas r1 l1') r2) as [l2' L2']; [rewrite length_zset; lia|]. rewrite L2'. cbn [mbind option_bind].
  destruct (holds_get _ _ _ _ _ Hs L2') as (s & _ & N2' & _).
  destruct (strcpy_to_ok l2' tmp' s1 Ct ltac:(lia)) as (l2'' & -> & C2'' & N2''). cbn [mbind option_bind].
  eexists _, _. split_and!; [done|lia|]. apply holds_set; [done|lia|done].
Qed.

(** The exchanges only reorder the strings. *)
Lemma permute_rows_permutation n k tmp linhas ss r : holds n linhas ss -> length tmp = n -> length ss = 100%nat ->
  exists linhas' ss' r', permute_rows k tmp linhas r = Some (linhas', r') /\ holds n linhas' ss' /\ ss' ≡ₚ ss.
Proof.
  revert tmp linhas ss r. induction k as [|k IH]; intros tmp linhas ss r H Ht Hl; cbn [permute_rows]; [by eexists _, _, _|].
  set (r1 := do_rand r). set (r2 := do_rand r1). pose proof (Z.mod_pos_bound r1 100 ltac:(lia)). pose proof (Z.mod_pos_bound r2 100 ltac:(lia)).
  destruct (zget_is_Some ss (r1 mod 100)) as [x Ex]; [lia|]. destruct (zget_is_Some ss (r2 mod 100)) as [y Ey]; [lia|].
  destruct (swap_rows_ok n tmp linhas ss _ _ x y H Ht Ex Ey) as (tmp' & linhas' & -> & Ht' & H'). cbn [mbind option_bind].
  assert (Hp : zset (zset ss (r1 mod 100) y) (r2 mod 100) x ≡ₚ ss).
  { unfold zget, zset in *. rewrite !(proj2 (Z.leb_le _ _)) in * by lia. by apply insert_swap. }
  destruct (IH tmp' linhas' _ r2 H' Ht' ltac:(by rewrite !length_zset)) as (l' & ss' & r' & E & Hh & Hp'). exists l', ss', r'. split_and!; [exact E|exact Hh|]. by rewrite Hp'.
Qed.
