(* ===== verification/UserRuns.v ===== *)
(** * What the small user programs do

    [cat], [wc] and [grep] on any kernel that reads files as [FileKernel] says, whatever the
    sizes of the pieces [read] returns; [init] on any kernel at all. *)

From Stdlib Require Import ZArith Lia.
From stdpp Require Import base list strings numbers.
From ITree Require Import ITree.
From Paco Require Import paco.
From S2P Require Import Prelude Kernel Sysfile UPrintf Digits Fs Ulib Sh Grep UserProgs Sys UserMain.

(** ** The interface

    What a program that reads files relies on: [fk_file] is the contents of a path,
    [fk_input] what an open descriptor has still to deliver, [fk_out] what has been written
    to descriptor 1. *)
Class FileKernel {K : Type} (kernel : forall X, sysE X -> K -> X * K) := {
  fk_file : K -> list Z -> option (list Z);
  fk_input : K -> Z -> option (list Z);
  fk_out : K -> list Z;
  fk_open path s :
    let '(fd, s') := kernel Z (Sopen path O_RDONLY) s in
    fk_file s' = fk_file s /\ fk_out s' = fk_out s /\
    match fk_file s path with
    | Some bs => 0 <= fd /\ fk_input s' fd = Some bs
    | None => fd = -1
    end;
  fk_read fd n l s : fk_input s fd = Some l -> 0 < n ->
    let '((r, bs), s') := kernel (Z * list Z)%type (Sread fd n) s in
    fk_file s' = fk_file s /\ fk_out s' = fk_out s /\
    r = Z.of_nat (length bs) /\ r <= n /\ (bs = [] -> l = []) /\
    exists l', l = bs ++ l' /\ fk_input s' fd = Some l';
  fk_write fd bs s :
    let '(r, s') := kernel Z (Swrite fd bs) s in
    fk_file s' = fk_file s /\ fk_input s' = fk_input s /\
    r = Z.of_nat (length bs) /\ fk_out s' = fk_out s ++ (if fd =? 1 then bs else []);
  fk_close fd s : let '(_, s') := kernel Z (Sclose fd) s in fk_file s' = fk_file s /\ fk_out s' = fk_out s
}.

Section Files.
Context {K : Type} (kernel : forall X, sysE X -> K -> X * K) `{HK : !FileKernel kernel}.
Abbreviation ew := (ends_with kernel).

(** [s'] is [s] after [out] has been written. *)
Definition wrote_out (s : K) (out : list Z) (s' : K) : Prop := fk_file s' = fk_file s /\ fk_out s' = fk_out s ++ out.

Lemma wrote_nil s : wrote_out s [] s.
Proof using Type. split; [done|by rewrite app_nil_r]. Qed.

Lemma wrote_app s1 s2 s3 a b : wrote_out s1 a s2 -> wrote_out s2 b s3 -> wrote_out s1 (a ++ b) s3.
Proof using Type. intros [F1 O1] [F2 O2]. split; [congruence|]. by rewrite O2, O1, app_assoc. Qed.

Lemma ew_write fd bs s (Q : fin Z -> K -> Prop) :
  (forall s', wrote_out s (if fd =? 1 then bs else []) s' -> fk_input s' = fk_input s -> Q (Returned (Z.of_nat (length bs))) s') ->
  ew (sys (Swrite fd bs)) s Q.
Proof using Type.
  intros H. apply ew_sys. pose proof (fk_write fd bs s) as L. destruct (kernel Z (Swrite fd bs) s) as [r s'].
  destruct L as (F & I & -> & O). apply H; [by split|done].
Qed.

Lemma ew_putcs fd out s (Q : fin unit -> K -> Prop) :
  (forall s', wrote_out s (if fd =? 1 then out else []) s' -> fk_input s' = fk_input s -> Q (Returned tt) s') ->
  ew (putcs fd out) s Q.
Proof using Type.
  revert s. induction out as [|c out IH]; intros s H; cbn [putcs].
  - apply ew_ret, H; [|done]. destruct (fd =? 1); apply wrote_nil.
  - apply ew_bind, ew_write. intros s1 W1 I1. apply IH. intros s2 W2 I2. apply H; [|congruence].
    pose proof (wrote_app _ _ _ _ _ W1 W2) as W. by destruct (fd =? 1).
Qed.

Lemma ew_fprintf fd fmt ap out s (Q : fin unit -> K -> Prop) : vprintf fmt ap = Some out ->
  (forall s', wrote_out s (if fd =? 1 then out else []) s' -> Q (Returned tt) s') -> ew (fprintf fd fmt ap) s Q.
Proof using Type. intros E H. unfold fprintf. rewrite E. apply ew_putcs. auto. Qed.

Lemma ew_printf fmt ap out s (Q : fin unit -> K -> Prop) : vprintf fmt ap = Some out ->
  (forall s', wrote_out s out s' -> Q (Returned tt) s') -> ew (printf fmt ap) s Q.
Proof using Type. intros E H. unfold printf. by eapply ew_fprintf. Qed.

(** A program that treats each of its files with [fd_body], which writes [f path bytes], and
    complains with [err path] about the first one that cannot be opened. *)
Definition over_files (files : list (list Z * option (list Z))) (f : list Z -> list Z -> list Z) (err : list Z -> list Z) : list Z * Z :=
  foldr (fun '(path, o) acc => match o with Some bs => (f path bs ++ acc.1, acc.2) | None => (err path, 1) end) ([], 0) files.

Definition each_file (body : list Z -> Z -> prog unit) (complain : list Z -> prog unit) (path : list Z) : prog unit :=
  let! fd := sys (Sopen path O_RDONLY) in
  if fd <? 0 then complain path ;! exit 1 else body path fd ;! sys (Sclose fd) ;! Ret tt.

Section Over.
Context (f : list Z -> list Z -> list Z) (err : list Z -> list Z) (body : list Z -> Z -> prog unit) (complain : list Z -> prog unit).
Context (files : list (list Z * option (list Z))).
Hypothesis Hbody : forall path bs fd s, (path, Some bs) ∈ files -> fk_input s fd = Some bs ->
  ew (body path fd) s (fun r s' => r = Returned tt /\ wrote_out s (f path bs) s').
Hypothesis Hcomplain : forall path s, ew (complain path) s (fun r s' => r = Returned tt /\ wrote_out s (err path) s').

Lemma ew_each_file path o s : (path, o) ∈ files -> fk_file s path = o ->
  ew (each_file body complain path) s (fun r s' => match o with
    | Some bs => r = Returned tt /\ wrote_out s (f path bs) s'
    | None => r = Exited 1 /\ wrote_out s (err path) s' end).
Proof using Hbody Hcomplain.
  intros Hin Ho. unfold each_file. apply ew_bind, ew_sys. pose proof (fk_open path s) as L.
  destruct (kernel Z (Sopen path O_RDONLY) s) as [fd s1]. cbn [fst snd]. destruct L as (F & O & L). rewrite Ho in L.
  assert (W : forall out s', wrote_out s1 out s' -> wrote_out s out s') by (intros out s' [F' O']; split; congruence).
  destruct o as [bs|].
  - destruct L as [Hfd Hi]. rewrite (proj2 (Z.ltb_ge _ _)) by done. apply ew_bind. eapply ew_mono; [by apply Hbody|].
    intros r s2 [-> W2]. apply ew_bind, ew_sys. pose proof (fk_close fd s2) as L. destruct (kernel Z (Sclose fd) s2) as [x s3].
    destruct L as [F3 O3]. apply ew_ret. split; [done|]. apply W. destruct W2. split; cbn [snd]; congruence.
  - subst fd. apply ew_bind. eapply ew_mono; [apply Hcomplain|]. intros r s2 [-> W2]. apply ew_exit. auto.
Qed.

Lemma ew_over_files l s : (forall p, p ∈ l -> p ∈ files) -> (forall p, p ∈ l -> fk_file s p.1 = p.2) ->
  ew (for_each l.*1 (each_file body complain) ;! exit 0 : prog void) s
     (fun r s' => r = Exited (over_files l f err).2 /\ wrote_out s (over_files l f err).1 s').
Proof using Hbody Hcomplain.
  intros Hl Hf. apply ew_bind.
  eapply (ew_mono _ _ _ (fun r s' => wrote_out s (over_files l f err).1 s' /\
    r = if (over_files l f err).2 =? 0 then Returned tt else Exited (over_files l f err).2)).
  2: { intros r s' [W ->]. destruct (Z.eqb_spec (over_files l f err).2 0) as [->|]; [by apply ew_exit|done]. }
  revert s Hf. induction l as [|[path o] l IH]; intros s Hf; cbn [fmap list_fmap fst for_each].
  { apply ew_ret. split; [apply wrote_nil|done]. }
  apply ew_bind. eapply ew_mono; [apply (ew_each_file path o); [apply Hl; left|apply (Hf (path, o)); left]|].
  cbn [over_files foldr]. fold (over_files l f err). intros r s1. destruct o as [bs|]; intros [-> W1]; [|done].
  eapply ew_mono; [apply IH|].
  - intros p Hp. apply Hl. by right.
  - intros p Hp. destruct W1 as [-> _]. apply Hf. by right.
  - intros r s2 [W2 ->]. split; [by eapply wrote_app|done].
Qed.
End Over.

(** ** [cat] *)

Lemma ew_cat_fd bs fd s : fk_input s fd = Some bs -> ew (cat_fd fd) s (fun r s' => r = Returned tt /\ wrote_out s bs s').
Proof using Type.
  remember (length bs) as n eqn:En. revert bs s En. induction n as [n IH] using lt_wf_ind. intros bs s En Hi.
  apply ew_iter, ew_bind, ew_sys. pose proof (fk_read fd 512 bs s Hi ltac:(lia)) as L.
  destruct (kernel _ (Sread fd 512) s) as [[r b] s1]. cbn [fst snd].
  destruct L as (F & O & -> & _ & H0 & l' & -> & Hi').
  destruct b as [|c b]; [cbn [length Z.of_nat Z.ltb Z.compare]; apply ew_ret; split; [done|]|].
  { rewrite (H0 eq_refl). split; [done|]. by rewrite O, app_nil_r. }
  rewrite (proj2 (Z.ltb_lt _ _)) by (cbn [length]; lia). apply ew_bind, ew_write. intros s2 W2 I2. rewrite Z.eqb_refl. cbn [negb].
  apply ew_ret. eapply ew_mono; [apply (IH (length l')); [rewrite En, length_app; cbn [length]; lia|done|by rewrite I2]|].
  intros r s3 [-> W3]. split; [done|]. pose proof (wrote_app _ _ _ _ _ W2 W3) as [F3 O3]. split; [congruence|]. rewrite O3, O. done.
Qed.

(** ** [wc] *)

Definition wc_line (name bs : list Z) : list Z :=
  dec (newlines bs) ++ [32] ++ dec (words false bs) ++ [32] ++ dec (Z.of_nat (length bs)) ++ [32] ++ name ++ [10].

#[local] Opaque dec.

Lemma wc_format l w c name :
  vprintf (line "%d %d %d %s") [VInt l; VInt w; VInt c; str name] = Some (dec l ++ [32] ++ dec w ++ [32] ++ dec c ++ [32] ++ name ++ [10]).
Proof using Type.
  unfold vprintf. change (S (length (line "%d %d %d %s"))) with 13%nat.
  eapply vp_dir; [reflexivity|reflexivity|done|intros; apply directive_d|]. eapply vp_lit; [reflexivity|reflexivity|].
  eapply vp_dir; [reflexivity|reflexivity|done|intros; apply directive_d|]. eapply vp_lit; [reflexivity|reflexivity|].
  eapply vp_dir; [reflexivity|reflexivity|done|intros; apply directive_d|]. eapply vp_lit; [reflexivity|reflexivity|].
  eapply vp_dir; [reflexivity|reflexivity|done|reflexivity|]. eapply vp_lit; [reflexivity|reflexivity|]. by apply vp_end.
Qed.

Lemma ew_wc_fd name bs fd s : fk_input s fd = Some bs -> ew (wc_fd fd name) s (fun r s' => r = Returned tt /\ wrote_out s (wc_line name bs) s').
Proof using Type.
  intros Hi. unfold wc_fd. apply ew_bind.
  eapply (ew_mono _ _ _ (fun r s' => r = Returned (foldl wc_byte (Counts 0 0 0 false) bs) /\ wrote_out s [] s')).
  2: { intros r s' [-> W]. rewrite wc_bytes_run. cbn [wc_l wc_w wc_c wc_inword]. rewrite !Z.add_0_l. eapply ew_printf; [apply wc_format|].
    fold (wc_line name bs). intros s2 W2. split; [done|]. exact (wrote_app _ _ _ _ _ W W2). }
  generalize (Counts 0 0 0 false) as acc. revert Hi. remember (length bs) as n eqn:En. revert bs s En. induction n as [n IH] using lt_wf_ind.
  intros bs s En Hi acc. apply ew_iter, ew_bind, ew_sys. pose proof (fk_read fd 512 bs s Hi ltac:(lia)) as L.
  destruct (kernel _ (Sread fd 512) s) as [[r b] s1]. cbn [fst snd]. destruct L as (F & O & -> & _ & H0 & l' & -> & Hi').
  destruct b as [|c b]; [cbn [length Z.of_nat Z.ltb Z.compare]; apply ew_ret; split; [by rewrite (H0 eq_refl)|]|].
  { split; [done|]. by rewrite O, app_nil_r. }
  rewrite (proj2 (Z.ltb_lt _ _)) by (cbn [length]; lia). apply ew_ret.
  eapply ew_mono; [apply (IH (length l')); [rewrite En, length_app; cbn [length]; lia|done|done]|].
  intros r s3 [-> [F3 O3]]. split; [by rewrite foldl_app|]. split; congruence.
Qed.

(** ** [grep] *)

Lemma ew_grep_buf fuel pattern buf s :
  ew (grep_buf fuel pattern buf) s (fun r s' => r = Returned (grep_lines fuel pattern buf).2 /\
    wrote_out s (grep_lines fuel pattern buf).1 s' /\ fk_input s' = fk_input s).
Proof using Type.
  revert buf s. induction fuel as [|fuel IH]; intros buf s; cbn [grep_buf grep_lines].
  { apply ew_ret. split_and!; [done|apply wrote_nil|done]. }
  destruct (split_line buf) as [[p rest]|]; [|apply ew_ret; split_and!; [done|apply wrote_nil|done]].
  specialize (IH rest). destruct (grep_lines fuel pattern rest) as [out more]. cbn [fst snd] in *. apply ew_bind.
  destruct (grep_match pattern p).
  - apply ew_bind, ew_write. intros s1 W1 I1. apply ew_ret. eapply ew_mono; [apply IH|]. intros r s2 (-> & W2 & I2).
    split_and!; [done|exact (wrote_app _ _ _ _ _ W1 W2)|congruence].
  - apply ew_ret, IH.
Qed.

Lemma lines_rest_Forall (P : Z -> Prop) l : Forall P l -> Forall P (lines l).2.
Proof using Type.
  induction l as [|x l IH]; intros Hl; [done|]. apply list.Forall_cons in Hl as [Hx Hl]. cbn [lines]. specialize (IH Hl).
  destruct (lines l) as [[|l1 ls] r]; destruct (x =? NEWLINE); cbn [snd] in *; try done. by constructor.
Qed.

Lemma ew_grep_fd pattern bs fd s : Forall (fun x => x <> 0) bs -> lines_short bs -> fk_input s fd = Some bs ->
  ew (grep_fd pattern fd) s (fun r s' => r = Returned tt /\ wrote_out s (select pattern (lines bs).1) s').
Proof using Type.
  intros Hz Hs Hi. unfold grep_fd. assert (Hn : NEWLINE ∉ @nil Z) by apply not_elem_of_nil.
  change bs with ([] ++ bs) in Hz, Hs. change (select pattern (lines bs).1) with (select pattern (lines ([] ++ bs)).1).
  revert Hn Hz Hs Hi. generalize (@nil Z) as held. remember (length bs) as n eqn:En. revert bs s En.
  induction n as [n IH] using lt_wf_ind. intros bs s En held Hn Hz Hs Hi.
  pose proof (held_short held _ Hn Hs) as Hh. unfold short in Hh. assert (EB : BUFSIZE = 1024%nat) by done.
  apply ew_iter, ew_bind, ew_sys. pose proof (fk_read fd (Z.of_nat (BUFSIZE - length held - 1)) bs s Hi ltac:(lia)) as L.
  destruct (kernel _ (Sread fd _) s) as [[r b] s1]. cbn [fst snd]. destruct L as (F & O & -> & _ & H0 & l' & -> & Hi').
  destruct b as [|c b]; [cbn [length Z.of_nat Z.ltb Z.compare]; apply ew_ret; split; [done|]|].
  { rewrite (H0 eq_refl), app_nil_r. pose proof (lines_held held [] Hn) as E. rewrite app_nil_r in E. rewrite E. cbn [lines fst]. split; [done|]. by rewrite O, app_nil_r. }
  rewrite (proj2 (Z.ltb_lt _ _)) by (cbn [length]; lia). set (got := c :: b) in *. rewrite app_assoc in Hz, Hs.
  apply list.Forall_app in Hz as [Hz1 Hz2]. pose proof (lines_app (held ++ got) l') as El. rewrite <- app_assoc in El.
  apply ew_bind. eapply ew_mono; [apply ew_grep_buf|]. rewrite grep_lines_spec by done. intros r s2 (-> & W2 & I2). cbn [fst snd] in *. apply ew_ret.
  unfold lines_short in Hs. rewrite (lines_app (held ++ got) l') in Hs. cbn [fst snd] in Hs. destruct Hs as [Hs1 Hs2]. apply list.Forall_app in Hs1 as [_ Hs1].
  eapply ew_mono; [apply (IH (length l')); [rewrite En, length_app; unfold got; cbn [length]; lia|done|apply lines_rest| |by split|by rewrite I2]|].
  - apply list.Forall_app. split; [by apply lines_rest_Forall|done].
  - intros r s3 [-> W3]. split; [done|]. rewrite El. cbn [fst]. rewrite select_app.
    pose proof (wrote_app _ _ _ _ _ W2 W3) as [F3 O3]. split; congruence.
Qed.

(** ** The programs *)

(** [argv] for the files, and what the kernel has for them. *)
Definition have (s : K) (files : list (list Z * option (list Z))) : Prop := files <> [] /\ forall p, p ∈ files -> fk_file s p.1 = p.2.

Lemma argc_files (name : list Z) files : files <> [] -> (Z.of_nat (length (name :: (files : list (list Z * option (list Z))).*1)) <=? 1) = false.
Proof using Type. intros H. destruct files; [done|]. apply Z.leb_gt. cbn [fmap list_fmap length]. lia. Qed.

Lemma cat_main_run name files s : have s files ->
  ew (cat_main (name :: files.*1)) s (fun r s' => r = Exited (over_files files (fun _ bs => bs) (fun _ => [])).2 /\
    wrote_out s (over_files files (fun _ bs => bs) (fun _ => [])).1 s').
Proof using Type.
  intros [Hne Hf]. unfold cat_main. rewrite argc_files by done.
  apply (ew_over_files (fun _ bs => bs) (fun _ => []) (fun _ => cat_fd) (fun path => fprintf 2 (line "cat: cannot open %s") [str path]) files);
    [| |done|done].
  - intros path bs fd s1 _ Hi. by apply ew_cat_fd.
  - intros path s1. eapply ew_fprintf; [reflexivity|]. intros s2 W. by split.
Qed.

Lemma wc_main_run name files s : have s files ->
  let err path := bytes "wc: cannot open " ++ path ++ [10] in
  ew (wc_main (name :: files.*1)) s (fun r s' => r = Exited (over_files files wc_line err).2 /\
    wrote_out s (over_files files wc_line err).1 s').
Proof using Type.
  intros [Hne Hf] err. unfold wc_main. rewrite argc_files by done.
  apply (ew_over_files wc_line err (fun path fd => wc_fd fd path) (fun path => printf (line "wc: cannot open %s") [str path]) files);
    [| |done|done].
  - intros path bs fd s1 _ Hi. by apply ew_wc_fd.
  - intros path s1. eapply ew_fprintf; [reflexivity|]. intros s2 W. by split.
Qed.

Lemma grep_main_run name pattern files s : have s files ->
  (forall p bs, (p, Some bs) ∈ files -> Forall (fun x => x <> 0) bs /\ lines_short bs) ->
  let f (_ : list Z) bs := select pattern (lines bs).1 in let err path := bytes "grep: cannot open " ++ path ++ [10] in
  ew (grep_main (name :: pattern :: files.*1)) s (fun r s' => r = Exited (over_files files f err).2 /\
    wrote_out s (over_files files f err).1 s').
Proof using Type.
  intros [Hne Hf] Hb f err. destruct files as [|p0 files0] eqn:E; [done|]. rewrite <- E in *.
  replace (grep_main (name :: pattern :: files.*1)) with
    (for_each files.*1 (each_file (fun _ => grep_fd pattern) (fun path => printf (line "grep: cannot open %s") [str path])) ;! exit 0 : prog void)
    by (rewrite E; reflexivity).
  apply (ew_over_files f err _ _ files); [| |done|done].
  - intros path bs fd s1 Hin Hi. destruct (Hb path bs Hin). by apply ew_grep_fd.
  - intros path s1. eapply ew_fprintf; [reflexivity|]. intros s2 W. by split.
Qed.
End Files.

(** ** [init]

    What [init] may do, as a machine: it sets up the console; with no shell running it starts
    one; while shell [pid] runs it only waits, and returns to starting a shell exactly
    when that shell has been waited for; after an error it reports and exits. *)
Variant phase := Setup | Idle | Child | Watch (pid : Z) | Down.

Definition may_print (ph : phase) : Prop := match ph with Idle | Down => True | _ => False end.

Inductive supervisesF (r : phase -> prog void -> Prop) : phase -> itree' progE void -> Prop :=
| sup_tau ph t : supervisesF r ph (observe t) -> supervisesF r ph (TauF t)
| sup_ready ot : supervisesF r Idle ot -> supervisesF r Setup ot
| sup_open c : (forall fd, r Setup (c fd)) -> supervisesF r Setup (VisF (inl1 (Sopen console O_RDWR)) c)
| sup_mknod c : (forall a, r Setup (c a)) -> supervisesF r Setup (VisF (inl1 (Smknod console CONSOLE 0)) c)
| sup_dup c : (forall a, r Setup (c a)) -> supervisesF r Setup (VisF (inl1 (Sdup 0)) c)
| sup_print ph b c : may_print ph -> (forall a, r ph (c a)) -> supervisesF r ph (VisF (inl1 (Swrite 1 [b])) c)
| sup_fork c : (forall a, r (if a <? 0 then Down else if a =? 0 then Child else Watch a) (c a)) -> supervisesF r Idle (VisF (inl1 Sfork) c)
| sup_exec c : (forall a, r Down (c a)) -> supervisesF r Child (VisF (inl1 (Sexec (bytes "sh") [bytes "sh"])) c)
| sup_wait pid c : (forall a, r (if a =? pid then Idle else if a <? 0 then Down else Watch pid) (c a)) ->
    supervisesF r (Watch pid) (VisF (inl1 Swait) c)
| sup_exit c : supervisesF r Down (VisF (inr1 (Exit 1)) c).

Definition supervises_ (r : phase -> prog void -> Prop) (ph : phase) (t : prog void) : Prop := supervisesF r ph (observe t).

Lemma supervises_mon : monotone2 supervises_.
Proof. intros ph t r r' H LE. unfold supervises_ in *. induction H; by constructor; auto. Qed.
#[local] Hint Resolve supervises_mon : paco.

Definition supervises (ph : phase) (t : prog void) : Prop := paco2 supervises_ bot2 ph t.

Lemma sup_obs r ph (t t' : prog void) : observe t' = observe t -> paco2 supervises_ r ph t -> paco2 supervises_ r ph t'.
Proof. intros E H. apply paco2_unfold in H; [|apply supervises_mon]. apply paco2_fold. unfold supervises_ in *. by rewrite E. Qed.

(** Evaluation contexts: what is around the part of a program that runs next. *)
Definition ctx {A} (C : prog A -> prog void) : Prop := forall t,
  observe (C t) = match observe t with
    | RetF a => observe (C (Ret a))
    | TauF t' => TauF (C t')
    | VisF e c => VisF e (fun x => C (c x))
    end.

Lemma ctx_id : ctx (fun t => t).
Proof. intros t. by destruct (observe t) eqn:E. Qed.

Lemma ctx_bind {A B} (C : prog B -> prog void) (f : A -> prog B) : ctx C -> ctx (fun t => C (ITree.bind t f)).
Proof.
  intros HC t. rewrite HC, observe_bind. destruct (observe t) eqn:E; [|done|done].
  by rewrite (HC (ITree.bind (Ret _) f)), observe_bind.
Qed.

Lemma ctx_sys {A} (C : prog A -> prog void) (e : sysE A) : ctx C -> observe (C (sys e)) = VisF (inl1 e) (fun x => C (Ret x)).
Proof. intros HC. by rewrite HC. Qed.

Lemma ctx_ret {A B} (C : prog B -> prog void) (a : A) (f : A -> prog B) : ctx C -> observe (C (ITree.bind (Ret a) f)) = observe (C (f a)).
Proof. intros HC. by rewrite HC, (HC (f a)), observe_bind. Qed.

Lemma sup_putcs r ph s (C : prog unit -> prog void) : ctx C -> may_print ph ->
  paco2 supervises_ r ph (C (Ret tt)) -> paco2 supervises_ r ph (C (putcs 1 s)).
Proof.
  intros HC Hp Ht. induction s as [|b s IH]; [done|].
  apply paco2_fold. unfold supervises_. cbn [putcs]. rewrite (ctx_bind C (fun _ => putcs 1 s) HC (sys _)). cbn. constructor; [done|]. intros a. left.
  eapply sup_obs; [by apply ctx_ret|done].
Qed.

Lemma sup_printf r ph fmt out (C : prog unit -> prog void) : ctx C -> may_print ph -> vprintf fmt [] = Some out ->
  paco2 supervises_ r ph (C (Ret tt)) -> paco2 supervises_ r ph (C (printf fmt [])).
Proof. intros HC Hp E H. unfold printf, fprintf. rewrite E. by apply sup_putcs. Qed.

(** A report and [exit(1)]. *)
Lemma sup_die {A} r fmt out (C : prog A -> prog void) : ctx C -> vprintf fmt [] = Some out ->
  paco2 supervises_ r Down (C (printf fmt [] ;! exit 1)).
Proof.
  intros HC E. apply (sup_printf _ _ _ out (fun t => C (t ;! exit 1))); [by apply ctx_bind|done|done|].
  apply paco2_fold. unfold supervises_. rewrite ctx_ret by done. rewrite HC. cbn. constructor.
Qed.

(** What follows the body of a loop. *)
Definition next {A B} (body : A -> prog (A + B)) (r : A + B) : prog B :=
  match r with inl j => Tau (ITree.iter body j) | inr b => Ret b end.
Definition init_next : prog (unit + void) -> prog void := fun t => ITree.bind t (next (fun _ => init_body)).
Definition watching (pid : Z) : prog void := init_next (init_wait pid ;! Ret (inl tt)).

Lemma ctx_next : ctx init_next.
Proof. apply (ctx_bind (fun t => t)), ctx_id. Qed.

Lemma ctx_watch pid : ctx (fun t => init_next (ITree.bind (ITree.bind t (next (fun _ => init_wait_body pid))) (fun _ => Ret (inl tt)))).
Proof. apply (ctx_bind (fun t => init_next (ITree.bind t (fun _ => Ret (inl tt))))), ctx_bind, ctx_next. Qed.

(** The states of [init] from the loop on, and up to a silent step. *)
Definition loop_state (ph : phase) (t : prog void) : Prop :=
  match ph with
  | Idle => observe t = observe init_loop
  | Watch pid => observe t = observe (watching pid)
  | _ => False
  end.
Definition at_loop (ph : phase) (t : prog void) : Prop := loop_state ph t \/ exists t', observe t = TauF t' /\ loop_state ph t'.

Lemma sup_skip r ph (t t' : prog void) : observe t = TauF t' -> paco2 supervises_ r ph t' -> paco2 supervises_ r ph t.
Proof.
  intros E H. apply paco2_unfold in H; [|apply supervises_mon]. apply paco2_fold. unfold supervises_ in *. rewrite E. by constructor.
Qed.

(** One turn of each loop, to the next state. *)
Lemma sup_idle (r : phase -> prog void -> Prop) t : (forall ph t, at_loop ph t -> r ph t) -> loop_state Idle t -> paco2 supervises_ r Idle t.
Proof.
  intros Hr Ht. apply (sup_obs _ _ (init_next init_body)); [rewrite Ht; apply observe_iter|]. unfold init_body.
  eapply (sup_printf _ _ _ _ (fun t => init_next (ITree.bind t _))); [apply ctx_bind, ctx_next|done|reflexivity|].
  eapply sup_obs; [apply ctx_ret, ctx_next|]. apply paco2_fold. unfold supervises_.
  rewrite (ctx_bind init_next _ ctx_next (sys _)). cbn -[init_wait]. constructor. intros pid.
  destruct (pid <? 0) eqn:E0; [|destruct (pid =? 0) eqn:E1]; [left..|right].
  - eapply sup_obs; [apply ctx_ret, ctx_next|]. cbn beta. rewrite E0. by eapply sup_die; [apply ctx_next|].
  - eapply sup_obs; [apply ctx_ret, ctx_next|]. cbn beta. rewrite E0, E1. apply paco2_fold. unfold supervises_.
    rewrite (ctx_bind init_next _ ctx_next (sys _)). cbn. constructor. intros a. left.
    eapply sup_obs; [apply ctx_ret, ctx_next|]. by eapply sup_die; [apply ctx_next|].
  - apply Hr. left. cbn [loop_state]. rewrite (ctx_ret init_next pid _ ctx_next). cbn beta. by rewrite E0, E1.
Qed.

Lemma sup_watch (r : phase -> prog void -> Prop) pid t : (forall ph t, at_loop ph t -> r ph t) -> loop_state (Watch pid) t -> paco2 supervises_ r (Watch pid) t.
Proof.
  intros Hr Ht. set (C t := init_next (ITree.bind (ITree.bind t (next (fun _ => init_wait_body pid))) (fun _ => Ret (inl tt)))).
  assert (HC : ctx C) by apply ctx_watch. apply (sup_obs _ _ (C (init_wait_body pid))).
  { rewrite Ht. unfold watching, C. rewrite !(ctx_bind init_next (fun _ => Ret (inl tt)) ctx_next). unfold init_wait. by rewrite observe_iter. }
  apply paco2_fold. unfold supervises_, init_wait_body. rewrite (ctx_bind C _ HC (sys _)). cbn -[C]. constructor. intros a.
  assert (EC : forall r0 : unit + unit, observe (C (Ret r0)) = TauF (match r0 with inl _ => watching pid | inr _ => init_loop end)).
  { intros [[]|[]]; unfold C; rewrite (ctx_bind init_next (fun _ => Ret (inl tt)) ctx_next), observe_bind; cbn; [done|].
    reflexivity. }
  destruct (a =? pid) eqn:E0; [|destruct (a <? 0) eqn:E1]; [right|left|right].
  - apply Hr. right. exists init_loop. split; [|done]. rewrite (ctx_ret C a _ HC). cbn beta. by rewrite E0, EC.
  - eapply sup_obs; [by apply ctx_ret|]. cbn beta. rewrite E0, E1. by eapply sup_die.
  - apply Hr. right. exists (watching pid). split; [|done]. rewrite (ctx_ret C a _ HC). cbn beta. by rewrite E0, E1, EC.
Qed.

Lemma sup_loops ph t : at_loop ph t -> supervises ph t.
Proof.
  revert ph t. pcofix CIH. intros ph t H.
  assert (Hs : forall t, loop_state ph t -> paco2 supervises_ r ph t).
  { clear t H. intros t H. destruct ph as [| | |pid|]; try done; [by apply sup_idle|by apply sup_watch]. }
  destruct H as [H|(t' & E & H)]; [by apply Hs|]. eapply sup_skip; [exact E|by apply Hs].
Qed.

(** A call of the set-up, around which [C] is still to run. *)
Lemma sup_setup (C : prog Z -> prog void) (e : sysE Z) : ctx C ->
  (forall (r : phase -> prog void -> Prop) c, (forall a, r Setup (c a)) -> supervisesF r Setup (VisF (inl1 e) c)) ->
  (forall a, supervises Setup (C (Ret a))) -> supervises Setup (C (sys e)).
Proof. intros HC He H. apply paco2_fold. unfold supervises_. rewrite ctx_sys by done. apply He. intros a. left. apply H. Qed.

Lemma sup_dups : supervises Setup (sys (Sdup 0) ;! sys (Sdup 0) ;! init_loop).
Proof.
  pose proof (sup_loops Idle init_loop ltac:(by left)) as H. apply paco2_unfold in H; [|apply supervises_mon].
  apply (sup_setup (fun t => ITree.bind t _)); [apply (ctx_bind (fun t => t)), ctx_id|by constructor|intros a1].
  eapply sup_obs; [apply (ctx_ret (fun t => t)), ctx_id|].
  apply (sup_setup (fun t => ITree.bind t _)); [apply (ctx_bind (fun t => t)), ctx_id|by constructor|intros a2].
  eapply sup_obs; [apply (ctx_ret (fun t => t)), ctx_id|]. apply paco2_fold. by constructor.
Qed.


(** ** A kernel to run on

    A fixed set of files, from which [read] returns at most three bytes at a time. *)
Record ukern := Ukern { uk_files : list (list Z * list Z); uk_next : nat; uk_in : Z -> option (list Z); uk_out : list Z }.

Definition uk_file (s : ukern) (path : list Z) : option (list Z) := (fun x => x.2.2) <$> list_find (fun f => f.1 = path) (uk_files s).

Definition small_kernel (X : Type) (e : sysE X) (s : ukern) : X * ukern :=
  match e in sysE X return X * ukern with
  | Sopen path _ =>
    match uk_file s path with
    | Some bs => (Z.of_nat (uk_next s), Ukern (uk_files s) (S (uk_next s)) (fun fd => if fd =? Z.of_nat (uk_next s) then Some bs else uk_in s fd) (uk_out s))
    | None => (-1, s)
    end
  | Sread fd n =>
    match uk_in s fd with
    | Some l =>
      let k := Z.to_nat (Z.min 3 n) in
      ((Z.of_nat (length (take k l)), take k l), Ukern (uk_files s) (uk_next s) (fun fd' => if fd' =? fd then Some (drop k l) else uk_in s fd') (uk_out s))
    | None => ((-1, []), s)
    end
  | Swrite fd bs => (Z.of_nat (length bs), Ukern (uk_files s) (uk_next s) (uk_in s) (uk_out s ++ if fd =? 1 then bs else []))
  | Spipe => (None, s)
  | Sfstat _ => (None, s)
  | Sfork | Swait | Sclose _ | Skill _ | Sexec _ _ | Smknod _ _ _ | Sunlink _ | Slink _ _ | Smkdir _ | Schdir _ | Sdup _ | Sgetpid | Ssbrk _
  | Ssleep _ | Suptime | Suptime_nolock | Sset_type _ _ | Sinitialize_metrics | Sincrement_metric _ _ _ | Sget_eficiencia _ | Sget_overhead _
  | Sset_justica _ _ | Sget_justica _ | Stempo_total _ => (0, s)
  | Lmalloc _ _ => ((0, []), s)
  | Lfree _ => (tt, s)
  | Swaits => ((0, 0), s)
  | Pwrite _ _ _ | Pread _ _ _ | Ppipe _ | Popen _ _ | Punlink _ | Plink _ _ | Pexec _ _ => (-1, s)
  | Mload _ _ => (None, s)
  | Mstore _ _ _ => (false, s)
  end.

#[export, program] Instance small_file_kernel : FileKernel small_kernel := {| fk_file := uk_file; fk_input := uk_in; fk_out := uk_out |}.
Next Obligation.
  intros path s. cbn. destruct (uk_file s path) as [bs|] eqn:E; [|by split_and!]. split_and!; [done|done|lia|]. cbn. by rewrite Z.eqb_refl.
Qed.
Next Obligation.
  intros fd n l s Hi Hn. cbn in *. rewrite Hi. cbn. set (k := Z.to_nat (Z.min 3 n)).
  split_and!; [done|done|done|rewrite length_take; lia| |].
  - intros E. destruct l; [done|]. destruct k eqn:Ek; [lia|]. done.
  - exists (drop k l). split; [by rewrite take_drop|]. by rewrite Z.eqb_refl.
Qed.
Next Obligation. done. Qed.
Next Obligation. done. Qed.

(** [wc] prints the right counts of its files.  On any kernel that reads files, in
    whatever pieces, the program ends; for each file in order it has written the newlines, words
    and bytes of the whole file, in decimal, and its name; at the first file that cannot be
    opened it says so and exits with 1, otherwise it exits with 0. *)
Theorem wc_main_correct {K} (kernel : forall X, sysE X -> K -> X * K) `{HK : !FileKernel kernel} name files s
    (Hf : have kernel s files) :
  let r := over_files files wc_line (fun path => bytes "wc: cannot open " ++ path ++ [10]) in
  exists s', runs kernel (observe (wc_main (name :: files.*1))) s (Exited r.2) s' /\ fk_out s' = fk_out s ++ r.1.
Proof. intros r. destruct (wc_main_run kernel name files s Hf) as (e & s' & Hr & -> & _ & Ho). by exists s'. Qed.


Definition demo_text : list Z := line "a word" ++ line "b" ++ line "and two".
Definition demo_ukern : ukern := Ukern [(bytes "f", demo_text)] 3 (fun _ => None) [].
Definition demo_files : list (list Z * option (list Z)) := [(bytes "f", Some demo_text); (bytes "g", None)].

Lemma demo_have : have small_kernel demo_ukern demo_files.
Proof. split; [done|]. intros p Hp. repeat (apply elem_of_cons in Hp as [->|Hp]; [vm_compute; reflexivity|]). by apply not_elem_of_nil in Hp. Qed.

Lemma wc_main_correct_witness :
  exists s', runs small_kernel (observe (wc_main [bytes "wc"; bytes "f"; bytes "g"])) demo_ukern (Exited 1) s' /\
    uk_out s' = bytes "3 5 17 f" ++ [10] ++ bytes "wc: cannot open g" ++ [10].
Proof. exact (wc_main_correct small_kernel (bytes "wc") demo_files demo_ukern demo_have). Defined.

