(* ===== verification/ExpMain.v ===== *)
(** * The programs of the experiment

    The main functions of user/run_experiment.c, user/graphs.c and user/rows.c as trees of
    system calls (Sys.v), around the computations of Experiment.v, Graphs.v and Rows.v.  An
    array is the list of its elements, empty for a null pointer; an access out of its range
    is undefined behaviour.  Times are [int]s, and sums of them wrap as the compiled code
    does. *)

From Stdlib Require Import ZArith Lia.
From stdpp Require Import base list strings numbers.
From ITree Require Import ITree.
From S2P Require Import Prelude Kernel Proc Sysfile Sysproc UPrintf Sh Sys UserMain Experiment Graphs Rows.

(** [t0 = uptime_nolock(); r = f; t1 = uptime_nolock(); total += t1 - t0]. *)
Definition timed {A} (total : Z) (f : prog A) : prog (A * Z) :=
  let! t0 := sys Suptime_nolock in
  let! r := f in
  let! t1 := sys Suptime_nolock in
  Ret (r, i32 (total + i32 (t1 - t0))).

(** ** user/run_experiment.c *)

Section Run.
(** What follows the two elements of [args] in memory: the array has no null pointer at its
    end. *)
Context (after_args : list (list Z)).

(** One turn of the loop that starts the processes.  A child whose [exec] fails with -1 ends. *)
Definition start_one (x j : Z) : prog unit :=
  let index := index_str (j - 1) in
  if j <=? x then
    let! pid := sys Sfork in
    if pid =? 0 then
      let! ret := sys (Sexec (bytes "graphs") (bytes "graphs" :: index :: after_args)) in
      if ret =? -1 then printf (line "erro ao executar graphs.c") [] ;! exit 1 else Ret tt
    else sys (Sset_type CPU_BOUND pid) ;! Ret tt
  else
    let! pid := sys Sfork in
    if pid =? 0 then
      let! ret := sys (Sexec (bytes "rows") (bytes "rows" :: index :: after_args)) in
      if ret =? -1 then printf (line "erro ao executar rows.c") [] ;! exit 1 else Ret tt
    else sys (Sset_type IO_BOUND pid) ;! Ret tt.

(** The loop that waits, from turn [j] with [k] to go. *)
Fixpoint wait_all (k : nat) (t0_rodada j : Z) (terminos : list Z) : prog (list Z) :=
  match k with
  | O => Ret terminos
  | S k' =>
    let! proc := sys Swait in
    let! terminos :=
      (if proc =? -1 then printf (bytes "pocesso falhou") [] ;! Ret terminos
       else
         let! tempo_atual := sys Suptime_nolock in
         store terminos j (i32 (tempo_atual - t0_rodada))) in
    wait_all k' t0_rodada (j + 1) terminos
  end.

(** The metrics that are not negative, stored from [l] on. *)
Fixpoint read_eficiencias (ks : list Z) (l : Z) (eficiencias : list Z) : prog (list Z) :=
  match ks with
  | [] => Ret eficiencias
  | k :: ks' =>
    let! e := sys (Sget_eficiencia k) in
    if 0 <=? e then
      let! eficiencias := store eficiencias l e in
      read_eficiencias ks' (l + 1) eficiencias
    else read_eficiencias ks' l eficiencias
  end.

(** [a[k] = get(k)] *)
Fixpoint read_metric (get : Z -> sysE Z) (ks : list Z) (a : list Z) : prog (list Z) :=
  match ks with
  | [] => Ret a
  | k :: ks' =>
    let! v := sys (get k) in
    let! a := store a k v in
    read_metric get ks' a
  end.

(** The first [n] elements, summed and inverted. *)
Definition inverso (n : Z) (a : list Z) : option Z :=
  if Z.of_nat (length a) <? n then None else overhead_fim (take (Z.to_nat n) a).

(** The computations of a round once its processes have ended. *)
Definition medir_vazao (terminos_p : Z) (terminos : list Z) : prog Z :=
  let! '(vazoes_p, vazoes) := sys (Lmalloc 300 4) in
  let! vazao := defined (if Z.of_nat (length vazoes) <? 300 then None else vazao_norm (take 20 terminos)) in
  printf (line "vazao normalizada: %de-05") [VInt vazao] ;!
  sys (Lfree terminos_p) ;!
  sys (Lfree vazoes_p) ;!
  Ret vazao.

Definition medir_eficiencia (y : Z) : prog Z :=
  let! '(p, eficiencias) := sys (Lmalloc y 4) in
  let! eficiencias := read_eficiencias (seqZ 0 20) 0 eficiencias in
  let! eficiencia := defined (inverso y eficiencias) in
  printf (line "eficiencia: %de-05") [VInt eficiencia] ;!
  sys (Lfree p) ;!
  Ret eficiencia.

Definition medir_overhead : prog Z :=
  let! '(p, overheads) := sys (Lmalloc 20 4) in
  let! overheads := read_metric Sget_overhead (seqZ 0 20) overheads in
  let! overhead := defined (inverso 20 overheads) in
  printf (line "overhead: %de-05") [VInt overhead] ;!
  sys (Lfree p) ;!
  Ret overhead.

Definition medir_justica : prog Z :=
  let! '(p, justicas) := sys (Lmalloc 20 4) in
  let! justicas := read_metric Sget_justica (seqZ 0 20) justicas in
  let! justica := defined (justica_fim (take 20 justicas)) in
  printf (line "justica : %de-05") [VInt justica] ;!
  sys (Lfree p) ;!
  Ret justica.

(** The lines printed for round [i]. *)
Definition medir (i y terminos_p : Z) (terminos : list Z) : prog unit :=
  printf (line "RODADA %d ======================") [VInt i] ;!
  let! vazao := medir_vazao terminos_p terminos in
  let! eficiencia := medir_eficiencia y in
  let! overhead := medir_overhead in
  let! justica := medir_justica in
  printf (line "desempenho: %de-05") [VInt (desempenho overhead eficiencia vazao justica)].

(** Round [i], from the random number before it; the result is the last one drawn. *)
Definition rodada_main (i rand_next : Z) : prog Z :=
  sys Sinitialize_metrics ;!
  let! t0_rodada := sys Suptime_nolock in
  let rand_next := do_rand rand_next in
  let x := cpu_count rand_next in
  let y := 20 - x in
  for_each (seqZ 1 20) (start_one x) ;!
  let! '(terminos_p, terminos) := sys (Lmalloc 20 4) in
  let! terminos := wait_all 20 t0_rodada 0 terminos in
  medir i y terminos_p terminos ;!
  Ret rand_next.

Fixpoint rodadas (k : nat) (i rand_next : Z) : prog Z :=
  match k with
  | O => Ret rand_next
  | S k' => let! rand_next := rodada_main i rand_next in rodadas k' (i + 1) rand_next
  end.

Definition run_experiment_main : prog Z :=
  let! t0_total := sys Suptime_nolock in
  rodadas 30 1 7 ;!
  let! t_final := sys Suptime_nolock in
  printf (line "Tempo total usado para as 30 rodadas: %d") [VInt (i32 (t_final - t0_total))] ;!
  Ret 0.
End Run.

(** [index] of the process, from [argv[1]]. *)
Definition index_arg (argv : list (list Z)) : prog Z := defined (a ← zget argv 1; index_of (a ++ [0])).

(** The end of graphs.c and rows.c. *)
Definition report (index eficiencia overhead : Z) : prog Z :=
  sys (Sincrement_metric index eficiencia MODE_EFICIENCIA) ;!
  sys (Sincrement_metric index overhead MODE_OVERHEAD) ;!
  let! pid := sys Sgetpid in
  sys (Sset_justica index pid) ;!
  Ret 0.

(** ** user/graphs.c *)

(** [generate_random_edge], as a loop without a bound. *)
Definition random_edge (matrix : list (list Z)) (num_vertices rand_next : Z) : prog (Z * Z * Z) :=
  ITree.iter (fun rand_next =>
    let '(vert1, rand_next) := rand_mod rand_next num_vertices in
    let '(vert2, rand_next) := rand_mod rand_next num_vertices in
    if vert1 =? vert2 then Ret (inl rand_next)
    else
      let! a := defined (mget matrix vert1 vert2) in
      if a =? 0 then Ret (inr (vert1, vert2, rand_next)) else Ret (inl rand_next)) rand_next.

Fixpoint edges (num_edges : nat) (matrix : list (list Z)) (num_vertices rand_next : Z) : prog (list (list Z) * Z) :=
  match num_edges with
  | O => Ret (matrix, rand_next)
  | S num_edges' =>
    let! '(u, v, rand_next) := random_edge matrix num_vertices rand_next in
    let! matrix := defined (mset matrix u v 1) in
    edges num_edges' matrix num_vertices rand_next
  end.

Definition pair_of_vertices (num_vertices rand_next : Z) : prog (Z * Z * Z) :=
  ITree.iter (fun rand_next =>
    let '(u, rand_next) := rand_mod rand_next num_vertices in
    let '(v, rand_next) := rand_mod rand_next num_vertices in
    if u =? v then Ret (inl rand_next) else Ret (inr (u, v, rand_next))) rand_next.

(** The rows of the matrix from [j] on: their addresses, and the zeroes they hold. *)
Fixpoint alloc_rows (k : nat) (num_vertices j total : Z) (ptrs : list Z) (matrix : list (list Z)) : prog (list Z * list (list Z) * Z) :=
  match k with
  | O => Ret (ptrs, matrix, total)
  | S k' =>
    let! '((ptrs, row), total) := timed total (
      let! '(p, row) := sys (Lmalloc num_vertices 4) in
      let! ptrs := store ptrs j p in
      Ret (ptrs, row)) in
    let! row := defined (if Z.of_nat (length row) <? num_vertices then None else Some (replicate (Z.to_nat num_vertices) 0)) in
    alloc_rows k' num_vertices (j + 1) total ptrs (matrix ++ [row])
  end.

Fixpoint free_all (ptrs : list Z) (total : Z) : prog Z :=
  match ptrs with
  | [] => Ret total
  | p :: ptrs' => let! '(_, total) := timed total (sys (Lfree p)) in free_all ptrs' total
  end.

(** One turn of the outer loop. *)
Definition graphs_iter (rand_next total : Z) : prog (Z * Z) :=
  let '(nv, rand_next) := rand_mod rand_next 101 in
  let num_vertices := nv + 100 in
  let '(ne, rand_next) := rand_mod rand_next 351 in
  let num_edges := ne + 50 in
  let! '((matrix_p, ptrs), total) := timed total (sys (Lmalloc num_vertices 8)) in
  let! '(ptrs, matrix, total) := alloc_rows (Z.to_nat num_vertices) num_vertices 0 total ptrs [] in
  let! '(matrix, rand_next) := edges (Z.to_nat num_edges) matrix num_vertices rand_next in
  let! '(u, v, rand_next) := pair_of_vertices num_vertices rand_next in
  let! '((fila_p, f0), total) := timed total (sys (Lmalloc (2 * MAX_VERT) 4)) in
  let! _ := store f0 0 u in
  let! _ := defined (menor_caminho matrix num_vertices u f0) in
  let! '(_, total) := timed total (sys (Lfree fila_p)) in
  let! total := free_all (take (Z.to_nat num_vertices) ptrs) total in
  let! '(_, total) := timed total (sys (Lfree matrix_p)) in
  Ret (rand_next, total).

Fixpoint graphs_loop (k : nat) (rand_next total : Z) : prog Z :=
  match k with
  | O => Ret total
  | S k' => let! '(rand_next, total) := graphs_iter rand_next total in graphs_loop k' rand_next total
  end.

Definition graphs_main (argv : list (list Z)) : prog Z :=
  let! pid := sys Sgetpid in
  sys (Sset_type CPU_BOUND pid) ;!
  let! index := index_arg argv in
  let! tempo_overhead := graphs_loop (Z.to_nat max_iter) 7 0 in
  report index (-1) tempo_overhead.

(** ** user/rows.c *)

Definition caracteres : list Z := bytes "abcdefghijklmnopqrstuvwxyzABCDEFGHIJKLMNOPQRSTUVWXYZ0123456789!@#$&*()".

Section Rows.
(** What the arrays [pid_str] and [buf] hold at first, and the memory behind [buf], where
    [strcpy] goes on when [buf] has no NUL. *)
Context (junk buf0 past : list Z).

(** The loop that writes the random lines: the sum of the times and the last random number. *)
Fixpoint write_lines (k : nat) (fd rand_next total : Z) : prog (Z * Z) :=
  match k with
  | O => Ret (rand_next, total)
  | S k' =>
    let! '(linha, rand_next) := defined (random_line 100 caracteres rand_next) in
    let! t0 := sys Suptime_nolock in
    let! n := sys (Swrite fd linha) in
    if negb (n =? 101) then printf (line "error, write failed") [] ;! exit 1
    else
      let! t1 := sys Suptime_nolock in
      write_lines k' fd rand_next (i32 (total + i32 (t1 - t0)))
  end.

Fixpoint alloc_lines (k : nat) (total : Z) : prog (list (Z * list Z) * Z) :=
  match k with
  | O => Ret ([], total)
  | S k' =>
    let! '(l, total) := timed total (sys (Lmalloc 102 1)) in
    let! '(ls, total) := alloc_lines k' total in
    Ret (l :: ls, total)
  end.

(** The loop over [read]; its state is [buf], [i], [linhas], [t0] and the total. *)
Definition read_line (fd : Z) (st : list Z * Z * list (list Z) * Z * Z) :
    prog ((list Z * Z * list (list Z) * Z * Z) + (list (list Z) * Z)) :=
  let '(buf, i, linhas, t0, total) := st in
  let! '(n, got) := sys (Sread fd 101) in
  if 0 <? n then
    let buf := got ++ drop (length got) buf in
    let! t1 := sys Suptime_nolock in
    let total := i32 (total + i32 (t1 - t0)) in
    let! linha := defined (l ← zget linhas i; strcpy_to l (buf ++ past)) in
    let! t0 := sys Suptime_nolock in
    Ret (inl (buf, i + 1, zset linhas i linha, t0, total))
  else Ret (inr (linhas, total)).
Definition read_lines (fd : Z) (linhas : list (list Z)) (total : Z) : prog (list (list Z) * Z) :=
  let! t0 := sys Suptime_nolock in
  ITree.iter (read_line fd) (buf0, 0, linhas, t0, total).

Fixpoint rewrite_lines (linhas : list (list Z)) (fd total : Z) : prog Z :=
  match linhas with
  | [] => Ret total
  | linha :: linhas' =>
    let! t0 := sys Suptime_nolock in
    let! bytes := defined (if (length linha <? 101)%nat then None else Some (take 101 linha)) in
    let! n := sys (Swrite fd bytes) in
    if negb (n =? 101) then printf (line "error, write permut failed") [] ;! exit 1
    else
      let! t1 := sys Suptime_nolock in
      rewrite_lines linhas' fd (i32 (total + i32 (t1 - t0)))
  end.

(** The end: the file is removed, the rows are freed and the times reported. *)
Definition rows_remove (index : Z) (filename : list Z) (ptrs : list Z) (eficiencia overhead : Z) : prog Z :=
  let! t0 := sys Suptime_nolock in
  let! r := sys (Sunlink filename) in
  if r <? 0 then printf (line "Erro ao remover o arquivo") [] ;! exit 1
  else
    let! t1 := sys Suptime_nolock in
    let eficiencia := i32 (eficiencia + i32 (t1 - t0)) in
    let! overhead := free_all ptrs overhead in
    report index eficiencia overhead.

(** From the exchange of the rows on. *)
Definition rows_exchange (index : Z) (filename : list Z) (ptrs : list Z) (rows : list (list Z)) (rand_next eficiencia overhead : Z) : prog Z :=
  let! '((tmp_p, tmp), overhead) := timed overhead (sys (Lmalloc 102 1)) in
  let! '(rows, rand_next) := defined (permute_rows 50 tmp rows rand_next) in
  let! '(_, overhead) := timed overhead (sys (Lfree tmp_p)) in
  let! '(fd, overhead) := timed overhead (sys (Sopen filename O_RDWR)) in
  if fd <? 0 then printf (line "Erro ao reabrir o arquivo %s para escrever as permutações") [str filename] ;! exit 1
  else
    let! eficiencia := rewrite_lines rows fd eficiencia in
    sys (Sclose fd) ;!
    rows_remove index filename ptrs eficiencia overhead.

(** From the second opening of the file on. *)
Definition rows_read (index : Z) (filename : list Z) (rand_next eficiencia overhead : Z) : prog Z :=
  let! '(linhas, overhead) := alloc_lines 100 overhead in
  let! '(fd, overhead) := timed overhead (sys (Sopen filename O_RDONLY)) in
  if fd <? 0 then printf (line "Erro ao abrir o arquivo %s") [str filename] ;! exit 1
  else
    let! '(rows, eficiencia) := read_lines fd linhas.*2 eficiencia in
    sys (Sclose fd) ;!
    rows_exchange index filename linhas.*1 rows rand_next eficiencia overhead.

Definition rows_main (argv : list (list Z)) : prog Z :=
  let! pid := sys Sgetpid in
  sys (Sset_type IO_BOUND pid) ;!
  let! index := index_arg argv in
  let! pid := sys Sgetpid in
  let! filename := defined (row_filename junk pid) in
  let filename := cstr filename in
  let! '(fd, overhead) := timed 0 (sys (Sopen filename (Z.lor O_CREATE O_RDWR))) in
  (if fd <? 0 then printf (line "erro ao criar o arquivo %s") [str filename] else Ret tt) ;!
  let! '(rand_next, eficiencia) := write_lines 100 fd 13 0 in
  sys (Sclose fd) ;!
  rows_read index filename rand_next eficiencia overhead.
End Rows.
