(* ===== verification/ExpRuns.v ===== *)
(** * What the programs of the experiment do

    user/rows.c on any kernel that stores files as [RowsKernel] says: it writes a hundred
    random lines, reads them back, exchanges them, writes them again and removes the file, and
    the times it reports are disjoint parts of its running time. *)

From Stdlib Require Import ZArith Lia.
From stdpp Require Import base list strings numbers.
From ITree Require Import ITree.
From S2P Require Import Prelude Kernel Proc Sysfile Sysproc UPrintf Sh Sys UserMain Experiment Graphs Rows ExpMain.

(** ** Kernels *)

(** Calls that leave files and descriptors alone. *)
Definition calm {X} (e : sysE X) : bool :=
  match e with
  | Suptime_nolock | Lmalloc _ _ | Lfree _ | Sgetpid | Sset_type _ _ | Sset_justica _ _ => true
  | _ => false
  end.

(** What a process sees of the kernel: the files, its open descriptors with their offsets, the
    writes and the metrics so far, its process identifier. *)
Record uview := UView {
  v_file : list Z -> option (list Z);
  v_fd : Z -> option (list Z * nat);
  v_writes : list (list Z * list Z);
  v_metrics : list (Z * Z * Z);
  v_pid : Z
}.
Definition pupd {A B} `{!EqDecision A} (f : A -> B) (a : A) (b : B) : A -> B := fun x => if decide (x = a) then b else f x.
Definition v_opened (fd : Z) (path : list Z) (v : uview) : uview :=
  UView (pupd (v_file v) path (Some (default [] (v_file v path)))) (pupd (v_fd v) fd (Some (path, 0%nat))) (v_writes v) (v_metrics v) (v_pid v).
Definition v_moved (fd : Z) (path : list Z) (off : nat) (v : uview) : uview :=
  UView (v_file v) (pupd (v_fd v) fd (Some (path, off))) (v_writes v) (v_metrics v) (v_pid v).
Definition v_written (path : list Z) (f bs : list Z) (v : uview) : uview :=
  UView (pupd (v_file v) path (Some f)) (v_fd v) (v_writes v ++ [(path, bs)]) (v_metrics v) (v_pid v).
Definition v_closed (fd : Z) (v : uview) : uview := UView (v_file v) (pupd (v_fd v) fd None) (v_writes v) (v_metrics v) (v_pid v).
Definition v_unlinked (path : list Z) (v : uview) : uview := UView (pupd (v_file v) path None) (v_fd v) (v_writes v) (v_metrics v) (v_pid v).
Definition v_metric (m : Z * Z * Z) (v : uview) : uview := UView (v_file v) (v_fd v) (v_writes v) (v_metrics v ++ [m]) (v_pid v).

Class RowsKernel {K : Type} (kernel : forall X, sysE X -> K -> X * K) := {
  rk_view : K -> uview;
  rk_clock : K -> Z;
  rk_range s : 0 <= rk_clock s < 2 ^ 31;
  rk_mono X (e : sysE X) s : rk_clock s <= rk_clock (kernel X e s).2;
  rk_uptime s : (kernel Z Suptime_nolock s).1 = rk_clock s;
  rk_calm X (e : sysE X) s : calm e = true -> rk_view (kernel X e s).2 = rk_view s;
  rk_getpid s : (kernel Z Sgetpid s).1 = v_pid (rk_view s);
  rk_malloc n size s : 0 < n -> length (kernel _ (Lmalloc n size) s).1.2 = Z.to_nat n;
  rk_open path mode s : (v_file (rk_view s) path <> None \/ mode = Z.lor O_CREATE O_RDWR) ->
    let '(fd, s') := kernel Z (Sopen path mode) s in 0 <= fd /\ rk_view s' = v_opened fd path (rk_view s);
  rk_write fd bs s path off f : v_fd (rk_view s) fd = Some (path, off) -> v_file (rk_view s) path = Some f -> (off <= length f)%nat ->
    let '(n, s') := kernel Z (Swrite fd bs) s in n = Z.of_nat (length bs) /\
      rk_view s' = v_moved fd path (off + length bs) (v_written path (take off f ++ bs ++ drop (off + length bs) f) bs (rk_view s));
  rk_read fd n s path off f : v_fd (rk_view s) fd = Some (path, off) -> v_file (rk_view s) path = Some f -> 0 < n ->
    let '((r, bs), s') := kernel (Z * list Z)%type (Sread fd n) s in
      bs = take (Z.to_nat n) (drop off f) /\ r = Z.of_nat (length bs) /\ rk_view s' = v_moved fd path (off + length bs) (rk_view s);
  rk_close fd s : rk_view (kernel Z (Sclose fd) s).2 = v_closed fd (rk_view s);
  rk_unlink path s : v_file (rk_view s) path <> None ->
    let '(r, s') := kernel Z (Sunlink path) s in r = 0 /\ rk_view s' = v_unlinked path (rk_view s);
  rk_metric index amount mode s : rk_view (kernel Z (Sincrement_metric index amount mode) s).2 = v_metric (index, amount, mode) (rk_view s)
}.

Section RowsRun.
Context {K : Type} (kernel : forall X, sysE X -> K -> X * K) `{HK : !RowsKernel kernel}.
Abbreviation ew := (ends_with kernel).

(** Since time [c0]: the view is [v], and the times counted so far are disjoint. *)
Record since (c0 : Z) (v : uview) (ef ov : Z) (s : K) : Prop := {
  si_view : rk_view s = v;
  si_c0 : 0 <= c0;
  si_ef : 0 <= ef;
  si_ov : 0 <= ov;
  si_sum : ef + ov <= rk_clock s - c0
}.
Definition spent (c0 ef ov t0 : Z) : Prop := 0 <= c0 /\ 0 <= ef /\ 0 <= ov /\ ef + ov <= t0 - c0.

Lemma since_swap c0 v ef ov s : since c0 v ef ov s -> since c0 v ov ef s.
Proof using Type. intros [? ? ? ? ?]. split; (done || lia). Qed.

Lemma spent_swap c0 ef ov t0 : spent c0 ef ov t0 -> spent c0 ov ef t0.
Proof using Type. unfold spent. lia. Qed.

Lemma ew_event {X} c0 v ef ov (e : sysE X) s (Q : fin X -> K -> Prop) : since c0 v ef ov s ->
  (forall x s', (x, s') = kernel X e s -> since c0 (rk_view s') ef ov s' -> Q (Returned x) s') -> ew (sys e) s Q.
Proof using Type.
  intros [Hv Hc He Ho Hs] HQ. apply ew_sys, HQ; [by destruct (kernel X e s)|]. split; [done..|]. pose proof (rk_mono X e s). lia.
Qed.

Lemma ew_calm {X} c0 v ef ov (e : sysE X) s (Q : fin X -> K -> Prop) : calm e = true -> since c0 v ef ov s ->
  (forall x s', (x, s') = kernel X e s -> since c0 v ef ov s' -> Q (Returned x) s') -> ew (sys e) s Q.
Proof using Type.
  intros He Hs HQ. eapply ew_event; [done|]. intros x s' E H. apply HQ; [done|]. pose proof (rk_calm X e s He) as Hv. rewrite <- E in Hv.
  cbn [snd] in Hv. rewrite Hv in H. by rewrite <- (si_view _ _ _ _ _ Hs).
Qed.

Lemma ew_begin c0 v ef ov s (Q : fin Z -> K -> Prop) : since c0 v ef ov s ->
  (forall t0 s', spent c0 ef ov t0 -> since t0 v 0 0 s' -> Q (Returned t0) s') -> ew (sys Suptime_nolock) s Q.
Proof using Type.
  intros Hs HQ. eapply ew_calm; [done|done|]. intros t0 s' E H. pose proof (rk_uptime s) as Ht. pose proof (rk_mono _ Suptime_nolock s) as Hm.
  rewrite <- E in Ht, Hm. cbn [fst snd] in *. rewrite Ht. destruct Hs, H. pose proof (rk_range s). apply HQ; [by split|]. split; (done || lia).
Qed.

Lemma ew_count c0 v ef ov t0 s (Q : fin Z -> K -> Prop) : spent c0 ef ov t0 -> since t0 v 0 0 s ->
  (forall t1 s', since c0 v (i32 (ef + i32 (t1 - t0))) ov s' -> Q (Returned t1) s') -> ew (sys Suptime_nolock) s Q.
Proof using Type.
  intros (Hc & He & Ho & Hs) H0 HQ. eapply ew_calm; [done|done|]. intros t1 s' E H. pose proof (rk_uptime s) as Ht. pose proof (rk_mono _ Suptime_nolock s) as Hm.
  rewrite <- E in Ht, Hm. cbn [fst snd] in *. rewrite Ht. pose proof (rk_range s). destruct H0, H. apply HQ.
  rewrite (swrap_small 32 (rk_clock s - t0)), swrap_small by lia. split; (done || lia).
Qed.

(** A call whose time counts as overhead. *)
Lemma ew_timed {A} (f : prog A) c0 v ef ov s (P : A -> uview -> Prop) (Q : fin (A * Z) -> K -> Prop) : since c0 v ef ov s ->
  (forall t0 s1, since t0 v 0 0 s1 -> ew f s1 (fun r s2 => exists x v', r = Returned x /\ P x v' /\ since t0 v' 0 0 s2)) ->
  (forall x v' ov' s', P x v' -> since c0 v' ef ov' s' -> Q (Returned (x, ov')) s') -> ew (timed ov f) s Q.
Proof using Type.
  intros Hs Hf HQ. unfold timed. apply ew_bind. eapply ew_begin; [done|]. intros t0 s1 Hsp H1. apply ew_bind. eapply ew_mono; [by apply Hf|].
  intros r s2 (x & v' & -> & HP & H2). apply ew_bind. eapply ew_count; [by apply spent_swap|done|]. intros t1 s3 H3. apply ew_ret. apply since_swap in H3. eauto.
Qed.

Lemma ew_timed_calm {X} (e : sysE X) c0 v ef ov s (P : X -> Prop) (Q : fin (X * Z) -> K -> Prop) : calm e = true -> (forall s, P (kernel X e s).1) -> since c0 v ef ov s ->
  (forall x ov' s', P x -> since c0 v ef ov' s' -> Q (Returned (x, ov')) s') -> ew (timed ov (sys e)) s Q.
Proof using Type.
  intros He HP Hs HQ. eapply (ew_timed _ c0 v ef ov s (fun x v' => P x /\ v' = v)); [done| |].
  - intros t0 s1 H1. eapply ew_calm; [done|done|]. intros x s2 E H2. exists x, v. split_and!; [done| |done|done]. pose proof (HP s1) as Hx. by rewrite <- E in Hx.
  - intros x v' ov' s' [Hx ->]. by apply HQ.
Qed.

(** ** The file of the process *)

Context (path : list Z).

Record vkeep (v v' : uview) : Prop := {
  vk_file p : p <> path -> v_file v' p = v_file v p;
  vk_metrics : v_metrics v' = v_metrics v;
  vk_pid : v_pid v' = v_pid v
}.

Lemma vkeep_trans v1 v2 v3 : vkeep v1 v2 -> vkeep v2 v3 -> vkeep v1 v3.
Proof using Type. intros [H1 M1 P1] [H2 M2 P2]. split; [|congruence|congruence]. intros p Hp. by rewrite H2, H1. Qed.

(** Descriptor [fd] is open on the file, whose contents are [f], at [off]. *)
Record at_off (v : uview) (fd : Z) (off : nat) (f : list Z) : Prop := {
  ao_fd : v_fd v fd = Some (path, off);
  ao_file : v_file v path = Some f
}.

Lemma pupd_eq {A B} `{!EqDecision A} (f : A -> B) a b : pupd f a b a = b.
Proof using Type. unfold pupd. by rewrite decide_True. Qed.
Lemma pupd_ne {A B} `{!EqDecision A} (f : A -> B) a b x : x <> a -> pupd f a b x = f x.
Proof using Type. intros H. unfold pupd. by rewrite decide_False. Qed.

Lemma ew_write_at c0 v ef ov fd off f bs s (Q : fin Z -> K -> Prop) : since c0 v ef ov s -> at_off v fd off f -> (off <= length f)%nat ->
  (forall v' s', since c0 v' ef ov s' -> vkeep v v' -> at_off v' fd (off + length bs) (take off f ++ bs ++ drop (off + length bs) f) ->
     v_writes v' = v_writes v ++ [(path, bs)] -> Q (Returned (Z.of_nat (length bs))) s') -> ew (sys (Swrite fd bs)) s Q.
Proof using Type.
  intros Hs [Hfd Hf] Hoff HQ. eapply ew_event; [done|]. intros n s' E H. rewrite <- (si_view _ _ _ _ _ Hs) in *.
  pose proof (rk_write fd bs s path off f Hfd Hf Hoff) as L. rewrite <- E in L. destruct L as [-> Hv]. rewrite Hv in H. eapply HQ; [exact H| | |done].
  - split; [|done|done]. intros p Hp. cbn. by apply pupd_ne.
  - split; cbn; apply pupd_eq.
Qed.

Lemma ew_open_at c0 v ef ov mode s : since c0 v ef ov s -> v_file v path <> None \/ mode = Z.lor O_CREATE O_RDWR ->
  ew (sys (Sopen path mode)) s (fun r s' => exists fd v', r = Returned fd /\
    (0 <= fd /\ vkeep v v' /\ at_off v' fd 0 (default [] (v_file v path)) /\ v_writes v' = v_writes v) /\ since c0 v' ef ov s').
Proof using Type.
  intros Hs Hm. eapply ew_event; [done|]. intros fd s' E H. rewrite <- (si_view _ _ _ _ _ Hs) in *.
  pose proof (rk_open path mode s Hm) as L. rewrite <- E in L. destruct L as [Hfd Hv]. rewrite Hv in H. exists fd, (v_opened fd path (rk_view s)). split; [done|]. split; [|exact H]. split; [done|]. split; [|split; [|done]].
  - split; [|done|done]. intros p Hp. cbn. by apply pupd_ne.
  - split; cbn; apply pupd_eq.
Qed.

Lemma ew_timed_open c0 v ef ov mode s (Q : fin (Z * Z) -> K -> Prop) : since c0 v ef ov s -> v_file v path <> None \/ mode = Z.lor O_CREATE O_RDWR ->
  (forall fd v' ov' s', 0 <= fd -> vkeep v v' -> at_off v' fd 0 (default [] (v_file v path)) -> v_writes v' = v_writes v -> since c0 v' ef ov' s' ->
     Q (Returned (fd, ov')) s') -> ew (timed ov (sys (Sopen path mode))) s Q.
Proof using Type.
  intros Hs Hm HQ. eapply ew_timed; [done| |].
  - intros t0 s1 H1. by apply ew_open_at.
  - intros fd v' ov' s' (Hfd & Hk & Ha & Hw) H. by eapply HQ.
Qed.

Lemma ew_close_at c0 v ef ov fd s (Q : fin Z -> K -> Prop) : since c0 v ef ov s ->
  (forall n v' s', since c0 v' ef ov s' -> vkeep v v' -> v_file v' = v_file v -> v_writes v' = v_writes v -> Q (Returned n) s') -> ew (sys (Sclose fd)) s Q.
Proof using Type.
  intros Hs HQ. eapply ew_event; [done|]. intros n s' E H. pose proof (rk_close fd s) as Hv. rewrite <- E in Hv. cbn [snd] in Hv.
  rewrite (si_view _ _ _ _ _ Hs) in Hv. rewrite Hv in H. by eapply HQ.
Qed.

(** ** The loops *)

(** A line of a hundred of the characters. *)
Definition is_line (l : list Z) : Prop := exists cs, l = cs ++ [10] /\ length cs = 100%nat /\ Forall (fun c => c ∈ caracteres) cs.

Lemma line_length l : is_line l -> length l = 101%nat.
Proof using Type. intros (cs & -> & Hl & _). by rewrite length_app, Hl. Qed.

Lemma line_nul l : is_line l -> 0 ∉ l.
Proof using Type.
  intros (cs & -> & _ & Hcs) [Hin|Hin%list_elem_of_singleton]%elem_of_app; [|done].
  rewrite list.Forall_forall in Hcs. apply Hcs in Hin. revert Hin. apply (bool_decide_unpack _). by vm_compute.
Qed.

Lemma ew_write_lines k fd r c0 v ef ov f s : since c0 v ef ov s -> at_off v fd (length f) f ->
  ew (write_lines k fd r ef) s (fun a s' => exists lines r' ef' v', a = Returned (r', ef') /\ length lines = k /\ Forall is_line lines /\
    since c0 v' ef' ov s' /\ vkeep v v' /\ at_off v' fd (length (f ++ concat lines)) (f ++ concat lines) /\
    v_writes v' = v_writes v ++ (pair path <$> lines)).
Proof using Type.
  revert r v ef f s. induction k as [|k IH]; intros r v ef f s Hs Ha; cbn [write_lines].
  { apply ew_ret. exists [], r, ef, v. cbn [concat fmap list_fmap]. rewrite !app_nil_r. by split_and!. }
  destruct (random_line_total 100 caracteres r eq_refl) as (cs & r' & E & Hl & Hcs). rewrite E. cbn [defined]. apply ew_bind, ew_ret.
  assert (Hline : is_line (cs ++ [10])) by (exists cs; done). pose proof (line_length _ Hline) as H101. set (l := cs ++ [10]) in *.
  apply ew_bind. eapply ew_begin; [done|]. intros t0 s1 Hsp H1. apply ew_bind. eapply ew_write_at; [done|done|done|].
  intros v2 s2 H2 K2 A2 W2. rewrite H101. cbn [negb Z.eqb Pos.eqb Z.of_nat Pos.of_succ_nat Pos.succ]. apply ew_bind. eapply ew_count; [done|done|].
  intros t1 s3 H3. rewrite firstn_all, (drop_ge f), app_nil_r, <- length_app in A2 by lia. eapply ew_mono; [by apply IH|].
  intros a s4 (lines & r2 & ef' & v' & -> & Hn & Hls & H4 & K4 & A4 & W4). exists (l :: lines), r2, ef', v'. cbn [concat fmap list_fmap].
  rewrite app_assoc. split_and!; [done|by cbn; rewrite Hn|by constructor|done|by eapply vkeep_trans|done|]. by rewrite W4, W2, <- app_assoc.
Qed.

Lemma ew_alloc_lines k c0 v ef ov s : since c0 v ef ov s ->
  ew (alloc_lines k ov) s (fun a s' => exists ls ov', a = Returned (ls, ov') /\ length ls = k /\ Forall (fun l => length l.2 = 102%nat) ls /\ since c0 v ef ov' s').
Proof using Type.
  revert ov s. induction k as [|k IH]; intros ov s Hs; cbn [alloc_lines].
  { apply ew_ret. exists [], ov. by split_and!. }
  apply ew_bind. eapply (ew_timed_calm (Lmalloc 102 1) c0 v ef ov s (fun x => length x.2 = 102%nat)); [done|intros; by apply rk_malloc|done|].
  intros l ov1 s1 Hl H1. apply ew_bind. eapply ew_mono; [by apply IH|]. intros a s2 (ls & ov2 & -> & Hn & Hls & H2). apply ew_ret.
  exists (l :: ls), ov2. split_and!; [done|by cbn; rewrite Hn|by constructor|done].
Qed.

Lemma ew_free_all ptrs c0 v ef ov s : since c0 v ef ov s ->
  ew (free_all ptrs ov) s (fun a s' => exists ov', a = Returned ov' /\ since c0 v ef ov' s').
Proof using Type.
  revert ov s. induction ptrs as [|p ptrs IH]; intros ov s Hs; cbn [free_all].
  { apply ew_ret. by exists ov. }
  apply ew_bind. eapply (ew_timed_calm (Lfree p) c0 v ef ov s (fun _ => True)); [done|done|done|].
  intros [] ov1 s1 _ H1. by apply IH.
Qed.

Lemma ew_rewrite_lines rows fd c0 v ef ov off f s : since c0 v ef ov s -> at_off v fd off f -> (off <= length f)%nat -> Forall (fun l => length l = 102%nat) rows ->
  ew (rewrite_lines rows fd ef) s (fun a s' => exists ef' v', a = Returned ef' /\ since c0 v' ef' ov s' /\ vkeep v v' /\
    v_file v' path <> None /\ v_writes v' = v_writes v ++ (pair path ∘ take 101 <$> rows)).
Proof using Type.
  intros Hs Ha Hoff Hr. revert v ef off f s Hs Ha Hoff. induction Hr as [|l rows Hl Hr IH]; intros v ef off f s Hs Ha Hoff; cbn [rewrite_lines].
  { apply ew_ret. exists ef, v. cbn [fmap list_fmap]. rewrite app_nil_r. destruct Ha as [_ Hf]. split_and!; try done. by rewrite Hf. }
  assert (Hb : (length l <? 101)%nat = false) by (apply Nat.ltb_ge; lia). rewrite Hb. assert (Hn : length (take 101 l) = 101%nat) by (rewrite length_take; lia).
  apply ew_bind. eapply ew_begin; [done|]. intros t0 s1 Hsp H1. cbn [defined]. apply ew_bind, ew_ret. apply ew_bind. eapply ew_write_at; [done|done|done|].
  intros v2 s2 H2 K2 A2 W2. rewrite Hn in *. cbn [negb Z.eqb Pos.eqb Z.of_nat Pos.of_succ_nat Pos.succ]. apply ew_bind. eapply ew_count; [done|done|].
  intros t1 s3 H3. eapply ew_mono; [eapply IH; [done|done|rewrite !length_app, length_take, length_drop; lia]|].
  intros a s4 (ef' & v' & -> & H4 & K4 & F4 & W4). exists ef', v'. split_and!; [done|done|by eapply vkeep_trans|done|]. rewrite W4, W2, <- app_assoc. done.
Qed.

Lemma ew_read_at c0 v ef ov fd off f n s (Q : fin (Z * list Z) -> K -> Prop) : since c0 v ef ov s -> at_off v fd off f -> 0 < n ->
  (forall v' s', let bs := take (Z.to_nat n) (drop off f) in since c0 v' ef ov s' -> vkeep v v' -> at_off v' fd (off + length bs) f -> v_writes v' = v_writes v ->
     Q (Returned (Z.of_nat (length bs), bs)) s') -> ew (sys (Sread fd n)) s Q.
Proof using Type.
  intros Hs [Hfd Hf] Hn HQ. eapply ew_event; [done|]. intros [r bs] s' E H. rewrite <- (si_view _ _ _ _ _ Hs) in *.
  pose proof (rk_read fd n s path off f Hfd Hf Hn) as L. rewrite <- E in L. destruct L as (-> & -> & Hv). rewrite Hv in H. eapply HQ; [exact H| | |done].
  - by split.
  - split; cbn; [apply pupd_eq|done].
Qed.

Lemma since_later c0 ef ov t0 v s : spent c0 ef ov t0 -> since t0 v 0 0 s -> since c0 v ef ov s.
Proof using Type. intros (? & ? & ? & ?) [? ? ? ? ?]. split; (done || lia). Qed.

Section read.
Context (past : list Z) (fd c0 ov : Z) (lines : list (list Z)).
Hypothesis Hlines : Forall is_line lines.

Lemma ew_read_loop rest : forall seen A B buf t0 ef v s, lines = seen ++ rest ->
  spent c0 ef ov t0 -> since t0 v 0 0 s -> at_off v fd (length (concat seen)) (concat lines) ->
  holds 102 A seen -> Forall (fun l => length l = 102%nat) B -> length B = length rest -> length buf = 101%nat ->
  ew (ITree.iter (read_line (0 :: past) fd) (buf, Z.of_nat (length seen), A ++ B, t0, ef)) s
    (fun a s' => exists linhas ef' v', a = Returned (linhas, ef') /\ holds 102 linhas lines /\ since c0 v' ef' ov s' /\ vkeep v v' /\
       v_file v' path = Some (concat lines) /\ v_writes v' = v_writes v).
Proof using Hlines.
  induction rest as [|l rest IH]; intros seen A B buf t0 ef v s El Hsp Hs Ha HA HB HlB Hbuf; apply ew_iter; cbn [read_line];
    apply ew_bind; (eapply ew_read_at; [done|done|done|]); intros v1 s1 bs H1 K1 A1 W1.
  - rewrite app_nil_r in El. subst seen. assert (bs = []) as -> by (unfold bs; rewrite drop_all; done). apply nil_length_inv in HlB as ->. rewrite app_nil_r.
    change (0 <? Z.of_nat (length [])) with false. apply ew_ret. exists A, ef, v1. destruct A1. split_and!; try done. by eapply since_later.
  - assert (Hl : is_line l) by (rewrite El in Hlines; apply Forall_app in Hlines as [_ Hr]; by inversion Hr).
    pose proof (line_length l Hl) as H101. assert (bs = l) as ->.
    { unfold bs. rewrite El, concat_app, drop_app_length. cbn [concat]. rewrite take_app_length'; [done|]. rewrite H101. done. }
    rewrite H101. change (0 <? Z.of_nat 101) with true. rewrite (drop_ge buf), app_nil_r by lia. apply ew_bind. eapply ew_count; [done|done|]. intros t1 s2 H2.
    destruct B as [|b B]; [done|]. injection HlB as HlB. inversion HB as [|? ? Hb HB']; subst. pose proof (Forall2_length HA) as HlA.
    rewrite <- HlA, zget_app_mid. cbn [mbind option_bind]. assert (Hc : c_string (l ++ 0 :: past) = Some l) by (by apply c_string_app, line_nul).
    destruct (strcpy_to_ok b _ l Hc ltac:(lia)) as (d & -> & Hd & Hld). cbn [defined]. apply ew_bind, ew_ret. apply ew_bind. eapply ew_begin; [done|].
    intros t2 s3 Hsp3 H3. apply ew_ret. rewrite zset_app_mid. replace (A ++ d :: B) with ((A ++ [d]) ++ B) by (by rewrite <- app_assoc).
    replace (Z.of_nat (length A) + 1) with (Z.of_nat (length (seen ++ [l]))) by (rewrite length_app, HlA; cbn; lia).
    eapply ew_mono; [eapply IH|]; [by rewrite <- app_assoc|done|done| | |done|done|done|].
    + rewrite concat_app. cbn [concat]. rewrite app_nil_r, length_app. done.
    + apply Forall2_app; [done|]. constructor; [|constructor]. split; [lia|done].
    + intros a s' (linhas & ef' & v' & -> & Hh & Hs' & Hk & Hf & Hw). exists linhas, ef', v'. split_and!; [done|done|done|by eapply vkeep_trans|done|congruence].
Qed.
End read.

Lemma holds_lines rows ss : holds 102 rows ss -> Forall is_line ss -> take 101 <$> rows = ss /\ Forall (fun l => length l = 102%nat) rows.
Proof using Type.
  induction 1 as [|a l rows ss [Ha Hc] H IH]; [done|]. inversion 1 as [|? ? Hl Hls]; subst. destruct (IH Hls) as [E HF]. split; [|by constructor].
  cbn [fmap list_fmap]. f_equal; [|done]. destruct (c_string_prefix a l Hc) as [t ->]. rewrite take_app_length'; [done|]. by rewrite line_length.
Qed.

Lemma ew_report idx c0 v ef ov s : since c0 v ef ov s ->
  ew (report idx ef ov) s (fun a s' => exists v', a = Returned 0 /\ since c0 v' ef ov s' /\ v_file v' = v_file v /\ v_writes v' = v_writes v /\
    v_metrics v' = v_metrics v ++ [(idx, ef, MODE_EFICIENCIA); (idx, ov, MODE_OVERHEAD)]).
Proof using Type.
  intros Hs. unfold report. apply ew_bind. eapply ew_event; [done|]. intros x1 s1 E1 H1. pose proof (rk_metric idx ef MODE_EFICIENCIA s) as V1. rewrite <- E1 in V1.
  apply ew_bind. eapply ew_event; [done|]. intros x2 s2 E2 H2. pose proof (rk_metric idx ov MODE_OVERHEAD s1) as V2. rewrite <- E2 in V2. cbn [snd] in V1, V2.
  apply ew_bind. eapply ew_calm; [done|done|]. intros pid s3 _ H3. apply ew_bind. eapply ew_calm; [done|done|]. intros x4 s4 _ H4. apply ew_ret.
  exists (rk_view s2). split_and!; [done|done|..]; rewrite V2, V1, (si_view _ _ _ _ _ Hs); cbn; [done|done|by rewrite <- app_assoc].
Qed.

Lemma ew_rows_remove idx ptrs c0 v ef ov s : since c0 v ef ov s -> v_file v path <> None ->
  ew (rows_remove idx path ptrs ef ov) s (fun a s' => exists v' ef' ov', a = Returned 0 /\ since c0 v' ef' ov' s' /\ v_file v' path = None /\
    (forall p, p <> path -> v_file v' p = v_file v p) /\ v_writes v' = v_writes v /\
    v_metrics v' = v_metrics v ++ [(idx, ef', MODE_EFICIENCIA); (idx, ov', MODE_OVERHEAD)]).
Proof using Type.
  intros Hs Hf. unfold rows_remove. apply ew_bind. eapply ew_begin; [done|]. intros t0 s1 Hsp H1. apply ew_bind. eapply ew_event; [done|].
  intros r s2 E2 H2. rewrite <- (si_view _ _ _ _ _ H1) in Hf. pose proof (rk_unlink path s1 Hf) as L. rewrite <- E2 in L. destruct L as [-> V2]. cbn [Z.ltb Z.compare].
  apply ew_bind. eapply ew_count; [done|done|]. intros t1 s3 H3. apply ew_bind. eapply ew_mono; [by apply ew_free_all|]. intros a s4 (ov' & -> & H4).
  eapply ew_mono; [by apply ew_report|]. intros a s5 (v' & -> & H5 & F5 & W5 & M5). rewrite V2, (si_view _ _ _ _ _ H1) in *. eexists v', _, ov'.
  split_and!; [done|exact H5|by rewrite F5; cbn; rewrite pupd_eq|intros p Hp; rewrite F5; cbn; by rewrite pupd_ne|by rewrite W5|by rewrite M5].
Qed.

Lemma ew_rows_exchange idx ptrs rows lines r c0 v ef ov s f : since c0 v ef ov s -> v_file v path = Some f -> holds 102 rows lines -> length lines = 100%nat -> Forall is_line lines ->
  ew (rows_exchange idx path ptrs rows r ef ov) s (fun a s' => exists v' ef' ov' lines', a = Returned 0 /\ since c0 v' ef' ov' s' /\ v_file v' path = None /\
    (forall p, p <> path -> v_file v' p = v_file v p) /\ lines' ≡ₚ lines /\ v_writes v' = v_writes v ++ (pair path <$> lines') /\
    v_metrics v' = v_metrics v ++ [(idx, ef', MODE_EFICIENCIA); (idx, ov', MODE_OVERHEAD)]).
Proof using Type.
  intros Hs Hf Hh Hn Hls. unfold rows_exchange. apply ew_bind.
  eapply (ew_timed_calm (Lmalloc 102 1) c0 v ef ov s (fun x => length x.2 = 102%nat)); [done|intros; by apply rk_malloc|done|].
  intros [tmp_p tmp] ov1 s1 Ht H1. cbn [snd] in Ht. destruct (permute_rows_permutation 102 50 tmp rows lines r Hh Ht Hn) as (rows' & lines' & r' & -> & Hh' & Hp).
  cbn [defined]. apply ew_bind, ew_ret. apply ew_bind. eapply (ew_timed_calm (Lfree tmp_p) c0 v ef ov1 s1 (fun _ => True)); [done|done|done|].
  intros [] ov2 s2 _ H2. apply ew_bind. eapply ew_timed_open; [done|left; by rewrite Hf|]. intros fd v3 ov3 s3 Hfd K3 A3 W3 H3. rewrite Hf in A3. cbn [default from_option id] in A3.
  rewrite (proj2 (Z.ltb_ge _ _)) by done. assert (Hls' : Forall is_line lines') by (by rewrite Hp). destruct (holds_lines rows' lines' Hh' Hls') as [Et Hl'].
  apply ew_bind. eapply ew_mono; [by apply (ew_rewrite_lines rows' fd c0 v3 ef ov3 0 f); [..|lia|]|]. intros a s4 (ef4 & v4 & -> & H4 & K4 & F4 & W4).
  apply ew_bind. eapply ew_close_at; [done|]. intros x5 v5 s5 H5 K5 F5 W5. eapply ew_mono; [by apply ew_rows_remove; [|rewrite F5]|].
  intros a s6 (v' & ef' & ov' & -> & H6 & F6 & Fo6 & W6 & M6). exists v', ef', ov', lines'. split_and!; [done|done|done| |done| |].
  - intros p Hne. by rewrite Fo6, (vk_file _ _ K5), (vk_file _ _ K4), (vk_file _ _ K3) by done.
  - rewrite W6, W5, W4, W3. by rewrite list_fmap_compose, Et.
  - by rewrite M6, (vk_metrics _ _ K5), (vk_metrics _ _ K4), (vk_metrics _ _ K3).
Qed.

Lemma ew_rows_read buf0 past idx r c0 v ef ov s lines : length buf0 = 101%nat -> since c0 v ef ov s -> v_file v path = Some (concat lines) -> length lines = 100%nat -> Forall is_line lines ->
  ew (rows_read buf0 (0 :: past) idx path r ef ov) s (fun a s' => exists v' ef' ov' lines', a = Returned 0 /\ since c0 v' ef' ov' s' /\ v_file v' path = None /\
    (forall p, p <> path -> v_file v' p = v_file v p) /\ lines' ≡ₚ lines /\ v_writes v' = v_writes v ++ (pair path <$> lines') /\
    v_metrics v' = v_metrics v ++ [(idx, ef', MODE_EFICIENCIA); (idx, ov', MODE_OVERHEAD)]).
Proof using Type.
  intros Hbuf Hs Hf Hn Hls. unfold rows_read. apply ew_bind. eapply ew_mono; [by apply (ew_alloc_lines 100)|]. intros a s1 (ls & ov1 & -> & Hn1 & Hls1 & H1).
  apply ew_bind. eapply ew_timed_open; [done|left; by rewrite Hf|]. intros fd v2 ov2 s2 Hfd K2 A2 W2 H2. rewrite Hf in A2. cbn [default from_option id] in A2.
  rewrite (proj2 (Z.ltb_ge _ _)) by done. apply ew_bind. unfold read_lines. apply ew_bind. eapply ew_begin; [done|]. intros t0 s3 Hsp3 H3.
  pose proof (ew_read_loop past fd c0 ov2 lines Hls lines [] [] ls.*2 buf0 t0 ef v2 s3 eq_refl Hsp3 H3 A2 ltac:(constructor)
    ltac:(by apply Forall_fmap) ltac:(by rewrite length_fmap, Hn1) Hbuf) as L. eapply ew_mono; [exact L|]. clear L.
  intros a s4 (rows & ef4 & v4 & -> & Hh & H4 & K4 & F4 & W4). apply ew_bind. eapply ew_close_at; [done|]. intros x5 v5 s5 H5 K5 F5 W5.
  eapply ew_mono; [eapply ew_rows_exchange; [done|by rewrite F5|done|done|done]|].
  intros a s6 (v' & ef' & ov' & lines' & -> & H6 & F6 & Fo6 & Hp & W6 & M6). exists v', ef', ov', lines'. split_and!; [done|done|done| |done| |].
  - intros p Hne. by rewrite Fo6, (vk_file _ _ K5), (vk_file _ _ K4), (vk_file _ _ K2) by done.
  - by rewrite W6, W5, W4, W2.
  - by rewrite M6, (vk_metrics _ _ K5), (vk_metrics _ _ K4), (vk_metrics _ _ K2).
Qed.
End RowsRun.

(** The file of process [pid]. *)
Definition row_path (pid : Z) : list Z := iobound ++ [pid / 10 mod 10 + 48; pid mod 10 + 48] ++ dot_txt.

Lemma row_path_eq junk pid : length junk = 10%nat -> 0 <= pid < 9000 -> exists f, row_filename junk pid = Some f /\ cstr f = row_path pid.
Proof.
  intros Hj Hp. eexists. split; [by apply row_filename_eq|]. pose proof (Z.mod_pos_bound pid 10 ltac:(lia)). pose proof (Z.mod_pos_bound (pid / 10) 10 ltac:(lia)).
  unfold row_path. set (a := pid / 10 mod 10 + 48) in *. set (b := pid mod 10 + 48) in *. cbn. rewrite !(proj2 (Z.eqb_neq _ _)) by lia. done.
Qed.

Lemma index_str_of idx : 0 <= idx < 20 -> index_of (index_str idx ++ [0]) = Some idx.
Proof. intros H. unfold index_str. destruct (Z.ltb_spec idx 10); cbn; f_equal; lia. Qed.


(** ** A kernel to run on

    Each call takes a tick; a process has one descriptor besides the standard ones. *)
Record rkern := RKern { k_view : uview; k_time : Z }.
Definition k_clock (s : rkern) : Z := Z.min (Z.max 0 (k_time s)) (2 ^ 31 - 1).

Definition k_step (v : uview) (s : rkern) : rkern := RKern v (k_time s + 1).
Definition k_at (s : rkern) (fd : Z) : option (list Z * nat * list Z) :=
  '(path, off) ← v_fd (k_view s) fd; f ← v_file (k_view s) path; Some (path, off, f).

Definition tick_kernel (X : Type) (e : sysE X) (s : rkern) : X * rkern :=
  let same := k_step (k_view s) s in
  match e in sysE X return X * rkern with
  | Suptime_nolock => (k_clock s, same)
  | Sgetpid => (v_pid (k_view s), same)
  | Lmalloc n _ => ((4096, replicate (Z.to_nat n) 0), same)
  | Lfree _ => (tt, same)
  | Sopen path _ => (3, k_step (v_opened 3 path (k_view s)) s)
  | Swrite fd bs =>
    match k_at s fd with
    | Some (path, off, f) =>
      (Z.of_nat (length bs), k_step (v_moved fd path (off + length bs) (v_written path (take off f ++ bs ++ drop (off + length bs) f) bs (k_view s))) s)
    | None => (-1, same)
    end
  | Sread fd n =>
    match k_at s fd with
    | Some (path, off, f) =>
      let bs := take (Z.to_nat n) (drop off f) in ((Z.of_nat (length bs), bs), k_step (v_moved fd path (off + length bs) (k_view s)) s)
    | None => ((-1, []), same)
    end
  | Sclose fd => (0, k_step (v_closed fd (k_view s)) s)
  | Sunlink path => (0, k_step (v_unlinked path (k_view s)) s)
  | Sincrement_metric index amount mode => (0, k_step (v_metric (index, amount, mode) (k_view s)) s)
  | Spipe => (None, same)
  | Sfstat _ => (None, same)
  | Sfork | Swait | Skill _ | Sexec _ _ | Smknod _ _ _ | Slink _ _ | Smkdir _ | Schdir _ | Sdup _ | Ssbrk _ | Ssleep _ | Suptime | Sset_type _ _
  | Sinitialize_metrics | Sget_eficiencia _ | Sget_overhead _ | Sset_justica _ _ | Sget_justica _ | Stempo_total _ => (0, same)
  | Swaits => ((0, 0), same)
  | Pwrite _ _ _ | Pread _ _ _ | Ppipe _ | Popen _ _ | Punlink _ | Plink _ _ | Pexec _ _ => (-1, same)
  | Mload _ _ => (None, same)
  | Mstore _ _ _ => (false, same)
  end.

Lemma tick_time X (e : sysE X) s : k_time (tick_kernel X e s).2 = k_time s + 1.
Proof. by destruct e; cbn; try destruct (k_at s _) as [[[? ?] ?]|]. Qed.

#[export, program] Instance tick_rows_kernel : RowsKernel tick_kernel := {| rk_view := k_view; rk_clock := k_clock |}.
Next Obligation. intros s. unfold k_clock. lia. Qed.
Next Obligation. intros X e s. unfold k_clock. rewrite tick_time. lia. Qed.
Next Obligation. done. Qed.
Next Obligation. by intros X []. Qed.
Next Obligation. done. Qed.
Next Obligation. intros n size s Hn. cbn. by rewrite length_replicate. Qed.
Next Obligation. done. Qed.
Next Obligation. intros fd bs s path off f Hfd Hf Hoff. cbn in *. unfold k_at. rewrite Hfd. cbn [mbind option_bind]. by rewrite Hf. Qed.
Next Obligation. intros fd n s path off f Hfd Hf Hn. cbn in *. unfold k_at. rewrite Hfd. cbn [mbind option_bind]. by rewrite Hf. Qed.
Next Obligation. done. Qed.
Next Obligation. done. Qed.
Next Obligation. done. Qed.

