(* ===== verification/ExpRound.v ===== *)
(** * A round of user/run_experiment.c

    On any kernel that starts processes, counts time and answers for the metrics as
    [RunKernel] says, a round starts the twenty processes with their types, waits for all of
    them and prints the numbers that [rodada] computes from the times and the metrics. *)

From Stdlib Require Import ZArith Lia.
From stdpp Require Import base list strings numbers.
From ITree Require Import ITree.
From S2P Require Import Prelude Kernel Proc UPrintf Sys UserMain Experiment ExpMain.

(** ** Kernels *)

(** What has been written to descriptor 1, the calls of [set_type], and the times at which the
    children that have not been waited for were started. *)
Record xview := XView { x_out : list Z; x_types : list (Z * Z); x_kids : list Z }.

Definition xcalm {X} (e : sysE X) : bool :=
  match e with
  | Suptime_nolock | Lmalloc _ _ | Lfree _ | Sinitialize_metrics | Sget_eficiencia _ | Sget_overhead _ | Sget_justica _ => true
  | _ => false
  end.

(** [xk_ok] is an invariant of the kernel, [xk_end] a time at which the clock stops; [xk_ef],
    [xk_ov] and [xk_ju] are the metrics by index. *)
Class RunKernel {K : Type} (kernel : forall X, sysE X -> K -> X * K) := {
  xk_ok : K -> Prop;
  xk_view : K -> xview;
  xk_clock : K -> Z;
  xk_end : K -> Z;
  xk_ef : Z -> Z;
  xk_ov : Z -> Z;
  xk_ju : Z -> Z;
  xk_range s : 0 <= xk_clock s <= xk_end s /\ xk_end s < 2 ^ 31;
  xk_keep X (e : sysE X) s : xk_ok s -> xk_ok (kernel X e s).2;
  xk_mono X (e : sysE X) s : xk_clock s <= xk_clock (kernel X e s).2 /\ xk_end (kernel X e s).2 = xk_end s;
  xk_uptime s : (kernel Z Suptime_nolock s).1 = xk_clock s;
  xk_calm X (e : sysE X) s : xcalm e = true -> xk_view (kernel X e s).2 = xk_view s;
  xk_malloc n size s : 0 < n -> length (kernel _ (Lmalloc n size) s).1.2 = Z.to_nat n;
  xk_fork s : let '(pid, s') := kernel Z Sfork s in let v := xk_view s in
    0 < pid /\ xk_view s' = XView (x_out v) (x_types v) (x_kids v ++ [xk_clock s]);
  xk_wait s : xk_ok s -> x_kids (xk_view s) <> [] -> let '(pid, s') := kernel Z Swait s in let v := xk_view s in
    0 < pid /\ exists b kids, x_kids v ≡ₚ b :: kids /\ (b < xk_clock s' \/ xk_clock s' = xk_end s') /\ xk_view s' = XView (x_out v) (x_types v) kids;
  xk_set_type type pid s : let v := xk_view s in
    xk_view (kernel Z (Sset_type type pid) s).2 = XView (x_out v) (x_types v ++ [(type, pid)]) (x_kids v);
  xk_write bs s : let v := xk_view s in
    xk_view (kernel Z (Swrite 1 bs) s).2 = XView (x_out v ++ bs) (x_types v) (x_kids v);
  xk_get_ef k s : (kernel Z (Sget_eficiencia k) s).1 = xk_ef k;
  xk_get_ov k s : (kernel Z (Sget_overhead k) s).1 = xk_ov k;
  xk_get_ju k s : (kernel Z (Sget_justica k) s).1 = xk_ju k
}.

#[local] Opaque dec.

Section Round.
Context {K : Type} (kernel : forall X, sysE X -> K -> X * K) `{HK : !RunKernel kernel}.
Context (E c : Z) (after_args : list (list Z)).
Abbreviation ew := (ends_with kernel).

(** Between times [c] and [E], with view [v]. *)
Record during (v : xview) (s : K) : Prop := {
  du_ok : xk_ok s;
  du_view : xk_view s = v;
  du_time : c <= xk_clock s;
  du_end : xk_end s = E
}.

Lemma ew_xevent {X} v (e : sysE X) s (Q : fin X -> K -> Prop) : during v s ->
  (forall x s', (x, s') = kernel X e s -> during (xk_view s') s' -> Q (Returned x) s') -> ew (sys e) s Q.
Proof using Type.
  intros [Hok Hv Ht He] HQ. apply ew_sys, HQ; [by destruct (kernel X e s)|]. pose proof (xk_mono X e s) as [H1 H2]. split; [by apply xk_keep|done|lia|congruence].
Qed.

Lemma ew_xcalm {X} v (e : sysE X) s (Q : fin X -> K -> Prop) : xcalm e = true -> during v s ->
  (forall x s', (x, s') = kernel X e s -> during v s' -> Q (Returned x) s') -> ew (sys e) s Q.
Proof using Type.
  intros He Hs HQ. eapply ew_xevent; [done|]. intros x s' Ex H. apply HQ; [done|]. pose proof (xk_calm X e s He) as Hv. rewrite <- Ex in Hv.
  cbn [snd] in Hv. rewrite Hv in H. by rewrite <- (du_view _ _ Hs).
Qed.

(** A call whose answer is known. *)
Lemma ew_xask {X} v (e : sysE X) (P : X -> Prop) s (Q : fin X -> K -> Prop) : xcalm e = true -> (forall s, P (kernel X e s).1) -> during v s ->
  (forall x s', P x -> during v s' -> Q (Returned x) s') -> ew (sys e) s Q.
Proof using Type.
  intros He HP Hs HQ. eapply ew_xcalm; [done|done|]. intros x s' Ex H. apply HQ; [|done]. pose proof (HP s) as Hx. by rewrite <- Ex in Hx.
Qed.

Definition said (out : list Z) (v : xview) : xview := XView (x_out v ++ out) (x_types v) (x_kids v).

Lemma ew_xputcs out v s (Q : fin unit -> K -> Prop) : during v s -> (forall s', during (said out v) s' -> Q (Returned tt) s') -> ew (putcs 1 out) s Q.
Proof using Type.
  revert v s. induction out as [|ch out IH]; intros v s Hs HQ; cbn [putcs].
  - apply ew_ret, HQ. unfold said. rewrite app_nil_r. by destruct v.
  - apply ew_bind. eapply ew_xevent; [done|]. intros x s1 Ex H1. pose proof (xk_write [ch] s) as Hv. rewrite <- Ex in Hv. cbn [snd] in Hv.
    rewrite (du_view _ _ Hs) in Hv. rewrite Hv in H1. eapply IH; [exact H1|]. intros s' H. apply HQ. unfold said in *. cbn in H. by rewrite <- app_assoc in H.
Qed.

(** [printf] with one [%d]. *)
Lemma ew_say fmt pre post z v s (Q : fin unit -> K -> Prop) : line fmt = pre ++ [37; 100] ++ post -> plain pre -> plain post -> during v s ->
  (forall s', during (said (pre ++ dec z ++ post) v) s' -> Q (Returned tt) s') -> ew (printf (line fmt) [VInt z]) s Q.
Proof using Type.
  intros Ef Hpre Hpost Hs HQ. unfold printf, fprintf. rewrite Ef, vprintf_d by done. by eapply ew_xputcs.
Qed.

(** ** The processes *)

Definition kind (x j : Z) : Z := if j <=? x then CPU_BOUND else IO_BOUND.

Lemma ew_child type v s (k : prog unit) (Q : fin unit -> K -> Prop) : during v s ->
  (forall pid b s', 0 < pid -> c <= b -> during (XView (x_out v) (x_types v ++ [(type, pid)]) (x_kids v ++ [b])) s' -> Q (Returned tt) s') ->
  ew (let! pid := sys Sfork in if pid =? 0 then k else sys (Sset_type type pid) ;! Ret tt) s Q.
Proof using Type.
  intros Hs HQ. apply ew_bind. eapply ew_xevent; [done|]. intros pid s1 E1 H1. pose proof (xk_fork s) as L. rewrite <- E1, (du_view _ _ Hs) in L.
  destruct L as [Hp V1]. rewrite (proj2 (Z.eqb_neq _ _)) by lia. apply ew_bind. eapply ew_xevent; [done|]. intros x s2 E2 H2.
  pose proof (xk_set_type type pid s1) as V2. rewrite <- E2, V1 in V2. cbn [snd x_out x_types x_kids] in V2. rewrite V2 in H2. apply ew_ret.
  eapply HQ; [done| |exact H2]. by apply (du_time v).
Qed.

Lemma ew_starts x js v s : during v s ->
  ew (for_each js (start_one after_args x)) s (fun r s' => exists pids births, r = Returned tt /\ length pids = length js /\ Forall (fun p => 0 < p) pids /\
    length births = length js /\ Forall (fun b => c <= b) births /\
    during (XView (x_out v) (x_types v ++ zip_with (fun j p => (kind x j, p)) js pids) (x_kids v ++ births)) s').
Proof using Type.
  revert v s. induction js as [|j js IH]; intros v s Hs; cbn [for_each].
  { apply ew_ret. exists [], []. cbn. rewrite !app_nil_r. split_and!; try done. by destruct v. }
  apply ew_bind.
  assert (H : ew (start_one after_args x j) s (fun r s' => exists pid b, r = Returned tt /\ 0 < pid /\ c <= b /\
    during (XView (x_out v) (x_types v ++ [(kind x j, pid)]) (x_kids v ++ [b])) s')).
  { unfold start_one, kind. destruct (j <=? x); eapply ew_child; try done; intros pid b s' ? ? ?; by exists pid, b. }
  eapply ew_mono; [exact H|]. intros r s1 (pid & b & -> & Hp & Hb & H1). eapply ew_mono; [by apply IH|].
  intros r s2 (pids & births & -> & Hl & Hpos & Hlb & Hbs & H2). exists (pid :: pids), (b :: births). cbn [x_out x_types x_kids zip_with] in *.
  rewrite <- !app_assoc in H2. split_and!; [done|by cbn; rewrite Hl|by constructor|by cbn; rewrite Hlb|by constructor|exact H2].
Qed.

(** Waiting: each process ends at least a tick after the round began. *)
Lemma ew_waits k j A B v s : 0 <= c < E -> during v s -> length (x_kids v) = k -> Forall (fun b => c <= b) (x_kids v) -> Z.of_nat (length A) = j -> length B = k ->
  ew (wait_all k c j (A ++ B)) s (fun r s' => exists ts, r = Returned (A ++ ts) /\ length ts = k /\ Forall (fun t => 1 <= t <= E - c) ts /\
    during (XView (x_out v) (x_types v) []) s').
Proof using Type.
  intros HcE. revert j A B v s. induction k as [|k IH]; intros j A B v s Hs Hk Hb HA HB; cbn [wait_all].
  { apply nil_length_inv in HB as ->. apply nil_length_inv in Hk as Hk. apply ew_ret. exists []. split_and!; try done. rewrite <- Hk. by destruct v. }
  apply ew_bind. eapply ew_xevent; [done|]. intros pid s1 E1 H1. pose proof (xk_wait s (du_ok _ _ Hs)) as L. rewrite <- E1, (du_view _ _ Hs) in L.
  destruct L as (Hp & b & kids & Hperm & Hend & V1); [intros Hn; by rewrite Hn in Hk|]. rewrite V1 in H1. rewrite (proj2 (Z.eqb_neq _ _)) by lia.
  rewrite Hperm in Hb. apply Forall_cons_1 in Hb as [Hb Hkids]. rewrite Hperm in Hk. injection Hk as Hk. pose proof (xk_range s1) as Hrg. pose proof (xk_range s) as Hrs.
  assert (Ht : c < xk_clock s1) by (destruct Hend as [|Hend]; [lia|]; rewrite Hend, (du_end _ _ H1); lia). pose proof (du_end _ _ H1) as He1.
  destruct B as [|b0 B]; [done|]. injection HB as HB.
  apply ew_bind, ew_bind. eapply ew_xcalm; [done|done|]. intros t s2 E2 H2. pose proof (xk_uptime s1) as Et. rewrite <- E2 in Et. cbn [fst] in Et. subst t.
  rewrite swrap_small by lia. unfold store. rewrite <- HA, zget_app_mid, zset_app_mid. cbn [mbind option_bind defined]. apply ew_ret.
  replace (A ++ (xk_clock s1 - c) :: B) with ((A ++ [xk_clock s1 - c]) ++ B) by (by rewrite <- app_assoc).
  eapply ew_mono; [eapply (IH _ (A ++ [xk_clock s1 - c]) B _ s2 H2); [done|done|rewrite length_app; cbn; lia|done]|].
  intros r s3 (ts & -> & Hl & Hts & H3). exists ((xk_clock s1 - c) :: ts). rewrite <- app_assoc. split_and!; [done|by cbn; rewrite Hl| |done].
  constructor; [lia|done].
Qed.

(** ** The metrics *)

Lemma ew_read_eficiencias ks l A B v s : during v s -> Z.of_nat (length A) = l ->
  length (filter (fun e => 0 <= e) (xk_ef <$> ks)) = length B ->
  ew (read_eficiencias ks l (A ++ B)) s (fun r s' => r = Returned (A ++ filter (fun e => 0 <= e) (xk_ef <$> ks)) /\ during v s').
Proof using Type.
  intros Hs HA. revert l A B s Hs HA. induction ks as [|k ks IH]; intros l A B s Hs HA HB; cbn [read_eficiencias fmap list_fmap] in *.
  { cbn in HB. symmetry in HB. apply nil_length_inv in HB as ->. by apply ew_ret. }
  apply ew_bind. eapply (ew_xask v _ (fun x => x = xk_ef k)); [done|intros; apply xk_get_ef|done|]. intros x s1 -> H1. rewrite filter_cons in *.
  destruct (Z.leb_spec 0 (xk_ef k)) as [Hk|Hk]; [rewrite decide_True in * by done|rewrite decide_False in * by lia; by apply (IH l A B)].
  destruct B as [|b B]; [done|]. unfold store. rewrite <- HA, zget_app_mid, zset_app_mid. cbn [mbind option_bind defined]. apply ew_bind, ew_ret.
  replace (A ++ xk_ef k :: B) with ((A ++ [xk_ef k]) ++ B) by (by rewrite <- app_assoc).
  eapply ew_mono; [apply (IH _ (A ++ [xk_ef k]) B s1 H1); [rewrite length_app; cbn; lia|by injection HB]|].
  intros r s2 [-> H2]. split; [by rewrite <- app_assoc|done].
Qed.

Lemma ew_read_metric (get : Z -> sysE Z) (g : Z -> Z) ks A B v s : (forall k, xcalm (get k) = true /\ forall s, (kernel Z (get k) s).1 = g k) -> during v s ->
  (forall i k, ks !! i = Some k -> k = Z.of_nat (length A + i)) -> length B = length ks ->
  ew (read_metric get ks (A ++ B)) s (fun r s' => r = Returned (A ++ (g <$> ks)) /\ during v s').
Proof using Type.
  intros Hg. revert A B s. induction ks as [|k ks IH]; intros A B s Hs Hks HB; cbn [read_metric fmap list_fmap].
  { apply nil_length_inv in HB as ->. by apply ew_ret. }
  apply ew_bind. eapply (ew_xask v _ (fun x => x = g k)); [apply Hg|intros; apply Hg|done|]. intros x s1 -> H1. destruct B as [|b B]; [done|].
  pose proof (Hks 0%nat k eq_refl) as Ek. rewrite Nat.add_0_r in Ek. 
  assert (Es : forall y, store (A ++ b :: B) k y = Ret (A ++ y :: B)) by (intros y; unfold store; by rewrite Ek, zget_app_mid, zset_app_mid).
  rewrite Es. apply ew_bind, ew_ret.
  replace (A ++ g k :: B) with ((A ++ [g k]) ++ B) by (by rewrite <- app_assoc).
  eapply ew_mono; [apply (IH (A ++ [g k]) B s1 H1); [|by injection HB]|].
  - intros i k' Hi. rewrite length_app. cbn [length]. rewrite (Hks (S i) k') by done. f_equal. lia.
  - intros r s2 [-> H2]. split; [by rewrite <- app_assoc|done].
Qed.

(** The answers for the twenty processes. *)
Definition todos (g : Z -> Z) : list Z := g <$> seqZ 0 20.

Lemma ew_read_todos get g a v s : (forall k, xcalm (get k) = true /\ forall s, (kernel Z (get k) s).1 = g k) -> during v s -> length a = 20%nat ->
  ew (read_metric get (seqZ 0 20) a) s (fun r s' => r = Returned (todos g) /\ during v s').
Proof using Type.
  intros Hg Hs Ha. apply (ew_read_metric get g (seqZ 0 20) [] a); [done|done| |done].
  intros i k Hi. apply lookup_seqZ in Hi as [-> _]. cbn [length]. lia.
Qed.

Lemma inverso_todo a y q : overhead_fim a = Some q -> Z.of_nat (length a) = y -> inverso y a = Some q.
Proof using Type. intros Eq Hy. unfold inverso. rewrite (proj2 (Z.ltb_ge _ _)), firstn_all2 by lia. done. Qed.

(** ** The measures *)

Ltac say pre post := eapply (ew_say _ (bytes pre) (line post)); [reflexivity|apply (bool_decide_unpack _); by vm_compute|apply (bool_decide_unpack _); by vm_compute|done|].
Ltac alloc n := eapply (ew_xask _ _ (fun x => length x.2 = n)); [done|intros; by apply xk_malloc|done|].
Ltac calm := eapply ew_xcalm; [done|done|].

Lemma ew_vazao p terminos vz v s : length terminos = 20%nat -> vazao_norm terminos = Some vz -> during v s ->
  ew (medir_vazao p terminos) s (fun r s' => r = Returned vz /\ during (said (bytes "vazao normalizada: " ++ dec vz ++ line "e-05") v) s').
Proof using Type.
  intros Hl Hvz Hs. unfold medir_vazao. apply ew_bind. alloc 300%nat. intros [q vazoes] s1 Hn H1. cbn [snd] in Hn.
  assert (Eb : (Z.of_nat (length vazoes) <? 300) = false) by (apply Z.ltb_ge; lia). rewrite Eb, firstn_all2, Hvz by lia. cbn [defined]. apply ew_bind, ew_ret. apply ew_bind. say "vazao normalizada: "%string "e-05"%string. intros s2 H2.
  apply ew_bind. calm. intros [] s3 _ H3. apply ew_bind. calm. intros [] s4 _ H4. by apply ew_ret.
Qed.

Lemma ew_eficiencia y ef v s : 0 < y -> Z.of_nat (length (filter (fun e => 0 <= e) (todos xk_ef))) = y -> eficiencia_fim y (todos xk_ef) = Some ef -> during v s ->
  ew (medir_eficiencia y) s (fun r s' => r = Returned ef /\ during (said (bytes "eficiencia: " ++ dec ef ++ line "e-05") v) s').
Proof using Type.
  intros Hy Hn Hef Hs. unfold medir_eficiencia. apply ew_bind. eapply (ew_xask _ _ (fun x => length x.2 = Z.to_nat y)); [done|intros; by apply xk_malloc|done|].
  intros [q a] s1 Ha H1. cbn [snd] in Ha. apply ew_bind. eapply ew_mono; [apply (ew_read_eficiencias (seqZ 0 20) 0 [] a v s1); [done|done|fold (todos xk_ef); lia]|].
  intros r s2 [-> H2]. cbn [app]. fold (todos xk_ef). unfold eficiencia_fim in Hef. rewrite (proj2 (Z.eqb_eq _ _) Hn) in Hef.
  assert (Ei : inverso y (filter (fun e => 0 <= e) (todos xk_ef)) = Some ef) by (by apply inverso_todo).
  rewrite Ei. cbn [defined]. apply ew_bind, ew_ret. apply ew_bind. say "eficiencia: "%string "e-05"%string. intros s3 H3. apply ew_bind. calm. intros [] s4 _ H4. by apply ew_ret.
Qed.

Lemma ew_overhead ov v s : overhead_fim (todos xk_ov) = Some ov -> during v s ->
  ew medir_overhead s (fun r s' => r = Returned ov /\ during (said (bytes "overhead: " ++ dec ov ++ line "e-05") v) s').
Proof using Type.
  intros Hov Hs. unfold medir_overhead. apply ew_bind. alloc 20%nat. intros [q a] s1 Ha H1. apply ew_bind.
  eapply ew_mono; [apply (ew_read_todos Sget_overhead xk_ov a v s1); [intros k; split; [done|apply xk_get_ov]|done|done]|].
  intros r s2 [-> H2]. rewrite (inverso_todo _ _ _ Hov) by done. cbn [defined]. apply ew_bind, ew_ret. apply ew_bind. say "overhead: "%string "e-05"%string. intros s3 H3.
  apply ew_bind. calm. intros [] s4 _ H4. by apply ew_ret.
Qed.

Lemma ew_justica ju v s : justica_fim (todos xk_ju) = Some ju -> during v s ->
  ew medir_justica s (fun r s' => r = Returned ju /\ during (said (bytes "justica : " ++ dec ju ++ line "e-05") v) s').
Proof using Type.
  intros Hju Hs. unfold medir_justica. apply ew_bind. alloc 20%nat. intros [q a] s1 Ha H1. apply ew_bind.
  eapply ew_mono; [apply (ew_read_todos Sget_justica xk_ju a v s1); [intros k; split; [done|apply xk_get_ju]|done|done]|].
  intros r s2 [-> H2]. rewrite firstn_all2, Hju by done. cbn [defined]. apply ew_bind, ew_ret. apply ew_bind. say "justica : "%string "e-05"%string. intros s3 H3.
  apply ew_bind. calm. intros [] s4 _ H4. by apply ew_ret.
Qed.
(** What round [i] prints. *)
Definition texto (i vz ef ov ju de : Z) : list Z :=
  (bytes "RODADA " ++ dec i ++ line " ======================") ++ (bytes "vazao normalizada: " ++ dec vz ++ line "e-05") ++
  (bytes "eficiencia: " ++ dec ef ++ line "e-05") ++ (bytes "overhead: " ++ dec ov ++ line "e-05") ++
  (bytes "justica : " ++ dec ju ++ line "e-05") ++ (bytes "desempenho: " ++ dec de ++ line "e-05").

Lemma said_said a b v : said a (said b v) = said (b ++ a) v.
Proof using Type. unfold said. cbn. by rewrite <- app_assoc. Qed.

Lemma rodada_inv y terminos efs ovs jus vz ef ov ju de : rodada y terminos efs ovs jus = Some (vz, ef, ov, ju, de) ->
  vazao_norm terminos = Some vz /\ eficiencia_fim y efs = Some ef /\ overhead_fim ovs = Some ov /\ justica_fim jus = Some ju /\ de = desempenho ov ef vz ju.
Proof using Type.
  unfold rodada. destruct (vazao_norm terminos); [|done]. destruct (eficiencia_fim y efs); [|done]. destruct (overhead_fim ovs); [|done].
  destruct (justica_fim jus); [|done]. cbn. intros [= <- <- <- <- <-]. done.
Qed.

Lemma ew_medir i y p terminos vz ef ov ju de v s : 0 < y -> Z.of_nat (length (filter (fun e => 0 <= e) (todos xk_ef))) = y -> length terminos = 20%nat ->
  rodada y terminos (todos xk_ef) (todos xk_ov) (todos xk_ju) = Some (vz, ef, ov, ju, de) -> during v s ->
  ew (medir i y p terminos) s (fun r s' => r = Returned tt /\ during (said (texto i vz ef ov ju de) v) s').
Proof using Type.
  intros Hy Hn Hl Er Hs. apply rodada_inv in Er as (Ev & Ee & Eo & Ej & Ed). unfold medir.
  apply ew_bind. say "RODADA "%string " ======================"%string. intros s1 H1. apply ew_bind. eapply ew_mono; [by eapply ew_vazao|]. intros b s2 [-> H2].
  apply ew_bind. eapply ew_mono; [by eapply (ew_eficiencia y)|]. intros b s3 [-> H3]. apply ew_bind. eapply ew_mono; [by eapply ew_overhead|]. intros b s4 [-> H4].
  apply ew_bind. eapply ew_mono; [by eapply ew_justica|]. intros b s5 [-> H5]. rewrite <- Ed. say "desempenho: "%string "e-05"%string. intros s6 H6.
  split; [done|]. rewrite !said_said in H6. unfold texto. rewrite !app_assoc in *. exact H6.
Qed.
End Round.

Lemma cpu_count_range r : 6 <= cpu_count r <= 14.
Proof. unfold cpu_count. pose proof (Z.mod_pos_bound r 9 ltac:(lia)). lia. Qed.


(** ** A kernel to run on

    Each call takes a tick until the clock stops at 2000; children are waited for in order. *)
Record xkern := XKern { w_view : xview; w_time : Z }.
Definition w_clock (s : xkern) : Z := Z.min (Z.max 0 (w_time s)) 2000.
Definition w_ok (s : xkern) : Prop := 0 <= w_time s /\ Forall (fun b => b <= w_clock s) (x_kids (w_view s)).
Definition w_step (v : xview) (s : xkern) : xkern := XKern v (w_time s + 1).
Definition w_ef (k : Z) : Z := if k <? cpu_count (do_rand 7) then -1 else 5.

Definition round_kernel (X : Type) (e : sysE X) (s : xkern) : X * xkern :=
  let v := w_view s in
  let same := w_step v s in
  match e in sysE X return X * xkern with
  | Suptime_nolock => (w_clock s, same)
  | Lmalloc n _ => ((4096, replicate (Z.to_nat n) 0), same)
  | Lfree _ => (tt, same)
  | Sfork => (5, w_step (XView (x_out v) (x_types v) (x_kids v ++ [w_clock s])) s)
  | Swait => match x_kids v with [] => (-1, same) | _ :: kids => (5, w_step (XView (x_out v) (x_types v) kids) s) end
  | Sset_type type pid => (0, w_step (XView (x_out v) (x_types v ++ [(type, pid)]) (x_kids v)) s)
  | Swrite fd bs => (Z.of_nat (length bs), w_step (XView (if fd =? 1 then x_out v ++ bs else x_out v) (x_types v) (x_kids v)) s)
  | Sget_eficiencia k => (w_ef k, same)
  | Sget_overhead _ => (3, same)
  | Sget_justica _ => (10, same)
  | Sread _ _ => ((-1, []), same)
  | Spipe => (None, same)
  | Sfstat _ => (None, same)
  | Sopen _ _ | Sclose _ | Sunlink _ | Skill _ | Sexec _ _ | Smknod _ _ _ | Slink _ _ | Smkdir _ | Schdir _ | Sdup _ | Sgetpid | Ssbrk _ | Ssleep _ | Suptime
  | Sinitialize_metrics | Sincrement_metric _ _ _ | Sset_justica _ _ | Stempo_total _ => (0, same)
  | Swaits => ((0, 0), same)
  | Pwrite _ _ _ | Pread _ _ _ | Ppipe _ | Popen _ _ | Punlink _ | Plink _ _ | Pexec _ _ => (-1, same)
  | Mload _ _ => (None, same)
  | Mstore _ _ _ => (false, same)
  end.

Lemma round_time X (e : sysE X) s : w_time (round_kernel X e s).2 = w_time s + 1.
Proof. by destruct e; cbn; try destruct (x_kids (w_view s)). Qed.

Lemma round_ok X (e : sysE X) s : w_ok s -> w_ok (round_kernel X e s).2.
Proof.
  intros [Ht Hk]. split; [rewrite round_time; lia|]. assert (Hc : w_clock s <= w_clock (round_kernel X e s).2) by (unfold w_clock; rewrite round_time; lia).
  assert (Hk' : Forall (fun b => b <= w_clock (round_kernel X e s).2) (x_kids (w_view s))) by (eapply list.Forall_impl; [exact Hk|cbn; lia]).
  destruct e; try exact Hk'; cbn in *.
  - apply Forall_app. split; [done|]. constructor; [done|constructor].
  - destruct (x_kids (w_view s)) as [|b kids] eqn:Ek; cbn; [by rewrite Ek|]. by inversion Hk'.
Qed.

#[export, program] Instance round_run_kernel : RunKernel round_kernel :=
  {| xk_ok := w_ok; xk_view := w_view; xk_clock := w_clock; xk_end _ := 2000; xk_ef := w_ef; xk_ov _ := 3; xk_ju _ := 10 |}.
Next Obligation. intros s. unfold w_clock. lia. Qed.
Next Obligation. exact round_ok. Qed.
Next Obligation. intros X e s. unfold w_clock. rewrite round_time. split; [lia|done]. Qed.
Next Obligation. done. Qed.
Next Obligation. by intros X []. Qed.
Next Obligation. intros n size s Hn. cbn. by rewrite length_replicate. Qed.
Next Obligation. done. Qed.
Next Obligation.
  intros s [Ht Hk] Hne. cbn in *. destruct (x_kids (w_view s)) as [|b kids] eqn:Ek; [done|]. split; [done|]. exists b, kids. split_and!; [done| |done].
  apply Forall_cons_1 in Hk as [Hb _]. unfold w_clock in *. cbn. lia.
Qed.
Next Obligation. done. Qed.
Next Obligation. done. Qed.
Next Obligation. done. Qed.
Next Obligation. done. Qed.
Next Obligation. done. Qed.

