(* ===== verification/UserTests.v ===== *)
(** * user/usertests.c: the first tests

    Each test is a tree of system calls (Sys.v) in the process that [run] starts for it; the
    test fails when the process exits with a status other than 0.  The array [buf] of the
    program is zero at the start of each test, since only the children write to it.  Pointers
    that the tests make up are arguments of the calls that take an address. *)

From Stdlib Require Import ZArith Lia.
From stdpp Require Import base list strings numbers.
From ITree Require Import ITree.
From S2P Require Import Prelude Blocks Log Kernel Riscv Args Exec Sysfile UPrintf Fs Ulib Sh Sys UserMain.

Definition BUFSZ : Z := (MAXOPBLOCKS + 2) * BSIZE.
Definition buf : list Z := replicate (Z.to_nat BUFSZ) 0.

(** [if(bad){ printf(fmt, ap...); exit(1); }] *)
Definition oops (bad : bool) (fmt : list Z) (ap : list varg) : prog unit :=
  if bad then printf fmt ap ;! exit 1 else Ret tt.
Abbreviation open p m := (sys (Sopen (bytes p) m)).
Abbreviation unlink p := (sys (Sunlink (bytes p))).
Abbreviation close fd := (sys (Sclose fd)).
Abbreviation CREATE_W := (Z.lor O_CREATE O_WRONLY).
Abbreviation CREATE_RW := (Z.lor O_CREATE O_RDWR).

(** [fork] that must succeed, and [int st = init; wait(&st);]. *)
Definition fork_or (fmt : list Z) (ap : list varg) : prog Z :=
  let! pid := sys Sfork in oops (pid <? 0) fmt ap ;! Ret pid.
Definition wait_st (init : Z) : prog Z :=
  let! '(pid, st) := sys Swaits in Ret (if pid <? 0 then init else st).
(** [int xstatus; wait(&xstatus);] *)
Definition wait_xstatus : prog Z := let! '(_, xstatus) := sys Swaits in Ret xstatus.
Definition pipe_or (fmt : list Z) (ap : list varg) : prog (Z * Z) :=
  let! o := sys Spipe in match o with Some p => Ret p | None => printf fmt ap ;! exit 1 end.

(** [printf("%s", p)] of the string at an address. *)
Definition print_at (addr : Z) : prog unit :=
  ITree.iter (fun a => let! c := load a 1 in if c =? 0 then Ret (inr tt) else sys (Swrite 1 [c]) ;! Ret (inl (a + 1))) addr.

(** ** Bad pointers *)

Definition bad_addrs : list Z := [0x80000000; 0x3fffffe000; 0x3ffffff000; 0x4000000000; 0xffffffffffffffff].

Definition copyin (s : list Z) : prog unit :=
  for_each bad_addrs (fun addr =>
    let! fd := open "copyin1" CREATE_W in
    oops (fd <? 0) (line "open(copyin1) failed") [] ;!
    let! n := sys (Pwrite fd addr 8192) in
    oops (0 <=? n) (line "write(fd, %p, 8192) returned %d, not -1") [VInt addr; VInt n] ;!
    close fd ;!
    unlink "copyin1" ;!
    let! n := sys (Pwrite 1 addr 8192) in
    oops (0 <? n) (line "write(1, %p, 8192) returned %d, not -1 or 0") [VInt addr; VInt n] ;!
    let! '(fds0, fds1) := pipe_or (line "pipe() failed") [] in
    let! n := sys (Pwrite fds1 addr 8192) in
    oops (0 <? n) (line "write(pipe, %p, 8192) returned %d, not -1 or 0") [VInt addr; VInt n] ;!
    close fds0 ;!
    close fds1 ;!
    Ret tt).

Definition copyout (s : list Z) : prog unit :=
  for_each (0 :: bad_addrs) (fun addr =>
    let! fd := open "README" 0 in
    oops (fd <? 0) (line "open(README) failed") [] ;!
    let! n := sys (Pread fd addr 8192) in
    oops (0 <? n) (line "read(fd, %p, 8192) returned %d, not -1 or 0") [VInt addr; VInt n] ;!
    close fd ;!
    let! '(fds0, fds1) := pipe_or (line "pipe() failed") [] in
    let! n := sys (Swrite fds1 (bytes "x")) in
    oops (negb (n =? 1)) (line "pipe write failed") [] ;!
    let! n := sys (Pread fds0 addr 8192) in
    oops (0 <? n) (line "read(pipe, %p, 8192) returned %d, not -1 or 0") [VInt addr; VInt n] ;!
    close fds0 ;!
    close fds1 ;!
    Ret tt).

Definition copyinstr1 (s : list Z) : prog unit :=
  for_each bad_addrs (fun addr =>
    let! fd := sys (Popen (At addr) CREATE_W) in
    oops (0 <=? fd) (line "open(%p) returned %d, not -1") [VInt addr; VInt fd]).

Definition copyinstr2 (s : list Z) : prog unit :=
  let b := replicate (Z.to_nat MAXPATH) 120 in
  let! ret := sys (Sunlink b) in
  oops (negb (ret =? -1)) (line "unlink(%s) returned %d, not -1") [str b; VInt ret] ;!
  let! fd := sys (Sopen b CREATE_W) in
  oops (negb (fd =? -1)) (line "open(%s) returned %d, not -1") [str b; VInt fd] ;!
  let! ret := sys (Slink b b) in
  oops (negb (ret =? -1)) (line "link(%s, %s) returned %d, not -1") [str b; str b; VInt ret] ;!
  let! ret := sys (Sexec b [bytes "xx"]) in
  oops (negb (ret =? -1)) (line "exec(%s) returned %d, not -1") [str b; VInt fd] ;!
  let! pid := fork_or (line "fork failed") [] in
  if pid =? 0 then
    let big := replicate (Z.to_nat PGSIZE) 120 in
    let! ret := sys (Sexec (bytes "echo") [big; big; big]) in
    oops (negb (ret =? -1)) (line "exec(echo, BIG) returned %d, not -1") [VInt fd] ;!
    exit 747
  else
    let! st := wait_st 0 in
    oops (negb (st =? 747)) (line "exec(echo, BIG) succeeded, should have failed") [].

Definition copyinstr3 (s : list Z) : prog unit :=
  sys (Ssbrk 8192) ;!
  let! top := sys (Ssbrk 0) in
  (if negb (top mod PGSIZE =? 0) then sys (Ssbrk (PGSIZE - top mod PGSIZE)) ;! Ret tt else Ret tt) ;!
  let! top := sys (Ssbrk 0) in
  oops (negb (top mod PGSIZE =? 0)) (line "oops") [] ;!
  let b := u64 (top - 1) in
  store_at b 1 120 ;!
  let! ret := sys (Punlink (At b)) in
  (if negb (ret =? -1) then
     printf (bytes "unlink(") [] ;! print_at b ;! printf (line ") returned %d, not -1") [VInt ret] ;! exit 1
   else Ret tt) ;!
  let! fd := sys (Popen (At b) CREATE_W) in
  (if negb (fd =? -1) then
     printf (bytes "open(") [] ;! print_at b ;! printf (line ") returned %d, not -1") [VInt fd] ;! exit 1
   else Ret tt) ;!
  let! ret := sys (Plink (At b) (At b)) in
  (if negb (ret =? -1) then
     printf (bytes "link(") [] ;! print_at b ;! printf (bytes ", ") [] ;! print_at b ;!
     printf (line ") returned %d, not -1") [VInt ret] ;! exit 1
   else Ret tt) ;!
  let! ret := sys (Pexec (At b) [Str (bytes "xx")]) in
  if negb (ret =? -1) then
    printf (bytes "exec(") [] ;! print_at b ;! printf (line ") returned %d, not -1") [VInt fd] ;! exit 1
  else Ret tt.

Definition rwsbrk (s : list Z) : prog unit :=
  let! a := sys (Ssbrk 8192) in
  oops (a =? 0xffffffffffffffff) (line "sbrk(rwsbrk) failed") [] ;!
  let! r := sys (Ssbrk (-8192)) in
  oops (r =? 0xffffffffffffffff) (line "sbrk(rwsbrk) shrink failed") [] ;!
  let! fd := open "rwsbrk" CREATE_W in
  oops (fd <? 0) (line "open(rwsbrk) failed") [] ;!
  let! n := sys (Pwrite fd (u64 (a + 4096)) 1024) in
  oops (0 <=? n) (line "write(fd, %p, 1024) returned %d, not -1") [VInt (u64 (a + 4096)); VInt n] ;!
  close fd ;!
  unlink "rwsbrk" ;!
  let! fd := open "README" O_RDONLY in
  oops (fd <? 0) (line "open(rwsbrk) failed") [] ;!
  let! n := sys (Pread fd (u64 (a + 4096)) 10) in
  oops (0 <=? n) (line "read(fd, %p, 10) returned %d, not -1") [VInt (u64 (a + 4096)); VInt n] ;!
  close fd ;!
  exit 0.

(** ** Truncation *)

Definition truncate1 (s : list Z) : prog unit :=
  unlink "truncfile" ;!
  let! fd1 := open "truncfile" (Z.lor CREATE_W O_TRUNC) in
  sys (Swrite fd1 (bytes "abcd")) ;!
  close fd1 ;!
  let! fd2 := open "truncfile" O_RDONLY in
  let! '(n, _) := sys (Sread fd2 32) in
  oops (negb (n =? 4)) (line "%s: read %d bytes, wanted 4") [str s; VInt n] ;!
  let! fd1 := open "truncfile" (Z.lor O_WRONLY O_TRUNC) in
  let! fd3 := open "truncfile" O_RDONLY in
  let! '(n, _) := sys (Sread fd3 32) in
  (if negb (n =? 0) then
     printf (line "aaa fd3=%d") [VInt fd3] ;! printf (line "%s: read %d bytes, wanted 0") [str s; VInt n] ;! exit 1
   else Ret tt) ;!
  let! '(n, _) := sys (Sread fd2 32) in
  (if negb (n =? 0) then
     printf (line "bbb fd2=%d") [VInt fd2] ;! printf (line "%s: read %d bytes, wanted 0") [str s; VInt n] ;! exit 1
   else Ret tt) ;!
  sys (Swrite fd1 (bytes "abcdef")) ;!
  let! '(n, _) := sys (Sread fd3 32) in
  oops (negb (n =? 6)) (line "%s: read %d bytes, wanted 6") [str s; VInt n] ;!
  let! '(n, _) := sys (Sread fd2 32) in
  oops (negb (n =? 2)) (line "%s: read %d bytes, wanted 2") [str s; VInt n] ;!
  unlink "truncfile" ;!
  close fd1 ;!
  close fd2 ;!
  close fd3 ;!
  Ret tt.

Definition truncate2 (s : list Z) : prog unit :=
  unlink "truncfile" ;!
  let! fd1 := open "truncfile" (Z.lor CREATE_W O_TRUNC) in
  sys (Swrite fd1 (bytes "abcd")) ;!
  let! fd2 := open "truncfile" (Z.lor O_TRUNC O_WRONLY) in
  let! n := sys (Swrite fd1 (bytes "x")) in
  oops (negb (n =? -1)) (line "%s: write returned %d, expected -1") [str s; VInt n] ;!
  unlink "truncfile" ;!
  close fd1 ;!
  close fd2 ;!
  Ret tt.

Definition truncate3 (s : list Z) : prog unit :=
  let! fd := open "truncfile" (Z.lor CREATE_W O_TRUNC) in
  close fd ;!
  let! pid := fork_or (line "%s: fork failed") [str s] in
  if pid =? 0 then
    for_each (seq 0 100) (fun _ =>
      let! fd := open "truncfile" O_WRONLY in
      oops (fd <? 0) (line "%s: open failed") [str s] ;!
      let! n := sys (Swrite fd (bytes "1234567890")) in
      oops (negb (n =? 10)) (line "%s: write got %d, expected 10") [str s; VInt n] ;!
      close fd ;!
      let! fd := open "truncfile" O_RDONLY in
      sys (Sread fd 32) ;!
      close fd ;!
      Ret tt) ;!
    exit 0
  else
    for_each (seq 0 150) (fun _ =>
      let! fd := open "truncfile" (Z.lor CREATE_W O_TRUNC) in
      oops (fd <? 0) (line "%s: open failed") [str s] ;!
      let! n := sys (Swrite fd (bytes "xxx")) in
      oops (negb (n =? 3)) (line "%s: write got %d, expected 3") [str s; VInt n] ;!
      close fd ;!
      Ret tt) ;!
    let! xstatus := wait_xstatus in
    unlink "truncfile" ;!
    exit xstatus.

(** ** Directories and simple files *)

Definition iputtest (s : list Z) : prog unit :=
  let! r := sys (Smkdir (bytes "iputdir")) in
  oops (r <? 0) (line "%s: mkdir failed") [str s] ;!
  let! r := sys (Schdir (bytes "iputdir")) in
  oops (r <? 0) (line "%s: chdir iputdir failed") [str s] ;!
  let! r := unlink "../iputdir" in
  oops (r <? 0) (line "%s: unlink ../iputdir failed") [str s] ;!
  let! r := sys (Schdir (bytes "/")) in
  oops (r <? 0) (line "%s: chdir / failed") [str s].

Definition exitiputtest (s : list Z) : prog unit :=
  let! pid := fork_or (line "%s: fork failed") [str s] in
  if pid =? 0 then
    let! r := sys (Smkdir (bytes "iputdir")) in
    oops (r <? 0) (line "%s: mkdir failed") [str s] ;!
    let! r := sys (Schdir (bytes "iputdir")) in
    oops (r <? 0) (line "%s: child chdir failed") [str s] ;!
    let! r := unlink "../iputdir" in
    oops (r <? 0) (line "%s: unlink ../iputdir failed") [str s] ;!
    exit 0
  else
    let! xstatus := wait_xstatus in
    exit xstatus.

Definition openiputtest (s : list Z) : prog unit :=
  let! r := sys (Smkdir (bytes "oidir")) in
  oops (r <? 0) (line "%s: mkdir oidir failed") [str s] ;!
  let! pid := fork_or (line "%s: fork failed") [str s] in
  if pid =? 0 then
    let! fd := open "oidir" O_RDWR in
    oops (0 <=? fd) (line "%s: open directory for write succeeded") [str s] ;!
    exit 0
  else
    sys (Ssleep 1) ;!
    let! r := unlink "oidir" in
    oops (negb (r =? 0)) (line "%s: unlink failed") [str s] ;!
    let! xstatus := wait_xstatus in
    exit xstatus.

Definition opentest (s : list Z) : prog unit :=
  let! fd := open "echo" 0 in
  oops (fd <? 0) (line "%s: open echo failed!") [str s] ;!
  close fd ;!
  let! fd := open "doesnotexist" 0 in
  oops (0 <=? fd) (line "%s: open doesnotexist succeeded!") [str s].

Definition writetest (s : list Z) : prog unit :=
  let! fd := open "small" CREATE_RW in
  oops (fd <? 0) (line "%s: error: creat small failed!") [str s] ;!
  for_each (seqZ 0 100) (fun i =>
    let! r := sys (Swrite fd (bytes "aaaaaaaaaa")) in
    oops (negb (r =? 10)) (line "%s: error: write aa %d new file failed") [str s; VInt i] ;!
    let! r := sys (Swrite fd (bytes "bbbbbbbbbb")) in
    oops (negb (r =? 10)) (line "%s: error: write bb %d new file failed") [str s; VInt i]) ;!
  close fd ;!
  let! fd := open "small" O_RDONLY in
  oops (fd <? 0) (line "%s: error: open small failed!") [str s] ;!
  let! '(i, _) := sys (Sread fd 2000) in
  oops (negb (i =? 2000)) (line "%s: read failed") [str s] ;!
  close fd ;!
  let! r := unlink "small" in
  oops (r <? 0) (line "%s: unlink small failed") [str s].

(** A turn of the loop that writes, and of the loop that reads the blocks back: [n] blocks so far, the buffer is [b]. *)
Definition writebig_write (s : list Z) (fd i : Z) : prog unit :=
  let! r := sys (Swrite fd (take (Z.to_nat BSIZE) (set32 buf 0 i))) in
  oops (negb (r =? BSIZE)) (line "%s: error: write big file failed i=%d") [str s; VInt i].
Definition writebig_read (s : list Z) (fd : Z) (st : Z * list Z) : prog (Z * list Z + unit) :=
  let '(n, b) := st in
  let! '(i, bs) := sys (Sread fd BSIZE) in
  if i =? 0 then
    oops (negb (n =? MAXFILE)) (bytes "%s: read only %d blocks from big") [str s; VInt n] ;! Ret (inr tt)
  else
    oops (negb (i =? BSIZE)) (line "%s: read failed %d") [str s; VInt i] ;!
    let b := put_bytes b 0 bs in
    let got := i32 (get32 b 0) in
    oops (negb (got =? n)) (line "%s: read content of block %d is %d") [str s; VInt n; VInt got] ;!
    Ret (inl (n + 1, b)).

Definition writebig (s : list Z) : prog unit :=
  let! fd := open "big" CREATE_RW in
  oops (fd <? 0) (line "%s: error: creat big failed!") [str s] ;!
  for_each (seqZ 0 MAXFILE) (writebig_write s fd) ;!
  close fd ;!
  let! fd := open "big" O_RDONLY in
  oops (fd <? 0) (line "%s: error: open big failed!") [str s] ;!
  ITree.iter (writebig_read s fd) (0, buf) ;!
  close fd ;!
  let! r := unlink "big" in
  oops (r <? 0) (line "%s: unlink big failed") [str s].

Definition createtest (s : list Z) : prog unit :=
  for_each (seqZ 0 52) (fun i =>
    let! fd := sys (Sopen [97; 48 + i] CREATE_RW) in
    close fd ;!
    Ret tt) ;!
  for_each (seqZ 0 52) (fun i => sys (Sunlink [97; 48 + i]) ;! Ret tt).

Definition dirtest (s : list Z) : prog unit :=
  let! r := sys (Smkdir (bytes "dir0")) in
  oops (r <? 0) (line "%s: mkdir failed") [str s] ;!
  let! r := sys (Schdir (bytes "dir0")) in
  oops (r <? 0) (line "%s: chdir dir0 failed") [str s] ;!
  let! r := sys (Schdir (bytes "..")) in
  oops (r <? 0) (line "%s: chdir .. failed") [str s] ;!
  let! r := unlink "dir0" in
  oops (r <? 0) (line "%s: unlink dir0 failed") [str s].

Definition exectest (s : list Z) : prog unit :=
  unlink "echo-ok" ;!
  let! pid := fork_or (line "%s: fork failed") [str s] in
  (if pid =? 0 then
     close 1 ;!
     let! fd := open "echo-ok" CREATE_W in
     oops (fd <? 0) (line "%s: create failed") [str s] ;!
     oops (negb (fd =? 1)) (line "%s: wrong fd") [str s] ;!
     let! r := sys (Sexec (bytes "echo") [bytes "echo"; bytes "OK"]) in
     oops (r <? 0) (line "%s: exec echo failed") [str s]
   else Ret tt) ;!
  let! '(w, xstatus) := sys Swaits in
  (if negb (w =? pid) then printf (line "%s: wait failed!") [str s] else Ret tt) ;!
  if negb (xstatus =? 0) then exit xstatus
  else
    let! fd := open "echo-ok" O_RDONLY in
    oops (fd <? 0) (line "%s: open failed") [str s] ;!
    let! '(n, bs) := sys (Sread fd 2) in
    oops (negb (n =? 2)) (line "%s: read failed") [str s] ;!
    unlink "echo-ok" ;!
    if (byte_at bs 0 =? 79) && (byte_at bs 1 =? 75) then exit 0
    else printf (line "%s: wrong output") [str s] ;! exit 1.

(** ** Processes and pipes *)

(** The child of [pipe1]: five pieces of bytes that count up. *)
Definition pipe1_child (s : list Z) (fds1 : Z) : prog unit :=
  for_each (seqZ 0 5) (fun n =>
    let! r := sys (Swrite fds1 ((fun i => u8 (n * 1033 + i)) <$> seqZ 0 1033)) in
    oops (negb (r =? 1033)) (line "%s: pipe1 oops 1") [str s]).

(** The loop of the parent: [None] when a byte is wrong. *)
Definition pipe1_parent (s : list Z) (fds0 : Z) : prog (option Z) :=
  ITree.iter (fun '(seq, total, cc, b) =>
    let! '(n, bs) := sys (Sread fds0 cc) in
    if 0 <? n then
      let b := put_bytes b 0 bs in
      if forallb (fun i => u8 (byte_at b i) =? u8 (seq + i)) (seqZ 0 n) then
        let cc := cc * 2 in
        Ret (inl (seq + n, i32 (total + n), if BUFSZ <? cc then BUFSZ else cc, b))
      else printf (line "%s: pipe1 oops 2") [str s] ;! Ret (inr None)
    else Ret (inr (Some total))) (0, 0, 1, buf).

Definition pipe1 (s : list Z) : prog unit :=
  let! '(fds0, fds1) := pipe_or (line "%s: pipe() failed") [str s] in
  let! pid := sys Sfork in
  if pid =? 0 then
    close fds0 ;!
    pipe1_child s fds1 ;!
    exit 0
  else if 0 <? pid then
    close fds1 ;!
    let! r := pipe1_parent s fds0 in
    match r with
    | None => Ret tt
    | Some total =>
      oops (negb (total =? 5 * 1033)) (line "%s: pipe1 oops 3 total %d") [str s; VInt total] ;!
      close fds0 ;!
      let! xstatus := wait_xstatus in
      exit xstatus
    end
  else printf (line "%s: fork() failed") [str s] ;! exit 1.

Definition killstatus (s : list Z) : prog unit :=
  for_each (seq 0 100) (fun _ =>
    let! pid1 := fork_or (line "%s: fork failed") [str s] in
    if pid1 =? 0 then forever (sys Sgetpid ;! Ret tt)
    else
      sys (Ssleep 1) ;!
      sys (Skill pid1) ;!
      let! xst := wait_xstatus in
      oops (negb (xst =? -1)) (line "%s: status should be -1") [str s]) ;!
  exit 0.

Definition preempt (s : list Z) : prog unit :=
  let! pid1 := fork_or (bytes "%s: fork failed") [str s] in
  if pid1 =? 0 then forever (Ret tt) else
  let! pid2 := fork_or (line "%s: fork failed") [str s] in
  if pid2 =? 0 then forever (Ret tt) else
  let! o := sys Spipe in
  let! '(pfds0, pfds1) := defined o in
  let! pid3 := fork_or (line "%s: fork failed") [str s] in
  if pid3 =? 0 then
    close pfds0 ;!
    let! r := sys (Swrite pfds1 (bytes "x")) in
    (if negb (r =? 1) then printf (bytes "%s: preempt write error") [str s] else Ret tt) ;!
    close pfds1 ;!
    forever (Ret tt)
  else
    close pfds1 ;!
    let! '(n, _) := sys (Sread pfds0 BUFSZ) in
    if negb (n =? 1) then printf (bytes "%s: preempt read error") [str s]
    else
      close pfds0 ;!
      printf (bytes "kill... ") [] ;!
      sys (Skill pid1) ;!
      sys (Skill pid2) ;!
      sys (Skill pid3) ;!
      printf (bytes "wait... ") [] ;!
      sys Swait ;!
      sys Swait ;!
      sys Swait ;!
      Ret tt.

Definition exitwait (s : list Z) : prog unit :=
  for_each (seqZ 0 100) (fun i =>
    let! pid := fork_or (line "%s: fork failed") [str s] in
    if negb (pid =? 0) then
      let! '(w, xstate) := sys Swaits in
      oops (negb (w =? pid)) (line "%s: wait wrong pid") [str s] ;!
      oops (negb (i =? xstate)) (line "%s: wait wrong exit status") [str s]
    else exit i).

Definition reparent (s : list Z) : prog unit :=
  let! master_pid := sys Sgetpid in
  for_each (seq 0 200) (fun _ =>
    let! pid := fork_or (line "%s: fork failed") [str s] in
    if negb (pid =? 0) then
      let! w := sys Swait in
      oops (negb (w =? pid)) (line "%s: wait wrong pid") [str s]
    else
      let! pid2 := sys Sfork in
      if pid2 <? 0 then sys (Skill master_pid) ;! exit 1 else exit 0) ;!
  exit 0.

Definition twochildren (s : list Z) : prog unit :=
  for_each (seq 0 1000) (fun _ =>
    let! pid1 := fork_or (line "%s: fork failed") [str s] in
    if pid1 =? 0 then exit 0
    else
      let! pid2 := fork_or (line "%s: fork failed") [str s] in
      if pid2 =? 0 then exit 0
      else sys Swait ;! sys Swait ;! Ret tt).

Definition forkfork (s : list Z) : prog unit :=
  for_each (seq 0 2) (fun _ =>
    let! pid := fork_or (bytes "%s: fork failed") [str s] in
    if pid =? 0 then
      for_each (seq 0 200) (fun _ =>
        let! pid1 := sys Sfork in
        if pid1 <? 0 then exit 1
        else if pid1 =? 0 then exit 0
        else sys Swait ;! Ret tt) ;!
      exit 0
    else Ret tt) ;!
  for_each (seq 0 2) (fun _ =>
    let! xstatus := wait_xstatus in
    oops (negb (xstatus =? 0)) (bytes "%s: fork in child failed") [str s]).

Definition forkforkfork (s : list Z) : prog unit :=
  unlink "stopforking" ;!
  let! pid := fork_or (bytes "%s: fork failed") [str s] in
  if pid =? 0 then
    forever (
      let! fd := open "stopforking" 0 in
      if 0 <=? fd then exit 0
      else
        let! r := sys Sfork in
        if r <? 0 then let! fd := open "stopforking" CREATE_RW in close fd ;! Ret tt
        else Ret tt)
  else
    sys (Ssleep 20) ;!
    let! fd := open "stopforking" CREATE_RW in
    close fd ;!
    sys Swait ;!
    sys (Ssleep 10) ;!
    Ret tt.

Definition reparent2 (s : list Z) : prog unit :=
  for_each (seq 0 800) (fun _ =>
    let! pid1 := fork_or (line "fork failed") [] in
    if pid1 =? 0 then sys Sfork ;! sys Sfork ;! exit 0
    else sys Swait ;! Ret tt) ;!
  exit 0.

(** The child of [mem]: the blocks are a list linked through their first words. *)
Definition mem_alloc : prog Z :=
  ITree.iter (fun m1 =>
    let! '(m2, _) := sys (Lmalloc 10001 1) in
    if m2 =? 0 then Ret (inr m1) else store_at m2 8 m1 ;! Ret (inl m2)) 0.
Definition mem_free (m1 : Z) : prog unit :=
  ITree.iter (fun m1 =>
    if m1 =? 0 then Ret (inr tt)
    else let! m2 := load m1 8 in sys (Lfree m1) ;! Ret (inl m2)) m1.

Definition mem (s : list Z) : prog unit :=
  let! pid := sys Sfork in
  if pid =? 0 then
    let! m1 := mem_alloc in
    mem_free m1 ;!
    let! '(m1, _) := sys (Lmalloc (1024 * 20) 1) in
    oops (m1 =? 0) (line "%s: couldn't allocate mem?!!") [str s] ;!
    sys (Lfree m1) ;!
    exit 0
  else
    let! xstatus := wait_xstatus in
    if xstatus =? -1 then exit 0 else exit xstatus.
