(* ===== verification/UserTests2.v ===== *)
(** * user/usertests.c: files and directories, memory, the slow tests and the driver

    The tests from [sharedfd] on, with the conventions of UserTests.v, the two tables, and the
    part of the program that runs them. *)

From Stdlib Require Import ZArith Lia.
From stdpp Require Import base list strings numbers.
From ITree Require Import ITree.
From S2P Require Import Prelude Blocks Log Kernel Riscv Args Exec Sysfile UPrintf Fs Ulib Sh Sys UserMain UserTests.

(** Reads of [n] bytes into a buffer until there is nothing to read; [f] sees each buffer and the number of bytes. *)
Definition read_all {A} (fd n : Z) (b : list Z) (a : A) (f : A -> Z -> list Z -> prog A) : prog A :=
  ITree.iter (fun '(a, b) =>
    let! '(n, bs) := sys (Sread fd n) in
    if 0 <? n then
      let b := put_bytes b 0 bs in
      let! a := f a n b in Ret (inl (a, b))
    else Ret (inr a)) (a, b).

Definition sharedfd (s : list Z) : prog unit :=
  unlink "sharedfd" ;!
  let! fd := open "sharedfd" CREATE_RW in
  oops (fd <? 0) (bytes "%s: cannot open sharedfd for writing") [str s] ;!
  let! pid := sys Sfork in
  let b := replicate 10 (if pid =? 0 then 99 else 112) in
  for_each (seq 0 1000) (fun _ =>
    let! r := sys (Swrite fd b) in
    oops (negb (r =? 10)) (line "%s: write sharedfd failed") [str s]) ;!
  if pid =? 0 then exit 0
  else
    let! xstatus := wait_xstatus in
    if negb (xstatus =? 0) then exit xstatus
    else
      close fd ;!
      let! fd := open "sharedfd" 0 in
      oops (fd <? 0) (line "%s: cannot open sharedfd for reading") [str s] ;!
      let! '(nc, np) := read_all fd 10 b (0, 0) (fun '(nc, np) _ b =>
        Ret (i32 (nc + Z.of_nat (length (filter (fun c => c = 99) b))), i32 (np + Z.of_nat (length (filter (fun c => c = 112) b))))) in
      close fd ;!
      unlink "sharedfd" ;!
      if (nc =? 10000) && (np =? 10000) then exit 0
      else printf (line "%s: nc/np test fails") [str s] ;! exit 1.

Definition four_names : list (list Z) := [bytes "f0"; bytes "f1"; bytes "f2"; bytes "f3"].

Definition fourfiles (s : list Z) : prog unit :=
  for_each (imap (fun pi fname => (Z.of_nat pi, fname)) four_names) (fun '(pi, fname) =>
    sys (Sunlink fname) ;!
    let! pid := fork_or (line "%s: fork failed") [str s] in
    if pid =? 0 then
      let! fd := sys (Sopen fname CREATE_RW) in
      oops (fd <? 0) (line "%s: create failed") [str s] ;!
      for_each (seq 0 12) (fun _ =>
        let! n := sys (Swrite fd (replicate 500 (48 + pi))) in
        oops (negb (n =? 500)) (line "write failed %d") [VInt n]) ;!
      exit 0
    else Ret tt) ;!
  for_each (seq 0 4) (fun _ =>
    let! xstatus := wait_xstatus in
    if negb (xstatus =? 0) then exit xstatus else Ret tt) ;!
  fold_each (imap (fun i fname => (Z.of_nat i, fname)) four_names) buf (fun b '(i, fname) =>
    let! fd := sys (Sopen fname 0) in
    let! '(total, b) := read_all fd BUFSZ b (0, b) (fun '(total, _) n b =>
      oops (negb (forallb (fun j => byte_at b j =? 48 + i) (seqZ 0 n))) (line "%s: wrong char") [str s] ;!
      Ret (i32 (total + n), b)) in
    close fd ;!
    oops (negb (total =? 12 * 500)) (line "wrong length %d") [VInt total] ;!
    sys (Sunlink fname) ;!
    Ret b) ;!
  Ret tt.

Definition createdelete (s : list Z) : prog unit :=
  for_each (seqZ 0 4) (fun pi =>
    let! pid := fork_or (line "%s: fork failed") [str s] in
    if pid =? 0 then
      for_each (seqZ 0 20) (fun i =>
        let! fd := sys (Sopen [112 + pi; 48 + i] CREATE_RW) in
        oops (fd <? 0) (line "%s: create failed") [str s] ;!
        close fd ;!
        if (0 <? i) && (i mod 2 =? 0) then
          let! r := sys (Sunlink [112 + pi; 48 + i / 2]) in
          oops (r <? 0) (line "%s: unlink failed") [str s]
        else Ret tt) ;!
      exit 0
    else Ret tt) ;!
  for_each (seq 0 4) (fun _ =>
    let! xstatus := wait_xstatus in
    if negb (xstatus =? 0) then exit 1 else Ret tt) ;!
  for_each (seqZ 0 20) (fun i => for_each (seqZ 0 4) (fun pi =>
    let name := [112 + pi; 48 + i] in
    let! fd := sys (Sopen name 0) in
    (if ((i =? 0) || (20 / 2 <=? i)) && (fd <? 0) then
       printf (line "%s: oops createdelete %s didn't exist") [str s; str name] ;! exit 1
     else if ((1 <=? i) && (i <? 20 / 2)) && (0 <=? fd) then
       printf (line "%s: oops createdelete %s did exist") [str s; str name] ;! exit 1
     else Ret tt) ;!
    if 0 <=? fd then close fd ;! Ret tt else Ret tt)) ;!
  for_each (seqZ 0 20) (fun i => for_each (seqZ 0 4) (fun pi =>
    sys (Sunlink [112 + pi; 48 + i]) ;! Ret tt)).

Definition unlinkread (s : list Z) : prog unit :=
  let! fd := open "unlinkread" CREATE_RW in
  oops (fd <? 0) (line "%s: create unlinkread failed") [str s] ;!
  sys (Swrite fd (bytes "hello")) ;!
  close fd ;!
  let! fd := open "unlinkread" O_RDWR in
  oops (fd <? 0) (line "%s: open unlinkread failed") [str s] ;!
  let! r := unlink "unlinkread" in
  oops (negb (r =? 0)) (line "%s: unlink unlinkread failed") [str s] ;!
  let! fd1 := open "unlinkread" CREATE_RW in
  sys (Swrite fd1 (bytes "yyy")) ;!
  close fd1 ;!
  let! '(n, bs) := sys (Sread fd BUFSZ) in
  oops (negb (n =? 5)) (bytes "%s: unlinkread read failed") [str s] ;!
  let b := put_bytes buf 0 bs in
  oops (negb (byte_at b 0 =? 104)) (line "%s: unlinkread wrong data") [str s] ;!
  let! r := sys (Swrite fd (take 10 b)) in
  oops (negb (r =? 10)) (line "%s: unlinkread write failed") [str s] ;!
  close fd ;!
  unlink "unlinkread" ;!
  Ret tt.

Definition linktest (s : list Z) : prog unit :=
  unlink "lf1" ;!
  unlink "lf2" ;!
  let! fd := open "lf1" CREATE_RW in
  oops (fd <? 0) (line "%s: create lf1 failed") [str s] ;!
  let! r := sys (Swrite fd (bytes "hello")) in
  oops (negb (r =? 5)) (line "%s: write lf1 failed") [str s] ;!
  close fd ;!
  let! r := sys (Slink (bytes "lf1") (bytes "lf2")) in
  oops (r <? 0) (line "%s: link lf1 lf2 failed") [str s] ;!
  unlink "lf1" ;!
  let! r := open "lf1" 0 in
  oops (0 <=? r) (line "%s: unlinked lf1 but it is still there!") [str s] ;!
  let! fd := open "lf2" 0 in
  oops (fd <? 0) (line "%s: open lf2 failed") [str s] ;!
  let! '(n, _) := sys (Sread fd BUFSZ) in
  oops (negb (n =? 5)) (line "%s: read lf2 failed") [str s] ;!
  close fd ;!
  let! r := sys (Slink (bytes "lf2") (bytes "lf2")) in
  oops (0 <=? r) (line "%s: link lf2 lf2 succeeded! oops") [str s] ;!
  unlink "lf2" ;!
  let! r := sys (Slink (bytes "lf2") (bytes "lf1")) in
  oops (0 <=? r) (line "%s: link non-existent succeeded! oops") [str s] ;!
  let! r := sys (Slink (bytes ".") (bytes "lf1")) in
  oops (0 <=? r) (line "%s: link . lf1 succeeded! oops") [str s].

(** ** Links *)

Abbreviation link a b := (sys (Slink (bytes a) (bytes b))).
Abbreviation mkdir a := (sys (Smkdir (bytes a))).
Abbreviation chdir a := (sys (Schdir (bytes a))).

(** The files of the directory that [concreate] finds: [fa] and [n] after the loop. *)
Definition concreate_list (s : list Z) (fd : Z) : prog Z :=
  ITree.iter (fun '(fa, n) =>
    let! '(r, de) := sys (Sread fd DIRENT) in
    if 0 <? r then
      if negb (Z.of_nat (length de) =? DIRENT) then undefined
      else if de_inum de =? 0 then Ret (inl (fa, n))
      else
        let name := de_name de in
        if (byte_at name 0 =? 67) && (byte_at name 2 =? 0) then
          let i := byte_at name 1 - 48 in
          oops ((i <? 0) || (40 <=? i)) (line "%s: concreate weird file %s") [str s; str (cstr name)] ;!
          oops (negb (byte_at fa i =? 0)) (line "%s: concreate duplicate file %s") [str s; str (cstr name)] ;!
          Ret (inl (zset fa i 1, n + 1))
        else Ret (inl (fa, n))
    else Ret (inr n)) (replicate 40 0, 0).

Definition concreate (s : list Z) : prog unit :=
  for_each (seqZ 0 40) (fun i =>
    let file := [67; 48 + i] in
    sys (Sunlink file) ;!
    let! pid := sys Sfork in
    (if negb (pid =? 0) && (i mod 3 =? 1) then sys (Slink (bytes "C0") file) ;! Ret tt
     else if (pid =? 0) && (i mod 5 =? 1) then sys (Slink (bytes "C0") file) ;! Ret tt
     else
       let! fd := sys (Sopen file CREATE_RW) in
       oops (fd <? 0) (line "concreate create %s failed") [str file] ;!
       close fd ;!
       Ret tt) ;!
    if pid =? 0 then exit 0
    else
      let! xstatus := wait_xstatus in
      if negb (xstatus =? 0) then exit 1 else Ret tt) ;!
  let! fd := open "." 0 in
  let! n := concreate_list s fd in
  close fd ;!
  oops (negb (n =? 40)) (line "%s: concreate not enough files in directory listing") [str s] ;!
  for_each (seqZ 0 40) (fun i =>
    let file := [67; 48 + i] in
    let! pid := fork_or (line "%s: fork failed") [str s] in
    (if ((i mod 3 =? 0) && (pid =? 0)) || ((i mod 3 =? 1) && negb (pid =? 0)) then
       for_each (seq 0 6) (fun _ => let! fd := sys (Sopen file 0) in close fd ;! Ret tt)
     else for_each (seq 0 6) (fun _ => sys (Sunlink file) ;! Ret tt)) ;!
    if pid =? 0 then exit 0 else sys Swait ;! Ret tt).

Definition linkunlink (s : list Z) : prog unit :=
  unlink "x" ;!
  let! pid := fork_or (line "%s: fork failed") [str s] in
  fold_each (seq 0 100) (if negb (pid =? 0) then 1 else 97) (fun x _ =>
    let x := u32 (x * 1103515245 + 12345) in
    (if x mod 3 =? 0 then let! fd := open "x" (Z.lor O_RDWR O_CREATE) in close fd ;! Ret tt
     else if x mod 3 =? 1 then link "cat" "x" ;! Ret tt
     else unlink "x" ;! Ret tt) ;!
    Ret x) ;!
  if negb (pid =? 0) then sys Swait ;! Ret tt else exit 0.

(** ** Subdirectories *)

Definition subdir (s : list Z) : prog unit :=
  unlink "ff" ;!
  let! r := mkdir "dd" in oops (negb (r =? 0)) (line "%s: mkdir dd failed") [str s] ;!
  let! fd := open "dd/ff" CREATE_RW in oops (fd <? 0) (line "%s: create dd/ff failed") [str s] ;!
  sys (Swrite fd (bytes "ff")) ;!
  close fd ;!
  let! r := unlink "dd" in oops (0 <=? r) (line "%s: unlink dd (non-empty dir) succeeded!") [str s] ;!
  let! r := mkdir "/dd/dd" in oops (negb (r =? 0)) (line "%s: subdir mkdir dd/dd failed") [str s] ;!
  let! fd := open "dd/dd/ff" CREATE_RW in oops (fd <? 0) (line "%s: create dd/dd/ff failed") [str s] ;!
  sys (Swrite fd (bytes "FF")) ;!
  close fd ;!
  let! fd := open "dd/dd/../ff" 0 in oops (fd <? 0) (line "%s: open dd/dd/../ff failed") [str s] ;!
  let! '(cc, bs) := sys (Sread fd BUFSZ) in
  oops (negb (cc =? 2) || negb (byte_at (put_bytes buf 0 bs) 0 =? 102)) (line "%s: dd/dd/../ff wrong content") [str s] ;!
  close fd ;!
  let! r := link "dd/dd/ff" "dd/dd/ffff" in oops (negb (r =? 0)) (line "%s: link dd/dd/ff dd/dd/ffff failed") [str s] ;!
  let! r := unlink "dd/dd/ff" in oops (negb (r =? 0)) (line "%s: unlink dd/dd/ff failed") [str s] ;!
  let! r := open "dd/dd/ff" O_RDONLY in oops (0 <=? r) (line "%s: open (unlinked) dd/dd/ff succeeded") [str s] ;!
  let! r := chdir "dd" in oops (negb (r =? 0)) (line "%s: chdir dd failed") [str s] ;!
  let! r := chdir "dd/../../dd" in oops (negb (r =? 0)) (line "%s: chdir dd/../../dd failed") [str s] ;!
  let! r := chdir "dd/../../../dd" in oops (negb (r =? 0)) (line "%s: chdir dd/../../../dd failed") [str s] ;!
  let! r := chdir "./.." in oops (negb (r =? 0)) (line "%s: chdir ./.. failed") [str s] ;!
  let! fd := open "dd/dd/ffff" 0 in oops (fd <? 0) (line "%s: open dd/dd/ffff failed") [str s] ;!
  let! '(n, _) := sys (Sread fd BUFSZ) in
  oops (negb (n =? 2)) (line "%s: read dd/dd/ffff wrong len") [str s] ;!
  close fd ;!
  let! r := open "dd/dd/ff" O_RDONLY in oops (0 <=? r) (line "%s: open (unlinked) dd/dd/ff succeeded!") [str s] ;!
  let! r := open "dd/ff/ff" CREATE_RW in oops (0 <=? r) (line "%s: create dd/ff/ff succeeded!") [str s] ;!
  let! r := open "dd/xx/ff" CREATE_RW in oops (0 <=? r) (line "%s: create dd/xx/ff succeeded!") [str s] ;!
  let! r := open "dd" O_CREATE in oops (0 <=? r) (line "%s: create dd succeeded!") [str s] ;!
  let! r := open "dd" O_RDWR in oops (0 <=? r) (line "%s: open dd rdwr succeeded!") [str s] ;!
  let! r := open "dd" O_WRONLY in oops (0 <=? r) (line "%s: open dd wronly succeeded!") [str s] ;!
  let! r := link "dd/ff/ff" "dd/dd/xx" in oops (r =? 0) (line "%s: link dd/ff/ff dd/dd/xx succeeded!") [str s] ;!
  let! r := link "dd/xx/ff" "dd/dd/xx" in oops (r =? 0) (line "%s: link dd/xx/ff dd/dd/xx succeeded!") [str s] ;!
  let! r := link "dd/ff" "dd/dd/ffff" in oops (r =? 0) (line "%s: link dd/ff dd/dd/ffff succeeded!") [str s] ;!
  let! r := mkdir "dd/ff/ff" in oops (r =? 0) (line "%s: mkdir dd/ff/ff succeeded!") [str s] ;!
  let! r := mkdir "dd/xx/ff" in oops (r =? 0) (line "%s: mkdir dd/xx/ff succeeded!") [str s] ;!
  let! r := mkdir "dd/dd/ffff" in oops (r =? 0) (line "%s: mkdir dd/dd/ffff succeeded!") [str s] ;!
  let! r := unlink "dd/xx/ff" in oops (r =? 0) (line "%s: unlink dd/xx/ff succeeded!") [str s] ;!
  let! r := unlink "dd/ff/ff" in oops (r =? 0) (line "%s: unlink dd/ff/ff succeeded!") [str s] ;!
  let! r := chdir "dd/ff" in oops (r =? 0) (line "%s: chdir dd/ff succeeded!") [str s] ;!
  let! r := chdir "dd/xx" in oops (r =? 0) (line "%s: chdir dd/xx succeeded!") [str s] ;!
  let! r := unlink "dd/dd/ffff" in oops (negb (r =? 0)) (line "%s: unlink dd/dd/ff failed") [str s] ;!
  let! r := unlink "dd/ff" in oops (negb (r =? 0)) (line "%s: unlink dd/ff failed") [str s] ;!
  let! r := unlink "dd" in oops (r =? 0) (line "%s: unlink non-empty dd succeeded!") [str s] ;!
  let! r := unlink "dd/dd" in oops (r <? 0) (line "%s: unlink dd/dd failed") [str s] ;!
  let! r := unlink "dd" in oops (r <? 0) (line "%s: unlink dd failed") [str s].

(** ** Large writes and files *)

Definition bigwrite (s : list Z) : prog unit :=
  unlink "bigwrite" ;!
  for_step 499 ((MAXOPBLOCKS + 2) * BSIZE) 471 (fun sz =>
    let! fd := open "bigwrite" CREATE_RW in
    oops (fd <? 0) (line "%s: cannot create bigwrite") [str s] ;!
    for_each (seq 0 2) (fun _ =>
      let! cc := sys (Swrite fd (take (Z.to_nat sz) buf)) in
      oops (negb (cc =? sz)) (line "%s: write(%d) ret %d") [str s; VInt sz; VInt cc]) ;!
    close fd ;!
    unlink "bigwrite" ;!
    Ret tt).

(** The loop that reads the file: the turn [i], the [total] so far and the buffer. *)
Definition bigfile_read (s : list Z) (fd : Z) (b : list Z) : prog Z :=
  ITree.iter (fun '(i, total, b) =>
    let! '(cc, bs) := sys (Sread fd 300) in
    oops (cc <? 0) (line "%s: read bigfile failed") [str s] ;!
    if cc =? 0 then Ret (inr total)
    else
      oops (negb (cc =? 300)) (line "%s: short read bigfile") [str s] ;!
      let b := put_bytes b 0 bs in
      oops (negb (byte_at b 0 =? i / 2) || negb (byte_at b 299 =? i / 2)) (line "%s: read bigfile wrong data") [str s] ;!
      Ret (inl (i + 1, i32 (total + cc), b))) (0, 0, b).

Definition bigfile (s : list Z) : prog unit :=
  unlink "bigfile.dat" ;!
  let! fd := open "bigfile.dat" CREATE_RW in
  oops (fd <? 0) (bytes "%s: cannot create bigfile") [str s] ;!
  for_each (seqZ 0 20) (fun i =>
    let! r := sys (Swrite fd (replicate 600 i)) in
    oops (negb (r =? 600)) (line "%s: write bigfile failed") [str s]) ;!
  close fd ;!
  let! fd := open "bigfile.dat" 0 in
  oops (fd <? 0) (line "%s: cannot open bigfile") [str s] ;!
  let! total := bigfile_read s fd (put_bytes buf 0 (replicate 600 19)) in
  close fd ;!
  oops (negb (total =? 20 * 600)) (line "%s: read bigfile wrong total") [str s] ;!
  unlink "bigfile.dat" ;!
  Ret tt.

(** ** Names *)

Definition fourteen (s : list Z) : prog unit :=
  let! r := mkdir "12345678901234" in oops (negb (r =? 0)) (line "%s: mkdir 12345678901234 failed") [str s] ;!
  let! r := mkdir "12345678901234/123456789012345" in
  oops (negb (r =? 0)) (line "%s: mkdir 12345678901234/123456789012345 failed") [str s] ;!
  let! fd := open "123456789012345/123456789012345/123456789012345" O_CREATE in
  oops (fd <? 0) (line "%s: create 123456789012345/123456789012345/123456789012345 failed") [str s] ;!
  close fd ;!
  let! fd := open "12345678901234/12345678901234/12345678901234" 0 in
  oops (fd <? 0) (line "%s: open 12345678901234/12345678901234/12345678901234 failed") [str s] ;!
  close fd ;!
  let! r := mkdir "12345678901234/12345678901234" in
  oops (r =? 0) (line "%s: mkdir 12345678901234/12345678901234 succeeded!") [str s] ;!
  let! r := mkdir "123456789012345/12345678901234" in
  oops (r =? 0) (line "%s: mkdir 12345678901234/123456789012345 succeeded!") [str s] ;!
  unlink "123456789012345/12345678901234" ;!
  unlink "12345678901234/12345678901234" ;!
  unlink "12345678901234/12345678901234/12345678901234" ;!
  unlink "123456789012345/123456789012345/123456789012345" ;!
  unlink "12345678901234/123456789012345" ;!
  unlink "12345678901234" ;!
  Ret tt.

Definition rmdot (s : list Z) : prog unit :=
  let! r := mkdir "dots" in oops (negb (r =? 0)) (line "%s: mkdir dots failed") [str s] ;!
  let! r := chdir "dots" in oops (negb (r =? 0)) (line "%s: chdir dots failed") [str s] ;!
  let! r := unlink "." in oops (r =? 0) (line "%s: rm . worked!") [str s] ;!
  let! r := unlink ".." in oops (r =? 0) (line "%s: rm .. worked!") [str s] ;!
  let! r := chdir "/" in oops (negb (r =? 0)) (line "%s: chdir / failed") [str s] ;!
  let! r := unlink "dots/." in oops (r =? 0) (line "%s: unlink dots/. worked!") [str s] ;!
  let! r := unlink "dots/.." in oops (r =? 0) (line "%s: unlink dots/.. worked!") [str s] ;!
  let! r := unlink "dots" in oops (negb (r =? 0)) (line "%s: unlink dots failed!") [str s].

Definition dirfile (s : list Z) : prog unit :=
  let! fd := open "dirfile" O_CREATE in oops (fd <? 0) (line "%s: create dirfile failed") [str s] ;!
  close fd ;!
  let! r := chdir "dirfile" in oops (r =? 0) (line "%s: chdir dirfile succeeded!") [str s] ;!
  let! fd := open "dirfile/xx" 0 in oops (0 <=? fd) (line "%s: create dirfile/xx succeeded!") [str s] ;!
  let! fd := open "dirfile/xx" O_CREATE in oops (0 <=? fd) (line "%s: create dirfile/xx succeeded!") [str s] ;!
  let! r := mkdir "dirfile/xx" in oops (r =? 0) (line "%s: mkdir dirfile/xx succeeded!") [str s] ;!
  let! r := unlink "dirfile/xx" in oops (r =? 0) (line "%s: unlink dirfile/xx succeeded!") [str s] ;!
  let! r := link "README" "dirfile/xx" in oops (r =? 0) (line "%s: link to dirfile/xx succeeded!") [str s] ;!
  let! r := unlink "dirfile" in oops (negb (r =? 0)) (line "%s: unlink dirfile failed!") [str s] ;!
  let! fd := open "." O_RDWR in oops (0 <=? fd) (line "%s: open . for writing succeeded!") [str s] ;!
  let! fd := open "." 0 in
  let! r := sys (Swrite fd (bytes "x")) in oops (0 <? r) (line "%s: write . succeeded!") [str s] ;!
  close fd ;!
  Ret tt.

Definition iref (s : list Z) : prog unit :=
  for_each (seqZ 0 (NINODE + 1)) (fun _ =>
    let! r := mkdir "irefd" in oops (negb (r =? 0)) (line "%s: mkdir irefd failed") [str s] ;!
    let! r := chdir "irefd" in oops (negb (r =? 0)) (line "%s: chdir irefd failed") [str s] ;!
    sys (Smkdir []) ;!
    sys (Slink (bytes "README") []) ;!
    let! fd := sys (Sopen [] O_CREATE) in
    (if 0 <=? fd then close fd ;! Ret tt else Ret tt) ;!
    let! fd := open "xx" O_CREATE in
    (if 0 <=? fd then close fd ;! Ret tt else Ret tt) ;!
    unlink "xx" ;!
    Ret tt) ;!
  for_each (seqZ 0 (NINODE + 1)) (fun _ =>
    chdir ".." ;!
    unlink "irefd" ;!
    Ret tt) ;!
  chdir "/" ;!
  Ret tt.

(** ** Memory, the slow tests and the driver *)

Abbreviation sbrk n := (sys (Ssbrk n)).
Definition SBRK_FAILED : Z := 0xffffffffffffffff.

(** The loop that forks, from [n] with [k] turns to go: [n] after it; and the one that waits. *)
Fixpoint forktest_fork (k : nat) (n : Z) : prog Z :=
  match k with
  | O => Ret n
  | S k' =>
    let! pid := sys Sfork in
    if pid <? 0 then Ret n
    else if pid =? 0 then exit 0
    else forktest_fork k' (n + 1)
  end.

Definition forktest (s : list Z) : prog unit :=
  let! n := forktest_fork 1000 0 in
  oops (n =? 0) (line "%s: no fork at all!") [str s] ;!
  oops (n =? 1000) (line "%s: fork claimed to work 1000 times!") [str s] ;!
  for_each (seqZ 0 n) (fun _ =>
    let! r := sys Swait in
    oops (r <? 0) (line "%s: wait stopped early") [str s]) ;!
  let! r := sys Swait in
  oops (negb (r =? -1)) (line "%s: wait got too many") [str s].

(** ** Memory *)

Definition sbrkbasic (s : list Z) : prog unit :=
  let TOOMUCH := 1024 * 1024 * 1024 in
  let! pid := fork_or (line "fork failed in sbrkbasic") [] in
  if pid =? 0 then
    let! a := sbrk TOOMUCH in
    if a =? SBRK_FAILED then exit 0
    else
      for_step a (u64 (a + TOOMUCH)) 4096 (fun b => store_at b 1 99) ;!
      exit 1
  else
    let! xstatus := wait_xstatus in
    oops (xstatus =? 1) (line "%s: too much memory allocated!") [str s] ;!
    let! a := sbrk 0 in
    let! a := fold_each (seqZ 0 5000) a (fun a i =>
      let! b := sbrk 1 in
      oops (negb (b =? a)) (line "%s: sbrk test failed %d %p %p") [str s; VInt i; VInt a; VInt b] ;!
      store_at b 1 1 ;!
      Ret (u64 (b + 1))) in
    let! pid := fork_or (line "%s: sbrk test fork failed") [str s] in
    sbrk 1 ;!
    let! c := sbrk 1 in
    oops (negb (c =? u64 (a + 1))) (line "%s: sbrk test failed post-fork") [str s] ;!
    if pid =? 0 then exit 0
    else
      let! xstatus := wait_xstatus in
      exit xstatus.

Definition sbrkmuch (s : list Z) : prog unit :=
  let BIG := 100 * 1024 * 1024 in
  let! oldbrk := sbrk 0 in
  let! a := sbrk 0 in
  let! p := sbrk (i32 (BIG - a)) in
  oops (negb (p =? a)) (line "%s: sbrk test failed to grow big address space; enough phys mem?") [str s] ;!
  let! eee := sbrk 0 in
  for_step a eee 4096 (fun pp => store_at pp 1 1) ;!
  let lastaddr := BIG - 1 in
  store_at lastaddr 1 99 ;!
  let! a := sbrk 0 in
  let! c := sbrk (- PGSIZE) in
  oops (c =? SBRK_FAILED) (line "%s: sbrk could not deallocate") [str s] ;!
  let! c := sbrk 0 in
  oops (negb (c =? u64 (a - PGSIZE))) (line "%s: sbrk deallocation produced wrong address, a %p c %p") [str s; VInt a; VInt c] ;!
  let! a := sbrk 0 in
  let! c := sbrk PGSIZE in
  let! bad := (if negb (c =? a) then Ret true else let! b := sbrk 0 in Ret (negb (b =? u64 (a + PGSIZE)))) in
  oops bad (line "%s: sbrk re-allocation failed, a %p c %p") [str s; VInt a; VInt c] ;!
  let! v := load lastaddr 1 in
  oops (v =? 99) (line "%s: sbrk de-allocation didn't really deallocate") [str s] ;!
  let! a := sbrk 0 in
  let! now := sbrk 0 in
  let! c := sbrk (i32 (- (now - oldbrk))) in
  oops (negb (c =? a)) (line "%s: sbrk downsize failed, a %p c %p") [str s; VInt a; VInt c].

(** [*a] is read before the call, so the child prints nothing unless the load succeeds. *)
Definition kernmem (s : list Z) : prog unit :=
  for_step KERNBASE (KERNBASE + 2000000) 50000 (fun a =>
    let! pid := fork_or (line "%s: fork failed") [str s] in
    if pid =? 0 then
      let! v := load a 1 in
      printf (line "%s: oops could read %p = %x") [str s; VInt a; VInt v] ;!
      exit 1
    else
      let! xstatus := wait_xstatus in
      if negb (xstatus =? -1) then exit 1 else Ret tt).

Definition MAXVAplus (s : list Z) : prog unit :=
  ITree.iter (fun a =>
    if a =? 0 then Ret (inr tt)
    else
      let! pid := fork_or (line "%s: fork failed") [str s] in
      if pid =? 0 then
        store_at a 1 99 ;!
        printf (line "%s: oops wrote %p") [str s; VInt a] ;!
        exit 1
      else
        let! xstatus := wait_xstatus in
        if negb (xstatus =? -1) then exit 1 else Ret (inl (u64 (Z.shiftl a 1)))) MAXVA.

Definition sbrkfail (s : list Z) : prog unit :=
  let BIG := 100 * 1024 * 1024 in
  let! '(fds0, fds1) := pipe_or (line "%s: pipe() failed") [str s] in
  let! pids := fold_each (seq 0 10) [] (fun pids _ =>
    let! pid := sys Sfork in
    if pid =? 0 then
      let! cur := sbrk 0 in
      sbrk (i32 (BIG - cur)) ;!
      sys (Swrite fds1 (bytes "x")) ;!
      forever (sys (Ssleep 1000) ;! Ret tt)
    else
      (if negb (pid =? -1) then sys (Sread fds0 1) ;! Ret tt else Ret tt) ;!
      Ret (pids ++ [pid])) in
  let! c := sbrk PGSIZE in
  for_each pids (fun pid => if pid =? -1 then Ret tt else sys (Skill pid) ;! sys Swait ;! Ret tt) ;!
  oops (c =? SBRK_FAILED) (line "%s: failed sbrk leaked memory") [str s] ;!
  let! pid := fork_or (line "%s: fork failed") [str s] in
  if pid =? 0 then
    let! a := sbrk 0 in
    sbrk (10 * BIG) ;!
    let! n := ITree.iter (fun '(i, n) =>
      if i <? 10 * BIG then let! v := load (u64 (a + i)) 1 in Ret (inl (i + PGSIZE, i32 (n + v)))
      else Ret (inr n)) (0, 0) in
    printf (line "%s: allocate a lot of memory succeeded %d") [str s; VInt n] ;!
    exit 1
  else
    let! xstatus := wait_xstatus in
    if negb (xstatus =? -1) && negb (xstatus =? 2) then exit 1 else Ret tt.

Definition sbrkarg (s : list Z) : prog unit :=
  let! a := sbrk PGSIZE in
  let! fd := open "sbrk" CREATE_W in
  unlink "sbrk" ;!
  oops (fd <? 0) (line "%s: open sbrk failed") [str s] ;!
  let! n := sys (Pwrite fd a PGSIZE) in
  oops (n <? 0) (line "%s: write sbrk failed") [str s] ;!
  close fd ;!
  let! a := sbrk PGSIZE in
  let! r := sys (Ppipe a) in
  oops (negb (r =? 0)) (line "%s: pipe() failed") [str s].

Definition validatetest (s : list Z) : prog unit :=
  for_step 0 (1100 * 1024 + 1) PGSIZE (fun p =>
    let! r := sys (Plink (Str (bytes "nosuchfile")) (At p)) in
    oops (negb (r =? -1)) (line "%s: link should not succeed") [str s]).

Definition uninit : list Z := replicate 10000 0.
Definition bsstest (s : list Z) : prog unit :=
  for_each (seqZ 0 10000) (fun i =>
    oops (negb (byte_at uninit i =? 0)) (line "%s: bss test failed") [str s]).

Definition bigargtest (s : list Z) : prog unit :=
  unlink "bigarg-ok" ;!
  let! pid := sys Sfork in
  if pid =? 0 then
    sys (Sexec (bytes "echo") (replicate (Z.to_nat (MAXARG - 1)) (replicate 399 32))) ;!
    let! fd := open "bigarg-ok" O_CREATE in
    close fd ;!
    exit 0
  else
    oops (pid <? 0) (line "%s: bigargtest: fork failed") [str s] ;!
    let! xstatus := wait_xstatus in
    if negb (xstatus =? 0) then exit xstatus
    else
      let! fd := open "bigarg-ok" 0 in
      oops (fd <? 0) (line "%s: bigarg test failed!") [str s] ;!
      close fd ;!
      Ret tt.

(** The names of the files of [fsfull]. *)
Definition fs_name (n : Z) : list Z :=
  [102; u8 (48 + n / 1000); u8 (48 + n mod 1000 / 100); u8 (48 + n mod 100 / 10); u8 (48 + n mod 10)].

Definition fsfull : prog unit :=
  printf (line "fsfull test") [] ;!
  let! nfiles := ITree.iter (fun nfiles =>
    printf (line "writing %s") [str (fs_name nfiles)] ;!
    let! fd := sys (Sopen (fs_name nfiles) CREATE_RW) in
    if fd <? 0 then printf (line "open %s failed") [str (fs_name nfiles)] ;! Ret (inr nfiles)
    else
      let! total := ITree.iter (fun total =>
        let! cc := sys (Swrite fd (take (Z.to_nat BSIZE) buf)) in
        if cc <? BSIZE then Ret (inr total) else Ret (inl (i32 (total + cc)))) 0 in
      printf (line "wrote %d bytes") [VInt total] ;!
      close fd ;!
      if total =? 0 then Ret (inr nfiles) else Ret (inl (nfiles + 1))) 0 in
  for_each (rev (seqZ 0 (nfiles + 1))) (fun n => sys (Sunlink (fs_name n)) ;! Ret tt) ;!
  printf (line "fsfull test finished") [].

Definition argptest (s : list Z) : prog unit :=
  let! fd := open "init" O_RDONLY in
  oops (fd <? 0) (line "%s: open failed") [str s] ;!
  let! top := sbrk 0 in
  sys (Pread fd (u64 (top - 1)) (-1)) ;!
  close fd ;!
  Ret tt.

(** [sp] is the stack pointer that [r_sp] reads. *)
Definition stacktest (sp : Z) (s : list Z) : prog unit :=
  let! pid := sys Sfork in
  if pid =? 0 then
    let! v := load (u64 (sp - USERSTACK * PGSIZE)) 1 in
    printf (line "%s: stacktest: read below stack %d") [str s; VInt v] ;!
    exit 1
  else
    oops (pid <? 0) (line "%s: fork failed") [str s] ;!
    let! xstatus := wait_xstatus in
    if xstatus =? -1 then exit 0 else exit xstatus.

Definition nowrite (s : list Z) : prog unit :=
  for_each (0 :: bad_addrs) (fun addr =>
    let! pid := sys Sfork in
    if pid =? 0 then
      store_at addr 4 10 ;!
      printf (line "%s: write to %p did not fail!") [str s; VInt addr] ;!
      exit 0
    else
      oops (pid <? 0) (line "%s: fork failed") [str s] ;!
      let! xstatus := wait_xstatus in
      if xstatus =? 0 then exit 1 else Ret tt) ;!
  exit 0.

Definition big : Z := 0xeaeb0b5b00002f5e.
Definition pgbug (s : list Z) : prog unit :=
  sys (Pexec (At big) []) ;!
  sys (Ppipe big) ;!
  exit 0.

Definition sbrkbugs (s : list Z) : prog unit :=
  let! pid := fork_or (line "fork failed") [] in
  if pid =? 0 then let! sz := sbrk 0 in sbrk (- i32 sz) ;! exit 0 else
  sys Swait ;!
  let! pid := fork_or (line "fork failed") [] in
  if pid =? 0 then let! sz := sbrk 0 in sbrk (- (i32 sz - 3500)) ;! exit 0 else
  sys Swait ;!
  let! pid := fork_or (line "fork failed") [] in
  if pid =? 0 then let! cur := sbrk 0 in sbrk (i32 ((10 * 4096 + 2048) - cur)) ;! sbrk (-10) ;! exit 0 else
  sys Swait ;!
  exit 0.

Definition sbrklast (s : list Z) : prog unit :=
  let! top := sbrk 0 in
  (if negb (top mod 4096 =? 0) then sbrk (4096 - top mod 4096) ;! Ret tt else Ret tt) ;!
  sbrk 4096 ;!
  sbrk 10 ;!
  sbrk (-20) ;!
  let! top := sbrk 0 in
  let p := u64 (top - 64) in
  store_at p 1 120 ;!
  store_at (u64 (p + 1)) 1 0 ;!
  let! fd := sys (Popen (At p) (Z.lor O_RDWR O_CREATE)) in
  sys (Pwrite fd p 1) ;!
  close fd ;!
  let! fd := sys (Popen (At p) O_RDWR) in
  store_at p 1 0 ;!
  sys (Pread fd p 1) ;!
  let! v := load p 1 in
  if negb (v =? 120) then exit 1 else Ret tt.

Definition sbrk8000 (s : list Z) : prog unit :=
  sbrk (i32 0x80000004) ;!
  let! top := sbrk 0 in
  let! v := load (u64 (top - 1)) 1 in
  store_at (u64 (top - 1)) 1 (u8 (v + 1)).

Definition badarg (s : list Z) : prog unit :=
  for_step 0 50000 1 (fun _ => sys (Pexec (Str (bytes "echo")) [At 0xffffffff]) ;! Ret tt) ;!
  exit 0.

(** A test has the name it is started by. *)
Record test := Test { t_f : list Z -> prog unit; t_s : list Z }.
Abbreviation T f s := (Test f (bytes s)).

Definition quicktests (sp : Z) : list test :=
  [T copyin "copyin"; T copyout "copyout"; T copyinstr1 "copyinstr1"; T copyinstr2 "copyinstr2"; T copyinstr3 "copyinstr3"; T rwsbrk "rwsbrk";
   T truncate1 "truncate1"; T truncate2 "truncate2"; T truncate3 "truncate3"; T openiputtest "openiput"; T exitiputtest "exitiput"; T iputtest "iput";
   T opentest "opentest"; T writetest "writetest"; T writebig "writebig"; T createtest "createtest"; T dirtest "dirtest"; T exectest "exectest";
   T pipe1 "pipe1"; T killstatus "killstatus"; T preempt "preempt"; T exitwait "exitwait"; T reparent "reparent"; T twochildren "twochildren";
   T forkfork "forkfork"; T forkforkfork "forkforkfork"; T reparent2 "reparent2"; T mem "mem"; T sharedfd "sharedfd"; T fourfiles "fourfiles";
   T createdelete "createdelete"; T unlinkread "unlinkread"; T linktest "linktest"; T concreate "concreate"; T linkunlink "linkunlink"; T subdir "subdir";
   T bigwrite "bigwrite"; T bigfile "bigfile"; T fourteen "fourteen"; T rmdot "rmdot"; T dirfile "dirfile"; T iref "iref"; T forktest "forktest";
   T sbrkbasic "sbrkbasic"; T sbrkmuch "sbrkmuch"; T kernmem "kernmem"; T MAXVAplus "MAXVAplus"; T sbrkfail "sbrkfail"; T sbrkarg "sbrkarg";
   T validatetest "validatetest"; T bsstest "bsstest"; T bigargtest "bigargtest"; T argptest "argptest"; T (stacktest sp) "stacktest"; T nowrite "nowrite";
   T pgbug "pgbug"; T sbrkbugs "sbrkbugs"; T sbrklast "sbrklast"; T sbrk8000 "sbrk8000"; T badarg "badarg"].

(** ** The slow tests *)

Definition bd_name (i : Z) : list Z := [120; 48 + i / 64; 48 + i mod 64].

Definition bigdir (s : list Z) : prog unit :=
  unlink "bd" ;!
  let! fd := open "bd" O_CREATE in
  oops (fd <? 0) (line "%s: bigdir create failed") [str s] ;!
  close fd ;!
  for_each (seqZ 0 500) (fun i =>
    let! r := sys (Slink (bytes "bd") (bd_name i)) in
    oops (negb (r =? 0)) (line "%s: bigdir i=%d link(bd, %s) failed") [str s; VInt i; str (bd_name i)]) ;!
  unlink "bd" ;!
  for_each (seqZ 0 500) (fun i =>
    let! r := sys (Sunlink (bd_name i)) in
    oops (negb (r =? 0)) (bytes "%s: bigdir unlink failed") [str s]).

Definition manywrites (s : list Z) : prog unit :=
  for_each (seqZ 0 4) (fun ci =>
    let! pid := fork_or (line "fork failed") [] in
    if pid =? 0 then
      let name := [98; 97 + ci] in
      sys (Sunlink name) ;!
      for_each (seq 0 30) (fun _ =>
        for_each (seqZ 0 (ci + 1)) (fun _ =>
          let! fd := sys (Sopen name CREATE_RW) in
          oops (fd <? 0) (line "%s: cannot create %s") [str s; str name] ;!
          let! cc := sys (Swrite fd buf) in
          oops (negb (cc =? BUFSZ)) (line "%s: write(%d) ret %d") [str s; VInt BUFSZ; VInt cc] ;!
          close fd ;!
          Ret tt) ;!
        sys (Sunlink name) ;!
        Ret tt) ;!
      sys (Sunlink name) ;!
      exit 0
    else Ret tt) ;!
  for_each (seq 0 4) (fun _ =>
    let! st := wait_st 0 in
    if negb (st =? 0) then exit st else Ret tt) ;!
  exit 0.

Definition badwrite (s : list Z) : prog unit :=
  unlink "junk" ;!
  for_each (seq 0 600) (fun _ =>
    let! fd := open "junk" CREATE_W in
    oops (fd <? 0) (line "open junk failed") [] ;!
    sys (Pwrite fd 0xffffffffff 1) ;!
    close fd ;!
    unlink "junk" ;!
    Ret tt) ;!
  let! fd := open "junk" CREATE_W in
  oops (fd <? 0) (line "open junk failed") [] ;!
  let! r := sys (Swrite fd (bytes "x")) in
  oops (negb (r =? 1)) (line "write failed") [] ;!
  close fd ;!
  unlink "junk" ;!
  exit 0.

(** All of memory is taken, a page at a time. *)
Definition take_memory : prog unit :=
  ITree.iter (fun _ : unit =>
    let! a := sbrk 4096 in
    if a =? SBRK_FAILED then Ret (inr tt)
    else store_at (u64 (a + 4096 - 1)) 1 1 ;! Ret (inl tt)) tt.

Definition execout (s : list Z) : prog unit :=
  for_each (seqZ 0 15) (fun avail =>
    let! pid := fork_or (line "fork failed") [] in
    if pid =? 0 then
      take_memory ;!
      for_each (seqZ 0 avail) (fun _ => sbrk (-4096) ;! Ret tt) ;!
      close 1 ;!
      sys (Sexec (bytes "echo") [bytes "echo"; bytes "x"]) ;!
      exit 0
    else sys Swait ;! Ret tt) ;!
  exit 0.

Definition zz_name (i : Z) : list Z := [122; 122; 48 + i / 32; 48 + i mod 32].
Definition big_name (i : Z) : list Z := bytes "big" ++ [48 + i].

(** A file of the largest size, until a write fails; [junk] is what the local array holds.
    The result is [done]. *)
Definition fill_file (junk : list Z) (fd : Z) : prog bool :=
  ITree.iter (fun i =>
    if i <? MAXFILE then
      let! r := sys (Swrite fd (take (Z.to_nat BSIZE) junk)) in
      if negb (r =? BSIZE) then close fd ;! Ret (inr true) else Ret (inl (i + 1))
    else Ret (inr false)) 0.

Definition diskfull (junk s : list Z) : prog unit :=
  unlink "diskfulldir" ;!
  for_while (seqZ 0 (127 - 48)) (fun fi =>
    sys (Sunlink (big_name fi)) ;!
    let! fd := sys (Sopen (big_name fi) (Z.lor CREATE_RW O_TRUNC)) in
    if fd <? 0 then printf (line "%s: could not create file %s") [str s; str (big_name fi)] ;! Ret false
    else
      let! done := fill_file junk fd in
      close fd ;!
      Ret (negb done)) ;!
  for_while (seqZ 0 128) (fun i =>
    sys (Sunlink (zz_name i)) ;!
    let! fd := sys (Sopen (zz_name i) (Z.lor CREATE_RW O_TRUNC)) in
    if fd <? 0 then Ret false else close fd ;! Ret true) ;!
  let! r := mkdir "diskfulldir" in
  (if r =? 0 then printf (line "%s: mkdir(diskfulldir) unexpectedly succeeded!") [str s] else Ret tt) ;!
  unlink "diskfulldir" ;!
  for_each (seqZ 0 128) (fun i => sys (Sunlink (zz_name i)) ;! Ret tt) ;!
  for_each (seqZ 0 (127 - 48)) (fun i => sys (Sunlink (big_name i)) ;! Ret tt).

Definition outofinodes (s : list Z) : prog unit :=
  for_while (seqZ 0 (32 * 32)) (fun i =>
    sys (Sunlink (zz_name i)) ;!
    let! fd := sys (Sopen (zz_name i) (Z.lor CREATE_RW O_TRUNC)) in
    if fd <? 0 then Ret false else close fd ;! Ret true) ;!
  for_each (seqZ 0 (32 * 32)) (fun i => sys (Sunlink (zz_name i)) ;! Ret tt).

Definition slowtests (junk : list Z) : list test :=
  [T bigdir "bigdir"; T manywrites "manywrites"; T badwrite "badwrite"; T execout "execout"; T (diskfull junk) "diskfull"; T outofinodes "outofinodes"].

(** ** The driver *)

Definition run_test (f : list Z -> prog unit) (s : list Z) : prog bool :=
  printf (bytes "test %s: ") [str s] ;!
  let! pid := fork_or (line "runtest: fork error") [] in
  if pid =? 0 then f s ;! exit 0
  else
    let! xstatus := wait_xstatus in
    (if negb (xstatus =? 0) then printf (line "FAILED") [] else printf (line "OK") []) ;!
    Ret (xstatus =? 0).

Fixpoint runtests (tests : list test) (justone : option (list Z)) (continuous : Z) : prog bool :=
  match tests with
  | [] => Ret false
  | t :: tests' =>
    if match justone with None => true | Some j => strcmp (t_s t) j =? 0 end then
      let! ok := run_test (t_f t) (t_s t) in
      if negb ok && negb (continuous =? 2) then printf (line "SOME TESTS FAILED") [] ;! Ret true
      else runtests tests' justone continuous
    else runtests tests' justone continuous
  end.

Definition countfree : prog Z :=
  let! '(fds0, fds1) := pipe_or (line "pipe() failed in countfree()") [] in
  let! pid := fork_or (line "fork failed in countfree()") [] in
  if pid =? 0 then
    close fds0 ;!
    ITree.iter (fun _ : unit =>
      let! a := sbrk 4096 in
      if a =? SBRK_FAILED then Ret (inr tt)
      else
        store_at (u64 (a + 4096 - 1)) 1 1 ;!
        let! r := sys (Swrite fds1 (bytes "x")) in
        oops (negb (r =? 1)) (line "write() failed in countfree()") [] ;!
        Ret (inl tt)) tt ;!
    exit 0
  else
    close fds1 ;!
    let! n := ITree.iter (fun n =>
      let! '(cc, _) := sys (Sread fds0 1) in
      oops (cc <? 0) (line "read() failed in countfree()") [] ;!
      if cc =? 0 then Ret (inr n) else Ret (inl (n + 1))) 0 in
    close fds0 ;!
    sys Swait ;!
    Ret n.

(** [true] is the result 1. *)
Definition drivetests (quicktests slowtests : list test) (quick : bool) (continuous : Z) (justone : option (list Z)) : prog bool :=
  ITree.iter (fun _ : unit =>
    printf (line "usertests starting") [] ;!
    let! free0 := countfree in
    let! r := runtests quicktests justone continuous in
    if r && negb (continuous =? 2) then Ret (inr true) else
    let! stop := (if negb quick then
        (match justone with None => printf (line "usertests slow tests starting") [] | Some _ => Ret tt end) ;!
        let! r := runtests slowtests justone continuous in
        Ret (r && negb (continuous =? 2))
      else Ret false) in
    if (stop : bool) then Ret (inr true) else
    let! free1 := countfree in
    let! stop := (if free1 <? free0 then
        printf (line "FAILED -- lost some free pages %d (out of %d)") [VInt free1; VInt free0] ;!
        Ret (negb (continuous =? 2))
      else Ret false) in
    if (stop : bool) then Ret (inr true)
    else if negb (continuous =? 0) then Ret (inl tt) else Ret (inr false)) tt.

(** The arguments: [quick], [continuous] and [justone]. *)
Definition usertests_args (argv : list (list Z)) : option (bool * Z * option (list Z)) :=
  match argv with
  | [_; a] =>
    if strcmp a (bytes "-q") =? 0 then Some (true, 0, None)
    else if strcmp a (bytes "-c") =? 0 then Some (false, 1, None)
    else if strcmp a (bytes "-C") =? 0 then Some (false, 2, None)
    else if negb (str_at a 0 =? 45) then Some (false, 0, Some a)
    else None
  | _ :: _ :: _ => None
  | _ => Some (false, 0, None)
  end.

Definition usertests_main (sp : Z) (junk : list Z) (argv : list (list Z)) : prog void :=
  match usertests_args argv with
  | None => printf (line "Usage: usertests [-c] [-C] [-q] [testname]") [] ;! exit 1
  | Some (quick, continuous, justone) =>
    let! r := drivetests (quicktests sp) (slowtests junk) quick continuous justone in
    if (r : bool) then exit 1
    else printf (line "ALL TESTS PASSED") [] ;! exit 0
  end.
