(* ===== verification/TestRuns.v ===== *)
(** * What the tests of user/usertests.c say

    [writebig] passes on any kernel that stores files as [RowsKernel] says: the contract of the file
    calls is enough for it, so a failure of the test shows a kernel that breaks the
    contract. *)

From Stdlib Require Import ZArith Lia.
From stdpp Require Import base list strings numbers.
From ITree Require Import ITree.
From S2P Require Import Prelude Blocks Log Kernel Sysfile UPrintf Fs Ulib Sh Sys UserMain ExpRuns UserTests UserTests2.

(** ** [writebig] *)

(** Block [i] of the file: its number, then zeroes. *)
Definition big_block (i : Z) : list Z := take (Z.to_nat BSIZE) (set32 buf 0 i).

Lemma length_buf : length buf = Z.to_nat 12288.
Proof. unfold buf. by rewrite length_replicate. Qed.

Lemma length_big_block i : length (big_block i) = Z.to_nat BSIZE.
Proof. unfold big_block. rewrite length_take, length_set_le, length_buf. done. Qed.

Lemma big_block_number i b : 0 <= i < MAXFILE -> length b = length buf -> i32 (get32 (put_bytes b 0 (big_block i)) 0) = i.
Proof.
  intros Hi Hb. assert (HM : MAXFILE = 268) by done. assert (HB : BSIZE = 1024) by done.
  rewrite length_buf in Hb. assert (E : get32 (put_bytes b 0 (big_block i)) 0 = get32 (set32 buf 0 i) 0).
  { apply get_le_ext. intros k Hk. rewrite byte_at_put_bytes by (rewrite ?length_big_block; lia). rewrite length_big_block.
    rewrite (proj2 (Z.leb_le 0 k)), (proj2 (Z.ltb_lt k _)) by lia. cbn [andb]. rewrite Z.sub_0_r. unfold big_block, byte_at, zget.
    rewrite (proj2 (Z.leb_le 0 k)) by lia. by rewrite lookup_take_lt by lia. }
  rewrite E, get_le_set_le_eq by (rewrite ?length_buf; lia). rewrite Z.mod_small by (change (256 ^ Z.of_nat 4) with (2 ^ 32); lia).
  apply swrap_small; lia.
Qed.

(** The file of [n] blocks. *)
Definition big_blocks (n : Z) : list Z := concat (big_block <$> seqZ 0 n).

Lemma big_blocks_app n k : 0 <= n -> 0 <= k -> big_blocks (n + k) = big_blocks n ++ concat (big_block <$> seqZ n k).
Proof. intros Hn Hk. unfold big_blocks. by rewrite seqZ_app, fmap_app, concat_app by lia. Qed.

Lemma big_blocks_S n : 0 <= n -> big_blocks (n + 1) = big_blocks n ++ big_block n.
Proof. intros Hn. rewrite big_blocks_app by lia. change (seqZ n 1) with [n]. cbn. by rewrite app_nil_r. Qed.

Lemma length_big_blocks n : 0 <= n -> length (big_blocks n) = Z.to_nat (n * BSIZE).
Proof.
  intros Hn. pattern n. apply natlike_ind; [done| |done]. intros k Hk IH.
  rewrite <- Z.add_1_r, big_blocks_S, length_app, length_big_block, IH by done. unfold BSIZE. lia.
Qed.

Lemma big_blocks_at n k : 0 <= k < n -> take (Z.to_nat BSIZE) (drop (length (big_blocks k)) (big_blocks n)) = big_block k.
Proof.
  intros Hk. replace n with (k + (1 + (n - k - 1))) by lia. rewrite big_blocks_app, drop_app_length, seqZ_app by lia.
  change (seqZ k 1) with [k]. cbn [fmap list_fmap concat app]. rewrite <- (length_big_block k). apply take_app_length.
Qed.

Section passes.
Context {K : Type} (kernel : forall X, sysE X -> K -> X * K) `{HK : !RowsKernel kernel}.
Abbreviation ew := (ends_with kernel).
Abbreviation path := (bytes "big").
Abbreviation at_off := (at_off path).
Abbreviation vkeep := (vkeep path).

Lemma ew_oops_ok bad fmt ap s (Q : fin unit -> K -> Prop) : bad = false -> Q (Returned tt) s -> ew (oops bad fmt ap) s Q.
Proof using Type. intros -> H. by apply ew_ret. Qed.

Lemma writebig_writes name fd c0 v s : since kernel c0 v 0 0 s -> at_off v fd 0 [] ->
  ew (for_each (seqZ 0 MAXFILE) (writebig_write name fd)) s
  (fun r s' => r = Returned tt /\ exists v', since kernel c0 v' 0 0 s' /\ vkeep v v' /\ v_file v' path = Some (big_blocks MAXFILE)).
Proof using Type.
  intros Hs Ha. eapply (ew_for_each kernel _ _ _ (fun l s' => exists i v', 0 <= i <= MAXFILE /\ l = seqZ i (MAXFILE - i) /\
    since kernel c0 v' 0 0 s' /\ vkeep v v' /\ at_off v' fd (length (big_blocks i)) (big_blocks i))).
  - exists 0, v. by split_and!.
  - intros s' (i & v' & Hi & E & H & Hk & Ha'). split; [done|]. exists v'. split_and!; [done|done|].
    assert (i = MAXFILE) as ->; [|apply Ha']. symmetry in E. apply (f_equal length) in E. rewrite length_seqZ in E. cbn in E. lia.
  - intros j l s' (i & v' & Hi & E & H & Hk & Ha'). assert (Hlt : i < MAXFILE).
    { destruct (decide (i = MAXFILE)) as [->|]; [|lia]. by rewrite Z.sub_diag in E. }
    rewrite (seqZ_cons i) in E by lia. injection E as -> ->. apply ew_bind. eapply ew_write_at; [done|done|done|]. fold (big_block i).
    intros v2 s2 H2 K2 A2 _. rewrite length_big_block, firstn_all, drop_ge, app_nil_r in A2 by lia. rewrite length_big_block. apply ew_oops_ok; [done|].
    exists (i + 1), v2. split_and!; [lia|lia|f_equal; lia|done|by eapply vkeep_trans|]. rewrite big_blocks_S, length_app, length_big_block by lia. done.
Qed.

Lemma writebig_reads name fd c0 n b v s : 0 <= n <= MAXFILE -> length b = length buf -> since kernel c0 v 0 0 s ->
  at_off v fd (length (big_blocks n)) (big_blocks MAXFILE) ->
  ew (ITree.iter (writebig_read name fd) (n, b)) s
  (fun r s' => r = Returned tt /\ exists v', since kernel c0 v' 0 0 s' /\ vkeep v v' /\ v_file v' path = Some (big_blocks MAXFILE)).
Proof using Type.
  intros Hn. remember (Z.to_nat (MAXFILE - n)) as k eqn:Ek. revert n b v s Hn Ek. induction k as [|k IH]; intros n b v s Hn Ek Hb Hs Ha; apply ew_iter; cbn [writebig_read]; apply ew_bind;
    (eapply ew_read_at; [done|done|done|]); intros v1 s1 bs H1 K1 A1 _.
  - assert (n = MAXFILE) as -> by lia. assert (bs = []) as -> by (unfold bs; rewrite drop_all; done).
    apply ew_bind, ew_oops_ok; [done|]. apply ew_ret. split; [done|]. exists v1. split_and!; [done|done|apply A1].
  - assert (Hlt : 0 <= n < MAXFILE) by lia. assert (bs = big_block n) as -> by (by apply big_blocks_at). rewrite length_big_block in *.
    change (Z.of_nat (Z.to_nat BSIZE) =? 0) with false. apply ew_bind, ew_oops_ok; [done|]. apply ew_bind, ew_oops_ok.
    { rewrite big_block_number by done. by rewrite Z.eqb_refl. }
    apply ew_ret. eapply ew_mono; [apply IH; [lia|lia| |exact H1|]|].
    + rewrite length_put_bytes; [done|lia|]. rewrite length_big_block, Hb, length_buf. unfold BSIZE. lia.
    + rewrite big_blocks_S, length_app, length_big_block by lia. done.
    + intros r s' (-> & v' & H' & K' & F'). split; [done|]. exists v'. split_and!; [done|by eapply vkeep_trans|done].
Qed.

Lemma ew_unlink_at p s (Q : fin Z -> K -> Prop) : v_file (rk_view s) p <> None ->
  (forall s', rk_view s' = v_unlinked p (rk_view s) -> Q (Returned 0) s') -> ew (sys (Sunlink p)) s Q.
Proof using Type.
  intros Hp HQ. apply ew_sys. pose proof (rk_unlink p s Hp) as L. destruct (kernel Z (Sunlink p) s) as [r s']. destruct L as [-> Hv]. by apply HQ.
Qed.
End passes.


