(* ===== verification/Grind.v ===== *)
(** * user/grind.c: random system calls

    The program forks two processes that make random system calls for ever.  The state of a
    process is its random number, the descriptor [fd] and the static array [buf]; the
    calls are grouped as the code has them. *)

From Stdlib Require Import ZArith Lia.
From stdpp Require Import base list strings numbers.
From ITree Require Import ITree.
From S2P Require Import Prelude Blocks Log Kernel Sysfile UPrintf Fs Ulib Sh Experiment Sys UserMain UserTests UserTests2.

(** [do_rand] and [rand] are those of the experiment: the value is the new state too. *)
Definition grind_rand (rand_next : Z) : Z := do_rand rand_next.

Abbreviation grind_fork := (fork_or (line "grind: fork failed") []).
Abbreviation open_close p := (let! fd := open p CREATE_RW in close fd ;! Ret tt).

(** The calls 1 to 12: files and directories; the result is [fd] and [buf]. *)
Definition go_files (what fd : Z) (b : list Z) : prog (Z * list Z) :=
  if what =? 1 then open_close "grindir/../a" ;! Ret (fd, b)
  else if what =? 2 then open_close "grindir/../grindir/../b" ;! Ret (fd, b)
  else if what =? 3 then unlink "grindir/../a" ;! Ret (fd, b)
  else if what =? 4 then
    let! r := chdir "grindir" in
    oops (negb (r =? 0)) (line "grind: chdir grindir failed") [] ;!
    unlink "../b" ;!
    chdir "/" ;!
    Ret (fd, b)
  else if what =? 5 then
    close fd ;!
    let! fd := open "/grindir/../a" CREATE_RW in Ret (fd, b)
  else if what =? 6 then
    close fd ;!
    let! fd := open "/./grindir/./../b" CREATE_RW in Ret (fd, b)
  else if what =? 7 then sys (Swrite fd b) ;! Ret (fd, b)
  else if what =? 8 then
    let! '(_, bs) := sys (Sread fd 999) in Ret (fd, put_bytes b 0 bs)
  else if what =? 9 then
    mkdir "grindir/../a" ;!
    open_close "a/../a/./a" ;!
    unlink "a/a" ;!
    Ret (fd, b)
  else if what =? 10 then
    mkdir "/../b" ;!
    open_close "grindir/../b/b" ;!
    unlink "b/b" ;!
    Ret (fd, b)
  else if what =? 11 then
    unlink "b" ;!
    link "../grindir/./../a" "../b" ;!
    Ret (fd, b)
  else if what =? 12 then
    unlink "../grindir/../a" ;!
    link ".././b" "/grindir/../a" ;!
    Ret (fd, b)
  else Ret (fd, b).

(** The calls 13 to 20: processes, memory and a pipe. *)
Definition go_procs (what break0 : Z) : prog unit :=
  if what =? 13 then
    let! pid := sys Sfork in
    if pid =? 0 then exit 0
    else oops (pid <? 0) (line "grind: fork failed") [] ;! sys Swait ;! Ret tt
  else if what =? 14 then
    let! pid := sys Sfork in
    if pid =? 0 then sys Sfork ;! sys Sfork ;! exit 0
    else oops (pid <? 0) (line "grind: fork failed") [] ;! sys Swait ;! Ret tt
  else if what =? 15 then sys (Ssbrk 6011) ;! Ret tt
  else if what =? 16 then
    let! cur := sys (Ssbrk 0) in
    if break0 <? cur then
      let! cur := sys (Ssbrk 0) in
      sys (Ssbrk (i32 (- (cur - break0)))) ;!
      Ret tt
    else Ret tt
  else if what =? 17 then
    let! pid := sys Sfork in
    if pid =? 0 then open_close "a" ;! exit 0
    else
      oops (pid <? 0) (line "grind: fork failed") [] ;!
      let! r := chdir "../grindir/.." in
      oops (negb (r =? 0)) (line "grind: chdir failed") [] ;!
      sys (Skill pid) ;!
      sys Swait ;!
      Ret tt
  else if what =? 18 then
    let! pid := sys Sfork in
    if pid =? 0 then let! me := sys Sgetpid in sys (Skill me) ;! exit 0
    else oops (pid <? 0) (line "grind: fork failed") [] ;! sys Swait ;! Ret tt
  else if what =? 19 then
    let! '(fds0, fds1) := pipe_or (line "grind: pipe failed") [] in
    let! pid := sys Sfork in
    if pid =? 0 then
      sys Sfork ;!
      sys Sfork ;!
      let! r := sys (Swrite fds1 (bytes "x")) in
      (if negb (r =? 1) then printf (line "grind: pipe write failed") [] else Ret tt) ;!
      let! '(n, _) := sys (Sread fds0 1) in
      (if negb (n =? 1) then printf (line "grind: pipe read failed") [] else Ret tt) ;!
      exit 0
    else
      oops (pid <? 0) (line "grind: fork failed") [] ;!
      close fds0 ;!
      close fds1 ;!
      sys Swait ;!
      Ret tt
  else if what =? 20 then
    let! pid := sys Sfork in
    if pid =? 0 then
      unlink "a" ;!
      mkdir "a" ;!
      chdir "a" ;!
      unlink "../a" ;!
      open "x" CREATE_RW ;!
      unlink "x" ;!
      exit 0
    else oops (pid <? 0) (line "grind: fork failed") [] ;! sys Swait ;! Ret tt
  else Ret tt.

(** The call 21: a file that must be possible to create. *)
Definition go_create : prog unit :=
  unlink "c" ;!
  let! fd1 := open "c" CREATE_RW in
  oops (fd1 <? 0) (line "grind: create c failed") [] ;!
  let! r := sys (Swrite fd1 (bytes "x")) in
  oops (negb (r =? 1)) (line "grind: write c failed") [] ;!
  let! o := sys (Sfstat fd1) in
  match o with
  | None => printf (line "grind: fstat failed") [] ;! exit 1
  | Some st =>
    oops (negb (st_size st =? 1)) (line "grind: fstat reports wrong size %d") [VInt (i32 (st_size st))] ;!
    oops (200 <? st_ino st) (line "grind: fstat reports crazy i-number %d") [VInt (st_ino st)] ;!
    close fd1 ;!
    unlink "c" ;!
    Ret tt
  end.

Abbreviation grind_err c msg n := (if c then fprintf 2 (line msg) [] ;! exit n else Ret tt).

(** The call 22: [echo hi | cat]. *)
Definition go_pipeline : prog unit :=
  let! o := sys Spipe in
  match o with None => fprintf 2 (line "grind: pipe failed") [] ;! exit 1 | Some (aa0, aa1) =>
  let! o := sys Spipe in
  match o with None => fprintf 2 (line "grind: pipe failed") [] ;! exit 1 | Some (bb0, bb1) =>
  let! pid1 := sys Sfork in
  if pid1 =? 0 then
    close bb0 ;! close bb1 ;! close aa0 ;! close 1 ;!
    let! d := sys (Sdup aa1) in
    grind_err (negb (d =? 1)) "grind: dup failed" 1 ;!
    close aa1 ;!
    sys (Sexec (bytes "grindir/../echo") [bytes "echo"; bytes "hi"]) ;!
    fprintf 2 (line "grind: echo: not found") [] ;!
    exit 2
  else
    grind_err (pid1 <? 0) "grind: fork failed" 3 ;!
    let! pid2 := sys Sfork in
    if pid2 =? 0 then
      close aa1 ;! close bb0 ;! close 0 ;!
      let! d := sys (Sdup aa0) in
      grind_err (negb (d =? 0)) "grind: dup failed" 4 ;!
      close aa0 ;! close 1 ;!
      let! d := sys (Sdup bb1) in
      grind_err (negb (d =? 1)) "grind: dup failed" 5 ;!
      close bb1 ;!
      sys (Sexec (bytes "/cat") [bytes "cat"]) ;!
      fprintf 2 (line "grind: cat: not found") [] ;!
      exit 6
    else
      grind_err (pid2 <? 0) "grind: fork failed" 7 ;!
      close aa0 ;! close aa1 ;! close bb1 ;!
      let! '(_, r0) := sys (Sread bb0 1) in
      let! '(_, r1) := sys (Sread bb0 1) in
      let! '(_, r2) := sys (Sread bb0 1) in
      let got := cstr (put_bytes (put_bytes (put_bytes (replicate 4 0) 0 r0) 1 r1) 2 r2) in
      close bb0 ;!
      let! st1 := wait_xstatus in
      let! st2 := wait_xstatus in
      oops (negb (st1 =? 0) || negb (st2 =? 0) || negb (strcmp got (line "hi") =? 0))
        (bytes "grind: exec pipeline failed %d %d " ++ [34] ++ bytes "%s" ++ [34; 10]) [VInt st1; VInt st2; str got]
  end end.

(** The body of the loop of [go]. *)
Definition go_step (which_child break0 : Z) (st : Z * Z * Z * list Z) : prog (Z * Z * Z * list Z + void) :=
  let '(iters, rand_next, fd, b) := st in
  let iters := u64 (iters + 1) in
  (if iters mod 500 =? 0 then sys (Swrite 1 (if negb (which_child =? 0) then bytes "B" else bytes "A")) ;! Ret tt else Ret tt) ;!
  let rand_next := grind_rand rand_next in
  let what := rand_next mod 23 in
  let! '(fd, b) := go_files what fd b in
  go_procs what break0 ;!
  (if what =? 21 then go_create else if what =? 22 then go_pipeline else Ret tt) ;!
  Ret (inl (iters, rand_next, fd, b)).

Definition go (rand_next which_child : Z) : prog void :=
  let! break0 := sys (Ssbrk 0) in
  mkdir "grindir" ;!
  let! r := chdir "grindir" in
  oops (negb (r =? 0)) (line "grind: chdir grindir failed") [] ;!
  chdir "/" ;!
  ITree.iter (go_step which_child break0) (0, rand_next, -1, replicate 999 0).

Definition iter (rand_next : Z) : prog void :=
  unlink "a" ;!
  unlink "b" ;!
  let! pid1 := grind_fork in
  if pid1 =? 0 then go (Z.lxor rand_next 31) 0
  else
    let! pid2 := grind_fork in
    if pid2 =? 0 then go (Z.lxor rand_next 7177) 1
    else
      let! st1 := wait_st (-1) in
      (if negb (st1 =? 0) then sys (Skill pid1) ;! sys (Skill pid2) ;! Ret tt else Ret tt) ;!
      wait_st (-1) ;!
      exit 0.

Definition grind_main : prog void :=
  ITree.iter (fun rand_next =>
    let! pid := sys Sfork in
    if pid =? 0 then let! v := iter rand_next in match v : void with end
    else
      (if 0 <? pid then sys Swait ;! Ret tt else Ret tt) ;!
      sys (Ssleep 20) ;!
      Ret (inl (u64 (rand_next + 1)))) 1.
